(* ===== verification/_CoqProject ===== *)
-Q . S2P
Prelude.v
CFloat.v
CRound.v
CCanon.v
CComplex.v
BlockingQueue.v
Bch.v
Crc.v
QpskDemod.v
FrameDecode.v
DopplerBuf.v
Mat4.v
Doppler.v
CString.v
LcwFormat.v
IdaDecode.v
IdaReassemble.v
Sbd.v
Vita49.v
Kermit.v
JsonText.v
CNumber.v
CFormat.v
BeamCache.v
CTable.v
WaypointDb.v
AircraftDb.v
BaseStation.v
FrameOutput.v
Demod.v
DemodSpec.v
Kernels.v
Simd.v
BurstDownmix.v
Gsmtap.v
Sigmf.v
Options.v
AcarsPos.v
Acars.v
AcarsShown.v
LibAcars.v
Feeds.v
Receiver.v
BurstDetect.v
Capture.v
Gpu.v
GpuSetup.v
Sidekiq.v
Radio.v
Devices.v
Avx2.v
Neon.v
Stats.v
WebMap.v
WebJson.v
WebServer.v
Station.v
Program.v
Shutdown.v
Startup.v
