(* ===== verification/Prelude.v ===== *)
(** * Verification of iridium-sniffer

    iridium-sniffer receives the downlink and uplink of the Iridium satellites.
    Samples come from a radio, a file or the network; a detector cuts bursts out
    of them, a demodulator turns bursts into frames of bits, and decoders turn
    frames into ring alerts, broadcasts and data (IDA) bursts.  Data bursts are
    assembled into messages, messages into SBD packets, and packets into ACARS
    reports, which leave the program as text, JSON, map entries and aircraft
    positions.

    This development models the whole path from samples to those outputs: the
    detector, the downmixer with its filters and kernels, the demodulator, the
    decoders, the assemblers, the position solver and the outputs, together with
    the queues between the threads, the inputs from radios, files and the network,
    the GPU back ends and the command line.  It proves that each stage does what
    the next one relies on.

    ** Files, in dependency order, and the code they model

    - [Prelude.v] (this file): machine integers as [Z] with their wrap-around,
      C array reads, slices, bit lemmas, the hint databases and tactics.
    - [CFloat.v]: IEEE binary64 and binary32 on the standard library's
      [spec_float]; [CRound.v]: what rounding can and cannot do to a comparison;
      [CCanon.v]: results are canonical, so comparisons compare values;
      [CComplex.v]: [float complex] with the multiplication of annex G.
    - [CString.v], [CFormat.v]: formatted output of integers,
      numbers and dates; [CNumber.v]: C strings as byte lists, [strtod],
      [atoi], [strstr]; [CTable.v]: [fgets], [strcmp], [qsort] and [bsearch] on
      tables with string keys.
    - [BlockingQueue.v] (blocking_queue.h, fair_lock.h): the queues between the
      threads, as a transition system whose steps are the critical sections.
    - [BurstDetect.v] (burst_detect.c, simd_generic.c): the burst detector from
      spectra to the samples of each burst, on its CPU and GPU paths.
    - [Kernels.v] (simd_generic.c, simd_kernels.h, fir_filter.c, window_func.c,
      rotator.h): the scalar kernels as a table ([kernels], the function pointers
      [simd_init] sets; the class [KernelsOk] is what callers rely on), filter
      design and rotator; [Simd.v] (simd_sse42.c): the SSE4.2 kernels lane by lane;
      [Avx2.v] (simd_avx2.c) and [Neon.v] (simd_neon.c): the kernels with fused
      multiply-add, the fusing of the scalar tails being a parameter
      ([contraction]).
    - [Gpu.v] (vulkan/burst_fft.c, opencl/burst_fft.c): a batch on either device,
      with its buffers, as a plugin of the detector; the class [VkFFT] is what is
      relied on of the transform.  [GpuSetup.v] (the same, burst_detect.c):
      creation with its error labels, validation, destruction and the loader.
    - [BurstDownmix.v] (burst_downmix.c): coarse correction, decimation, start
      of the burst, fine frequency, matched filter, correlation with the sync
      words, frame extraction; [burst_downmix_process] and the thread around it.
    - [QpskDemod.v] (qpsk_demod.c, iridium.h): unique word, differential
      decoding, bit mapping; the record [demod_frame] the decoders consume.
      [Demod.v]: the rest of qpsk_demod.c, from samples to that record (timing
      loop, phase loop, soft check, reliabilities); [DemodSpec.v]: its theorems.
    - [DopplerBuf.v], [Mat4.v], [Doppler.v] (doppler_pos.c, wgs84.h): the
      measurement store, the matrix inversion and the position solver.
    - [Bch.v] (frame_decode.c): bit readers, polynomial remainder, syndrome
      tables and correction.  [Crc.v] (ida_decode.c): CRC-CCITT.
      [Kermit.v] (sbd_acars.c): the table-driven CRC-16/Kermit.
    - [FrameDecode.v] (frame_decode.c): ring alerts (IRA) and broadcasts (IBC);
      [tables] is the static syndrome tables, [frame_decode] the entry point.
    - [LcwFormat.v], [IdaDecode.v] (ida_decode.c): Link Control Word, soft and
      hard payload decoding, [ida_decode].
    - [IdaReassemble.v] (ida_decode.c): [ida_context] is the array of sixteen
      slots; [ida_reassemble] and [ida_reassemble_flush] are its operations.
    - [Sbd.v] (sbd_acars.c): [sbd_state] is the slots and counters;
      [sbd_extract], [acars_ida_cb].
    - [Vita49.v] (vita49.c): packet parsing, [handle_packet] is the body of the
      receive loop on [v49_state].
    - [JsonText.v] (sbd_acars.c): JSON escaping and the fixed output buffers.
    - [BeamCache.v] (main.c), [WaypointDb.v] (waypoint_db.c): the two sources of
      positions; the class [WaypointSource] is the promise of the database to
      the text parser.
    - [AircraftDb.v] (aircraft_db.c), [BaseStation.v] (basestation.c): addresses
      of aircraft, the SBS feed with its track cache and its connections; the
      class [AddressSource] is the promise of the database to the feed.
    - [FrameOutput.v] (frame_output.c), [Gsmtap.v] (gsmtap.c, main.c): RAW and
      IDA lines, GSMTAP datagrams.
    - [Sigmf.v] (sigmf.c), [Options.v] (options.c, main.c): metadata of
      recordings and the command line.
    - [AcarsPos.v], [Acars.v] (sbd_acars.c): positions in free text, and the
      message parser of builds without libacars with all its outputs.
      [AcarsShown.v]: what such an output must say of the message received.
      [LibAcars.v]: the parser of builds with libacars, whose decoder is a
      parameter.  [Feeds.v] (sbd_acars.c, net_util.h): the sockets of the outputs,
      on a system whose answers are an oracle.
    - [Receiver.v] (main.c): [frame_consumer_thread] and [output_thread_fn],
      which put the stages together.
    - [Capture.v] (main.c, burst_detect.c): the file reader and the socket
      subscriber, the conversion of buffers, and the chain of threads from a
      recording to frames ([receive_file]).  [Stats.v] (main.c): the statistics
      thread with its periodic position.
    - [Sidekiq.v] (sidekiq.c), [Radio.v] (hackrf.c, bladerf.c, usrp.c, soapysdr.c,
      sdrplay.c): setting up a radio, its callbacks and stream loops; what the
      drivers return is an argument.  [Devices.v] (the same, options.c): the lists
      of devices and the choice among them by name.
    - [WebMap.v], [WebJson.v], [WebServer.v] (web_map.c): the stores behind the
      map ([web_state], one step per call), the JSON text with its growing
      offset, requests, responses and the count of streaming clients.
    - [Station.v] (main.c): the events of the output thread as operations of the
      map and GSMTAP datagrams.
    - [Program.v] (main.c): the program on a recording, [run_recording], from the
      bytes of the file to the map and the datagrams.
    - [Shutdown.v] (main.c, burst_detect.c, burst_downmix.c): the threads and their
      bounded queues as a transition system on a recording, with the sequence in
      which [main] closes the queues and joins the threads.  [Startup.v] (main.c):
      the initialisations, the threads and the choice of the source, in order.

    ** How code becomes definitions

    A C function is a function on values: the structures it changes are passed
    and returned, callbacks and calls into unmodelled parts are returned as
    values (messages, packets, events), an early return is the corresponding
    branch, a failure is [None].  Names follow the source.  Integers are [Z];
    where the width matters the wrap-around is written out ([u8] .. [u64],
    [to_signed]).  Floating-point operations are the correctly rounded ones, in
    the order of the source and without contraction into fused operations, as a
    compiler for a target without them translates it (the AVX2 and NEON kernels,
    where the source or the compiler fuses, excepted); the functions of libm
    ([atan2], [sin], [log10], ...) and the transforms of FFTW are parameters
    wherever they are used.  Work buffers of fixed size are modelled with their
    size: a step that would leave one is a result of its own ([None] of the
    downmixer, [DemodOverrun] of the demodulator).  Memory the code reads without having written it is an
    argument (the two stack arrays of [descramble_payload], the bytes behind the
    bit stream in [ida_line]).  What the clocks say is an argument.

    Loops that are not structural carry fuel, and the fuel is shown to be
    enough: the block loops of the decoders advance by 64 bits in a buffer of
    known length ([more_blocks_terminates]), reading lines and scanning for
    waypoints consume a character per round ([scan_waypoints_fields] proves
    the scan equal to a search over the fields of the text), bisection halves
    its range ([bsearch_complete]).  The timing loop of the demodulator has no
    fixed bound in the code: its fuel is twice the number of samples plus one, it
    ends when every round advances, and [demod_in_bounds] shows in floating-point
    arithmetic that it always does at ten samples per symbol; running out of fuel
    is a result of its own ([DemodEndless]).  The reader of a file has one round
    per block and one more for the end.

    ** What the theorems show

    - Error correction: the tables invert every error pattern within the radius
      of each code; frames with that many flipped bits decode to the fields that
      were sent ([ida_frame_decoded], [ira_frame_decoded], [ibc_frame_decoded],
      [lcw_decoded]; [lcw2_padding_costs] is the part of the Link Control Word that
      is less protected than it could be); soft decoding is sound and complete for its search.
    - Arbitrary input: the decoders return nothing or a well-formed result
      ([frame_decode_result], [ida_decode_result]).
    - Assembly: abstract specifications of a message as a chain of fragments,
      refinement (only chains are delivered, [reassembly_refines_chains],
      [sbd_refines_chains]) and delivery amid other traffic
      ([interleaved_delivery], [sbd_multi_delivery]).  A message holds all its
      fragments up to 256 bytes; beyond, whole fragments are missing.
    - ACARS: the checks accept exactly the transmitted messages
      ([acars_accept_exact]), nothing damaged is forwarded, escaped text reads
      back, positions are only those written in the text.
    - Composition: [acars_end_to_end] shows that a report has the fields of the
      message received, and follows it back through packet and message to the
      bursts, [station_shows_received] does so for
      everything the map and the GSMTAP socket show, and
      [recording_shows_received] starts from the bytes of a recording.
    - Signals: a burst with ideal pulses is demodulated exactly
      ([demod_roundtrip]); whatever is received the demodulator ends, stays in
      its buffers ([demod_in_bounds]) and gives well-formed frames
      ([demod_frame_well_formed]).  The downmixer stays in its buffers
      ([downmix_in_bounds]) and cuts the frame where the correlation puts the
      unique word ([sync_alignment]).  The SSE4.2 kernels compute the bits of the scalar ones
      ([sse42_matches_scalar]), the AVX2 ones those bits or those of the scalar loops
      with fused operations ([avx2_matches]), and a batch on either GPU back end is
      its frames one by one ([gpu_batches_framewise]).  [chain_safe] composes the stages (the class
      [KernelsCanon] is what the demodulator needs of the filters: floats in,
      floats out), and [recording_bursts_exact] follows samples from the file to
      the bursts, given a ring larger than the longest burst and a block, which the
      program's own is at the usual rates ([default_rings], [low_rate_ring]).
    - Position: the store refines the list of the current pass
      ([doppler_store_refines]), inversion is exact in exact arithmetic
      ([mat4_invert_exact]), reported solutions count enough measurements and
      do not jump ([solutions_sound], [moves_held_back]).
    - Detection: [bursts_tracked] is the invariant of the tracked bursts,
      [bursts_delivered] the independence of the result from the cutting of the
      stream and from the path, [burst_samples_exact] what the samples are.
    - Resources: creating a GPU context gives back what it took, but for the cases
      listed ([gpu_create_balanced], [opencl_create_balanced]); no descriptor is
      leaked or used after it was closed ([feeds_closed]); a Sidekiq card is
      released on every path ([sidekiq_setup_balanced]).
    - Threads: the queue is first-in first-out under any interleaving
      ([queue_fifo]; its waits are not in loops, so a run with a spurious wake-up that
      finds the queue still full or empty is excepted), never loses a wake-up ([no_lost_wakeup]) and drains when
      closed ([close_drains]); at most eight clients stream
      ([sse_clients_bounded]); connections are closed exactly once
      ([bs_connections]).  However the threads interleave, nothing is lost when the
      program stops ([shutdown_loses_nothing]), and it does stop but for one race
      ([shutdown_ends]).  No step or thread calls what was not set up before it
      ([startup_ready]).
    - Outputs: the map's stores refine logs ([web_stores_log]) and keep their
      invariant ([web_invariant]), its text is JSON ([build_json_wellformed]),
      lines and datagrams read back as what was sent ([ida_line_roundtrip],
      [gsmtap_roundtrip], [sbs_line_fields]).
    - Input: VITA 49 packets deliver their payload, context packets are read at
      the right offsets and never override the command line; of an accepted
      command line it is stated what was checked ([options_accepted]) and overrides metadata
      ([explicit_rate_wins]).  A radio that is set up is tuned ([radio_tuned]), the
      detector reads what it delivered ([radio_samples]), and lost samples fall
      between two buffers ([sidekiq_runs]).  The name a device is listed under
      selects it ([listed_selects]).
    - Counters: whatever libacars decodes, each message places at most one aircraft,
      and the statistics are the numbers of what was done ([libacars_accounts]).

    ** What is not modelled

    - Third-party code: the vendored JSON library and vkFFT, the driver libraries
      of the radios, Vulkan and OpenCL, libacars, FFTW and libm.  What the program
      uses of them is a parameter or an argument.
    - Sockets, files, threads and memory allocation as such: what they deliver is
      an argument, what is sent is a result.
    - What [main] frees after the threads have ended, the files of FFTW plans, help
      texts, the text of the map's page, debug output; the
      barrier shim, which nothing uses. *)

From Stdlib Require Export ZArith Lia Sorted.
From stdpp Require Export prelude.


(** * Scope and notations *)

Declare Scope sniffer_scope.
Delimit Scope sniffer_scope with sniff.
Open Scope Z_scope.

(** Machine-width wrap-around of the unsigned C integer types. *)
Definition u8 (x : Z) : Z := x mod 2 ^ 8.
Definition u16 (x : Z) : Z := x mod 2 ^ 16.
Definition u32 (x : Z) : Z := x mod 2 ^ 32.
Definition u64 (x : Z) : Z := x mod 2 ^ 64.

(** Two's-complement reading of a w-bit pattern (the C conversion of an
    unsigned value to the signed type of the same width). *)
Definition to_signed (w x : Z) : Z :=
  let y := x mod 2 ^ w in if y <? 2 ^ (w - 1) then y else y - 2 ^ w.

(** C's array read [l[i]]: the models only rely on it inside the array, and
    the bounds lemmas of each component show that the index is in range. *)
Definition rd (l : list Z) (i : nat) : Z := nth i l 0.

Notation "l .[ i ]" := (rd l i) (at level 1, left associativity, format "l .[ i ]")
  : sniffer_scope.
Open Scope sniffer_scope.

(** A demodulated bit is a byte holding 0 or 1; a byte is 0..255. *)
Definition is_bit (b : Z) : Prop := b = 0 \/ b = 1.
Definition is_byte (b : Z) : Prop := 0 <= b < 256.
Abbreviation bits_ok := (Forall is_bit).
Abbreviation bytes_ok := (Forall is_byte).

#[export] Instance is_bit_dec b : Decision (is_bit b).
Proof. unfold is_bit. apply _. Defined.
#[export] Instance is_byte_dec b : Decision (is_byte b).
Proof. unfold is_byte. apply _. Defined.

(** [for (s = hi; s >= lo; s -= step)]: the loop values in order. *)
Fixpoint down_from (fuel : nat) (s lo step : Z) : list Z :=
  match fuel with
  | O => []
  | S f => if lo <=? s then s :: down_from f (s - step) lo step else []
  end.
Definition down_range (hi lo step : Z) : list Z :=
  down_from (Z.to_nat (hi - lo + 1)) hi lo step.

(** Elements [from] to [to - 1]. *)
Definition slice {A} (l : list A) (from to : nat) : list A := take (to - from) (drop from l).

(** The elements of [l] under a condition. *)
Definition when {A} (b : bool) (l : list A) : list A := if b then l else [].

(** * Hint databases and tactics *)

Create HintDb sniff discriminated.
Create Rewrite HintDb bitsimp.

Lemma u32_range x : 0 <= u32 x < 2 ^ 32.
Proof. apply Z.mod_pos_bound. lia. Qed.
Lemma u16_range x : 0 <= u16 x < 2 ^ 16.
Proof. apply Z.mod_pos_bound. lia. Qed.
Lemma u8_range x : 0 <= u8 x < 2 ^ 8.
Proof. apply Z.mod_pos_bound. lia. Qed.
Lemma u64_range x : 0 <= u64 x < 2 ^ 64.
Proof. apply Z.mod_pos_bound. lia. Qed.
Lemma u32_small x : 0 <= x < 2 ^ 32 -> u32 x = x.
Proof. apply Z.mod_small. Qed.
Lemma u16_small x : 0 <= x < 2 ^ 16 -> u16 x = x.
Proof. apply Z.mod_small. Qed.
Lemma u64_small x : 0 <= x < 2 ^ 64 -> u64 x = x.
Proof. apply Z.mod_small. Qed.

Lemma u32_testbit x i : 0 <= i < 32 -> Z.testbit (u32 x) i = Z.testbit x i.
Proof. intros. unfold u32. apply Z.mod_pow2_bits_low. lia. Qed.

Lemma testbit_high x n i : 0 <= x < 2 ^ n -> n <= i -> Z.testbit x i = false.
Proof.
  intros Hx Hi. destruct (decide (n < 0)) as [Hn|Hn].
  - rewrite Z.pow_neg_r in Hx by lia. lia.
  - rewrite <- (Z.mod_small x (2 ^ n)) by lia. apply Z.mod_pow2_bits_high. lia.
Qed.

Lemma bits_lt_pow2 x n :
  0 <= n -> 0 <= x -> (forall i, n <= i -> Z.testbit x i = false) -> x < 2 ^ n.
Proof.
  intros Hn Hx Hb. destruct (decide (x = 0)) as [->|Hne]; [lia|].
  apply Z.log2_lt_pow2; [lia|]. apply Z.nle_gt. intros Hle.
  specialize (Hb _ Hle). rewrite Z.bit_log2 in Hb by lia. done.
Qed.

Lemma lxor_range a b n :
  0 <= n -> 0 <= a < 2 ^ n -> 0 <= b < 2 ^ n -> 0 <= Z.lxor a b < 2 ^ n.
Proof.
  intros Hn Ha Hb. assert (0 <= Z.lxor a b) by (apply Z.lxor_nonneg; lia).
  split; [done|]. apply bits_lt_pow2; [done..|]. intros i Hi.
  by rewrite Z.lxor_spec, (testbit_high a n), (testbit_high b n) by lia.
Qed.

Lemma lor_range a b n :
  0 <= n -> 0 <= a < 2 ^ n -> 0 <= b < 2 ^ n -> 0 <= Z.lor a b < 2 ^ n.
Proof.
  intros Hn Ha Hb. assert (0 <= Z.lor a b) by (apply Z.lor_nonneg; lia).
  split; [done|]. apply bits_lt_pow2; [done..|]. intros i Hi.
  by rewrite Z.lor_spec, (testbit_high a n), (testbit_high b n) by lia.
Qed.

Lemma lxor_cancel a b : Z.lxor (Z.lxor a b) b = a.
Proof. by rewrite Z.lxor_assoc, Z.lxor_nilpotent, Z.lxor_0_r. Qed.

Lemma lxor_swap a b c d :
  Z.lxor (Z.lxor a b) (Z.lxor c d) = Z.lxor (Z.lxor a c) (Z.lxor b d).
Proof.
  apply Z.bits_inj. intros i. rewrite !Z.lxor_spec.
  by destruct (Z.testbit a i), (Z.testbit b i), (Z.testbit c i), (Z.testbit d i).
Qed.

(** Appending one bit below: the shift-or idiom of the bit readers. *)
Lemma shift_or_bit v b : 0 <= v -> is_bit b -> Z.lor (Z.shiftl v 1) b = 2 * v + b.
Proof.
  intros Hv [->| ->].
  - rewrite Z.lor_0_r, Z.shiftl_mul_pow2 by lia. lia.
  - by destruct v as [|p|p].
Qed.

(** Or-ing a value below a shifted one adds it. *)
Lemma lor_shiftl_add a b n : 0 <= n -> 0 <= b < 2 ^ n -> Z.lor (Z.shiftl a n) b = a * 2 ^ n + b.
Proof.
  intros Hn Hb. assert (Z.land (Z.shiftl a n) b = 0) as H0.
  { apply Z.bits_inj_0. intros i. rewrite Z.land_spec.
    destruct (decide (n <= i)); [by rewrite (testbit_high b n), andb_false_r by lia|].
    destruct (decide (i < 0)); [by rewrite Z.testbit_neg_r by lia|]. by rewrite Z.shiftl_spec_low by lia. }
  rewrite <- Z.lxor_lor, <- Z.add_nocarry_lxor, Z.shiftl_mul_pow2 by done. done.
Qed.

Lemma is_bit_range b : is_bit b -> 0 <= b <= 1.
Proof. unfold is_bit. lia. Qed.
Lemma is_bit_land x : is_bit (Z.land x 1).
Proof. change 1 with (Z.ones 1). rewrite Z.land_ones by lia. unfold is_bit.
  pose proof (Z.mod_pos_bound x (2 ^ 1)). lia. Qed.
Lemma is_bit_land_id b : is_bit b -> Z.land b 1 = b.
Proof. by intros [->| ->]. Qed.

(** Masks of the form [2^n - 1] are remainders. *)
Lemma land_mask x m n : 0 <= n -> m = 2 ^ n - 1 -> Z.land x m = x mod 2 ^ n.
Proof. intros Hn ->. rewrite <- Z.land_ones by done. f_equal. rewrite Z.ones_equiv. lia. Qed.

Lemma rd_bit l i : bits_ok l -> is_bit (l.[i]).
Proof.
  intros Hl. unfold rd. destruct (decide (i < length l)%nat) as [Hi|Hi].
  - rewrite Forall_forall in Hl. apply Hl. apply list_elem_of_In, nth_In. lia.
  - rewrite nth_overflow by lia. by left.
Qed.

Lemma slice_app_r {A} (l m : list A) i j :
  (length l <= i)%nat -> slice (l ++ m) i j = slice m (i - length l) (j - length l).
Proof.
  intros Hi. unfold slice. rewrite drop_app_ge by done. f_equal. lia.
Qed.

Lemma slice_app_l {A} (l m : list A) i j :
  (j <= length l)%nat -> slice (l ++ m) i j = slice l i j.
Proof.
  intros Hj. unfold slice. destruct (decide (i <= length l)%nat) as [Hi|Hi].
  - rewrite drop_app_le by done. apply take_app_le. rewrite length_drop. lia.
  - by replace (j - i)%nat with 0%nat by lia.
Qed.

Lemma length_slice {A} (l : list A) i j :
  (j <= length l)%nat -> length (slice l i j) = (j - i)%nat.
Proof. intros. unfold slice. rewrite length_take, length_drop. lia. Qed.

Lemma slice_slice {A} (l : list A) a b i j :
  (a + j <= b)%nat -> slice (slice l a b) i j = slice l (a + i) (a + j).
Proof.
  intros H. unfold slice. rewrite skipn_firstn_comm, take_take, drop_drop. f_equal. lia.
Qed.

Lemma slice_split {A} (l : list A) a b c :
  (a <= b)%nat -> (b <= c)%nat -> slice l a c = slice l a b ++ slice l b c.
Proof.
  intros Hab Hbc. unfold slice. replace (c - a)%nat with ((b - a) + (c - b))%nat by lia.
  rewrite <- (take_take_drop _ (b - a)%nat (c - b)%nat), drop_drop. do 3 f_equal. lia.
Qed.

Lemma slice_bits_ok l i j : bits_ok l -> bits_ok (slice l i j).
Proof. intros. unfold slice. by apply Forall_take, Forall_drop. Qed.

Lemma seq_shift_n n m : seq n m = map (Nat.add n) (seq 0 m).
Proof.
  revert n. induction m as [|m IH]; intros n; [done|]. cbn [seq map]. rewrite Nat.add_0_r. f_equal.
  rewrite (IH (S n)), (IH 1%nat), map_map. apply map_ext. intros. lia.
Qed.

(** Ordered lists. *)
Section order.
Context {A : Type} (R : A -> A -> Prop).

Lemma sorted_snoc l a : StronglySorted R l -> Forall (fun x => R x a) l -> StronglySorted R (l ++ [a]).
Proof.
  intros Hs. induction Hs as [|x l Hl IH Hx]; intros Hf; [by repeat constructor|].
  apply Forall_cons in Hf as [Hxa Hf]. cbn. constructor; [by apply IH|]. apply Forall_app. by split; [|repeat constructor].
Qed.

Lemma sorted_filter f l : StronglySorted R l -> StronglySorted R (List.filter f l).
Proof.
  induction 1 as [|x l Hl IH Hx]; cbn; [constructor|]. destruct (f x); [|done]. constructor; [done|].
  rewrite Forall_forall in *. intros y Hy%list_elem_of_In%filter_In. apply Hx, list_elem_of_In, Hy.
Qed.

Lemma sorted_take l n : StronglySorted R l -> StronglySorted R (take n l).
Proof.
  intros Hs. revert n. induction Hs as [|x l Hl IH Hx]; intros [|n]; cbn; [constructor..|].
  constructor; [done|]. by apply Forall_take.
Qed.
End order.

Lemma sorted_rev {A} (R : A -> A -> Prop) l : StronglySorted R l -> StronglySorted (flip R) (rev l).
Proof.
  induction 1 as [|x l Hl IH Hx]; [constructor|]. cbn. apply sorted_snoc; [done|]. by apply Forall_rev.
Qed.

#[export] Hint Resolve u8_range u16_range u32_range u64_range is_bit_range is_bit_land slice_bits_ok : sniff.
#[export] Hint Rewrite Z.lxor_spec Z.land_spec Z.lor_spec Z.bits_0 : bitsimp.

(** Split a boolean guard of the code and turn it into the arithmetic fact. *)
Ltac zguard :=
  match goal with
  | |- context [?a <=? ?b] => destruct (Z.leb_spec a b)
  | |- context [?a <? ?b] => destruct (Z.ltb_spec a b)
  | |- context [?a =? ?b] => destruct (Z.eqb_spec a b)
  end.
Ltac zguards := repeat zguard; try lia.

(** Turn a conjunction of boolean tests in the hypotheses into facts. *)
Ltac bsplit :=
  repeat match goal with
  | H : (_ && _) = true |- _ => apply andb_true_iff in H; destruct H
  | H : (_ || _) = false |- _ => apply orb_false_iff in H; destruct H
  | H : negb _ = true |- _ => apply negb_true_iff in H
  | H : negb _ = false |- _ => apply negb_false_iff in H
  | H : (_ =? _) = true |- _ => apply Z.eqb_eq in H
  | H : (_ =? _) = false |- _ => apply Z.eqb_neq in H
  | H : (_ <? _) = true |- _ => apply Z.ltb_lt in H
  | H : (_ <? _) = false |- _ => apply Z.ltb_ge in H
  | H : (_ <=? _) = true |- _ => apply Z.leb_le in H
  | H : (_ <=? _) = false |- _ => apply Z.leb_gt in H
  end.

(** Case on a list of known length, element by element. *)
Ltac explode_list l :=
  match goal with
  | H : length l = O |- _ => destruct l; [clear H | discriminate H]
  | H : length l = S _ |- _ =>
      let x := fresh "x" in let l' := fresh "l" in
      destruct l as [|x l']; [discriminate H | simpl in H; apply eq_add_S in H; explode_list l']
  end.

(** Decidable side conditions, evaluated. *)
Ltac eval_dec := apply (bool_decide_unpack _); vm_compute; exact I.
