(* ===== verification/CFloat.v ===== *)
(** IEEE-754 arithmetic of the C types [double] and [float], on the standard
    library's executable [spec_float] (round to nearest, ties to even).  The
    operations are the correctly rounded ones C implementations provide for
    [+ - * /], [sqrt], [fabs], comparisons and conversions; the transcendental
    functions of libm are not correctly rounded and stay parameters of the
    models that call them. *)
From S2P Require Import Prelude.
From Stdlib Require Export SpecFloat.

(** * Definitions *)

Abbreviation f64 := spec_float (only parsing).
Abbreviation f32 := spec_float (only parsing).

#[export] Instance spec_float_eq_dec : EqDecision spec_float.
Proof. solve_decision. Defined.
#[export] Instance spec_float_inhabited : Inhabited spec_float := populate (S754_zero false).

Definition f64_add : f64 -> f64 -> f64 := SFadd 53 1024.
Definition f64_sub : f64 -> f64 -> f64 := SFsub 53 1024.
Definition f64_mul : f64 -> f64 -> f64 := SFmul 53 1024.
Definition f64_div : f64 -> f64 -> f64 := SFdiv 53 1024.
Definition f64_sqrt : f64 -> f64 := SFsqrt 53 1024.
Definition f64_abs : f64 -> f64 := SFabs.
Definition f64_opp : f64 -> f64 := SFopp.
Definition f64_ltb : f64 -> f64 -> bool := SFltb.
Definition f64_leb : f64 -> f64 -> bool := SFleb.
Definition f64_gtb (a b : f64) : bool := SFltb b a.

(** [(double)z]. *)
Definition f64_of_Z (z : Z) : f64 := binary_normalize 53 1024 z 0 false.

(** A decimal literal [num / den], correctly rounded. *)
Definition f64_lit (num den : positive) : f64 :=
  let '(m, e, l) := SFdiv_core_binary 53 1024 (Z.pos num) 0 (Z.pos den) 0 in binary_round_aux 53 1024 false m e l.

(** [round(x)]: to the nearest integer, halves away from zero. *)
Definition f64_round (x : f64) : f64 :=
  match x with
  | S754_finite s m e =>
      if 0 <=? e then x
      else binary_normalize 53 1024 (cond_Zopp s ((Z.pos m + 2 ^ (- e - 1)) / 2 ^ (- e))) 0 s
  | _ => x
  end.

(** [(int)x]: truncation towards zero.  C leaves the conversion of NaN, of
    infinities and of values outside [int] undefined; the model gives 0 for
    the first two and the mathematical value for the last. *)
Definition f64_trunc (x : f64) : Z :=
  match x with
  | S754_finite s m e =>
      let v := if 0 <=? e then Z.pos m * 2 ^ e else Z.pos m / 2 ^ (- e) in
      if s then - v else v
  | _ => 0
  end.

Definition f32_add : f32 -> f32 -> f32 := SFadd 24 128.
Definition f32_mul : f32 -> f32 -> f32 := SFmul 24 128.
Definition f32_div : f32 -> f32 -> f32 := SFdiv 24 128.
Definition f32_ltb : f32 -> f32 -> bool := SFltb.
Definition f32_of_Z (z : Z) : f32 := binary_normalize 24 128 z 0 false.
Definition f32_sub : f32 -> f32 -> f32 := SFsub 24 128.
Definition f32_sqrt : f32 -> f32 := SFsqrt 24 128.
Definition f32_abs : f32 -> f32 := SFabs.
Definition f32_opp : f32 -> f32 := SFopp.
Definition f32_leb : f32 -> f32 -> bool := SFleb.
Definition f32_gtb (a b : f32) : bool := SFltb b a.
Definition f32_zero : f32 := S754_zero false.
Definition f32_one : f32 := f32_of_Z 1.
Definition f32_lit (num den : positive) : f32 :=
  let '(m, e, l) := SFdiv_core_binary 24 128 (Z.pos num) 0 (Z.pos den) 0 in binary_round_aux 24 128 false m e l.

(** [(float)x] of a [double], and [(double)x] of a [float] (exact). *)
Definition f32_of_f64 (x : f64) : f32 :=
  match x with S754_finite s m e => binary_normalize 24 128 (cond_Zopp s (Z.pos m)) e s | _ => x end.
Definition f64_of_f32 (x : f32) : f64 :=
  match x with S754_finite s m e => binary_normalize 53 1024 (cond_Zopp s (Z.pos m)) e s | _ => x end.

(** [fmodf(x, y)], which is exact: the remainder of the truncated quotient, with
    the sign of [x]. *)
Definition f32_fmod (x y : f32) : f32 :=
  match x, y with
  | S754_nan, _ | _, S754_nan | S754_infinity _, _ | _, S754_zero _ => S754_nan
  | S754_zero _, _ | _, S754_infinity _ => x
  | S754_finite sx mx ex, S754_finite _ my ey =>
      let e := Z.min ex ey in
      binary_normalize 24 128 (cond_Zopp sx ((Z.pos mx * 2 ^ (ex - e)) mod (Z.pos my * 2 ^ (ey - e)))) e sx
  end.

(** [M_PI]: 3.14159265358979323846 rounded to binary64. *)
Definition M_PI : f64 := S754_finite false 7074237752028440 (-51).

(** * Facts *)

Definition f_nan (x : spec_float) : bool :=
  match x with S754_nan => true | _ => false end.

(** A value never differs from itself by more than a positive bound. *)
Lemma f64_sub_self x : f64_sub x x = S754_nan \/ exists s, f64_sub x x = S754_zero s.
Proof.
  destruct x as [s|s| |s m e]; unfold f64_sub; simpl; try (destruct s; by eauto).
  - by left.
  - right. rewrite Z.min_id. rewrite Z.sub_diag. by eexists.
Qed.

Lemma f64_self_close x b : f64_ltb (S754_zero false) b = true ->
  f64_gtb (f64_abs (f64_sub x x)) b = false.
Proof.
  intros Hb. unfold f64_gtb, f64_abs.
  destruct (f64_sub_self x) as [->|[s ->]]; destruct b as [[]|[]| |[] m e]; done.
Qed.

(** [<] on floating-point values is a strict order, NaN included. *)
Definition mag_lt (m1 : positive) (e1 : Z) (m2 : positive) (e2 : Z) : Prop :=
  e1 < e2 \/ e1 = e2 /\ (m1 < m2)%positive.

Lemma f32_ltb_finite s1 m1 e1 s2 m2 e2 :
  f32_ltb (S754_finite s1 m1 e1) (S754_finite s2 m2 e2) = true <->
  match s1, s2 with
  | true, false => True
  | false, true => False
  | false, false => mag_lt m1 e1 m2 e2
  | true, true => mag_lt m2 e2 m1 e1
  end.
Proof.
  unfold f32_ltb, SFltb, mag_lt. simpl. change (Pos.compare_cont Eq m1 m2) with (Pos.compare m1 m2).
  destruct s1, s2; try (split; done).
  - destruct (Z.compare_spec e1 e2); destruct (Pos.compare_spec m1 m2); simpl; split; (done || lia).
  - destruct (Z.compare_spec e1 e2); destruct (Pos.compare_spec m1 m2); simpl; split; (done || lia).
Qed.

Lemma f32_ltb_trans x y z : f32_ltb x y = true -> f32_ltb y z = true -> f32_ltb x z = true.
Proof.
  destruct x as [sx|sx| |sx mx ex], y as [sy|sy| |sy my ey], z as [sz|sz| |sz mz ez];
    try done; try (by destruct sx); try (by destruct sy); try (by destruct sz);
    try (by destruct sx, sy); try (by destruct sy, sz); try (by destruct sx, sz);
    try (by destruct sx, sy, sz).
  rewrite !f32_ltb_finite. unfold mag_lt. destruct sx, sy, sz; try done; lia.
Qed.

Lemma f32_ltb_irrefl x : f32_ltb x x = false.
Proof.
  apply not_true_iff_false. intros H. destruct x as [s|s| |s m e]; [done|by destruct s|done|].
  apply f32_ltb_finite in H. unfold mag_lt in H. destruct s; lia.
Qed.
