(* ===== verification/CRound.v ===== *)
(** What rounding does in the binary64 arithmetic of [CFloat.v]: a result never
    crosses a representable number, so comparing a rounded quotient or a
    converted integer with a representable bound decides the exact comparison.

    A positive dyadic number is a mantissa and an exponent; [dle] compares two of
    them exactly. *)
From S2P Require Import Prelude CFloat.
#[local] Open Scope Z_scope.

(** * Dyadic numbers *)

(** [m1 * 2 ^ e1 <= m2 * 2 ^ e2]. *)
Definition dle (m1 e1 m2 e2 : Z) : Prop :=
  m1 * 2 ^ (e1 - Z.min e1 e2) <= m2 * 2 ^ (e2 - Z.min e1 e2).

Lemma dle_iff k m1 e1 m2 e2 : k <= e1 -> k <= e2 ->
  dle m1 e1 m2 e2 <-> m1 * 2 ^ (e1 - k) <= m2 * 2 ^ (e2 - k).
Proof.
  intros H1 H2. unfold dle. set (j := Z.min e1 e2).
  replace (e1 - k) with ((e1 - j) + (j - k)) by lia. replace (e2 - k) with ((e2 - j) + (j - k)) by lia.
  rewrite !Z.pow_add_r, !Z.mul_assoc by lia. assert (0 < 2 ^ (j - k)) by (apply Z.pow_pos_nonneg; lia). nia.
Qed.

Lemma dle_trans m1 e1 m2 e2 m3 e3 : dle m1 e1 m2 e2 -> dle m2 e2 m3 e3 -> dle m1 e1 m3 e3.
Proof.
  set (k := Z.min e1 (Z.min e2 e3)). rewrite !(dle_iff k) by lia. lia.
Qed.

Lemma digits2_pos_log2 p : Z.pos (digits2_pos p) = Z.log2 (Z.pos p) + 1.
Proof.
  induction p as [p IH|p IH|]; [| |done]; cbn [digits2_pos]; rewrite Pos2Z.inj_succ, IH.
  - rewrite (Pos2Z.inj_xI p), Z.log2_succ_double by lia. lia.
  - rewrite (Pos2Z.inj_xO p), Z.log2_double by lia. lia.
Qed.

Lemma Zdigits2_bounds m d : 0 < m -> d = Zdigits2 m -> 0 < d /\ 2 ^ (d - 1) <= m < 2 ^ d.
Proof.
  destruct m as [|p|p]; [lia| |lia]. intros _ ->. cbn [Zdigits2]. rewrite digits2_pos_log2.
  pose proof (Z.log2_nonneg (Z.pos p)). destruct (Z.log2_spec (Z.pos p)) as [Hl Hu]; [lia|].
  rewrite <- Z.add_1_r in Hu. replace (Z.log2 (Z.pos p) + 1 - 1) with (Z.log2 (Z.pos p)) by lia. lia.
Qed.

(** * The shifts of the rounding step *)

Definition sticky (r : shr_record) : bool := shr_r r || shr_s r.

Lemma shr_1_spec r : 0 <= shr_m r -> shr_m (shr_1 r) = shr_m r / 2 /\
  (sticky (shr_1 r) = false <-> sticky r = false /\ shr_m r mod 2 = 0).
Proof.
  destruct r as [m r s]. unfold sticky. cbn [shr_m shr_r shr_s]. intros Hm. destruct m as [|[p|p|]|p]; [| | | |lia]; cbn [shr_1 shr_m shr_r shr_s].
  - cbn [orb]. assert (0 mod 2 = 0) by done. split; [done|tauto].
  - rewrite (Pos2Z.inj_xI p). split; [Z.div_mod_to_equations; lia|]. split; [done|intros [_ H]; Z.div_mod_to_equations; lia].
  - rewrite (Pos2Z.inj_xO p). split; [Z.div_mod_to_equations; lia|]. cbn [orb].
    assert (2 * Z.pos p mod 2 = 0) by (Z.div_mod_to_equations; lia). tauto.
  - split; [done|]. split; [done|intros [_ H]; done].
Qed.

Lemma iter_shr_spec p : forall r, 0 <= shr_m r -> shr_m (iter_pos shr_1 p r) = shr_m r / 2 ^ Z.pos p /\
  (sticky (iter_pos shr_1 p r) = false <-> sticky r = false /\ shr_m r mod 2 ^ Z.pos p = 0).
Proof.
  assert (forall a b r r' r'' , 0 < a -> 0 < b -> 0 <= shr_m r ->
    (shr_m r' = shr_m r / a /\ (sticky r' = false <-> sticky r = false /\ shr_m r mod a = 0)) ->
    (shr_m r'' = shr_m r' / b /\ (sticky r'' = false <-> sticky r' = false /\ shr_m r' mod b = 0)) ->
    shr_m r'' = shr_m r / (a * b) /\ (sticky r'' = false <-> sticky r = false /\ shr_m r mod (a * b) = 0)) as Hcomp.
  { intros a b r r' r'' Ha Hb Hr [H1 H2] [H3 H4]. rewrite H3, H1, Z.div_div by lia. split; [done|].
    rewrite H4, H2, H1. rewrite Z.rem_mul_r by lia.
    pose proof (Z.mod_pos_bound (shr_m r) a Ha). pose proof (Z.mod_pos_bound (shr_m r / a) b Hb).
    split; [intros [[? E1] E2]; rewrite E1, E2; split; [done|lia]|intros [? E]; repeat split; [done|nia|nia]]. }
  induction p as [p IH|p IH|]; intros r Hr; cbn [iter_pos].
  - pose proof (shr_1_spec r Hr) as H1.
    assert (0 <= shr_m (shr_1 r)) as Hr1 by (rewrite (proj1 H1); apply Z.div_pos; lia).
    pose proof (IH _ Hr1) as H2. assert (0 <= shr_m (iter_pos shr_1 p (shr_1 r))) as Hr2 by (rewrite (proj1 H2); apply Z.div_pos; lia).
    pose proof (IH _ Hr2) as H3. replace (2 ^ Z.pos p~1) with (2 * 2 ^ Z.pos p * 2 ^ Z.pos p).
    + eapply Hcomp; [lia|lia|done| |exact H3]. eapply Hcomp; [lia|lia|done|exact H1|exact H2].
    + rewrite (Pos2Z.inj_xI p). replace (2 * Z.pos p + 1) with (1 + Z.pos p + Z.pos p) by lia.
      rewrite !Z.pow_add_r by lia. done.
  - pose proof (IH _ Hr) as H2. assert (0 <= shr_m (iter_pos shr_1 p r)) as Hr2 by (rewrite (proj1 H2); apply Z.div_pos; lia).
    pose proof (IH _ Hr2) as H3. replace (2 ^ Z.pos p~0) with (2 ^ Z.pos p * 2 ^ Z.pos p); [eapply Hcomp; [lia|lia|done|exact H2|exact H3]|].
    rewrite (Pos2Z.inj_xO p). replace (2 * Z.pos p) with (Z.pos p + Z.pos p) by lia. rewrite Z.pow_add_r by lia. done.
  - change (2 ^ 1) with 2. by apply shr_1_spec.
Qed.

Lemma round_down_up r : exists c, (c = 0 \/ c = 1 /\ sticky r = true) /\
  round_nearest_even (shr_m r) (loc_of_shr_record r) = shr_m r + c.
Proof.
  destruct r as [m [] []]; cbn; try destruct (Z.even m); (exists 0; split; [by left|lia]) || (exists 1; split; [by right|done]).
Qed.

Lemma record_of_loc_m m l : shr_m (shr_record_of_loc m l) = m /\ (sticky (shr_record_of_loc m l) = false <-> l = loc_Exact).
Proof. by destruct l as [|[]]. Qed.

Definition fpos (m e : Z) : f64 := S754_finite false (Z.to_pos m) e.

Lemma f64_leb_pos m1 e1 m2 e2 : 0 < m1 -> 0 < m2 ->
  f64_leb (fpos m1 e1) (fpos m2 e2) = true <-> e1 < e2 \/ e1 = e2 /\ m1 <= m2.
Proof.
  intros H1 H2. unfold f64_leb, SFleb, fpos. cbn [SFcompare]. change (Pos.compare_cont Eq (Z.to_pos m1) (Z.to_pos m2)) with (Pos.compare (Z.to_pos m1) (Z.to_pos m2)).
  destruct (Z.compare_spec e1 e2); destruct (Pos.compare_spec (Z.to_pos m1) (Z.to_pos m2)); split; try done; lia.
Qed.

(** The larger number has the larger leading digit. *)
Lemma dle_top m1 e1 m2 e2 : 0 < m1 -> 0 < m2 -> dle m1 e1 m2 e2 -> Zdigits2 m1 + e1 <= Zdigits2 m2 + e2.
Proof.
  intros H1 H2 H. destruct (Zdigits2_bounds m1 _ H1 eq_refl) as (D1 & L1 & _). destruct (Zdigits2_bounds m2 _ H2 eq_refl) as (D2 & _ & U2).
  set (d1 := Zdigits2 m1) in *. set (d2 := Zdigits2 m2) in *. set (k := Z.min e1 e2).
  rewrite (dle_iff k) in H by lia. apply Z.nlt_ge. intros Hx.
  assert (m2 * 2 ^ (e2 - k) < 2 ^ (d2 + (e2 - k))) by (rewrite Z.pow_add_r by lia; apply Z.mul_lt_mono_pos_r; [apply Z.pow_pos_nonneg; lia|done]).
  assert (2 ^ (d1 - 1 + (e1 - k)) <= m1 * 2 ^ (e1 - k)) by (rewrite Z.pow_add_r by lia; apply Z.mul_le_mono_nonneg_r; [apply Z.pow_nonneg; lia|done]).
  assert (2 ^ (d2 + (e2 - k)) <= 2 ^ (d1 - 1 + (e1 - k))) by (apply Z.pow_le_mono_r; lia). lia.
Qed.

Lemma iter_xO m p : Z.pos (Pos.iter xO m p) = Z.pos m * 2 ^ Z.pos p.
Proof.
  revert m. induction p as [|p IH] using Pos.peano_ind; intros m; [cbn; lia|].
  rewrite Pos.iter_succ, Pos2Z.inj_xO, IH, Pos2Z.inj_succ, Z.pow_succ_r by lia. lia.
Qed.

(** * Rounding

    For a format of [prec] digits and exponents below [emax]. *)

Section format.
Context (prec emax : Z) (Hprec : 2 <= prec) (Hemax : prec < emax).
#[local] Set Default Proof Using "All".
#[local] Abbreviation fexp' := (fexp prec emax).
#[local] Abbreviation emin' := (3 - emax - prec).
#[local] Abbreviation emax' := (emax - prec).

#[local] Lemma pow_prec : 2 ^ prec = 2 * 2 ^ (prec - 1) /\ 2 <= 2 ^ (prec - 1).
Proof.
  split; [rewrite <- Z.pow_succ_r by lia; f_equal; lia|]. change 2 with (2 ^ 1) at 1. apply Z.pow_le_mono_r; lia.
Qed.


(** A mantissa of at most [prec] digits, or one that has just reached one more. *)
Definition finish (s : bool) (m e : Z) : f64 :=
  match m with
  | Z0 => S754_zero s
  | _ =>
      let '(m, e) := if m <? 2 ^ prec then (m, e) else (2 ^ (prec - 1), e + 1) in
      if e <=? emax' then S754_finite s (Z.to_pos m) e else S754_infinity s
  end.

Lemma fexp_cases x : (fexp' x = x - prec /\ (3 - emax) <= x \/ fexp' x = emin' /\ x <= (3 - emax)).
Proof. unfold fexp, SpecFloat.emin. lia. Qed.

(** The rounded value lies on the grid of exponent [fexp]: it is the value cut
    off there, or one step above when something was cut off. *)
Lemma round_form s m e l : 0 < m -> e <= fexp' (Zdigits2 m + e) ->
  let e' := fexp' (Zdigits2 m + e) in
  exists c, (c = 0 \/ c = 1 /\ ~ (l = loc_Exact /\ m mod 2 ^ (e' - e) = 0)) /\
    binary_round_aux prec emax s m e l = finish s (m / 2 ^ (e' - e) + c) e'.
Proof.
  pose proof pow_prec as [Hpw Hpw1]. intros Hm He e'. unfold binary_round_aux, shr_fexp at 1. fold e'.
  set (rec := shr_record_of_loc m l). destruct (record_of_loc_m m l) as [Em El]. fold rec in Em, El.
  assert (exists rec', shr rec e (e' - e) = (rec', e') /\ shr_m rec' = m / 2 ^ (e' - e) /\
    (sticky rec' = false <-> l = loc_Exact /\ m mod 2 ^ (e' - e) = 0)) as (rec' & Hs & Hm' & Hst).
  { destruct (e' - e) as [|p|p] eqn:En; [|exists (iter_pos shr_1 p rec)|lia].
    - exists rec. cbn [shr]. replace e with e' by lia. change (2 ^ 0) with 1. rewrite Em, Z.div_1_r, Z.mod_1_r. tauto.
    - cbn [shr]. rewrite <- En. replace (e + (e' - e)) with e' by lia. rewrite En.
      destruct (iter_shr_spec p rec) as [H1 H2]; [lia|]. rewrite H1, Em. rewrite H2, El, Em. done. }
  rewrite Hs. destruct (round_down_up rec') as (c & Hc & Hr). exists c. split.
  { destruct Hc as [?|[? Hsticky]]; [by left|right]. split; [done|]. intros Hx%Hst. congruence. }
  rewrite Hr, Hm'. set (m' := m / 2 ^ (e' - e)).
  destruct (Zdigits2_bounds m _ Hm eq_refl) as (Hd0 & Hlo & Hhi). set (d := Zdigits2 m) in *.
  assert (0 <= m') by (apply Z.div_pos; lia).
  assert (m' < 2 ^ prec) as Hm53.
  { apply Z.div_lt_upper_bound; [lia|]. rewrite <- Z.pow_add_r by lia. eapply Z.lt_le_trans; [exact Hhi|]. apply Z.pow_le_mono_r; [lia|].
    destruct (fexp_cases (d + e)); lia. }
  assert ((3 - emax) < d + e -> 2 ^ (prec - 1) <= m') as Hm52.
  { intros Hn. apply Z.div_le_lower_bound; [lia|]. rewrite <- Z.pow_add_r by lia. etransitivity; [|exact Hlo]. apply Z.pow_le_mono_r; [lia|].
    destruct (fexp_cases (d + e)); lia. }
  assert (emin' <= e') as Hemin by (destruct (fexp_cases (d + e)); lia).
  assert (e' = emin' \/ emin' < e' /\ 2 ^ (prec - 1) <= m') as He'.
  { destruct (fexp_cases (d + e)); [|lia]. destruct (decide (e' = emin')); [by left|right]. split; [lia|apply Hm52; lia]. }
  assert (0 <= c <= 1) by (destruct Hc as [?|[? _]]; lia).
  unfold shr_fexp, finish. destruct (m' + c) as [|p|p] eqn:Ep; [|clear Hr|lia].
  { cbn [Zdigits2]. assert (e' = emin') as Ee by (destruct He'; [done|exfalso; lia]).
    replace (fexp' (0 + e') - e') with 0 by (destruct (fexp_cases (0 + e')); lia). done. }
  destruct (Zdigits2_bounds (Z.pos p) _ eq_refl eq_refl) as (Hd1 & Hlo1 & Hhi1). set (d1 := Zdigits2 (Z.pos p)) in *.
  destruct (Z.pos p <? 2 ^ prec) eqn:E53.
  - apply Z.ltb_lt in E53. assert (d1 <= prec) as Hd53.
    { apply Z.nlt_ge. intros Hx. assert (2 ^ prec <= 2 ^ (d1 - 1)) by (apply Z.pow_le_mono_r; lia). lia. }
    assert (fexp' (d1 + e') - e' = 0) as ->.
    { destruct He' as [->|[Hgt Hge]]; [destruct (fexp_cases (d1 + emin')); lia|].
      assert (prec - 1 < d1). { apply Z.nle_gt. intros Hx. assert (2 ^ d1 <= 2 ^ (prec - 1)) by (apply Z.pow_le_mono_r; lia). lia. }
      destruct (fexp_cases (d1 + e')); lia. }
    cbn [shr shr_m shr_record_of_loc]. done.
  - apply Z.ltb_ge in E53. assert (Z.pos p = 2 ^ prec) as E2 by lia.
    assert (d1 = prec + 1) as ->.
    { rewrite E2 in Hlo1, Hhi1. apply Z.pow_le_mono_r_iff in Hlo1; [|lia..]. apply Z.pow_lt_mono_r_iff in Hhi1; lia. }
    assert (fexp' (prec + 1 + e') - e' = 1) as -> by (destruct (fexp_cases (prec + 1 + e')); lia).
    cbn [shr iter_pos]. destruct (shr_1_spec (shr_record_of_loc (Z.pos p) loc_Exact)) as [Es _]; [done|]. rewrite Es. cbn [shr_m shr_record_of_loc].
    replace (Z.pos p / 2) with (2 ^ (prec - 1)) by (rewrite E2, Hpw, Z.mul_comm, Z.div_mul; lia). by destruct (2 ^ (prec - 1)) as [|q|q]; [lia| |lia].
Qed.

(** A positive representable number. *)
Definition representable (m e : Z) : Prop := 0 < m < 2 ^ prec /\ emin' <= e <= emax' /\ (e = emin' \/ 2 ^ (prec - 1) <= m).

Lemma representable_digits m e : representable m e -> fexp' (Zdigits2 m + e) = e /\ 0 < Zdigits2 m <= prec.
Proof.
  pose proof pow_prec as [Hpw Hpw1]. intros (Hm & He & Hc). destruct (Zdigits2_bounds m _ (proj1 Hm) eq_refl) as (H1 & H2 & H3). set (d := Zdigits2 m) in *.
  assert (d <= prec). { apply Z.nlt_ge. intros Hx. assert (2 ^ prec <= 2 ^ (d - 1)) by (apply Z.pow_le_mono_r; lia). lia. }
  assert (e = emin' \/ prec - 1 < d).
  { destruct Hc as [?|Hc]; [by left|right]. apply Z.nle_gt. intros Hx. assert (2 ^ d <= 2 ^ (prec - 1)) by (apply Z.pow_le_mono_r; lia). lia. }
  destruct (fexp_cases (d + e)); lia.
Qed.

(** Cutting off at the grid of [fexp] does not go below a representable number. *)
Lemma cut_ge mt et m e : representable mt et -> 0 < m -> e <= fexp' (Zdigits2 m + e) -> dle mt et m e ->
  let e' := fexp' (Zdigits2 m + e) in et < e' /\ 2 ^ (prec - 1) <= m / 2 ^ (e' - e) \/ et = e' /\ mt <= m / 2 ^ (e' - e).
Proof.
  intros HT Hm He H e'. destruct (representable_digits _ _ HT) as [Ht1 Ht2]. pose proof (dle_top _ _ _ _ (proj1 (proj1 HT)) Hm H) as Htop.
  assert (et <= e') as Hle. { unfold e'. rewrite <- Ht1. destruct (fexp_cases (Zdigits2 mt + et)), (fexp_cases (Zdigits2 m + e)); lia. }
  destruct (Zdigits2_bounds m _ Hm eq_refl) as (D1 & L1 & _). set (d := Zdigits2 m) in *.
  destruct (decide (et = e')) as [E|N]; [right|left]; (split; [lia|]).
  - rewrite (dle_iff (Z.min e et)) in H by lia. apply Z.div_le_lower_bound; [lia|].
    replace (Z.min e et) with e in H by lia. rewrite Z.sub_diag, Z.mul_1_r in H. rewrite <- E. lia.
  - apply Z.div_le_lower_bound; [lia|]. rewrite <- Z.pow_add_r by lia. etransitivity; [|exact L1]. apply Z.pow_le_mono_r; [lia|].
    destruct (fexp_cases (d + e)), (fexp_cases (Zdigits2 mt + et)); lia.
Qed.

Lemma round_ge mt et m e l : representable mt et -> 0 < m -> e <= fexp' (Zdigits2 m + e) -> dle mt et m e ->
  f64_leb (fpos mt et) (binary_round_aux prec emax false m e l) = true.
Proof.
  intros HT Hm He H. destruct (round_form false m e l Hm He) as (c & Hc & ->). pose proof (cut_ge _ _ _ _ HT Hm He H) as Hg. cbv zeta in *.
  set (e' := fexp' (Zdigits2 m + e)) in *. set (m' := m / 2 ^ (e' - e)) in *. destruct HT as (Hmt & Het & Hcan).
  assert (0 <= c) by (destruct Hc as [?|[? _]]; lia). assert (0 < 2 ^ (prec - 1)) by lia.
  unfold finish. destruct (m' + c) as [|p|p] eqn:Ep; [lia| |lia]. destruct (Z.pos p <? 2 ^ prec) eqn:E53.
  - destruct (e' <=? emax'); [|done]. apply (f64_leb_pos mt et (Z.pos p) e'); lia.
  - destruct (e' + 1 <=? emax'); [|done]. apply (f64_leb_pos mt et (2 ^ (prec - 1)) (e' + 1)); lia.
Qed.

Lemma round_le mt et m e l : representable mt et -> 0 < m -> e <= fexp' (Zdigits2 m + e) ->
  dle (m + 1) e mt et \/ l = loc_Exact /\ dle m e mt et ->
  f64_leb (binary_round_aux prec emax false m e l) (fpos mt et) = true.
Proof.
  intros HT Hm He H. destruct (round_form false m e l Hm He) as (c & Hc & ->). cbv zeta in *.
  destruct (representable_digits _ _ HT) as [Ht1 Ht2]. destruct HT as (Hmt & Het & Hcan).
  assert (dle m e mt et) as H'.
  { destruct H as [H|[_ H]]; [|done]. eapply dle_trans; [|exact H]. rewrite (dle_iff e) by lia. rewrite Z.sub_diag. lia. }
  pose proof (dle_top _ _ _ _ Hm (proj1 Hmt) H') as Htop. set (d := Zdigits2 m) in *. set (e' := fexp' (d + e)) in *.
  assert (e' <= et) as Hle. { unfold e'. rewrite <- Ht1. destruct (fexp_cases (Zdigits2 mt + et)), (fexp_cases (d + e)); lia. }
  destruct (Zdigits2_bounds m d Hm eq_refl) as (D1 & L1 & U1). set (n := e' - e) in *. set (m' := m / 2 ^ n) in *.
  assert (0 <= m') by (apply Z.div_pos; lia). assert (0 <= c <= 1) by (destruct Hc as [?|[? _]]; lia).
  assert (m' < 2 ^ prec).
  { apply Z.div_lt_upper_bound; [lia|]. rewrite <- Z.pow_add_r by lia. eapply Z.lt_le_trans; [exact U1|]. apply Z.pow_le_mono_r; [lia|].
    unfold n, e'. destruct (fexp_cases (d + e)); lia. }
  assert (e' = et -> m' + c <= mt) as Heq.
  { intros E. assert (m <= mt * 2 ^ n) as Hle1.
    { rewrite (dle_iff e) in H' by lia. rewrite Z.sub_diag, Z.mul_1_r in H'. unfold n. rewrite E. done. }
    destruct Hc as [->|[-> Hin]]; [rewrite Z.add_0_r; apply Z.div_le_upper_bound; lia|].
    assert (m < mt * 2 ^ n); [|assert (m' < mt) by (apply Z.div_lt_upper_bound; lia); lia]. destruct H as [H|[-> _]].
    - rewrite (dle_iff e) in H by lia. rewrite Z.sub_diag, Z.mul_1_r in H. unfold n. rewrite E. lia.
    - destruct (decide (m = mt * 2 ^ n)) as [Em|]; [|lia]. contradict Hin. split; [done|]. rewrite Em. apply Z.mod_mul. lia. }
  unfold finish. destruct (m' + c) as [|p|p] eqn:Ep; [done| |lia].
  destruct (Z.ltb_spec (Z.pos p) (2 ^ prec)).
  - rewrite (proj2 (Z.leb_le e' emax')) by lia. apply (f64_leb_pos (Z.pos p) e' mt et); [lia..|]. destruct (decide (e' = et)); [right; split; [done|]; by apply Heq|left; lia].
  - destruct (decide (e' = et)) as [E|N]; [specialize (Heq E); lia|].
    rewrite (proj2 (Z.leb_le (e' + 1) emax')) by lia. apply (f64_leb_pos (2 ^ (prec - 1)) (e' + 1) mt et); [lia..|]. unfold e' in *. destruct (fexp_cases (d + e)); lia.
Qed.

(** * Conversions and quotients *)

(** What [binary_round] hands to the rounding step: the same number, with
    enough digits. *)
Lemma align_form (m : positive) (e : Z) :
  let '(mz, ez) := shl_align m e (fexp' (Z.pos (digits2_pos m) + e)) in
  ez <= fexp' (Zdigits2 (Z.pos mz) + ez) /\ ez <= e /\ Z.pos mz = Z.pos m * 2 ^ (e - ez).
Proof.
  unfold shl_align. set (e' := fexp' (Z.pos (digits2_pos m) + e)). destruct (e' - e) as [|p|p] eqn:E.
  - change (Z.pos (digits2_pos m)) with (Zdigits2 (Z.pos m)) in e'. fold e'. rewrite Z.sub_diag. lia.
  - change (Z.pos (digits2_pos m)) with (Zdigits2 (Z.pos m)) in e'. fold e'. rewrite Z.sub_diag. lia.
  - rewrite iter_xO. replace (e - e') with (Z.pos p) by lia. split; [|lia].
    destruct (Zdigits2_bounds (Z.pos m) _ eq_refl eq_refl) as (D & L & U). change (Z.pos (digits2_pos m)) with (Zdigits2 (Z.pos m)) in e'.
    set (d := Zdigits2 (Z.pos m)) in *.
    destruct (Zdigits2_bounds (Z.pos m * 2 ^ Z.pos p) _ ltac:(lia) eq_refl) as (D2 & L2 & U2). set (d2 := Zdigits2 (Z.pos m * 2 ^ Z.pos p)) in *.
    assert (d + Z.pos p <= d2).
    { apply Z.nlt_ge. intros Hx. assert (2 ^ d2 <= 2 ^ (d - 1 + Z.pos p)) by (apply Z.pow_le_mono_r; lia). rewrite Z.pow_add_r in * by lia. nia. }
    destruct (fexp_cases (d + e)), (fexp_cases (d2 + e')); lia.
Qed.

End format.

(** ** binary64 *)

Abbreviation fexp64 := (fexp 53 1024).
Abbreviation valid_pos := (representable 53 1024).

Definition fexp64_spec := fexp_cases 53 1024 ltac:(lia) ltac:(lia).
Definition round_aux_form := round_form 53 1024 ltac:(lia) ltac:(lia).
Definition valid_pos_digits := representable_digits 53 1024 ltac:(lia) ltac:(lia).
Definition round_aux_ge := round_ge 53 1024 ltac:(lia) ltac:(lia).
Definition round_aux_le := round_le 53 1024 ltac:(lia) ltac:(lia).
Definition align_spec := align_form 53 1024 ltac:(lia) ltac:(lia).

(** A converted integer compares with a representable number as the integer does. *)
Lemma f64_of_Z_ge mt et z : valid_pos mt et -> 0 < z -> dle mt et z 0 -> f64_leb (fpos mt et) (f64_of_Z z) = true.
Proof.
  intros HT Hz H. destruct z as [|p|p]; [lia| |lia]. unfold f64_of_Z, binary_normalize, binary_round.
  pose proof (align_spec p 0) as Ha. destruct (shl_align _ _ _) as [mz ez]. destruct Ha as (H1 & H2 & H3).
  apply round_aux_ge; [done|lia|done|]. eapply dle_trans; [exact H|]. rewrite (dle_iff ez) by lia. rewrite H3, Z.sub_diag. lia.
Qed.

Lemma f64_of_Z_le mt et z : valid_pos mt et -> 0 < z -> dle z 0 mt et -> f64_leb (f64_of_Z z) (fpos mt et) = true.
Proof.
  intros HT Hz H. destruct z as [|p|p]; [lia| |lia]. unfold f64_of_Z, binary_normalize, binary_round.
  pose proof (align_spec p 0) as Ha. destruct (shl_align _ _ _) as [mz ez]. destruct Ha as (H1 & H2 & H3).
  apply round_aux_le; [done|lia|done|]. right. split; [done|]. eapply dle_trans; [|exact H]. rewrite (dle_iff ez) by lia. rewrite H3, Z.sub_diag. lia.
Qed.

(** The quotient handed to the rounding step, for operands of ordinary size. *)
Lemma div_core_spec mx ex my ey : 0 < mx -> 0 < my -> -1021 <= Zdigits2 mx + ex - (Zdigits2 my + ey) ->
  exists q e l s, SFdiv_core_binary 53 1024 mx ex my ey = (q, e, l) /\ 0 <= s /\ e = ex - ey - s /\
    q = mx * 2 ^ s / my /\ (l = loc_Exact <-> (mx * 2 ^ s) mod my = 0) /\ 2 ^ 52 <= q /\ e <= fexp64 (Zdigits2 q + e).
Proof.
  intros Hx Hy Hn. unfold SFdiv_core_binary. destruct (Zdigits2_bounds mx _ Hx eq_refl) as (D1 & L1 & U1).
  destruct (Zdigits2_bounds my _ Hy eq_refl) as (D2 & L2 & U2). set (d1 := Zdigits2 mx) in *. set (d2 := Zdigits2 my) in *.
  set (e := Z.min (fexp64 (d1 + ex - (d2 + ey))) (ex - ey)). set (s := ex - ey - e). set (X := d1 + ex - (d2 + ey)) in *.
  assert (e <= X - 53) as HeX by (destruct (fexp64_spec X); lia). assert (0 <= s) by lia.
  replace (match s with | 0 => mx | Z.pos _ => Z.shiftl mx s | Z.neg _ => 0 end) with (mx * 2 ^ s)
    by (destruct s as [|p|p] eqn:Es; [lia|rewrite Z.shiftl_mul_pow2 by lia; done|lia]).
  unfold Z.div, Z.modulo. pose proof (Z_div_mod (mx * 2 ^ s) my ltac:(lia)) as Hdm.
  destruct (Z.div_eucl (mx * 2 ^ s) my) as [q r] eqn:Eq. destruct Hdm as [Hdm Hr].
  assert (2 ^ (d1 + s - 1 - d2) <= q) as Hq.
  { apply Z.nlt_ge. intros Hc. assert (2 ^ (d1 + s - 1) <= mx * 2 ^ s).
    { replace (d1 + s - 1) with (d1 - 1 + s) by lia. rewrite Z.pow_add_r by lia. apply Z.mul_le_mono_nonneg_r; lia. }
    assert (2 ^ (d1 + s - 1) = 2 ^ d2 * 2 ^ (d1 + s - 1 - d2)) as E by (rewrite <- Z.pow_add_r by lia; f_equal; lia).
    assert (my * (q + 1) <= 2 ^ d2 * 2 ^ (d1 + s - 1 - d2)) by (assert (0 <= q) by nia; apply Z.mul_le_mono_nonneg; lia). lia. }
  exists q, e, (new_location my r), s. rewrite Eq. split; [done|]. split; [done|]. split; [lia|]. split; [done|].
  assert (2 ^ 52 <= q) as Hq52. { etransitivity; [|exact Hq]. apply Z.pow_le_mono_r; lia. }
  split; [|split; [done|]].
  - unfold new_location, new_location_even, new_location_odd. destruct (Z.even my), (Z.eqb_spec r 0); split; done.
  - destruct (Zdigits2_bounds q _ ltac:(lia) eq_refl) as (D3 & L3 & U3). set (d3 := Zdigits2 q) in *.
    assert (d1 + s - d2 <= d3). { apply Z.nlt_ge. intros Hc. assert (2 ^ d3 <= 2 ^ (d1 + s - 1 - d2)) by (apply Z.pow_le_mono_r; lia). lia. }
    destruct (fexp64_spec (d3 + e)), (fexp64_spec X); lia.
Qed.

(** [x = m * 2 ^ e], [T] and [T * y] as dyadic numbers: at a common exponent. *)
Lemma dle_quot mt et e my mx s ey ex : 0 <= s -> e = ex - ey - s -> e <= et ->
  dle (mt * my) (et + ey) mx ex <-> mt * 2 ^ (et - e) * my <= mx * 2 ^ s.
Proof.
  intros Hs He Hle. rewrite (dle_iff (ey + e)) by lia. replace (et + ey - (ey + e)) with (et - e) by lia.
  replace (ex - (ey + e)) with s by lia. rewrite <- !Z.mul_assoc, (Z.mul_comm my). done.
Qed.

Lemma dle_quot' mt et e my mx s ey ex : 0 <= s -> e = ex - ey - s -> e <= et ->
  dle mx ex (mt * my) (et + ey) <-> mx * 2 ^ s <= mt * 2 ^ (et - e) * my.
Proof.
  intros Hs He Hle. rewrite (dle_iff (ey + e)) by lia. replace (et + ey - (ey + e)) with (et - e) by lia.
  replace (ex - (ey + e)) with s by lia. rewrite <- !Z.mul_assoc, (Z.mul_comm my). done.
Qed.

(** Below the grid of a full-length quotient a representable number is smaller. *)
Lemma small_exponent mt et q e : valid_pos mt et -> 2 ^ 52 <= q -> et < e -> dle (mt + 1) et q e.
Proof.
  intros (Hm & _) Hq He. rewrite (dle_iff et) by lia. rewrite Z.sub_diag, Z.mul_1_r.
  assert (2 ^ 1 <= 2 ^ (e - et)) by (apply Z.pow_le_mono_r; lia). assert (2 ^ 52 * 2 ^ 1 <= q * 2 ^ (e - et)) by (apply Z.mul_le_mono_nonneg; lia). lia.
Qed.

Lemma f64_div_ge mt et mx ex my ey : valid_pos mt et -> 0 < mx -> 0 < my -> -1021 <= Zdigits2 mx + ex - (Zdigits2 my + ey) ->
  dle (mt * my) (et + ey) mx ex -> f64_leb (fpos mt et) (f64_div (fpos mx ex) (fpos my ey)) = true.
Proof.
  intros HT Hx Hy Hn H. unfold f64_div, SFdiv, fpos. rewrite !Z2Pos.id by lia.
  destruct (div_core_spec mx ex my ey Hx Hy Hn) as (q & e & l & s & -> & Hs & He & Hq & _ & H52 & Hf). cbn [xorb].
  apply round_aux_ge; [done|lia|done|]. destruct (decide (et < e)) as [Hlt|Hge].
  - eapply dle_trans; [|by apply small_exponent]. rewrite (dle_iff et) by lia. rewrite Z.sub_diag. lia.
  - apply (proj1 (dle_quot mt et e my mx s ey ex Hs He ltac:(lia))) in H. rewrite (dle_iff e) by lia. rewrite Z.sub_diag, Z.mul_1_r, Hq.
    apply Z.div_le_lower_bound; lia.
Qed.

Lemma f64_div_le mt et mx ex my ey : valid_pos mt et -> 0 < mx -> 0 < my -> -1021 <= Zdigits2 mx + ex - (Zdigits2 my + ey) ->
  dle mx ex (mt * my) (et + ey) -> f64_leb (f64_div (fpos mx ex) (fpos my ey)) (fpos mt et) = true.
Proof.
  intros HT Hx Hy Hn H. unfold f64_div, SFdiv, fpos. rewrite !Z2Pos.id by lia.
  destruct (div_core_spec mx ex my ey Hx Hy Hn) as (q & e & l & s & -> & Hs & He & Hq & Hl & H52 & Hf). cbn [xorb].
  apply round_aux_le; [done|lia|done|].
  pose proof (Z.div_mod (mx * 2 ^ s) my ltac:(lia)) as Hdm. rewrite <- Hq in Hdm. pose proof (Z.mod_pos_bound (mx * 2 ^ s) my Hy) as Hr.
  destruct (decide (et < e)) as [Hlt|Hge].
  - exfalso. pose proof (small_exponent mt et q e HT H52 Hlt) as Hc. rewrite (dle_iff et) in Hc by lia. rewrite Z.sub_diag, Z.mul_1_r in Hc.
    rewrite (dle_iff (et + ey)) in H by lia. rewrite Z.sub_diag, Z.mul_1_r in H.
    replace (ex - (et + ey)) with (s + (e - et)) in H by lia. rewrite Z.pow_add_r in H by lia.
    assert (0 < 2 ^ (e - et)) by lia. set (P := 2 ^ (e - et)) in *. set (S := 2 ^ s) in *.
    assert (my * q <= mx * S) as H1 by lia. assert (my * q * P <= mx * S * P) by (apply Z.mul_le_mono_nonneg_r; lia).
    assert ((mt + 1) * my <= q * P * my) by (apply Z.mul_le_mono_nonneg_r; lia). lia.
  - apply (proj1 (dle_quot' mt et e my mx s ey ex Hs He ltac:(lia))) in H. rewrite !(dle_iff e) by lia. rewrite !Z.sub_diag, !Z.mul_1_r.
    set (T := mt * 2 ^ (et - e)) in *. destruct (decide ((mx * 2 ^ s) mod my = 0)) as [E|N]; [right|left].
    + split; [by apply Hl|]. rewrite Hq. apply Z.div_le_upper_bound; lia.
    + apply Z.le_succ_l. rewrite Hq. apply Z.div_lt_upper_bound; [lia|].
      assert (mx * 2 ^ s <> T * my); [|lia]. intros E. apply N. rewrite E. apply Z.mod_mul. lia.
Qed.

(** * Comparing a quotient of integers *)

Lemma leb_dle m1 e1 m2 e2 : valid_pos m1 e1 -> valid_pos m2 e2 ->
  f64_leb (fpos m1 e1) (fpos m2 e2) = true <-> dle m1 e1 m2 e2.
Proof.
  intros V1 V2. destruct (valid_pos_digits _ _ V1) as [F1 _], (valid_pos_digits _ _ V2) as [F2 _].
  destruct V1 as (M1 & _), V2 as (M2 & _ & C2). rewrite f64_leb_pos by lia. split.
  - intros [He|[-> Hm]].
    + destruct (decide (2 ^ 52 <= m2)) as [H52|]; [|destruct C2; [|lia]; destruct (fexp64_spec (Zdigits2 m1 + e1)); lia].
      rewrite (dle_iff e1) by lia. rewrite Z.sub_diag, Z.mul_1_r. assert (2 ^ 1 <= 2 ^ (e2 - e1)) by (apply Z.pow_le_mono_r; lia).
      assert (2 ^ 52 * 2 ^ 1 <= m2 * 2 ^ (e2 - e1)) by (apply Z.mul_le_mono_nonneg; lia). lia.
    + rewrite (dle_iff e2) by lia. rewrite Z.sub_diag. lia.
  - intros H. pose proof (dle_top _ _ _ _ (proj1 M1) (proj1 M2) H) as Ht.
    assert (e1 <= e2) by (destruct (fexp64_spec (Zdigits2 m1 + e1)), (fexp64_spec (Zdigits2 m2 + e2)); lia).
    destruct (decide (e1 = e2)) as [->|]; [|lia]. rewrite (dle_iff e2) in H by lia. rewrite Z.sub_diag in H. lia.
Qed.

Lemma f64_of_Z_shape d : 0 < d < 2 ^ 64 -> exists m e, f64_of_Z d = fpos m e /\ valid_pos m e /\ -53 <= e.
Proof.
  intros Hd. destruct d as [|p|p]; [lia| |lia]. unfold f64_of_Z, binary_normalize, binary_round.
  pose proof (align_spec p 0) as Ha. destruct (shl_align _ _ _) as [mz ez]. destruct Ha as (H1 & H2 & H3).
  destruct (round_aux_form false (Z.pos mz) ez loc_Exact eq_refl H1) as (c & Hc & ->). cbv zeta in *.
  destruct (Zdigits2_bounds (Z.pos mz) _ eq_refl eq_refl) as (D & L & U). set (d := Zdigits2 (Z.pos mz)) in *.
  assert (0 < d + ez <= 64) as Hd64.
  { split; [apply Z.nle_gt; intros Hx|apply Z.nlt_ge; intros Hx].
    - assert (2 ^ d <= 2 ^ (0 - ez)) by (apply Z.pow_le_mono_r; lia). rewrite H3 in U. nia.
    - assert (2 ^ (64 + (0 - ez)) <= 2 ^ (d - 1)) by (apply Z.pow_le_mono_r; lia). rewrite Z.pow_add_r in * by lia. rewrite H3 in L.
      assert (Z.pos p * 2 ^ (0 - ez) < 2 ^ 64 * 2 ^ (0 - ez)) by (apply Z.mul_lt_mono_pos_r; lia). lia. }
  assert (fexp64 (d + ez) = d + ez - 53) as Ef by (destruct (fexp64_spec (d + ez)); lia). rewrite Ef in *.
  set (e' := d + ez - 53) in *. set (m' := Z.pos mz / 2 ^ (e' - ez)) in *.
  assert (2 ^ 52 <= m' < 2 ^ 53) as Hm'.
  { split; [apply Z.div_le_lower_bound|apply Z.div_lt_upper_bound]; [lia| |lia|]; rewrite <- Z.pow_add_r by lia.
    - replace (e' - ez + 52) with (d - 1) by lia. done.
    - replace (e' - ez + 53) with d by lia. done. }
  assert (0 <= c <= 1) by (destruct Hc as [?|[? _]]; lia). unfold finish.
  destruct (m' + c) as [|q|q] eqn:Eq; [lia| |lia]. destruct (Z.ltb_spec (Z.pos q) (2 ^ 53)).
  - rewrite (proj2 (Z.leb_le e' (1024 - 53))) by lia. exists (Z.pos q), e'. split; [done|]. unfold representable. lia.
  - rewrite (proj2 (Z.leb_le (e' + 1) (1024 - 53))) by lia. exists (2 ^ 52), (e' + 1). split; [done|]. unfold representable. lia.
Qed.

Section quotient.
Context (my ey : Z) (Hy : valid_pos my ey) (Hsmall : Zdigits2 my + ey <= 900).

#[local] Lemma quot_size m e : valid_pos m e -> -53 <= e -> -1021 <= Zdigits2 m + e - (Zdigits2 my + ey).
Proof. intros Hv He. destruct (valid_pos_digits _ _ Hv) as [_ Hd]. lia. Qed.

(** [d <= D] and [D <= T * y] give [d / y <= T]; likewise from below. *)
Lemma int_div_le mt et mD eD d : valid_pos mt et -> valid_pos mD eD -> 0 < d < 2 ^ 64 -> dle d 0 mD eD ->
  dle mD eD (mt * my) (et + ey) -> f64_leb (f64_div (f64_of_Z d) (fpos my ey)) (fpos mt et) = true.
Proof.
  intros HT HD Hd H1 H2. destruct (f64_of_Z_shape d Hd) as (m & e & E & Hv & He).
  pose proof (f64_of_Z_le mD eD d HD (proj1 Hd) H1) as H3. rewrite E in *. apply leb_dle in H3; [|done..].
  apply f64_div_le; [done|apply Hv|apply Hy|by apply quot_size|by eapply dle_trans].
Qed.

Lemma int_div_ge mt et mD eD d : valid_pos mt et -> valid_pos mD eD -> 0 < d < 2 ^ 64 -> dle mD eD d 0 ->
  dle (mt * my) (et + ey) mD eD -> f64_leb (fpos mt et) (f64_div (f64_of_Z d) (fpos my ey)) = true.
Proof.
  intros HT HD Hd H1 H2. destruct (f64_of_Z_shape d Hd) as (m & e & E & Hv & He).
  pose proof (f64_of_Z_ge mD eD d HD (proj1 Hd) H1) as H3. rewrite E in *. apply leb_dle in H3; [|done..].
  apply f64_div_ge; [done|apply Hv|apply Hy|by apply quot_size|by eapply dle_trans].
Qed.
End quotient.

(** Orders on floats, for chaining the comparisons above. *)
Lemma f64_leb_ltb_trans x y z : f64_leb x y = true -> f64_ltb y z = true -> f64_ltb x z = true.
Proof.
  unfold f64_leb, f64_ltb, SFleb, SFltb.
  destruct x as [sx|sx| |sx mx ex], y as [sy|sy| |sy my ey], z as [sz|sz| |sz mz ez]; cbn [SFcompare]; try done;
    try (by destruct sx); try (by destruct sy); try (by destruct sz); try (by destruct sx, sy); try (by destruct sy, sz); try (by destruct sx, sz);
    try (by destruct sx, sy, sz).
  change (Pos.compare_cont Eq mx my) with (Pos.compare mx my). change (Pos.compare_cont Eq my mz) with (Pos.compare my mz).
  change (Pos.compare_cont Eq mx mz) with (Pos.compare mx mz).
  destruct sx, sy, sz; try done; destruct (Z.compare_spec ex ey), (Z.compare_spec ey ez), (Z.compare_spec ex ez); try lia; try done;
    destruct (Pos.compare_spec mx my), (Pos.compare_spec my mz), (Pos.compare_spec mx mz); try lia; done.
Qed.

Lemma f64_ltb_leb_trans x y z : f64_ltb x y = true -> f64_leb y z = true -> f64_ltb x z = true.
Proof.
  unfold f64_leb, f64_ltb, SFleb, SFltb.
  destruct x as [sx|sx| |sx mx ex], y as [sy|sy| |sy my ey], z as [sz|sz| |sz mz ez]; cbn [SFcompare]; try done;
    try (by destruct sx); try (by destruct sy); try (by destruct sz); try (by destruct sx, sy); try (by destruct sy, sz); try (by destruct sx, sz);
    try (by destruct sx, sy, sz).
  change (Pos.compare_cont Eq mx my) with (Pos.compare mx my). change (Pos.compare_cont Eq my mz) with (Pos.compare my mz).
  change (Pos.compare_cont Eq mx mz) with (Pos.compare mx mz).
  destruct sx, sy, sz; try done; destruct (Z.compare_spec ex ey), (Z.compare_spec ey ez), (Z.compare_spec ex ez); try lia; try done;
    destruct (Pos.compare_spec mx my), (Pos.compare_spec my mz), (Pos.compare_spec mx mz); try lia; done.
Qed.

Lemma f64_leb_ltb x y : f64_leb x y = true -> f64_ltb y x = false.
Proof.
  unfold f64_leb, f64_ltb, SFleb, SFltb. destruct x as [sx|sx| |sx mx ex], y as [sy|sy| |sy my ey]; cbn [SFcompare]; try done;
    try (by destruct sx); try (by destruct sy); try (by destruct sx, sy).
  change (Pos.compare_cont Eq mx my) with (Pos.compare mx my). change (Pos.compare_cont Eq my mx) with (Pos.compare my mx).
  rewrite (Z.compare_antisym ex ey), (Pos.compare_antisym mx my).
  destruct sx, sy; try done; destruct (ex ?= ey); try done; destruct (Pos.compare mx my); done.
Qed.

(** ** Durations: an unsigned number of nanoseconds against a number of seconds *)

Definition ns_to_s (d : Z) : f64 := f64_div (f64_of_Z d) (f64_of_Z 1000000000).

(** [D] nanoseconds, a whole number below [2 ^ 53], are at least (at most)
    [T = mt * 2 ^ et] seconds. *)
Lemma ns_ge mt et D k d : valid_pos mt et -> 0 <= k -> valid_pos (D * 2 ^ k) (- k) ->
  dle (mt * (1000000000 * 2 ^ 23)) (et + -23) (D * 2 ^ k) (- k) ->
  0 < d < 2 ^ 64 -> D <= d -> f64_leb (fpos mt et) (ns_to_s d) = true.
Proof.
  intros HT Hk HD H Hd H1. unfold ns_to_s. change (f64_of_Z 1000000000) with (fpos (1000000000 * 2 ^ 23) (-23)).
  eapply int_div_ge; [unfold representable; lia|by vm_compute|done|exact HD|done| |done].
  rewrite (dle_iff (- k)) by lia. replace (- k - - k) with 0 by lia. replace (0 - - k) with k by lia. rewrite Z.mul_1_r. apply Z.mul_le_mono_nonneg_r; lia.
Qed.

Lemma ns_le mt et D k d : valid_pos mt et -> 0 <= k -> valid_pos (D * 2 ^ k) (- k) ->
  dle (D * 2 ^ k) (- k) (mt * (1000000000 * 2 ^ 23)) (et + -23) ->
  0 < d < 2 ^ 64 -> d <= D -> f64_leb (ns_to_s d) (fpos mt et) = true.
Proof.
  intros HT Hk HD H Hd H1. unfold ns_to_s. change (f64_of_Z 1000000000) with (fpos (1000000000 * 2 ^ 23) (-23)).
  eapply int_div_le; [unfold representable; lia|by vm_compute|done|exact HD|done| |done].
  rewrite (dle_iff (- k)) by lia. replace (- k - - k) with 0 by lia. replace (0 - - k) with k by lia. rewrite Z.mul_1_r. apply Z.mul_le_mono_nonneg_r; lia.
Qed.

Ltac ns_bound := first [unfold representable; lia | by vm_compute].

Lemma ns_zero : ns_to_s 0 = S754_zero false.
Proof. done. Qed.

Lemma ns_gt_600 d : 0 <= d < 2 ^ 64 -> f64_gtb (ns_to_s d) (f64_of_Z 600) = (600000000000 <? d).
Proof.
  intros Hd. unfold f64_gtb. destruct (Z.ltb_spec 600000000000 d).
  - apply (f64_ltb_leb_trans _ (fpos (600 * 2 ^ 43 + 1) (-43))); [by vm_compute|].
    apply (ns_ge _ _ 600000000001 13); ns_bound.
  - destruct (decide (d = 0)) as [->|]; [by rewrite ns_zero|]. apply f64_leb_ltb. change (f64_of_Z 600) with (fpos (600 * 2 ^ 43) (-43)).
    apply (ns_le _ _ 600000000000 13); ns_bound.
Qed.

Lemma ns_lt_600 d : 0 <= d < 2 ^ 64 -> f64_ltb (ns_to_s d) (f64_of_Z 600) = true -> d < 600000000000.
Proof.
  intros Hd H. apply Z.nle_gt. intros Hge. assert (f64_leb (f64_of_Z 600) (ns_to_s d) = true) as H1; [|by rewrite (f64_leb_ltb _ _ H1) in H].
  change (f64_of_Z 600) with (fpos (600 * 2 ^ 43) (-43)). apply (ns_ge _ _ 600000000000 13); ns_bound.
Qed.

Lemma ns_ge_2 d : 0 <= d < 2 ^ 64 -> f64_leb (f64_of_Z 2) (ns_to_s d) = true -> 2000000000 <= d.
Proof.
  intros Hd H. apply Z.nlt_ge. intros Hlt. destruct (decide (d = 0)) as [->|]; [done|].
  apply f64_leb_ltb in H. contradict H. apply not_false_iff_true. apply (f64_leb_ltb_trans _ (fpos (2 ^ 53 - 1) (-52))); [|by vm_compute].
  apply (ns_le _ _ 1999999999 22); ns_bound.
Qed.

(** * NaN and infinity *)

Definition tame (x : f64) : Prop := match x with S754_nan | S754_infinity _ => False | _ => True end.
(** Not negative; NaN is allowed. *)
Definition nonneg (x : f64) : Prop := match x with S754_zero s | S754_infinity s | S754_finite s _ _ => s = false | S754_nan => True end.
(** NaN or positive infinity. *)
Definition wild (x : f64) : Prop := x = S754_nan \/ x = S754_infinity false.

Lemma nonneg_round_aux m e l : nonneg (binary_round_aux 53 1024 false m e l).
Proof.
  unfold binary_round_aux. destruct (shr_fexp _ _ _ _ _) as [r1 e1]. destruct (shr_fexp _ _ _ _ _) as [r2 e2].
  destruct (shr_m r2); [done| |done]. by destruct (_ <=? _).
Qed.

Lemma nonneg_square x : nonneg (f64_mul x x).
Proof. destruct x as [[]|[]| |[] m e]; try done; apply nonneg_round_aux. Qed.

Lemma nonneg_add x y : nonneg x -> nonneg y -> nonneg (f64_add x y).
Proof.
  destruct x as [sx|sx| |sx mx ex], y as [sy|sy| |sy my ey]; cbn; intros Hx Hy; subst; try done.
  destruct (shl_align mx ex _) as [m1 ?], (shl_align my ey _) as [m2 ?]. change (nonneg (binary_round 53 1024 false (m1 + m2) (Z.min ex ey))).
  unfold binary_round. destruct (shl_align _ _ _). apply nonneg_round_aux.
Qed.

Lemma wild_add x y : nonneg x -> nonneg y -> wild x \/ wild y -> wild (f64_add x y).
Proof.
  unfold wild. intros Hx Hy [[->| ->]|[->| ->]]; [by left| |destruct x; by left|]; [destruct y as [s|s| |s m e]|destruct x as [s|s| |s m e]];
    cbn in Hx, Hy; subst; (by left) || by right.
Qed.

Lemma wild_square x : ~ tame x -> wild (f64_mul x x).
Proof. destruct x as [[]|[]| |[] m e]; intros H; try (by left); try (by right); by destruct H. Qed.

Lemma wild_not_less x b : wild x -> tame b -> f64_ltb (f64_sqrt x) b = false.
Proof. intros [->| ->]; [done|]. by destruct b. Qed.

(** A norm below a finite bound has finite components. *)
Lemma norm_tame a b c bound : tame bound -> f64_ltb (f64_sqrt (f64_add (f64_add (f64_mul a a) (f64_mul b b)) (f64_mul c c))) bound = true ->
  tame a /\ tame b /\ tame c.
Proof.
  intros Hb H. assert (forall x, tame x \/ ~ tame x) as Hdec by (intros []; cbn; tauto).
  pose proof (nonneg_square a). pose proof (nonneg_square b). pose proof (nonneg_square c). assert (nonneg (f64_add (f64_mul a a) (f64_mul b b))) by by apply nonneg_add.
  destruct (Hdec a) as [|Ha]; [destruct (Hdec b) as [|Hb']; [destruct (Hdec c) as [|Hc]; [done|]|]|]; exfalso;
    (rewrite wild_not_less in H; [done| |done]); apply wild_add; try done.
  - right. by apply wild_square.
  - left. apply wild_add; [done|done|]. right. by apply wild_square.
  - left. apply wild_add; [done|done|]. left. by apply wild_square.
Qed.

Lemma round_not_nan s m e : binary_round 53 1024 s m e <> S754_nan.
Proof.
  unfold binary_round. pose proof (align_spec m e) as Ha. destruct (shl_align _ _ _) as [mz ez]. destruct Ha as (H1 & _).
  destruct (round_aux_form s (Z.pos mz) ez loc_Exact eq_refl H1) as (c & _ & ->). unfold finish.
  destruct (_ + c); [done|..]; destruct (_ <? _); by destruct (_ <=? _).
Qed.

Lemma f64_add_not_nan x y : x <> S754_nan -> tame y -> f64_add x y <> S754_nan.
Proof.
  intros Hx Hy. destruct x as [sx|sx| |sx mx ex], y as [sy|sy| |sy my ey]; try done.
  - by destruct sx, sy.
  - unfold f64_add, SFadd. destruct (_ + _); [done|apply round_not_nan..].
Qed.

(** NaN is passed on. *)
Lemma nan_add_l x : f64_add S754_nan x = S754_nan.
Proof. done. Qed.
Lemma nan_add_r x : f64_add x S754_nan = S754_nan.
Proof. by destruct x. Qed.
Lemma nan_sub_l x : f64_sub S754_nan x = S754_nan.
Proof. done. Qed.
Lemma nan_sub_r x : f64_sub x S754_nan = S754_nan.
Proof. by destruct x. Qed.
Lemma nan_mul_r x : f64_mul x S754_nan = S754_nan.
Proof. by destruct x. Qed.
Lemma nan_div_r x : f64_div x S754_nan = S754_nan.
Proof. by destruct x. Qed.
Create Rewrite HintDb nan.
#[export] Hint Rewrite nan_add_l nan_add_r nan_sub_l nan_sub_r nan_mul_r nan_div_r : nan.
