(* ===== verification/CCanon.v ===== *)
(** Results of floating-point arithmetic are canonical, and a sum of canonical
    numbers does not fall below a representable bound of the exact sum.

    [SpecFloat]'s comparison looks at exponents first, so it is a comparison of
    values only for canonical operands; every float a program holds is one. *)
From S2P Require Import Prelude CFloat CRound.
#[local] Open Scope Z_scope.

Lemma rescale m e ez k : k <= ez <= e -> m * 2 ^ (e - ez) * 2 ^ (ez - k) = m * 2 ^ (e - k).
Proof. intros H. rewrite <- Z.mul_assoc, <- Z.pow_add_r by lia. do 2 f_equal. lia. Qed.

Section format.
Context (prec emax : Z) (Hprec : 2 <= prec) (Hemax : prec < emax).
#[local] Abbreviation fexp' := (fexp prec emax).
#[local] Abbreviation emin' := (3 - emax - prec).
#[local] Abbreviation repr := (representable prec emax).

Definition canonical (x : spec_float) : Prop :=
  match x with S754_finite _ m e => repr (Z.pos m) e | _ => True end.

(** [x] is not a NaN and its value is at least [m * 2 ^ e], for a positive [m]. *)
Definition above (m e : Z) (x : spec_float) : Prop :=
  match x with
  | S754_infinity false => True
  | S754_finite false mx ex => dle m e (Z.pos mx) ex
  | _ => False
  end.

(** [-(m * 2 ^ e) <= x <= m * 2 ^ e]. *)
Definition within_mag (m e : Z) (x : spec_float) : Prop :=
  match x with
  | S754_zero _ => True
  | S754_finite _ mx ex => dle (Z.pos mx) ex m e
  | _ => False
  end.

#[local] Set Default Proof Using "All".

Lemma leb_repr m1 e1 m2 e2 : repr m1 e1 -> repr m2 e2 ->
  SFleb (fpos m1 e1) (fpos m2 e2) = true <-> dle m1 e1 m2 e2.
Proof.
  pose proof (fexp_cases prec emax Hprec Hemax) as Hfx. intros V1 V2.
  destruct (representable_digits _ _ Hprec Hemax _ _ V1) as [F1 _], (representable_digits _ _ Hprec Hemax _ _ V2) as [F2 _].
  destruct V1 as (M1 & _), V2 as (M2 & _ & C2). pose proof (f64_leb_pos m1 e1 m2 e2 ltac:(lia) ltac:(lia)) as Hl. unfold f64_leb in Hl. rewrite Hl.
  assert (2 ^ prec = 2 ^ (prec - 1) * 2 ^ 1) as Hpw by (rewrite <- Z.pow_add_r by lia; f_equal; lia). split.
  - intros [He|[-> Hm]].
    + destruct (decide (2 ^ (prec - 1) <= m2)) as [H52|]; [|destruct C2; [|lia]; destruct (Hfx (Zdigits2 m1 + e1)); lia].
      rewrite (dle_iff e1) by lia. rewrite Z.sub_diag, Z.mul_1_r. assert (2 ^ 1 <= 2 ^ (e2 - e1)) by (apply Z.pow_le_mono_r; lia).
      assert (2 ^ (prec - 1) * 2 ^ 1 <= m2 * 2 ^ (e2 - e1)) by (apply Z.mul_le_mono_nonneg; lia). lia.
    + rewrite (dle_iff e2) by lia. rewrite Z.sub_diag. lia.
  - intros H. pose proof (dle_top _ _ _ _ (proj1 M1) (proj1 M2) H) as Ht.
    assert (e1 <= e2) by (destruct (Hfx (Zdigits2 m1 + e1)), (Hfx (Zdigits2 m2 + e2)); lia).
    destruct (decide (e1 = e2)) as [->|]; [|lia]. rewrite (dle_iff e2) in H by lia. rewrite Z.sub_diag in H. lia.
Qed.

(** ** Canonical results *)

Lemma round_aux_canonical s m e l : 0 < m -> e <= fexp' (Zdigits2 m + e) -> canonical (binary_round_aux prec emax s m e l).
Proof.
  pose proof (fexp_cases prec emax Hprec Hemax) as Hfx. intros Hm He.
  destruct (round_form prec emax Hprec Hemax s m e l Hm He) as (c & Hc & ->). cbv zeta in *.
  destruct (Zdigits2_bounds m _ Hm eq_refl) as (Hd0 & Hlo & Hhi). set (d := Zdigits2 m) in *. set (e' := fexp' (d + e)) in *.
  set (m' := m / 2 ^ (e' - e)) in *. assert (0 <= m') by (apply Z.div_pos; lia). assert (0 <= c <= 1) by (destruct Hc as [?|[? _]]; lia).
  assert (emin' <= e') by (destruct (Hfx (d + e)); lia).
  assert (m' < 2 ^ prec).
  { apply Z.div_lt_upper_bound; [lia|]. rewrite <- Z.pow_add_r by lia. eapply Z.lt_le_trans; [exact Hhi|]. apply Z.pow_le_mono_r; [lia|].
    destruct (Hfx (d + e)); lia. }
  assert (e' = emin' \/ 2 ^ (prec - 1) <= m') as Hn.
  { destruct (decide (e' = emin')); [by left|right]. apply Z.div_le_lower_bound; [lia|]. rewrite <- Z.pow_add_r by lia.
    etransitivity; [|exact Hlo]. apply Z.pow_le_mono_r; [lia|]. destruct (Hfx (d + e)); lia. }
  assert (2 ^ (prec - 1) < 2 ^ prec) by (apply Z.pow_lt_mono_r; lia). assert (0 < 2 ^ (prec - 1)) by (apply Z.pow_pos_nonneg; lia).
  unfold finish. destruct (m' + c) as [|p|p] eqn:Ep; [done| |lia].
  destruct (Z.ltb_spec (Z.pos p) (2 ^ prec)); [destruct (Z.leb_spec e' (emax - prec))|destruct (Z.leb_spec (e' + 1) (emax - prec))];
    [|done| |done]; cbn [canonical]; unfold representable; rewrite ?Z2Pos.id by lia; lia.
Qed.

Lemma normalize_canonical m e z : canonical (binary_normalize prec emax m e z).
Proof.
  destruct m as [|p|p]; [done|..]; unfold binary_normalize, binary_round; pose proof (align_form prec emax Hprec Hemax p e) as Ha;
    destruct (shl_align _ _ _) as [mz ez]; destruct Ha as (H1 & _); by apply round_aux_canonical.
Qed.

Lemma add_canonical x y : canonical x -> canonical y -> canonical (SFadd prec emax x y).
Proof.
  destruct x as [[]|[]| |sx mx ex], y as [[]|[]| |sy my ey]; try done. intros _ _. apply normalize_canonical.
Qed.

Lemma sub_canonical x y : canonical x -> canonical y -> canonical (SFsub prec emax x y).
Proof.
  destruct x as [[]|[]| |sx mx ex], y as [[]|[]| |[] my ey]; try done; intros _ _; apply normalize_canonical.
Qed.

Lemma opp_canonical x : canonical x -> canonical (SFopp x).
Proof. by destruct x. Qed.

Lemma mul_canonical x y : canonical x -> canonical y -> canonical (SFmul prec emax x y).
Proof.
  pose proof (fexp_cases prec emax Hprec Hemax) as Hfx.
  destruct x as [?|?| |sx mx ex], y as [?|?| |sy my ey]; try done. intros Hx Hy. cbn [SFmul]. apply round_aux_canonical; [done|].
  rewrite Pos2Z.inj_mul. destruct (representable_digits _ _ Hprec Hemax _ _ Hx) as [F1 _], (representable_digits _ _ Hprec Hemax _ _ Hy) as [F2 _].
  destruct Hx as (Mx & Ex & Cx), Hy as (My & Ey & Cy).
  destruct (Zdigits2_bounds (Z.pos mx * Z.pos my) _ ltac:(lia) eq_refl) as (D & L & U). set (d := Zdigits2 (Z.pos mx * Z.pos my)) in *.
  assert (2 ^ (prec - 1) <= Z.pos mx \/ 2 ^ (prec - 1) <= Z.pos my -> prec <= d) as Hd.
  { intros H. apply Z.nlt_ge. intros Hc. assert (2 ^ d <= 2 ^ (prec - 1)) by (apply Z.pow_le_mono_r; lia).
    destruct H; nia. }
  destruct (Hfx (d + (ex + ey))); lia.
Qed.

(** A quotient can be cut to nothing only at the bottom of the range. *)
Lemma round_aux_zero s e l : e <= emin' -> canonical (binary_round_aux prec emax s 0 e l).
Proof.
  pose proof (fexp_cases prec emax Hprec Hemax) as Hfx. intros He. unfold binary_round_aux, shr_fexp. change (Zdigits2 0) with 0. rewrite Z.add_0_l.
  assert (fexp' e = emin') as -> by (destruct (Hfx e); lia).
  assert (forall x, shr_m x = 0 -> let r := shr x e (emin' - e) in shr_m r.1 = 0 /\ r.2 = emin') as Hz.
  { intros x Hx. cbv zeta. unfold shr. assert (0 <= emin' - e) as Hn by lia. remember (emin' - e) as n eqn:E. destruct n; cbn [fst snd]; [split; [done|lia]| |lia]. rewrite (proj1 (iter_shr_spec _ x ltac:(by rewrite Hx))), Hx.
    split; [by apply Z.div_0_l, Z.pow_nonzero|lia]. }
  specialize (Hz (shr_record_of_loc 0 l) (proj1 (record_of_loc_m 0 l))). destruct (shr (shr_record_of_loc 0 l) e _) as [r e'] eqn:Er. cbn [fst snd] in Hz. destruct Hz as [Hm ->].
  assert (exists c, (c = 0 \/ c = 1) /\ round_nearest_even (shr_m r) (loc_of_shr_record r) = c) as (c & Hc & ->).
  { eexists. split; [|reflexivity]. rewrite Hm. destruct (loc_of_shr_record r) as [|[]]; cbn; tauto. }
  assert (fexp' (Zdigits2 c + emin') = emin') as -> by (destruct Hc as [-> | ->]; cbn [Zdigits2 digits2_pos]; destruct (Hfx (Z.pos 1 + emin')), (Hfx (0 + emin')); lia).
  rewrite Z.sub_diag. cbn [shr]. destruct Hc as [-> | ->]; cbn [shr_record_of_loc shr_m]; [done|]. destruct (_ <=? _) eqn:E; [|done].
  cbn [canonical]. unfold representable. pose proof (Z.pow_gt_1 2 prec ltac:(lia)). pose proof (Z.pow_gt_1 2 (prec - 1) ltac:(lia)). lia.
Qed.

Lemma div_core_canonical s mx ex my ey : 0 < mx -> 0 < my ->
  canonical (let '(m, e, l) := SFdiv_core_binary prec emax mx ex my ey in binary_round_aux prec emax s m e l).
Proof.
  pose proof (fexp_cases prec emax Hprec Hemax) as Hfx. intros Hx Hy. unfold SFdiv_core_binary.
  destruct (Zdigits2_bounds mx _ Hx eq_refl) as (D1 & L1 & U1), (Zdigits2_bounds my _ Hy eq_refl) as (D2 & L2 & U2).
  set (d1 := Zdigits2 mx) in *. set (d2 := Zdigits2 my) in *. set (k := d1 + ex - (d2 + ey)) in *. set (e := Z.min (fexp' k) (ex - ey)). set (s' := ex - ey - e).
  assert (0 <= s') by (unfold s', e; lia).
  assert (match s' with Z0 => mx | Z.pos _ => Z.shiftl mx s' | Z.neg _ => 0 end = mx * 2 ^ s') as ->
    by (destruct s' eqn:Es; [rewrite Z.mul_1_r; done|by rewrite Z.shiftl_mul_pow2 by lia|lia]).
  pose proof (Z_div_mod (mx * 2 ^ s') my ltac:(lia)) as Hdm. destruct (Z.div_eucl (mx * 2 ^ s') my) as [q r]. destruct Hdm as [Hdm Hr].
  assert (0 <= q) by nia. destruct (decide (q = 0)) as [->|Hq].
  - apply round_aux_zero. assert (mx * 2 ^ s' < 2 ^ d2) by lia.
    assert (2 ^ (d1 - 1 + s') < 2 ^ d2) as Hp by (rewrite Z.pow_add_r by lia; nia). apply Z.pow_lt_mono_r_iff in Hp; [|lia..].
    unfold s', e, k in *. destruct (Hfx (d1 + ex - (d2 + ey))); lia.
  - apply round_aux_canonical; [lia|]. destruct (Zdigits2_bounds q _ ltac:(lia) eq_refl) as (Dq & Lq & Uq). set (dq := Zdigits2 q) in *.
    assert (2 ^ (d1 - 1 + s') < 2 ^ (dq + d2)) as Hp.
    { rewrite !Z.pow_add_r by lia. assert (mx * 2 ^ s' < 2 ^ dq * 2 ^ d2); [|nia]. assert (my * q + r < my * 2 ^ dq) by nia. nia. }
    apply Z.pow_lt_mono_r_iff in Hp; [|lia..]. assert (e <= fexp' k) by (unfold e; lia). unfold s', k in *.
    destruct (Hfx (dq + e)), (Hfx (d1 + ex - (d2 + ey))); lia.
Qed.

Lemma div_canonical x y : canonical (SFdiv prec emax x y).
Proof. destruct x as [?|?| |sx mx ex], y as [?|?| |sy my ey]; try done. by apply div_core_canonical. Qed.

Lemma of_Z_canonical z : canonical (binary_normalize prec emax z 0 false).
Proof. apply normalize_canonical. Qed.

(** ** Order *)

Lemma above_leb m e x : repr m e -> canonical x -> above m e x <-> SFleb (fpos m e) x = true.
Proof.
  intros Hm Hx. destruct x as [[]|[]| |[] mx ex]; cbn; try done.
  symmetry. by apply (leb_repr m e (Z.pos mx) ex).
Qed.

Lemma above_le m1 e1 m2 e2 x : dle m1 e1 m2 e2 -> above m2 e2 x -> above m1 e1 x.
Proof. intros H. destruct x as [[]|[]| |[] mx ex]; cbn; try done. apply dle_trans, H. Qed.

Lemma above_pos m e x : above m e x -> SFltb x (S754_zero false) = false /\ f_nan x = false.
Proof. by destruct x as [[]|[]| |[] mx ex]. Qed.

(** A clamped value. *)
Lemma clamped m e x : repr m e -> canonical x -> f_nan x = false ->
  SFltb (fpos m e) x = false -> SFltb x (S754_finite true (Z.to_pos m) e) = false -> within_mag m e x.
Proof.
  intros Hm Hx Hn Hu Hl. destruct x as [[]|[]| |s mx ex]; try (by cbn in *). cbn [within_mag canonical] in *. pose proof (proj1 (proj1 Hm)).
  apply leb_repr; [done|done|]. unfold SFltb, SFleb, fpos in *. cbn [SFcompare] in *. change (Pos.compare_cont Eq) with Pos.compare in *. cbn [Z.to_pos].
  rewrite Pos.compare_antisym in Hu. rewrite Z.compare_antisym in Hu. destruct s; destruct (ex ?= e); cbn in *; try done.
  all: by destruct (Pos.compare mx (Z.to_pos m)).
Qed.

(** ** Sums

    Bounds are counted in halves, all of which are representable. *)

Lemma half_repr t : 4 <= emax -> 0 < t < 2 ^ prec -> exists m e, repr m e /\ dle m e t (-1) /\ dle t (-1) m e.
Proof.
  intros H4 [Ht Hu]. destruct (Zdigits2_bounds t _ Ht eq_refl) as (D & L & U). set (d := Zdigits2 t) in *.
  assert (d <= prec). { apply Z.nlt_ge. intros Hc. assert (2 ^ prec <= 2 ^ (d - 1)) by (apply Z.pow_le_mono_r; lia). lia. }
  exists (t * 2 ^ (prec - d)), (-1 - (prec - d)). assert (0 < 2 ^ (prec - d)) by (apply Z.pow_pos_nonneg; lia).
  assert (2 ^ prec = 2 ^ d * 2 ^ (prec - d)) as E1 by (rewrite <- Z.pow_add_r by lia; f_equal; lia).
  assert (2 ^ (prec - 1) = 2 ^ (d - 1) * 2 ^ (prec - d)) as E2 by (rewrite <- Z.pow_add_r by lia; f_equal; lia).
  rewrite !(dle_iff (-1 - (prec - d))) by lia. rewrite !Z.sub_diag. replace (-1 - (-1 - (prec - d))) with (prec - d) by lia.
  split; [|lia]. unfold representable. rewrite E1, E2. nia.
Qed.

Lemma align_low (m : positive) e e' : e' <= e -> Z.pos (fst (shl_align m e e')) = Z.pos m * 2 ^ (e - e').
Proof.
  intros H. unfold shl_align. destruct (e' - e) as [|p|p] eqn:E; [|lia|]; cbn [fst].
  - replace (e - e') with 0 by lia. lia.
  - rewrite iter_xO. by replace (e - e') with (Z.pos p) by lia.
Qed.

Lemma normalize_above mt et m e z : repr mt et -> 0 < m -> dle mt et m e -> above mt et (binary_normalize prec emax m e z).
Proof.
  intros Hr Hm H. apply above_leb; [done|apply normalize_canonical|]. destruct m as [|p|p]; [lia| |lia]. unfold binary_normalize, binary_round.
  pose proof (align_form prec emax Hprec Hemax p e) as Ha. destruct (shl_align _ _ _) as [mz ez]. destruct Ha as (H1 & H2 & H3).
  apply (round_ge prec emax Hprec Hemax); [done|lia|done|]. eapply dle_trans; [exact H|]. rewrite (dle_iff ez) by lia. rewrite H3, Z.sub_diag. lia.
Qed.

(** A sum whose exact value is at least [t] halves is at least that after rounding. *)
Lemma normalize_halves t m e z : 4 <= emax -> 0 < t < 2 ^ prec -> dle t (-1) m e -> above t (-1) (binary_normalize prec emax m e z).
Proof.
  intros H4 Ht H. destruct (half_repr t H4 Ht) as (mt & et & Hr & H1 & H2).
  assert (0 < m). { unfold dle in H. assert (0 < 2 ^ (-1 - Z.min (-1) e)) by (apply Z.pow_pos_nonneg; lia).
    assert (0 < 2 ^ (e - Z.min (-1) e)) by (apply Z.pow_pos_nonneg; lia). nia. }
  eapply above_le; [exact H2|]. apply normalize_above; [done|done|]. eapply dle_trans; eassumption.
Qed.

Lemma add_above a b x y : 4 <= emax -> 0 < a -> 0 < b -> a + b < 2 ^ prec -> above a (-1) x -> above b (-1) y -> above (a + b) (-1) (SFadd prec emax x y).
Proof.
  intros H4 Ha Hb Ht Hx Hy. destruct x as [[]|[]| |[] mx ex], y as [[]|[]| |[] my ey]; try done. cbn [above SFadd cond_Zopp] in *.
  apply normalize_halves; [done|lia|]. rewrite !align_low by lia. set (ez := Z.min ex ey). set (k := Z.min ez (-1)).
  rewrite (dle_iff k) in * by lia. rewrite (Z.mul_add_distr_r (Z.pos mx * _)), !rescale by lia. lia.
Qed.

(** Subtracting at most a half takes away at most that. *)
Lemma nudge_above a x y : 4 <= emax -> 1 < a < 2 ^ prec -> above a (-1) x -> within_mag 1 (-1) y -> above (a - 1) (-1) (SFadd prec emax x y).
Proof.
  intros H4 Ht Hx Hy. destruct x as [[]|[]| |[] mx ex], y as [?|?| |s my ey]; try done; cbn [SFadd].
  - eapply above_le; [|exact Hx]. rewrite (dle_iff (-1)) by lia. lia.
  - cbn [above within_mag] in *. apply normalize_halves; [done|lia|]. rewrite !align_low by lia. set (ez := Z.min ex ey). set (k := Z.min ez (-1)).
    rewrite (dle_iff k) in * by lia. assert (0 < 2 ^ (ey - k)) by (apply Z.pow_pos_nonneg; lia).
    assert (cond_Zopp false (Z.pos mx * 2 ^ (ex - ez)) * 2 ^ (ez - k) = Z.pos mx * 2 ^ (ex - k)) as E1.
    { cbn [cond_Zopp]. by rewrite rescale by lia. }
    assert (cond_Zopp s (Z.pos my * 2 ^ (ey - ez)) * 2 ^ (ez - k) = cond_Zopp s (Z.pos my * 2 ^ (ey - k))) as E2.
    { rewrite <- (rescale (Z.pos my) ey ez k) by lia. destruct s; cbn [cond_Zopp]; ring. }
    rewrite (Z.mul_add_distr_r (cond_Zopp false _)), E1, E2. destruct s; cbn [cond_Zopp]; lia.
Qed.

(** Being below a representable bound. *)
Lemma ltb_above m e mt et x : repr mt et -> canonical x -> above m e x -> SFltb x (fpos mt et) = true -> ~ dle mt et m e.
Proof.
  intros Hr Hc Ha Hlt Hd. assert (above mt et x) as H2 by (eapply above_le; eassumption).
  apply above_leb in H2; [|done..]. destruct x as [[]|[]| |[] mx ex]; try done. unfold SFltb, SFleb, fpos in *. cbn [SFcompare] in *.
  change (Pos.compare_cont Eq) with Pos.compare in *. rewrite Pos.compare_antisym in H2. rewrite Z.compare_antisym in H2.
  destruct (ex ?= et); cbn in *; try done. by destruct (Pos.compare mx (Z.to_pos mt)).
Qed.

(** A representable value is not changed. *)
Lemma normalize_exact mt et m e z : repr mt et -> 0 < m -> dle mt et m e -> dle m e mt et -> binary_normalize prec emax m e z = fpos mt et.
Proof.
  intros Hr Hm H1 H2. pose proof (normalize_above mt et m e z Hr Hm H1) as Ha. apply above_leb in Ha; [|done|apply normalize_canonical].
  assert (SFleb (binary_normalize prec emax m e z) (fpos mt et) = true) as Hb.
  { destruct m as [|p|p]; [lia| |lia]. unfold binary_normalize, binary_round. pose proof (align_form prec emax Hprec Hemax p e) as Hal.
    destruct (shl_align _ _ _) as [mz ez]. destruct Hal as (A1 & A2 & A3). apply (round_le prec emax Hprec Hemax); [done|lia|done|].
    right. split; [done|]. eapply dle_trans; [|exact H2]. rewrite (dle_iff ez) by lia. rewrite A3, Z.sub_diag. lia. }
  destruct (binary_normalize prec emax m e z) as [[]|[]| |[] p' e']; try done. pose proof (proj1 (proj1 Hr)).
  apply (f64_leb_pos mt et (Z.pos p') e') in Ha; [|lia..]. apply (f64_leb_pos (Z.pos p') e' mt et) in Hb; [|lia..].
  assert (e' = et) as -> by lia. assert (mt = Z.pos p') as -> by lia. done.
Qed.

(** An integer of fewer than [prec] digits is converted exactly. *)
Lemma of_Z_exact z : 4 <= emax -> 0 < z < 2 ^ (prec - 1) -> exists m e,
  binary_normalize prec emax z 0 false = fpos m e /\ repr m e /\ dle m e z 0 /\ dle z 0 m e.
Proof.
  intros H4 Hz. destruct (half_repr (2 * z) H4) as (m & e & Hr & H1 & H2).
  { replace (2 ^ prec) with (2 ^ 1 * 2 ^ (prec - 1)) by (rewrite <- Z.pow_add_r by lia; f_equal; lia). lia. }
  assert (dle m e z 0) as H1' by (eapply dle_trans; [exact H1|]; rewrite (dle_iff (-1)) by lia; cbn; lia).
  assert (dle z 0 m e) as H2' by (eapply dle_trans; [|exact H2]; rewrite (dle_iff (-1)) by lia; cbn; lia).
  exists m, e. split; [by apply normalize_exact; [|lia|..]|done].
Qed.

(** Sums and differences of such integers are exact. *)
Lemma of_Z_scaled z : 4 <= emax -> 0 < z < 2 ^ (prec - 1) -> exists (m : positive) e,
  binary_normalize prec emax z 0 false = S754_finite false m e /\ forall k, k <= e -> k <= 0 -> Z.pos m * 2 ^ (e - k) = z * 2 ^ (0 - k).
Proof.
  intros H4 Hz. destruct (of_Z_exact z H4 Hz) as (m & e & -> & Hr & H1 & H2). exists (Z.to_pos m), e. split; [done|].
  intros k Hk Hk0. rewrite Z2Pos.id by (destruct Hr; lia). rewrite (dle_iff k) in H1, H2 by lia. lia.
Qed.

Lemma combine_of_Z sy a b : 4 <= emax -> 0 < a < 2 ^ (prec - 1) -> 0 < b < 2 ^ (prec - 1) -> 0 < a + cond_Zopp sy b < 2 ^ (prec - 1) ->
  forall ma ea mb eb, binary_normalize prec emax a 0 false = S754_finite false ma ea -> binary_normalize prec emax b 0 false = S754_finite false mb eb ->
  binary_normalize prec emax (Z.pos (fst (shl_align ma ea (Z.min ea eb))) + cond_Zopp sy (Z.pos (fst (shl_align mb eb (Z.min ea eb))))) (Z.min ea eb) false
  = binary_normalize prec emax (a + cond_Zopp sy b) 0 false.
Proof.
  intros H4 Ha Hb Hs ma ea mb eb Ea Eb. destruct (of_Z_scaled a H4 Ha) as (ma' & ea' & Ea' & Va), (of_Z_scaled b H4 Hb) as (mb' & eb' & Eb' & Vb).
  rewrite Ea in Ea'. rewrite Eb in Eb'. injection Ea' as <- <-. injection Eb' as <- <-. destruct (of_Z_exact _ H4 Hs) as (m & e & -> & Hr & H1 & H2). rewrite !align_low by lia. set (ez := Z.min ea eb).
  set (k := Z.min ez 0). assert (0 < 2 ^ (ez - k)) by (apply Z.pow_pos_nonneg; lia). assert (0 < 2 ^ (0 - k)) by (apply Z.pow_pos_nonneg; lia).
  set (S := Z.pos ma * 2 ^ (ea - ez) + cond_Zopp sy (Z.pos mb * 2 ^ (eb - ez))).
  assert (S * 2 ^ (ez - k) = (a + cond_Zopp sy b) * 2 ^ (0 - k)) as HS.
  { transitivity (Z.pos ma * 2 ^ (ea - ez) * 2 ^ (ez - k) + cond_Zopp sy (Z.pos mb * 2 ^ (eb - ez) * 2 ^ (ez - k))).
    - unfold S. destruct sy; cbn [cond_Zopp]; ring.
    - rewrite !rescale, Va, Vb by lia. destruct sy; cbn [cond_Zopp]; ring. }
  assert (0 < S) as HSp by nia. apply normalize_exact; [exact Hr|exact HSp|..].
  - eapply dle_trans; [exact H1|]. rewrite (dle_iff k) by lia. lia.
  - eapply dle_trans; [|exact H2]. rewrite (dle_iff k) by lia. lia.
Qed.

Lemma add_of_Z a b : 4 <= emax -> 0 < a -> 0 < b -> a + b < 2 ^ (prec - 1) ->
  SFadd prec emax (binary_normalize prec emax a 0 false) (binary_normalize prec emax b 0 false) = binary_normalize prec emax (a + b) 0 false.
Proof.
  intros H4 Ha Hb Hs. destruct (of_Z_scaled a H4 ltac:(lia)) as (ma & ea & Ea & _), (of_Z_scaled b H4 ltac:(lia)) as (mb & eb & Eb & _).
  rewrite Ea, Eb. cbn [SFadd]. apply (combine_of_Z false a b); [done|lia|lia|cbn; lia|done|done].
Qed.

Lemma sub_of_Z a b : 4 <= emax -> 0 < b < a -> a < 2 ^ (prec - 1) ->
  SFsub prec emax (binary_normalize prec emax a 0 false) (binary_normalize prec emax b 0 false) = binary_normalize prec emax (a - b) 0 false.
Proof.
  intros H4 Ha Hs. destruct (of_Z_scaled a H4 ltac:(lia)) as (ma & ea & Ea & _), (of_Z_scaled b H4 ltac:(lia)) as (mb & eb & Eb & _).
  rewrite Ea, Eb. cbn [SFsub]. apply (combine_of_Z true a b); [done|lia|lia|cbn; lia|done|done].
Qed.

Lemma trunc_of_Z z : 4 <= emax -> 0 < z < 2 ^ (prec - 1) -> f64_trunc (binary_normalize prec emax z 0 false) = z.
Proof.
  intros H4 Hz. destruct (of_Z_scaled z H4 Hz) as (m & e & -> & V). cbn [f64_trunc]. destruct (Z.leb_spec 0 e).
  - specialize (V 0 ltac:(lia) ltac:(lia)). rewrite Z.sub_0_r, Z.mul_1_r in V. done.
  - specialize (V e ltac:(lia) ltac:(lia)). rewrite Z.sub_diag, Z.mul_1_r in V. rewrite V. apply Z.div_mul. apply Z.pow_nonzero; lia.
Qed.

End format.

#[export] Instance canonical_dec prec emax x : Decision (canonical prec emax x).
Proof. destruct x; unfold canonical, representable; apply _. Defined.

(** ** binary32 *)

Abbreviation canonical32 := (canonical 24 128).

Lemma f32_add_canonical x y : canonical32 x -> canonical32 y -> canonical32 (f32_add x y).
Proof. by apply add_canonical. Qed.
Lemma f32_sub_canonical x y : canonical32 x -> canonical32 y -> canonical32 (f32_sub x y).
Proof. by apply sub_canonical. Qed.
Lemma f32_mul_canonical x y : canonical32 x -> canonical32 y -> canonical32 (f32_mul x y).
Proof. by apply mul_canonical. Qed.
Lemma f32_opp_canonical x : canonical32 x -> canonical32 (f32_opp x).
Proof. by apply opp_canonical. Qed.
Lemma f32_of_Z_canonical z : canonical32 (f32_of_Z z).
Proof. by apply of_Z_canonical. Qed.
Lemma f32_div_canonical x y : canonical32 (f32_div x y).
Proof. by apply div_canonical. Qed.
Lemma f32_lit_canonical num den : canonical32 (f32_lit num den).
Proof. by apply div_core_canonical. Qed.

Lemma f32_zero_canonical : canonical32 f32_zero.
Proof. done. Qed.
Lemma f32_one_canonical : canonical32 f32_one.
Proof. by apply of_Z_canonical. Qed.

Lemma f32_add_of_Z a b : 0 < a -> 0 < b -> a + b < 2 ^ 23 -> f32_add (f32_of_Z a) (f32_of_Z b) = f32_of_Z (a + b).
Proof. intros. by apply (add_of_Z 24 128 ltac:(lia) ltac:(lia)). Qed.
Lemma f32_sub_of_Z a b : 0 < b < a -> a < 2 ^ 23 -> f32_sub (f32_of_Z a) (f32_of_Z b) = f32_of_Z (a - b).
Proof. intros. by apply (sub_of_Z 24 128 ltac:(lia) ltac:(lia)). Qed.
Lemma f32_trunc_of_Z z : 0 < z < 2 ^ 23 -> f64_trunc (f32_of_Z z) = z.
Proof. intros. by apply (trunc_of_Z 24 128 ltac:(lia) ltac:(lia)). Qed.
Lemma f32_sub_self z : 0 < z < 2 ^ 23 -> f32_sub (f32_of_Z z) (f32_of_Z z) = f32_zero.
Proof.
  intros Hz. destruct (of_Z_scaled 24 128 ltac:(lia) ltac:(lia) z) as (m & e & E & _); [lia|done|]. unfold f32_of_Z. rewrite E.
  unfold f32_sub. cbn [SFsub]. rewrite Z.min_id, Z.sub_diag. done.
Qed.

Lemma f32_ltb_of_Z a b : 0 < a < 2 ^ 23 -> 0 < b < 2 ^ 23 -> f32_ltb (f32_of_Z a) (f32_of_Z b) = (a <? b).
Proof.
  intros Ha Hb. destruct (of_Z_exact 24 128 ltac:(lia) ltac:(lia) a) as (m1 & e1 & E1 & R1 & L1 & U1); [lia|done|].
  destruct (of_Z_exact 24 128 ltac:(lia) ltac:(lia) b) as (m2 & e2 & E2 & R2 & L2 & U2); [lia|done|].
  unfold f32_of_Z. rewrite E1, E2. pose proof (leb_repr 24 128 ltac:(lia) ltac:(lia) m2 e2 m1 e1 R2 R1) as Hl.
  assert (f32_ltb (fpos m1 e1) (fpos m2 e2) = negb (SFleb (fpos m2 e2) (fpos m1 e1))) as ->.
  { unfold f32_ltb, SFltb, SFleb, fpos. cbn [SFcompare]. change (Pos.compare_cont Eq) with Pos.compare. rewrite (Z.compare_antisym e1), (Pos.compare_antisym (Z.to_pos m1)).
    destruct (e1 ?= e2); cbn; try done. by destruct (Pos.compare (Z.to_pos m1) (Z.to_pos m2)). }
  assert (dle m2 e2 m1 e1 <-> b <= a) as Hd.
  { assert (dle b 0 a 0 <-> b <= a) as <- by (rewrite (dle_iff 0) by lia; lia). split; intros H; eauto using dle_trans. }
  destruct (SFleb _ _); cbn [negb]; symmetry; [apply Z.ltb_ge; tauto|]. apply Z.ltb_lt. apply Z.nle_gt. intros H. apply Hd, Hl in H. done.
Qed.

Create HintDb canon.
#[export] Hint Resolve f32_add_canonical f32_sub_canonical f32_mul_canonical f32_opp_canonical f32_of_Z_canonical f32_div_canonical f32_lit_canonical f32_zero_canonical f32_one_canonical : canon.
