(* ===== verification/CComplex.v ===== *)
(** [float complex] of C99, with the operations the signal path uses.

    A product of two complex values whose parts both come out as NaN is computed
    again with the infinities boxed, as annex G of the standard and the compiler's
    run-time library do; the sign of a NaN is not represented, zeros that replace
    one are positive.  An operand of real type is not converted: it acts on the
    parts. *)
From S2P Require Import Prelude CFloat CRound CCanon.
#[local] Open Scope Z_scope.

Record c32 := C32 { c_re : f32; c_im : f32 }.
#[export] Instance c32_eq_dec : EqDecision c32.
Proof. solve_decision. Defined.

Definition c_zero : c32 := C32 f32_zero f32_zero.
Definition c_one : c32 := C32 f32_one f32_zero.
#[export] Instance c32_inhabited : Inhabited c32 := populate c_zero.

Definition c_add (x y : c32) : c32 := C32 (f32_add (c_re x) (c_re y)) (f32_add (c_im x) (c_im y)).
Definition c_sub (x y : c32) : c32 := C32 (f32_sub (c_re x) (c_re y)) (f32_sub (c_im x) (c_im y)).
Definition conjf (x : c32) : c32 := C32 (c_re x) (f32_opp (c_im x)).

(** [t * x], [x * t] and [x / t] for a real [t]. *)
Definition c_scale (t : f32) (x : c32) : c32 := C32 (f32_mul t (c_re x)) (f32_mul t (c_im x)).
Definition c_scale_r (x : c32) (t : f32) : c32 := C32 (f32_mul (c_re x) t) (f32_mul (c_im x) t).
Definition c_div_r (x : c32) (t : f32) : c32 := C32 (f32_div (c_re x) t) (f32_div (c_im x) t).

(** [re + im * I] for real [re] and [im]. *)
Definition c_of_parts (re im : f32) : c32 := C32 (f32_add re (f32_mul im f32_zero)) (f32_mul im f32_one).

Definition f_inf (x : f32) : bool := match x with S754_infinity _ => true | _ => false end.
Definition f_sign (x : f32) : bool := match x with S754_zero s | S754_infinity s | S754_finite s _ _ => s | S754_nan => false end.
Definition box (x : f32) : f32 := if f_inf x then (if f_sign x then f32_opp f32_one else f32_one) else S754_zero (f_sign x).
Definition unnan (x : f32) : f32 := if f_nan x then f32_zero else x.

(** The second attempt at [(a + bi) * (c + di)]. *)
Definition mul_infinite (a b c d : f32) : option c32 :=
  let inf1 := f_inf a || f_inf b in
  let inf2 := f_inf c || f_inf d in
  let again a b c d :=
    Some (C32 (f32_mul (S754_infinity false) (f32_sub (f32_mul a c) (f32_mul b d)))
              (f32_mul (S754_infinity false) (f32_add (f32_mul a d) (f32_mul b c)))) in
  let '(a1, b1, c1, d1) := if inf1 then (box a, box b, unnan c, unnan d) else (a, b, c, d) in
  let '(a2, b2, c2, d2) := if inf2 then (unnan a1, unnan b1, box c1, box d1) else (a1, b1, c1, d1) in
  if inf1 || inf2 then again a2 b2 c2 d2
  else if f_inf (f32_mul a c) || f_inf (f32_mul b d) || f_inf (f32_mul a d) || f_inf (f32_mul b c)
  then again (unnan a) (unnan b) (unnan c) (unnan d)
  else None.

Definition c_mul (x y : c32) : c32 :=
  let '(a, b, c, d) := (c_re x, c_im x, c_re y, c_im y) in
  let re := f32_sub (f32_mul a c) (f32_mul b d) in
  let im := f32_add (f32_mul a d) (f32_mul b c) in
  if f_nan re && f_nan im then default (C32 re im) (mul_infinite a b c d) else C32 re im.

(** [re * re + im * im]. *)
Definition mag2 (x : c32) : f32 := f32_add (f32_mul (c_re x) (c_re x)) (f32_mul (c_im x) (c_im x)).

(** * Canonical values *)

Definition c_canon (z : c32) : Prop := canonical32 (c_re z) /\ canonical32 (c_im z).

#[export] Instance c_canon_dec z : Decision (c_canon z).
Proof. unfold c_canon. apply _. Defined.

Lemma c_add_canon x y : c_canon x -> c_canon y -> c_canon (c_add x y).
Proof. intros [? ?] [? ?]. split; cbn; auto with canon. Qed.
Lemma c_sub_canon x y : c_canon x -> c_canon y -> c_canon (c_sub x y).
Proof. intros [? ?] [? ?]. split; cbn; auto with canon. Qed.
Lemma conjf_canon x : c_canon x -> c_canon (conjf x).
Proof. intros [? ?]. split; cbn; auto with canon. Qed.
Lemma c_scale_canon t x : canonical32 t -> c_canon x -> c_canon (c_scale t x).
Proof. intros ? [? ?]. split; cbn; auto with canon. Qed.
Lemma c_scale_r_canon t x : canonical32 t -> c_canon x -> c_canon (c_scale_r x t).
Proof. intros ? [? ?]. split; cbn; auto with canon. Qed.

Lemma c_div_r_canon t x : c_canon (c_div_r x t).
Proof. split; cbn; auto with canon. Qed.
Lemma c_of_parts_canon x y : canonical32 x -> canonical32 y -> c_canon (c_of_parts x y).
Proof. intros. split; cbn; auto 6 with canon. Qed.

Lemma box_canonical x : canonical32 (box x).
Proof. unfold box. destruct (f_inf x), (f_sign x); eval_dec. Qed.
Lemma unnan_canonical x : canonical32 x -> canonical32 (unnan x).
Proof. unfold unnan. by destruct (f_nan x). Qed.
Lemma infinity_canonical s : canonical32 (S754_infinity s).
Proof. done. Qed.
Lemma c_zero_canon : c_canon c_zero.
Proof. eval_dec. Qed.
Lemma c_one_canon : c_canon c_one.
Proof. eval_dec. Qed.
#[export] Hint Resolve box_canonical unnan_canonical infinity_canonical : canon.

Lemma c_mul_canon x y : c_canon x -> c_canon y -> c_canon (c_mul x y).
Proof.
  intros [? ?] [? ?]. unfold c_mul, mul_infinite.
  destruct (f_nan _ && f_nan _); [|split; cbn; auto with canon].
  destruct (f_inf (c_re x) || f_inf (c_im x)), (f_inf (c_re y) || f_inf (c_im y)); cbn [orb default id];
    repeat case_match; split; cbn [c_re c_im from_option id]; auto 8 with canon.
Qed.

Lemma lookup_canon l i : Forall c_canon l -> c_canon (l !!! i).
Proof.
  intros Hl. rewrite list_lookup_total_alt. destruct (l !! i) eqn:E; [|cbn; eval_dec]. by eapply Forall_lookup_1 in Hl.
Qed.
#[export] Hint Resolve c_add_canon c_sub_canon conjf_canon c_scale_canon c_scale_r_canon c_div_r_canon c_of_parts_canon c_zero_canon c_one_canon c_mul_canon lookup_canon : canon.

Lemma lookup_canonical32 (l : list f32) i : Forall (canonical 24 128) l -> canonical32 (l !!! i).
Proof.
  intros Hl. rewrite list_lookup_total_alt. destruct (l !! i) eqn:E; [|done]. by eapply Forall_lookup_1 in Hl.
Qed.
#[export] Hint Resolve lookup_canonical32 : canon.
