(* ===== verification/BlockingQueue.v ===== *)
(** The queues between the threads, [src/blocking_queue.h] and
    [src/fair_lock.h]: the circular buffer, the fair locks, and the blocking
    operations as a transition system over any number of threads.

    A step is one critical section: the code a thread runs under the mutex of a
    fair lock, or under the mutex of the queue (with the calls into the fair
    locks it makes there), up to releasing it or waiting.  A condition variable
    wakes one waiting thread per signal; whether it may also wake a thread
    without a signal is the argument [spurious] of the step relation.  The pool
    of lock entries is memory management; [active_callers_count] is the number
    of threads inside a call. *)
From S2P Require Import Prelude.
From stdpp Require Import gmap fin_maps.
#[local] Open Scope nat_scope.

(** * The circular buffer *)

Section buffer.
Context {V : Type}.

(** Cells that were never written are [None]. *)
Record queue := Queue {
  q_cells : list (option V);
  queue_capacity : nat;
  queue_size : nat;
  queue_front : nat;
  queue_rear : nat;
}.

Definition queue_init (capacity : nat) : queue :=
  Queue (replicate capacity None) capacity 0 0 (capacity - 1).

Definition enqueue (q : queue) (element : V) : queue :=
  let rear := (queue_rear q + 1) mod queue_capacity q in
  Queue (<[rear := Some element]> (q_cells q)) (queue_capacity q) (queue_size q + 1) (queue_front q) rear.

Definition dequeue (q : queue) : option V * queue :=
  (q_cells q !!! queue_front q,
   Queue (q_cells q) (queue_capacity q) (queue_size q - 1) ((queue_front q + 1) mod queue_capacity q) (queue_rear q)).

(** The capacity is doubled as an [unsigned int]; the allocation is assumed to
    succeed here. *)
Definition grow_queue (q : queue) : queue :=
  let new_capacity := Z.to_nat (u32 (Z.of_nat (queue_capacity q) * 2)) in
  let copied :=
    if queue_front q <=? queue_rear q then take (queue_size q) (drop (queue_front q) (q_cells q))
    else take (queue_capacity q - queue_front q) (drop (queue_front q) (q_cells q)) ++ take (queue_rear q + 1) (q_cells q) in
  Queue (copied ++ replicate (new_capacity - length copied) None) new_capacity (queue_size q) 0 (queue_size q - 1).

(** The buffer holds the list [l], oldest first. *)
Definition holds (q : queue) (l : list V) : Prop :=
  length (q_cells q) = queue_capacity q /\ queue_size q = length l /\ length l <= queue_capacity q /\
  queue_front q < queue_capacity q /\
  queue_rear q = (queue_front q + queue_size q + (queue_capacity q - 1)) mod queue_capacity q /\
  forall i, i < length l -> q_cells q !! ((queue_front q + i) mod queue_capacity q) = Some (l !! i).

Lemma init_holds capacity : 0 < capacity -> holds (queue_init capacity) [].
Proof.
  intros Hc. unfold holds, queue_init. cbn. rewrite length_replicate. split_and!; try lia.
  rewrite Nat.mod_small; lia.
Qed.

(** Stepping round the buffer. *)
Lemma mod_step a b n : 0 < n -> ((a mod n) + b) mod n = (a + b) mod n.
Proof. intros Hn. by rewrite Nat.Div0.add_mod_idemp_l. Qed.

Lemma mod_distinct a i j n : i < j -> j < n + i -> (a + i) mod n <> (a + j) mod n.
Proof.
  intros Hij Hj E. pose proof (Nat.div_mod_eq (a + i) n). pose proof (Nat.div_mod_eq (a + j) n).
  assert (j - i = n * ((a + j) / n - (a + i) / n)) as Hd by nia.
  destruct ((a + j) / n - (a + i) / n) as [|k]; nia.
Qed.

Lemma enqueue_holds q l x : holds q l -> length l < queue_capacity q -> holds (enqueue q x) (l ++ [x]).
Proof.
  intros (Hl & Hs & Hc & Hf & Hr & Hk) Hlt. unfold holds, enqueue. cbn [q_cells queue_capacity queue_size queue_front queue_rear]. rewrite length_insert, length_app. cbn [length].
  assert ((queue_rear q + 1) mod queue_capacity q = (queue_front q + length l) mod queue_capacity q) as ->.
  { rewrite Hr, mod_step by lia. replace (queue_front q + queue_size q + (queue_capacity q - 1) + 1)
      with (queue_front q + length l + 1 * queue_capacity q) by lia. apply Nat.Div0.mod_add. }
  split; [done|]. split; [lia|]. split; [lia|]. split; [done|]. split.
  { replace (queue_front q + (queue_size q + 1) + (queue_capacity q - 1))
      with (queue_front q + length l + 1 * queue_capacity q) by lia. by rewrite Nat.Div0.mod_add. }
  intros i Hi. destruct (decide (i = length l)) as [->|Hne].
  - rewrite list_lookup_insert_eq by (rewrite Hl; apply Nat.mod_upper_bound; lia).
    by rewrite lookup_app_r, Nat.sub_diag by lia.
  - rewrite list_lookup_insert_ne by (intros E; symmetry in E; revert E; apply mod_distinct; lia).
    rewrite lookup_app_l by lia. apply Hk. lia.
Qed.

Lemma dequeue_holds q x l : holds q (x :: l) -> exists q', dequeue q = (Some x, q') /\ holds q' l.
Proof.
  intros (Hl & Hs & Hc & Hf & Hr & Hk). cbn [length] in *. eexists. split.
  - unfold dequeue. f_equal. apply list_lookup_total_correct. specialize (Hk 0 ltac:(lia)).
    by rewrite Nat.add_0_r, Nat.mod_small in Hk by lia.
  - unfold holds. cbn [q_cells queue_capacity queue_size queue_front queue_rear]. split; [done|]. split; [lia|]. split; [lia|]. split; [apply Nat.mod_upper_bound; lia|]. split.
    + rewrite Hr, <- (Nat.add_assoc (_ mod _)), mod_step by lia. f_equal. lia.
    + intros i Hi. rewrite mod_step by lia. replace (queue_front q + 1 + i) with (queue_front q + S i) by lia.
      by rewrite Hk by lia.
Qed.

(** A full buffer is copied in order. *)
Lemma grow_holds q l : holds q l -> 0 < queue_capacity q -> queue_size q = queue_capacity q ->
  (Z.of_nat (queue_capacity q) < 2 ^ 31)%Z ->
  holds (grow_queue q) l /\ queue_capacity (grow_queue q) = 2 * queue_capacity q.
Proof.
  intros (Hl & Hs & Hc & Hf & Hr & Hk) H0 Hfull Hb.
  assert (Z.to_nat (u32 (Z.of_nat (queue_capacity q) * 2)) = 2 * queue_capacity q) as Hn by (rewrite u32_small by lia; lia).
  set (n := queue_capacity q) in *. set (f := queue_front q) in *.
  assert (map Some l = drop f (q_cells q) ++ take f (q_cells q)) as Hcopy.
  { apply list_eq_same_length with n; [rewrite length_app, length_drop, length_take; lia|rewrite length_map; lia|].
    intros i y z Hi Hy Hz. rewrite list_lookup_fmap in Hy. specialize (Hk i ltac:(lia)).
    destruct (l !! i) eqn:El; [|done]. injection Hy as <-.
    destruct (decide (f + i < n)).
    - rewrite lookup_app_l, lookup_drop in Hz by (rewrite length_drop; lia). rewrite Nat.mod_small in Hk by lia. congruence.
    - rewrite lookup_app_r, length_drop in Hz by (rewrite length_drop; lia). rewrite lookup_take_lt in Hz by lia.
      assert ((f + i) mod n = i - (length (q_cells q) - f)) as E.
      { replace (f + i) with (f + i - n + 1 * n) by lia. rewrite Nat.Div0.mod_add, Nat.mod_small by lia. lia. }
      rewrite E in Hk. congruence. }
  assert ((if f <=? queue_rear q then take (queue_size q) (drop f (q_cells q))
    else take (n - f) (drop f (q_cells q)) ++ take (queue_rear q + 1) (q_cells q)) = map Some l) as Hcp.
  { rewrite Hcopy, Hr, Hfull. destruct (decide (f = 0)) as [E|Hf0].
    - rewrite E, (proj2 (Nat.leb_le 0 _)) by lia. rewrite drop_0, take_0. rewrite app_nil_r, take_ge by lia. done.
    - replace (f + n + (n - 1)) with (f - 1 + 2 * n) by lia. rewrite Nat.Div0.mod_add, Nat.mod_small by lia.
      rewrite (proj2 (Nat.leb_gt _ _)) by lia. rewrite take_ge by (rewrite length_drop; lia). do 2 f_equal. lia. }
  unfold holds, grow_queue. fold n f. rewrite Hcp, Hn. cbn [q_cells queue_capacity queue_size queue_front queue_rear]. rewrite length_app, length_map, length_replicate.
  split; [|done]. split; [lia|]. split; [done|]. split; [lia|]. split; [lia|]. split.
  - replace (0 + queue_size q + (2 * n - 1)) with (queue_size q - 1 + 1 * (2 * n)) by lia.
    rewrite Nat.Div0.mod_add, Nat.mod_small; lia.
  - intros i Hi. rewrite Nat.add_0_l. rewrite Nat.mod_small by lia. rewrite lookup_app_l by (rewrite length_map; lia).
    destruct (lookup_lt_is_Some_2 l i Hi) as [y Ey]. transitivity (Some <$> l !! i); [apply list_lookup_fmap|by rewrite Ey].
Qed.
End buffer.

(** * Fair locks *)

(** The threads that wait, in order, each with whether its request is weak. *)
Record fair_lock := FairLock {
  is_lock_acquired : bool;
  waiting_threads : Z;
  block_weak_locks : bool;
  cond_queue : list (nat * bool);
}.

Definition fair_lock_init : fair_lock := FairLock false 0 false [].

Inductive lock_outcome := Acquired (l : fair_lock) | Waits (l : fair_lock) | Abandoned.

(** [_fair_lock_lock] by thread [t] up to acquiring the lock or waiting. *)
Definition fair_lock_lock (l : fair_lock) (t : nat) (weak : bool) : lock_outcome :=
  if weak && block_weak_locks l then Abandoned
  else if is_lock_acquired l || (0 <? waiting_threads l)%Z then
    Waits (FairLock (is_lock_acquired l) (waiting_threads l + 1) (block_weak_locks l) (cond_queue l ++ [(t, weak)]))
  else Acquired (FairLock true (waiting_threads l) (block_weak_locks l) (cond_queue l)).

(** The rest of it for a thread woken with the lock. *)
Definition fair_lock_woken (l : fair_lock) : fair_lock :=
  FairLock true (waiting_threads l - 1) (block_weak_locks l) (cond_queue l).

(** [fair_lock_unlock], with the thread it signals. *)
Definition fair_lock_unlock (l : fair_lock) : fair_lock * option nat :=
  (FairLock false (waiting_threads l) (block_weak_locks l) (tail (cond_queue l)), fst <$> head (cond_queue l)).

(** [fair_lock_block_weak_locks], with the threads it signals as abandoned. *)
Definition fair_lock_block_weak_locks (l : fair_lock) : fair_lock * list nat :=
  let weak := List.filter snd (cond_queue l) in
  (FairLock (is_lock_acquired l) (waiting_threads l - Z.of_nat (length weak)) true (List.filter (fun e => negb (snd e)) (cond_queue l)),
   map fst weak).

Definition fair_lock_allow_weak_locks (l : fair_lock) : fair_lock :=
  FairLock (is_lock_acquired l) (waiting_threads l) false (cond_queue l).

(** ** What a lock promises *)

(** A thread's part in a lock. *)
Inductive role := Out | Queued (weak : bool) | Granted | Holder.

#[export] Instance role_eq_dec : EqDecision role.
Proof. solve_decision. Defined.

(** At most one thread holds the lock or has been handed it; a thread is handed
    it only when it is free; if nobody holds it or has been handed it, nobody
    waits. *)
Definition lock_inv (l : fair_lock) (rho : nat -> role) : Prop :=
  exists h g : option nat,
    (forall t, rho t = Holder <-> h = Some t) /\ (forall t, rho t = Granted <-> g = Some t) /\
    (forall t w, rho t = Queued w <-> (t, w) ∈ cond_queue l) /\ NoDup (map fst (cond_queue l)) /\
    is_lock_acquired l = bool_decide (is_Some h) /\ (is_Some g -> h = None) /\
    waiting_threads l = Z.of_nat (length (cond_queue l) + match g with Some _ => 1 | None => 0 end) /\
    (h = None -> g = None -> cond_queue l = []).

(** Only the roles matter. *)
#[export] Instance lock_inv_proper l : Proper (pointwise_relation nat eq ==> iff) (lock_inv l).
Proof.
  assert (forall r r', pointwise_relation nat eq r r' -> lock_inv l r -> lock_inv l r') as H.
  { intros r r' E (h & g & H1 & H2 & H3 & Hr). exists h, g.
    split; [intros t; rewrite <- (E t); apply H1|]. split; [intros t; rewrite <- (E t); apply H2|].
    split; [intros t w; rewrite <- (E t); apply H3|]. done. }
  intros r r' E. split; apply H; [done|]. intros t. symmetry. apply E.
Qed.

Definition set_role (t : nat) (r : role) (rho : nat -> role) (u : nat) : role := if decide (u = t) then r else rho u.

Lemma set_role_eq t r rho : set_role t r rho t = r.
Proof. unfold set_role. by rewrite decide_True. Qed.
Lemma set_role_ne t r rho u : u <> t -> set_role t r rho u = rho u.
Proof. intros. unfold set_role. by rewrite decide_False. Qed.

Ltac roles H :=
  let P := fresh in pose proof H as P; unfold set_role;
  repeat match goal with |- context [decide (?a = ?b)] => destruct (decide (a = b)); subst end; intuition congruence.

Lemma init_lock : lock_inv fair_lock_init (fun _ => Out).
Proof.
  exists None, None. cbn. split; [by split|]. split; [by split|]. split; [|split; [constructor|by split_and!]].
  intros t w. split; [done|]. by intros ?%elem_of_nil.
Qed.

Lemma lock_waits l t w l' rho : lock_inv l rho -> rho t = Out -> fair_lock_lock l t w = Waits l' ->
  lock_inv l' (set_role t (Queued w) rho).
Proof.
  intros (h & g & H1 & H2 & H3 & Hnd & Ha & Hg & Hw & He) Ht. unfold fair_lock_lock.
  destruct (w && block_weak_locks l); [done|]. destruct (is_lock_acquired l || (0 <? waiting_threads l)%Z) eqn:Eb; [|done].
  intros [= <-]. exists h, g. cbn.
  assert (forall w', (t, w') ∉ cond_queue l) as Hn by (intros w' Hw'; apply H3 in Hw'; congruence).
  split; [intros u; roles (H1 u)|]. split; [intros u; roles (H2 u)|]. split; [|split; [|split; [done|split; [done|split]]]].
  - intros u w'. rewrite elem_of_app, list_elem_of_singleton. pose proof (Hn w'). roles (H3 u w').
  - rewrite map_app. apply NoDup_app. split; [done|]. cbn. split; [|apply NoDup_singleton].
    intros u Hu. rewrite list_elem_of_singleton. intros ->. apply list_elem_of_fmap in Hu as ([u' w'] & -> & Hin). by eapply Hn.
  - rewrite length_app, Hw. cbn. lia.
  - intros -> ->. rewrite Ha, He in *; [|done..]. cbn in *. rewrite Hw in Eb. done.
Qed.

Lemma lock_acquired l t w l' rho : lock_inv l rho -> rho t = Out -> fair_lock_lock l t w = Acquired l' ->
  lock_inv l' (set_role t Holder rho).
Proof.
  intros (h & g & H1 & H2 & H3 & Hnd & Ha & Hg & Hw & He) Ht. unfold fair_lock_lock.
  destruct (w && block_weak_locks l); [done|]. destruct (is_lock_acquired l || (0 <? waiting_threads l)%Z) eqn:Eb; [done|].
  apply orb_false_iff in Eb as [E1 E2%Z.ltb_ge]. rewrite E1 in Ha. symmetry in Ha. apply bool_decide_eq_false in Ha.
  intros [= <-]. assert (h = None) as -> by (destruct h; [exfalso; by apply Ha|done]).
  assert (g = None) as -> by (destruct g; [cbn in Hw; lia|done]).
  exists (Some t), None. rewrite He in * by done. cbn. split_and!; try done.
  - intros u. roles (H1 u).
  - intros u. roles (H2 u).
  - intros u w'. pose proof (H3 u w') as H. rewrite elem_of_nil in *. roles H.
Qed.

Lemma lock_woken l t rho : lock_inv l rho -> rho t = Granted ->
  is_lock_acquired l = false /\ lock_inv (fair_lock_woken l) (set_role t Holder rho).
Proof.
  intros (h & g & H1 & H2 & H3 & Hnd & Ha & Hg & Hw & He) Ht. pose proof Ht as Eg. apply H2 in Eg as ->.
  specialize (Hg ltac:(done)) as ->. split; [done|]. exists (Some t), None. cbn. split_and!; try done; try lia.
  - intros u. roles (H1 u).
  - intros u. roles (H2 u).
  - intros u w'. roles (H3 u w').
Qed.

Lemma lock_unlock l t rho : lock_inv l rho -> rho t = Holder ->
  match fair_lock_unlock l with
  | (l', None) => lock_inv l' (set_role t Out rho)
  | (l', Some u) => (exists w, rho u = Queued w) /\ u <> t /\ lock_inv l' (set_role u Granted (set_role t Out rho))
  end.
Proof.
  intros (h & g & H1 & H2 & H3 & Hnd & Ha & Hg & Hw & He) Ht. pose proof Ht as Eh. apply H1 in Eh as ->.
  assert (g = None) as -> by (destruct g; [by specialize (Hg ltac:(done))|done]).
  unfold fair_lock_unlock. destruct (cond_queue l) as [|[u w] q] eqn:Eq; cbn [head tail fmap option_fmap option_map fst].
  - exists None, None. cbn. split_and!; try done.
    + intros u. roles (H1 u).
    + intros u. roles (H2 u).
    + intros u w'. roles (H3 u w').
  - assert (rho u = Queued w) as Hu by (apply H3; left). assert (u <> t) by congruence.
    split; [by exists w|]. split; [done|]. exists None, (Some u). cbn in *. apply NoDup_cons in Hnd as [Hu1 Hnd].
    split_and!; try done; try lia.
    + intros v. roles (H1 v).
    + intros v. roles (H2 v).
    + intros v w'. pose proof (H3 v w') as Hv. rewrite elem_of_cons in Hv.
      assert ((u, w') ∉ q) by (intros Hin; destruct Hu1; change u with (fst (u, w')); by apply list_elem_of_fmap_2).
      roles Hv.
Qed.

(** Weak requests that wait leave the queue. *)
Definition drop_weak (r : role) : role := match r with Queued true => Out | _ => r end.

Lemma lock_block l rho : lock_inv l rho ->
  let '(l', ts) := fair_lock_block_weak_locks l in
  (forall t, t ∈ ts <-> rho t = Queued true) /\ lock_inv l' (fun t => drop_weak (rho t)).
Proof.
  intros (h & g & H1 & H2 & H3 & Hnd & Ha & Hg & Hw & He). unfold fair_lock_block_weak_locks. split.
  - intros t. rewrite H3. split.
    + intros ([t' w] & -> & [Hin Hw']%list_elem_of_In%filter_In)%list_elem_of_fmap. cbn in *. subst w. by apply list_elem_of_In.
    + intros Hin. change t with (fst (t, true)). apply list_elem_of_fmap_2, list_elem_of_In, filter_In. split; [|done]. by apply list_elem_of_In.
  - exists h, g. cbn. split_and!; try done.
    + intros t. rewrite <- H1. unfold drop_weak. by destruct (rho t) as [|[]| |].
    + intros t. rewrite <- H2. unfold drop_weak. by destruct (rho t) as [|[]| |].
    + intros t w. rewrite list_elem_of_In, filter_In, <- list_elem_of_In, <- H3. unfold drop_weak. cbn.
      clear; destruct (rho t) as [|[]| |], w; cbn; intuition (done || congruence).
    + clear -Hnd. induction (cond_queue l) as [|[u w] q IH]; cbn; [constructor|]. cbn in Hnd. apply NoDup_cons in Hnd as [Hu Hnd].
      destruct w; cbn; [by apply IH|]. apply NoDup_cons. split; [|by apply IH]. intros Hin. apply Hu.
      apply list_elem_of_fmap in Hin as (e & -> & [Hin _]%list_elem_of_In%filter_In). apply list_elem_of_fmap_2. by apply list_elem_of_In.
    + rewrite Hw. assert (length (cond_queue l) = length (List.filter snd (cond_queue l)) + length (List.filter (fun e => negb (snd e)) (cond_queue l))) as ->.
      { clear. induction (cond_queue l) as [|[u []] q IH]; cbn; lia. }
      lia.
    + intros. by rewrite He.
Qed.

(** * The queue as a transition system *)

Section system.
Context {V : Type}.

(** A call: [put] or [add] (asynchronous) of an element, [take] or [poll]. *)
Inductive op := OpAdd (async : bool) (element : V) | OpGet (async : bool).
Inductive side := AddSide | GetSide.

#[export] Instance side_eq_dec : EqDecision side.
Proof. solve_decision. Defined.

Definition side_of (o : op) : side := match o with OpAdd _ _ => AddSide | OpGet _ => GetSide end.
Definition is_async (o : op) : bool := match o with OpAdd a _ | OpGet a => a end.

Inductive result := R_ok | R_value (v : option V) | R_error | R_full | R_empty | R_closed.

(** [BQ_FULL] or [BQ_EMPTY]. *)
Definition refused (o : op) : result := match o with OpAdd _ _ => R_full | OpGet _ => R_empty end.

(** Where a thread is in [blocking_queue_add_internal] or
    [blocking_queue_get_internal]. *)
Inductive pc :=
| Lock (o : op)                          (* before the fair lock *)
| FairWait (o : op)                      (* waiting for the fair lock *)
| FairWoken (o : op) (abandoned : bool)  (* signalled there *)
| Enter (o : op)                         (* before the mutex *)
| CondWait (o : op)                      (* waiting for space or an element *)
| CondWoken (o : op)                     (* signalled there *)
| Unlock (o : op) (r : result)           (* after the mutex *)
| Done (r : result).

Record bq := Bq {
  add_lock : fair_lock;
  get_lock : fair_lock;
  add_lock_are_weak_locks_blocked : bool;
  get_lock_are_weak_locks_blocked : bool;
  bq_queue : @queue V;
  is_boundless : bool;
  closed : bool;
  threads : gmap nat pc;
}.

Definition blocking_queue_init (capacity : nat) : bq :=
  Bq fair_lock_init fair_lock_init false false (queue_init (if capacity =? 0 then 1 else capacity)) (capacity =? 0) false ∅.

(** ** Parts of the critical sections *)

Definition lock_of (s : bq) (d : side) : fair_lock := match d with AddSide => add_lock s | GetSide => get_lock s end.
Definition weak_blocked (s : bq) (d : side) : bool :=
  match d with AddSide => add_lock_are_weak_locks_blocked s | GetSide => get_lock_are_weak_locks_blocked s end.

Definition set_lock (d : side) (l : fair_lock) (s : bq) : bq :=
  match d with
  | AddSide => Bq l (get_lock s) (add_lock_are_weak_locks_blocked s) (get_lock_are_weak_locks_blocked s) (bq_queue s) (is_boundless s) (closed s) (threads s)
  | GetSide => Bq (add_lock s) l (add_lock_are_weak_locks_blocked s) (get_lock_are_weak_locks_blocked s) (bq_queue s) (is_boundless s) (closed s) (threads s)
  end.
Definition set_weak_blocked (d : side) (b : bool) (s : bq) : bq :=
  match d with
  | AddSide => Bq (add_lock s) (get_lock s) b (get_lock_are_weak_locks_blocked s) (bq_queue s) (is_boundless s) (closed s) (threads s)
  | GetSide => Bq (add_lock s) (get_lock s) (add_lock_are_weak_locks_blocked s) b (bq_queue s) (is_boundless s) (closed s) (threads s)
  end.
Definition set_queue (q : queue) (s : bq) : bq :=
  Bq (add_lock s) (get_lock s) (add_lock_are_weak_locks_blocked s) (get_lock_are_weak_locks_blocked s) q (is_boundless s) (closed s) (threads s).
Definition set_threads (m : gmap nat pc) (s : bq) : bq :=
  Bq (add_lock s) (get_lock s) (add_lock_are_weak_locks_blocked s) (get_lock_are_weak_locks_blocked s) (bq_queue s) (is_boundless s) (closed s) m.
Definition set_pc (t : nat) (p : pc) (s : bq) : bq := set_threads (<[t := p]> (threads s)) s.

(** A signal to a thread that waits for a fair lock. *)
Definition fair_signal (abandoned : bool) (p : pc) : pc :=
  match p with FairWait o => FairWoken o abandoned | _ => p end.
Definition wake (abandoned : bool) (u : nat) (s : bq) : bq := set_threads (alter (fair_signal abandoned) u (threads s)) s.

Definition unlock (d : side) (s : bq) : bq :=
  let '(l, u) := fair_lock_unlock (lock_of s d) in
  let s := set_lock d l s in
  match u with Some u => wake false u s | None => s end.

Definition block_weak (d : side) (s : bq) : bq :=
  if weak_blocked s d then s
  else
    let '(l, ts) := fair_lock_block_weak_locks (lock_of s d) in
    set_weak_blocked d true (foldr (wake true) (set_lock d l s) ts).

Definition allow_weak (d : side) (s : bq) : bq :=
  if weak_blocked s d then set_weak_blocked d false (set_lock d (fair_lock_allow_weak_locks (lock_of s d)) s) else s.

(** [pthread_cond_signal(&bq->cond)] wakes [w]: a waiting thread if there is
    one. *)
Definition signals (s : bq) (w : option nat) : Prop :=
  match w with
  | Some u => exists o, threads s !! u = Some (CondWait o)
  | None => forall u o, threads s !! u <> Some (CondWait o)
  end.
Definition cond_signal (p : pc) : pc := match p with CondWait o => CondWoken o | _ => p end.
Definition signal (w : option nat) (s : bq) : bq :=
  match w with Some u => set_threads (alter cond_signal u (threads s)) s | None => s end.

(** What a step does to the contents. *)
Inductive event := Tau | Enq (v : V) | Deq (v : option V).

(** The common end of the two functions under the mutex. *)
Definition commit (w : option nat) (t : nat) (o : op) (s : bq) : event * bq :=
  match o with
  | OpAdd _ e =>
      let s := signal w (allow_weak GetSide s) in
      (Enq e, set_pc t (Unlock o R_ok) (set_queue (enqueue (bq_queue s) e) s))
  | OpGet _ =>
      let s := signal w (allow_weak AddSide s) in
      let '(v, q) := dequeue (bq_queue s) in
      (Deq v, set_pc t (Unlock o (R_value v)) (set_queue q s))
  end.

(** No room for an [add], or no element for a [get]. *)
Definition must_wait (s : bq) (o : op) : bool :=
  match o with
  | OpAdd _ _ => queue_size (bq_queue s) =? queue_capacity (bq_queue s)
  | OpGet _ => queue_size (bq_queue s) =? 0
  end.

(** From locking the mutex to releasing it or waiting; [grow] tells whether
    memory for a larger queue is available. *)
Definition enter (grow : bool) (w : option nat) (t : nat) (o : op) (s : bq) : event * bq :=
  let leave r s := (Tau, set_pc t (Done r) (unlock (side_of o) s)) in
  if closed s then leave R_closed s
  else if negb (must_wait s o) then commit w t o s
  else if is_boundless s && bool_decide (side_of o = AddSide) then
    if grow then commit w t o (set_queue (grow_queue (bq_queue s)) s) else leave R_error s
  else
    let s := block_weak (side_of o) s in
    if is_async o then leave (refused o) s else (Tau, set_pc t (CondWait o) s).

(** After [pthread_cond_wait]. *)
Definition resume (w : option nat) (t : nat) (o : op) (s : bq) : event * bq :=
  if closed s then (Tau, set_pc t (Done R_closed) (unlock (side_of o) s)) else commit w t o s.

(** The request for the fair lock, and its end after a wait. *)
Definition request (t : nat) (o : op) (s : bq) : bq :=
  match fair_lock_lock (lock_of s (side_of o)) t (is_async o) with
  | Acquired l => set_pc t (Enter o) (set_lock (side_of o) l s)
  | Waits l => set_pc t (FairWait o) (set_lock (side_of o) l s)
  | Abandoned => set_pc t (Done (refused o)) s
  end.
Definition woken (t : nat) (o : op) (abandoned : bool) (s : bq) : bq :=
  if abandoned then set_pc t (Done (refused o)) s
  else set_pc t (Enter o) (set_lock (side_of o) (fair_lock_woken (lock_of s (side_of o))) s).

Definition close (s : bq) : bq :=
  Bq (add_lock s) (get_lock s) (add_lock_are_weak_locks_blocked s) (get_lock_are_weak_locks_blocked s) (bq_queue s) (is_boundless s) true (threads s).

(** ** Steps *)

Definition idle (s : bq) (t : nat) : Prop := match threads s !! t with None | Some (Done _) => True | _ => False end.

#[export] Instance idle_dec s t : Decision (idle s t).
Proof. unfold idle. destruct (threads s !! t) as [[]|]; apply _. Defined.

Inductive step (spurious : bool) : bq -> event -> bq -> Prop :=
| step_call t o s : idle s t -> step spurious s Tau (set_pc t (Lock o) s)
| step_request t o s : threads s !! t = Some (Lock o) -> step spurious s Tau (request t o s)
| step_no_memory t o s l : threads s !! t = Some (Lock o) -> fair_lock_lock (lock_of s (side_of o)) t (is_async o) = Waits l ->
    step spurious s Tau (set_pc t (Done R_error) s)
| step_woken t o ab s : threads s !! t = Some (FairWoken o ab) -> step spurious s Tau (woken t o ab s)
| step_enter t o grow w s : threads s !! t = Some (Enter o) -> signals s w ->
    step spurious s (enter grow w t o s).1 (enter grow w t o s).2
| step_resume t o w s : threads s !! t = Some (CondWoken o) -> signals s w ->
    step spurious s (resume w t o s).1 (resume w t o s).2
| step_unlock t o r s : threads s !! t = Some (Unlock o r) ->
    step spurious s Tau (set_pc t (Done r) (unlock (side_of o) s))
| step_close s : closed s = false -> step spurious s Tau (close s)
| step_close_signal u s : closed s = true -> signals s (Some u) -> step spurious s Tau (signal (Some u) s)
| step_spurious u s : spurious = true -> signals s (Some u) -> step spurious s Tau (signal (Some u) s).

Inductive steps (spurious : bool) : bq -> list event -> bq -> Prop :=
| steps_nil s : steps spurious s [] s
| steps_snoc s es s' e s'' : steps spurious s es s' -> step spurious s' e s'' -> steps spurious s (es ++ [e]) s''.

Definition enqs (es : list event) : list V := omap (fun e => match e with Enq v => Some v | _ => None end) es.
Definition deqs (es : list event) : list (option V) := omap (fun e => match e with Deq v => Some v | _ => None end) es.

(** ** The invariant *)

Definition role_of (d : side) (p : pc) : role :=
  match p with
  | Lock _ | Done _ | FairWoken _ true => Out
  | FairWait o => if decide (side_of o = d) then Queued (is_async o) else Out
  | FairWoken o false => if decide (side_of o = d) then Granted else Out
  | Enter o | CondWait o | CondWoken o | Unlock o _ => if decide (side_of o = d) then Holder else Out
  end.
Definition role_in (m : gmap nat pc) (d : side) (t : nat) : role := match m !! t with Some p => role_of d p | None => Out end.

Context (sp : bool).

(** A thread that waits has reason to; one that was signalled finds what it
    waited for, or the queue closed, unless it woke by itself. *)
Definition pc_ok (s : bq) (p : pc) : Prop :=
  match p with
  | CondWait o => must_wait s o = true
  | CondWoken o => sp = true \/ closed s = true \/ must_wait s o = false
  | _ => True
  end.

Definition locks_ok (s : bq) : Prop := forall d, lock_inv (lock_of s d) (role_in (threads s) d).
Definition pcs_ok (s : bq) : Prop := map_Forall (fun _ p => pc_ok s p) (threads s).

(** Threads whose pcs differ only outside the roles of a side. *)
Lemma role_insert m t p d : pointwise_relation nat eq (role_in (<[t := p]> m) d) (set_role t (role_of d p) (role_in m d)).
Proof.
  intros u. unfold role_in, set_role. destruct (decide (u = t)) as [->|Hu]; [by rewrite lookup_insert_eq|]. by rewrite lookup_insert_ne by congruence.
Qed.

Lemma set_role_same t rho r : rho t = r -> pointwise_relation nat eq (set_role t r rho) rho.
Proof. intros <- u. unfold set_role. by destruct (decide (u = t)) as [->|]. Qed.

Lemma lock_of_set d d' l s : lock_of (set_lock d l s) d' = if decide (d = d') then l else lock_of s d'.
Proof. by destruct d, d'. Qed.
Lemma threads_set_lock d l s : threads (set_lock d l s) = threads s.
Proof. by destruct d. Qed.
Lemma lock_of_weak d b s d' : lock_of (set_weak_blocked d b s) d' = lock_of s d'.
Proof. by destruct d, d'. Qed.
Lemma threads_weak d b s : threads (set_weak_blocked d b s) = threads s.
Proof. by destruct d. Qed.
Lemma lock_of_threads m s d : lock_of (set_threads m s) d = lock_of s d.
Proof. by destruct d. Qed.
Lemma lock_of_queue q s d : lock_of (set_queue q s) d = lock_of s d.
Proof. by destruct d. Qed.

(** One thread moves, one lock changes. *)
Lemma locks_move s t p d l : locks_ok s ->
  (forall d', d' <> d -> role_of d' p = role_in (threads s) d' t) ->
  lock_inv l (set_role t (role_of d p) (role_in (threads s) d)) -> locks_ok (set_pc t p (set_lock d l s)).
Proof.
  intros Hs Ho Hl d'. unfold set_pc. rewrite lock_of_threads, lock_of_set, threads_set_lock. cbn [threads set_threads].
  rewrite role_insert. destruct (decide (d = d')) as [<-|Hd]; [done|].
  rewrite set_role_same by (symmetry; apply Ho; congruence). apply Hs.
Qed.

(** One thread moves without changing its roles. *)
Lemma locks_stay s t p : locks_ok s -> (forall d, role_of d p = role_in (threads s) d t) -> locks_ok (set_pc t p s).
Proof.
  intros Hs Ho d. unfold set_pc. rewrite lock_of_threads. cbn [threads set_threads]. rewrite role_insert, set_role_same by (symmetry; apply Ho). apply Hs.
Qed.

Lemma role_at (s : bq) t p d : threads s !! t = Some p -> role_in (threads s) d t = role_of d p.
Proof. intros E. unfold role_in. by rewrite E. Qed.

(** The holder leaves. *)
Lemma unlock_locks s t r d : locks_ok s -> role_in (threads s) d t = Holder ->
  (forall d', d' <> d -> role_in (threads s) d' t = Out) -> locks_ok (set_pc t (Done r) (unlock d s)).
Proof.
  intros Hs Ht Ho. pose proof (lock_unlock _ _ _ (Hs d) Ht) as Hl. unfold unlock.
  destruct (fair_lock_unlock (lock_of s d)) as [l [u|]]; [|by apply locks_move; [|intros; rewrite Ho|]].
  destruct Hl as ((w & Hu) & Hne & Hl).
  assert (exists o, threads s !! u = Some (FairWait o) /\ side_of o = d) as (o & Eu & Hd).
  { unfold role_in in Hu. destruct (threads s !! u) as [[]|]; try done; cbn in Hu; try (by destruct (decide (side_of o = d)));
      [|by destruct abandoned; [|destruct (decide (side_of o = d))]]. destruct (decide (side_of o = d)); [|done]. by exists o. }
  assert (set_pc t (Done r) (wake false u (set_lock d l s)) = set_pc u (FairWoken o false) (set_pc t (Done r) (set_lock d l s))) as ->.
  { unfold set_pc, wake, set_threads. cbn. f_equal. rewrite threads_set_lock.
    apply map_eq. intros v. destruct (decide (v = t)) as [->|Hvt]; [|destruct (decide (v = u)) as [->|Hvu]].
    - by rewrite lookup_insert_eq, lookup_insert_ne, lookup_insert_eq by congruence.
    - rewrite lookup_insert_ne, lookup_alter_eq, lookup_insert_eq, Eu by congruence. done.
    - by rewrite lookup_insert_ne, lookup_alter_ne, !lookup_insert_ne by congruence. }
  intros d'. unfold set_pc. rewrite !lock_of_threads, lock_of_set. cbn [threads set_threads]. rewrite threads_set_lock, !role_insert.
  destruct (decide (d = d')) as [<-|Hd']; cbn [role_of].
  - rewrite decide_True by done. revert Hl. apply lock_inv_proper. intros v. unfold set_role.
    destruct (decide (v = u)); [done|]. by rewrite role_insert.
  - rewrite decide_False by congruence. specialize (Ho d' ltac:(congruence)).
    assert (role_in (threads s) d' u = Out) as Hu' by (rewrite (role_at s u _ d' Eu); cbn; by rewrite decide_False by congruence).
    eapply lock_inv_proper; [|apply (Hs d')]. intros v. unfold set_role. destruct (decide (v = u)) as [->|]; [done|].
    rewrite role_insert. unfold set_role. by destruct (decide (v = t)) as [->|].
Qed.

(** Abandoning the weak requests. *)
Lemma wakes_lookup ts s v :
  threads (foldr (wake true) s ts) !! v = if decide (v ∈ ts) then fair_signal true <$> threads s !! v else threads s !! v.
Proof.
  induction ts as [|u ts IH]; cbn [foldr]; [by rewrite decide_False by (by apply not_elem_of_nil)|].
  unfold wake at 1. cbn [threads set_threads]. destruct (decide (v = u)) as [->|Hv].
  - rewrite lookup_alter_eq, IH, (decide_True (P := u ∈ u :: ts)) by (apply elem_of_cons; by left).
    destruct (decide (u ∈ ts)); [|done]. destruct (threads s !! u) as [[]|]; done.
  - rewrite lookup_alter_ne, IH by congruence. destruct (decide (v ∈ ts)) as [Hin|Hin].
    + by rewrite decide_True by (apply elem_of_cons; by right).
    + rewrite decide_False; [done|]. rewrite elem_of_cons. intros [|]; done.
Qed.

Lemma wakes_lock ts s d : lock_of (foldr (wake true) s ts) d = lock_of s d.
Proof. induction ts as [|u ts IH]; cbn [foldr]; [done|]. unfold wake at 1. by rewrite lock_of_threads. Qed.

(** What the lock operations leave alone. *)
Definition same_data (s s' : bq) : Prop :=
  bq_queue s' = bq_queue s /\ is_boundless s' = is_boundless s /\ closed s' = closed s.
Lemma wakes_data ts s : same_data s (foldr (wake true) s ts).
Proof. induction ts as [|u ts (IH1 & IH2 & IH3)]; cbn [foldr]; [done|]. by split_and!. Qed.

(** A waiting request is on the side of its lock. *)
Lemma queued_pc s d t w : role_in (threads s) d t = Queued w ->
  exists o, threads s !! t = Some (FairWait o) /\ side_of o = d /\ is_async o = w.
Proof.
  unfold role_in. destruct (threads s !! t) as [p|]; [|done].
  destruct p as [o|o|o []|o|o|o|o r|r]; cbn; try done; destruct (decide (side_of o = d)); try done.
  intros [= <-]. by exists o.
Qed.

Lemma block_weak_locks_ok d s : locks_ok s -> locks_ok (block_weak d s).
Proof.
  intros Hs. unfold block_weak. destruct (weak_blocked s d); [done|].
  pose proof (lock_block _ _ (Hs d)) as Hl. destruct (fair_lock_block_weak_locks (lock_of s d)) as [l ts]. destruct Hl as [Hts Hl].
  intros d'. rewrite lock_of_weak, threads_weak, wakes_lock, lock_of_set.
  assert (forall v, role_in (threads (foldr (wake true) (set_lock d l s) ts)) d' v =
    if decide (d = d') then drop_weak (role_in (threads s) d v) else role_in (threads s) d' v) as Hr.
  { intros v. unfold role_in at 1. rewrite wakes_lookup, threads_set_lock. destruct (decide (v ∈ ts)) as [Hv|Hv].
    - apply Hts in Hv. pose proof (queued_pc s d v true Hv) as (o & Eo & Hd & Ho). rewrite Eo, Hv. cbn.
      destruct (decide (d = d')); [done|]. unfold role_in. rewrite Eo. cbn. by rewrite decide_False by congruence.
    - destruct (decide (d = d')) as [<-|]; [|done]. fold (role_in (threads s) d v).
      assert (role_in (threads s) d v <> Queued true) as Hq by (by rewrite <- Hts). by destruct (role_in (threads s) d v) as [|[]| |]. }
  destruct (decide (d = d')) as [<-|]; (eapply lock_inv_proper; [exact Hr|]); [done|apply Hs].
Qed.

Lemma allow_lock_inv l rho : lock_inv l rho -> lock_inv (fair_lock_allow_weak_locks l) rho.
Proof. intros (h & g & H). by exists h, g. Qed.

Lemma allow_weak_locks_ok d s : locks_ok s -> locks_ok (allow_weak d s).
Proof.
  intros Hs d'. unfold allow_weak. destruct (weak_blocked s d); [|apply Hs].
  rewrite lock_of_weak, threads_weak, lock_of_set, threads_set_lock. destruct (decide (d = d')) as [<-|]; [|apply Hs]. apply allow_lock_inv, Hs.
Qed.

Lemma signal_locks_ok w s : locks_ok s -> locks_ok (signal w s).
Proof.
  intros Hs. destruct w as [u|]; [|done]. intros d. cbn [signal]. rewrite lock_of_threads. cbn [threads set_threads].
  eapply lock_inv_proper; [|apply Hs]. intros v. unfold role_in. destruct (decide (v = u)) as [->|Hv].
  - rewrite lookup_alter_eq. by destruct (threads s !! u) as [[]|].
  - by rewrite lookup_alter_ne by congruence.
Qed.

Lemma block_weak_data d s : same_data s (block_weak d s).
Proof.
  unfold block_weak. destruct (weak_blocked s d); [done|]. destruct (fair_lock_block_weak_locks _) as [l ts].
  destruct (wakes_data ts (set_lock d l s)) as (H1 & H2 & H3). unfold same_data. by destruct d; cbn in *; rewrite H1, H2, H3.
Qed.

Lemma unlock_data d s : same_data s (unlock d s).
Proof. unfold unlock. destruct (fair_lock_unlock _) as [l [u|]]; by destruct d. Qed.

Lemma allow_weak_data d s : same_data s (allow_weak d s) /\ threads (allow_weak d s) = threads s.
Proof. unfold allow_weak. destruct (weak_blocked s d); by destruct d. Qed.

(** Signals at a fair lock do not touch what the threads wait for. *)
Lemma pc_ok_same s s' p : same_data s s' -> pc_ok s p -> pc_ok s' p.
Proof. intros (E1 & _ & E3). unfold pc_ok, must_wait. by rewrite E1, E3. Qed.

Lemma pcs_same s s' : same_data s s' -> (forall v p, threads s' !! v = Some p -> threads s !! v = Some p \/ (exists o ab, p = FairWoken o ab)) ->
  pcs_ok s -> pcs_ok s'.
Proof.
  intros Hd Ht Hs v p Hv. destruct (Ht v p Hv) as [Hp|(o & ab & ->)]; [|done]. eapply pc_ok_same; [exact Hd|]. by eapply Hs.
Qed.

Lemma fair_signal_cases ab p : fair_signal ab p = p \/ exists o, fair_signal ab p = FairWoken o ab.
Proof. destruct p; cbn; eauto. Qed.

Lemma unlock_pcs d s : pcs_ok s -> pcs_ok (unlock d s).
Proof.
  apply pcs_same; [apply unlock_data|]. unfold unlock. destruct (fair_lock_unlock _) as [l [u|]]; intros v p; [|rewrite threads_set_lock; by left].
  cbn [wake threads set_threads]. rewrite threads_set_lock. destruct (decide (v = u)) as [->|]; [|rewrite lookup_alter_ne by congruence; by left].
  rewrite lookup_alter_eq. intros (p' & E & ->)%fmap_Some. destruct (fair_signal_cases false p') as [->|(o & ->)]; eauto.
Qed.

Lemma block_weak_pcs d s : pcs_ok s -> pcs_ok (block_weak d s).
Proof.
  apply pcs_same; [apply block_weak_data|]. unfold block_weak. destruct (weak_blocked s d); [by left|].
  destruct (fair_lock_block_weak_locks _) as [l ts]. intros v p. rewrite threads_weak, wakes_lookup, threads_set_lock.
  destruct (decide (v ∈ ts)); [|by left]. intros (p' & E & ->)%fmap_Some. destruct (fair_signal_cases true p') as [->|(o & ->)]; eauto.
Qed.

Lemma set_pc_pcs t p s : pcs_ok s -> pc_ok s p -> pcs_ok (set_pc t p s).
Proof. intros Hs Hp. apply map_Forall_insert_2; [done|]. done. Qed.

(** ** Every step keeps it *)

Context (cap : nat).

Definition inv (s : bq) (l : list V) : Prop :=
  locks_ok s /\ pcs_ok s /\ holds (bq_queue s) l /\ is_boundless s = false /\ queue_capacity (bq_queue s) = cap.

Definition effect (e : event) (l l' : list V) : Prop :=
  match e with
  | Tau => l' = l
  | Enq v => l' = l ++ [v]
  | Deq v => exists x, v = Some x /\ l = x :: l'
  end.

Lemma one_holder s d t u : locks_ok s -> role_in (threads s) d t = Holder -> role_in (threads s) d u = Holder -> t = u.
Proof. intros Hs. destruct (Hs d) as (h & g & H1 & _). rewrite !H1. congruence. Qed.

(** Threads in their critical sections are on different sides. *)
Definition inside (p : pc) (o : op) : Prop := p = Enter o \/ p = CondWait o \/ p = CondWoken o.
Lemma inside_sides s t u p p' o o' : locks_ok s -> threads s !! t = Some p -> inside p o -> threads s !! u = Some p' -> inside p' o' ->
  t <> u -> side_of o <> side_of o'.
Proof.
  intros Hs Et Hp Eu Hp' Hne Hd. apply Hne. apply (one_holder s (side_of o)); [done| |].
  - rewrite (role_at s t p) by done. destruct Hp as [->|[->| ->]]; cbn; by rewrite decide_True.
  - rewrite (role_at s u p') by done. destruct Hp' as [->|[->| ->]]; cbn; by rewrite decide_True.
Qed.

Lemma other_side (a b c : side) : a <> b -> a <> c -> b = c.
Proof. by destruct a, b, c. Qed.

(** After a commit the other side need not wait. *)
Lemma commit_queue w t o s l : holds (bq_queue s) l -> must_wait s o = false ->
  exists l', holds (bq_queue (commit w t o s).2) l' /\ effect (commit w t o s).1 l l' /\
    queue_capacity (bq_queue (commit w t o s).2) = queue_capacity (bq_queue s) /\
    forall o', side_of o <> side_of o' -> must_wait (commit w t o s).2 o' = false.
Proof.
  intros Hh Hm. pose proof Hh as (_ & Hs & Hc & Hf & _).
  assert (forall d, bq_queue (signal w (allow_weak d s)) = bq_queue s) as Eq.
  { intros d. destruct (allow_weak_data d s) as [(E & _) _]. by destruct w. }
  destruct o as [a e|a]; cbn [commit must_wait] in *; [apply Nat.eqb_neq in Hm|apply Nat.eqb_neq in Hm].
  - rewrite Eq. cbn. exists (l ++ [e]). split; [apply enqueue_holds; [done|lia]|]. split; [done|]. split; [done|].
    intros [a' e'|a']; [done|]. intros _. cbn. apply Nat.eqb_neq. lia.
  - rewrite Eq. destruct l as [|x l]; [cbn in Hs; lia|]. destruct (dequeue_holds _ _ _ Hh) as (q & Ed & Hq).
    rewrite Ed. cbn. exists l. split; [done|]. split; [by exists x|].
    assert (queue_capacity q = queue_capacity (bq_queue s)) as Ec by (by injection Ed as _ <-). split; [done|].
    intros [a' e'|a']; [|done]. intros _. cbn. apply Nat.eqb_neq. destruct Hq as (_ & Hq & _). cbn [length] in Hc. lia.
Qed.

Lemma commit_threads w t o s : exists r, threads (commit w t o s).2 = <[t := Unlock o r]> (threads (signal w s)).
Proof.
  assert (forall d, threads (signal w (allow_weak d s)) = threads (signal w s)) as Et.
  { intros d. destruct (allow_weak_data d s) as [_ E]. destruct w; cbn; by rewrite E. }
  destruct o as [a e|a]; cbn [commit]; [|destruct (dequeue _) as [v q]]; cbn; rewrite Et; by eexists.
Qed.

Lemma commit_rest w t o s d : lock_of (commit w t o s).2 d = lock_of (allow_weak (match o with OpAdd _ _ => GetSide | OpGet _ => AddSide end) s) d /\
  closed (commit w t o s).2 = closed s /\ is_boundless (commit w t o s).2 = is_boundless s.
Proof.
  assert (forall d', same_data s (allow_weak d' s)) as Hd by (intros; apply allow_weak_data).
  destruct o as [a e|a]; cbn [commit]; [|destruct (dequeue _) as [v q]]; cbn [snd]; unfold set_pc;
    rewrite lock_of_threads, lock_of_queue; [destruct (Hd GetSide) as (_ & E2 & E3)|destruct (Hd AddSide) as (_ & E2 & E3)];
    destruct w; cbn [signal closed is_boundless set_threads set_queue]; rewrite ?lock_of_threads; by rewrite E2, E3.
Qed.

Lemma signal_lookup w s v : signals s w -> threads (signal w s) !! v = (if decide (w = Some v) then cond_signal <$> threads s !! v else threads s !! v).
Proof.
  intros _. destruct w as [u|]; cbn; [|done]. destruct (decide (Some u = Some v)) as [[= ->]|Hn]; [by rewrite lookup_alter_eq|].
  rewrite lookup_alter_ne; congruence.
Qed.

(** A thread that waits is the one that is signalled. *)
Lemma waiter_signalled s w t p o v o' : locks_ok s -> threads s !! t = Some p -> p = Enter o \/ p = CondWoken o -> signals s w ->
  threads s !! v = Some (CondWait o') -> w = Some v.
Proof.
  intros Hs Et Hp Hw Ev. destruct w as [u|]; [|by destruct (Hw v o')]. destruct Hw as [o2 Eu]. f_equal.
  destruct (decide (u = v)) as [|Hne]; [done|exfalso].
  assert (t <> v /\ t <> u) as [Hv Hu] by (split; intros <-; destruct Hp as [-> | ->]; congruence).
  assert (inside p o) as Hin by (unfold inside; tauto).
  pose proof (inside_sides s t v p _ o o' Hs Et Hin Ev ltac:(unfold inside; tauto) Hv).
  pose proof (inside_sides s t u p _ o o2 Hs Et Hin Eu ltac:(unfold inside; tauto) Hu).
  eapply (inside_sides s u v); [done|exact Eu|unfold inside; tauto|exact Ev|unfold inside; tauto|done|by eapply other_side].
Qed.

Lemma commit_ok s t p o w l : inv s l -> threads s !! t = Some p -> p = Enter o \/ p = CondWoken o -> must_wait s o = false -> signals s w ->
  exists l', inv (commit w t o s).2 l' /\ effect (commit w t o s).1 l l'.
Proof.
  intros (Hs & Hp & Hh & Hb & Hcap) Et Hpo Hm Hw. destruct (commit_queue w t o s l Hh Hm) as (l' & Hl & He & Hc & Ho).
  destruct (commit_threads w t o s) as [r Hr]. exists l'. split; [|done]. split; [|split; [|split; [done|split; [|congruence]]]].
  - intros d. destruct (commit_rest w t o s d) as (-> & _ & _). rewrite Hr. rewrite role_insert.
    assert (threads s !! t = threads (signal w s) !! t) as Est.
    { rewrite signal_lookup by done. destruct (decide (w = Some t)) as [->|]; [|done]. destruct Hw as [o2 E2]. destruct Hpo as [-> | ->]; congruence. }
    rewrite set_role_same by (unfold role_in; rewrite <- Est, Et; by destruct Hpo as [-> | ->]).
    pose proof (signal_locks_ok w _ (allow_weak_locks_ok (match o with OpAdd _ _ => GetSide | OpGet _ => AddSide end) s Hs) d) as H.
    destruct w as [u|]; cbn [signal] in *; rewrite ?lock_of_threads in H; cbn [threads set_threads] in *;
      destruct (allow_weak_data (match o with OpAdd _ _ => GetSide | OpGet _ => AddSide end) s) as [_ E]; by rewrite E in H.
  - intros v q. rewrite Hr. destruct (decide (v = t)) as [->|Hv]; [rewrite lookup_insert_eq; by intros [= <-]|].
    rewrite lookup_insert_ne, signal_lookup by congruence. intros Hq.
    destruct (commit_rest w t o s AddSide) as (_ & Ecl & _). unfold pc_ok.
    assert (inside p o) as Hin by (unfold inside; tauto).
    destruct q as [o'|o'|o' b|o'|o'|o'|o' r'|r']; try done.
    + exfalso. destruct (decide (w = Some v)) as [->|Hn]; [destruct Hw as [o2 E2]; rewrite E2 in Hq; done|].
      apply Hn. by apply (waiter_signalled s w t p o v o').
    + right. right. apply Ho. intros Hd. destruct (decide (w = Some v)) as [->|Hn].
      * destruct Hw as [o2 E2]. rewrite E2 in Hq. cbn in Hq. injection Hq as ->.
        eapply (inside_sides s t v); [done|exact Et|done|exact E2|unfold inside; tauto|congruence|done].
      * eapply (inside_sides s t v); [done|exact Et|done|exact Hq|unfold inside; tauto|congruence|done].
  - destruct (commit_rest w t o s AddSide) as (_ & _ & ->). done.
Qed.

Lemma same_inv s s' l : inv s l -> same_data s s' -> locks_ok s' -> pcs_ok s' -> inv s' l.
Proof. intros (_ & _ & Hh & Hb & Hcap) (E1 & E2 & _) Hl Hp. split; [done|]. split; [done|]. by rewrite E1, E2. Qed.

Lemma leave_ok s t p o r l : inv s l -> threads s !! t = Some p -> inside p o \/ (exists r', p = Unlock o r') ->
  inv (set_pc t (Done r) (unlock (side_of o) s)) l.
Proof.
  intros Hi Et Hp. pose proof Hi as (Hs & Hpc & _). apply (same_inv s); [done|apply unlock_data| |].
  - assert (forall d, role_in (threads s) d t = if decide (side_of o = d) then Holder else Out) as Hr.
    { intros d. rewrite (role_at s t p) by done. by destruct Hp as [[->|[->| ->]]|[r' ->]]. }
    apply unlock_locks; [done|by rewrite Hr, decide_True|]. intros d Hd. by rewrite Hr, decide_False by congruence.
  - apply set_pc_pcs; [by apply unlock_pcs|done].
Qed.

Lemma block_weak_lookup d s t p : threads s !! t = Some p -> fair_signal true p = p -> threads (block_weak d s) !! t = Some p.
Proof.
  intros Et Hp. unfold block_weak. destruct (weak_blocked s d); [done|]. destruct (fair_lock_block_weak_locks _) as [l ts].
  rewrite threads_weak, wakes_lookup, threads_set_lock, Et. cbn. rewrite Hp. by destruct (decide _).
Qed.

Lemma enter_ok grow w s t o l : inv s l -> threads s !! t = Some (Enter o) -> signals s w ->
  exists l', inv (enter grow w t o s).2 l' /\ effect (enter grow w t o s).1 l l'.
Proof.
  intros Hi Et Hw. pose proof Hi as (Hs & Hp & Hh & Hb & Hcap). unfold enter.
  destruct (closed s); [exists l; split; [by eapply leave_ok; [..|left; left]|done]|].
  destruct (must_wait s o) eqn:Hm; cbn [negb]; [|by apply (commit_ok s t (Enter o)); [..|left| |]].
  rewrite Hb. cbn [andb]. set (s1 := block_weak (side_of o) s).
  assert (inv s1 l) as Hi1 by (apply (same_inv s); [done|apply block_weak_data|by apply block_weak_locks_ok|by apply block_weak_pcs]).
  assert (threads s1 !! t = Some (Enter o)) as Et1 by (by apply block_weak_lookup).
  destruct (is_async o); exists l; (split; [|done]); [by eapply leave_ok; [..|left; left]|].
  pose proof Hi1 as (Hs1 & Hp1 & _). apply (same_inv s1); [done|done| |].
  - apply locks_stay; [done|]. intros d. by rewrite (role_at s1 t (Enter o)).
  - apply set_pc_pcs; [done|]. apply (pc_ok_same s); [apply block_weak_data|]. done.
Qed.

(** A thread goes on though what it waited for is not there. *)
Definition early (s : bq) (e : event) (s' : bq) : Prop :=
  exists t o w, threads s !! t = Some (CondWoken o) /\ closed s = false /\ must_wait s o = true /\ (e, s') = resume w t o s.

Lemma resume_ok w s t o l : inv s l -> threads s !! t = Some (CondWoken o) -> signals s w ->
  early s (resume w t o s).1 (resume w t o s).2 \/ exists l', inv (resume w t o s).2 l' /\ effect (resume w t o s).1 l l'.
Proof.
  intros Hi Et Hw. destruct (closed s) eqn:Ec.
  - right. unfold resume. rewrite Ec. exists l. split; [by eapply leave_ok; [..|left; right; right]|done].
  - destruct (must_wait s o) eqn:Em; [left; exists t, o, w; split_and!; [done..|by destruct (resume w t o s)]|].
    right. unfold resume. rewrite Ec. by apply (commit_ok s t (CondWoken o)); [..|right| |].
Qed.

Lemma not_early s e s' l : sp = false -> inv s l -> ~ early s e s'.
Proof. intros Hf (_ & Hp & _) (t & o & w & Et & Hc & Hm & _). destruct (Hp t _ Et) as [|[|]]; congruence. Qed.

Lemma set_lock_data d l (s : bq) : same_data s (set_lock d l s).
Proof. by destruct d. Qed.

Lemma set_lock_pcs d l s : pcs_ok s -> pcs_ok (set_lock d l s).
Proof. apply pcs_same; [apply set_lock_data|]. intros v p. rewrite threads_set_lock. by left. Qed.

(** Moving to a place where nothing is awaited. *)
Lemma move_ok s t p d fl l : inv s l -> pc_ok s p -> (forall d', d' <> d -> role_of d' p = role_in (threads s) d' t) ->
  lock_inv fl (set_role t (role_of d p) (role_in (threads s) d)) -> inv (set_pc t p (set_lock d fl s)) l.
Proof.
  intros Hi Hpc Hr Hl. pose proof Hi as (Hs & Hp & _). apply (same_inv s); [done|by destruct d|by apply locks_move|].
  apply set_pc_pcs; [by apply set_lock_pcs|]. eapply pc_ok_same; [apply set_lock_data|done].
Qed.

Lemma stay_ok s t p l : inv s l -> pc_ok s p -> (forall d, role_of d p = role_in (threads s) d t) -> inv (set_pc t p s) l.
Proof.
  intros Hi Hpc Hr. pose proof Hi as (Hs & Hp & _). apply (same_inv s); [done|done|by apply locks_stay|by apply set_pc_pcs].
Qed.

Lemma request_ok s t o l : inv s l -> threads s !! t = Some (Lock o) -> inv (request t o s) l.
Proof.
  intros Hi Et. pose proof Hi as (Hs & _). assert (forall d, role_in (threads s) d t = Out) as Hr by (intros d; by rewrite (role_at s t (Lock o))).
  unfold request. destruct (fair_lock_lock _ t _) as [fl|fl|] eqn:E.
  - apply move_ok; [done|done| |].
    + intros d' Hd. rewrite Hr. cbn. by rewrite decide_False by congruence.
    + cbn. rewrite decide_True by done. by eapply lock_acquired.
  - apply move_ok; [done|done| |].
    + intros d' Hd. rewrite Hr. cbn. by rewrite decide_False by congruence.
    + cbn. rewrite decide_True by done. by eapply lock_waits.
  - apply stay_ok; [done|done|]. intros d. by rewrite Hr.
Qed.

Lemma woken_ok s t o ab l : inv s l -> threads s !! t = Some (FairWoken o ab) -> inv (woken t o ab s) l.
Proof.
  intros Hi Et. pose proof Hi as (Hs & _). unfold woken. destruct ab.
  - apply stay_ok; [done|done|]. intros d. by rewrite (role_at s t (FairWoken o true)).
  - apply move_ok; [done|done| |].
    + intros d' Hd. rewrite (role_at s t (FairWoken o false)) by done. cbn. by rewrite !decide_False by congruence.
    + cbn. rewrite decide_True by done. apply lock_woken; [apply Hs|]. rewrite (role_at s t (FairWoken o false)) by done. cbn. by rewrite decide_True.
Qed.

Lemma close_ok s l : inv s l -> inv (close s) l.
Proof.
  intros (Hs & Hp & Hh & Hb & Hcap). split; [intros d; destruct d; apply Hs|]. split; [|done].
  intros v p Hv. specialize (Hp v p Hv). destruct p; cbn in *; try done. right. by left.
Qed.

Lemma wake_ok s u l : inv s l -> sp = true \/ closed s = true -> inv (signal (Some u) s) l.
Proof.
  intros Hi Hc. pose proof Hi as (Hs & Hp & _). apply (same_inv s); [done|done|by apply signal_locks_ok|].
  intros v p. cbn. destruct (decide (v = u)) as [->|Hv].
  - rewrite lookup_alter_eq. intros (p' & E & ->)%fmap_Some. specialize (Hp u p' E). destruct p'; cbn in *; try done. tauto.
  - rewrite lookup_alter_ne by congruence. intros E. apply (Hp v p E).
Qed.

Lemma step_inv s e s' l : inv s l -> step sp s e s' -> early s e s' \/ exists l', inv s' l' /\ effect e l l'.
Proof.
  intros Hi Hst. destruct Hst as [t o s Ht|t o s Ht|t o s fl Ht Hf|t o ab s Ht|t o grow w s Ht Hw|t o w s Ht Hw|t o r s Ht|s Hcl|u s Hc Hu|u s Hf Hu];
    [..|by apply resume_ok| | | |]; right.
  - exists l. split; [|done]. apply stay_ok; [done|done|]. intros d. unfold role_in, idle in *. by destruct (threads s !! t) as [[]|].
  - exists l. split; [by apply request_ok|done].
  - exists l. split; [|done]. apply stay_ok; [done|done|]. intros d. by rewrite (role_at s t (Lock o)).
  - exists l. split; [by apply woken_ok|done].
  - by apply enter_ok.
  - exists l. split; [|done]. eapply leave_ok; [done|done|]. right. by exists r.
  - exists l. split; [by apply close_ok|done].
  - exists l. split; [apply wake_ok; auto|done].
  - exists l. split; [apply wake_ok; auto|done].
Qed.

Lemma queue_init_inv : 0 < cap -> inv (blocking_queue_init cap) [].
Proof.
  intros Hc. unfold inv, blocking_queue_init. cbn [bq_queue is_boundless]. rewrite (proj2 (Nat.eqb_neq cap 0)) by lia.
  split; [|split; [|split; [by apply init_holds|done]]].
  - intros d. destruct d; exact init_lock.
  - apply map_Forall_empty.
Qed.

(** A run in which some thread goes on early. *)
Definition early_run (s0 : bq) (es : list event) (s : bq) : Prop :=
  exists es1 s1 e s2 es2, es = es1 ++ [e] ++ es2 /\ steps sp s0 es1 s1 /\ early s1 e s2 /\ steps sp s2 es2 s.

Lemma steps_inv es s : 0 < cap -> steps sp (blocking_queue_init cap) es s ->
  early_run (blocking_queue_init cap) es s \/ exists l, inv s l /\ map Some (enqs es) = deqs es ++ map Some l.
Proof.
  intros Hc. remember (blocking_queue_init cap) as s0 eqn:E0. induction 1 as [s|s es s1 e s2 Hst IH Hs]; subst.
  - right. exists []. split; [by apply queue_init_inv|done].
  - destruct IH as [(es1 & x1 & e' & x2 & es2 & -> & H1 & H2 & H3)|(l & Hi & E)]; [done| |].
    { left. exists es1, x1, e', x2, (es2 ++ [e]). split; [by rewrite <- !app_assoc|]. split; [done|]. split; [done|by econstructor]. }
    destruct (step_inv s1 e s2 l Hi Hs) as [He|(l' & Hi' & He)].
    { left. exists es, s1, e, s2, []. split; [done|]. split; [done|]. split; [done|constructor]. }
    right. exists l'. split; [done|].
    unfold enqs, deqs in *. rewrite !omap_app, map_app, E.
    destruct e as [|v|v]; cbn in *; [subst; by rewrite !app_nil_r|subst; by rewrite map_app, app_nil_r, app_assoc|].
    destruct He as (x & -> & ->). by rewrite app_nil_r, <- app_assoc.
Qed.

(** ** Progress *)

(** A step in which no thread starts a call. *)
Definition no_call (s s' : bq) : Prop := forall t, idle s t -> threads s' !! t = threads s !! t.

(** Threads that can always go on. *)
Definition runnable (p : pc) : bool :=
  match p with FairWait _ | CondWait _ | Done _ => false | _ => true end.

Lemma signals_exists s : exists w, signals s w.
Proof.
  destruct (decide (map_Exists (fun _ p => match p with CondWait _ => true | _ => false end = true) (threads s))) as [H|H].
  - apply map_Exists_lookup in H as (u & p & E & Hp). exists (Some u). destruct p as [o|o|o b|o|o|o|o r|r]; try done. by exists o.
  - exists None. intros u o E. apply H. apply map_Exists_lookup. by exists u, (CondWait o).
Qed.

Lemma idle_ne s t p v : threads s !! t = Some p -> (forall r, p <> Done r) -> idle s v -> v <> t.
Proof. intros Et Hp Hv ->. unfold idle in Hv. rewrite Et in Hv. destruct p; try done. by eapply Hp. Qed.

Lemma fair_signal_idle ab s v : idle s v -> fair_signal ab <$> threads s !! v = threads s !! v.
Proof. unfold idle. by destruct (threads s !! v) as [[]|]. Qed.

Lemma unlock_idle d s : no_call s (unlock d s).
Proof.
  intros v Hv. unfold unlock. destruct (fair_lock_unlock _) as [l [u|]]; [|by rewrite threads_set_lock].
  cbn [wake threads set_threads]. rewrite threads_set_lock. destruct (decide (v = u)) as [->|]; [|by rewrite lookup_alter_ne].
  rewrite lookup_alter_eq. by apply fair_signal_idle.
Qed.

Lemma block_weak_idle d s : no_call s (block_weak d s).
Proof.
  intros v Hv. unfold block_weak. destruct (weak_blocked s d); [done|]. destruct (fair_lock_block_weak_locks _) as [l ts].
  rewrite threads_weak, wakes_lookup, threads_set_lock. destruct (decide _); [|done]. by apply fair_signal_idle.
Qed.

Lemma set_pc_idle s s' t p q : no_call s s' -> threads s !! t = Some p -> (forall r, p <> Done r) -> no_call s (set_pc t q s').
Proof.
  intros Hn Et Hp v Hv. cbn [set_pc threads set_threads]. rewrite lookup_insert_ne; [by apply Hn|].
  intros ->. by eapply (idle_ne s v p v).
Qed.

Lemma commit_idle w t o p s : signals s w -> threads s !! t = Some p -> (forall r, p <> Done r) -> no_call s (commit w t o s).2.
Proof.
  intros Hw Et Hp v Hv. destruct (commit_threads w t o s) as [r ->].
  rewrite lookup_insert_ne by (intros ->; by eapply (idle_ne s v p v)). rewrite signal_lookup by done.
  destruct (decide (w = Some v)) as [->|]; [|done]. destruct Hw as [o2 E2]. unfold idle in Hv. by rewrite E2 in Hv.
Qed.

Lemma enter_idle grow w t o s : is_boundless s = false -> signals s w -> threads s !! t = Some (Enter o) -> no_call s (enter grow w t o s).2.
Proof.
  intros Hb Hw Et. unfold enter. destruct (closed s); [by eapply set_pc_idle; [apply unlock_idle|..]|].
  destruct (must_wait s o); cbn [negb]; [|by eapply commit_idle].
  rewrite Hb. cbn [andb]. destruct (is_async o); [|by eapply set_pc_idle; [apply block_weak_idle|..]].
  eapply set_pc_idle; [|exact Et|done]. intros v Hv. rewrite unlock_idle; [by apply block_weak_idle|].
  unfold idle in *. by rewrite block_weak_idle.
Qed.

(** A runnable thread has a step. *)
Lemma runnable_step s l t p : inv s l -> threads s !! t = Some p -> runnable p = true ->
  exists e s', step false s e s' /\ no_call s s' /\ closed s' = closed s.
Proof.
  intros Hi Et Hr. pose proof Hi as (Hs & Hpc & Hh & Hb & _). destruct (signals_exists s) as [w Hw].
  assert (forall d r, closed (set_pc t (Done r) (unlock d s)) = closed s) as Hcl by (intros d r; apply (unlock_data d s)).
  destruct p as [o|o|o ab|o|o|o|o r|r]; try done.
  - exists Tau, (request t o s). split; [by constructor|]. unfold request.
    destruct (fair_lock_lock _ _ _); (split; [eapply set_pc_idle; [|exact Et|done]; intros v Hv; by rewrite ?threads_set_lock|by destruct o]).
  - exists Tau, (woken t o ab s). split; [by constructor|]. unfold woken.
    destruct ab; (split; [eapply set_pc_idle; [|exact Et|done]; intros v Hv; by rewrite ?threads_set_lock|by destruct o]).
  - exists (enter false w t o s).1, (enter false w t o s).2. split; [by constructor|]. split; [by apply enter_idle|]. unfold enter.
    destruct (closed s) eqn:Ec; [apply Hcl|]. destruct (must_wait s o); cbn [negb]; [|rewrite <- Ec; apply (commit_rest w t o s AddSide)].
    rewrite Hb. cbn [andb]. destruct (block_weak_data (side_of o) s) as (_ & _ & E3).
    destruct (is_async o); cbn [snd]; [|change (closed (block_weak (side_of o) s) = false); congruence].
    destruct (unlock_data (side_of o) (block_weak (side_of o) s)) as (_ & _ & E4). change (closed (unlock (side_of o) (block_weak (side_of o) s)) = false). congruence.
  - exists (resume w t o s).1, (resume w t o s).2. split; [by constructor|]. unfold resume. destruct (closed s) eqn:Ec.
    + split; [by eapply set_pc_idle; [apply unlock_idle|..]|]. apply Hcl.
    + split; [by eapply commit_idle|]. rewrite <- Ec. apply (commit_rest w t o s AddSide).
  - exists Tau, (set_pc t (Done r) (unlock (side_of o) s)). split; [by constructor|].
    split; [by eapply set_pc_idle; [apply unlock_idle|..]|]. apply Hcl.
Qed.

(** Whoever waits for a fair lock waits for a thread inside, or for one that has
    been handed the lock. *)
Lemma fair_waiter s l t o : inv s l -> threads s !! t = Some (FairWait o) ->
  exists u p, threads s !! u = Some p /\ (runnable p = true \/ exists o', p = CondWait o' /\ side_of o' = side_of o).
Proof.
  intros (Hs & _) Et. destruct (Hs (side_of o)) as (h & g & H1 & H2 & H3 & _ & _ & _ & _ & He).
  assert (role_in (threads s) (side_of o) t = Queued (is_async o)) as Hq by (rewrite (role_at s t _ _ Et); cbn; by rewrite decide_True).
  apply H3 in Hq. assert (exists u, role_in (threads s) (side_of o) u = Holder \/ role_in (threads s) (side_of o) u = Granted) as [u Hu].
  { destruct h as [u|]; [exists u; left; by apply H1|]. destruct g as [u|]; [exists u; right; by apply H2|].
    rewrite He in Hq by done. by apply elem_of_nil in Hq. }
  unfold role_in in Hu. destruct (threads s !! u) as [p|] eqn:Eu; [|by destruct Hu]. exists u, p. split; [done|].
  destruct p as [o'|o'|o' []|o'|o'|o'|o' r|r]; cbn in *; try (by left); try (by destruct Hu); try (by destruct (decide (side_of o' = side_of o)), Hu).
  destruct (decide (side_of o' = side_of o)); [|by destruct Hu]. right. by exists o'.
Qed.

(** ** After closing *)

(** Steps a thread has at most before it. *)
Definition weight (p : pc) : nat :=
  match p with
  | Lock _ => 6 | FairWait _ => 5 | FairWoken _ _ => 4 | Enter _ => 3 | CondWait _ => 3 | CondWoken _ => 2 | Unlock _ _ => 1 | Done _ => 0
  end.
Definition total (m : gmap nat pc) : nat := map_fold (fun _ p n => weight p + n) 0 m.

Lemma total_insert m t p : m !! t = None -> total (<[t := p]> m) = weight p + total m.
Proof. intros H. unfold total. apply (map_fold_insert_L (fun _ p n => weight p + n) 0 t p m); [intros; lia|done]. Qed.

Lemma total_update m t p p' : m !! t = Some p -> total (<[t := p']> m) + weight p = total m + weight p'.
Proof.
  intros H. rewrite <- (insert_delete_id m t p H) at 2. rewrite <- (insert_delete_eq m t p').
  rewrite !total_insert by apply lookup_delete_eq. lia.
Qed.

Lemma total_fair ab u m : total (alter (fair_signal ab) u m) <= total m.
Proof.
  destruct (m !! u) as [p|] eqn:E; [|by rewrite alter_id by (rewrite E; done)].
  assert (alter (fair_signal ab) u m = <[u := fair_signal ab p]> m) as ->.
  { apply map_eq. intros v. destruct (decide (u = v)) as [<-|]; [by rewrite lookup_alter_eq, lookup_insert_eq, E|].
    by rewrite lookup_alter_ne, lookup_insert_ne by done. }
  pose proof (total_update m u p (fair_signal ab p) E). assert (weight (fair_signal ab p) <= weight p) by (destruct p; cbn; lia). lia.
Qed.

Lemma total_leave d t p r s : threads s !! t = Some p -> runnable p = true -> total (threads (set_pc t (Done r) (unlock d s))) < total (threads s).
Proof.
  intros Et Hr. cbn [set_pc threads set_threads].
  assert (threads (unlock d s) !! t = Some p) as Eu.
  { unfold unlock. destruct (fair_lock_unlock _) as [l [u|]]; cbn [wake threads set_threads]; rewrite threads_set_lock; [|done].
    destruct (decide (t = u)) as [->|]; [rewrite lookup_alter_eq, Et; by destruct p|by rewrite lookup_alter_ne]. }
  assert (total (threads (unlock d s)) <= total (threads s)) as Hle.
  { unfold unlock. destruct (fair_lock_unlock _) as [l [u|]]; cbn [wake threads set_threads]; rewrite threads_set_lock; [apply total_fair|done]. }
  pose proof (total_update _ t p (Done r) Eu). assert (0 < weight p) by (destruct p; cbn; try done; lia). cbn [weight] in *. lia.
Qed.

Lemma closed_step s e s' : closed s = true -> step false s e s' -> no_call s s' -> total (threads s') < total (threads s) /\ closed s' = true.
Proof.
  intros Hc Hst Hn. destruct Hst as [t o s Ht|t o s Ht|t o s fl Ht Hf|t o ab s Ht|t o grow w s Ht Hw|t o w s Ht Hw|t o r s Ht|s Hcl|u s _ [o Hu]|u s Hf Hu].
  - specialize (Hn t Ht). cbn [set_pc threads set_threads] in Hn. rewrite lookup_insert_eq in Hn. unfold idle in Ht. by rewrite <- Hn in Ht.
  - unfold request. assert (forall l, threads (set_lock (side_of o) l s) = threads s) as E by (intros; apply threads_set_lock).
    destruct (fair_lock_lock _ t _) as [l|l|]; cbn [set_pc threads set_threads]; rewrite ?E;
      match goal with |- total (<[t := ?p]> _) < _ /\ _ => pose proof (total_update _ t _ p Ht) as Hu end; cbn [weight] in Hu;
      (split; [lia|by destruct o]).
  - pose proof (total_update _ t _ (Done R_error) Ht) as Hu. cbn in *. split; [lia|done].
  - unfold woken. destruct ab; cbn [set_pc threads set_threads]; rewrite ?threads_set_lock;
      match goal with |- total (<[t := ?p]> _) < _ /\ _ => pose proof (total_update _ t _ p Ht) as Hu end; cbn [weight] in Hu;
      (split; [lia|by destruct o]).
  - unfold enter. rewrite Hc. cbn [snd]. split; [by eapply total_leave|]. rewrite <- Hc. apply (unlock_data (side_of o) s).
  - unfold resume. rewrite Hc. cbn [snd]. split; [by eapply total_leave|]. rewrite <- Hc. apply (unlock_data (side_of o) s).
  - split; [by eapply total_leave|]. rewrite <- Hc. apply (unlock_data (side_of o) s).
  - congruence.
  - cbn. assert (alter cond_signal u (threads s) = <[u := CondWoken o]> (threads s)) as ->.
    { apply map_eq. intros v. destruct (decide (u = v)) as [<-|]; [by rewrite lookup_alter_eq, lookup_insert_eq, Hu|].
      by rewrite lookup_alter_ne, lookup_insert_ne by done. }
    pose proof (total_update _ u _ (CondWoken o) Hu) as Ht. cbn in Ht. split; [lia|done].
  - done.
Qed.

(** Steps without wake-ups of their own are steps. *)
Lemma step_mono s e s' : step false s e s' -> step sp s e s'.
Proof. destruct 1; by (constructor || econstructor). Qed.

(** Runs of [n] steps without new calls. *)
Inductive drain : nat -> bq -> bq -> Prop :=
| drain_nil s : drain 0 s s
| drain_step n s e s' s'' : step false s e s' -> no_call s s' -> drain n s' s'' -> drain (S n) s s''.

Lemma drain_inv n s s' l : drain n s s' -> inv s l -> closed s = true -> (exists l', inv s' l') /\ closed s' = true /\ n + total (threads s') <= total (threads s).
Proof.
  intros Hd. revert l. induction Hd as [s|n s e s1 s2 Hst Hn Hd IH]; intros l Hi Hc; [split; [by exists l|done]|].
  destruct (closed_step s e s1 Hc Hst Hn) as [Ht Hc1]. destruct (step_inv s e s1 l Hi (step_mono s e s1 Hst)) as [(t & o & w & _ & Ho & _)|(l1 & Hi1 & _)]; [congruence|].
  destruct (IH l1 Hi1 Hc1) as (H1 & H2 & H3). split; [done|]. split; [done|lia].
Qed.

Lemma closed_progress s l t : inv s l -> closed s = true -> ~ idle s t -> exists e s', step false s e s' /\ no_call s s'.
Proof.
  intros Hi Hc Ht. unfold idle in Ht. destruct (threads s !! t) as [p|] eqn:Et; [|done].
  assert (forall u o, threads s !! u = Some (CondWait o) -> exists e s', step false s e s' /\ no_call s s') as Hcw.
  { intros u o Eu. exists Tau, (signal (Some u) s). split; [apply step_close_signal; [done|by exists o]|].
    intros v Hv. cbn. rewrite lookup_alter_ne; [done|]. intros ->. unfold idle in Hv. by rewrite Eu in Hv. }
  destruct (runnable p) eqn:Hr.
  { destruct (runnable_step s l t p Hi Et Hr) as (e & s' & H1 & H2 & _). by exists e, s'. }
  destruct p as [o|o|o ab|o|o|o|o r|r]; try done; [|by eapply Hcw].
  destruct (fair_waiter s l t o Hi Et) as (u & p & Eu & [Hp|(o' & -> & _)]); [|by eapply Hcw].
  destruct (runnable_step s l u p Hi Eu Hp) as (e & s' & H1 & H2 & _). by exists e, s'.
Qed.

(** ** A scheduler *)

(** Runs can be computed: a schedule says who moves. *)
Inductive act := ACall (t : nat) (o : op) | AMove (t : nat) | AClose | ASignal (u : nat).

Definition find_waiter (s : bq) : option nat :=
  fst <$> List.find (fun e => match snd e with CondWait _ => true | _ => false end) (map_to_list (threads s)).

Lemma find_waiter_signals s : signals s (find_waiter s).
Proof.
  unfold find_waiter. destruct (List.find _ _) as [[u p]|] eqn:E; cbn.
  - apply find_some in E as [Hin Hp]. apply list_elem_of_In, elem_of_map_to_list in Hin. destruct p; try done. by eexists.
  - intros u o Hu. assert (In (u, CondWait o) (map_to_list (threads s))) as Hin by (by apply list_elem_of_In, elem_of_map_to_list).
    by apply (find_none _ _ E) in Hin.
Qed.

Definition run_act (spurious : bool) (s : bq) (a : act) : option (event * bq) :=
  match a with
  | ACall t o => if decide (idle s t) then Some (Tau, set_pc t (Lock o) s) else None
  | AMove t =>
      match threads s !! t with
      | Some (Lock o) => Some (Tau, request t o s)
      | Some (FairWoken o ab) => Some (Tau, woken t o ab s)
      | Some (Enter o) => Some (enter false (find_waiter s) t o s)
      | Some (CondWoken o) => Some (resume (find_waiter s) t o s)
      | Some (Unlock o r) => Some (Tau, set_pc t (Done r) (unlock (side_of o) s))
      | _ => None
      end
  | AClose => if closed s then None else Some (Tau, close s)
  | ASignal u =>
      match threads s !! u with
      | Some (CondWait _) => if closed s || spurious then Some (Tau, signal (Some u) s) else None
      | _ => None
      end
  end.

Fixpoint run (spurious : bool) (s : bq) (acts : list act) : option (list event * bq) :=
  match acts with
  | [] => Some ([], s)
  | a :: acts => '(e, s) ← run_act spurious s a; '(es, s) ← run spurious s acts; Some (e :: es, s)
  end.

Lemma run_act_step spurious s a e s' : run_act spurious s a = Some (e, s') -> step spurious s e s'.
Proof.
  assert (forall (x : event * bq), Some x = Some (e, s') -> e = x.1 /\ s' = x.2) as Hx by (intros x [= ->]; done).
  pose proof (find_waiter_signals s) as Hw. destruct a as [t o|t| |u]; cbn [run_act].
  - destruct (decide (idle s t)); [|done]. intros [= <- <-]. by constructor.
  - destruct (threads s !! t) as [[]|] eqn:Et; try done; intros [-> ->]%Hx; by econstructor.
  - destruct (closed s) eqn:Ec; [done|]. intros [= <- <-]. by constructor.
  - destruct (threads s !! u) as [[]|] eqn:Eu; try done. destruct (closed s) eqn:Ec; cbn.
    + intros [= <- <-]. apply step_close_signal; [done|by eexists].
    + destruct spurious; [|done]. intros [= <- <-]. apply step_spurious; [done|by eexists].
Qed.

Lemma steps_cons spurious s e s1 es s2 : step spurious s e s1 -> steps spurious s1 es s2 -> steps spurious s (e :: es) s2.
Proof.
  intros Hs Hst. induction Hst as [s1|s1 es s2 e' s3 Hst IH Hs'].
  - apply (steps_snoc spurious s [] s); [constructor|done].
  - apply (steps_snoc spurious s (e :: es) s2); [by apply IH|done].
Qed.

Lemma run_steps spurious acts : forall s es s', run spurious s acts = Some (es, s') -> steps spurious s es s'.
Proof.
  induction acts as [|a acts IH]; intros s es s'; cbn [run]; [intros [= <- <-]; constructor|].
  destruct (run_act spurious s a) as [[e s1]|] eqn:Ea; cbn; [|done]. destruct (run spurious s1 acts) as [[es1 s2]|] eqn:Er; cbn; [|done].
  intros [= <- <-]. eapply steps_cons; [by eapply run_act_step|by apply IH].
Qed.
End system.

(** Without wake-ups nobody signalled no thread goes on early. *)
Lemma signalled_inv {V} (cap : nat) es (s : @bq V) : 0 < cap -> steps false (blocking_queue_init cap) es s ->
  exists l, inv false cap s l /\ map Some (enqs es) = deqs es ++ map Some l.
Proof.
  intros Hc Hs. enough (~ early_run false (blocking_queue_init cap) es s) as Hn by (by destruct (steps_inv false cap es s Hc Hs)).
  intros (es1 & s1 & e & s2 & es2 & _ & H1 & H2 & _). clear Hs. assert (exists l, inv false cap s1 l) as [l Hl]; [|by eapply not_early].
  clear H2. revert H1. remember (blocking_queue_init cap) as s0 eqn:E0. induction 1 as [x|x es' x1 e' x2 _ IH Hx]; subst; [exists []; by apply queue_init_inv|].
  destruct IH as [l Hl]; [done|]. destruct (step_inv false cap x1 e' x2 l Hl Hx) as [He|(l' & Hl' & _)]; [|by exists l'].
  by eapply not_early in He.
Qed.

(** ** Concrete runs *)

(** A queue of one element: thread 1 puts 7; thread 2 puts 8 and has to wait;
    thread 3 takes, which wakes thread 2. *)
Definition busy_schedule : list (@act nat) :=
  [ACall 1 (OpAdd false 7); AMove 1; AMove 1; AMove 1; ACall 2 (OpAdd false 8); AMove 2; AMove 2;
   ACall 3 (OpGet false); AMove 3; AMove 3].
Definition run_from (cap : nat) (acts : list (@act nat)) : list event * bq :=
  match run false (blocking_queue_init cap) acts with Some x => x | None => ([], blocking_queue_init cap) end.

Lemma run_from_steps cap acts : is_Some (run false (blocking_queue_init cap) acts) ->
  steps false (blocking_queue_init cap) (run_from cap acts).1 (run_from cap acts).2.
Proof. unfold run_from. destruct (run _ _ acts) as [[es s]|] eqn:E; [|by intros []]. intros _. by apply (run_steps false acts). Qed.

(** With a wake-up nobody signalled, which POSIX allows, the second element
    overwrites the first: the wait is not in a loop. *)
Lemma spurious_overflow : exists es s, steps true (blocking_queue_init 1) es s /\ queue_size (bq_queue s) = 2 /\ enqs es = [7; 8] /\
  dequeue (bq_queue s) = (Some 8, Queue [Some 8] 1 1 0 0).
Proof.
  destruct (run true (blocking_queue_init 1) (take 7 busy_schedule ++ [ASignal 2; AMove 2])) as [[es s]|] eqn:E; [|by vm_compute in E].
  exists es, s. split; [by eapply run_steps|]. vm_compute in E. injection E as <- <-. vm_compute. done.
Qed.

(** * Properties *)


(**  The unchecked assertions of the code hold in every reachable
    state when condition variables wake only signalled threads: one thread at a
    time is between the fair lock and its release on each side, a thread handed
    the lock finds it free, and a thread signalled in the queue finds room or an
    element, or the queue closed. *)
Theorem queue_assertions (V : Type) (cap : nat) (es : list (@event V)) (s : @bq V) : 0 < cap -> steps false (blocking_queue_init cap) es s ->
  (forall d t u, role_in (threads s) d t = Holder -> role_in (threads s) d u = Holder -> t = u) /\
  (forall t o, threads s !! t = Some (FairWoken o false) -> is_lock_acquired (lock_of s (side_of o)) = false) /\
  (forall t o, threads s !! t = Some (CondWoken o) -> closed s = true \/ must_wait s o = false).
Proof.
  intros Hc Hst. destruct (signalled_inv cap es s Hc Hst) as (l & (Hs & Hp & _) & _). split; [|split].
  - intros d t u. by apply one_holder.
  - intros t o Et. eapply lock_woken; [apply Hs|]. rewrite (role_at s t _ _ Et). cbn. by rewrite decide_True.
  - intros t o Et. by destruct (Hp t _ Et).
Qed.

(** C25 (liveness).  Closing releases every caller: from a reachable closed state
    the threads inside calls take a bounded number of further steps, and when
    none is possible all of them have returned. *)
Theorem close_drains (V : Type) (cap : nat) (es : list (@event V)) (s s' : @bq V) n : 0 < cap ->
  steps false (blocking_queue_init cap) es s -> closed s = true -> drain n s s' ->
  n <= total (threads s) /\ ((forall e s'', step false s' e s'' -> ~ no_call s' s'') -> forall t, idle s' t).
Proof.
  intros Hc Hst Hcl Hd. destruct (signalled_inv cap es s Hc Hst) as (l & Hi & _).
  destruct (drain_inv false cap n s s' l Hd Hi Hcl) as ((l' & Hi') & Hcl' & Hle). split; [lia|].
  intros Hstuck t. destruct (decide (idle s' t)) as [|Ht]; [done|]. destruct (closed_progress false cap s' l' t Hi' Hcl' Ht) as (e & s'' & H1 & H2). exfalso. by apply (Hstuck e s'').
Qed.

(** C26 (liveness).  No wake-up is lost: when the callers of an open queue cannot
    go on by themselves, every pending [add] faces a full queue and every
    pending [get] an empty one. *)
Theorem no_lost_wakeup (V : Type) (cap : nat) (es : list (@event V)) (s : @bq V) : 0 < cap -> steps false (blocking_queue_init cap) es s ->
  (forall e s', step false s e s' -> no_call s s' -> closed s' <> closed s) ->
  forall t o, threads s !! t = Some (FairWait o) \/ threads s !! t = Some (CondWait o) -> must_wait s o = true.
Proof.
  intros Hc Hst Hstuck t o Ht. destruct (signalled_inv cap es s Hc Hst) as (l & Hi & _). pose proof Hi as (_ & Hp & _).
  destruct Ht as [Ht|Ht]; [|apply (Hp t _ Ht)].
  destruct (fair_waiter false cap s l t o Hi Ht) as (u & p & Eu & [Hr|(o' & -> & Hd)]).
  - destruct (runnable_step false cap s l u p Hi Eu Hr) as (e & s' & H1 & H2 & H3). by destruct (Hstuck e s' H1 H2).
  - specialize (Hp u _ Eu). cbn in Hp. by destruct o, o'.
Qed.

(** Thread 1 waits for an element and wakes up by itself; before it goes on thread
    2 puts one. *)
Definition harmless_schedule : list (@act nat) :=
  [ACall 1 (OpGet false); AMove 1; AMove 1; ASignal 1; ACall 2 (OpAdd false 7); AMove 2; AMove 2; AMove 2; AMove 1].


(** Thread 2 has been signalled and finds room. *)
Lemma queue_assertions_witness : let s := (run_from 1 busy_schedule).2 in
  threads s !! 2 = Some (CondWoken (OpAdd false 8)) /\ (closed s = true \/ must_wait s (OpAdd false 8) = false).
Proof.
  assert (threads (run_from 1 busy_schedule).2 !! 2 = Some (CondWoken (OpAdd false 8))) as E by (vm_compute; reflexivity).
  split; [exact E|]. refine (proj2 (proj2 (queue_assertions nat 1 _ _ _ (run_from_steps 1 busy_schedule _))) 2 _ E); [lia|vm_compute; by eexists].
Defined.

(** Two blocked threads at a closed queue. *)
Definition closing_schedule : list (@act nat) :=
  [ACall 1 (OpGet false); AMove 1; AMove 1; ACall 2 (OpGet false); AMove 2; AClose].

Lemma close_drains_witness : let s := (run_from 1 closing_schedule).2 in
  closed s = true /\ total (threads s) = 8 /\ drain 1 s (signal (Some 1) s) /\ 1 <= total (threads s).
Proof.
  intros s. assert (closed s = true) as Hc by (vm_compute; reflexivity).
  assert (threads s !! 1 = Some (CondWait (OpGet false))) as E1 by (vm_compute; reflexivity).
  assert (drain 1 s (signal (Some 1) s)) as Hd.
  { apply (drain_step 0 s Tau (signal (Some 1) s)); [apply step_close_signal; [exact Hc|by eexists]| |constructor].
    intros t Ht. cbn [signal threads set_threads]. apply lookup_alter_ne. intros <-. unfold idle in Ht. by rewrite E1 in Ht. }
  split; [exact Hc|]. split; [vm_compute; reflexivity|]. split; [exact Hd|].
  refine (proj1 (close_drains nat 1 (run_from 1 closing_schedule).1 s (signal (Some 1) s) 1 _ _ Hc Hd)); [lia|].
  apply (run_from_steps 1 closing_schedule). vm_compute. by eexists.
Defined.

(** Two getters at an empty queue: one waits for an element, one for the lock. *)
Lemma no_lost_wakeup_witness : let s := (run_from 1 (take 5 closing_schedule)).2 in
  threads s !! 2 = Some (FairWait (OpGet false)) /\ must_wait s (OpGet false) = true.
Proof.
  intros s. assert (threads s !! 2 = Some (FairWait (OpGet false))) as E2 by (vm_compute; reflexivity).
  assert (threads s = {[1 := CondWait (OpGet false); 2 := FairWait (OpGet false)]}) as Em by (vm_compute; reflexivity).
  split; [exact E2|]. refine (no_lost_wakeup nat 1 (run_from 1 (take 5 closing_schedule)).1 s _ _ _ 2 _ (or_introl E2)); [lia| |].
  - apply (run_from_steps 1 (take 5 closing_schedule)). vm_compute. by eexists.
  - assert (forall t p, threads s !! t = Some p -> p = CondWait (OpGet false) \/ p = FairWait (OpGet false)) as Hp.
    { intros t p. rewrite Em. intros [[_ <-]|[_ [_ <-]%lookup_singleton_Some]]%lookup_insert_Some; auto. }
    assert (closed s = false) as Hop by (vm_compute; reflexivity).
    intros e s' Hst. destruct Hst as [t o x Ht|t o x Ht|t o x fl Ht Hf|t o ab x Ht|t o grow w x Ht Hw|t o w x Ht Hw|t o r x Ht|x Hcl|u x Hc Hu|u x Hf Hu];
      try (destruct (Hp _ _ Ht); done).
    + intros Hn. specialize (Hn t Ht). cbn [set_pc threads set_threads] in Hn. rewrite lookup_insert_eq in Hn. unfold idle in Ht. by rewrite <- Hn in Ht.
    + cbn. by rewrite Hcl.
    + congruence.
    + done.
Defined.
