(* ===== verification/Bch.v ===== *)
(** BCH codes over GF(2): the bit readers, the polynomial remainder and the
    syndrome tables of [src/frame_decode.c], shared with [src/ida_decode.c].

    A code word is a [uint32_t]; its syndrome is the remainder modulo the
    generator polynomial.  The results: the remainder is linear and bounded
    by the degree, the table built at start-up inverts it on every error
    pattern of the code's correction radius, and hence one table lookup
    restores the transmitted word. *)
From S2P Require Import Prelude.

(** * Definitions *)

(** [bits_to_uint]: MSB-first bits to a 32-bit word. *)
Definition bits_to_uint (bits : list Z) (n : nat) : Z :=
  fold_left (fun val b => Z.lor (u32 (Z.shiftl val 1)) (Z.land b 1)) (take n bits) 0.

(** [uint_to_bits]: the [n] low bits of [val], MSB first. *)
Fixpoint uint_to_bits (val : Z) (n : nat) : list Z :=
  match n with
  | O => []
  | S n' => uint_to_bits (Z.shiftr val 1) n' ++ [Z.land val 1]
  end.

(** The loop of [gf2_remainder], [k] iterations from bit [d + k - 1] down to
    bit [d], where [d = poly_bits - 1]. *)
Fixpoint gf2_reduce (poly d : Z) (k : nat) (val : Z) : Z :=
  match k with
  | O => val
  | S k' =>
      let i := d + Z.of_nat k' in
      let val' := if Z.testbit val i
                  then Z.lxor val (u32 (Z.shiftl poly (i - d))) else val in
      gf2_reduce poly d k' val'
  end.

Definition gf2_remainder (poly val : Z) : Z :=
  if val =? 0 then 0
  else
    let poly_bits := Z.log2 poly + 1 in
    gf2_reduce poly (poly_bits - 1) (Z.to_nat (32 - (poly_bits - 1))) val.

(** One row of a syndrome table. *)
Record syn_entry := SynEntry { errs : Z; locator : Z }.

#[export] Instance syn_entry_inhabited : Inhabited syn_entry := populate (SynEntry 0 0).
#[export] Instance syn_entry_eq_dec : EqDecision syn_entry.
Proof. solve_decision. Defined.

(** [build_syndrome_table]: all rows uncorrectable, then the single-bit
    errors, then (when [max_errors >= 2]) the two-bit errors that do not
    collide with an earlier row. *)
Definition syn_single (poly : Z) (syn : list syn_entry) (b1 : nat) : list syn_entry :=
  let val := u32 (Z.shiftl 1 (Z.of_nat b1)) in
  let r := gf2_remainder poly val in
  if r <? Z.of_nat (length syn) then <[Z.to_nat r := SynEntry 1 val]> syn else syn.

Definition syn_double (poly : Z) (syn : list syn_entry) (b1 b2 : nat) : list syn_entry :=
  let val := Z.lor (u32 (Z.shiftl 1 (Z.of_nat b1))) (u32 (Z.shiftl 1 (Z.of_nat b2))) in
  let r := gf2_remainder poly val in
  if (r <? Z.of_nat (length syn)) && (errs (syn !!! Z.to_nat r) <? 0)
  then <[Z.to_nat r := SynEntry 2 val]> syn else syn.

Definition build_syndrome_table (poly : Z) (nbits max_errors table_size : nat) : list syn_entry :=
  let syn0 := replicate table_size (SynEntry (-1) 0) in
  let syn1 := fold_left (syn_single poly) (seq 0 nbits) syn0 in
  if (2 <=? max_errors)%nat then
    fold_left (fun syn b1 =>
      fold_left (fun syn b2 => syn_double poly syn b1 b2)
                (seq (b1 + 1) (nbits - (b1 + 1))) syn)
      (seq 0 nbits) syn1
  else syn1.

(** The lookup shared by every decoder: [None] is the uncorrectable case. *)
Definition syn_lookup (syn : list syn_entry) (syndrome : Z) : option syn_entry :=
  if syndrome <? Z.of_nat (length syn) then
    let e := syn !!! Z.to_nat syndrome in
    if 0 <=? errs e then Some e else None
  else None.

(** [bch_31_21_correct]: error count and locator. *)
Definition bch_31_21_correct (syn_ra : list syn_entry) (syndrome : Z) : option (Z * Z) :=
  if syndrome =? 0 then Some (0, 0)
  else match syn_lookup syn_ra syndrome with
       | Some e => Some (errs e, locator e)
       | None => None
       end.

(** ** Codes and their interface

    A code as the decoders use it: generator, word length, degree of the
    generator, the radius within which every pattern is corrected, the largest
    pattern the table holds, and the table built at start-up. *)
Record bch_code := BchCode {
  cpoly : Z;
  cbits : nat;
  cdeg : nat;
  cradius : nat;
  cmax : nat;
  ctable : list syn_entry;
}.

(** The set of flipped bit positions as an XOR mask. *)
Definition err_mask (ps : list nat) : Z :=
  foldr (fun p a => Z.lxor (2 ^ Z.of_nat p) a) 0 ps.

(** An error pattern of at most [k] distinct positions below [n]. *)
Definition err_pattern (n k : nat) (ps : list nat) : Prop :=
  NoDup ps /\ Forall (fun p => p < n)%nat ps /\ (length ps <= k)%nat.

#[export] Instance err_pattern_dec n k ps : Decision (err_pattern n k ps).
Proof. unfold err_pattern. apply _. Defined.

(** One correction step: what every decoder does with a received word. *)
Definition bch_correct (c : bch_code) (val : Z) : option (Z * Z) :=
  let s := gf2_remainder (cpoly c) val in
  if s =? 0 then Some (0, val)
  else match syn_lookup (ctable c) s with
       | Some e => Some (errs e, Z.lxor val (locator e))
       | None => None
       end.

(** Systematic encoding: data bits followed by the check bits. *)
Definition bch_encode (c : bch_code) (data : Z) : Z :=
  let w := Z.shiftl data (Z.of_nat (cdeg c)) in
  Z.lxor w (gf2_remainder (cpoly c) w).

(** The positions set in the low [n] bits of a mask. *)
Definition mask_bits (n : nat) (m : Z) : list nat :=
  List.filter (fun p => Z.testbit m (Z.of_nat p)) (seq 0 n).

(** What the decoders rely on: the generator has the stated degree, the table
    answers every pattern within the radius with exactly that pattern, and
    every answer it gives is a pattern of at most [cmax] positions that has the
    syndrome it was looked up by. *)
Class BchOk (c : bch_code) : Prop := {
  bch_deg : Z.log2 (cpoly c) = Z.of_nat (cdeg c) /\ 0 < cpoly c < 2 ^ 32;
  bch_exact : forall ps, err_pattern (cbits c) (cradius c) ps -> ps <> [] ->
    gf2_remainder (cpoly c) (err_mask ps) <> 0 /\
    syn_lookup (ctable c) (gf2_remainder (cpoly c) (err_mask ps)) =
      Some (SynEntry (Z.of_nat (length ps)) (err_mask ps));
  bch_sound : forall s e, 0 < s -> syn_lookup (ctable c) s = Some e ->
    gf2_remainder (cpoly c) (locator e) = s /\
    exists ps, err_pattern (cbits c) (cmax c) ps /\ locator e = err_mask ps /\
               errs e = Z.of_nat (length ps);
}.

(** Executable forms of the two table laws, checked by evaluation. *)
Definition entry_eqb (o : option syn_entry) (n mask : Z) : bool :=
  match o with Some e => (errs e =? n) && (locator e =? mask) | None => false end.

Definition pattern_okb (c : bch_code) (ps : list nat) : bool :=
  let r := gf2_remainder (cpoly c) (err_mask ps) in
  negb (r =? 0) &&
  entry_eqb (syn_lookup (ctable c) r) (Z.of_nat (length ps)) (err_mask ps).

Definition exact_okb (c : bch_code) : bool :=
  forallb (fun a =>
    (pattern_okb c [a]) &&
    (if (2 <=? cradius c)%nat then
       forallb (fun b => (a =? b)%nat || pattern_okb c [a; b]) (seq 0 (cbits c))
     else true)) (seq 0 (cbits c)).

Definition sound_okb (c : bch_code) : bool :=
  forallb (fun i =>
    match syn_lookup (ctable c) (Z.of_nat i) with
    | Some e =>
        let ps := mask_bits (cbits c) (locator e) in
        (gf2_remainder (cpoly c) (locator e) =? Z.of_nat i) &&
        (err_mask ps =? locator e) && (errs e =? Z.of_nat (length ps)) &&
        (length ps <=? cmax c)%nat
    | None => true
    end) (seq 1 (length (ctable c) - 1)).

Definition deg_okb (c : bch_code) : bool :=
  (Z.log2 (cpoly c) =? Z.of_nat (cdeg c)) && (0 <? cpoly c) && (cpoly c <? 2 ^ 32).

(** The number an MSB-first bit string denotes, unbounded. *)
Definition bval (l : list Z) : Z := fold_left (fun v b => 2 * v + b) l 0.

(** * The bit readers *)

Lemma bval_app l m : bval (l ++ m) = 2 ^ Z.of_nat (length m) * bval l + bval m.
Proof.
  unfold bval. rewrite fold_left_app. generalize (fold_left (fun v b => 2 * v + b) l 0).
  induction m as [|b m IH] using rev_ind; intros v; [simpl; lia|].
  rewrite !fold_left_app, length_app, Nat2Z.inj_add, Z.pow_add_r by lia.
  simpl. rewrite (IH v). lia.
Qed.

Lemma bval_snoc l b : bval (l ++ [b]) = 2 * bval l + b.
Proof. rewrite bval_app. simpl. change (bval [b]) with b. lia. Qed.

Lemma bval_range l : bits_ok l -> 0 <= bval l < 2 ^ Z.of_nat (length l).
Proof.
  induction l as [|b l IH] using rev_ind; [done|]. rewrite Forall_app, Forall_singleton.
  intros [Hl Hb%is_bit_range]. specialize (IH Hl). rewrite bval_snoc, length_app. simpl.
  rewrite Nat.add_1_r, Nat2Z.inj_succ, Z.pow_succ_r by lia. lia.
Qed.

Lemma bits_to_uint_bval l n :
  bits_ok (take n l) -> (n <= 32)%nat -> bits_to_uint l n = bval (take n l).
Proof.
  unfold bits_to_uint. intros Hl Hn.
  assert (length (take n l) <= 32)%nat as Hlen by (rewrite length_take; lia).
  revert Hl Hlen. generalize (take n l). clear. intros l.
  induction l as [|b l IH] using rev_ind; [done|].
  rewrite Forall_app, Forall_singleton, length_app, fold_left_app. simpl. intros [Hl Hb] Hlen.
  rewrite IH by (done || lia). rewrite bval_snoc, is_bit_land_id by done.
  pose proof (bval_range l Hl) as Hr.
  assert (2 ^ Z.of_nat (length l) <= 2 ^ 31) by (apply Z.pow_le_mono_r; lia).
  rewrite u32_small, shift_or_bit by (done || rewrite ?Z.shiftl_mul_pow2; lia). done.
Qed.

Lemma length_uint_to_bits v n : length (uint_to_bits v n) = n.
Proof. revert v. induction n; intros v; simpl; [done|]. rewrite length_app, IHn. simpl. lia. Qed.

Lemma uint_to_bits_ok v n : bits_ok (uint_to_bits v n).
Proof.
  revert v. induction n; intros v; simpl; [by constructor|].
  apply Forall_app. split; [done|]. constructor; [apply is_bit_land|done].
Qed.

Lemma uint_to_bits_bval l : bits_ok l -> uint_to_bits (bval l) (length l) = l.
Proof.
  induction l as [|b l IH] using rev_ind; [done|]. rewrite Forall_app, Forall_singleton.
  intros [Hl Hb]. rewrite length_app, Nat.add_1_r. simpl. rewrite bval_snoc.
  replace (Z.shiftr (2 * bval l + b) 1) with (bval l).
  - rewrite IH by done. f_equal. f_equal. change 1 with (Z.ones 1) at 1.
    rewrite Z.land_ones by lia. destruct Hb as [->| ->]; Z.div_mod_to_equations; lia.
  - rewrite Z.shiftr_div_pow2 by lia. destruct Hb as [->| ->]; Z.div_mod_to_equations; lia.
Qed.

Lemma bval_uint_to_bits v n : bval (uint_to_bits v n) = v mod 2 ^ Z.of_nat n.
Proof.
  revert v. induction n as [|n IH]; intros v; [by rewrite Z.mod_1_r|].
  change (uint_to_bits v (S n)) with (uint_to_bits (Z.shiftr v 1) n ++ [Z.land v 1]).
  rewrite bval_snoc, IH, Z.shiftr_div_pow2, Nat2Z.inj_succ, Z.pow_succ_r by lia.
  change 1 with (Z.ones 1) at 2. rewrite Z.land_ones by lia.
  rewrite (Z.rem_mul_r v 2) by lia. change (2 ^ 1) with 2. lia.
Qed.

Lemma uint_to_bits_mod v n : uint_to_bits v n = uint_to_bits (v mod 2 ^ Z.of_nat n) n.
Proof.
  rewrite <- bval_uint_to_bits. rewrite <- (length_uint_to_bits v n) at 3.
  by rewrite uint_to_bits_bval by apply uint_to_bits_ok.
Qed.

(** * The polynomial remainder *)

(** The remainder is linear over GF(2). *)
Lemma gf2_reduce_lxor poly d k a b :
  gf2_reduce poly d k (Z.lxor a b) = Z.lxor (gf2_reduce poly d k a) (gf2_reduce poly d k b).
Proof.
  revert a b. induction k as [|k IH]; intros a b; [done|]. simpl.
  rewrite Z.lxor_spec. rewrite <- IH. f_equal.
  set (m := u32 (Z.shiftl poly (d + Z.of_nat k - d))).
  destruct (Z.testbit a _), (Z.testbit b _); simpl; try done.
  - by rewrite lxor_swap, Z.lxor_nilpotent, Z.lxor_0_r.
  - by rewrite !Z.lxor_assoc, (Z.lxor_comm b m).
  - by rewrite Z.lxor_assoc.
Qed.

Lemma gf2_reduce_0 poly d k : gf2_reduce poly d k 0 = 0.
Proof. induction k; simpl; [done|]. by rewrite Z.bits_0. Qed.

Lemma gf2_remainder_reduce poly v :
  gf2_remainder poly v = gf2_reduce poly (Z.log2 poly) (Z.to_nat (32 - Z.log2 poly)) v.
Proof.
  unfold gf2_remainder. replace (Z.log2 poly + 1 - 1) with (Z.log2 poly) by lia.
  destruct (Z.eqb_spec v 0) as [->|]; [|done]. by rewrite gf2_reduce_0.
Qed.

Lemma gf2_remainder_lxor poly a b :
  gf2_remainder poly (Z.lxor a b) = Z.lxor (gf2_remainder poly a) (gf2_remainder poly b).
Proof. rewrite !gf2_remainder_reduce. apply gf2_reduce_lxor. Qed.

(** Each step clears the bit it looks at and nothing above it. *)
Lemma gf2_step_range poly d k v :
  0 < poly -> Z.log2 poly = d -> d + Z.of_nat k < 32 ->
  0 <= v < 2 ^ (d + Z.of_nat (S k)) -> Z.testbit v (d + Z.of_nat k) = true ->
  0 <= Z.lxor v (u32 (Z.shiftl poly (d + Z.of_nat k - d))) < 2 ^ (d + Z.of_nat k).
Proof.
  intros Hp Hd Hk Hv Hb. pose proof (Z.log2_nonneg poly).
  replace (d + Z.of_nat k - d) with (Z.of_nat k) by lia.
  set (i := d + Z.of_nat k) in *.
  assert (0 <= Z.shiftl poly (Z.of_nat k)) as Hs by (apply Z.shiftl_nonneg; lia).
  assert (Z.log2 (Z.shiftl poly (Z.of_nat k)) = i) as Hl
    by (rewrite Z.log2_shiftl by lia; unfold i; lia).
  assert (0 < Z.shiftl poly (Z.of_nat k)) as Hs'
    by (rewrite Z.shiftl_mul_pow2 by lia; apply Z.mul_pos_pos; [lia|apply Z.pow_pos_nonneg; lia]).
  pose proof (Z.log2_spec _ Hs') as Hspec. rewrite Hl in Hspec.
  assert (2 ^ Z.succ i <= 2 ^ 32) by (apply Z.pow_le_mono_r; lia).
  rewrite u32_small by lia.
  assert (0 <= Z.lxor v (Z.shiftl poly (Z.of_nat k))) by (apply Z.lxor_nonneg; lia).
  split; [done|]. apply bits_lt_pow2; [lia|done|]. intros j Hj. rewrite Z.lxor_spec.
  destruct (decide (j = i)) as [->|Hne].
  - pose proof (Z.bit_log2 _ Hs') as Hbl. rewrite Hl in Hbl. by rewrite Hb, Hbl.
  - rewrite (testbit_high v (d + Z.of_nat (S k))) by lia.
    by rewrite (testbit_high _ (Z.succ i)) by lia.
Qed.

Lemma gf2_reduce_range poly d k v :
  0 < poly -> Z.log2 poly = d -> d + Z.of_nat k <= 32 ->
  0 <= v < 2 ^ (d + Z.of_nat k) -> 0 <= gf2_reduce poly d k v < 2 ^ d.
Proof.
  intros Hp Hd. revert v. induction k as [|k IH]; intros v Hk Hv.
  - simpl. by rewrite Nat2Z.inj_0, Z.add_0_r in Hv.
  - simpl. apply IH; [lia|]. destruct (Z.testbit v _) eqn:Hb.
    + apply gf2_step_range; [done..|lia|done|done].
    + split; [lia|]. pose proof (Z.log2_nonneg poly). apply bits_lt_pow2; [lia..|].
      intros j Hj. destruct (decide (j = d + Z.of_nat k)) as [->|]; [done|].
      apply (testbit_high _ (d + Z.of_nat (S k))); lia.
Qed.

Lemma gf2_remainder_range poly v :
  0 < poly < 2 ^ 32 -> 0 <= v < 2 ^ 32 -> 0 <= gf2_remainder poly v < 2 ^ Z.log2 poly.
Proof.
  intros Hp Hv. rewrite gf2_remainder_reduce. pose proof (Z.log2_nonneg poly).
  assert (Z.log2 poly < 32) by (apply Z.log2_lt_pow2; lia).
  apply gf2_reduce_range; [lia|done|lia|]. by replace (_ + _) with 32 by lia.
Qed.

(** A word below the degree is its own remainder. *)
Lemma gf2_remainder_small poly v :
  0 < poly -> 0 <= v < 2 ^ Z.log2 poly -> gf2_remainder poly v = v.
Proof.
  intros Hp Hv. rewrite gf2_remainder_reduce. generalize (Z.to_nat (32 - Z.log2 poly)).
  intros k. induction k as [|k IH]; [done|]. simpl.
  rewrite (testbit_high v (Z.log2 poly)) by lia. done.
Qed.

(** * Error masks *)

Lemma err_mask_nonneg ps : 0 <= err_mask ps.
Proof.
  induction ps as [|p ps IH]; simpl; [done|]. apply Z.lxor_nonneg. split; [done|intros; lia].
Qed.

Lemma err_mask_range n ps :
  Forall (fun p => p < n)%nat ps -> 0 <= err_mask ps < 2 ^ Z.of_nat n.
Proof.
  induction 1 as [|p ps Hp _ IH]; simpl; [lia|]. apply lxor_range; [lia| |done].
  split; [lia|]. apply Z.pow_lt_mono_r; lia.
Qed.

Lemma shiftl_1_pow n : Z.shiftl 1 n = 2 ^ n.
Proof.
  destruct (decide (0 <= n)); [by rewrite Z.shiftl_1_l|].
  rewrite Z.shiftl_1_l. done.
Qed.

(** * What one correction step achieves *)

Section correct.
Context {c : bch_code} {Hc : BchOk c}.

(** Every pattern within the radius is undone exactly. *)
Lemma bch_correct_pattern w ps :
  gf2_remainder (cpoly c) w = 0 -> err_pattern (cbits c) (cradius c) ps ->
  bch_correct c (Z.lxor w (err_mask ps)) = Some (Z.of_nat (length ps), w).
Proof.
  intros Hw Hps. unfold bch_correct. rewrite gf2_remainder_lxor, Hw, Z.lxor_0_l.
  destruct (decide (ps = [])) as [->|Hne].
  - simpl. by rewrite Z.lxor_0_r.
  - destruct (bch_exact ps Hps Hne) as [Hr ->].
    destruct (Z.eqb_spec (gf2_remainder (cpoly c) (err_mask ps)) 0); [done|].
    simpl. by rewrite lxor_cancel.
Qed.

(** Whatever is accepted is a code word within [cmax] flips of what came in. *)
Lemma bch_correct_sound v n w :
  0 <= v < 2 ^ Z.of_nat (cbits c) -> (cbits c <= 32)%nat -> bch_correct c v = Some (n, w) ->
  gf2_remainder (cpoly c) w = 0 /\ 0 <= w < 2 ^ Z.of_nat (cbits c) /\
  exists ps, err_pattern (cbits c) (cmax c) ps /\ n = Z.of_nat (length ps) /\
             w = Z.lxor v (err_mask ps).
Proof.
  intros Hv Hn. unfold bch_correct.
  destruct (Z.eqb_spec (gf2_remainder (cpoly c) v) 0) as [E|E].
  { intros [= <- <-]. split; [done|]. split; [done|]. exists []. rewrite Z.lxor_0_r.
    repeat split; [constructor|constructor|simpl; lia]. }
  destruct (syn_lookup _ _) as [e|] eqn:He; [|done]. intros [= <- <-].
  assert (2 ^ Z.of_nat (cbits c) <= 2 ^ 32) by (apply Z.pow_le_mono_r; lia).
  pose proof (gf2_remainder_range (cpoly c) v (proj2 (bch_deg (c:=c))) ltac:(lia)).
  assert (0 < gf2_remainder (cpoly c) v) as Hs by lia.
  destruct (bch_sound _ _ Hs He) as (Hr & ps & Hps & Hl & He').
  rewrite gf2_remainder_lxor, Hr, Z.lxor_nilpotent, Hl. split; [done|].
  split; [apply lxor_range; [lia|done|]; apply err_mask_range, Hps|]. eauto.
Qed.

(** The systematic encoder produces code words carrying the data on top. *)
Lemma bch_encode_spec data :
  (cdeg c <= cbits c <= 32)%nat -> 0 <= data < 2 ^ Z.of_nat (cbits c - cdeg c) ->
  gf2_remainder (cpoly c) (bch_encode c data) = 0 /\
  0 <= bch_encode c data < 2 ^ Z.of_nat (cbits c) /\
  Z.shiftr (bch_encode c data) (Z.of_nat (cdeg c)) = data.
Proof.
  intros Hn Hd. unfold bch_encode. destruct (bch_deg (c:=c)) as [Hdeg Hp].
  set (w := Z.shiftl data (Z.of_nat (cdeg c))).
  assert (0 <= w < 2 ^ Z.of_nat (cbits c)) as Hw.
  { unfold w. rewrite Z.shiftl_mul_pow2 by lia.
    replace (Z.of_nat (cbits c)) with (Z.of_nat (cbits c - cdeg c) + Z.of_nat (cdeg c)) by lia.
    rewrite Z.pow_add_r by lia. nia. }
  assert (2 ^ Z.of_nat (cbits c) <= 2 ^ 32) by (apply Z.pow_le_mono_r; lia).
  pose proof (gf2_remainder_range (cpoly c) w Hp ltac:(lia)) as Hr.
  assert (2 ^ Z.log2 (cpoly c) <= 2 ^ Z.of_nat (cbits c)) by (apply Z.pow_le_mono_r; lia).
  split; [|split].
  - rewrite gf2_remainder_lxor, (gf2_remainder_small _ (gf2_remainder _ _)) by lia.
    apply Z.lxor_nilpotent.
  - apply lxor_range; lia.
  - rewrite Z.shiftr_lxor. unfold w at 1. rewrite Z.shiftr_shiftl_l by lia.
    replace (Z.of_nat (cdeg c) - Z.of_nat (cdeg c)) with 0 by lia. rewrite Z.shiftl_0_r.
    rewrite (Z.shiftr_div_pow2 (gf2_remainder _ _)) by lia.
    rewrite <- Hdeg, Z.div_small by done. by rewrite Z.lxor_0_r.
Qed.
End correct.

(** * Discharging the interface by evaluation *)

Lemma entry_eqb_eq o n m : entry_eqb o n m = true -> o = Some (SynEntry n m).
Proof.
  destruct o as [[a b]|]; simpl; [|done]. intros H. bsplit. by subst.
Qed.

Lemma pattern_okb_spec c ps : pattern_okb c ps = true ->
  gf2_remainder (cpoly c) (err_mask ps) <> 0 /\
  syn_lookup (ctable c) (gf2_remainder (cpoly c) (err_mask ps)) =
    Some (SynEntry (Z.of_nat (length ps)) (err_mask ps)).
Proof. unfold pattern_okb. intros H. bsplit. split; [done|]. by apply entry_eqb_eq. Qed.

Lemma exact_okb_spec c ps :
  exact_okb c = true -> (cradius c <= 2)%nat -> err_pattern (cbits c) (cradius c) ps ->
  ps <> [] -> pattern_okb c ps = true.
Proof.
  unfold exact_okb. rewrite forallb_forall. intros H Hr [Hnd [Hlt Hlen]] Hne.
  destruct ps as [|a [|b [|? ?]]]; simpl in Hlen; [done| | |lia].
  - rewrite Forall_singleton in Hlt.
    specialize (H a ltac:(apply in_seq; lia)). by apply andb_true_iff in H as [? _].
  - inversion_clear Hlt as [|? ? Ha Hl]. inversion_clear Hl as [|? ? Hb _].
    specialize (H a ltac:(apply in_seq; lia)). apply andb_true_iff in H as [_ H].
    replace (2 <=? cradius c)%nat with true in H by (symmetry; apply Nat.leb_le; lia).
    rewrite forallb_forall in H. specialize (H b ltac:(apply in_seq; lia)).
    apply orb_true_iff in H as [Hab%Nat.eqb_eq|H]; [|done].
    subst b. inversion_clear Hnd as [|? ? Hn _]. set_solver.
Qed.

Lemma mask_bits_pattern n k m :
  (length (mask_bits n m) <= k)%nat -> err_pattern n k (mask_bits n m).
Proof.
  intros Hk. split; [|split; [|done]].
  - apply NoDup_ListNoDup, List.NoDup_filter, seq_NoDup.
  - apply List.Forall_forall. intros p [Hp%in_seq _]%filter_In. lia.
Qed.

Lemma sound_okb_spec c s e :
  sound_okb c = true -> 0 < s -> syn_lookup (ctable c) s = Some e ->
  gf2_remainder (cpoly c) (locator e) = s /\
  exists ps, err_pattern (cbits c) (cmax c) ps /\ locator e = err_mask ps /\
             errs e = Z.of_nat (length ps).
Proof.
  unfold sound_okb. rewrite forallb_forall. intros H Hs He.
  assert (s < Z.of_nat (length (ctable c))) as Hlt.
  { unfold syn_lookup in He. destruct (Z.ltb_spec s (Z.of_nat (length (ctable c)))); done. }
  specialize (H (Z.to_nat s) ltac:(apply in_seq; lia)).
  rewrite Z2Nat.id, He in H by lia. apply andb_true_iff in H as [H Hk%Nat.leb_le]. bsplit.
  split; [done|]. exists (mask_bits (cbits c) (locator e)). eauto using mask_bits_pattern.
Qed.

Lemma BchOk_by_eval c :
  deg_okb c = true -> exact_okb c = true -> sound_okb c = true -> (cradius c <= 2)%nat -> BchOk c.
Proof.
  intros Hd He Hs Hr. split.
  - unfold deg_okb in Hd. bsplit. lia.
  - intros ps Hps Hne. by apply pattern_okb_spec, exact_okb_spec.
  - intros. by apply sound_okb_spec.
Qed.

Ltac bch_eval := apply BchOk_by_eval; [vm_compute; reflexivity..|simpl; lia].

(** * More on bit strings *)

Lemma uint_to_bits_app v n m :
  uint_to_bits v (n + m) = uint_to_bits (Z.shiftr v (Z.of_nat m)) n ++ uint_to_bits v m.
Proof.
  revert v. induction m as [|m IH]; intros v.
  - rewrite Nat.add_0_r, Z.shiftr_0_r. simpl. by rewrite app_nil_r.
  - rewrite Nat.add_succ_r.
    change (uint_to_bits v (S (n + m))) with (uint_to_bits (Z.shiftr v 1) (n + m) ++ [Z.land v 1]).
    rewrite IH, Z.shiftr_shiftr by lia. simpl.
    replace (1 + Z.of_nat m) with (Z.of_nat (S m)) by lia. by rewrite app_assoc.
Qed.

Lemma shift_or_bval l v : 0 <= v -> bits_ok l ->
  fold_left (fun a b => Z.lor (Z.shiftl a 1) b) l v = fold_left (fun a b => 2 * a + b) l v.
Proof.
  intros Hv Hl. revert v Hv. induction Hl as [|b l Hb _ IH]; intros v Hv; simpl; [done|].
  rewrite shift_or_bit by done. apply IH. apply is_bit_range in Hb. lia.
Qed.

Lemma shift_or_mod_bval (w : nat) l : bits_ok l -> (length l <= w)%nat ->
  fold_left (fun a b => Z.lor (Z.shiftl a 1 mod 2 ^ Z.of_nat w) b) l 0 = bval l.
Proof.
  induction l as [|b l IH] using rev_ind; [done|].
  rewrite Forall_app, Forall_singleton, length_app, fold_left_app. simpl. intros [Hl Hb] Hlen.
  rewrite IH by (done || lia). rewrite bval_snoc. pose proof (bval_range l Hl) as Hr.
  assert (2 * 2 ^ Z.of_nat (length l) <= 2 ^ Z.of_nat w)
    by (rewrite <- Z.pow_succ_r by lia; apply Z.pow_le_mono_r; lia).
  rewrite Z.mod_small, shift_or_bit by (done || rewrite ?Z.shiftl_mul_pow2; lia). done.
Qed.

Lemma shift_or_u32_bval l : bits_ok l -> (length l <= 32)%nat ->
  fold_left (fun a b => Z.lor (u32 (Z.shiftl a 1)) b) l 0 = bval l.
Proof. apply (shift_or_mod_bval 32). Qed.

Lemma shift_or_u8_bval l : bits_ok l -> (length l <= 8)%nat ->
  fold_left (fun a b => Z.lor (u8 (Z.shiftl a 1)) b) l 0 = bval l.
Proof. apply (shift_or_mod_bval 8). Qed.

Lemma bval_uint_small v n : 0 <= v < 2 ^ Z.of_nat n -> bval (uint_to_bits v n) = v.
Proof. intros Hv. rewrite bval_uint_to_bits. by apply Z.mod_small. Qed.

Lemma uint_to_bits_1 v : uint_to_bits v 1 = [Z.land v 1].
Proof. done. Qed.

Lemma take_uint_bits v n rest : take n (uint_to_bits v n ++ rest) = uint_to_bits v n.
Proof. apply take_app_length'. symmetry. apply length_uint_to_bits. Qed.
Lemma drop_uint_bits v n rest : drop n (uint_to_bits v n ++ rest) = rest.
Proof. apply drop_app_length'. symmetry. apply length_uint_to_bits. Qed.

#[export] Hint Resolve uint_to_bits_ok length_uint_to_bits Forall_take Forall_drop : sniff.

(** Bit strings built from fields, slices and other bit strings. *)
Ltac solve_bits := rewrite ?Forall_app; repeat split; auto with sniff.

(** Tables are evaluated by [vm_compute] only, never by unification. *)
#[global] Opaque build_syndrome_table uint_to_bits gf2_remainder.
#[global] Arguments gf2_remainder : simpl never.
#[global] Arguments bits_to_uint : simpl never.
#[global] Arguments uint_to_bits : simpl never.
