(* ===== verification/Crc.v ===== *)
(** The 16-bit checksums of the receiver.

    [crc_ccitt] of [src/ida_decode.c] is CRC-CCITT-FALSE, most significant bit
    first.  The shift register is linear and invertible, from which the residue
    law (a message followed by its checksum has residue zero, and nothing else
    does) and the detection of every burst within two bytes follow. *)
From S2P Require Import Prelude.

(** * CRC-CCITT-FALSE *)

Definition crc_shift (crc : Z) : Z :=
  if Z.testbit crc 15 then Z.lxor (u16 (Z.shiftl crc 1)) 0x1021 else u16 (Z.shiftl crc 1).

Definition crc_byte (crc b : Z) : Z :=
  Nat.iter 8 crc_shift (Z.lxor crc (u16 (Z.shiftl b 8))).

Definition crc_ccitt (data : list Z) : Z := fold_left crc_byte data 0xFFFF.

(** * The register *)

Lemma u16_lxor a b : u16 (Z.lxor a b) = Z.lxor (u16 a) (u16 b).
Proof.
  unfold u16. rewrite <- !Z.land_ones by lia. apply Z.bits_inj. intros i.
  autorewrite with bitsimp. by destruct (Z.testbit a i), (Z.testbit b i), (Z.testbit (Z.ones 16) i).
Qed.

Lemma crc_shift_lxor a b : crc_shift (Z.lxor a b) = Z.lxor (crc_shift a) (crc_shift b).
Proof.
  unfold crc_shift. rewrite Z.lxor_spec, Z.shiftl_lxor, u16_lxor.
  set (x := u16 (Z.shiftl a 1)). set (y := u16 (Z.shiftl b 1)).
  destruct (Z.testbit a 15), (Z.testbit b 15); simpl; try done.
  - by rewrite lxor_swap, Z.lxor_nilpotent, Z.lxor_0_r.
  - by rewrite !Z.lxor_assoc, (Z.lxor_comm y).
  - by rewrite Z.lxor_assoc.
Qed.

Lemma crc_shift_range c : 0 <= crc_shift c < 2 ^ 16.
Proof.
  unfold crc_shift. destruct (Z.testbit c 15); [apply lxor_range|]; auto using u16_range with lia.
Qed.

Lemma crc_shift_kernel c : 0 <= c < 2 ^ 16 -> crc_shift c = 0 -> c = 0.
Proof.
  intros Hc. unfold crc_shift. destruct (Z.testbit c 15) eqn:E.
  - intros H. exfalso. assert (Z.testbit (Z.lxor (u16 (Z.shiftl c 1)) 0x1021) 0 = true) as H0.
    { unfold u16. rewrite Z.lxor_spec, Z.mod_pow2_bits_low, Z.shiftl_spec_low by lia. done. }
    by rewrite H in H0.
  - assert (c < 2 ^ 15).
    { apply bits_lt_pow2; [lia..|]. intros i Hi. destruct (decide (i = 15)) as [->|]; [done|].
      apply (testbit_high _ 16); lia. }
    rewrite Z.shiftl_mul_pow2, u16_small by lia. lia.
Qed.

Definition crc_shifts (n : nat) (c : Z) : Z := Nat.iter n crc_shift c.

Lemma crc_shifts_lxor n a b : crc_shifts n (Z.lxor a b) = Z.lxor (crc_shifts n a) (crc_shifts n b).
Proof. induction n as [|n IH]; [done|]. simpl. by rewrite IH, crc_shift_lxor. Qed.

Lemma crc_shifts_range n c : 0 <= c < 2 ^ 16 -> 0 <= crc_shifts n c < 2 ^ 16.
Proof. intros Hc. destruct n; [done|]. apply crc_shift_range. Qed.

Lemma crc_shifts_inj n a b : 0 <= a < 2 ^ 16 -> 0 <= b < 2 ^ 16 ->
  crc_shifts n a = crc_shifts n b -> a = b.
Proof.
  intros Ha Hb H. apply Z.lxor_eq. pose proof (lxor_range a b 16 ltac:(lia) Ha Hb) as Hr.
  assert (crc_shifts n (Z.lxor a b) = 0) as Hk by (rewrite crc_shifts_lxor, H; apply Z.lxor_nilpotent).
  clear H. induction n as [|n IH]; [done|]. apply IH, crc_shift_kernel; [|done].
  by apply crc_shifts_range.
Qed.

(** A byte below the register is moved up unchanged. *)
Lemma crc_shifts_byte b : is_byte b -> crc_shifts 8 b = Z.shiftl b 8.
Proof.
  intros Hb. assert (forallb (fun i => crc_shifts 8 (Z.of_nat i) =? Z.shiftl (Z.of_nat i) 8) (seq 0 256) = true)
    as H by (vm_compute; reflexivity).
  rewrite forallb_forall in H. specialize (H (Z.to_nat b)). rewrite Z2Nat.id in H by apply Hb.
  apply Z.eqb_eq, H, in_seq. unfold is_byte in Hb. lia.
Qed.

Lemma shiftl8_range b : is_byte b -> 0 <= Z.shiftl b 8 < 2 ^ 16.
Proof. unfold is_byte. rewrite Z.shiftl_mul_pow2; lia. Qed.

Lemma crc_byte_shifts c b : is_byte b -> crc_byte c b = crc_shifts 8 (Z.lxor c (Z.shiftl b 8)).
Proof. intros Hb. unfold crc_byte. by rewrite u16_small by (by apply shiftl8_range). Qed.

Lemma crc_byte_range c b : 0 <= crc_byte c b < 2 ^ 16.
Proof. unfold crc_byte. simpl. apply crc_shift_range. Qed.

Lemma shiftl8_disjoint a b : is_byte b -> Z.land (Z.shiftl a 8) b = 0.
Proof.
  unfold is_byte. intros Hb. apply Z.bits_inj_0. intros i. rewrite Z.land_spec.
  destruct (decide (8 <= i)); [by rewrite (testbit_high b 8), andb_false_r by lia|].
  destruct (decide (i < 0)); [by rewrite Z.testbit_neg_r by lia|]. by rewrite Z.shiftl_spec_low by lia.
Qed.

Lemma word16_lxor a b : is_byte b -> Z.lor (Z.shiftl a 8) b = Z.lxor (Z.shiftl a 8) b.
Proof. intros Hb. symmetry. apply Z.lxor_lor. by apply shiftl8_disjoint. Qed.

Lemma word16_add a b : is_byte b -> Z.lor (Z.shiftl a 8) b = 256 * a + b.
Proof.
  intros Hb. rewrite word16_lxor by done.
  rewrite <- Z.add_nocarry_lxor, Z.shiftl_mul_pow2 by (lia || by apply shiftl8_disjoint). lia.
Qed.

Lemma crc_shifts_add n m c : crc_shifts (n + m) c = crc_shifts n (crc_shifts m c).
Proof. apply Nat.iter_add. Qed.

(** Two bytes enter the register as one 16-bit word. *)
Lemma crc_two_bytes c a b : is_byte a -> is_byte b ->
  crc_byte (crc_byte c a) b = crc_shifts (8 + 8) (Z.lxor c (Z.lor (Z.shiftl a 8) b)).
Proof.
  intros Ha Hb. rewrite !crc_byte_shifts, <- (crc_shifts_byte b Hb) by done.
  by rewrite <- crc_shifts_lxor, crc_shifts_add, word16_lxor, Z.lxor_assoc by done.
Qed.

Lemma crc_fold_inj data a b : bytes_ok data -> 0 <= a < 2 ^ 16 -> 0 <= b < 2 ^ 16 ->
  fold_left crc_byte data a = fold_left crc_byte data b -> a = b.
Proof.
  intros Hd. revert a b. induction Hd as [|x l Hx _ IH]; intros a b Ha Hb; [done|]. simpl.
  intros H. apply IH in H; [|apply crc_byte_range..].
  rewrite !crc_byte_shifts in H by done.
  apply crc_shifts_inj in H; [|apply lxor_range; auto using shiftl8_range with lia..].
  assert (Z.lxor (Z.lxor a (Z.shiftl x 8)) (Z.shiftl x 8) = Z.lxor (Z.lxor b (Z.shiftl x 8)) (Z.shiftl x 8))
    as H' by (by rewrite H). by rewrite !lxor_cancel in H'.
Qed.

Lemma crc_fold_range data c : 0 <= c < 2 ^ 16 -> 0 <= fold_left crc_byte data c < 2 ^ 16.
Proof.
  revert c. induction data as [|x l IH]; intros c Hc; [done|]. apply IH, crc_byte_range.
Qed.

Lemma crc_ccitt_range data : 0 <= crc_ccitt data < 2 ^ 16.
Proof. apply crc_fold_range. lia. Qed.

Lemma word16_range a b : is_byte a -> is_byte b -> 0 <= Z.lor (Z.shiftl a 8) b < 2 ^ 16.
Proof. intros Ha Hb. apply lor_range; [lia|by apply shiftl8_range|unfold is_byte in Hb; lia]. Qed.

(** The residue law. *)
Lemma crc_residue msg hi lo : is_byte hi -> is_byte lo ->
  crc_ccitt (msg ++ [hi; lo]) = 0 <-> crc_ccitt msg = Z.lor (Z.shiftl hi 8) lo.
Proof.
  intros Hh Hl. unfold crc_ccitt at 1. rewrite fold_left_app. fold (crc_ccitt msg). simpl.
  rewrite crc_two_bytes by done. pose proof (crc_ccitt_range msg) as Hc.
  pose proof (word16_range hi lo Hh Hl) as Hw. split.
  - intros H. apply Z.lxor_eq. apply (crc_shifts_inj (8 + 8)); [by apply lxor_range|lia|].
    rewrite H. reflexivity.
  - intros ->. rewrite Z.lxor_nilpotent. reflexivity.
Qed.

(** A change confined to two adjacent bytes is always seen. *)
Lemma crc_burst pre post a b a' b' : bytes_ok post ->
  is_byte a -> is_byte b -> is_byte a' -> is_byte b' ->
  crc_ccitt (pre ++ [a; b] ++ post) = crc_ccitt (pre ++ [a'; b'] ++ post) ->
  Z.lor (Z.shiftl a 8) b = Z.lor (Z.shiftl a' 8) b'.
Proof.
  intros Hp Ha Hb Ha' Hb'. unfold crc_ccitt. rewrite !fold_left_app. fold (crc_ccitt pre). simpl.
  pose proof (crc_ccitt_range pre) as Hc.
  intros H%crc_fold_inj; [|done|apply crc_byte_range..].
  rewrite !crc_two_bytes in H by done.
  pose proof (word16_range a b Ha Hb). pose proof (word16_range a' b' Ha' Hb').
  apply crc_shifts_inj in H; [|by apply lxor_range..].
  rewrite !(Z.lxor_comm (crc_ccitt pre)) in H.
  rewrite <- (lxor_cancel (Z.lor _ b) (crc_ccitt pre)), H. apply lxor_cancel.
Qed.

Lemma word16_inj a b a' b' : is_byte a -> is_byte b -> is_byte a' -> is_byte b' ->
  Z.lor (Z.shiftl a 8) b = Z.lor (Z.shiftl a' 8) b' -> a = a' /\ b = b'.
Proof.
  intros Ha Hb Ha' Hb' H. rewrite !word16_add in H by done. unfold is_byte in *. lia.
Qed.

(** * Properties *)

(** The checksum of the data frames detects every error confined to
    two adjacent bytes, whatever precedes and follows them. *)
Theorem crc_detects_bursts (pre post : list Z) (a b a' b' : Z) :
  bytes_ok post -> is_byte a -> is_byte b -> is_byte a' -> is_byte b' -> (a, b) <> (a', b') ->
  crc_ccitt (pre ++ [a; b] ++ post) <> crc_ccitt (pre ++ [a'; b'] ++ post).
Proof.
  intros Hp Ha Hb Ha' Hb' Hne H%crc_burst; [|done..].
  apply word16_inj in H as [-> ->]; done.
Qed.

Lemma crc_detects_bursts_witness :
  crc_ccitt ([1; 2] ++ [3; 4] ++ [5]) <> crc_ccitt ([1; 2] ++ [3; 5] ++ [5]).
Proof. apply (crc_detects_bursts [1; 2] [5] 3 4 3 5); [eval_dec|eval_dec|eval_dec|eval_dec|eval_dec|done]. Defined.
