(* ===== verification/QpskDemod.v ===== *)
(** The symbol-level half of the demodulator, [src/qpsk_demod.c]: unique-word
    check, differential decoding and bit mapping, with the frame record the
    decoders consume. *)
From S2P Require Import Prelude CFloat.

(** * Data *)

(** [ir_direction_t] of [src/burst_downmix.h]. *)
Inductive ir_direction := DIR_UNDEF | DIR_DOWNLINK | DIR_UPLINK.

#[export] Instance ir_direction_eq_dec : EqDecision ir_direction.
Proof. solve_decision. Defined.

(** [demod_frame_t]: [bits] has one 0/1 byte per demodulated bit and [llr] is
    NULL unless soft decoding is on.  [n_bits] is the length of [bits], as
    [qpsk_demod] allocates them together. *)
Record demod_frame := DemodFrame {
  df_id : Z;
  df_timestamp : Z;
  df_center_frequency : f64;
  df_direction : ir_direction;
  df_magnitude : f32;
  df_noise : f32;
  df_confidence : Z;
  df_level : f32;
  df_n_symbols : Z;
  df_n_payload_symbols : Z;
  df_bits : list Z;
  df_llr : option (list f32);
}.

Definition df_n_bits (f : demod_frame) : nat := length (df_bits f).

(** Unique words and limits of [src/iridium.h] and [src/qpsk_demod.c]. *)
Definition IR_UW_LENGTH : nat := 12.
Definition IR_UW_DL : list Z := [0; 2; 2; 2; 2; 0; 0; 0; 2; 0; 0; 2].
Definition IR_UW_UL : list Z := [2; 2; 0; 0; 0; 2; 0; 0; 2; 0; 2; 2].
Definition UW_MAX_ERRORS : Z := 2.
Definition dqpsk_map : list Z := [0; 2; 3; 1].

(** * Operations *)

(** [decode_dqpsk]: in-place differential decode, state [old_sym]. *)
Fixpoint decode_dqpsk_from (old_sym : Z) (symbols : list Z) : list Z :=
  match symbols with
  | [] => []
  | s :: rest =>
      let diff := Z.rem (s - old_sym + 4) 4 in
      dqpsk_map.[Z.to_nat diff] :: decode_dqpsk_from s rest
  end.
Definition decode_dqpsk (symbols : list Z) : list Z := decode_dqpsk_from 0 symbols.

(** [check_sync_word]: accumulated symbol distance to the unique word, a
    three-step difference counting as one step the other way. *)
Definition sym_dist (s u : Z) : Z :=
  let diff := Z.abs (s - u) in if diff =? 3 then 1 else diff.

Definition uw_of (direction : ir_direction) : list Z :=
  match direction with DIR_DOWNLINK => IR_UW_DL | _ => IR_UW_UL end.

Definition check_sync_word (symbols : list Z) (n : nat) (direction : ir_direction) : bool :=
  if (n <? IR_UW_LENGTH)%nat then false
  else
    let diffs := fold_left (fun acc i => acc + sym_dist (symbols.[i]) ((uw_of direction).[i]))
                           (seq 0 IR_UW_LENGTH) 0 in
    diffs <=? UW_MAX_ERRORS.

(** [map_symbols_to_bits]: MSB then LSB of each symbol. *)
Definition map_symbols_to_bits (symbols : list Z) : list Z :=
  flat_map (fun s => [Z.land (Z.shiftr s 1) 1; Z.land s 1]) symbols.

(** The hard-decision branch of step 4 of [qpsk_demod]: the new direction,
    or [None] when neither unique word is close enough. *)
Definition hard_direction (symbols : list Z) (n : nat) (dir : ir_direction) : option ir_direction :=
  let dl_ok := check_sync_word symbols n DIR_DOWNLINK in
  let ul_ok := check_sync_word symbols n DIR_UPLINK in
  if negb dl_ok && negb ul_ok then None
  else if ul_ok && negb dl_ok then Some DIR_UPLINK
  else if dl_ok && negb ul_ok then Some DIR_DOWNLINK
  else Some dir.

(** * Reference definitions *)

(** A QPSK symbol is a quadrant number. *)
Definition is_sym (s : Z) : Prop := 0 <= s < 4.

(** The modulator's side: the phase step that decodes to a given symbol. *)
Definition dqpsk_step (s : Z) : Z := [0; 3; 1; 2].[Z.to_nat s].

Fixpoint encode_dqpsk_from (phase : Z) (data : list Z) : list Z :=
  match data with
  | [] => []
  | s :: rest =>
      let p := (phase + dqpsk_step s) mod 4 in p :: encode_dqpsk_from p rest
  end.

(** Cyclic distance of two quadrant strings, the metric of the check. *)
Definition uw_distance (a b : list Z) : Z :=
  fold_left Z.add (zip_with sym_dist a b) 0.

(** * Lemmas *)

Lemma is_sym_cases s : is_sym s -> s = 0 \/ s = 1 \/ s = 2 \/ s = 3.
Proof. unfold is_sym. lia. Qed.

Ltac sym_cases H := apply is_sym_cases in H as [-> | [-> | [-> | ->]]].

Lemma decode_step phase s : is_sym phase -> is_sym s ->
  dqpsk_map.[Z.to_nat (Z.rem ((phase + dqpsk_step s) mod 4 - phase + 4) 4)] = s.
Proof. intros Hp Hs. sym_cases Hp; sym_cases Hs; reflexivity. Qed.

Lemma decode_encode_from data phase : is_sym phase -> Forall is_sym data ->
  decode_dqpsk_from phase (encode_dqpsk_from phase data) = data.
Proof.
  intros Hp Hd. revert phase Hp. induction Hd as [|s data Hs _ IH]; intros phase Hp; [done|].
  cbn [encode_dqpsk_from decode_dqpsk_from]. rewrite decode_step by done. f_equal.
  apply IH. split; apply Z.mod_pos_bound; lia.
Qed.

Lemma rotate_step s old k : is_sym s -> is_sym old -> is_sym k ->
  Z.rem ((s + k) mod 4 - (old + k) mod 4 + 4) 4 = Z.rem (s - old + 4) 4.
Proof. intros Hs Ho Hk. sym_cases Hs; sym_cases Ho; sym_cases Hk; reflexivity. Qed.

Lemma decode_rotate_from l old k : is_sym old -> is_sym k -> Forall is_sym l ->
  decode_dqpsk_from ((old + k) mod 4) (map (fun s => (s + k) mod 4) l) = decode_dqpsk_from old l.
Proof.
  intros Ho Hk Hl. revert old Ho. induction Hl as [|s l Hs _ IH]; intros old Ho; [done|].
  cbn [map decode_dqpsk_from]. by rewrite rotate_step, IH by done.
Qed.

Lemma length_map_symbols_to_bits l : length (map_symbols_to_bits l) = (2 * length l)%nat.
Proof. induction l as [|s l IH]; [done|]. simpl. rewrite IH. lia. Qed.

Lemma map_symbols_bits_ok l : bits_ok (map_symbols_to_bits l).
Proof.
  induction l as [|s l IH]; [constructor|]. simpl.
  constructor; [apply is_bit_land|]. constructor; [apply is_bit_land|done].
Qed.

Lemma length_decode_dqpsk l : length (decode_dqpsk l) = length l.
Proof.
  unfold decode_dqpsk. generalize 0. induction l as [|s l IH]; intros o; simpl; [done|].
  by rewrite IH.
Qed.

(** The check's loop is the distance to the first twelve symbols. *)
Lemma check_sync_word_distance l dir : (IR_UW_LENGTH <= length l)%nat ->
  check_sync_word l (length l) dir =
  (uw_distance (take IR_UW_LENGTH l) (uw_of dir) <=? UW_MAX_ERRORS).
Proof.
  unfold check_sync_word, IR_UW_LENGTH. intros Hl.
  replace (length l <? 12)%nat with false by (symmetry; apply Nat.ltb_ge; lia).
  assert (exists m r, l = m ++ r /\ length m = 12%nat) as (m & r & -> & Hm).
  { exists (take 12 l), (drop 12 l). rewrite take_drop, length_take. split; [done|lia]. }
  rewrite take_app_length' by done. clear Hl. explode_list m. destruct dir; cbv -[sym_dist Z.add Z.leb]; reflexivity.
Qed.

Lemma sym_dist_triangle a b c : is_sym a -> is_sym b -> is_sym c ->
  sym_dist b c <= sym_dist a b + sym_dist a c.
Proof. intros Ha Hb Hc. sym_cases Ha; sym_cases Hb; sym_cases Hc; vm_compute; discriminate. Qed.

Lemma fold_add_acc l x : fold_left Z.add l x = x + fold_left Z.add l 0.
Proof.
  revert x. induction l as [|a l IH]; intros x; simpl; [lia|].
  rewrite (IH (x + a)), (IH (0 + a)). lia.
Qed.

Lemma uw_distance_cons a l b m : uw_distance (a :: l) (b :: m) = sym_dist a b + uw_distance l m.
Proof. unfold uw_distance. simpl. by rewrite fold_add_acc. Qed.

Lemma uw_distance_triangle l b c : Forall is_sym l -> Forall is_sym b -> Forall is_sym c ->
  length l = length b -> length b = length c ->
  uw_distance b c <= uw_distance l b + uw_distance l c.
Proof.
  intros Hl. revert b c. induction Hl as [|x l Hx _ IH]; intros [|y b] [|z c] Hb Hc ? ?;
    simplify_eq/=; [done|].
  inversion_clear Hb. inversion_clear Hc. rewrite !uw_distance_cons.
  pose proof (sym_dist_triangle x y z) as Ht. specialize (IH b c). intuition lia.
Qed.

Lemma uw_syms : Forall is_sym IR_UW_DL /\ Forall is_sym IR_UW_UL.
Proof. unfold is_sym. split; repeat constructor; lia. Qed.

(** * Properties *)

(** The differential decoder inverts the modulator: whatever
    symbols were sent, decoding the transmitted phases yields them back. *)
Theorem decode_dqpsk_encode (data : list Z) : Forall is_sym data ->
  decode_dqpsk (encode_dqpsk_from 0 data) = data.
Proof. intros Hd. by apply decode_encode_from. Qed.

Lemma decode_dqpsk_encode_witness :
  decode_dqpsk (encode_dqpsk_from 0 [3; 1; 0; 2; 2]) = [3; 1; 0; 2; 2].
Proof. apply decode_dqpsk_encode. unfold is_sym. repeat constructor; lia. Defined.

(** Phase ambiguity does not reach the payload: rotating every
    received quadrant by the same amount changes only the first decoded symbol. *)
Theorem decode_dqpsk_rotation (s k : Z) (l : list Z) : is_sym s -> is_sym k -> Forall is_sym l ->
  tail (decode_dqpsk (map (fun s => (s + k) mod 4) (s :: l))) = tail (decode_dqpsk (s :: l)).
Proof. intros Hs Hk Hl. unfold decode_dqpsk. simpl. by apply decode_rotate_from. Qed.

Lemma decode_dqpsk_rotation_witness :
  tail (decode_dqpsk (map (fun s => (s + 1) mod 4) [2; 0; 3; 3])) = tail (decode_dqpsk [2; 0; 3; 3]).
Proof. apply decode_dqpsk_rotation; unfold is_sym; repeat constructor; lia. Defined.

(** The two unique words are too far apart to be confused: no
    received burst passes the hard check for both directions, so the decision
    never falls through to the direction the burst came in with. *)
Theorem sync_words_exclusive (l : list Z) : Forall is_sym l ->
  check_sync_word l (length l) DIR_DOWNLINK && check_sync_word l (length l) DIR_UPLINK = false.
Proof.
  intros Hl. destruct (decide (IR_UW_LENGTH <= length l)%nat) as [Hlen|Hlen].
  - rewrite !check_sync_word_distance by done.
    assert (length (take IR_UW_LENGTH l) = 12%nat) as Ht
      by (rewrite length_take; unfold IR_UW_LENGTH in *; lia).
    pose proof (uw_distance_triangle (take IR_UW_LENGTH l) IR_UW_DL IR_UW_UL
      (Forall_take _ _ _ Hl) (proj1 uw_syms) (proj2 uw_syms) Ht eq_refl) as Htri.
    change (uw_distance IR_UW_DL IR_UW_UL) with 12 in Htri.
    unfold uw_of, UW_MAX_ERRORS. zguards; done.
  - unfold check_sync_word.
    by replace (length l <? IR_UW_LENGTH)%nat with true by (symmetry; apply Nat.ltb_lt; lia).
Qed.

Lemma sync_words_exclusive_witness :
  check_sync_word IR_UW_DL 12 DIR_DOWNLINK && check_sync_word IR_UW_DL 12 DIR_UPLINK = false.
Proof. apply (sync_words_exclusive IR_UW_DL). apply uw_syms. Defined.
