(* ===== verification/FrameDecode.v ===== *)
(** The IRA/IBC frame decoder, [src/frame_decode.c]: de-interleaving, BCH
    correction and parity of the 32-bit blocks, field extraction of ring
    alerts (IRA) and broadcasts (IBC), and the dispatch between the two.

    The static syndrome tables are the record [tables], which
    [frame_decode_init] fills once at start-up; [atan2] of libm is a
    parameter.  Uninitialised output buffers of the C code are the [None]
    results of the model: no caller reads them. *)
From S2P Require Import Prelude CFloat Bch QpskDemod.

(** * Data *)

Definition BCH_POLY_RA : Z := 1207.
Definition BCH_POLY_HDR : Z := 29.
Definition BCH_RA_DATA : nat := 21.

Definition access_dl : list Z :=
  [0;0;1;1;0;0;0;0;0;0;1;1;0;0;0;0;1;1;1;1;0;0;1;1].
Definition access_ul : list Z :=
  [1;1;0;0;1;1;0;0;0;0;1;1;1;1;0;0;1;1;1;1;1;1;0;0].

(** The static tables [syn_ra] and [syn_hdr]. *)
Record tables := Tables { syn_ra : list syn_entry; syn_hdr : list syn_entry }.

Definition frame_decode_init : tables := {|
  syn_ra := build_syndrome_table BCH_POLY_RA 31 2 1024;
  syn_hdr := build_syndrome_table BCH_POLY_HDR 7 1 16;
|}.

Inductive frame_type := FRAME_UNKNOWN | FRAME_IRA | FRAME_IBC.

Record page := Page { tmsi : Z; msc_id : Z }.

(** [ira_data_t]; [pages] is the fixed array of 12 entries. *)
Record ira_data := IraData {
  ira_sat_id : Z;
  ira_beam_id : Z;
  ira_lat : f64;
  ira_lon : f64;
  ira_alt : Z;
  ira_pos_xyz : Z * Z * Z;
  ira_n_pages : nat;
  ira_pages : list page;
}.

Record ibc_data := IbcData {
  ibc_sat_id : Z;
  ibc_beam_id : Z;
  ibc_timeslot : Z;
  ibc_sv_blocking : Z;
  ibc_bc_type : Z;
  ibc_iri_time : Z;
}.

(** The union of [decoded_frame_t]; [NoBody] is the zeroed union. *)
Inductive frame_body := NoBody | BodyIra (ira : ira_data) | BodyIbc (ibc : ibc_data).

Record decoded_frame := DecodedFrame {
  fr_type : frame_type;
  fr_timestamp : Z;
  fr_frequency : f64;
  fr_body : frame_body;
}.

(** [memset(ira, 0, ...)] and [memset(ibc, 0, ...)]. *)
Definition ira_zero : ira_data :=
  IraData 0 0 (S754_zero false) (S754_zero false) 0 (0, 0, 0) 0 (replicate 12 (Page 0 0)).
Definition ibc_zero : ibc_data := IbcData 0 0 0 0 0 0.

(** * De-interleaving *)

(** Symbols [s] of [in], two elements each, in loop order. *)
Definition pick_symbols {A} `{Inhabited A} (inp : list A) (syms : list Z) : list A :=
  flat_map (fun s => [inp !!! Z.to_nat (2 * s); inp !!! Z.to_nat (2 * s + 1)]) syms.

Definition de_interleave {A} `{Inhabited A} (inp : list A) : list A * list A :=
  (pick_symbols inp (down_range 31 1 2), pick_symbols inp (down_range 30 0 2)).

Definition de_interleave3 {A} `{Inhabited A} (inp : list A) : list A * list A * list A :=
  (pick_symbols inp (down_range 47 2 3),
   pick_symbols inp (down_range 46 1 3),
   pick_symbols inp (down_range 45 0 3)).

(** The soft values follow the same permutation. *)
Definition de_interleave_llr (inp : list f32) : list f32 * list f32 := de_interleave inp.

(** * Block decoding *)

(** [chase_bch_decode_p]: [None] is the -1 result; the soft values are not
    consulted for IRA/IBC. *)
Definition chase_bch_decode_p (tbl : tables) (block32 : list Z) (llr32 : option (list f32))
    : option (Z * list Z * list Z) :=
  let val := bits_to_uint block32 31 in
  let syndrome := gf2_remainder BCH_POLY_RA val in
  if syndrome =? 0 then
    Some (0, uint_to_bits (Z.shiftr val 10) BCH_RA_DATA, uint_to_bits (Z.land val 0x3FF) 10)
  else
    match syn_lookup (syn_ra tbl) syndrome with
    | Some e =>
        let val := Z.lxor val (locator e) in
        Some (errs e, uint_to_bits (Z.shiftr val 10) BCH_RA_DATA,
              uint_to_bits (Z.land val 0x3FF) 10)
    | None => None
    end.

(** [check_parity32]: data, check and parity bits have even weight. *)
Definition check_parity32 (block32 bch_data bch_check : list Z) : bool :=
  let ones := fold_left Z.add bch_data 0 in
  let ones := fold_left Z.add bch_check ones in
  let ones := ones + block32.[31] in
  Z.rem ones 2 =? 0.

(** * Field extraction *)

Definition extract_uint (bits : list Z) (n : nat) : Z :=
  fold_left (fun val b => Z.lor (Z.shiftl val 1) b) (take n bits) 0.

Definition extract_signed12 (bits : list Z) : Z :=
  let sign := bits.[0] in
  let mag := fold_left (fun m b => Z.lor (Z.shiftl m 1) b) (take 11 (drop 1 bits)) 0 in
  if negb (sign =? 0) then mag - Z.shiftl 1 11 else mag.

(** [(tmsi << 1) | bit] on [uint32_t], MSB first. *)
Definition extract_u32 (bits : list Z) (n : nat) : Z :=
  fold_left (fun v b => Z.lor (u32 (Z.shiftl v 1)) b) (take n bits) 0.

Definition all_ones (page : list Z) : bool := forallb (fun b => negb (b =? 0)) (take 42 page).

(** The paging loop of [parse_ira]; at most 12 pages fit. *)
Fixpoint parse_pages (fuel : nat) (bch_data : list Z) (offset n_pages : nat) (pages : list page)
    : nat * list page :=
  match fuel with
  | O => (n_pages, pages)
  | S fuel =>
      if (offset + 42 <=? length bch_data)%nat && (n_pages <? 12)%nat then
        let pg := drop offset bch_data in
        if all_ones pg then (n_pages, pages)
        else
          let entry := Page (extract_u32 pg 32) (extract_uint (drop 34 pg) 5) in
          parse_pages fuel bch_data (offset + 42) (n_pages + 1) (<[n_pages := entry]> pages)
      else (n_pages, pages)
  end.

Section decode.
Variable atan2 : f64 -> f64 -> f64.

Definition rad_to_deg (x : f64) : f64 := f64_div (f64_mul x (f64_of_Z 180)) M_PI.

Definition parse_ira (bch_data : list Z) : ira_data :=
  if (length bch_data <? 63)%nat then ira_zero
  else
    let pos_x := extract_signed12 (drop 13 bch_data) in
    let pos_y := extract_signed12 (drop 25 bch_data) in
    let pos_z := extract_signed12 (drop 37 bch_data) in
    let sq v := f64_mul (f64_of_Z v) (f64_of_Z v) in
    let xy := f64_sqrt (f64_add (sq pos_x) (sq pos_y)) in
    let r := f64_sqrt (f64_add (f64_add (sq pos_x) (sq pos_y)) (sq pos_z)) in
    let '(n_pages, pages) := parse_pages 13 bch_data 63 0 (ira_pages ira_zero) in
    {| ira_sat_id := extract_uint bch_data 7;
       ira_beam_id := extract_uint (drop 7 bch_data) 6;
       ira_lat := rad_to_deg (atan2 (f64_of_Z pos_z) xy);
       ira_lon := rad_to_deg (atan2 (f64_of_Z pos_y) (f64_of_Z pos_x));
       ira_alt := f64_trunc (f64_mul r (f64_of_Z 4)) - 6378 + 23;
       ira_pos_xyz := (pos_x, pos_y, pos_z);
       ira_n_pages := n_pages;
       ira_pages := pages |}.

Definition parse_ibc (bch_data : list Z) (hdr_type : Z) : ibc_data :=
  if (length bch_data <? 42)%nat then IbcData 0 0 0 0 hdr_type 0
  else
    let iri_time :=
      if (84 <=? length bch_data)%nat then
        let type := extract_uint (drop 42 bch_data) 6 in
        if type =? 1 then extract_u32 (drop 52 bch_data) 32 else 0
      else 0 in
    {| ibc_sat_id := extract_uint bch_data 7;
       ibc_beam_id := extract_uint (drop 7 bch_data) 6;
       ibc_timeslot := bch_data.[14];
       ibc_sv_blocking := bch_data.[15];
       ibc_bc_type := hdr_type;
       ibc_iri_time := iri_time |}.

(** * The frame decoder *)

(** One 64-bit block: de-interleave, correct both halves, check parity. *)
Definition decode_pair (tbl : tables) (blk : list Z) (llr : option (list f32)) : option (list Z) :=
  let '(di1, di2) := de_interleave blk in
  let li1 := (fun l => fst (de_interleave_llr l)) <$> llr in
  let li2 := (fun l => snd (de_interleave_llr l)) <$> llr in
  match chase_bch_decode_p tbl di1 li1, chase_bch_decode_p tbl di2 li2 with
  | Some (_, d1, rc1), Some (_, d2, rc2) =>
      if check_parity32 di1 d1 rc1 && check_parity32 di2 d2 rc2 then Some (d1 ++ d2) else None
  | _, _ => None
  end.

(** The remaining 64-bit blocks, up to bit [limit] of [data] and [cap] bits
    of [bch_stream]; the loop stops at the first block that fails. *)
Fixpoint more_blocks (fuel : nat) (tbl : tables) (data : list Z) (llr : option (list f32))
    (offset limit cap : nat) (bch_stream : list Z) : list Z :=
  match fuel with
  | O => bch_stream
  | S fuel =>
      if (offset + 64 <=? limit)%nat && (length bch_stream + 2 * BCH_RA_DATA <=? cap)%nat then
        match decode_pair tbl (drop offset data) (drop offset <$> llr) with
        | Some d => more_blocks fuel tbl data llr (offset + 64) limit cap (bch_stream ++ d)
        | None => bch_stream
        end
      else bch_stream
  end.

(** Header of an IBC: BCH(7,3) on 6 received bits; [None] if uncorrectable. *)
Definition ibc_header (tbl : tables) (data : list Z) : option (list Z) :=
  let hdr_val := bits_to_uint data 6 in
  let hdr_syn := gf2_remainder BCH_POLY_HDR hdr_val in
  if hdr_syn =? 0 then Some (uint_to_bits (Z.shiftr hdr_val 4) 3)
  else match syn_lookup (syn_hdr tbl) hdr_syn with
       | Some e => Some (uint_to_bits (Z.shiftr (Z.lxor hdr_val (locator e)) 4) 3)
       | None => None
       end.

Definition beam_ok (beam_id : Z) : bool := negb ((beam_id <? 1) || (48 <? beam_id)).

Definition set_body (out : decoded_frame) (ty : frame_type) (b : frame_body) : decoded_frame :=
  DecodedFrame ty (fr_timestamp out) (fr_frequency out) b.

(** The IBC attempt: [Some] when the C function returns from it. *)
Definition try_ibc (tbl : tables) (data : list Z) (llr : option (list f32)) (out : decoded_frame)
    : option (bool * decoded_frame) :=
  if (6 + 64 <=? length data)%nat then
    match ibc_header tbl data with
    | Some hdr_data =>
        match decode_pair tbl (drop 6 data) (drop 6 <$> llr) with
        | Some d =>
            let bc_type := extract_uint hdr_data 3 in
            let ibc_max := Nat.min (length data) 262 in
            let bch_stream := more_blocks (length data) tbl data llr (6 + 64) ibc_max 256 d in
            let ibc := parse_ibc bch_stream bc_type in
            Some (beam_ok (ibc_beam_id ibc), set_body out FRAME_IBC (BodyIbc ibc))
        | None => None
        end
    | None => None
    end
  else None.

Definition try_ira (tbl : tables) (data : list Z) (llr : option (list f32)) (out : decoded_frame)
    : option (bool * decoded_frame) :=
  if (96 <=? length data)%nat then
    let '(ra1, ra2, ra3) := de_interleave3 data in
    let la := de_interleave3 <$> llr in
    match chase_bch_decode_p tbl ra1 ((fun l => fst (fst l)) <$> la),
          chase_bch_decode_p tbl ra2 ((fun l => snd (fst l)) <$> la),
          chase_bch_decode_p tbl ra3 (snd <$> la) with
    | Some (_, d1, c1), Some (_, d2, c2), Some (_, d3, c3) =>
        if check_parity32 ra1 d1 c1 && check_parity32 ra2 d2 c2 && check_parity32 ra3 d3 c3 then
          let bch_stream := more_blocks (length data) tbl data llr 96 (length data) 512
                                        (d1 ++ d2 ++ d3) in
          let ira := parse_ira bch_stream in
          Some (beam_ok (ira_beam_id ira), set_body out FRAME_IRA (BodyIra ira))
        else None
    | _, _, _ => None
    end
  else None.

(** [frame_decode]: the int result and [*out]. *)
Definition frame_decode (tbl : tables) (frame : demod_frame) : bool * decoded_frame :=
  let out := DecodedFrame FRAME_UNKNOWN (df_timestamp frame) (df_center_frequency frame) NoBody in
  if (df_n_bits frame <? 24)%nat then (false, out)
  else
    let is_dl := bool_decide (take 24 (df_bits frame) = access_dl) in
    let is_ul := bool_decide (take 24 (df_bits frame) = access_ul) in
    if negb is_dl && negb is_ul then (false, out)
    else
      let data := drop 24 (df_bits frame) in
      let data_llr := drop 24 <$> df_llr frame in
      match try_ibc tbl data data_llr out with
      | Some r => r
      | None =>
          match try_ira tbl data data_llr out with
          | Some r => r
          | None => (false, out)
          end
      end.
End decode.

(** * The transmitter's side *)

Definition ra_code : bch_code := BchCode BCH_POLY_RA 31 10 2 2 (syn_ra frame_decode_init).
Definition hdr_code : bch_code := BchCode BCH_POLY_HDR 7 4 1 1 (syn_hdr frame_decode_init).

#[global] Typeclasses Opaque ra_code hdr_code.
#[global] Arguments frame_decode_init : simpl never.

(** Inverse permutations of the de-interleavers. *)
Definition interleave {A} `{Inhabited A} (a b : list A) : list A :=
  flat_map (fun s => if Nat.odd s then [a !!! (31 - s)%nat; a !!! (32 - s)%nat]
                     else [b !!! (30 - s)%nat; b !!! (31 - s)%nat]) (seq 0 32).

Definition interleave3 {A} `{Inhabited A} (a b c : list A) : list A :=
  flat_map (fun s =>
    let k := (2 * ((47 - s) / 3))%nat in
    match (s mod 3)%nat with
    | 2%nat => [a !!! k; a !!! S k]
    | 1%nat => [b !!! k; b !!! S k]
    | _ => [c !!! k; c !!! S k]
    end) (seq 0 48).

(** A block of 21 data bits as sent, with the positions [ps] (bit numbers of
    the 31-bit word) flipped on the way; the parity bit covers the sent word. *)
Definition parity_of (w : Z) : Z := fold_left Z.add (uint_to_bits w 31) 0 mod 2.
Definition tx_block (d : list Z) (ps : list nat) : list Z :=
  let w := bch_encode ra_code (bval d) in
  uint_to_bits (Z.lxor w (err_mask ps)) 31 ++ [parity_of w].

(** Data bits and flips of one block, within the code's radius. *)
Definition tx_ok (b : list Z * list nat) : Prop :=
  bits_ok (fst b) /\ length (fst b) = BCH_RA_DATA /\ err_pattern 31 2 (snd b).

Definition tx (b : list Z * list nat) : list Z := tx_block (fst b) (snd b).
Definition tx_pair (p : (list Z * list nat) * (list Z * list nat)) : list Z :=
  interleave (tx (fst p)) (tx (snd p)).
Definition pair_data (p : (list Z * list nat) * (list Z * list nat)) : list Z :=
  fst (fst p) ++ fst (snd p).

(** * Lemmas *)

#[export] Instance ra_code_ok : BchOk ra_code.
Proof. bch_eval. Qed.
#[export] Instance hdr_code_ok : BchOk hdr_code.
Proof. bch_eval. Qed.

Lemma chase_is_correct block llr :
  chase_bch_decode_p frame_decode_init block llr =
  match bch_correct ra_code (bits_to_uint block 31) with
  | Some (n, w) => Some (n, uint_to_bits (Z.shiftr w 10) BCH_RA_DATA, uint_to_bits (Z.land w 0x3FF) 10)
  | None => None
  end.
Proof.
  unfold chase_bch_decode_p, bch_correct. change (cpoly ra_code) with BCH_POLY_RA.
  change (ctable ra_code) with (syn_ra frame_decode_init).
  destruct (_ =? 0); [done|]. by destruct (syn_lookup _ _).
Qed.

Lemma fold_add_app l m x : fold_left Z.add m (fold_left Z.add l x) = fold_left Z.add (l ++ m) x.
Proof. by rewrite fold_left_app. Qed.

Lemma fold_add_nonneg l x : bits_ok l -> 0 <= x -> 0 <= fold_left Z.add l x.
Proof.
  intros Hl. revert x. induction Hl as [|b l Hb _ IH]; intros x Hx; simpl; [done|].
  apply IH. apply is_bit_range in Hb. lia.
Qed.

Lemma split_31 w :
  uint_to_bits (Z.shiftr w 10) BCH_RA_DATA ++ uint_to_bits (Z.land w 0x3FF) 10 = uint_to_bits w 31.
Proof.
  change 31%nat with (BCH_RA_DATA + 10)%nat. rewrite uint_to_bits_app. f_equal.
  rewrite (uint_to_bits_mod w 10). change 0x3FF with (Z.ones 10). by rewrite Z.land_ones by lia.
Qed.

Lemma ra_encode_spec data : 0 <= data < 2 ^ Z.of_nat BCH_RA_DATA ->
  gf2_remainder (cpoly ra_code) (bch_encode ra_code data) = 0 /\
  0 <= bch_encode ra_code data < 2 ^ Z.of_nat 31 /\
  Z.shiftr (bch_encode ra_code data) 10 = data.
Proof. intros Hd. apply (bch_encode_spec (c:=ra_code)); [cbn; lia|exact Hd]. Qed.

(** A sent block, flipped in at most two places, is decoded and passes parity. *)
Lemma tx_decode b llr : tx_ok b ->
  exists c, chase_bch_decode_p frame_decode_init (tx b) llr =
              Some (Z.of_nat (length (snd b)), fst b, c) /\
            check_parity32 (tx b) (fst b) c = true.
Proof.
  destruct b as [d ps]. intros (Hd & Hlen & Hps). simpl in *.
  pose proof (bval_range d Hd) as Hr. rewrite Hlen in Hr.
  destruct (ra_encode_spec (bval d) Hr) as (Hcw & Hw & Hsh).
  set (w := bch_encode ra_code (bval d)) in *.
  destruct Hps as [Hnd [Hlt Hle]]. pose proof (err_mask_range _ _ Hlt) as Hm.
  pose proof (lxor_range w (err_mask ps) (Z.of_nat 31) ltac:(lia) Hw Hm) as Hx.
  exists (uint_to_bits (Z.land w 0x3FF) 10). unfold tx, tx_block. cbn [fst snd]. fold w.
  rewrite chase_is_correct, bits_to_uint_bval; [|rewrite take_uint_bits; apply uint_to_bits_ok|lia].
  rewrite take_uint_bits.
  rewrite (bval_uint_small _ _ Hx), (bch_correct_pattern w ps Hcw) by (split; [exact Hnd|split; [exact Hlt|exact Hle]]).
  split.
  - by rewrite Hsh, <- Hlen, uint_to_bits_bval.
  - unfold check_parity32, rd. rewrite app_nth2, length_uint_to_bits by
      (rewrite length_uint_to_bits; lia). simpl nth.
    rewrite fold_add_app. rewrite <- (uint_to_bits_bval d Hd) at 1. rewrite Hlen, <- Hsh, split_31.
    unfold parity_of. pose proof (fold_add_nonneg _ 0 (uint_to_bits_ok w 31) ltac:(lia)).
    apply Z.eqb_eq. rewrite Z.rem_mod_nonneg by (Z.div_mod_to_equations; lia).
    Z.div_mod_to_equations. lia.
Qed.

Lemma length_tx b : length (tx b) = 32%nat.
Proof. unfold tx, tx_block. by rewrite length_app, length_uint_to_bits. Qed.

Section permutations.
Context {A : Type} `{Inhabited A}.

Lemma de_interleave_interleave (a b rest : list A) : length a = 32%nat -> length b = 32%nat ->
  de_interleave (interleave a b ++ rest) = (a, b).
Proof. intros Ha Hb. explode_list a. explode_list b. reflexivity. Qed.

Lemma interleave_de_interleave (l : list A) : length l = 64%nat ->
  interleave (fst (de_interleave l)) (snd (de_interleave l)) = l.
Proof. intros Hl. explode_list l. reflexivity. Qed.

Lemma de_interleave3_interleave3 (a b c rest : list A) :
  length a = 32%nat -> length b = 32%nat -> length c = 32%nat ->
  de_interleave3 (interleave3 a b c ++ rest) = (a, b, c).
Proof. intros Ha Hb Hc. explode_list a. explode_list b. explode_list c. reflexivity. Qed.

Lemma interleave3_de_interleave3 (l : list A) : length l = 96%nat ->
  let '(a, b, c) := de_interleave3 l in interleave3 a b c = l.
Proof. intros Hl. explode_list l. reflexivity. Qed.

Lemma length_interleave (a b : list A) : length (interleave a b) = 64%nat.
Proof. reflexivity. Qed.
Lemma length_interleave3 (a b c : list A) : length (interleave3 a b c) = 96%nat.
Proof. reflexivity. Qed.
End permutations.

Lemma decode_pair_tx p rest llr : tx_ok (fst p) -> tx_ok (snd p) ->
  decode_pair frame_decode_init (tx_pair p ++ rest) llr = Some (pair_data p).
Proof.
  intros H1 H2. unfold decode_pair, tx_pair.
  rewrite de_interleave_interleave by apply length_tx.
  destruct (tx_decode (fst p) ((fun l => fst (de_interleave_llr l)) <$> llr) H1) as (c1 & -> & P1).
  destruct (tx_decode (snd p) ((fun l => snd (de_interleave_llr l)) <$> llr) H2) as (c2 & -> & P2).
  by rewrite P1, P2.
Qed.

Lemma length_tx_pair p : length (tx_pair p) = 64%nat.
Proof. unfold tx_pair. apply length_interleave. Qed.

Lemma length_pair_data p : tx_ok (fst p) -> tx_ok (snd p) -> length (pair_data p) = 42%nat.
Proof. intros (_ & H1 & _) (_ & H2 & _). unfold pair_data. by rewrite length_app, H1, H2. Qed.

(** The block loop reads every sent pair below [limit]. *)
Lemma more_blocks_tx ps pre post llr limit cap stream fuel :
  Forall (fun p => tx_ok (fst p) /\ tx_ok (snd p)) ps ->
  (length pre + 64 * length ps <= limit < length pre + 64 * length ps + 64)%nat ->
  (length stream + 42 * length ps <= cap)%nat -> (length ps < fuel)%nat ->
  more_blocks fuel frame_decode_init (pre ++ concat (map tx_pair ps) ++ post) llr
    (length pre) limit cap stream = stream ++ concat (map pair_data ps).
Proof.
  intros Hps. revert pre stream fuel.
  induction Hps as [|p ps [H1 H2] Hps IH]; intros pre stream fuel Hlim Hcap Hfuel.
  - destruct fuel as [|fuel]; [simpl in Hfuel; lia|]. simpl in Hlim.
    cbn [more_blocks map concat app]. rewrite app_nil_r.
    by replace (length pre + 64 <=? limit)%nat with false by (symmetry; apply Nat.leb_gt; lia).
  - destruct fuel as [|fuel]; [lia|]. simpl in Hcap, Hfuel, Hlim. cbn [more_blocks].
    specialize (IH (pre ++ tx_pair p) (stream ++ pair_data p) fuel).
    cbn [map concat]. rewrite <- !app_assoc in *.
    replace (_ <=? limit)%nat with true by (symmetry; apply Nat.leb_le; lia).
    replace (_ <=? cap)%nat with true by (symmetry; apply Nat.leb_le; unfold BCH_RA_DATA; lia).
    cbn [andb]. rewrite drop_app_length, decode_pair_tx by done.
    rewrite !length_app, length_tx_pair, length_pair_data in IH by done.
    apply IH; lia.
Qed.

Lemma length_concat_tx_pairs ps : length (concat (map tx_pair ps)) = (64 * length ps)%nat.
Proof.
  induction ps as [|p ps IH]; [done|]. cbn [map concat length].
  rewrite length_app, length_tx_pair, IH. lia.
Qed.

(** ** Field extraction *)

Lemma extract_uint_bval l n : bits_ok l -> extract_uint l n = bval (take n l).
Proof. intros Hl. apply shift_or_bval; [lia|]. by apply Forall_take. Qed.

Lemma extract_u32_bval l n : bits_ok l -> (n <= 32)%nat -> extract_u32 l n = bval (take n l).
Proof.
  intros Hl Hn. apply shift_or_u32_bval; [by apply Forall_take|]. rewrite length_take. lia.
Qed.

(** Reading back an [n]-bit field in front of anything. *)
Lemma extract_uint_field v n rest : bits_ok rest -> 0 <= v < 2 ^ Z.of_nat n ->
  extract_uint (uint_to_bits v n ++ rest) n = v.
Proof.
  intros Hr Hv. rewrite extract_uint_bval.
  - rewrite take_uint_bits. by apply bval_uint_small.
  - apply Forall_app. split; [apply uint_to_bits_ok|done].
Qed.

Lemma extract_u32_field v rest : bits_ok rest -> 0 <= v < 2 ^ 32 ->
  extract_u32 (uint_to_bits v 32 ++ rest) 32 = v.
Proof.
  intros Hr Hv. rewrite extract_u32_bval; [|apply Forall_app; split; [apply uint_to_bits_ok|done]|lia].
  rewrite take_uint_bits. by apply bval_uint_small.
Qed.

Lemma extract_uint_range l n : bits_ok l -> 0 <= extract_uint l n < 2 ^ Z.of_nat n.
Proof.
  intros Hl. rewrite extract_uint_bval by done.
  pose proof (bval_range _ (Forall_take _ n l Hl)) as Hb. rewrite length_take in Hb.
  assert (2 ^ Z.of_nat (n `min` length l) <= 2 ^ Z.of_nat n) by (apply Z.pow_le_mono_r; lia). lia.
Qed.

Lemma extract_u32_range l n : bits_ok l -> (n <= 32)%nat -> 0 <= extract_u32 l n < 2 ^ 32.
Proof.
  intros Hl Hn. rewrite extract_u32_bval by done.
  pose proof (bval_range _ (Forall_take _ n l Hl)) as Hb. rewrite length_take in Hb.
  assert (2 ^ Z.of_nat (n `min` length l) <= 2 ^ 32) by (apply Z.pow_le_mono_r; lia). lia.
Qed.

(** Twelve bits, two's complement. *)
Lemma extract_signed12_value s m rest : is_bit s -> bits_ok m -> length m = 11%nat ->
  extract_signed12 (s :: m ++ rest) = bval m - 2048 * s.
Proof.
  intros Hs Hm Hlen. unfold extract_signed12.
  change (drop 1 (s :: m ++ rest)) with (m ++ rest). rewrite take_app_length' by done.
  rewrite shift_or_bval by (done || lia). fold (bval m). unfold rd. cbn [nth].
  destruct Hs as [->| ->]; simpl; [lia|]. change (Z.shiftl 1 11) with 2048. lia.
Qed.

Lemma extract_signed12_field v rest : - 2048 <= v < 2048 ->
  extract_signed12 (uint_to_bits (v mod 4096) 12 ++ rest) = v.
Proof.
  intros Hv. change 12%nat with (1 + 11)%nat. rewrite uint_to_bits_app.
  set (x := v mod 4096). assert (0 <= x < 4096) as Hx by (apply Z.mod_pos_bound; lia).
  rewrite uint_to_bits_1. change (Z.of_nat 11) with 11 at 1.
  cbn [app]. rewrite extract_signed12_value;
    [|apply is_bit_land|apply uint_to_bits_ok|apply length_uint_to_bits].
  rewrite bval_uint_to_bits, Z.shiftr_div_pow2 by lia. change 1 with (Z.ones 1) at 1.
  rewrite Z.land_ones by lia. change (2 ^ Z.of_nat 11) with 2048. change (2 ^ 11) with 2048.
  change (2 ^ 1) with 2. unfold x in *. Z.div_mod_to_equations. lia.
Qed.

Lemma extract_signed12_range l : bits_ok l -> (12 <= length l)%nat ->
  - 2048 <= extract_signed12 l < 2048.
Proof.
  intros Hl Hlen. destruct l as [|s l]; [simpl in Hlen; lia|]. simpl in Hlen.
  inversion_clear Hl as [|? ? Hs Hl']. rewrite <- (take_drop 11 l).
  assert (length (take 11 l) = 11%nat) as Ht by (rewrite length_take; lia).
  rewrite extract_signed12_value by (done || by apply Forall_take).
  pose proof (bval_range _ (Forall_take _ 11 l Hl')) as Hb. rewrite Ht in Hb.
  change (2 ^ Z.of_nat 11) with 2048 in Hb. apply is_bit_range in Hs. lia.
Qed.

(** ** Paging blocks *)

Definition page_ok (p : page) : Prop := 0 <= tmsi p < 2 ^ 32 /\ 0 <= msc_id p < 2 ^ 5.

Lemma parse_pages_wf fuel data offset n pages :
  bits_ok data -> (n <= 12)%nat -> length pages = 12%nat -> Forall page_ok pages ->
  let r := parse_pages fuel data offset n pages in
  (n <= fst r <= 12)%nat /\ length (snd r) = 12%nat /\ Forall page_ok (snd r).
Proof.
  intros Hd. revert offset n pages. induction fuel as [|fuel IH]; intros offset n pages Hn Hl Hp;
    cbn [parse_pages]; [simpl; auto with lia|].
  destruct (_ && _) eqn:E; [|simpl; auto with lia].
  apply andb_true_iff in E as [_ E%Nat.ltb_lt].
  destruct (all_ones _); [simpl; auto with lia|].
  match goal with |- context [<[n := ?e]> pages] => assert (page_ok e) as He end.
  { split; simpl; [apply extract_u32_range; [by apply Forall_drop|lia]|].
    apply (extract_uint_range _ 5). by do 2 apply Forall_drop. }
  edestruct (IH (offset + 42)%nat (n + 1)%nat) as (H1 & H2 & H3);
    [lia|by rewrite length_insert|by apply Forall_insert|].
  split; [|split; [exact H2|exact H3]]. lia.
Qed.

(** The bits of a page: TMSI, two spare bits, MSC id, three spare bits. *)
Definition page_bits (p : page) (spare : list Z) : list Z :=
  uint_to_bits (tmsi p) 32 ++ take 2 spare ++ uint_to_bits (msc_id p) 5 ++ drop 2 spare.

Definition page_tx_ok (ps : page * list Z) : Prop :=
  page_ok (fst ps) /\ bits_ok (snd ps) /\ length (snd ps) = 5%nat /\
  all_ones (page_bits (fst ps) (snd ps)) = false.

#[export] Instance page_tx_ok_dec p : Decision (page_tx_ok p).
Proof. unfold page_tx_ok, page_ok. apply _. Defined.

Lemma length_page_bits p spare : length spare = 5%nat -> length (page_bits p spare) = 42%nat.
Proof.
  intros Hs. unfold page_bits. rewrite !length_app, !length_uint_to_bits, length_take, length_drop. lia.
Qed.

Lemma page_bits_ok p spare : bits_ok spare -> bits_ok (page_bits p spare).
Proof.
  intros Hs. unfold page_bits. solve_bits.
Qed.

Lemma page_bits_read p spare rest : page_ok p -> bits_ok spare -> length spare = 5%nat ->
  bits_ok rest ->
  Page (extract_u32 (page_bits p spare ++ rest) 32)
       (extract_uint (drop 34 (page_bits p spare ++ rest)) 5) = p.
Proof.
  intros [Ht Hm] Hs Hl Hr. destruct p as [t m]. simpl in *. unfold page_bits. cbn [tmsi msc_id].
  rewrite <- !app_assoc. f_equal.
  - apply extract_u32_field; [solve_bits|done].
  - change 34%nat with (32 + 2)%nat. rewrite <- drop_drop, drop_uint_bits.
    rewrite drop_app_length' by (rewrite length_take; lia).
    apply (extract_uint_field _ 5); [solve_bits|done].
Qed.

Lemma all_ones_app l rest : (42 <= length l)%nat -> all_ones (l ++ rest) = all_ones l.
Proof. intros Hl. unfold all_ones. by rewrite take_app_le. Qed.

(** All sent pages are read, up to a terminator or the end of the data. *)
Lemma parse_pages_tx pgs pre post n pages fuel :
  Forall page_tx_ok pgs -> bits_ok post ->
  (length post < 42)%nat \/ all_ones post = true ->
  (n + length pgs <= 12)%nat -> length pages = 12%nat -> (length pgs < fuel)%nat ->
  parse_pages fuel (pre ++ concat (map (fun p => page_bits (fst p) (snd p)) pgs) ++ post)
    (length pre) n pages =
  ((n + length pgs)%nat, take n pages ++ map fst pgs ++ drop (n + length pgs) pages).
Proof.
  intros Hpgs Hpost Hend. revert pre n pages fuel.
  induction Hpgs as [|p pgs (Hp & Hsp & Hls & Hone) Hpgs IH]; intros pre n pages fuel Hn Hlen Hfuel.
  - destruct fuel as [|fuel]; [simpl in Hfuel; lia|]. cbn [map concat app parse_pages length].
    rewrite Nat.add_0_r, take_drop.
    destruct (_ && _) eqn:E; [|done]. rewrite drop_app_length.
    destruct Hend as [Hend| ->]; [|done]. apply andb_true_iff in E as [E%Nat.leb_le _].
    rewrite length_app in E. lia.
  - destruct fuel as [|fuel]; [lia|]. simpl in Hn, Hfuel. cbn [map concat parse_pages].
    rewrite !length_app, length_page_bits by done.
    replace (_ <=? _)%nat with true by (symmetry; apply Nat.leb_le; lia).
    replace (n <? 12)%nat with true by (symmetry; apply Nat.ltb_lt; lia).
    cbn [andb]. rewrite drop_app_length, <- app_assoc.
    rewrite all_ones_app, Hone by (by rewrite length_page_bits).
    assert (bits_ok (concat (map (fun q => page_bits (fst q) (snd q)) pgs) ++ post)) as Hrest.
    { apply Forall_app. split; [|done]. apply Forall_concat, Forall_map.
      eapply Forall_impl; [exact Hpgs|]. intros q (_ & Hq & _). by apply page_bits_ok. }
    rewrite page_bits_read by done.
    specialize (IH (pre ++ page_bits (fst p) (snd p)) (n + 1)%nat (<[n := fst p]> pages) fuel).
    rewrite !length_app, length_page_bits, <- !app_assoc in IH by done.
    rewrite IH; [|lia|by rewrite length_insert|lia]. f_equal; [simpl; lia|].
    replace (n + 1)%nat with (S n) by lia.
    rewrite (take_S_r _ n (fst p)) by (apply list_lookup_insert_eq; lia).
    rewrite take_insert_ge by lia. rewrite drop_insert_lt by lia. rewrite <- app_assoc. simpl.
    do 3 f_equal. f_equal. lia.
Qed.

(** ** Well-formedness of what the block decoders produce *)

Lemma chase_wf tbl block llr n d c : chase_bch_decode_p tbl block llr = Some (n, d, c) ->
  bits_ok d /\ length d = BCH_RA_DATA /\ bits_ok c /\ length c = 10%nat.
Proof.
  unfold chase_bch_decode_p. destruct (_ =? 0).
  - intros [= <- <- <-]. auto with sniff.
  - destruct (syn_lookup _ _); [|done]. intros [= <- <- <-]. auto with sniff.
Qed.

Lemma decode_pair_wf tbl blk llr d : decode_pair tbl blk llr = Some d ->
  bits_ok d /\ length d = 42%nat.
Proof.
  unfold decode_pair. destruct (de_interleave blk) as [di1 di2].
  destruct (chase_bch_decode_p _ di1 _) as [[[n1 d1] c1]|] eqn:E1; [|done].
  destruct (chase_bch_decode_p _ di2 _) as [[[n2 d2] c2]|] eqn:E2; [|done].
  destruct (_ && _); [|done]. intros [= <-].
  apply chase_wf in E1 as (? & H1 & _), E2 as (? & H2 & _).
  rewrite Forall_app, length_app, H1, H2. auto.
Qed.

(** The stream buffer is never overrun, and grows by whole block pairs. *)
Lemma more_blocks_wf fuel tbl data llr offset limit cap stream :
  bits_ok stream -> (length stream <= cap)%nat ->
  let r := more_blocks fuel tbl data llr offset limit cap stream in
  bits_ok r /\ (length stream <= length r <= cap)%nat.
Proof.
  revert offset stream. induction fuel as [|fuel IH]; intros offset stream Hs Hc;
    cbn [more_blocks]; [auto with lia|].
  destruct (_ && _) eqn:E; [|auto with lia].
  apply andb_true_iff in E as [_ E%Nat.leb_le]. unfold BCH_RA_DATA in E.
  destruct (decode_pair _ _ _) as [d|] eqn:Ed; [|auto with lia].
  apply decode_pair_wf in Ed as [Hd Hl].
  destruct (IH (offset + 64)%nat (stream ++ d)) as [H1 H2]; [solve_bits|rewrite length_app; lia|].
  rewrite length_app in H2. split; [exact H1|lia].
Qed.

(** Fuel beyond the number of 64-bit blocks never changes the result. *)
Lemma more_blocks_fuel fuel k tbl data llr offset limit cap stream :
  (limit < offset + 64 * fuel)%nat ->
  more_blocks (fuel + k) tbl data llr offset limit cap stream =
  more_blocks fuel tbl data llr offset limit cap stream.
Proof.
  revert offset stream. induction fuel as [|fuel IH]; intros offset stream Hf.
  - cbn [Nat.add]. destruct k; [done|]. cbn [more_blocks].
    by replace (offset + 64 <=? limit)%nat with false by (symmetry; apply Nat.leb_gt; lia).
  - cbn [Nat.add more_blocks]. destruct (_ && _); [|done].
    destruct (decode_pair _ _ _); [|done]. apply IH. lia.
Qed.

Lemma more_blocks_llr fuel tbl data l1 l2 offset limit cap stream :
  more_blocks fuel tbl data l1 offset limit cap stream =
  more_blocks fuel tbl data l2 offset limit cap stream.
Proof.
  revert offset stream. induction fuel as [|fuel IH]; intros; [done|]. cbn [more_blocks].
  destruct (_ && _); [|done].
  change (decode_pair tbl (drop offset data) (drop offset <$> l1))
    with (decode_pair tbl (drop offset data) (drop offset <$> l2)).
  by destruct (decode_pair _ _ _).
Qed.

Lemma try_ibc_llr tbl data l1 l2 out : try_ibc tbl data l1 out = try_ibc tbl data l2 out.
Proof.
  unfold try_ibc. destruct (_ <=? _)%nat; [|done]. destruct (ibc_header tbl data); [|done].
  change (decode_pair tbl (drop 6 data) (drop 6 <$> l1))
    with (decode_pair tbl (drop 6 data) (drop 6 <$> l2)).
  destruct (decode_pair _ _ _); [|done]. by rewrite (more_blocks_llr _ _ _ l1 l2).
Qed.

Lemma chase_llr tbl blk l1 l2 : chase_bch_decode_p tbl blk l1 = chase_bch_decode_p tbl blk l2.
Proof. done. Qed.

Lemma try_ira_llr at2 tbl data l1 l2 out : try_ira at2 tbl data l1 out = try_ira at2 tbl data l2 out.
Proof.
  unfold try_ira. destruct (_ <=? _)%nat; [|done].
  destruct (de_interleave3 data) as [[ra1 ra2] ra3].
  set (la := de_interleave3 <$> l2).
  rewrite (chase_llr tbl ra1 _ ((fun l => fst (fst l)) <$> la)),
    (chase_llr tbl ra2 _ ((fun l => snd (fst l)) <$> la)), (chase_llr tbl ra3 _ (snd <$> la)).
  destruct (chase_bch_decode_p _ ra1 _) as [[[n1 d1] c1]|]; [|done].
  destruct (chase_bch_decode_p _ ra2 _) as [[[n2 d2] c2]|]; [|done].
  destruct (chase_bch_decode_p _ ra3 _) as [[[n3 d3] c3]|]; [|done].
  destruct (_ && _); [|done]. by rewrite (more_blocks_llr _ _ _ l1 l2).
Qed.

(** What a receiver of a decoded ring alert or broadcast may rely on. *)
Definition ira_wf (i : ira_data) : Prop :=
  0 <= ira_sat_id i < 128 /\ 0 <= ira_beam_id i < 64 /\
  (let '(x, y, z) := ira_pos_xyz i in
   -2048 <= x < 2048 /\ -2048 <= y < 2048 /\ -2048 <= z < 2048) /\
  (ira_n_pages i <= 12)%nat /\ length (ira_pages i) = 12%nat /\ Forall page_ok (ira_pages i).

Definition ibc_wf (b : ibc_data) : Prop :=
  0 <= ibc_sat_id b < 128 /\ 0 <= ibc_beam_id b < 64 /\ is_bit (ibc_timeslot b) /\
  is_bit (ibc_sv_blocking b) /\ 0 <= ibc_bc_type b < 8 /\ 0 <= ibc_iri_time b < 2 ^ 32.

Lemma ira_zero_pages : Forall page_ok (ira_pages ira_zero).
Proof. repeat constructor; simpl; lia. Qed.

Lemma parse_ira_wf at2 data : bits_ok data -> ira_wf (parse_ira at2 data).
Proof.
  intros Hd. unfold parse_ira. destruct (Nat.ltb_spec (length data) 63) as [|Hlen].
  { split; [simpl; lia|]. split; [simpl; lia|]. split; [simpl; lia|].
    split; [simpl; lia|]. split; [done|]. apply ira_zero_pages. }
  pose proof (parse_pages_wf 13 data 63 0 (ira_pages ira_zero) Hd ltac:(lia) eq_refl
    ira_zero_pages) as Hp.
  destruct (parse_pages _ _ _ _ _) as [n pages]. destruct Hp as (Hn & Hl & Hp). simpl in Hn.
  assert (forall k, (k <= 37)%nat -> -2048 <= extract_signed12 (drop k data) < 2048) as Hs.
  { intros k Hk. apply extract_signed12_range; [by apply Forall_drop|].
    rewrite length_drop. lia. }
  split; [by apply (extract_uint_range data 7)|].
  split; [apply (extract_uint_range _ 6); by apply Forall_drop|].
  split; [simpl; split; [|split]; apply Hs; lia|]. simpl. auto with lia.
Qed.

Lemma parse_ibc_wf data ty : bits_ok data -> 0 <= ty < 8 -> ibc_wf (parse_ibc data ty).
Proof.
  intros Hd Hty. unfold parse_ibc. destruct (Nat.ltb_spec (length data) 42).
  { unfold ibc_wf, is_bit. simpl. lia. }
  split; [by apply (extract_uint_range data 7)|].
  split; [apply (extract_uint_range _ 6); by apply Forall_drop|].
  cbn [ibc_timeslot ibc_sv_blocking ibc_bc_type ibc_iri_time].
  split; [by apply rd_bit|]. split; [by apply rd_bit|]. split; [done|].
  destruct (_ <=? _)%nat; [|lia]. destruct (_ =? 1); [|lia].
  apply extract_u32_range; [by apply Forall_drop|lia].
Qed.

(** The results the function can return with: untouched, or a well-formed
    body of the announced type, accepted exactly when its beam is 1..48. *)
Definition result_ok (r : bool * decoded_frame) : Prop :=
  match fr_type (snd r), fr_body (snd r) with
  | FRAME_UNKNOWN, NoBody => fst r = false
  | FRAME_IRA, BodyIra i => ira_wf i /\ fst r = beam_ok (ira_beam_id i)
  | FRAME_IBC, BodyIbc b => ibc_wf b /\ fst r = beam_ok (ibc_beam_id b)
  | _, _ => False
  end.

Lemma try_ibc_ok tbl data llr out r : try_ibc tbl data llr out = Some r -> result_ok r.
Proof.
  unfold try_ibc. destruct (_ <=? _)%nat; [|done].
  destruct (ibc_header tbl data) as [hdr|] eqn:Eh; [|done].
  destruct (decode_pair _ _ _) as [d|] eqn:Ed; [|done]. intros [= <-].
  apply decode_pair_wf in Ed as [Hd Hl]. simpl. split; [|done].
  apply parse_ibc_wf; [apply more_blocks_wf; [done|lia]|].
  apply (extract_uint_range hdr 3). unfold ibc_header in Eh.
  destruct (_ =? 0); [simplify_eq; auto with sniff|].
  destruct (syn_lookup _ _); simplify_eq; auto with sniff.
Qed.

Lemma try_ira_ok at2 tbl data llr out r : try_ira at2 tbl data llr out = Some r -> result_ok r.
Proof.
  unfold try_ira. destruct (_ <=? _)%nat; [|done].
  destruct (de_interleave3 data) as [[ra1 ra2] ra3].
  destruct (chase_bch_decode_p _ ra1 _) as [[[n1 d1] c1]|] eqn:E1; [|done].
  destruct (chase_bch_decode_p _ ra2 _) as [[[n2 d2] c2]|] eqn:E2; [|done].
  destruct (chase_bch_decode_p _ ra3 _) as [[[n3 d3] c3]|] eqn:E3; [|done].
  destruct (_ && _); [|done]. intros [= <-]. simpl. split; [|done].
  apply chase_wf in E1 as (? & H1 & _), E2 as (? & H2 & _), E3 as (? & H3 & _).
  apply parse_ira_wf, more_blocks_wf; [solve_bits|].
  rewrite !length_app, H1, H2, H3. unfold BCH_RA_DATA. lia.
Qed.

(** ** Sent frames *)

(** The six header bits of a broadcast of type [t], with flips [ps]. *)
Definition tx_header (t : Z) (ps : list nat) : list Z :=
  uint_to_bits (Z.lxor (bch_encode hdr_code t) (err_mask ps)) 6.

Lemma hdr_encode_spec t : 0 <= t < 4 ->
  gf2_remainder (cpoly hdr_code) (bch_encode hdr_code t) = 0 /\
  0 <= bch_encode hdr_code t < 2 ^ 6 /\ Z.shiftr (bch_encode hdr_code t) 4 = t.
Proof.
  intros Ht. destruct (bch_encode_spec (c:=hdr_code) t) as (H1 & H2 & H3); [cbn; lia|cbn; lia|].
  change (Z.of_nat (cdeg hdr_code)) with 4 in H3. rewrite H3. split; [done|]. split; [|done].
  rewrite Z.shiftr_div_pow2 in H3 by lia. Z.div_mod_to_equations. lia.
Qed.

Lemma err_pattern_mono n m k ps : (n <= m)%nat -> err_pattern n k ps -> err_pattern m k ps.
Proof.
  intros Hnm (H1 & H2 & H3). split; [done|]. split; [|done].
  eapply Forall_impl; [exact H2|]. simpl. lia.
Qed.

Lemma ibc_header_tx t ps rest : 0 <= t < 4 -> err_pattern 6 1 ps ->
  ibc_header frame_decode_init (tx_header t ps ++ rest) = Some (uint_to_bits t 3).
Proof.
  intros Ht Hps. destruct (hdr_encode_spec t Ht) as (Hcw & Hw & Hsh).
  assert (0 <= Z.lxor (bch_encode hdr_code t) (err_mask ps) < 2 ^ Z.of_nat 6) as Hx
    by (apply lxor_range; [lia|done|]; apply err_mask_range, Hps).
  pose proof (bch_correct_pattern (c:=hdr_code) _ _ Hcw (err_pattern_mono 6 7 _ _ ltac:(lia) Hps)) as Hc.
  unfold ibc_header, tx_header. unfold bch_correct in Hc.
  rewrite bits_to_uint_bval; [|rewrite take_uint_bits; auto with sniff|lia].
  rewrite take_uint_bits, bval_uint_small by done.
  change (cpoly hdr_code) with BCH_POLY_HDR in Hc.
  change (ctable hdr_code) with (syn_hdr frame_decode_init) in Hc.
  destruct (_ =? 0); [|destruct (syn_lookup _ _); [|done]]; injection Hc as _ Hv;
    by rewrite Hv, Hsh.
Qed.

(** The output record a frame starts from. *)
Definition blank (f : demod_frame) : decoded_frame :=
  DecodedFrame FRAME_UNKNOWN (df_timestamp f) (df_center_frequency f) NoBody.

Lemma length_access acc : acc = access_dl \/ acc = access_ul -> length acc = 24%nat.
Proof. by intros [-> | ->]. Qed.

(** After a valid access code only the two attempts matter. *)
Lemma frame_decode_dispatch at2 tbl f acc data :
  acc = access_dl \/ acc = access_ul -> df_bits f = acc ++ data ->
  frame_decode at2 tbl f =
  match try_ibc tbl data (drop 24 <$> df_llr f) (blank f) with
  | Some r => r
  | None => match try_ira at2 tbl data (drop 24 <$> df_llr f) (blank f) with
            | Some r => r
            | None => (false, blank f)
            end
  end.
Proof.
  intros Hacc Hbits. unfold frame_decode, df_n_bits. pose proof (length_access acc Hacc) as Hl.
  rewrite Hbits, length_app, Hl. cbn [Nat.ltb Nat.leb Nat.add].
  rewrite take_app_length', drop_app_length' by done.
  destruct Hacc as [-> | ->].
  - by rewrite (bool_decide_eq_true_2 (access_dl = access_dl)) by done.
  - rewrite (bool_decide_eq_true_2 (access_ul = access_ul)) by done. by rewrite andb_false_r.
Qed.

Lemma length_tx_header t ps : length (tx_header t ps) = 6%nat.
Proof. apply length_uint_to_bits. Qed.

Lemma try_ibc_tx t hps p ps post llr out :
  0 <= t < 4 -> err_pattern 6 1 hps -> tx_ok (fst p) -> tx_ok (snd p) ->
  Forall (fun p => tx_ok (fst p) /\ tx_ok (snd p)) ps ->
  (length ps <= 3)%nat -> (length post < 64)%nat ->
  let ibc := parse_ibc (pair_data p ++ concat (map pair_data ps)) t in
  try_ibc frame_decode_init (tx_header t hps ++ tx_pair p ++ concat (map tx_pair ps) ++ post) llr out =
  Some (beam_ok (ibc_beam_id ibc), set_body out FRAME_IBC (BodyIbc ibc)).
Proof.
  intros Ht Hh H1 H2 Hps Hk Hpost ibc. unfold try_ibc.
  rewrite ibc_header_tx by done. rewrite drop_app_length' by (by rewrite length_tx_header).
  rewrite decode_pair_tx by done.
  assert (extract_uint (uint_to_bits t 3) 3 = t) as ->
    by (rewrite <- (app_nil_r (uint_to_bits t 3)); apply extract_uint_field; [constructor|simpl; lia]).
  rewrite app_assoc. set (pre := tx_header t hps ++ tx_pair p).
  assert (length pre = 70%nat) as Hpre
    by (unfold pre; by rewrite length_app, length_tx_header, length_tx_pair).
  pose proof (more_blocks_tx ps pre post llr
    (length (pre ++ concat (map tx_pair ps) ++ post) `min` 262) 256 (pair_data p)
    (length (pre ++ concat (map tx_pair ps) ++ post)) Hps) as Hm.
  rewrite Hpre in Hm. change (6 + 64)%nat with 70%nat. rewrite Hm.
  - replace (_ <=? _)%nat with true; [done|].
    symmetry. apply Nat.leb_le. rewrite length_app. lia.
  - rewrite !length_app, length_concat_tx_pairs. lia.
  - rewrite length_pair_data by done. lia.
  - rewrite !length_app, length_concat_tx_pairs. lia.
Qed.

Lemma try_ira_tx at2 b1 b2 b3 ps post llr out :
  tx_ok b1 -> tx_ok b2 -> tx_ok b3 -> Forall (fun p => tx_ok (fst p) /\ tx_ok (snd p)) ps ->
  (length ps <= 10)%nat -> (length post < 64)%nat ->
  let ira := parse_ira at2 ((fst b1 ++ fst b2 ++ fst b3) ++ concat (map pair_data ps)) in
  try_ira at2 frame_decode_init
    (interleave3 (tx b1) (tx b2) (tx b3) ++ concat (map tx_pair ps) ++ post) llr out =
  Some (beam_ok (ira_beam_id ira), set_body out FRAME_IRA (BodyIra ira)).
Proof.
  intros H1 H2 H3 Hps Hk Hpost ira. unfold try_ira.
  rewrite (de_interleave3_interleave3 (tx b1)) by apply length_tx.
  set (pre := interleave3 (tx b1) (tx b2) (tx b3)).
  assert (length pre = 96%nat) as Hpre by reflexivity.
  set (la := de_interleave3 <$> llr).
  destruct (tx_decode b1 ((fun l => fst (fst l)) <$> la) H1) as (c1 & -> & ->).
  destruct (tx_decode b2 ((fun l => snd (fst l)) <$> la) H2) as (c2 & -> & ->).
  destruct (tx_decode b3 (snd <$> la) H3) as (c3 & -> & ->). cbn [andb].
  replace (96 <=? _)%nat with true by (symmetry; apply Nat.leb_le; rewrite length_app; lia).
  pose proof (more_blocks_tx ps pre post llr (length (pre ++ concat (map tx_pair ps) ++ post)) 512
    (fst b1 ++ fst b2 ++ fst b3) (length (pre ++ concat (map tx_pair ps) ++ post)) Hps) as Hm.
  rewrite Hpre in Hm. rewrite Hm; [done|..].
  - rewrite !length_app, length_concat_tx_pairs. lia.
  - destruct H1 as (_ & H1 & _), H2 as (_ & H2 & _), H3 as (_ & H3 & _).
    rewrite !length_app, H1, H2, H3. unfold BCH_RA_DATA. lia.
  - rewrite !length_app, length_concat_tx_pairs. lia.
Qed.

(** The 63 header bits of a ring alert; [spare] are its last 14 bits. *)
Definition ira_header_bits (sat beam x y z : Z) (spare : list Z) : list Z :=
  uint_to_bits sat 7 ++ uint_to_bits beam 6 ++ uint_to_bits (x mod 4096) 12 ++
  uint_to_bits (y mod 4096) 12 ++ uint_to_bits (z mod 4096) 12 ++ spare.

Lemma length_ira_header_bits sat beam x y z spare : length spare = 14%nat ->
  length (ira_header_bits sat beam x y z spare) = 63%nat.
Proof. intros Hs. unfold ira_header_bits. by rewrite !length_app, !length_uint_to_bits, Hs. Qed.

(** Skipping leading fields of a header. *)
Lemma drop_fields v n rest k : drop (n + k) (uint_to_bits v n ++ rest) = drop k rest.
Proof. by rewrite <- drop_drop, drop_uint_bits. Qed.

Lemma ira_header_read sat beam x y z spare rest :
  0 <= sat < 128 -> 0 <= beam < 64 -> -2048 <= x < 2048 -> -2048 <= y < 2048 ->
  -2048 <= z < 2048 -> bits_ok spare -> bits_ok rest ->
  let l := ira_header_bits sat beam x y z spare ++ rest in
  extract_uint l 7 = sat /\ extract_uint (drop 7 l) 6 = beam /\
  extract_signed12 (drop 13 l) = x /\ extract_signed12 (drop 25 l) = y /\
  extract_signed12 (drop 37 l) = z.
Proof.
  intros Hs Hb Hx Hy Hz Hsp Hr l. subst l. unfold ira_header_bits. rewrite <- !app_assoc.
  split; [apply (extract_uint_field _ 7); [solve_bits|done]|].
  split; [rewrite drop_uint_bits; apply (extract_uint_field _ 6); [solve_bits|done]|].
  split; [rewrite (drop_fields _ 7 _ 6), drop_uint_bits; by apply extract_signed12_field|].
  split; [rewrite (drop_fields _ 7 _ 18), (drop_fields _ 6 _ 12), drop_uint_bits;
          by apply extract_signed12_field|].
  rewrite (drop_fields _ 7 _ 30), (drop_fields _ 6 _ 24), (drop_fields _ 12 _ 12), drop_uint_bits.
  by apply extract_signed12_field.
Qed.

(** ** What the decoder accepts was within the radius *)

(** A code word is the encoding of its data part. *)
Lemma codeword_encode c {Hc : BchOk c} w : (cdeg c <= cbits c <= 32)%nat -> 0 <= w < 2 ^ Z.of_nat (cbits c) ->
  gf2_remainder (cpoly c) w = 0 -> bch_encode c (Z.shiftr w (Z.of_nat (cdeg c))) = w.
Proof.
  intros Hn Hw H0. set (d := Z.shiftr w (Z.of_nat (cdeg c))).
  assert (0 <= d < 2 ^ Z.of_nat (cbits c - cdeg c)) as Hd.
  { unfold d. rewrite Z.shiftr_div_pow2 by lia. split; [apply Z.div_pos; lia|]. apply Z.div_lt_upper_bound; [lia|].
    rewrite <- Z.pow_add_r by lia. replace (Z.of_nat (cdeg c) + Z.of_nat (cbits c - cdeg c)) with (Z.of_nat (cbits c)) by lia. lia. }
  destruct (bch_encode_spec d Hn Hd) as (He & Hr & Hs). destruct (bch_deg (c:=c)) as [Hdeg Hp].
  assert (Z.lxor w (bch_encode c d) = 0) as Hx; [|by apply Z.lxor_eq in Hx].
  assert (Z.shiftr (Z.lxor w (bch_encode c d)) (Z.of_nat (cdeg c)) = 0) as Hz by (rewrite Z.shiftr_lxor, Hs; apply Z.lxor_nilpotent).
  assert (0 <= Z.lxor w (bch_encode c d)) as Hnn by (apply Z.lxor_nonneg; lia).
  rewrite <- (gf2_remainder_small (cpoly c) (Z.lxor w (bch_encode c d))).
  - by rewrite gf2_remainder_lxor, H0, He.
  - lia.
  - rewrite Z.shiftr_div_pow2 in Hz by lia. rewrite Hdeg. apply Z.div_small_iff in Hz; lia.
Qed.

(** A block that is corrected and passes parity is a sent one with at most two flips. *)
Lemma block_sound (l : list Z) n w : bits_ok l -> length l = 32%nat ->
  bch_correct ra_code (bits_to_uint l 31) = Some (n, w) ->
  check_parity32 l (uint_to_bits (Z.shiftr w 10) BCH_RA_DATA) (uint_to_bits (Z.land w 0x3FF) 10) = true ->
  exists b, tx_ok b /\ l = tx b.
Proof.
  intros Hl Hlen E Hpar. rewrite bits_to_uint_bval in E by (lia || by apply Forall_take).
  assert (bits_ok (take 31 l)) as Ht by (by apply Forall_take).
  pose proof (bval_range _ Ht) as Hv. rewrite length_take, Hlen in Hv. change (31 `min` 32)%nat with 31%nat in Hv.
  apply (bch_correct_sound (c:=ra_code)) in E as (H0 & Hw & ps & Hps & _ & ->); [|exact Hv|cbn; lia].
  set (v := bval (take 31 l)) in *. set (w := Z.lxor v (err_mask ps)) in *.
  assert (0 <= Z.shiftr w 10 < 2 ^ 21) as Hd.
  { rewrite Z.shiftr_div_pow2 by lia. change (Z.of_nat (cbits ra_code)) with 31 in Hw. split; [apply Z.div_pos; lia|]. apply Z.div_lt_upper_bound; lia. }
  exists (uint_to_bits (Z.shiftr w 10) BCH_RA_DATA, ps). split.
  - split; [apply uint_to_bits_ok|]. split; [apply length_uint_to_bits|exact Hps].
  - unfold tx, tx_block. cbn [fst snd]. rewrite bval_uint_small by exact Hd.
    change 10 with (Z.of_nat (cdeg ra_code)) at 1 2. rewrite (codeword_encode ra_code) by (done || cbn; lia).
    assert (Z.lxor w (err_mask ps) = v) as -> by (unfold w; by rewrite Z.lxor_assoc, Z.lxor_nilpotent, Z.lxor_0_r).
    assert (uint_to_bits v 31 = take 31 l) as ->.
    { unfold v. rewrite <- (uint_to_bits_bval (take 31 l) Ht) at 2. by rewrite length_take, Hlen. }
    rewrite <- (take_drop 31 l) at 1. f_equal. unfold check_parity32 in Hpar. rewrite fold_add_app, split_31 in Hpar.
    destruct (drop 31 l) as [|q [|q' r]] eqn:Eq; apply (f_equal length) in Eq as Eq'; rewrite length_drop, Hlen in Eq'; try done.
    assert (l.[31] = q) as Hq by (unfold rd; rewrite nth_lookup, <- (Nat.add_0_r 31), <- lookup_drop, Eq; done).
    assert (is_bit q) as Hb by (apply (Forall_drop _ 31) in Hl; rewrite Eq in Hl; by apply Forall_cons in Hl as [? _]).
    rewrite Hq in Hpar. apply Z.eqb_eq in Hpar. f_equal. unfold parity_of.
    pose proof (fold_add_nonneg _ 0 (uint_to_bits_ok w 31) ltac:(lia)). apply is_bit_range in Hb.
    rewrite Z.rem_mod_nonneg in Hpar by lia. Z.div_mod_to_equations. lia.
Qed.

Lemma decode_chase_sound (l : list Z) llr r d c : bits_ok l -> length l = 32%nat ->
  chase_bch_decode_p frame_decode_init l llr = Some (r, d, c) -> check_parity32 l d c = true -> exists b, tx_ok b /\ l = tx b.
Proof.
  intros Hl Hlen. rewrite chase_is_correct. destruct (bch_correct _ _) as [[n w]|] eqn:E; [|done].
  intros [= <- <- <-] Hp. by eapply block_sound.
Qed.

Lemma pick_symbols_bits (l : list Z) syms : bits_ok l -> Forall (fun s => 0 <= s /\ (Z.to_nat (2 * s + 1) < length l)%nat) syms ->
  bits_ok (pick_symbols l syms).
Proof.
  intros Hl. induction 1 as [|s syms Hs _ IH]; [constructor|]. cbn [pick_symbols flat_map app].
  do 2 (constructor; [rewrite Forall_lookup in Hl; eapply Hl, list_lookup_lookup_total_lt; lia|]). exact IH.
Qed.

Lemma decode_pair_sound (blk : list Z) llr d : bits_ok blk -> (64 <= length blk)%nat ->
  decode_pair frame_decode_init blk llr = Some d ->
  exists p, tx_ok (fst p) /\ tx_ok (snd p) /\ blk = tx_pair p ++ drop 64 blk.
Proof.
  intros Hb Hl. unfold decode_pair. set (l := take 64 blk).
  assert (length l = 64%nat) as Hlen by (unfold l; rewrite length_take; lia).
  assert (bits_ok l) as Hlb by (by apply Forall_take).
  assert (de_interleave blk = de_interleave l) as ->.
  { rewrite <- (take_drop 64 blk) at 1. fold l. clear Hlb. clearbody l. explode_list l. reflexivity. }
  pose proof (interleave_de_interleave l Hlen) as Hi.
  assert (bits_ok (fst (de_interleave l)) /\ bits_ok (snd (de_interleave l))) as [B1 B2]
    by (split; apply pick_symbols_bits; try done; rewrite Hlen; eval_dec).
  assert (length (fst (de_interleave l)) = 32%nat /\ length (snd (de_interleave l)) = 32%nat) as [L1 L2] by done.
  destruct (de_interleave l) as [d1 d2]. cbn [fst snd] in *.
  destruct (chase_bch_decode_p _ d1 _) as [[[r1 x1] c1]|] eqn:E1; [|done].
  destruct (chase_bch_decode_p _ d2 _) as [[[r2 x2] c2]|] eqn:E2; [|done].
  destruct (check_parity32 d1 x1 c1) eqn:P1; [|done]. destruct (check_parity32 d2 x2 c2) eqn:P2; [|done]. intros _.
  apply decode_chase_sound in E1 as (t1 & T1 & ->); [|done..]. apply decode_chase_sound in E2 as (t2 & T2 & ->); [|done..].
  exists (t1, t2). split; [done|]. split; [done|]. unfold tx_pair. cbn [fst snd]. rewrite Hi. unfold l. by rewrite take_drop.
Qed.

(** Six bits that pass for the header of a broadcast: a code word of seven, up to
    one flip. *)
Definition header_like (h : list Z) : Prop :=
  length h = 6%nat /\ exists t ps, 0 <= t < 8 /\ err_pattern 7 1 ps /\ bval h = Z.lxor (bch_encode hdr_code t) (err_mask ps).
Definition broadcast_like (data : list Z) : Prop :=
  exists h p rest, data = h ++ tx_pair p ++ rest /\ header_like h /\ tx_ok (fst p) /\ tx_ok (snd p).

Lemma ibc_header_sound data hdr : bits_ok data -> (6 <= length data)%nat ->
  ibc_header frame_decode_init data = Some hdr -> header_like (take 6 data).
Proof.
  intros Hb Hl E. split; [rewrite length_take; lia|]. assert (bits_ok (take 6 data)) as Ht by (by apply Forall_take).
  pose proof (bval_range _ Ht) as Hv. rewrite length_take, Nat.min_l in Hv by done.
  assert (exists n w, bch_correct hdr_code (bval (take 6 data)) = Some (n, w)) as (n & w & Ec).
  { revert E. unfold ibc_header, bch_correct. rewrite bits_to_uint_bval by (done || lia).
    change (cpoly hdr_code) with BCH_POLY_HDR. change (ctable hdr_code) with (syn_hdr frame_decode_init).
    destruct (_ =? 0); [by eauto|]. destruct (syn_lookup _ _); [by eauto|done]. }
  apply (bch_correct_sound (c:=hdr_code)) in Ec as (H0 & Hw & ps & Hps & _ & Ew); [|change (Z.of_nat (cbits hdr_code)) with 7; lia|cbn; lia].
  change (Z.of_nat (cbits hdr_code)) with 7 in Hw.
  exists (Z.shiftr w 4), ps. split; [|split; [exact Hps|]].
  - rewrite Z.shiftr_div_pow2 by lia. split; [apply Z.div_pos; lia|]. apply Z.div_lt_upper_bound; lia.
  - change 4 with (Z.of_nat (cdeg hdr_code)). rewrite (codeword_encode hdr_code) by (done || cbn; lia).
    rewrite Ew. by rewrite Z.lxor_assoc, Z.lxor_nilpotent, Z.lxor_0_r.
Qed.

Lemma not_broadcast_none data llr out : bits_ok data -> ~ broadcast_like data ->
  try_ibc frame_decode_init data llr out = None.
Proof.
  intros Hb Hn. unfold try_ibc. destruct (Nat.leb_spec (6 + 64) (length data)) as [Hl|]; [|done].
  destruct (ibc_header _ _) as [hdr|] eqn:Eh; [|done]. destruct (decode_pair _ _ _) as [d|] eqn:Ed; [|done]. destruct Hn.
  apply ibc_header_sound in Eh; [|done|lia].
  apply decode_pair_sound in Ed as (p & H1 & H2 & Hd); [|by apply Forall_drop|rewrite length_drop; lia].
  exists (take 6 data), p, (drop 64 (drop 6 data)). split; [|done]. rewrite <- Hd. by rewrite take_drop.
Qed.

(** The result carries the timestamp of the frame. *)
Lemma frame_decode_timestamp at2 tbl f : fr_timestamp (snd (frame_decode at2 tbl f)) = df_timestamp f.
Proof.
  unfold frame_decode. destruct (_ <? 24)%nat; [done|]. destruct (_ && _); [done|].
  destruct (try_ibc _ _ _ _) as [r|] eqn:E.
  - revert E. unfold try_ibc. repeat case_match; intros; simplify_eq; done.
  - destruct (try_ira _ _ _ _ _) as [r|] eqn:E'; [|done]. revert E'. unfold try_ira. repeat case_match; intros; simplify_eq; done.
Qed.

(** ** A ring alert *)

(** The bits of an alert: header, pages, and what fills the last block. *)
Definition alert_bits (sat beam x y z : Z) (spare : list Z) (pgs : list (page * list Z)) (fill : list Z) : list Z :=
  ira_header_bits sat beam x y z spare ++ concat (map (fun p => page_bits (fst p) (snd p)) pgs) ++ fill.

(** Values that fit their fields, and pages up to the all-ones terminator or the end. *)
Definition alert_ok (sat beam x y z : Z) (spare : list Z) (pgs : list (page * list Z)) (fill : list Z) : Prop :=
  (0 <= sat < 128 /\ 0 <= beam < 64 /\ -2048 <= x < 2048 /\ -2048 <= y < 2048 /\ -2048 <= z < 2048) /\
  bits_ok spare /\ length spare = 14%nat /\ Forall page_tx_ok pgs /\ (length pgs <= 12)%nat /\ bits_ok fill /\
  ((length fill < 42)%nat \/ all_ones fill = true).
#[export] Instance alert_ok_dec sat beam x y z spare pgs fill : Decision (alert_ok sat beam x y z spare pgs fill).
Proof. unfold alert_ok. apply _. Defined.

(** What the receiver should report: the fields, the direction of the point in
    degrees, and its height: the coordinates are in units of 4 km, and 6355 km
    are taken off the distance from the centre. *)
Definition alert_fields (at2 : f64 -> f64 -> f64) (sat beam x y z : Z) (pages : list page) (ira : ira_data) : Prop :=
  let sq v := f64_mul (f64_of_Z v) (f64_of_Z v) in
  ira_sat_id ira = sat /\ ira_beam_id ira = beam /\ ira_pos_xyz ira = (x, y, z) /\
  ira_n_pages ira = length pages /\ take (length pages) (ira_pages ira) = pages /\
  ira_lat ira = rad_to_deg (at2 (f64_of_Z z) (f64_sqrt (f64_add (sq x) (sq y)))) /\
  ira_lon ira = rad_to_deg (at2 (f64_of_Z y) (f64_of_Z x)) /\
  ira_alt ira = f64_trunc (f64_mul (f64_sqrt (f64_add (f64_add (sq x) (sq y)) (sq z))) (f64_of_Z 4)) - 6355.

Lemma parse_alert at2 sat beam x y z spare pgs fill : alert_ok sat beam x y z spare pgs fill ->
  alert_fields at2 sat beam x y z (map fst pgs) (parse_ira at2 (alert_bits sat beam x y z spare pgs fill)).
Proof.
  intros ((Hs & Hb & Hx & Hy & Hz) & Hsp & Hls & Hpgs & Hk & Hpost & Hend). unfold alert_bits.
  pose proof (length_ira_header_bits sat beam x y z spare Hls) as Hlen.
  assert (bits_ok (concat (map (fun p => page_bits (fst p) (snd p)) pgs) ++ fill)) as Hrest.
  { apply Forall_app. split; [|done]. apply Forall_concat, Forall_map.
    eapply Forall_impl; [exact Hpgs|]. intros q (_ & Hq & _). by apply page_bits_ok. }
  destruct (ira_header_read sat beam x y z spare _ Hs Hb Hx Hy Hz Hsp Hrest)
    as (E1 & E2 & E3 & E4 & E5).
  pose proof (parse_pages_tx pgs (ira_header_bits sat beam x y z spare) fill 0
    (ira_pages ira_zero) 13 Hpgs Hpost Hend ltac:(lia) eq_refl ltac:(lia)) as Hp.
  rewrite Hlen in Hp. unfold parse_ira.
  replace (_ <? 63)%nat with false by (symmetry; apply Nat.ltb_ge; rewrite length_app; lia).
  rewrite Hp, E1, E2, E3, E4, E5. unfold alert_fields. cbn [ira_sat_id ira_beam_id ira_pos_xyz ira_n_pages ira_pages ira_lat ira_lon ira_alt].
  rewrite length_map. split_and!; try done; [|lia].
  rewrite take_0. cbn [app]. apply take_app_length'. by rewrite length_map.
Qed.

Lemma beam_ok_spots beam : beam_ok beam = bool_decide (1 <= beam <= 48).
Proof. unfold beam_ok. case_bool_decide; zguards; done || lia. Qed.

Lemma tx_bits b : bits_ok (tx b).
Proof.
  unfold tx, tx_block. apply Forall_app. split; [apply uint_to_bits_ok|]. constructor; [|constructor].
  unfold parity_of, is_bit. pose proof (Z.mod_pos_bound (fold_left Z.add (uint_to_bits (bch_encode ra_code (bval (fst b))) 31) 0) 2). lia.
Qed.

(** What was sent consists of bits. *)
Lemma alert_data_bits b1 b2 b3 ps post : bits_ok post ->
  bits_ok (interleave3 (tx b1) (tx b2) (tx b3) ++ concat (map tx_pair ps) ++ post).
Proof.
  intros Hp. pose proof (tx_bits) as Ht.
  assert (forall b i, (i < 32)%nat -> is_bit (tx b !!! i)) as Hi.
  { intros b i Hi. specialize (Ht b). rewrite Forall_lookup in Ht. eapply Ht, list_lookup_lookup_total_lt. by rewrite length_tx. }
  assert (forall x y, is_bit x -> is_bit y -> bits_ok [x; y]) as Hl2 by (intros; repeat (apply Forall_cons; split; [done|]); apply Forall_nil_2).
  apply Forall_app. split; [|apply Forall_app; split; [|done]].
  - unfold interleave3. apply Forall_flat_map, Forall_seq. intros i Hr.
    assert ((47 - i) / 3 < 16)%nat by (apply Nat.Div0.div_lt_upper_bound; lia).
    destruct (i mod 3)%nat as [|[|[|]]]; (apply Hl2; apply Hi; lia).
  - apply Forall_concat, Forall_map. apply Forall_forall. intros p _. unfold tx_pair, interleave.
    apply Forall_flat_map, Forall_seq. intros i Hr. destruct (Nat.odd i) eqn:Eo; [apply Nat.odd_spec in Eo as [k ->]|]; (apply Hl2; apply Hi; lia).
Qed.

(** * Properties *)

(** BCH(31,21): a block carrying any 21 data bits, hit by any
    two or fewer bit errors, decodes to exactly those data bits, reports the
    number of errors, and passes the parity check. *)
Theorem chase_corrects_two (d : list Z) (ps : list nat) (llr : option (list f32)) :
  bits_ok d -> length d = BCH_RA_DATA -> err_pattern 31 2 ps ->
  exists c, chase_bch_decode_p frame_decode_init (tx_block d ps) llr =
              Some (Z.of_nat (length ps), d, c) /\
            check_parity32 (tx_block d ps) d c = true.
Proof. intros Hd Hl Hps. by apply (tx_decode (d, ps)). Qed.

(** Alternating data bits and two flips, for the witnesses. *)
Definition demo_bits (n : nat) : list Z := map (fun i => Z.of_nat (i mod 2)) (seq 0 n).

Lemma demo_bits_ok n : bits_ok (demo_bits n).
Proof.
  apply List.Forall_forall. intros b [i [<- _]]%in_map_iff.
  pose proof (Nat.mod_upper_bound i 2). unfold is_bit. lia.
Qed.

Lemma demo_pattern : err_pattern 31 2 [3%nat; 17%nat].
Proof. eval_dec. Qed.

Lemma demo_tx_ok : tx_ok (demo_bits 21, [3%nat; 17%nat]).
Proof. split; [apply demo_bits_ok|split; [done|apply demo_pattern]]. Qed.

Lemma chase_corrects_two_witness :
  exists c, chase_bch_decode_p frame_decode_init (tx_block (demo_bits 21) [3%nat; 17%nat]) None =
              Some (2, demo_bits 21, c) /\
            check_parity32 (tx_block (demo_bits 21) [3%nat; 17%nat]) (demo_bits 21) c = true.
Proof.
  apply (chase_corrects_two (demo_bits 21) [3%nat; 17%nat] None);
    [apply demo_bits_ok|reflexivity|apply demo_pattern].
Defined.

(** Nothing else is accepted: data and check bits returned by the
    block decoder form a code word that differs from the received 31 bits in
    exactly the reported number of places, at most two. *)
Theorem chase_sound (blk : list Z) (llr : option (list f32)) (n : Z) (d c : list Z) :
  bits_ok (take 31 blk) -> (31 <= length blk)%nat ->
  chase_bch_decode_p frame_decode_init blk llr = Some (n, d, c) ->
  gf2_remainder BCH_POLY_RA (bval (d ++ c)) = 0 /\
  exists ps, err_pattern 31 2 ps /\ n = Z.of_nat (length ps) /\
             bval (d ++ c) = Z.lxor (bits_to_uint blk 31) (err_mask ps).
Proof.
  intros Hb Hl. rewrite chase_is_correct.
  destruct (bch_correct _ _) as [[m w]|] eqn:E; [|done]. intros [= <- <- <-].
  assert (0 <= bits_to_uint blk 31 < 2 ^ Z.of_nat 31) as Hv.
  { rewrite bits_to_uint_bval by (done || lia). pose proof (bval_range _ Hb) as Hr.
    rewrite length_take, Nat.min_l in Hr by lia. exact Hr. }
  apply (bch_correct_sound (c:=ra_code)) in E as (Hcw & Hw & ps & Hps & Hn & He);
    [|exact Hv|cbn; lia].
  rewrite split_31, bval_uint_small by exact Hw. split; [exact Hcw|]. by exists ps.
Qed.

Lemma chase_sound_witness :
  let blk := tx_block (demo_bits 21) [3%nat; 17%nat] in
  exists d c, chase_bch_decode_p frame_decode_init blk None = Some (2, d, c) /\
  gf2_remainder BCH_POLY_RA (bval (d ++ c)) = 0.
Proof.
  destruct (tx_decode _ None demo_tx_ok) as (c & H & _).
  exists (demo_bits 21), c. split; [exact H|].
  apply (chase_sound (tx_block (demo_bits 21) [3%nat; 17%nat]) None 2 (demo_bits 21) c);
    [|pose proof (length_tx (demo_bits 21, [3%nat; 17%nat])) as Hl; unfold tx in Hl; simpl in Hl; lia
     |exact H].
  unfold tx_block. rewrite take_uint_bits. apply uint_to_bits_ok.
Defined.

(** The two-way and three-way de-interleavers are permutations:
    they invert the interleavers on every block and lose no bit. *)
Theorem de_interleave_bijection (l : list Z) (a b c : list Z) :
  length l = 64%nat -> length a = 32%nat -> length b = 32%nat -> length c = 32%nat ->
  interleave (fst (de_interleave l)) (snd (de_interleave l)) = l /\
  de_interleave (interleave a b) = (a, b) /\
  de_interleave3 (interleave3 a b c) = (a, b, c).
Proof.
  intros Hl Ha Hb Hc. split; [by apply interleave_de_interleave|]. split.
  - rewrite <- (app_nil_r (interleave a b)). by apply de_interleave_interleave.
  - rewrite <- (app_nil_r (interleave3 a b c)). by apply de_interleave3_interleave3.
Qed.

Lemma de_interleave_bijection_witness :
  de_interleave (interleave (demo_bits 32) (replicate 32 0)) = (demo_bits 32, replicate 32 0).
Proof.
  apply (de_interleave_bijection (demo_bits 64) (demo_bits 32) (replicate 32 0) (demo_bits 32));
    reflexivity.
Defined.


(** A concrete ring alert: satellite 57, beam 12, one page, four flips. *)
Definition demo_ira_bits : list Z :=
  ira_header_bits 57 12 100 (-200) 300 (replicate 14 0) ++ page_bits (Page 3735928559 9) [0; 1; 0; 1; 1].
Definition demo_slice (k : nat) (ps : list nat) : list Z * list nat :=
  (take 21 (drop (21 * k) demo_ira_bits), ps).
Definition demo_pairs := [(demo_slice 3 [30%nat], demo_slice 4 [])].
Definition demo_frame (bits : list Z) : demod_frame :=
  DemodFrame 7 1000 (f64_of_Z 1626270833) DIR_DOWNLINK (f32_of_Z 20) (f32_of_Z (-80)) 95
    (f32_of_Z 1) 0 0 bits None.
Definition demo_ira_data : list Z :=
  interleave3 (tx (demo_slice 0 [3%nat; 17%nat])) (tx (demo_slice 1 [])) (tx (demo_slice 2 [0%nat])) ++
  concat (map tx_pair demo_pairs) ++ [1; 0; 1].

#[export] Instance tx_ok_dec b : Decision (tx_ok b).
Proof. unfold tx_ok. apply _. Defined.

Lemma demo_ira_not_broadcast : ~ broadcast_like demo_ira_data.
Proof.
  intros (h & p & rest & Ed & Hh & H1 & H2). assert (length h = 6%nat) as Hl by apply Hh.
  apply (f_equal (drop 6)) in Ed. rewrite (drop_app_length' h) in Ed by done.
  pose proof (decode_pair_tx p rest None H1 H2) as Hd. rewrite <- Ed in Hd. vm_compute in Hd. discriminate.
Qed.


(** A broadcast sent with any header type, up to four block
    pairs, one flipped header bit and two flipped bits per block is decoded
    to exactly the data that was sent. *)
Theorem ibc_frame_decoded at2 (f : demod_frame) (acc : list Z) (t : Z) (hps : list nat)
    (p : (list Z * list nat) * (list Z * list nat))
    (ps : list ((list Z * list nat) * (list Z * list nat))) (post : list Z) :
  acc = access_dl \/ acc = access_ul -> 0 <= t < 4 -> err_pattern 6 1 hps ->
  tx_ok (fst p) -> tx_ok (snd p) -> Forall (fun p => tx_ok (fst p) /\ tx_ok (snd p)) ps ->
  (length ps <= 3)%nat -> (length post < 64)%nat ->
  df_bits f = acc ++ tx_header t hps ++ tx_pair p ++ concat (map tx_pair ps) ++ post ->
  let ibc := parse_ibc (pair_data p ++ concat (map pair_data ps)) t in
  frame_decode at2 frame_decode_init f =
  (beam_ok (ibc_beam_id ibc), set_body (blank f) FRAME_IBC (BodyIbc ibc)).
Proof.
  intros Hacc Ht Hh H1 H2 Hps Hk Hpost Hbits ibc.
  rewrite (frame_decode_dispatch at2 _ f acc _ Hacc Hbits). by rewrite try_ibc_tx.
Qed.

(** A concrete broadcast: satellite 30, beam 40, LBFC counter 123456789. *)
Definition demo_ibc_bits : list Z :=
  (uint_to_bits 30 7 ++ uint_to_bits 40 6 ++ [0; 1; 0] ++ replicate 26 0) ++
  (uint_to_bits 1 6 ++ replicate 4 0 ++ uint_to_bits 123456789 32).
Definition demo_ibc_slice (k : nat) (ps : list nat) : list Z * list nat :=
  (take 21 (drop (21 * k) demo_ibc_bits), ps).

Lemma ibc_frame_decoded_witness :
  let atan2 := fun y x : f64 => f64_div y x in
  let f := demo_frame (access_ul ++ tx_header 2 [4%nat] ++
     tx_pair (demo_ibc_slice 0 [3%nat; 17%nat], demo_ibc_slice 1 []) ++
     concat (map tx_pair [(demo_ibc_slice 2 [1%nat], demo_ibc_slice 3 [])]) ++ []) in
  frame_decode atan2 frame_decode_init f =
    (true, set_body (blank f) FRAME_IBC (BodyIbc (IbcData 30 40 1 0 2 123456789))).
Proof.
  intros atan2 f.
  etransitivity; [eapply (ibc_frame_decoded atan2 f access_ul 2 [4%nat]
    (demo_ibc_slice 0 [3%nat; 17%nat], demo_ibc_slice 1 [])
    [(demo_ibc_slice 2 [1%nat], demo_ibc_slice 3 [])] [])|].
  - by right.
  - lia.
  - eval_dec.
  - eval_dec.
  - eval_dec.
  - eval_dec.
  - simpl. lia.
  - simpl. lia.
  - reflexivity.
  - vm_compute. reflexivity.
Defined.

(** Whatever bits arrive, the decoder returns either nothing or
    a well-formed frame of the announced type: identifiers, coordinates, page
    count and counters are in range, and 1 is returned exactly for a frame with
    an access code whose beam number is one of the 48 spot beams. *)
Theorem frame_decode_result at2 (tbl : tables) (f : demod_frame) :
  result_ok (frame_decode at2 tbl f) /\
  (fst (frame_decode at2 tbl f) = true ->
   take 24 (df_bits f) = access_dl \/ take 24 (df_bits f) = access_ul).
Proof.
  unfold frame_decode. destruct (_ <? 24)%nat; [by split|].
  destruct (decide (take 24 (df_bits f) = access_dl)) as [Hd|Hd];
    [|destruct (decide (take 24 (df_bits f) = access_ul)) as [Hu|Hu]].
  3: { rewrite !bool_decide_eq_false_2 by done. by split. }
  all: rewrite ?(bool_decide_eq_true_2 _ Hd), ?(bool_decide_eq_true_2 _ Hu), ?andb_false_r.
  all: cbn [negb andb]; split; [|by auto].
  all: destruct (try_ibc _ _ _ _) as [r|] eqn:E; [by eapply try_ibc_ok|].
  all: destruct (try_ira _ _ _ _ _) as [r|] eqn:E'; [by eapply try_ira_ok|done].
Qed.

(** Soft information never reaches ring alerts and broadcasts:
    the result is the same with any reliabilities or none. *)
Theorem frame_decode_ignores_llr at2 (tbl : tables) (f : demod_frame) (llr : option (list f32)) :
  frame_decode at2 tbl (DemodFrame (df_id f) (df_timestamp f) (df_center_frequency f)
    (df_direction f) (df_magnitude f) (df_noise f) (df_confidence f) (df_level f)
    (df_n_symbols f) (df_n_payload_symbols f) (df_bits f) llr) = frame_decode at2 tbl f.
Proof.
  unfold frame_decode, df_n_bits. cbn [df_bits df_llr df_timestamp df_center_frequency].
  destruct (_ <? 24)%nat; [done|]. destruct (_ && _); [done|].
  rewrite (try_ibc_llr _ _ _ (drop 24 <$> df_llr f)).
  by rewrite (try_ira_llr _ _ _ _ (drop 24 <$> df_llr f)).
Qed.

(** The access codes the decoder looks for are exactly what the
    demodulator makes of the two unique words: 12 symbols, differentially
    decoded and mapped to 24 bits. *)
Theorem access_codes_are_unique_words :
  map_symbols_to_bits (decode_dqpsk IR_UW_DL) = access_dl /\
  map_symbols_to_bits (decode_dqpsk IR_UW_UL) = access_ul.
Proof. split; reflexivity. Qed.

(** C40 (termination). The block loop ends by itself: the fuel the decoder gives
    it exceeds the number of 64-bit blocks, and no larger amount of fuel
    changes the stream; the stream never outgrows its buffer. *)
Theorem more_blocks_terminates (k : nat) (tbl : tables) (data : list Z)
    (llr : option (list f32)) (offset limit cap : nat) (stream : list Z) :
  (limit <= length data)%nat -> (0 < offset)%nat -> bits_ok stream -> (length stream <= cap)%nat ->
  more_blocks (length data + k) tbl data llr offset limit cap stream =
  more_blocks (length data) tbl data llr offset limit cap stream /\
  (length (more_blocks (length data) tbl data llr offset limit cap stream) <= cap)%nat.
Proof.
  intros Hl Ho Hs Hc. split; [apply more_blocks_fuel; lia|]. by apply more_blocks_wf.
Qed.

Lemma more_blocks_terminates_witness :
  (length (more_blocks 200 frame_decode_init (replicate 200 0%Z) None 70 200 256 (replicate 42 0%Z)) <= 256)%nat.
Proof.
  apply (more_blocks_terminates 5 frame_decode_init (replicate 200 0) None 70 200 256 (replicate 42 0));
    [simpl; lia|lia| |simpl; lia].
  eval_dec.
Defined.
