(* ===== verification/DopplerBuf.v ===== *)
(** The measurement store of the positioning engine, [src/doppler_pos.c]: a
    table of at most 128 satellites, each with a ring of its last 200 ring
    alerts (position, frequency, time), and [doppler_pos_add_measurement], which
    screens a decoded ring alert before it is stored.

    All arithmetic is binary64 as the code performs it.  The table holds the
    entries in use ([n_satellites] is its length): an entry is cleared when it
    is taken into use.  Every operation runs under [pos_lock], so each is one
    step. *)
From S2P Require Import Prelude CFloat CRound FrameDecode.
#[local] Open Scope Z_scope.

(** * Vectors *)

Record vec3 := V3 { v0 : f64; v1 : f64; v2 : f64 }.
#[export] Instance vec3_eq_dec : EqDecision vec3.
Proof. solve_decision. Defined.

Definition vec3_dot (a b : vec3) : f64 :=
  f64_add (f64_add (f64_mul (v0 a) (v0 b)) (f64_mul (v1 a) (v1 b))) (f64_mul (v2 a) (v2 b)).
Definition vec3_norm (v : vec3) : f64 :=
  f64_sqrt (f64_add (f64_add (f64_mul (v0 v) (v0 v)) (f64_mul (v1 v) (v1 v))) (f64_mul (v2 v) (v2 v))).
Definition vec3_sub (a b : vec3) : vec3 := V3 (f64_sub (v0 a) (v0 b)) (f64_sub (v1 a) (v1 b)) (f64_sub (v2 a) (v2 b)).
Definition vec3_cross (a b : vec3) : vec3 :=
  V3 (f64_sub (f64_mul (v1 a) (v2 b)) (f64_mul (v2 a) (v1 b)))
     (f64_sub (f64_mul (v2 a) (v0 b)) (f64_mul (v0 a) (v2 b)))
     (f64_sub (f64_mul (v0 a) (v1 b)) (f64_mul (v1 a) (v0 b))).

(** One unit of a broadcast position is 4 km. *)
Definition ira_xyz_to_ecef (pos_xyz : Z * Z * Z) : vec3 :=
  let '(x, y, z) := pos_xyz in
  V3 (f64_mul (f64_of_Z x) (f64_of_Z 4000)) (f64_mul (f64_of_Z y) (f64_of_Z 4000)) (f64_mul (f64_of_Z z) (f64_of_Z 4000)).

(** * Satellite buffers *)

Definition MAX_SATELLITES : nat := 128.
Definition MEAS_PER_SAT : Z := 200.

Record sat_meas := Meas {
  sm_ecef : vec3;
  sm_freq : f64;
  sm_timestamp : Z;  (* uint64_t, ns *)
  sm_valid : bool;
}.
Definition zero_vec : vec3 := V3 (S754_zero false) (S754_zero false) (S754_zero false).
Definition zero_meas : sat_meas := Meas zero_vec (S754_zero false) 0 false.
#[export] Instance sat_meas_inhabited : Inhabited sat_meas := populate zero_meas.

Record sat_buffer := SatBuf {
  sb_sat_id : Z;
  sb_meas : list sat_meas;
  sb_head : Z;  (* next write index *)
  sb_count : Z;
  sb_channel_freq : f64;
}.
#[export] Instance sat_buffer_inhabited : Inhabited sat_buffer := populate (SatBuf 0 [] 0 0 (S754_zero false)).

Definition fresh_sat (sat_id : Z) : sat_buffer := SatBuf sat_id (replicate 200 zero_meas) 0 0 (S754_zero false).

(** The table and the index of the satellite's entry. *)
Definition find_or_create_sat (sats : list sat_buffer) (sat_id : Z) : option (list sat_buffer * nat) :=
  match list_find (fun s => sb_sat_id s = sat_id) sats with
  | Some (i, _) => Some (sats, i)
  | None => if (MAX_SATELLITES <=? length sats)%nat then None else Some (sats ++ [fresh_sat sat_id], length sats)
  end.

Definition sat_buf_add (s : sat_buffer) (ecef : vec3) (freq : f64) (ts : Z) : sat_buffer :=
  SatBuf (sb_sat_id s) (<[Z.to_nat (sb_head s) := Meas ecef freq ts true]> (sb_meas s))
    (Z.rem (sb_head s + 1) MEAS_PER_SAT) (if sb_count s <? MEAS_PER_SAT then sb_count s + 1 else sb_count s) (sb_channel_freq s).

(** Measurement [idx], 0 the oldest. *)
Definition sat_buf_get (s : sat_buffer) (idx : Z) : option sat_meas :=
  if (idx <? 0) || (sb_count s <=? idx) then None
  else
    let start := if sb_count s <? MEAS_PER_SAT then 0 else Z.rem (sb_head s - sb_count s + MEAS_PER_SAT) MEAS_PER_SAT in
    Some (sb_meas s !!! Z.to_nat (Z.rem (start + idx) MEAS_PER_SAT)).

(** * Screening and storing *)

Definition f64_zero : f64 := S754_zero false.
Definition SAT_GAP_RESET_S : f64 := f64_of_Z 600.

(** The wrapped difference of two [uint64_t] times in seconds. *)
Definition dt_s (t2 t1 : Z) : f64 := f64_div (f64_of_Z (u64 (t2 - t1))) (f64_of_Z 1000000000).

Definition coords_ok (ira : ira_data) : bool :=
  negb (f64_ltb (ira_lat ira) (f64_of_Z (-90)) || f64_gtb (ira_lat ira) (f64_of_Z 90)) &&
  negb (f64_ltb (ira_lon ira) (f64_of_Z (-180)) || f64_gtb (ira_lon ira) (f64_of_Z 180)).

(** Orbit radius 7050 to 7250 km. *)
Definition radius_ok (ecef : vec3) : bool :=
  let r := vec3_norm ecef in negb (f64_ltb r (f64_of_Z 7050000) || f64_gtb r (f64_of_Z 7250000)).

(** Faster than 10 km/s from one position to the next, within two minutes. *)
Definition too_fast (prev cur : vec3) (dt : f64) : bool :=
  f64_gtb dt f64_zero && f64_ltb dt (f64_of_Z 120) && f64_gtb (f64_div (vec3_norm (vec3_sub cur prev)) dt) (f64_of_Z 10000).

Inductive add_result :=
  | RejectSat0 | RejectCoord | RejectRadius | RejectVelocity
  | Counted.  (* also when the table is full and nothing is stored *)

(** The entry into which the measurement goes: emptied after a long gap;
    [None] when the satellite would have moved too fast. *)
Definition screen_entry (s : sat_buffer) (ecef : vec3) (ts : Z) : option sat_buffer :=
  if 0 <? sb_count s then
    let last := sb_meas s !!! Z.to_nat (Z.rem (sb_head s - 1 + MEAS_PER_SAT) MEAS_PER_SAT) in
    let dt := dt_s ts (sm_timestamp last) in
    if f64_gtb dt SAT_GAP_RESET_S then Some (SatBuf (sb_sat_id s) (sb_meas s) 0 0 f64_zero)
    else if too_fast (sm_ecef last) ecef dt then None
    else Some s
  else Some s.

Definition doppler_pos_add_measurement (sats : list sat_buffer) (ira : ira_data) (frequency : f64) (timestamp : Z)
  : list sat_buffer * add_result :=
  if ira_sat_id ira =? 0 then (sats, RejectSat0)
  else if negb (coords_ok ira) then (sats, RejectCoord)
  else
    let sat_ecef := ira_xyz_to_ecef (ira_pos_xyz ira) in
    if negb (radius_ok sat_ecef) then (sats, RejectRadius)
    else
      match find_or_create_sat sats (ira_sat_id ira) with
      | None => (sats, Counted)
      | Some (sats, i) =>
          match screen_entry (sats !!! i) sat_ecef timestamp with
          | None => (sats, RejectVelocity)
          | Some s => (<[i := sat_buf_add s sat_ecef frequency timestamp]> sats, Counted)
          end
      end.

(** A ring alert with its frequency and time. *)
Definition ring_alert : Type := ira_data * f64 * Z.

Definition doppler_store (sats : list sat_buffer) (alerts : list ring_alert) : list sat_buffer :=
  fold_left (fun sats a => fst (doppler_pos_add_measurement sats (fst (fst a)) (snd (fst a)) (snd a))) alerts sats.

(** * The promise of the store

    Per satellite, in the order of first hearing, the measurements of its
    current pass, oldest first and at most the 200 newest. *)

Definition lastn {A} (n : nat) (l : list A) : list A := drop (length l - n) l.

(** A measurement more than ten minutes after the last one starts a new pass, and so
    does one EARLIER than the last; one less than two minutes later and at a position
    that would need more than 10 km/s is not added.  Times are plain numbers here:
    the unsigned difference of the code is not in the specification. *)
Definition pass_add (p : list sat_meas) (m : sat_meas) : option (list sat_meas) :=
  match last p with
  | None => Some [m]
  | Some l =>
      let gap := sm_timestamp m - sm_timestamp l in
      if (gap <? 0) || (600000000000 <? gap) then Some [m]
      else if too_fast (sm_ecef l) (sm_ecef m) (ns_to_s gap) then None
      else Some (lastn 200 (p ++ [m]))
  end.

Abbreviation passes := (list (Z * list sat_meas)).

Definition screened (a : ring_alert) : bool :=
  let ira := fst (fst a) in negb (ira_sat_id ira =? 0) && coords_ok ira && radius_ok (ira_xyz_to_ecef (ira_pos_xyz ira)).
Definition alert_meas (a : ring_alert) : sat_meas := Meas (ira_xyz_to_ecef (ira_pos_xyz (fst (fst a)))) (snd (fst a)) (snd a) true.

Definition passes_add (t : passes) (a : ring_alert) : passes :=
  if negb (screened a) then t
  else
    let id := ira_sat_id (fst (fst a)) in
    match list_find (fun e => fst e = id) t with
    | Some (i, (_, p)) => match pass_add p (alert_meas a) with Some p' => <[i := (id, p')]> t | None => t end
    | None => if (MAX_SATELLITES <=? length t)%nat then t else t ++ [(id, [alert_meas a])]
    end.

(** * The ring *)

(** [n] measurements are stored: from slot 0 until the ring is full, then from
    the next write index. *)
Definition ring_shape (s : sat_buffer) (n : nat) : Prop :=
  length (sb_meas s) = 200%nat /\ 0 <= sb_head s < 200 /\ sb_count s = Z.of_nat n /\ (n <= 200)%nat /\ ((n < 200)%nat -> sb_head s = Z.of_nat n).

Definition ring_rep (s : sat_buffer) (p : list sat_meas) : Prop :=
  ring_shape s (length p) /\ forall i, sat_buf_get s (Z.of_nat i) = p !! i.

Lemma length_lastn {A} n (l : list A) : length (lastn n l) = Nat.min n (length l).
Proof. unfold lastn. rewrite length_drop. lia. Qed.

Lemma last_lastn {A} n (l : list A) : (0 < n)%nat -> last (lastn n l) = last l.
Proof.
  intros Hn. unfold lastn. destruct (decide (length l = 0)%nat) as [E|]; [by apply length_zero_iff_nil in E as ->|].
  replace (last l) with (last (take (length l - n) l ++ drop (length l - n) l)) by (by rewrite take_drop). rewrite last_app. destruct (last (drop _ l)) eqn:E; [done|].
  apply last_None in E. apply (f_equal length) in E. rewrite length_drop in E. cbn in E. lia.
Qed.

(** The slot of measurement [i]. *)
Definition slot (s : sat_buffer) (i : nat) : nat :=
  let start := if sb_count s <? MEAS_PER_SAT then 0 else Z.rem (sb_head s - sb_count s + MEAS_PER_SAT) MEAS_PER_SAT in
  Z.to_nat (Z.rem (start + Z.of_nat i) MEAS_PER_SAT).

Lemma sat_buf_get_slot s i : (Z.of_nat i < sb_count s) -> sat_buf_get s (Z.of_nat i) = Some (sb_meas s !!! slot s i).
Proof. intros Hi. unfold sat_buf_get. rewrite (proj2 (Z.ltb_ge _ _)), (proj2 (Z.leb_gt _ _)) by lia. done. Qed.

Lemma slot_spec s n i : ring_shape s n -> (i < n)%nat ->
  slot s i = Z.to_nat (if (n <? 200)%nat then Z.of_nat i else (sb_head s + Z.of_nat i) mod 200).
Proof.
  intros (Hl & Hh & Hc & Hp & Hlt) Hi. unfold slot, MEAS_PER_SAT. rewrite Hc.
  destruct (Nat.ltb_spec n 200) as [H|H].
  - rewrite (proj2 (Z.ltb_lt _ _)) by lia. rewrite Z.add_0_l, Z.rem_small by lia. done.
  - rewrite (proj2 (Z.ltb_ge _ _)) by lia. replace (Z.of_nat n) with 200 by lia. f_equal.
    replace (sb_head s - 200 + 200) with (sb_head s) by lia. rewrite (Z.rem_small (sb_head s)), Z.rem_mod_nonneg by lia. done.
Qed.

Lemma ring_shape_add s n ecef freq ts : ring_shape s n -> let s' := sat_buf_add s ecef freq ts in
  ring_shape s' (Nat.min 200 (n + 1)) /\ sb_head s' = (sb_head s + 1) mod 200 /\
  sb_meas s' = <[Z.to_nat (sb_head s) := Meas ecef freq ts true]> (sb_meas s).
Proof.
  intros (Hl & Hh & Hc & Hp & Hlt) s'.
  assert (sb_head s' = (sb_head s + 1) mod 200) as Hh' by (apply Z.rem_mod_nonneg; unfold MEAS_PER_SAT; lia).
  split; [|by split]. unfold ring_shape. split; [unfold s', sat_buf_add; cbn [sb_meas]; by rewrite length_insert|].
  split; [rewrite Hh'; apply Z.mod_pos_bound; lia|]. split; [|split; [lia|]].
  - unfold s', sat_buf_add, MEAS_PER_SAT. cbn [sb_count]. destruct (Z.ltb_spec (sb_count s) 200); lia.
  - intros Hx. rewrite Hh', Hlt, Z.mod_small by lia. lia.
Qed.

Lemma ring_rep_add s p ecef freq ts : ring_rep s p -> ring_rep (sat_buf_add s ecef freq ts) (lastn 200 (p ++ [Meas ecef freq ts true])).
Proof.
  intros [HS Hg]. pose proof HS as (Hl & Hh & Hc & Hp & Hlt). set (m := Meas ecef freq ts true).
  pose proof (ring_shape_add s _ ecef freq ts HS) as (HS' & Hh' & Hm'). set (s' := sat_buf_add s ecef freq ts) in *. fold m in Hm'.
  assert (length (lastn 200 (p ++ [m])) = Nat.min 200 (length p + 1)) as Hlen by (rewrite length_lastn, length_app; done).
  unfold ring_rep. rewrite Hlen. split; [done|]. intros i. pose proof HS' as (_ & _ & Hc' & _).
  destruct (decide (i < Nat.min 200 (length p + 1))%nat) as [Hi|Hi].
  2:{ rewrite (lookup_ge_None_2 (lastn _ _)) by lia. unfold sat_buf_get. rewrite (proj2 (Z.leb_le _ _)) by lia. by rewrite orb_true_r. }
  rewrite sat_buf_get_slot by lia. unfold lastn. rewrite lookup_drop, length_app. cbn [length]. pose proof (slot_spec s' _ i HS' Hi) as Hslot.
  destruct (decide (i + 1 = Nat.min 200 (length p + 1))%nat) as [Elast|Nlast].
  - rewrite lookup_app_r, list_lookup_singleton by lia. replace (length p + 1 - 200 + i - length p)%nat with 0%nat by lia.
    f_equal. assert (slot s' i = Z.to_nat (sb_head s)) as ->; [|rewrite Hm'; by rewrite list_lookup_total_insert_eq by lia].
    rewrite Hslot. destruct (Nat.ltb_spec (Nat.min 200 (length p + 1)) 200); [rewrite Hlt; lia|].
    rewrite Hh'. f_equal. replace (Z.of_nat i) with 199 by lia. rewrite Z.add_mod_idemp_l by lia.
    replace (sb_head s + 1 + 199) with (sb_head s + 1 * 200) by lia. rewrite Z.mod_add, Z.mod_small by lia. done.
  - rewrite lookup_app_l by lia. set (j := (length p + 1 - 200 + i)%nat). assert (j < length p)%nat as Hj by lia.
    rewrite <- Hg, sat_buf_get_slot by lia. f_equal. pose proof (slot_spec s _ j HS Hj) as Ej.
    assert (slot s' i = slot s j) as ->.
    { rewrite Hslot, Ej. f_equal. destruct (Nat.ltb_spec (Nat.min 200 (length p + 1)) 200), (Nat.ltb_spec (length p) 200); try lia.
      - rewrite Hh', Hlt by lia. replace (Z.of_nat (length p) + 1) with 200 by lia. rewrite Z.mod_same, Z.add_0_l, Z.mod_small by lia. lia.
      - rewrite Hh', Z.add_mod_idemp_l by lia. f_equal. lia. }
    rewrite Hm', list_lookup_total_insert_ne; [done|]. rewrite Ej. destruct (Nat.ltb_spec (length p) 200); [rewrite Hlt by lia; lia|].
    pose proof (Z.mod_pos_bound (sb_head s + Z.of_nat j) 200 ltac:(lia)). intros E2%Z2Nat.inj; [|lia..]. Z.div_mod_to_equations. lia.
Qed.

Lemma ring_rep_fresh id : ring_rep (fresh_sat id) [].
Proof.
  split; [unfold ring_shape; cbn; lia|]. intros i. unfold sat_buf_get, fresh_sat. cbn [sb_count]. rewrite (proj2 (Z.leb_le _ _)) by lia. by rewrite orb_true_r.
Qed.

Lemma ring_rep_reset s p f : ring_rep s p -> ring_rep (SatBuf (sb_sat_id s) (sb_meas s) 0 0 f) [].
Proof.
  intros [(Hl & _) _]. split; [unfold ring_shape; cbn; lia|]. intros i. unfold sat_buf_get. cbn [sb_count]. rewrite (proj2 (Z.leb_le _ _)) by lia. by rewrite orb_true_r.
Qed.

(** What the screening reads is the newest measurement. *)
Lemma ring_last s p : ring_rep s p -> (0 < length p)%nat ->
  last p = Some (sb_meas s !!! Z.to_nat (Z.rem (sb_head s - 1 + MEAS_PER_SAT) MEAS_PER_SAT)).
Proof.
  intros [HS Hg] Hp. pose proof HS as (Hl & Hh & Hc & Hle & Hlt). rewrite last_lookup. rewrite <- Hg, sat_buf_get_slot by lia. do 2 f_equal.
  rewrite (slot_spec s _ _ HS) by lia. f_equal. unfold MEAS_PER_SAT. rewrite Z.rem_mod_nonneg by lia.
  destruct (Nat.ltb_spec (length p) 200).
  - rewrite Hlt by lia. replace (Z.of_nat (length p) - 1 + 200) with (Z.of_nat (Nat.pred (length p)) + 1 * 200) by lia. rewrite Z.mod_add, Z.mod_small by lia. done.
  - f_equal. lia.
Qed.

(** Times that can be told apart: before [2 ^ 63] ns. *)
Definition timed (m : sat_meas) : Prop := 0 <= sm_timestamp m < 2 ^ 63.

(** The unsigned difference is huge for an earlier time. *)
Lemma gap_wraps a b : 0 <= a < 2 ^ 63 -> 0 <= b < 2 ^ 63 ->
  (600000000000 <? u64 (b - a)) = ((b - a <? 0) || (600000000000 <? b - a)) /\ (0 <= b - a -> u64 (b - a) = b - a).
Proof.
  intros Ha Hb. assert (0 <= b - a -> u64 (b - a) = b - a) as Hu by (intros H; unfold u64; apply Z.mod_small; lia).
  split; [|done]. destruct (Z.ltb_spec (b - a) 0) as [H|H]; [|by rewrite Hu].
  unfold u64. rewrite <- (Z.mod_add _ 1), Z.mod_small by lia. apply Z.ltb_lt. lia.
Qed.

Lemma screen_entry_pass s p ecef freq ts : ring_rep s p -> Forall timed p -> 0 <= ts < 2 ^ 63 ->
  match screen_entry s ecef ts with
  | Some s' => sb_sat_id s' = sb_sat_id s /\ exists p', pass_add p (Meas ecef freq ts true) = Some p' /\ ring_rep (sat_buf_add s' ecef freq ts) p'
  | None => pass_add p (Meas ecef freq ts true) = None
  end.
Proof.
  intros HR HP Hts. pose proof HR as [(_ & _ & Hc & _) _]. unfold screen_entry, pass_add. rewrite Hc. destruct (decide (length p = 0)%nat) as [E|N].
  - apply length_zero_iff_nil in E as ->. cbn [length last]. split; [done|]. eexists. split; [done|]. apply (ring_rep_add s [] ecef freq ts HR).
  - rewrite (proj2 (Z.ltb_lt _ _)) by lia. assert (last p = Some (sb_meas s !!! Z.to_nat (Z.rem (sb_head s - 1 + MEAS_PER_SAT) MEAS_PER_SAT))) as El by (apply ring_last; [done|lia]).
    rewrite El. set (l := _ !!! _) in *. cbv zeta. cbn [sm_timestamp sm_ecef].
    assert (timed l) as Hl by (rewrite Forall_forall in HP; apply HP, last_Some_elem_of, El).
    destruct (gap_wraps (sm_timestamp l) ts Hl Hts) as [Hg Hu].
    unfold dt_s, SAT_GAP_RESET_S. fold (ns_to_s (u64 (ts - sm_timestamp l))). rewrite ns_gt_600, Hg by apply u64_range.
    destruct (Z.ltb_spec (ts - sm_timestamp l) 0) as [|Hge]; cbn [orb]; [|rewrite Hu by done; destruct (Z.ltb_spec 600000000000 (ts - sm_timestamp l)); [|destruct (too_fast _ _ _); [done|]]];
      (split; [done|]; eexists; split; [done|]).
    + apply (ring_rep_add _ [] ecef freq ts). by apply (ring_rep_reset s p).
    + apply (ring_rep_add _ [] ecef freq ts). by apply (ring_rep_reset s p).
    + by apply ring_rep_add.
Qed.

(** * The table *)

Definition entry_rep (s : sat_buffer) (e : Z * list sat_meas) : Prop := sb_sat_id s = fst e /\ ring_rep s (snd e).

Lemma find_agree sats t id : Forall2 entry_rep sats t ->
  match list_find (fun s => sb_sat_id s = id) sats with
  | Some (i, s) => exists e, list_find (fun e => fst e = id) t = Some (i, e) /\ entry_rep s e /\ sats !!! i = s
  | None => list_find (fun e => fst e = id) t = None
  end.
Proof.
  induction 1 as [|s e sats t [Hid Hr] HF IH]; [done|]. cbn [list_find]. destruct (decide (sb_sat_id s = id)) as [E|N].
  - rewrite decide_True by congruence. by exists e.
  - rewrite (decide_False (P := fst e = id)) by congruence. destruct (list_find _ sats) as [[i s']|]; cbn.
    + destruct IH as (e' & -> & H1 & H2). exists e'. by split.
    + by rewrite IH.
Qed.

Lemma add_refines sats t a : Forall2 entry_rep sats t -> Forall (fun e => Forall timed (snd e)) t -> timed (alert_meas a) ->
  Forall2 entry_rep (fst (doppler_pos_add_measurement sats (fst (fst a)) (snd (fst a)) (snd a))) (passes_add t a).
Proof.
  destruct a as [[ira freq] ts]. cbn [fst snd]. intros HF HT Hts. unfold doppler_pos_add_measurement, passes_add, screened, alert_meas. cbn [fst snd].
  destruct (ira_sat_id ira =? 0); [done|]. destruct (coords_ok ira); [|done]. destruct (radius_ok _); [|done]. cbn [negb andb].
  set (ecef := ira_xyz_to_ecef _). set (id := ira_sat_id ira). unfold find_or_create_sat.
  pose proof (find_agree sats t id HF) as Hf. destruct (list_find _ sats) as [[i s]|] eqn:Ef.
  - destruct Hf as ([id' p] & Ef2 & [Hid Hr] & ->). rewrite Ef2.
    assert (Forall timed p) as HP by (apply list_find_Some in Ef2 as (Ei & _); rewrite Forall_lookup in HT; apply (HT _ _ Ei)).
    pose proof (screen_entry_pass s p ecef freq ts Hr HP Hts) as Hs. cbn [fst snd] in *.
    apply list_find_Some in Ef as (_ & Eid & _). destruct (screen_entry s ecef ts) as [s'|]; cbn [fst].
    + destruct Hs as (Hid' & p' & -> & Hr'). apply Forall2_insert; [done|]. split; [|done]. cbn [fst sat_buf_add sb_sat_id]. congruence.
    + by rewrite Hs.
  - rewrite Hf. rewrite (Forall2_length _ _ _ HF). destruct (MAX_SATELLITES <=? length t)%nat; [done|].
    rewrite <- (Forall2_length _ _ _ HF), list_lookup_total_middle by done.
    unfold screen_entry at 1. cbn [sb_count fresh_sat]. change (0 <? 0) with false. cbn [fst].
    rewrite insert_app_r_alt by lia. rewrite Nat.sub_diag. apply Forall2_app; [done|]. constructor; [|constructor].
    split; [done|]. apply (ring_rep_add _ [] ecef freq ts). apply ring_rep_fresh.
Qed.

(** ** What a stored pass satisfies *)

Definition steady (a b : sat_meas) : Prop :=
  let gap := sm_timestamp b - sm_timestamp a in
  0 <= gap <= 600000000000 /\ too_fast (sm_ecef a) (sm_ecef b) (ns_to_s gap) = false.

Record good_pass (e : Z * list sat_meas) : Prop := {
  gp_id : fst e <> 0;
  gp_length : (1 <= length (snd e) <= 200)%nat;
  gp_orbit : Forall (fun m => radius_ok (sm_ecef m) = true /\ sm_valid m = true) (snd e);
  gp_steady : forall i a b, snd e !! i = Some a -> snd e !! S i = Some b -> steady a b;
}.

Record good_passes (t : passes) : Prop := {
  gt_length : (length t <= MAX_SATELLITES)%nat;
  gt_distinct : NoDup (fst <$> t);
  gt_good : Forall good_pass t;
}.

Lemma pass_add_good id p m p' : (p = [] \/ good_pass (id, p)) -> id <> 0 -> radius_ok (sm_ecef m) = true -> sm_valid m = true ->
  pass_add p m = Some p' -> good_pass (id, p').
Proof.
  intros Hp Hid Hr Hv. assert (good_pass (id, [m])) as H1.
  { split; cbn [fst snd]; [done|cbn; lia|by repeat constructor|]. intros [|i] a b H0 Hb; [|done]. done. }
  unfold pass_add. destruct (last p) as [l|] eqn:El; [|intros E; by simplify_eq].
  destruct Hp as [->|[_ Hlen Ho Hs]]; [done|]. cbn [fst snd] in *.
  destruct (Z.ltb_spec (sm_timestamp m - sm_timestamp l) 0) as [|Hge]; cbn [orb]; [intros E; by simplify_eq|].
  destruct (Z.ltb_spec 600000000000 (sm_timestamp m - sm_timestamp l)) as [|Hgap]; [intros E; by simplify_eq|].
  destruct (too_fast _ _ _) eqn:Ef; [done|]. intros [= <-]. split; cbn [fst snd].
  - done.
  - rewrite length_lastn, length_app. cbn [length]. lia.
  - unfold lastn. apply Forall_drop, Forall_app. split; [done|]. by repeat constructor.
  - unfold lastn. intros i a b Ha Hb. rewrite lookup_drop in Ha, Hb. set (k := (length (p ++ [m]) - 200 + i)%nat) in *.
    replace (length (p ++ [m]) - 200 + S i)%nat with (S k) in Hb by lia. destruct (decide (S k < length p)%nat) as [Hk|Hk].
    + rewrite lookup_app_l in Ha, Hb by lia. by apply (Hs k).
    + apply lookup_lt_Some in Hb as Hb'. rewrite length_app in Hb'. cbn in Hb'. assert (S k = length p) as E by lia.
      rewrite lookup_app_l in Ha by lia. rewrite lookup_app_r, E, Nat.sub_diag in Hb by lia. rewrite last_lookup, <- E in El. cbn in El, Hb.
      rewrite Ha in El. by simplify_eq.
Qed.

Lemma passes_add_good t a : good_passes t -> good_passes (passes_add t a).
Proof.
  intros [Hlen Hnd Hg]. unfold passes_add. destruct (screened a) eqn:Es; [|done]. cbn [negb].
  unfold screened in Es. apply andb_true_iff in Es as [Es Hr]. apply andb_true_iff in Es as [Hid _]. apply negb_true_iff, Z.eqb_neq in Hid.
  set (id := ira_sat_id _) in *. destruct (list_find _ t) as [[i [id' p]]|] eqn:Ef.
  - apply list_find_Some in Ef as (Ei & Eid & _). cbn in Eid. subst id'. destruct (pass_add p (alert_meas a)) as [p'|] eqn:Ep; [|done].
    rewrite Forall_lookup in Hg. assert (good_pass (id, p')) by (apply (pass_add_good id p (alert_meas a)); [right; by eapply Hg|done..]). split.
    + by rewrite length_insert.
    + rewrite list_fmap_insert. cbn [fst]. rewrite list_insert_id; [done|]. by rewrite list_lookup_fmap, Ei.
    + apply Forall_insert; [by apply Forall_lookup|done].
  - destruct (Nat.leb_spec MAX_SATELLITES (length t)); [done|]. split.
    + rewrite length_app. cbn. lia.
    + rewrite fmap_app. apply NoDup_app. split; [done|]. split; [|apply NoDup_singleton].
      intros x Hx%list_elem_of_fmap. destruct Hx as (e & -> & He). cbn. intros Heq%list_elem_of_singleton.
      apply (list_find_None _ _) in Ef. rewrite Forall_forall in Ef. by apply (Ef e).
    + apply Forall_app. split; [done|]. constructor; [|constructor]. by apply (pass_add_good id [] (alert_meas a)); [left|..].
Qed.

Lemma passes_good t alerts : good_passes t -> good_passes (fold_left passes_add alerts t).
Proof. revert t. induction alerts as [|a alerts IH]; intros t HF; [done|]. cbn. by apply IH, passes_add_good. Qed.

Lemma good_passes_nil : good_passes [].
Proof. split; [cbn; lia|constructor|done]. Qed.

(** What holds of every alert's measurement holds of the stored ones. *)
Lemma pass_add_forall (P : sat_meas -> Prop) p m p' : Forall P p -> P m -> pass_add p m = Some p' -> Forall P p'.
Proof.
  intros HF Hm. unfold pass_add. destruct (last p); [|intros [= <-]; by repeat constructor]. destruct (_ || _); [intros [= <-]; by repeat constructor|].
  destruct (too_fast _ _ _); [done|]. intros [= <-]. unfold lastn. apply Forall_drop, Forall_app. split; [done|]. by repeat constructor.
Qed.

Lemma passes_forall (P : sat_meas -> Prop) alerts t : Forall (fun e => Forall P (snd e)) t -> Forall (fun a => P (alert_meas a)) alerts ->
  Forall (fun e => Forall P (snd e)) (fold_left passes_add alerts t).
Proof.
  intros Ht HF. revert t Ht. induction HF as [|a alerts Ha HF IH]; intros t Ht; [done|]. cbn. apply IH. unfold passes_add.
  destruct (negb (screened a)); [done|]. destruct (list_find _ t) as [[i [id p]]|] eqn:Ef.
  - apply list_find_Some in Ef as (Ei & _). rewrite Forall_lookup in Ht. destruct (pass_add p _) as [p'|] eqn:Ep; [|by apply Forall_lookup].
    apply Forall_insert; [by apply Forall_lookup|]. cbn. eapply pass_add_forall; [apply (Ht _ _ Ei)|exact Ha|exact Ep].
  - destruct (_ <=? _)%nat; [done|]. apply Forall_app. split; [done|]. by repeat constructor.
Qed.

Lemma store_refines sats t alerts : Forall2 entry_rep sats t -> Forall (fun e => Forall timed (snd e)) t -> Forall (fun a => timed (alert_meas a)) alerts ->
  Forall2 entry_rep (doppler_store sats alerts) (fold_left passes_add alerts t).
Proof.
  intros HF HT HA. revert sats t HF HT. induction HA as [|a alerts Ha HA IH]; intros sats t HF HT; [done|]. cbn. apply IH; [by apply add_refines|].
  apply (passes_forall timed [a] t HT). apply Forall_singleton, Ha.
Qed.

(** C32 (refinement).  After any sequence of ring alerts with times before [2 ^ 63] ns
    the store holds, satellite by satellite in the order of first hearing, exactly the
    measurements of the current pass: ring [i] reads, oldest first, as the [i]-th pass
    of the specification, which starts anew with an alert more than 600 s after the
    last or earlier than the last, leaves out one that follows within 120 s but would
    need more than 10 km/s, and keeps the 200 newest measurements.  At most 128
    satellites are stored, under distinct nonzero identities; every stored position
    has an orbit radius of 7050 to 7250 km; the times of a pass never decrease and
    neighbours are at most 600 s apart, and faster than 10 km/s only when they are at
    the same time or 120 s or more apart. *)
Theorem doppler_store_refines alerts : Forall (fun a => 0 <= snd a < 2 ^ 63) alerts ->
  let t := fold_left passes_add alerts [] in
  Forall2 (fun s e => sb_sat_id s = fst e /\ sb_count s = Z.of_nat (length (snd e)) /\ forall i, sat_buf_get s (Z.of_nat i) = snd e !! i)
    (doppler_store [] alerts) t /\
  good_passes t.
Proof.
  intros HA. split; [|apply passes_good, good_passes_nil]. eapply Forall2_impl; [apply store_refines; [constructor|constructor|exact HA]|].
  intros s e [Hid [(_ & _ & Hc & _) Hg]]. done.
Qed.

(** Three alerts of one satellite, the third earlier than the second. *)
Lemma doppler_store_refines_witness :
  let ira x y := IraData 7 1 f64_zero f64_zero 780 (x, y, 0) 0 [] in
  let alerts := [(ira 1790 0, f64_of_Z 1626104000, 5000000000); (ira 1789 19, f64_of_Z 1626103000, 15000000000);
                 (ira 1789 10, f64_of_Z 1626103000, 14000000000)] in
  sb_count <$> doppler_store [] (take 2 alerts) = [2] /\ sb_count <$> doppler_store [] alerts = [1] /\
  good_passes (fold_left passes_add alerts []).
Proof.
  intros ira alerts. split; [by vm_compute|]. split; [by vm_compute|]. apply (doppler_store_refines alerts). repeat constructor; cbn; lia.
Defined.
