(* ===== verification/Mat4.v ===== *)
(** [mat4_invert] of [src/doppler_pos.c]: inversion of a 4x4 matrix by
    Gauss-Jordan elimination with partial pivoting.

    The routine is written once over the arithmetic it uses ([NumOps]); the
    positioning engine runs it in binary64, and over an exact field the same
    routine is proved to return the inverse. *)
From S2P Require Import Prelude CFloat.
From Stdlib Require Import QArith Qcanon Qcabs Field.
#[local] Open Scope Z_scope.

(** * The arithmetic *)

Class NumOps (F : Type) := {
  n_zero : F;
  n_one : F;
  n_sub : F -> F -> F;
  n_mul : F -> F -> F;
  n_div : F -> F -> F;
  n_abs : F -> F;
  n_ltb : F -> F -> bool;
  n_tiny : F;  (* 1e-30 *)
}.

#[export] Instance f64_ops : NumOps f64 := {
  n_zero := S754_zero false;
  n_one := f64_of_Z 1;
  n_sub := f64_sub;
  n_mul := f64_mul;
  n_div := f64_div;
  n_abs := f64_abs;
  n_ltb := f64_ltb;
  n_tiny := f64_lit 1 (10 ^ 30);
}.

(** * The routine *)

Section invert.
Context {F : Type} `{NumOps F}.
#[local] Instance F_inhabited : Inhabited F := populate n_zero.

Definition ent (A : list (list F)) (i j : nat) : F := (A !!! i) !!! j.

Definition identity4 : list (list F) :=
  map (fun i => map (fun j => if (i =? j)%nat then n_one else n_zero) (seq 0 4)) (seq 0 4).

(** The row at or below [col] with the largest entry in that column, and the
    magnitude of that entry. *)
Definition find_pivot (A : list (list F)) (col : nat) : nat * F :=
  fold_left (fun '(pivot, max_val) row =>
      if n_ltb max_val (n_abs (ent A row col)) then (row, n_abs (ent A row col)) else (pivot, max_val))
    (seq (col + 1) (3 - col)) (col, n_abs (ent A col col)).

Definition swap_rows (A : list (list F)) (a b : nat) : list (list F) := <[a := A !!! b]> (<[b := A !!! a]> A).
Definition scale_row (A : list (list F)) (col : nat) (diag : F) : list (list F) :=
  <[col := map (fun x => n_div x diag) (A !!! col)]> A.
(** [B[row][j] -= A[row][col] * B[col][j]] for every other row. *)
Definition eliminate (A B : list (list F)) (col : nat) : list (list F) :=
  imap (fun row r => if (row =? col)%nat then r
                     else zip_with (fun x y => n_sub x (n_mul (ent A row col) y)) r (B !!! col)) B.

Definition mat4_column (s : list (list F) * list (list F)) (col : nat) : option (list (list F) * list (list F)) :=
  let '(A, inv) := s in
  let '(pivot, max_val) := find_pivot A col in
  if n_ltb max_val n_tiny then None
  else
    let '(A, inv) := if (pivot =? col)%nat then (A, inv) else (swap_rows A col pivot, swap_rows inv col pivot) in
    let diag := ent A col col in
    let '(A, inv) := (scale_row A col diag, scale_row inv col diag) in
    Some (eliminate A A col, eliminate A inv col).

Definition mat4_invert (A : list (list F)) : option (list (list F)) :=
  s0 ← mat4_column (A, identity4) 0; s1 ← mat4_column s0 1; s2 ← mat4_column s1 2; s3 ← mat4_column s2 3; Some (snd s3).

(** * Entries after a row operation *)

Definition square4 (A : list (list F)) : Prop := length A = 4%nat /\ Forall (fun r => length r = 4%nat) A.

Lemma square4_row A i : square4 A -> (i < 4)%nat -> length (A !!! i) = 4%nat.
Proof. intros [Hl HF] Hi. rewrite Forall_lookup in HF. apply (HF i). apply list_lookup_lookup_total_lt. lia. Qed.

Lemma square4_identity : square4 identity4.
Proof. split; [done|]. by repeat constructor. Qed.

Lemma square4_insert A i r : square4 A -> length r = 4%nat -> square4 (<[i := r]> A).
Proof. intros [Hl HF] Hr. split; [by rewrite length_insert|by apply Forall_insert]. Qed.

Lemma square4_swap A a b : square4 A -> (a < 4)%nat -> (b < 4)%nat -> square4 (swap_rows A a b).
Proof. intros HA Ha Hb. unfold swap_rows. repeat apply square4_insert; try done; by apply square4_row. Qed.

Lemma square4_scale A col d : square4 A -> (col < 4)%nat -> square4 (scale_row A col d).
Proof. intros HA Hc. apply square4_insert; [done|]. rewrite length_map. by apply square4_row. Qed.

Lemma square4_eliminate A B col : square4 B -> (col < 4)%nat -> square4 (eliminate A B col).
Proof.
  intros HB Hc. pose proof (square4_row B col HB Hc) as Hr. destruct HB as [Hl HF]. unfold eliminate. split; [by rewrite length_imap|].
  apply Forall_lookup. intros i r. rewrite list_lookup_imap. destruct (B !! i) as [r0|] eqn:E; [|done]. cbn. intros [= <-].
  rewrite Forall_lookup in HF. specialize (HF i r0 E). destruct (i =? col)%nat; [done|]. rewrite length_zip_with. lia.
Qed.

Lemma ent_swap A a b i j : square4 A -> (a < 4)%nat -> (b < 4)%nat -> (i < 4)%nat ->
  ent (swap_rows A a b) i j = ent A (if decide (i = a) then b else if decide (i = b) then a else i) j.
Proof.
  intros [Hl _] Ha Hb Hi. unfold ent, swap_rows. destruct (decide (i = a)) as [->|Na].
  - by rewrite list_lookup_total_insert_eq by (rewrite length_insert; lia).
  - rewrite list_lookup_total_insert_ne by done. destruct (decide (i = b)) as [->|Nb].
    + by rewrite list_lookup_total_insert_eq by lia.
    + by rewrite list_lookup_total_insert_ne by done.
Qed.

Lemma ent_scale A col d i j : square4 A -> (col < 4)%nat -> (j < 4)%nat ->
  ent (scale_row A col d) i j = if decide (i = col) then n_div (ent A col j) d else ent A i j.
Proof.
  intros HA Hc Hj. unfold ent, scale_row. destruct (decide (i = col)) as [->|N].
  - rewrite list_lookup_total_insert_eq by (destruct HA; lia). change (map ?f ?l) with (f <$> l).
    rewrite list_lookup_total_alt, list_lookup_fmap, (list_lookup_lookup_total_lt (A !!! col) j); [done|]. by rewrite (square4_row A col HA Hc).
  - by rewrite list_lookup_total_insert_ne by done.
Qed.

Lemma ent_eliminate A B col i j : square4 B -> (col < 4)%nat -> (i < 4)%nat -> (j < 4)%nat ->
  ent (eliminate A B col) i j = if decide (i = col) then ent B i j else n_sub (ent B i j) (n_mul (ent A i col) (ent B col j)).
Proof.
  intros HB Hc Hi Hj. unfold ent at 1, eliminate. assert (B !! i = Some (B !!! i)) as E by (apply list_lookup_lookup_total_lt; destruct HB; lia).
  rewrite (list_lookup_total_alt (imap _ _)), list_lookup_imap, E. cbn. unfold ent. destruct (decide (i = col)) as [->|N].
  - by rewrite Nat.eqb_refl.
  - rewrite (proj2 (Nat.eqb_neq _ _)) by done.
    rewrite (list_lookup_total_alt (zip_with _ _ _)), lookup_zip_with.
    rewrite !list_lookup_lookup_total_lt by (rewrite square4_row; done). done.
Qed.

Lemma find_pivot_spec A col : (col < 4)%nat ->
  let '(pivot, max_val) := find_pivot A col in (col <= pivot < 4)%nat /\ max_val = n_abs (ent A pivot col).
Proof.
  intros Hc. unfold find_pivot.
  assert (forall rows p v, (col <= p < 4)%nat -> v = n_abs (ent A p col) -> Forall (fun r => (col <= r < 4)%nat) rows ->
    let '(pivot, max_val) := fold_left (fun '(pivot, max_val) row =>
      if n_ltb max_val (n_abs (ent A row col)) then (row, n_abs (ent A row col)) else (pivot, max_val)) rows (p, v) in
    (col <= pivot < 4)%nat /\ max_val = n_abs (ent A pivot col)) as Hgen.
  { induction rows as [|r rows IH]; intros p v Hp Hv HF; [done|]. inversion HF; subst. cbn [fold_left].
    destruct (n_ltb _ _); by apply IH. }
  apply Hgen; [lia|done|]. apply Forall_forall. intros r Hr%elem_of_seq. lia.
Qed.

Lemma mat4_column_square s col s' : square4 (snd s) -> (col < 4)%nat -> mat4_column s col = Some s' -> square4 (snd s').
Proof.
  destruct s as [A inv]. cbn [snd]. intros HI Hc. unfold mat4_column. pose proof (find_pivot_spec A col Hc) as Hp.
  destruct (find_pivot A col) as [p v]. destruct (n_ltb _ _); [done|].
  destruct (p =? col)%nat; intros [= <-]; cbn [snd]; apply square4_eliminate; try done; apply square4_scale; try done; apply square4_swap; [done|lia|lia].
Qed.

Lemma mat4_invert_square A inv : mat4_invert A = Some inv -> square4 inv.
Proof.
  unfold mat4_invert. intros (s0 & E0 & (s1 & E1 & (s2 & E2 & (s3 & E3 & [= <-])%bind_Some)%bind_Some)%bind_Some)%bind_Some.
  apply mat4_column_square in E0; [|apply square4_identity|lia]. apply mat4_column_square in E1; [|done|lia].
  apply mat4_column_square in E2; [|done|lia]. by apply mat4_column_square in E3; [|done|lia].
Qed.
End invert.

(** * Over an exact field *)

(** What exactness adds: the laws of a field, and that a magnitude that is not
    below the threshold is not zero. *)
Class ExactField (F : Type) `{NumOps F} := {
  n_add : F -> F -> F;
  n_opp : F -> F;
  n_inv : F -> F;
  n_field : field_theory n_zero n_one n_add n_mul n_sub n_opp n_div n_inv (@eq F);
  n_nonzero : forall x, n_ltb (n_abs x) n_tiny = false -> x <> n_zero;
}.

#[export] Instance Qc_ops : NumOps Qc := {
  n_zero := 0%Qc;
  n_one := 1%Qc;
  n_sub := Qcminus;
  n_mul := Qcmult;
  n_div := Qcdiv;
  n_abs := Qcabs;
  n_ltb x y := negb (Qle_bool y x);
  n_tiny := Q2Qc (1 # 10 ^ 30);
}.

Lemma Qc_nonzero (x : Qc) : n_ltb (n_abs x) n_tiny = false -> x <> n_zero.
Proof. intros Hx ->. by vm_compute in Hx. Qed.

#[export] Instance Qc_exact : ExactField Qc := {
  n_add := Qcplus;
  n_opp := Qcopp;
  n_inv := Qcinv;
  n_field := Qcft;
  n_nonzero := Qc_nonzero;
}.

Section exact.
Context {F : Type} `{ExactField F}.
Add Field F_exact : n_field.
#[local] Existing Instance F_inhabited.

(** Entry [i j] of the product of two 4x4 matrices. *)
Definition prod4 (A B : list (list F)) (i j : nat) : F :=
  n_add (n_add (n_add (n_mul (ent A i 0) (ent B 0 j)) (n_mul (ent A i 1) (ent B 1 j))) (n_mul (ent A i 2) (ent B 2 j))) (n_mul (ent A i 3) (ent B 3 j)).

Definition delta (i j : nat) : F := if decide (i = j) then n_one else n_zero.

(** The right half stays the matrix that turns the original into the left half,
    and the columns dealt with are those of the identity. *)
Record reduced (A0 : list (list F)) (k : nat) (s : list (list F) * list (list F)) : Prop := {
  rd_left : square4 (fst s);
  rd_right : square4 (snd s);
  rd_prod : forall i j, (i < 4)%nat -> (j < 4)%nat -> prod4 (snd s) A0 i j = ent (fst s) i j;
  rd_done : forall i j, (i < 4)%nat -> (j < k)%nat -> ent (fst s) i j = delta i j;
}.

Lemma reduced_init A0 : square4 A0 -> reduced A0 0 (A0, identity4).
Proof.
  intros HA. split; cbn [fst snd]; [done|apply square4_identity| |lia].
  intros i j Hi Hj. unfold prod4. do 4 (destruct i as [|i]; [unfold ent at 1 3 5 7; cbn; ring|]). lia.
Qed.

Lemma reduced_swap A0 k A inv p : reduced A0 k (A, inv) -> (k <= p < 4)%nat -> reduced A0 k (swap_rows A k p, swap_rows inv k p).
Proof.
  intros [HA HI HP HD] Hp. cbn [fst snd] in *. split; cbn [fst snd]; [apply square4_swap; [done|lia..]|apply square4_swap; [done|lia..]| |].
  - intros i j Hi Hj. unfold prod4. rewrite !ent_swap by (done || lia). apply HP; [|done]. destruct (decide _); [lia|]. destruct (decide _); lia.
  - intros i j Hi Hj. rewrite ent_swap by (done || lia). rewrite HD; [|destruct (decide _); [lia|]; destruct (decide _); lia|done].
    unfold delta. destruct (decide (i = k)) as [->|]; [by rewrite !decide_False by lia|]. destruct (decide (i = p)) as [->|]; [by rewrite !decide_False by lia|done].
Qed.

Lemma reduced_clear A0 k A inv : reduced A0 k (A, inv) -> (k < 4)%nat -> ent A k k <> n_zero ->
  let A' := scale_row A k (ent A k k) in let inv' := scale_row inv k (ent A k k) in
  reduced A0 (S k) (eliminate A' A' k, eliminate A' inv' k).
Proof.
  intros [HA HI HP HD] Hk Hd A' inv'. cbn [fst snd] in *. set (d := ent A k k) in *.
  assert (square4 A') as HA' by by apply square4_scale. assert (square4 inv') as HI' by by apply square4_scale.
  assert (forall i j, (i < 4)%nat -> (j < 4)%nat -> prod4 inv' A0 i j = ent A' i j) as HP'.
  { intros i j Hi Hj. unfold prod4, inv', A'. rewrite !ent_scale by (done || lia). destruct (decide (i = k)) as [->|]; [|by apply HP].
    rewrite <- HP by done. unfold prod4. field. done. }
  split; cbn [fst snd]; [by apply square4_eliminate..| |].
  - intros i j Hi Hj. unfold prod4. rewrite !ent_eliminate by (done || lia). destruct (decide (i = k)) as [->|]; [by apply HP'|].
    rewrite <- !(HP' _ j) by done. unfold prod4. ring.
  - intros i j Hi Hj. rewrite ent_eliminate by (done || lia).
    assert (forall j, (j <= k)%nat -> ent A' k j = delta k j) as Hrow.
    { intros j' Hj'. unfold A'. rewrite ent_scale by (done || lia). rewrite decide_True by done. unfold delta. destruct (decide (k = j')) as [<-|N].
      - fold d. field. done.
      - rewrite HD by lia. unfold delta. rewrite decide_False by done. field. done. }
    destruct (decide (i = k)) as [->|N]; [apply Hrow; lia|]. rewrite Hrow by lia.
    unfold A'. rewrite !ent_scale by (done || lia). rewrite !decide_False by done. unfold delta. destruct (decide (k = j)) as [<-|].
    + rewrite decide_False by done. ring.
    + rewrite HD by lia. unfold delta. ring.
Qed.

Lemma reduced_column A0 k s s' : reduced A0 k s -> (k < 4)%nat -> mat4_column s k = Some s' -> reduced A0 (S k) s'.
Proof.
  destruct s as [A inv]. intros HR Hk. unfold mat4_column. pose proof (find_pivot_spec A k Hk) as Hp. destruct (find_pivot A k) as [p v].
  destruct Hp as [Hp ->]. destruct (n_ltb _ _) eqn:Et; [done|]. apply n_nonzero in Et. destruct (Nat.eqb_spec p k) as [->|N]; intros [= <-].
  - by apply reduced_clear.
  - apply reduced_clear; [by apply reduced_swap|done|]. rewrite ent_swap by (lia || apply HR). by rewrite decide_True by done.
Qed.

(** Over an exact field a matrix that is returned is the inverse. *)
Lemma mat4_invert_field A inv : square4 A -> mat4_invert A = Some inv ->
  square4 inv /\ forall i j, (i < 4)%nat -> (j < 4)%nat -> prod4 inv A i j = delta i j.
Proof.
  intros HA. unfold mat4_invert. pose proof (reduced_init A HA) as Hinit.
  destruct (mat4_column (A, identity4) 0) as [s0|] eqn:E0; [|done]. apply (reduced_column A) in E0; [|done|lia]. cbn [mbind option_bind].
  destruct (mat4_column s0 1) as [s1|] eqn:E1; [|done]. apply (reduced_column A) in E1; [|done|lia]. cbn [mbind option_bind].
  destruct (mat4_column s1 2) as [s2|] eqn:E2; [|done]. apply (reduced_column A) in E2; [|done|lia]. cbn [mbind option_bind].
  destruct (mat4_column s2 3) as [s3|] eqn:E3; [|done]. apply (reduced_column A) in E3; [|done|lia]. cbn [mbind option_bind].
  intros [= <-]. split; [apply E3|]. intros i j Hi Hj. rewrite (rd_prod _ _ _ E3) by done. by apply (rd_done _ _ _ E3).
Qed.
End exact.

(**  The inversion routine is Gauss-Jordan elimination: run in
    exact rational arithmetic, a matrix it returns is the inverse of its
    argument. *)
Theorem mat4_invert_exact (A inv : list (list Qc)) : square4 A -> mat4_invert A = Some inv ->
  forall i j, (i < 4)%nat -> (j < 4)%nat -> prod4 inv A i j = delta i j.
Proof. intros HA HI. by apply mat4_invert_field. Qed.

Definition sample_matrix : list (list Qc) :=
  map (map (fun z => Q2Qc (inject_Z z))) [[0; 2; 1; 0]; [1; 0; 0; 3]; [4; 0; 5; 0]; [0; 0; 1; 1]].

Lemma mat4_invert_exact_witness : exists inv, mat4_invert sample_matrix = Some inv /\ prod4 inv sample_matrix 2 2 = n_one.
Proof.
  assert (is_Some (mat4_invert sample_matrix)) as [inv E] by (vm_compute; eexists; reflexivity). exists inv. split; [exact E|].
  apply (mat4_invert_exact sample_matrix inv); [split; [reflexivity|repeat constructor]|exact E|lia|lia].
Defined.
