(* ===== verification/Doppler.v ===== *)
(** The position solver of [src/doppler_pos.c], on the store of [DopplerBuf.v] and
    the transforms of [src/wgs84.h]: satellite velocities from the orbital plane,
    the channel vote, the choice of satellites seen from one place, iterated
    weighted least squares with outlier and satellite screening, and the guard
    against implausible jumps.

    All arithmetic is binary64 in the order of the code; [sin], [cos] and [atan2]
    are libm's and parameters.  [all_meas] is a static array: what an earlier
    solve left beyond the entries now written is still there, so it is part of
    the state.  Its never written entries have weight 0 and are passed over
    wherever they could be read, and are left out of the list. *)
From S2P Require Import Prelude CFloat CRound FrameDecode DopplerBuf Mat4.
#[local] Open Scope Z_scope.

(** * Constants and state *)

Definition MAX_MEAS_AGE_NS : Z := 30 * 60 * 1000000000.
Definition MIN_MEASUREMENTS : Z := 8.
Definition MIN_SATELLITES : Z := 2.
Definition MAX_ITERATIONS : nat := 200.
Definition ALL_MEAS_SIZE : nat := MAX_SATELLITES * 200.
Definition MAX_SAT_CLUSTER_DIST : f64 := f64_of_Z 8000000.
Definition MAX_SOLUTION_JUMP : f64 := f64_of_Z 500000.
Definition CONVERGENCE_M : f64 := f64_of_Z 100.
Definition IR_BASE_FREQ : f64 := f64_of_Z 1616000000.
Definition IR_CHANNEL_WIDTH : f64 := f64_lit 41666667 1000.
Definition WGS84_A : f64 := f64_of_Z 6378137.
Definition WGS84_F : f64 := f64_div (f64_of_Z 1) (f64_lit 298257223563 1000000000).
Definition WGS84_E2 : f64 := f64_sub (f64_mul (f64_of_Z 2) WGS84_F) (f64_mul WGS84_F WGS84_F).
Definition GM_EARTH : f64 := f64_of_Z 398600441800000.
Definition C_LIGHT : f64 := f64_of_Z 299792458.
Definition OMEGA_EARTH : f64 := f64_lit 72921150 1000000000000.

Record solver_meas := SolverMeas {
  so_ecef : vec3;
  so_vel : vec3;
  so_range_rate : f64;
  so_weight : f64;
  so_sat_idx : nat;
}.

Record solution := Solution {
  sol_lat : f64;
  sol_lon : f64;
  sol_alt : f64;
  sol_hdop : f64;
  sol_n_measurements : Z;
  sol_n_satellites : Z;
  sol_converged : bool;
}.
Definition zero_solution : solution := Solution f64_zero f64_zero f64_zero f64_zero 0 0 false.
Definition counts (n_meas sats_used : Z) : solution := Solution f64_zero f64_zero f64_zero f64_zero n_meas sats_used false.

Record doppler_state := DopplerState {
  dp_satellites : list sat_buffer;
  dp_height_m : f64;
  dp_height_enabled : bool;
  dp_prev_ecef : vec3;
  dp_prev_clock_drift : f64;
  dp_has_prev : bool;
  dp_jump_rejects : Z;
  dp_all_meas : list solver_meas;
}.

(** At start-up; [doppler_pos_init] itself leaves the last four alone. *)
Definition doppler_pos_init : doppler_state := DopplerState [] (f64_of_Z (-1)) false zero_vec f64_zero false 0 [].
Definition doppler_pos_set_height (st : doppler_state) (h : f64) : doppler_state :=
  DopplerState (dp_satellites st) h true (dp_prev_ecef st) (dp_prev_clock_drift st) (dp_has_prev st) (dp_jump_rejects st) (dp_all_meas st).
Definition doppler_add (st : doppler_state) (ira : ira_data) (frequency : f64) (timestamp : Z) : doppler_state :=
  DopplerState (fst (doppler_pos_add_measurement (dp_satellites st) ira frequency timestamp)) (dp_height_m st) (dp_height_enabled st)
    (dp_prev_ecef st) (dp_prev_clock_drift st) (dp_has_prev st) (dp_jump_rejects st) (dp_all_meas st).

(** * Channel and velocity of a satellite *)

Definition known {A} (x : option A) : bool := match x with Some _ => true | None => false end.

Definition assign_channel_freq (freq : f64) : f64 :=
  let chan := f64_round (f64_div (f64_sub freq IR_BASE_FREQ) IR_CHANNEL_WIDTH) in
  f64_add IR_BASE_FREQ (f64_mul chan IR_CHANNEL_WIDTH).

(** The measurements a loop over the buffer visits, oldest first. *)
Definition buf_list (s : sat_buffer) : list sat_meas := omap (sat_buf_get s) (seqZ 0 (sb_count s)).

Definition too_old (now : Z) (m : sat_meas) : bool := MAX_MEAS_AGE_NS <? u64 (now - sm_timestamp m).
(** [now > 0 &&] precedes the test of age in all loops but one. *)
Definition recent_meas (now : Z) (m : sat_meas) : bool := sm_valid m && negb ((0 <? now) && too_old now m).

(** Within 1 Hz: the same channel. *)
Definition same_channel (a b : f64) : bool := f64_ltb (f64_abs (f64_sub a b)) (f64_of_Z 1).
Definition votes (channels : list f64) (c : f64) : nat := length (List.filter (fun x => same_channel x c) channels).

Definition estimate_channel_freq (s : sat_buffer) (now : Z) : f64 :=
  let channels := map (fun m => assign_channel_freq (sm_freq m)) (List.filter (recent_meas now) (buf_list s)) in
  fst (fold_left (fun '(best_freq, best_count) c =>
         if (best_count <? votes channels c)%nat then (c, votes channels c) else (best_freq, best_count))
       channels (f64_zero, 0%nat)).

Definition dt_abs (m cur : sat_meas) : f64 := f64_abs (dt_s (sm_timestamp m) (sm_timestamp cur)).

(** The measurement farthest from [cur] in time, 2 s to 600 s, at orbit altitude. *)
Definition better_other (cur : sat_meas) (best : option sat_meas * f64) (m : sat_meas) : option sat_meas * f64 :=
  let dt := dt_abs m cur in
  if sm_valid m && (f64_leb (f64_of_Z 2) dt && f64_ltb dt (f64_of_Z 600) && f64_gtb dt (snd best)) && radius_ok (sm_ecef m)
  then (Some m, dt) else best.

Definition best_other (s : sat_buffer) (idx : Z) (cur : sat_meas) : option sat_meas :=
  fst (fold_left (better_other cur) (omap (fun i => if i =? idx then None else sat_buf_get s i) (seqZ 0 (sb_count s))) (None, f64_zero)).

(** The velocity at [cur] from the plane of two positions: perpendicular to the
    pole and to the position, along the motion, with the speed of a circular
    orbit. *)
Definition plane_velocity (cur other : sat_meas) : option vec3 :=
  let r_norm := vec3_norm (sm_ecef cur) in
  let h := vec3_cross (sm_ecef cur) (sm_ecef other) in
  if f64_ltb (vec3_norm h) (f64_of_Z 1000000) then None
  else
    let v_dir := vec3_cross h (sm_ecef cur) in
    let v_norm := vec3_norm v_dir in
    if f64_ltb v_norm (f64_of_Z 1) then None
    else
      let forward := if sm_timestamp cur <? sm_timestamp other then vec3_sub (sm_ecef other) (sm_ecef cur)
                     else vec3_sub (sm_ecef cur) (sm_ecef other) in
      let sign := if f64_leb f64_zero (vec3_dot v_dir forward) then f64_of_Z 1 else f64_of_Z (-1) in
      let speed := f64_sqrt (f64_div GM_EARTH r_norm) in
      let c x := f64_div (f64_mul (f64_mul sign speed) x) v_norm in
      Some (V3 (c (v0 v_dir)) (c (v1 v_dir)) (c (v2 v_dir))).

Definition estimate_velocity (s : sat_buffer) (idx : Z) : option vec3 :=
  match sat_buf_get s idx with
  | None => None
  | Some cur =>
      if f64_ltb (vec3_norm (sm_ecef cur)) (f64_of_Z 1000000) then None
      else match best_other s idx cur with None => None | Some other => plane_velocity cur other end
  end.

(** * Which satellites to use *)

Definition latest_time (sats : list sat_buffer) : Z :=
  fold_left (fun now m => if sm_valid m && (now <? sm_timestamp m) then sm_timestamp m else now) (flat_map buf_list sats) 0.

(** Indices from the newest measurement back. *)
Definition newest_first (s : sat_buffer) : list Z := rev (seqZ 0 (sb_count s)).

(** The newest position with a velocity, and how many measurements have one. *)
Definition sat_motion (now : Z) (s : sat_buffer) : option vec3 * nat :=
  if sb_count s <? 2 then (None, 0%nat)
  else
    let usable := List.filter (fun i => match sat_buf_get s i with
      | Some m => recent_meas now m && known (estimate_velocity s i) | None => false end) (newest_first s) in
    (match usable with [] => None | i :: _ => option_map sm_ecef (sat_buf_get s i) end, length usable).

Definition near (a b : vec3) : bool := f64_ltb (vec3_norm (vec3_sub a b)) MAX_SAT_CLUSTER_DIST.

(** Pairs are compared in the order of the table. *)
Definition neighbors (motions : list (option vec3 * nat)) (i : nat) : nat :=
  length (List.filter (fun j =>
    match fst (motions !!! Nat.min i j), fst (motions !!! Nat.max i j) with
    | Some a, Some b => negb (i =? j)%nat && near a b | _, _ => false end) (seq 0 (length motions))).

(** The satellite with the most neighbours, ties broken by usable measurements. *)
Definition find_core (motions : list (option vec3 * nat)) : option nat :=
  let better best s :=
    let '(core, max_nb, max_vel) := best in
    match fst (motions !!! s) with
    | None => best
    | Some _ =>
        let nb := Z.of_nat (neighbors motions s) in let vel := Z.of_nat (snd (motions !!! s)) in
        if (max_nb <? nb) || ((nb =? max_nb) && (max_vel <? vel)) then (Some s, nb, vel) else best
    end in
  fst (fst (fold_left better (seq 0 (length motions)) (None, -1, -1))).

(** The newest measurement that is valid and recent. *)
Definition newest_recent (now : Z) (s : sat_buffer) : option sat_meas :=
  hd_error (List.filter (recent_meas now) (rev (buf_list s))).

Definition sat_keep (now : Z) (sats : list sat_buffer) : list bool :=
  let motions := map (sat_motion now) sats in
  let with_motion := List.filter (fun m : option vec3 * nat => known (fst m)) motions in
  if (3 <=? length with_motion)%nat then
    match find_core motions with
    | None => map (fun _ => false) sats
    | Some core =>
        let core_pos := default zero_vec (fst (motions !!! core)) in
        imap (fun s sat =>
          if (s =? core)%nat then true
          else match fst (motions !!! s) with
               | None => match newest_recent now sat with Some m => near (sm_ecef m) core_pos | None => false end
               | Some pos => near pos core_pos
               end) sats
    end
  else map (fun sat => known (newest_recent now sat)) sats.

(** * Collecting the measurements *)

Definition solver_meas_of (sat_chan_freq : f64) (s : nat) (m : sat_meas) (vel : vec3) : solver_meas :=
  let f_doppler := f64_sub (sm_freq m) sat_chan_freq in
  let chan_lambda := f64_div C_LIGHT sat_chan_freq in
  SolverMeas (sm_ecef m) vel (f64_mul (f64_opp chan_lambda) f_doppler) (f64_of_Z 1) s.

Definition sat_measurements (now : Z) (s : nat) (sat : sat_buffer) : list solver_meas :=
  let sat_chan_freq := estimate_channel_freq sat now in
  if SFeqb sat_chan_freq f64_zero then []
  else omap (fun i =>
    match sat_buf_get sat i with
    | Some m => if sm_valid m && negb (too_old now m) then option_map (solver_meas_of sat_chan_freq s m) (estimate_velocity sat i) else None
    | None => None
    end) (seqZ 0 (sb_count sat)).

(** When the array is full the loops are left at once, the satellite uncounted. *)
Fixpoint collect_from (now : Z) (keep : list bool) (s n_meas : nat) (sats : list sat_buffer) : list solver_meas * Z :=
  match sats with
  | [] => ([], 0)
  | sat :: sats =>
      let ms := if default false (keep !! s) then sat_measurements now s sat else [] in
      if (0 <? length ms)%nat && (ALL_MEAS_SIZE <=? n_meas + length ms)%nat then (take (ALL_MEAS_SIZE - n_meas) ms, 0)
      else
        let '(rest, used) := collect_from now keep (S s) (n_meas + length ms) sats in
        (ms ++ rest, (if (0 <? length ms)%nat then 1 else 0) + used)
  end.

Definition collect (now : Z) (keep : list bool) (sats : list sat_buffer) : list solver_meas * Z := collect_from now keep 0 0 sats.

(** * Coordinates ([src/wgs84.h]) *)

Section solver.
Context (sin cos : f64 -> f64) (atan2 : f64 -> f64 -> f64).

Definition rad (deg : f64) : f64 := f64_div (f64_mul deg M_PI) (f64_of_Z 180).
Definition deg (rad : f64) : f64 := f64_div (f64_mul rad (f64_of_Z 180)) M_PI.
Definition normal_radius (slat : f64) : f64 :=
  f64_div WGS84_A (f64_sqrt (f64_sub (f64_of_Z 1) (f64_mul (f64_mul WGS84_E2 slat) slat))).

Definition geodetic_to_ecef (lat_deg lon_deg alt_m : f64) : vec3 :=
  let lat := rad lat_deg in let lon := rad lon_deg in
  let N := normal_radius (sin lat) in
  V3 (f64_mul (f64_mul (f64_add N alt_m) (cos lat)) (cos lon))
     (f64_mul (f64_mul (f64_add N alt_m) (cos lat)) (sin lon))
     (f64_mul (f64_add (f64_mul N (f64_sub (f64_of_Z 1) WGS84_E2)) alt_m) (sin lat)).

(** Latitude and longitude in degrees, altitude in metres. *)
Definition ecef_to_geodetic (ecef : vec3) : f64 * f64 * f64 :=
  let p := f64_sqrt (f64_add (f64_mul (v0 ecef) (v0 ecef)) (f64_mul (v1 ecef) (v1 ecef))) in
  let lon := deg (atan2 (v1 ecef) (v0 ecef)) in
  let next lat := atan2 (f64_add (v2 ecef) (f64_mul (f64_mul WGS84_E2 (normal_radius (sin lat))) (sin lat))) p in
  let lat := Nat.iter 5 next (atan2 (v2 ecef) (f64_mul p (f64_sub (f64_of_Z 1) WGS84_E2))) in
  let alt := f64_sub (f64_div p (cos lat)) (normal_radius (sin lat)) in
  (deg lat, lon, alt).

Definition ecef_to_enu_matrix (lat_deg lon_deg : f64) : list (list f64) :=
  let lat := rad lat_deg in let lon := rad lon_deg in
  [[f64_opp (sin lon); cos lon; f64_zero];
   [f64_mul (f64_opp (sin lat)) (cos lon); f64_mul (f64_opp (sin lat)) (sin lon); cos lat];
   [f64_mul (cos lat) (cos lon); f64_mul (cos lat) (sin lon); sin lat]].

(** * Least squares *)

(** The receiver turns with the Earth. *)
Definition rx_velocity (rx : vec3) : vec3 := V3 (f64_mul (f64_opp OMEGA_EARTH) (v1 rx)) (f64_mul OMEGA_EARTH (v0 rx)) f64_zero.

(** Line of sight, range, relative velocity and geometric range rate. *)
Record sight := Sight { sg_los : vec3; sg_rho : f64; sg_rel : vec3; sg_rho_dot : f64 }.
Definition sight_of (rx : vec3) (m : solver_meas) : sight :=
  let los := vec3_sub (so_ecef m) rx in
  let rel := vec3_sub (so_vel m) (rx_velocity rx) in
  Sight los (vec3_norm los) rel (f64_div (vec3_dot los rel) (vec3_norm los)).

Definition too_close (sg : sight) : bool := f64_ltb (sg_rho sg) (f64_of_Z 1).

Definition H_row (sg : sight) : list f64 :=
  let rho := sg_rho sg in let rho2 := f64_mul rho rho in let los := sg_los sg in let rel := sg_rel sg in
  let term l r := f64_add (f64_div (f64_opp r) rho) (f64_div (f64_mul l (sg_rho_dot sg)) rho2) in
  [f64_add (term (v0 los) (v0 rel)) (f64_div (f64_mul OMEGA_EARTH (v1 los)) rho);
   f64_sub (term (v1 los) (v1 rel)) (f64_div (f64_mul OMEGA_EARTH (v0 los)) rho);
   term (v2 los) (v2 rel);
   f64_of_Z 1].

Definition residual (sg : sight) (clock_drift : f64) (m : solver_meas) : f64 :=
  f64_sub (so_range_rate m) (f64_add (sg_rho_dot sg) clock_drift).

(** The accumulators [HtWH] and [HtWy]. *)
Definition normal_eq : Type := list (list f64) * list f64.
Definition zero_eq : normal_eq := (replicate 4 (replicate 4 f64_zero), replicate 4 f64_zero).

Definition accumulate (eqs : normal_eq) (row : list f64) (w dy : f64) : normal_eq :=
  (zip_with (fun hr acc => zip_with (fun hc x => f64_add x (f64_mul (f64_mul hr w) hc)) row acc) row (fst eqs),
   zip_with (fun hr y => f64_add y (f64_mul (f64_mul hr w) dy)) row (snd eqs)).

Definition zero_weight (m : solver_meas) : bool := SFeqb (so_weight m) f64_zero.

(** Only the later solves test for weight 0. *)
Definition add_meas (skip : bool) (rx : vec3) (clock_drift : f64) (eqs : normal_eq) (m : solver_meas) : normal_eq :=
  let sg := sight_of rx m in
  if (skip && zero_weight m) || too_close sg then eqs
  else accumulate eqs (H_row sg) (so_weight m) (residual sg clock_drift m).

Definition add_height (height_m : f64) (rx : vec3) (eqs : normal_eq) : normal_eq :=
  let r0 := vec3_norm rx in
  if f64_gtb r0 f64_zero then
    let dy_h := f64_sub height_m (snd (ecef_to_geodetic rx)) in
    accumulate eqs [f64_div (v0 rx) r0; f64_div (v1 rx) r0; f64_div (v2 rx) r0; f64_zero] (f64_of_Z 100) dy_h
  else eqs.

(** Levenberg-Marquardt damping of the first solve. *)
Definition damping (iter : nat) : f64 :=
  if (iter <? 10)%nat then f64_of_Z 10 else if (iter <? 50)%nat then f64_of_Z 1 else f64_lit 1 100.
Definition add_damping (lambda : f64) (A : list (list f64)) : list (list f64) :=
  imap (fun i r => imap (fun j x => if (i =? j)%nat then f64_add x (f64_add (f64_mul lambda x) (f64_lit 1 1000000)) else x) r) A.

Definition mat_vec (inv : list (list f64)) (y : list f64) : list f64 :=
  map (fun r => fold_left f64_add (zip_with f64_mul r y) f64_zero) inv.

(** Position and clock drift. *)
Definition fix_point : Type := vec3 * f64.

Definition step_norm (d : list f64) : f64 :=
  match d with a :: b :: c :: _ => f64_sqrt (f64_add (f64_add (f64_mul a a) (f64_mul b b)) (f64_mul c c)) | _ => f64_zero end.
(** At most 500 km per step of the first solve. *)
Definition limit_step (d : list f64) : list f64 :=
  let step := step_norm d in
  if f64_gtb step (f64_of_Z 500000) then map (fun x => f64_mul x (f64_div (f64_of_Z 500000) step)) d else d.

Definition apply_delta (p : fix_point) (d : list f64) : fix_point :=
  match d with
  | a :: b :: c :: k :: _ => (V3 (f64_add (v0 (fst p)) a) (f64_add (v1 (fst p)) b) (f64_add (v2 (fst p)) c), f64_add (snd p) k)
  | _ => p
  end.

Inductive wls_result := Converged (p : fix_point) | Singular | Diverged.

(** The rounds of one solve: the first is damped and limited in its steps and
    uses every measurement, the later ones pass over those of weight 0. *)
Fixpoint wls (height : option f64) (first : bool) (ms : list solver_meas) (fuel iter : nat) (p : fix_point) : wls_result :=
  match fuel with
  | O => Diverged
  | S fuel =>
      let eqs := fold_left (add_meas (negb first) (fst p) (snd p)) ms zero_eq in
      let eqs := match height with Some h => add_height h (fst p) eqs | None => eqs end in
      let A := if first then add_damping (damping iter) (fst eqs) else fst eqs in
      match mat4_invert A with
      | None => Singular
      | Some inv =>
          let delta := mat_vec inv (snd eqs) in
          let delta := if first then limit_step delta else delta in
          let p := apply_delta p delta in
          if f64_ltb (step_norm delta) CONVERGENCE_M then Converged p else wls height first ms fuel (S iter) p
      end
  end.

(** * The stages of a solve *)

(** The first estimate without an earlier solution: the sub-satellite points
    of the kept satellites, weighted by their number of measurements. *)
Definition mean_point (keep : list bool) (sats : list sat_buffer) : vec3 :=
  let add acc e :=
    let '(x, y, z, total) := acc in
    let '(s, sat) := e in
    if negb (default false (keep !! s)) then acc
    else match hd_error (List.filter sm_valid (rev (buf_list sat))) with
         | None => acc
         | Some latest =>
             let r := vec3_norm (sm_ecef latest) in
             if f64_leb r f64_zero then acc
             else
               let scale := f64_div WGS84_A r in
               let w := f64_of_Z (sb_count sat) in
               let c x := f64_mul (f64_mul x scale) w in
               (f64_add x (c (v0 (sm_ecef latest))), f64_add y (c (v1 (sm_ecef latest))), f64_add z (c (v2 (sm_ecef latest))), f64_add total w)
         end in
  let '(x, y, z, total) := fold_left add (zip (seq 0 (length sats)) sats) (f64_zero, f64_zero, f64_zero, f64_zero) in
  if f64_gtb total f64_zero then V3 (f64_div x total) (f64_div y total) (f64_div z total) else V3 x y z.

Definition initial_point (st : doppler_state) (keep : list bool) : fix_point :=
  if dp_has_prev st then (dp_prev_ecef st, dp_prev_clock_drift st)
  else
    let rx := mean_point keep (dp_satellites st) in
    if dp_height_enabled st then
      let '(lat, lon, _) := ecef_to_geodetic rx in (geodetic_to_ecef lat lon (dp_height_m st), f64_zero)
    else (rx, f64_zero).

Definition set_weight_zero (m : solver_meas) : solver_meas :=
  SolverMeas (so_ecef m) (so_vel m) (so_range_rate m) f64_zero (so_sat_idx m).

(** First pass over the residuals: their square sum, and weight 0 for what is
    too close. *)
Definition residual_pass (p : fix_point) (ms : list solver_meas) : list solver_meas * f64 * Z :=
  (map (fun m => if too_close (sight_of (fst p) m) then set_weight_zero m else m) ms,
   fold_left (fun sum m => let sg := sight_of (fst p) m in
      if too_close sg then sum else let res := residual sg (snd p) m in f64_add sum (f64_mul res res)) ms f64_zero,
   Z.of_nat (length (List.filter (fun m => negb (too_close (sight_of (fst p) m))) ms))).

(** More than three sigma off. *)
Definition is_outlier (p : fix_point) (sigma : f64) (m : solver_meas) : bool :=
  let sg := sight_of (fst p) m in
  negb (zero_weight m) && negb (too_close sg) && f64_gtb (f64_abs (residual sg (snd p) m)) (f64_mul (f64_of_Z 3) sigma).

(** Failure of a solve, as the values of [out] that are returned with 0. *)
Definition outlier_stage (height : option f64) (n_meas : nat) (p : fix_point) (all : list solver_meas)
  : list solver_meas * option (fix_point * nat * nat) :=
  let '(ms, sum_res2, n_valid) := residual_pass p (take n_meas all) in
  if n_valid <=? 4 then (ms ++ drop n_meas all, Some (p, n_meas, 0%nat))
  else
    let sigma := f64_sqrt (f64_div sum_res2 (f64_of_Z (n_valid - 4))) in
    let rejected := length (List.filter (is_outlier p sigma) ms) in
    let ms := map (fun m => if is_outlier p sigma m then set_weight_zero m else m) ms in
    let all := ms ++ drop n_meas all in
    if (0 <? rejected)%nat && (MIN_MEASUREMENTS <=? n_valid - Z.of_nat rejected) then
      match wls height false ms MAX_ITERATIONS 0 p with
      | Converged p => (all, Some (p, Z.to_nat (n_valid - Z.of_nat rejected), rejected))
      | Singular | Diverged => (all, None)
      end
    else (all, Some (p, n_meas, rejected)).

(** Mean absolute residual per satellite, in the order of the table. *)
Definition sat_residuals (p : fix_point) (ms : list solver_meas) : list (nat * f64) :=
  omap (fun s =>
    let mine := List.filter (fun m => negb (zero_weight m) && (so_sat_idx m =? s)%nat && negb (too_close (sight_of (fst p) m))) ms in
    match mine with
    | [] => None
    | _ => Some (s, f64_div (fold_left (fun sum m => f64_add sum (f64_abs (residual (sight_of (fst p) m) (snd p) m))) mine f64_zero)
                            (f64_of_Z (Z.of_nat (length mine))))
    end) (seq 0 MAX_SATELLITES).

(** One round of the insertion sort: [key] moves left past what is greater. *)
Fixpoint sift (rev_sorted : list f64) (key : f64) : list f64 :=
  match rev_sorted with
  | [] => [key]
  | x :: rest => if f64_gtb x key then x :: sift rest key else key :: x :: rest
  end.
Definition insertion_sort (l : list f64) : list f64 := rev (fold_left sift l []).

(** Satellites whose mean residual exceeds three times the median. *)
Definition bad_sats (res : list (nat * f64)) : list nat :=
  if (length res <? 3)%nat then []
  else
    let median := default f64_zero (insertion_sort (map snd res) !! (length res / 2)%nat) in
    map fst (List.filter (fun e => f64_gtb (snd e) (f64_mul (f64_of_Z 3) median) && f64_gtb median f64_zero) res).

Definition satellite_stage (height : option f64) (n_meas rejected : nat) (sats_used : Z) (p : fix_point) (all : list solver_meas)
  : list solver_meas * option (fix_point * nat * Z) :=
  let n_total_now := (n_meas + rejected)%nat in
  let ms := take n_total_now all in
  let dropped := bad_sats (sat_residuals p ms) in
  let ms := map (fun m => if decide (so_sat_idx m ∈ dropped) then set_weight_zero m else m) ms in
  let all := ms ++ drop n_total_now all in
  let sats_used := sats_used - Z.of_nat (length dropped) in
  if (length dropped =? 0)%nat then (all, Some (p, n_meas, sats_used))
  else
    let remaining := length (List.filter (fun m => f64_gtb (so_weight m) f64_zero) ms) in
    if (MIN_MEASUREMENTS <=? Z.of_nat remaining) && (MIN_SATELLITES <=? sats_used) then
      match wls height false ms MAX_ITERATIONS 0 p with
      | Converged p => (all, Some (p, remaining, sats_used))
      | Singular | Diverged => (all, None)
      end
    else (all, None).

(** Entry of [R * Q * R^T], summed in the order of the loops. *)
Definition rotate_entry (R Q : list (list f64)) (i j : nat) : f64 :=
  fold_left (fun acc k => fold_left (fun acc l => f64_add acc (f64_mul (f64_mul (ent R i k) (ent Q k l)) (ent R j l))) (seq 0 3) acc) (seq 0 3) f64_zero.

Definition NO_HDOP : f64 := f64_lit 999 10.

Definition hdop_of (rx : vec3) (ms : list solver_meas) : f64 :=
  let used := List.filter (fun m => negb (zero_weight m) && negb (too_close (sight_of rx m))) ms in
  let HtH := fold_left (fun A m => let row := H_row (sight_of rx m) in
      zip_with (fun hr acc => zip_with (fun hc x => f64_add x (f64_mul hr hc)) row acc) row A) used (replicate 4 (replicate 4 f64_zero)) in
  if (length used <? 4)%nat then NO_HDOP
  else match mat4_invert HtH with
       | None => NO_HDOP
       | Some Q =>
           let '(lat, lon, _) := ecef_to_geodetic rx in
           let R := ecef_to_enu_matrix lat lon in
           let var := f64_add (rotate_entry R Q 0 0) (rotate_entry R Q 1 1) in
           if f64_gtb var f64_zero then f64_sqrt var else NO_HDOP
       end.

Definition with_all_meas (st : doppler_state) (all : list solver_meas) : doppler_state :=
  DopplerState (dp_satellites st) (dp_height_m st) (dp_height_enabled st) (dp_prev_ecef st) (dp_prev_clock_drift st) (dp_has_prev st)
    (dp_jump_rejects st) all.
Definition without_prev (st : doppler_state) : doppler_state :=
  DopplerState (dp_satellites st) (dp_height_m st) (dp_height_enabled st) (dp_prev_ecef st) (dp_prev_clock_drift st) false
    (dp_jump_rejects st) (dp_all_meas st).
Definition with_prev (st : doppler_state) (p : fix_point) (rejects : Z) : doppler_state :=
  DopplerState (dp_satellites st) (dp_height_m st) (dp_height_enabled st) (fst p) (snd p) true rejects (dp_all_meas st).
Definition with_rejects (st : doppler_state) (rejects : Z) : doppler_state :=
  DopplerState (dp_satellites st) (dp_height_m st) (dp_height_enabled st) (dp_prev_ecef st) (dp_prev_clock_drift st) (dp_has_prev st)
    rejects (dp_all_meas st).

(** The previous solution is reported again while the new one lies too far off,
    four times in a row at most. *)
Definition jump_guard (st : doppler_state) (p : fix_point) : doppler_state :=
  if dp_has_prev st then
    if f64_gtb (vec3_norm (vec3_sub (fst p) (dp_prev_ecef st))) MAX_SOLUTION_JUMP then
      if dp_jump_rejects st + 1 <? 5 then with_rejects st (dp_jump_rejects st + 1) else with_prev st p 0
    else with_prev st p 0
  else with_prev st p (dp_jump_rejects st).

Definition report (st : doppler_state) (hdop : f64) (n_meas : nat) (sats_used : Z) : solution :=
  let '(lat, lon, alt) := ecef_to_geodetic (dp_prev_ecef st) in Solution lat lon alt hdop (Z.of_nat n_meas) sats_used true.

(** Up to the guard: the values of [out] that come with the result 0, or the
    solution with its HDOP and the numbers of measurements and satellites. *)
Definition solve_stages (st : doppler_state) : doppler_state * (solution + fix_point * f64 * nat * Z) :=
  let sats := dp_satellites st in
  let now := latest_time sats in
  let keep := sat_keep now sats in
  let '(meas, sats_used) := collect now keep sats in
  let n_meas := length meas in
  let st1 := with_all_meas st (meas ++ drop n_meas (dp_all_meas st)) in
  let height := if dp_height_enabled st then Some (dp_height_m st) else None in
  if (Z.of_nat n_meas <? MIN_MEASUREMENTS) || (sats_used <? MIN_SATELLITES) then (st1, inl (counts (Z.of_nat n_meas) sats_used))
  else
    match wls height true meas MAX_ITERATIONS 0 (initial_point st keep) with
    | Singular => (st1, inl zero_solution)
    | Diverged => (without_prev st1, inl (counts (Z.of_nat n_meas) sats_used))
    | Converged p =>
        match outlier_stage height n_meas p (dp_all_meas st1) with
        | (all, None) => (with_all_meas st1 all, inl zero_solution)
        | (all, Some (p, n_meas, rejected)) =>
            match satellite_stage height n_meas rejected sats_used p all with
            | (all, None) => (with_all_meas st1 all, inl zero_solution)
            | (all, Some (p, n_meas, sats_used)) =>
                (with_all_meas st1 all, inr (p, hdop_of (fst p) (take (n_meas + rejected) all), n_meas, sats_used))
            end
        end
    end.

Definition doppler_pos_solve (st : doppler_state) : doppler_state * bool * solution :=
  match solve_stages st with
  | (st, inl out) => (st, false, out)
  | (st, inr (p, hdop, n_meas, sats_used)) => let st := jump_guard st p in (st, true, report st hdop n_meas sats_used)
  end.
End solver.

(** * The channel vote *)

Definition vote_channels (s : sat_buffer) (now : Z) : list f64 :=
  map (fun m => assign_channel_freq (sm_freq m)) (List.filter (recent_meas now) (buf_list s)).

(** The channel is one a recent measurement voted for, and no other has more
    votes; or nobody has a vote. *)
Lemma channel_vote s now : let channels := vote_channels s now in let f := estimate_channel_freq s now in
  (f ∈ channels /\ forall c, c ∈ channels -> (votes channels c <= votes channels f)%nat) \/
  f = f64_zero /\ forall c, c ∈ channels -> votes channels c = 0%nat.
Proof.
  intros channels. unfold estimate_channel_freq. fold (vote_channels s now). fold channels.
  assert (forall l b n, let r := fold_left (fun '(best_freq, best_count) c =>
      if (best_count <? votes channels c)%nat then (c, votes channels c) else (best_freq, best_count)) l (b, n) in
    (n <= snd r)%nat /\ (forall c, c ∈ l -> (votes channels c <= snd r)%nat) /\ (r = (b, n) \/ fst r ∈ l /\ snd r = votes channels (fst r))) as Hf.
  { induction l as [|c l IH]; intros b n; cbn [fold_left]; [split; [done|]; split; [intros c Hc; by apply elem_of_nil in Hc|by left]|].
    destruct (Nat.ltb_spec n (votes channels c)) as [H|H].
    - destruct (IH c (votes channels c)) as (H1 & H2 & H3). split; [cbv zeta in *; lia|]. split.
      + intros c' [->|Hc']%elem_of_cons; [done|by apply H2].
      + right. destruct H3 as [->|[? ?]]; [split; [left|done]|split; [by right|done]].
    - destruct (IH b n) as (H1 & H2 & H3). split; [done|]. split.
      + intros c' [->|Hc']%elem_of_cons; [cbv zeta in *; lia|by apply H2].
      + destruct H3 as [?|[? ?]]; [by left|right]. split; [by right|done]. }
  destruct (Hf channels f64_zero 0%nat) as (_ & H2 & [E|[H3 H4]]).
  - right. cbv zeta in *. rewrite E in *. split; [done|]. intros c Hc. specialize (H2 c Hc). cbn in H2. lia.
  - left. split; [done|]. intros c Hc. rewrite <- H4. by apply H2.
Qed.

(** * Velocities *)

Lemma f64_abs_ns d : 0 <= d < 2 ^ 64 -> f64_abs (ns_to_s d) = ns_to_s d.
Proof.
  intros Hd. destruct (decide (d = 0)) as [->|]; [done|]. unfold ns_to_s. destruct (f64_of_Z_shape d ltac:(lia)) as (m & e & -> & Hv & He).
  assert (forall r, match r with S754_finite s _ _ | S754_zero s | S754_infinity s => s = false | S754_nan => True end -> f64_abs r = r) as Habs.
  { intros [s|s| |s m' e'] E; try subst s; done. }
  apply Habs. change (f64_of_Z 1000000000) with (fpos (1000000000 * 2 ^ 23) (-23)). unfold f64_div, fpos, SFdiv.
  destruct (SFdiv_core_binary _ _ _ _ _ _) as [[q e'] l]. cbn [xorb]. unfold binary_round_aux.
  destruct (shr_fexp _ _ _ _ _) as [r1 e1]. destruct (shr_fexp _ _ _ _ _) as [r2 e2]. destruct (shr_m r2); [done| |done]. by destruct (_ <=? _).
Qed.

(** The partner is a valid measurement of the buffer at orbit altitude, 2 s to
    600 s after, counted modulo [2 ^ 64]. *)
Lemma best_other_spec s idx cur other : best_other s idx cur = Some other ->
  (exists i, i <> idx /\ 0 <= i < sb_count s /\ sat_buf_get s i = Some other) /\ sm_valid other = true /\ radius_ok (sm_ecef other) = true /\
  2000000000 <= u64 (sm_timestamp other - sm_timestamp cur) < 600000000000.
Proof.
  unfold best_other. set (l := omap _ _).
  set (Q m := m ∈ l /\ sm_valid m = true /\ radius_ok (sm_ecef m) = true /\ 2000000000 <= u64 (sm_timestamp m - sm_timestamp cur) < 600000000000).
  assert (forall l', (forall m, m ∈ l' -> m ∈ l) -> forall best, (forall m, fst best = Some m -> Q m) ->
    forall m, fst (fold_left (better_other cur) l' best) = Some m -> Q m) as Hgen.
  { induction l' as [|x l' IH]; intros Hin best Hb; [done|]. cbn [fold_left]. apply IH; [intros m Hm; apply Hin; by right|].
    intros m. unfold better_other, dt_abs, dt_s. fold (ns_to_s (u64 (sm_timestamp x - sm_timestamp cur))). rewrite f64_abs_ns by apply u64_range.
    destruct (sm_valid x) eqn:Ev; [|apply Hb]. cbn [andb]. destruct (f64_leb _ _) eqn:E1; [|apply Hb]. cbn [andb].
    destruct (f64_ltb _ _) eqn:E2; [|apply Hb]. cbn [andb]. destruct (f64_gtb _ _); [|apply Hb]. cbn [andb].
    destruct (radius_ok _) eqn:E3; [|apply Hb]. cbn [fst]. intros [= <-]. split; [apply Hin; left|]. split; [done|]. split; [done|].
    split; [apply ns_ge_2|apply ns_lt_600]; (apply u64_range || done). }
  intros E. destruct (Hgen l (fun m H => H) (None, f64_zero) (fun m H => ltac:(done)) other E) as (Hin & H). split; [|done].
  apply list_elem_of_omap in Hin as (i & Hi%elem_of_seqZ & Hg). destruct (Z.eqb_spec i idx); [done|]. exists i. split; [done|]. split; [lia|done].
Qed.

(** In a stored pass the times never decrease. *)
Lemma pass_times (p : list sat_meas) : (forall i a b, p !! i = Some a -> p !! S i = Some b -> steady a b) ->
  forall i j a b, (i <= j)%nat -> p !! i = Some a -> p !! j = Some b -> sm_timestamp a <= sm_timestamp b.
Proof.
  intros Hs i j a b Hij Ha. revert b. induction Hij as [|j Hij IH]; intros b Hb; [by simplify_eq|].
  destruct (p !! j) as [c|] eqn:Ec; [|apply lookup_lt_Some in Hb; apply lookup_ge_None in Ec; lia]. specialize (IH c eq_refl).
  destruct (Hs j c b Ec Hb) as [Hgap _]. lia.
Qed.

(**  In the store that any ring alerts with times before [2 ^ 63]
    leave, a velocity estimated for measurement [idx] of a satellite rests on a
    LATER measurement of the same pass, 2 s to 600 s after it and at orbit
    altitude: earlier ones are never used, because the difference of the unsigned
    times wraps.  In particular the newest measurement has no velocity. *)
Theorem velocity_from_later alerts k s idx v :
  Forall (fun a => 0 <= snd a < 2 ^ 63) alerts -> doppler_store [] alerts !! k = Some s -> 0 <= idx ->
  estimate_velocity s idx = Some v ->
  idx < sb_count s - 1 /\ exists i cur other, idx < i < sb_count s /\
    sat_buf_get s idx = Some cur /\ sat_buf_get s i = Some other /\ radius_ok (sm_ecef other) = true /\
    sm_timestamp cur + 2000000000 <= sm_timestamp other < sm_timestamp cur + 600000000000 /\
    plane_velocity cur other = Some v.
Proof.
  intros Ht Hk Hi. pose proof (store_refines [] [] alerts ltac:(constructor) ltac:(constructor) Ht) as HF. set (t := fold_left passes_add alerts []) in *.
  destruct (Forall2_lookup_l _ _ _ _ _ HF Hk) as ([id p] & He & _ & [(_ & _ & Hc & _) Hg]). cbn [snd] in *.
  pose proof (gt_good _ (passes_good [] alerts good_passes_nil)) as HG. fold t in HG. rewrite Forall_lookup in HG. pose proof (gp_steady _ (HG _ _ He)) as Hs.
  assert (Forall (fun m => 0 <= sm_timestamp m < 2 ^ 63) p) as Hts.
  { pose proof (passes_forall (fun m => 0 <= sm_timestamp m < 2 ^ 63) alerts [] ltac:(constructor) Ht) as HP. fold t in HP. rewrite Forall_lookup in HP. apply (HP _ _ He). }
  pose proof (pass_times p Hs) as Hmono. unfold estimate_velocity.
  assert (forall j, 0 <= j -> sat_buf_get s j = p !! Z.to_nat j) as Hget by (intros j Hj; rewrite <- Hg, Z2Nat.id; done).
  intros Hv. rewrite (Hget idx Hi) in Hv. revert Hv. destruct (p !! Z.to_nat idx) as [cur|] eqn:Ecur; [|done]. destruct (f64_ltb _ _); [done|].
  destruct (best_other s idx cur) as [other|] eqn:Eo; [|done]. intros Hv.
  apply best_other_spec in Eo as ((i & Ni & Hi2 & Hgi) & _ & Hr & Hgap). rewrite Hget in Hgi by lia.
  rewrite Forall_lookup in Hts. pose proof (Hts _ _ Ecur) as B1. pose proof (Hts _ _ Hgi) as B2. cbv beta in B1, B2.
  assert (sm_timestamp cur + 2000000000 <= sm_timestamp other < sm_timestamp cur + 600000000000) as Hgap'.
  { unfold u64 in Hgap. destruct (Z.le_gt_cases (sm_timestamp cur) (sm_timestamp other)); [rewrite Z.mod_small in Hgap by lia; lia|].
    rewrite <- (Z.mod_add _ 1), Z.mod_small in Hgap by lia. lia. }
  assert (idx < i) as Hlt. { apply Z.nle_gt. intros Hle. pose proof (Hmono (Z.to_nat i) (Z.to_nat idx) _ _ ltac:(lia) Hgi Ecur). lia. }
  split; [lia|]. exists i, cur, other. split; [lia|]. rewrite !Hget by lia. done.
Qed.

(** Two alerts of one satellite, ten seconds and 76 km apart. *)
Definition sample_alerts : list ring_alert :=
  [(IraData 7 1 f64_zero f64_zero 780 (1790, 0, 0) 0 [], f64_of_Z 1626104000, 5000000000);
   (IraData 7 1 f64_zero f64_zero 780 (1789, 19, 0) 0 [], f64_of_Z 1626103000, 15000000000)].

Lemma velocity_from_later_witness : exists s v,
  doppler_store [] sample_alerts !! 0%nat = Some s /\ estimate_velocity s 0 = Some v /\ 0 < sb_count s - 1.
Proof.
  assert (is_Some (s ← doppler_store [] sample_alerts !! 0%nat; estimate_velocity s 0)) as [v E] by (vm_compute; eexists; reflexivity).
  apply bind_Some in E as (s & Es & Ev). exists s, v. split; [exact Es|]. split; [exact Ev|].
  apply (velocity_from_later sample_alerts 0 s 0 v); [|exact Es|lia|exact Ev]. repeat constructor; cbn; lia.
Defined.

(** * Collecting *)

Lemma collect_from_bound now keep s n sats : (n <= ALL_MEAS_SIZE)%nat -> (n + length (fst (collect_from now keep s n sats)) <= ALL_MEAS_SIZE)%nat.
Proof.
  revert s n. induction sats as [|sat sats IH]; intros s n Hn; cbn [collect_from]; [cbn [fst length]; lia|].
  set (ms := if default false (keep !! s) then _ else _). destruct (0 <? length ms)%nat eqn:E0, (ALL_MEAS_SIZE <=? n + length ms)%nat eqn:E1; cbn [andb].
  1: cbn [fst]; rewrite length_take; lia.
  all: specialize (IH (S s) (n + length ms)%nat); destruct (collect_from now keep (S s) _ sats) as [rest used]; cbn [fst] in *; rewrite length_app;
    apply Nat.ltb_ge in E0 || apply Nat.leb_gt in E1; lia.
Qed.

(** Where a collected measurement comes from. *)
Definition usable (now : Z) (keep : list bool) (sats : list sat_buffer) (m : solver_meas) : Prop :=
  exists sat i sm v, sats !! so_sat_idx m = Some sat /\ keep !! so_sat_idx m = Some true /\
    sat_buf_get sat i = Some sm /\ sm_valid sm = true /\ too_old now sm = false /\ estimate_velocity sat i = Some v /\
    m = solver_meas_of (estimate_channel_freq sat now) (so_sat_idx m) sm v.

Lemma sat_measurements_usable now s sat m : m ∈ sat_measurements now s sat ->
  so_sat_idx m = s /\ exists i sm v, sat_buf_get sat i = Some sm /\ sm_valid sm = true /\ too_old now sm = false /\ estimate_velocity sat i = Some v /\
    m = solver_meas_of (estimate_channel_freq sat now) s sm v.
Proof.
  unfold sat_measurements. destruct (SFeqb _ _); [intros H; by apply elem_of_nil in H|]. intros (i & _ & Hm)%list_elem_of_omap.
  destruct (sat_buf_get sat i) as [sm|] eqn:Eg; [|done]. destruct (sm_valid sm) eqn:Ev; [|done]. destruct (too_old now sm) eqn:Eo; [done|]. cbn [negb andb] in Hm.
  destruct (estimate_velocity sat i) as [v|] eqn:Ee; [|done]. injection Hm as <-. split; [done|]. by exists i, sm, v.
Qed.

Lemma collect_from_usable now keep all n sats s : sats = drop s all ->
  Forall (usable now keep all) (fst (collect_from now keep s n sats)).
Proof.
  revert n s. induction sats as [|sat sats IH]; intros n s Hd; cbn [collect_from]; [done|].
  set (ms := if default false (keep !! s) then _ else _).
  assert (all !! s = Some sat) as Hs by (rewrite <- (Nat.add_0_r s), <- lookup_drop, <- Hd; done).
  assert (Forall (usable now keep all) ms) as Hms.
  { unfold ms. destruct (keep !! s) as [[]|] eqn:Ek; cbn; [|done..]. apply Forall_forall. intros m (E & i & sm & v & H)%sat_measurements_usable.
    exists sat, i, sm, v. rewrite E. tauto. }
  assert (sats = drop (S s) all) as Hd' by (by erewrite drop_S in Hd; [injection Hd|]).
  specialize (IH (n + length ms)%nat (S s) Hd'). destruct (_ && _); [cbn [fst]; by apply Forall_take|].
  destruct (collect_from now keep (S s) _ sats) as [rest used]. cbn [fst] in *. by apply Forall_app.
Qed.

(** What is collected fits the array, and every entry is a recent measurement
    with a velocity of a satellite that was kept. *)
Lemma collect_spec now keep sats : let ms := fst (collect now keep sats) in
  (length ms <= ALL_MEAS_SIZE)%nat /\ Forall (usable now keep sats) ms.
Proof.
  split; [|by apply collect_from_usable]. pose proof (collect_from_bound now keep 0 0 sats ltac:(lia)). done.
Qed.

(** * Convergence *)

Section convergence.
Context (sin cos : f64 -> f64) (atan2 : f64 -> f64 -> f64).
#[local] Abbreviation wls := (wls sin cos atan2).

Definition has_nan (v : vec3) : Prop := v0 v = S754_nan \/ v1 v = S754_nan \/ v2 v = S754_nan.

#[local] Instance has_nan_dec v : Decision (has_nan v).
Proof. unfold has_nan. apply _. Defined.

Lemma sight_nan rx m : has_nan rx -> too_close (sight_of rx m) = false /\ sg_rho_dot (sight_of rx m) = S754_nan.
Proof.
  intros Hn. assert (vec3_norm (vec3_sub (so_ecef m) rx) = S754_nan) as E.
  { unfold vec3_norm, vec3_sub. cbn [v0 v1 v2]. destruct Hn as [->|[->| ->]]; by autorewrite with nan. }
  unfold sight_of, too_close. cbn [sg_rho sg_rho_dot]. rewrite E. by autorewrite with nan.
Qed.

Definition all_nan (l : list f64) : Prop := length l = 4%nat /\ Forall (eq S754_nan) l.

Lemma length_H_row sg : length (H_row sg) = 4%nat.
Proof. done. Qed.

Lemma accumulate_keeps_nan eqs row w dy : length row = 4%nat -> all_nan (snd eqs) -> all_nan (snd (accumulate eqs row w dy)).
Proof.
  intros Hr [Hl HF]. split; cbn [snd accumulate]; [rewrite length_zip_with; lia|]. apply Forall_lookup. intros i x.
  rewrite lookup_zip_with. destruct (row !! i); [|done]. cbn. destruct (snd eqs !! i) as [y|] eqn:E; [|done]. cbn.
  rewrite Forall_lookup in HF. rewrite <- (HF _ _ E). by intros [= <-].
Qed.

Lemma accumulate_makes_nan eqs row w : length row = 4%nat -> length (snd eqs) = 4%nat -> all_nan (snd (accumulate eqs row w S754_nan)).
Proof.
  intros Hr Hl. split; cbn [snd accumulate]; [rewrite length_zip_with; lia|]. apply Forall_lookup. intros i x.
  rewrite lookup_zip_with. destruct (row !! i); [|done]. cbn. destruct (snd eqs !! i) as [y|] eqn:E; [|done]. cbn. intros [= <-]. by autorewrite with nan.
Qed.

Lemma length_accumulate eqs row w dy : length row = 4%nat -> length (snd eqs) = 4%nat -> length (snd (accumulate eqs row w dy)) = 4%nat.
Proof. intros Hr Hl. cbn [snd accumulate]. rewrite length_zip_with. lia. Qed.

(** A measurement that counts makes the right-hand side NaN when the position is. *)
Lemma equations_nan skip rx clk ms eqs : has_nan rx -> length (snd eqs) = 4%nat ->
  (exists m, m ∈ ms /\ skip && zero_weight m = false) -> all_nan (snd (fold_left (add_meas skip rx clk) ms eqs)).
Proof.
  intros Hn Hl (m & Hm & Hw).
  assert (forall ms eqs, all_nan (snd eqs) -> all_nan (snd (fold_left (add_meas skip rx clk) ms eqs))) as Hkeep.
  { clear -Hn. induction ms as [|x ms IH]; intros eqs H; [done|]. cbn [fold_left]. apply IH. unfold add_meas. destruct (_ || _); [done|]. by apply accumulate_keeps_nan. }
  revert eqs Hl. induction Hm as [x l|x y l Hm IH]; intros eqs Hl; cbn [fold_left].
  - apply Hkeep. unfold add_meas. rewrite Hw. destruct (sight_nan rx x Hn) as [-> E]. cbn [orb].
    unfold residual. rewrite E. autorewrite with nan. by apply accumulate_makes_nan.
  - apply IH; [done|]. unfold add_meas. destruct (_ || _); [done|]. by apply length_accumulate.
Qed.

Lemma mat_vec_nan inv y : square4 inv -> all_nan y -> all_nan (mat_vec inv y).
Proof.
  intros [Hl HF] [Hy HN]. split; [unfold mat_vec; by rewrite length_map|]. unfold mat_vec. apply Forall_map. eapply Forall_impl; [exact HF|].
  intros r Hr. destruct r as [|r0 r]; [done|]. destruct y as [|y0 y]; [done|]. inversion HN as [|? ? E HN']; subst. cbn [zip_with fold_left]. autorewrite with nan.
  generalize (zip_with f64_mul r y). intros l. induction l as [|x l IH]; [done|]. cbn [fold_left]. by autorewrite with nan.
Qed.

Lemma step_norm_nan d : all_nan d -> step_norm d = S754_nan.
Proof.
  intros [Hl HF]. destruct d as [|a [|b [|c d]]]; try done. inversion HF as [|? ? <- HF1]; subst. done.
Qed.

(** What a solve that converges rests on: a last correction of less than 100 m,
    of a position free of NaN. *)
Lemma wls_converged height first ms fuel iter p p' : (exists m, m ∈ ms /\ negb first && zero_weight m = false) ->
  wls height first ms fuel iter p = Converged p' ->
  exists q d, length d = 4%nat /\ p' = apply_delta q d /\ f64_ltb (step_norm d) CONVERGENCE_M = true /\ ~ has_nan (fst q).
Proof.
  intros Hms. revert iter p. induction fuel as [|fuel IH]; intros iter p; [done|]. cbn [Doppler.wls].
  set (eqs := fold_left _ ms zero_eq). set (eqs' := match height with Some h => _ | None => _ end).
  destruct (mat4_invert _) as [inv|] eqn:Ei; [|done]. apply mat4_invert_square in Ei.
  set (d0 := mat_vec inv (snd eqs')). set (d := if first then limit_step d0 else d0).
  assert (length d = 4%nat) as Hd.
  { assert (length d0 = 4%nat) by (unfold d0, mat_vec; rewrite length_map; apply Ei). unfold d, limit_step. destruct first; [|done]. destruct (f64_gtb _ _); [by rewrite length_map|done]. }
  destruct (f64_ltb (step_norm d) CONVERGENCE_M) eqn:Ec; [|apply IH]. intros [= <-]. exists p, d. split; [done|]. split; [done|]. split; [done|].
  intros Hn. assert (all_nan (snd eqs)) as H1 by by apply equations_nan.
  assert (all_nan (snd eqs')) as H2. { unfold eqs'. destruct height as [h|]; [|done]. unfold add_height. destruct (f64_gtb _ _); [by apply accumulate_keeps_nan|done]. }
  pose proof (mat_vec_nan inv _ Ei H2) as H3. fold d0 in H3.
  assert (d = d0) as Ed by (unfold d, limit_step; rewrite (step_norm_nan _ H3); by destruct first).
  rewrite Ed, (step_norm_nan _ H3) in Ec. done.
Qed.

Lemma converged_not_nan q d : length d = 4%nat -> f64_ltb (step_norm d) CONVERGENCE_M = true -> ~ has_nan (fst q) ->
  ~ has_nan (fst (apply_delta q d)).
Proof.
  intros Hd Hc Hq. destruct d as [|a [|b [|c [|k [|]]]]]; try done. cbn [step_norm] in Hc. apply norm_tame in Hc as (Ha & Hb & Hc'); [|done].
  unfold has_nan in *. cbn [apply_delta fst v0 v1 v2]. intros [E|[E|E]]; revert E; apply f64_add_not_nan; tauto.
Qed.
End convergence.

(** * Solves *)

Section solves.
Context (sin cos : f64 -> f64) (atan2 : f64 -> f64 -> f64).
#[local] Abbreviation solve := (doppler_pos_solve sin cos atan2).

Definition live (m : solver_meas) : Prop := zero_weight m = false.
#[local] Instance live_dec m : Decision (live m).
Proof. unfold live. apply _. Defined.

(** What is neither too close nor an outlier keeps its weight. *)
Lemma survivor_live p sigma l : Forall live l ->
  let close m := too_close (sight_of (fst p) m) in
  let ms := map (fun m => if close m then set_weight_zero m else m) l in
  let ms' := map (fun m => if is_outlier p sigma m then set_weight_zero m else m) ms in
  (length (List.filter (is_outlier p sigma) ms) < length (List.filter (fun m => negb (close m)) l))%nat -> exists m, m ∈ ms' /\ live m.
Proof.
  intros HF close ms ms' Hlt. destruct (decide (Exists live ms')) as [(m & Hm & Hl)%Exists_exists|Hno]; [by exists m|].
  exfalso. apply not_Exists_Forall in Hno; [|apply _].
  assert (length (List.filter (fun m => negb (close m)) l) <= length (List.filter (is_outlier p sigma) ms))%nat; [|lia].
  clear Hlt. unfold ms', ms in *. clear ms ms'. induction HF as [|m l Hm HF IH]; [done|]. cbn [map] in Hno. inversion Hno as [|? ? H1 H2]; subst.
  specialize (IH H2). cbn [map List.filter]. destruct (close m); cbn [negb].
  - destruct (is_outlier p sigma (set_weight_zero m)); cbn [length]; lia.
  - destruct (is_outlier p sigma m); cbn [length]; [lia|]. by destruct H1.
Qed.

Lemma later_wls_ok height ms p p' : (exists m, m ∈ ms /\ live m) -> wls sin cos atan2 height false ms MAX_ITERATIONS 0 p = Converged p' -> ~ has_nan (fst p').
Proof.
  intros (m & Hm & Hl) E. apply wls_converged in E as (q & d & Hd & -> & Hc & Hn); [by apply converged_not_nan|]. by exists m.
Qed.

(** The stages keep enough measurements and a position free of NaN. *)
Lemma outlier_stage_ok height n_meas p all all' p' n' rej : (8 <= n_meas)%nat -> Forall live (take n_meas all) -> ~ has_nan (fst p) ->
  outlier_stage sin cos atan2 height n_meas p all = (all', Some (p', n', rej)) -> (8 <= n')%nat /\ ~ has_nan (fst p').
Proof.
  intros Hn HF Hp. unfold outlier_stage, residual_pass. destruct (Z.leb_spec (Z.of_nat (length (List.filter (fun m => negb (too_close (sight_of (fst p) m))) (take n_meas all)))) 4);
    [intros E; by simplify_eq|].
  set (sigma := f64_sqrt _). pose proof (survivor_live p sigma (take n_meas all) HF) as Hs. cbv zeta in Hs.
  destruct (_ && _) eqn:Ec; [|intros E; by simplify_eq]. apply andb_true_iff in Ec as [_ Hge%Z.leb_le]. unfold MIN_MEASUREMENTS in Hge.
  destruct (wls _ _ _ _ _ _ _ _ _) as [q| |] eqn:Ew; intros E; simplify_eq. split; [lia|]. eapply later_wls_ok; [|exact Ew]. apply Hs. lia.
Qed.

Lemma satellite_stage_ok height n_meas rej used p all all' p' n' used' : (8 <= n_meas)%nat -> 2 <= used -> ~ has_nan (fst p) ->
  satellite_stage sin cos atan2 height n_meas rej used p all = (all', Some (p', n', used')) -> (8 <= n')%nat /\ 2 <= used' /\ ~ has_nan (fst p').
Proof.
  intros Hn Hu Hp. unfold satellite_stage. set (dropped := bad_sats _). destruct (Nat.eqb_spec (length dropped) 0) as [E0|]; [rewrite E0; intros E; simplify_eq; by rewrite Z.sub_0_r|].
  set (ms := map _ _). destruct (_ && _) eqn:Ec; [|done]. apply andb_true_iff in Ec as [H1%Z.leb_le H2%Z.leb_le]. unfold MIN_MEASUREMENTS, MIN_SATELLITES in *.
  destruct (wls _ _ _ _ _ _ _ _ _) as [q| |] eqn:Ew; intros E; simplify_eq. split; [lia|]. split; [done|]. eapply later_wls_ok; [|exact Ew].
  destruct (List.filter (fun m => f64_gtb (so_weight m) f64_zero) ms) as [|m l] eqn:Ef; [cbn in H1; lia|].
  assert (In m ms /\ f64_gtb (so_weight m) f64_zero = true) as [Hm Hw]. { apply (filter_In (fun m => f64_gtb (so_weight m) f64_zero)). rewrite Ef. by left. }
  exists m. split; [by apply list_elem_of_In|]. unfold live, zero_weight. destruct (so_weight m) as [[]|[]| |[] ? ?]; done.
Qed.

(** The solution of the stages: enough measurements and satellites, no NaN; the
    store, the height and the guard's counter are left alone. *)
Lemma solve_stages_ok st : let '(st', r) := solve_stages sin cos atan2 st in
  dp_satellites st' = dp_satellites st /\ dp_height_m st' = dp_height_m st /\ dp_height_enabled st' = dp_height_enabled st /\
  dp_prev_ecef st' = dp_prev_ecef st /\ dp_jump_rejects st' = dp_jump_rejects st /\ (dp_has_prev st' = true -> dp_has_prev st = true) /\
  match r with
  | inl out => exists n s, out = counts n s
  | inr (p, _, n, used) => dp_has_prev st' = dp_has_prev st /\ (8 <= n)%nat /\ 2 <= used /\ ~ has_nan (fst p)
  end.
Proof.
  unfold solve_stages. set (now := latest_time _). set (keep := sat_keep _ _). pose proof (collect_spec now keep (dp_satellites st)) as [_ Hu].
  destruct (collect now keep (dp_satellites st)) as [meas used]. cbv zeta in Hu. cbn [fst] in Hu.
  assert (Forall live meas) as Hlive.
  { eapply Forall_impl; [exact Hu|]. intros m (sat & i & sm & v & _ & _ & _ & _ & _ & _ & ->). done. }
  set (height := if dp_height_enabled st then _ else _). destruct (_ || _) eqn:Eg; [split_and!; try done; by eexists _, _|].
  apply orb_false_iff in Eg as [Hn%Z.ltb_ge Hs%Z.ltb_ge]. unfold MIN_MEASUREMENTS, MIN_SATELLITES in *.
  destruct (wls _ _ _ _ _ _ _ _ _) as [p| |] eqn:Ew; [|split_and!; try done; by exists 0, 0|split_and!; try done; by eexists _, _].
  apply wls_converged in Ew as (q & d & Hd & Ep & Hc & Hnan).
  2:{ destruct meas as [|m meas]; [cbn in Hn; lia|]. exists m. split; [left|done]. }
  assert (~ has_nan (fst p)) as Hp by (rewrite Ep; by apply converged_not_nan).
  destruct (outlier_stage _ _ _ _ _ _ _) as [all [[[p1 n1] rej]|]] eqn:Eo; [|split_and!; try done; by exists 0, 0].
  apply outlier_stage_ok in Eo as [Hn1 Hp1]; [|lia|cbn [dp_all_meas with_all_meas]; by rewrite take_app_length|done].
  destruct (satellite_stage _ _ _ _ _ _ _ _ _) as [all2 [[[p2 n2] used2]|]] eqn:Es; [|split_and!; try done; by exists 0, 0].
  apply satellite_stage_ok in Es as (Hn2 & Hu2 & Hp2); [|done..]. split_and!; done.
Qed.

(** The first adjustment does not settle: there is enough to solve and its iterations
    run out. *)
Definition first_diverges (st : doppler_state) : bool :=
  let sats := dp_satellites st in
  let keep := sat_keep (latest_time sats) sats in
  let '(meas, used) := collect (latest_time sats) keep sats in
  (MIN_MEASUREMENTS <=? Z.of_nat (length meas)) && (MIN_SATELLITES <=? used) &&
  match wls sin cos atan2 (if dp_height_enabled st then Some (dp_height_m st) else None) true meas MAX_ITERATIONS 0 (initial_point sin cos atan2 st keep) with
  | Diverged => true
  | _ => false
  end.

(** Only that drops the kept position. *)
Lemma stages_prev st : dp_has_prev (fst (solve_stages sin cos atan2 st)) = dp_has_prev st && negb (first_diverges st).
Proof.
  unfold solve_stages, first_diverges. set (now := latest_time _). set (keep := sat_keep _ _). destruct (collect now keep (dp_satellites st)) as [meas used].
  cbv zeta. rewrite !(Z.leb_antisym _ _), <- negb_orb.
  destruct (_ || _); cbn [negb andb]; [by rewrite andb_true_r|].
  destruct (wls _ _ _ _ _ _ _ _ _) as [p| |]; cbn [negb]; rewrite ?andb_true_r, ?andb_false_r; try done.
  destruct (outlier_stage _ _ _ _ _ _ _) as [all [[[p1 n1] rej]|]]; [|done]. by destruct (satellite_stage _ _ _ _ _ _ _ _ _) as [all2 [[[p2 n2] used2]|]].
Qed.

(** ** Runs *)

Inductive doppler_op := AddAlert (a : ring_alert) | SetHeight (h : f64) | Solve.

Definition run_op (st : doppler_state) (op : doppler_op) : doppler_state :=
  match op with
  | AddAlert a => doppler_add st (fst (fst a)) (snd (fst a)) (snd a)
  | SetHeight h => doppler_pos_set_height st h
  | Solve => fst (fst (solve st))
  end.
Definition doppler_run (ops : list doppler_op) : doppler_state := fold_left run_op ops doppler_pos_init.

Record sane (st : doppler_state) : Prop := {
  sane_prev : dp_has_prev st = true -> ~ has_nan (dp_prev_ecef st);
  sane_rejects : 0 <= dp_jump_rejects st <= 4;
}.

Definition far_apart (a b : vec3) : bool := f64_gtb (vec3_norm (vec3_sub a b)) MAX_SOLUTION_JUMP.

(** The position reported after the guard: the new one, or the previous one
    while the new one is far from it. *)
Lemma jump_guard_cases st p : let st' := jump_guard st p in
  dp_satellites st' = dp_satellites st /\ dp_has_prev st' = true /\
  (dp_has_prev st = true /\ far_apart (fst p) (dp_prev_ecef st) = true /\ dp_jump_rejects st < 4 /\
     dp_prev_ecef st' = dp_prev_ecef st /\ dp_jump_rejects st' = dp_jump_rejects st + 1 \/
   dp_prev_ecef st' = fst p /\ (dp_has_prev st = true -> dp_jump_rejects st' = 0 /\ (far_apart (fst p) (dp_prev_ecef st) = true -> 4 <= dp_jump_rejects st)) /\
     (dp_has_prev st = false -> dp_jump_rejects st' = dp_jump_rejects st)).
Proof.
  unfold jump_guard. fold (far_apart (fst p) (dp_prev_ecef st)). destruct (dp_has_prev st) eqn:Eh.
  - destruct (far_apart _ _) eqn:Ef; [destruct (Z.ltb_spec (dp_jump_rejects st + 1) 5)|]; cbn; split_and!; try done.
    + left. split_and!; (done || lia).
    + right. split_and!; try done. intros _. split; [done|lia].
    + right. split_and!; done.
  - cbn. split_and!; try done. right. split_and!; done.
Qed.

Lemma run_op_sane st op : sane st -> sane (run_op st op).
Proof.
  intros [H1 H2]. destruct op as [a|h|]; [by split..|]. cbn [run_op]. unfold doppler_pos_solve. pose proof (solve_stages_ok st) as Hs.
  destruct (solve_stages sin cos atan2 st) as [st1 [out|[[[p hdop] n] used]]]; destruct Hs as (_ & _ & _ & Hp & Hr & Hh & Hs); cbn [fst].
  - split; rewrite ?Hp, ?Hr; tauto.
  - destruct Hs as (Hh' & _ & _ & Hn). destruct (jump_guard_cases st1 p) as (_ & _ & [(G1 & _ & G2 & G3 & G4)|(G1 & G2 & G3)]).
    + split; [rewrite G3, Hp; tauto|lia].
    + split; [by rewrite G1|]. destruct (dp_has_prev st1); [destruct G2 as [-> _]; lia|rewrite G3; lia].
Qed.

Lemma doppler_run_sane ops : sane (doppler_run ops).
Proof.
  unfold doppler_run. assert (sane doppler_pos_init) as H0 by (split; [done|cbn; lia]). revert H0. generalize doppler_pos_init.
  induction ops as [|op ops IH]; intros st H; [done|]. cbn. by apply IH, run_op_sane.
Qed.

Lemma far_self v : far_apart v v = false.
Proof.
  unfold far_apart, vec3_norm, vec3_sub. cbn [v0 v1 v2].
  destruct (f64_sub_self (v0 v)) as [->|[[] ->]], (f64_sub_self (v1 v)) as [->|[[] ->]], (f64_sub_self (v2 v)) as [->|[[] ->]]; by vm_compute.
Qed.

(** C31 (invariant).  In every run of the engine, from start-up through any ring
    alerts, height settings and solves: a solve never changes the store; when it
    reports a solution, the reported numbers of measurements and satellites are at
    least 8 and 2 (the satellites are counted before outliers are left out), the
    position kept for the next solve has no NaN coordinate, the latitude, longitude
    and altitude are computed from it, and it is more than 500 km from the one kept
    before only when four solutions have been held back; when it reports none, the
    coordinates given out are zero.  A position kept stays as it is, and stays kept
    unless the first adjustment runs out of iterations, which drops it. *)
Theorem solutions_sound ops : let st := doppler_run ops in
  let '(st', ok, out) := solve st in
  dp_satellites st' = dp_satellites st /\
  if ok : bool then
    sol_converged out = true /\ 8 <= sol_n_measurements out /\ 2 <= sol_n_satellites out /\
    dp_has_prev st' = true /\ ~ has_nan (dp_prev_ecef st') /\
    (sol_lat out, sol_lon out, sol_alt out) = ecef_to_geodetic sin cos atan2 (dp_prev_ecef st') /\
    (dp_has_prev st = true -> far_apart (dp_prev_ecef st') (dp_prev_ecef st) = true -> dp_jump_rejects st = 4)
  else
    sol_converged out = false /\ (sol_lat out, sol_lon out, sol_alt out) = (f64_zero, f64_zero, f64_zero) /\
    dp_prev_ecef st' = dp_prev_ecef st /\ dp_has_prev st' = dp_has_prev st && negb (first_diverges st).
Proof.
  intros st. pose proof (doppler_run_sane ops) as Hsane. fold st in Hsane. pose proof (run_op_sane st Solve Hsane) as Hsane'. cbn [run_op] in Hsane'.
  pose proof (solve_stages_ok st) as Hs. pose proof (stages_prev st) as Hprev. unfold doppler_pos_solve in *.
  destruct (solve_stages sin cos atan2 st) as [st1 [out|[[[p hdop] n] used]]]; destruct Hs as (Hsat & _ & _ & Hp & Hr & Hh & Hs); cbn [fst] in *.
  - destruct Hs as (n & s & ->). by split_and!.
  - clear Hprev. destruct Hs as (Hh' & Hn & Hu & Hnan). destruct (jump_guard_cases st1 p) as (Gs & Gh & G). split; [by rewrite Gs|].
    unfold report. destruct (ecef_to_geodetic _ _ _ (dp_prev_ecef (jump_guard st1 p))) as [[lat lon] alt] eqn:Eg. cbn.
    split_and!; try done; [lia|by apply Hsane'|].
    intros Hprev. destruct G as [(_ & _ & _ & -> & _)|(-> & G2 & _)]; [by rewrite Hp, far_self|].
    rewrite <- Hp. intros Hfar. destruct G2 as [_ G2]; [by rewrite Hh'|]. specialize (G2 Hfar). pose proof (sane_rejects _ Hsane). lia.
Qed.

(** ** The guard over a run *)

Inductive outcome := Failed | First | Near | Held | Moved.
#[local] Instance outcome_eq_dec : EqDecision outcome.
Proof. solve_decision. Defined.

(** What a solve does with its solution, seen from the position it reports:
    the first one, one within 500 km of the last, the last one again although
    the new one is farther, or a new one farther away. *)
Definition solve_outcome (st : doppler_state) : outcome :=
  match snd (solve_stages sin cos atan2 st) with
  | inl _ => Failed
  | inr (p, _, _, _) =>
      if negb (dp_has_prev st) then First
      else if far_apart (fst p) (dp_prev_ecef st) then if decide (dp_prev_ecef (fst (fst (solve st))) = fst p) then Moved else Held
      else Near
  end.

Fixpoint outcomes (st : doppler_state) (ops : list doppler_op) : list outcome :=
  match ops with
  | [] => []
  | op :: ops => (match op with Solve => [solve_outcome st] | _ => [] end) ++ outcomes (run_op st op) ops
  end.

(** The promise of the guard, as what it allows when [held] solutions have been
    held back since it last let one through: a fifth is not held back, and a
    far one is let through only then. *)
Fixpoint guarded (held : Z) (os : list outcome) : Prop :=
  match os with
  | [] => True
  | Held :: os => held < 4 /\ guarded (held + 1) os
  | Moved :: os => held = 4 /\ guarded 0 os
  | Near :: os => guarded 0 os
  | Failed :: os | First :: os => guarded held os
  end.

Lemma solve_outcome_step st os : sane st -> guarded (dp_jump_rejects (fst (fst (solve st)))) os -> guarded (dp_jump_rejects st) (solve_outcome st :: os).
Proof.
  intros Hsane. unfold solve_outcome, doppler_pos_solve. pose proof (solve_stages_ok st) as Hs.
  destruct (solve_stages sin cos atan2 st) as [st1 [out|[[[p hdop] n] used]]]; destruct Hs as (_ & _ & _ & Hp & Hr & _ & Hs); cbn [fst snd].
  - by rewrite Hr.
  - destruct Hs as (Hh & _). destruct (jump_guard_cases st1 p) as (_ & _ & G). rewrite Hh, Hp, Hr in G. pose proof (sane_rejects _ Hsane).
    destruct (dp_has_prev st); cbn [negb].
    + destruct G as [(_ & Gf & Gl & G3 & ->)|(G1 & G2 & _)].
      * rewrite Gf, decide_False; [done|]. rewrite G3. intros E. by rewrite E, far_self in Gf.
      * destruct G2 as [-> G2]; [done|]. destruct (far_apart _ _); [|done]. rewrite decide_True by done. cbn [guarded]. specialize (G2 eq_refl). split; [lia|done].
    + destruct G as [(? & _)|(_ & _ & G3)]; [done|]. by rewrite G3.
Qed.

(**  In every run a position more than 500 km from the last one is
    reported only when four solutions were held back since the guard last let
    one through (for them the last position was reported again), and never are
    five held back. *)
Theorem moves_held_back ops : guarded 0 (outcomes doppler_pos_init ops).
Proof.
  change 0 with (dp_jump_rejects doppler_pos_init). pose proof (doppler_run_sane []) as H0. change (doppler_run []) with doppler_pos_init in H0.
  revert H0. generalize doppler_pos_init. induction ops as [|op ops IH]; intros st Hs; cbn [outcomes]; [done|].
  specialize (IH (run_op st op) (run_op_sane st op Hs)). destruct op as [a|h|]; [exact IH..|]. by apply solve_outcome_step.
Qed.
End solves.

(** A solve at work: two satellites with five alerts each, of which four have a
    velocity, and a previous position that the measurements fit. *)
Definition pass_alerts : list ring_alert :=
  [(IraData 5 1 f64_zero f64_zero 780 (1500, 286, 934) 0 [], f64_lit 162609356286 100, 5000000000);
   (IraData 9 1 f64_zero f64_zero 780 (1341, -267, 1155) 0 [], f64_lit 162606791705 100, 8000000000);
   (IraData 5 1 f64_zero f64_zero 780 (1490, 286, 949) 0 [], f64_lit 162609203647 100, 15000000000);
   (IraData 9 1 f64_zero f64_zero 780 (1329, -263, 1169) 0 [], f64_lit 162606634306 100, 18000000000);
   (IraData 5 1 f64_zero f64_zero 780 (1480, 285, 965) 0 [], f64_lit 162608978382 100, 25000000000);
   (IraData 9 1 f64_zero f64_zero 780 (1317, -260, 1183) 0 [], f64_lit 162606555052 100, 28000000000);
   (IraData 5 1 f64_zero f64_zero 780 (1470, 285, 981) 0 [], f64_lit 162608843674 100, 35000000000);
   (IraData 9 1 f64_zero f64_zero 780 (1306, -256, 1197) 0 [], f64_lit 162606411688 100, 38000000000);
   (IraData 5 1 f64_zero f64_zero 780 (1459, 284, 996) 0 [], f64_lit 162608432844 100, 45000000000);
   (IraData 9 1 f64_zero f64_zero 780 (1294, -252, 1211) 0 [], f64_lit 162610141945 100, 48000000000)].

Definition sample_state : doppler_state :=
  DopplerState (doppler_store [] pass_alerts) f64_zero false (V3 (f64_of_Z 5264063) f64_zero (f64_of_Z 3589294)) f64_zero true 0 [].

Example sample_solve :
  (let '(st, ok, out) := doppler_pos_solve (fun _ => f64_zero) (fun _ => f64_of_Z 1) (fun _ _ => f64_zero) sample_state in
   (ok, sol_n_measurements out, sol_n_satellites out, dp_jump_rejects st)) = (true, 8, 2, 0).
Proof. vm_compute. reflexivity. Qed.
