(* ===== verification/CString.v ===== *)
(** The part of C's formatted output the models need: decimal, hexadecimal and
    binary digits, field padding, and the truncation of [snprintf]. *)
From S2P Require Import Prelude.
From Stdlib Require Export String Ascii.
#[local] Open Scope string_scope.
#[local] Open Scope Z_scope.

(** * Definitions *)

Definition chr (code : Z) : ascii := ascii_of_nat (Z.to_nat code).
Definition str1 (c : ascii) : string := String c EmptyString.

Definition dec_digit (d : Z) : ascii := chr (48 + d).
Definition hex_digit (d : Z) : ascii := if d <? 10 then chr (48 + d) else chr (87 + d).

(** Digits of [n >= 0] in a base, most significant first; twenty digits are
    enough for any 64-bit value in base ten. *)
Fixpoint digits_go (fuel : nat) (base : Z) (digit : Z -> ascii) (n : Z) (acc : string) : string :=
  match fuel with
  | O => acc
  | S fuel =>
      let acc := String (digit (n mod base)) acc in
      if n <? base then acc else digits_go fuel base digit (n / base) acc
  end.

(** [%d] and [%x]. *)
Definition fmt_d (n : Z) : string :=
  if n <? 0 then String "-"%char (digits_go 20 10 dec_digit (- n) "")
  else digits_go 20 10 dec_digit n "".
Definition fmt_x (n : Z) : string := digits_go 20 16 hex_digit n "".

Fixpoint fill (n : nat) (c : ascii) : string :=
  match n with O => "" | S n => String c (fill n c) end.

(** [%0wd], [%0wx] for non-negative values, [%wd] and [%-ws]. *)
Definition pad0 (w : nat) (s : string) : string := fill (w - String.length s) "0"%char ++ s.
Definition pad_left (w : nat) (s : string) : string := fill (w - String.length s) " "%char ++ s.
Definition pad_right (w : nat) (s : string) : string := s ++ fill (w - String.length s) " "%char.

(** [snprintf(buf, size, ...)]: at most [size - 1] characters are kept. *)
Definition snprintf (size : nat) (s : string) : string := String.substring 0 (size - 1) s.

(** * Lemmas *)

Lemma length_app_str s t : String.length (s ++ t) = (String.length s + String.length t)%nat.
Proof. induction s as [|c s IH]; simpl; [done|]. by rewrite IH. Qed.

Lemma length_fill n c : String.length (fill n c) = n.
Proof. induction n; simpl; congruence. Qed.

Lemma length_digits_go fuel base digit n acc k : 1 < base -> (1 <= k <= fuel)%nat ->
  0 <= n < base ^ Z.of_nat k ->
  (String.length acc + 1 <= String.length (digits_go fuel base digit n acc) <= String.length acc + k)%nat.
Proof.
  intros Hb. revert n acc k. induction fuel as [|fuel IH]; intros n acc k Hk Hn; [lia|].
  simpl. destruct (Z.ltb_spec n base) as [|Hge]; [simpl; lia|].
  destruct k as [|[|k]]; [lia|change (Z.of_nat 1) with 1 in Hn; rewrite Z.pow_1_r in Hn; lia|].
  specialize (IH (n / base) (String (digit (n mod base)) acc) (S k)). simpl String.length in IH.
  assert (0 <= n / base < base ^ Z.of_nat (S k)); [|lia].
  rewrite (Nat2Z.inj_succ (S k)), Z.pow_succ_r in Hn by lia.
  split; [apply Z.div_pos; lia|]. apply Z.div_lt_upper_bound; lia.
Qed.

Lemma length_fmt_d n k : (1 <= k <= 20)%nat -> 0 <= n < 10 ^ Z.of_nat k ->
  (1 <= String.length (fmt_d n) <= k)%nat.
Proof.
  intros Hk Hn. unfold fmt_d. destruct (Z.ltb_spec n 0); [lia|].
  by apply (length_digits_go 20 10 dec_digit n "" k).
Qed.

Lemma length_fmt_x n k : (1 <= k <= 20)%nat -> 0 <= n < 16 ^ Z.of_nat k ->
  (1 <= String.length (fmt_x n) <= k)%nat.
Proof. intros Hk Hn. by apply (length_digits_go 20 16 hex_digit n "" k). Qed.

Lemma length_pad_right w s : (String.length s <= w)%nat -> String.length (pad_right w s) = w.
Proof. intros Hs. unfold pad_right. rewrite length_app_str, length_fill. lia. Qed.

Lemma length_pad0 w s : (String.length s <= w)%nat -> String.length (pad0 w s) = w.
Proof. intros Hs. unfold pad0. rewrite length_app_str, length_fill. lia. Qed.

Lemma substring_all n s : (String.length s <= n)%nat -> String.substring 0 n s = s.
Proof.
  revert n. induction s as [|c s IH]; intros [|n] Hn; simpl in *; try done; try lia.
  f_equal. apply IH. lia.
Qed.

(** A string that fits is kept whole. *)
Lemma snprintf_fits size s : (String.length s < size)%nat -> snprintf size s = s.
Proof. intros Hs. apply substring_all. lia. Qed.
