(* ===== verification/LcwFormat.v ===== *)
(** The Link Control Word and its printed form: [lcw_t] of [src/ida_decode.h]
    and [format_lcw_header] of [src/ida_decode.c]. *)
From S2P Require Import Prelude CString Bch.
#[local] Open Scope string_scope.
#[local] Open Scope Z_scope.

(** * Data *)

Record lcw_t := Lcw {
  lcw_ft_field : Z;       (* ft *)
  lcw_ok : Z;
  lcw_ft : Z;
  lcw_code : Z;
  lcw3_val : Z;
  ec_lcw : Z;
}.

#[export] Instance lcw_t_eq_dec : EqDecision lcw_t.
Proof. solve_decision. Defined.

(** * Operations *)

(** [lcw3_to_bits]: the bits of [val], most significant first. *)
Definition lcw3_to_bits (val : Z) (nbits : nat) : list Z :=
  map (fun i => Z.land (Z.shiftr val (Z.of_nat (nbits - 1 - i))) 1) (seq 0 nbits).

(** The characters '0'/'1' of a slice [from .. to). *)
Fixpoint bit_string (l : list Z) : string :=
  match l with [] => "" | b :: l => String (dec_digit b) (bit_string l) end.
Definition bstr (l : list Z) (from to : nat) : string := bit_string (slice l from to).

(** [for (i = from; i < to; i++) v = (v << 1) | bit[i]]. *)
Definition bnum (l : list Z) (from to : nat) : Z :=
  fold_left (fun v b => Z.lor (Z.shiftl v 1) b) (slice l from to) 0.

(** Message name, code text and remaining bits, by type and code. *)
Definition lcw_text (lcw : lcw_t) : string * string * string :=
  let b := lcw3_to_bits (lcw3_val lcw) 21 in
  let code := lcw_code lcw in
  let all := bstr b 0 21 in
  if lcw_ft lcw =? 0 then
    ("maint",
     if code =? 0 then
       "sync[status:" ++ fmt_d (b.[1]) ++ ",dtoa:" ++ fmt_d (bnum b 3 13)
         ++ ",dfoa:" ++ fmt_d (bnum b 13 21) ++ "]"
     else if code =? 1 then
       "switch[dtoa:" ++ fmt_d (bnum b 3 13) ++ ",dfoa:" ++ fmt_d (bnum b 13 21) ++ "]"
     else if code =? 3 then
       "maint[2][lqi:" ++ fmt_d (b.[1] * 2 + b.[2]) ++ ",power:" ++ fmt_d (bnum b 3 6)
         ++ ",f_dtoa:" ++ fmt_d (bnum b 6 13) ++ ",f_dfoa:" ++ fmt_d (bnum b 13 20) ++ "]"
     else if code =? 6 then "geoloc"
     else if code =? 12 then
       "maint[1][lqi:" ++ fmt_d (b.[19] * 2 + b.[20]) ++ ",power:" ++ fmt_d (bnum b 16 19) ++ "]"
     else if code =? 15 then "<silent>"
     else "rsrvd(" ++ fmt_d code ++ ")",
     if code =? 0 then bstr b 0 1 ++ "|" ++ bstr b 2 3
     else if code =? 1 then bstr b 0 3
     else if code =? 3 then bstr b 0 1 ++ "|" ++ bstr b 20 21
     else if code =? 12 then bstr b 0 16
     else all)
  else if lcw_ft lcw =? 1 then
    if code =? 1 then
      ("acchl",
       "acchl[msg_type:" ++ fmt_x (bnum b 1 4) ++ ",bloc_num:" ++ fmt_x (b.[4])
         ++ ",sapi_code:" ++ fmt_x (bnum b 5 8) ++ ",segm_list:" ++ bstr b 8 16 ++ "]",
       bstr b 0 1 ++ "," ++ pad0 2 (fmt_x (bnum b 16 21)))
    else ("acchl", "rsrvd(" ++ fmt_d code ++ ")", all)
  else if lcw_ft lcw =? 2 then
    if code =? 3 then
      ("hndof",
       "handoff_resp[cand:" ++ (if b.[2] =? 0 then "P" else "S") ++ ",denied:" ++ fmt_d (b.[3])
         ++ ",ref:" ++ fmt_d (b.[4]) ++ ",slot:" ++ fmt_d (1 + b.[6] * 2 + b.[7])
         ++ ",sband_up:" ++ fmt_d (bnum b 8 13) ++ ",sband_dn:" ++ fmt_d (bnum b 13 18)
         ++ ",access:" ++ fmt_d (bnum b 18 21 + 1) ++ "]",
       bstr b 0 2 ++ "," ++ bstr b 5 6)
    else if code =? 12 then ("hndof", "handoff_cand", bstr b 0 11 ++ "," ++ bstr b 11 21)
    else if code =? 15 then ("hndof", "<silent>", all)
    else ("hndof", "rsrvd(" ++ fmt_d code ++ ")", all)
  else ("rsrvd", "<" ++ fmt_d code ++ ">", all).

(** [format_lcw_header] with its buffers: [code[128]], [remain[64]],
    [raw[128]] and [out[outsz]]. *)
Definition format_lcw_header (ft : Z) (lcw : lcw_t) (outsz : nat) : string :=
  let '(ty, code, remain) := lcw_text lcw in
  let code := snprintf 128 code in
  let remain := snprintf 64 remain in
  let raw := snprintf 128 ("LCW(" ++ fmt_d ft ++ ",T:" ++ ty ++ ",C:" ++ code ++ "," ++ remain ++ ")") in
  snprintf outsz (pad_right 110 raw ++ " ").

(** * Lemmas *)

Definition lcw_wf (l : lcw_t) : Prop :=
  0 <= lcw_ft_field l < 8 /\ lcw_ok l = 1 /\ 0 <= lcw_ft l < 4 /\ 0 <= lcw_code l < 16 /\
  0 <= lcw3_val l < 2 ^ 21 /\ 0 <= ec_lcw l <= 3.

Lemma length_lcw3_to_bits v n : List.length (lcw3_to_bits v n) = n.
Proof. unfold lcw3_to_bits. by rewrite length_map, length_seq. Qed.

Lemma lcw3_bits_ok v n : bits_ok (lcw3_to_bits v n).
Proof. apply List.Forall_forall. intros b [i [<- _]]%in_map_iff. apply is_bit_land. Qed.

Lemma length_bit_string l : String.length (bit_string l) = List.length l.
Proof. induction l; simpl; congruence. Qed.

Lemma length_bstr v a b : (b <= 21)%nat ->
  String.length (bstr (lcw3_to_bits v 21) a b) = (b - a)%nat.
Proof.
  intros Hb. unfold bstr. rewrite length_bit_string, length_slice; [done|].
  by rewrite length_lcw3_to_bits.
Qed.

Lemma bnum_range v a c : 0 <= bnum (lcw3_to_bits v 21) a c < 2 ^ Z.of_nat (c - a).
Proof.
  unfold bnum.
  assert (bits_ok (slice (lcw3_to_bits v 21) a c)) as Hb
    by (apply Forall_take, Forall_drop, lcw3_bits_ok).
  rewrite shift_or_bval by (done || lia). pose proof (bval_range _ Hb) as Hr. unfold bval in Hr.
  assert (2 ^ Z.of_nat (List.length (slice (lcw3_to_bits v 21) a c)) <= 2 ^ Z.of_nat (c - a)); [|lia].
  apply Z.pow_le_mono_r; [lia|]. unfold slice. rewrite length_take. lia.
Qed.

Lemma lcw3_bit v i : 0 <= (lcw3_to_bits v 21).[i] <= 1.
Proof. apply is_bit_range, rd_bit, lcw3_bits_ok. Qed.

Lemma fmt_d_1 n : 0 <= n < 10 -> (String.length (fmt_d n) <= 1)%nat.
Proof. intros. by apply (length_fmt_d n 1); [lia|]. Qed.
Lemma fmt_d_2 n : 0 <= n < 100 -> (String.length (fmt_d n) <= 2)%nat.
Proof. intros. by apply (length_fmt_d n 2); [lia|]. Qed.
Lemma fmt_d_4 n : 0 <= n < 10000 -> (String.length (fmt_d n) <= 4)%nat.
Proof. intros. by apply (length_fmt_d n 4); [lia|]. Qed.
Lemma fmt_x_1 n : 0 <= n < 16 -> (String.length (fmt_x n) <= 1)%nat.
Proof. intros. by apply (length_fmt_x n 1); [lia|]. Qed.
Lemma fmt_x_2 n : 0 <= n < 256 -> (String.length (fmt_x n) <= 2)%nat.
Proof. intros. by apply (length_fmt_x n 2); [lia|]. Qed.

(** Ranges of the bits and fields occurring in the goal. *)
Ltac in_range :=
  repeat match goal with
  | |- context [bnum (lcw3_to_bits ?v 21) ?a ?c] =>
      let w := eval vm_compute in (2 ^ Z.of_nat (c - a)) in
      let H := fresh in
      assert (0 <= bnum (lcw3_to_bits v 21) a c < w) as H by exact (bnum_range v a c);
      revert H; generalize (bnum (lcw3_to_bits v 21) a c); intros ? ?
  | |- context [rd (lcw3_to_bits ?v 21) ?i] =>
      let H := fresh in
      pose proof (lcw3_bit v i) as H; revert H; generalize (rd (lcw3_to_bits v 21) i); intros ? ?
  end; lia.

(** Bound the length of every printed number by the width of its field. *)
Ltac bound_numbers :=
  repeat match goal with
  | |- context [String.length (fmt_d ?e)] =>
      let H := fresh in
      first [ assert (String.length (fmt_d e) <= 1)%nat as H by (apply fmt_d_1; in_range)
            | assert (String.length (fmt_d e) <= 2)%nat as H by (apply fmt_d_2; in_range)
            | assert (String.length (fmt_d e) <= 4)%nat as H by (apply fmt_d_4; in_range) ];
      revert H; generalize (String.length (fmt_d e)); intros ? ?
  | |- context [String.length (fmt_x ?e)] =>
      let H := fresh in
      assert (String.length (fmt_x e) <= 1)%nat as H by (apply fmt_x_1; in_range);
      revert H; generalize (String.length (fmt_x e)); intros ? ?
  end.

Lemma length_hex2 v : String.length (pad0 2 (fmt_x (bnum (lcw3_to_bits v 21) 16 21))) = 2%nat.
Proof. apply length_pad0, fmt_x_2. in_range. Qed.

Ltac lengths :=
  rewrite ?length_app_str, ?length_hex2, ?length_bstr by lia; cbn [String.length Nat.sub];
  bound_numbers; lia.

Lemma lcw_text_lengths l : 0 <= lcw_code l < 16 ->
  let '(ty, code, remain) := lcw_text l in
  String.length ty = 5%nat /\ (String.length code + String.length remain <= 92)%nat /\
  (String.length remain <= 22)%nat.
Proof.
  intros Hcode. unfold lcw_text. set (v := lcw3_val l).
  destruct (lcw_ft l =? 0); [|destruct (lcw_ft l =? 1); [|destruct (lcw_ft l =? 2)]].
  - split; [done|]. split; repeat destruct (lcw_code l =? _); lengths.
  - destruct (lcw_code l =? 1); (split; [done|]); (split; lengths).
  - repeat destruct (lcw_code l =? _); (split; [done|]); [|split; lengths..].
    destruct (_ =? 0); (split; lengths).
  - split; [done|]. split; lengths.
Qed.

(** * Properties *)

(** The printed Link Control Word always fits: for every frame type
    and every 4-bit code no buffer truncates anything, and the header is
    exactly the 110 padded characters and one space the line format needs. *)
Theorem lcw_header_fits (ft : Z) (l : lcw_t) : 0 <= ft < 8 -> 0 <= lcw_code l < 16 ->
  (let '(ty, code, remain) := lcw_text l in
   format_lcw_header ft l 128 =
   pad_right 110 ("LCW(" ++ fmt_d ft ++ ",T:" ++ ty ++ ",C:" ++ code ++ "," ++ remain ++ ")") ++ " ") /\
  String.length (format_lcw_header ft l 128) = 111%nat.
Proof.
  intros Hft Hcode. pose proof (lcw_text_lengths l Hcode) as Hl. unfold format_lcw_header.
  destruct (lcw_text l) as [[ty code] remain]. destruct Hl as (Hty & Hsum & Hrem).
  pose proof (fmt_d_1 ft ltac:(lia)) as Hd.
  rewrite (snprintf_fits 128 code), (snprintf_fits 64 remain) by lia.
  set (raw := "LCW(" ++ _).
  assert (String.length raw <= 110)%nat as Hraw
    by (unfold raw; rewrite !length_app_str; cbn [String.length]; lia).
  assert (String.length (pad_right 110 raw ++ " ") = 111%nat) as Hpad
    by (rewrite length_app_str, length_pad_right by done; done).
  rewrite (snprintf_fits 128 raw), snprintf_fits by lia. done.
Qed.

Lemma lcw_header_fits_witness :
  String.length (format_lcw_header 2 (Lcw 2 1 2 3 2097151 0) 128) = 111%nat.
Proof. apply (lcw_header_fits 2 (Lcw 2 1 2 3 2097151 0)); simpl; lia. Defined.
