(* ===== verification/IdaDecode.v ===== *)
(** The IDA frame decoder, [src/ida_decode.c]: Link Control Word extraction,
    payload descrambling with hard and soft (Chase) BCH decoding, CRC and field
    extraction.

    The static tables are [ida_tables]; the runtime option [use_chase] is an
    argument.  [descramble_payload] de-interleaves its last partial block into
    two uninitialised 64-entry stack arrays: their previous contents are the
    argument [stk], so that what the code reads of them is visible. *)
From S2P Require Import Prelude CFloat CString Bch Crc QpskDemod FrameDecode LcwFormat.

(** * Data *)

Definition BCH_POLY_DA : Z := 3545.
Definition BCH_DA_SYN : Z := 11.
Definition BCH_DA_DATA : nat := 20.
Definition BCH_POLY_LCW1 : Z := 29.
Definition BCH_POLY_LCW2 : Z := 465.
Definition BCH_POLY_LCW3 : Z := 41.

Definition lcw_perm : list nat :=
  [40; 39; 36; 35; 32; 31; 28; 27; 24; 23;
   20; 19; 16; 15; 12; 11;  8;  7;  4;  3;
   41; 38; 37; 34; 33; 30; 29; 26; 25; 22;
   21; 18; 17; 14; 13; 10;  9;  6;  5;  2;
    1; 46; 45; 44; 43; 42]%nat.

Record ida_tables := IdaTables {
  syn_da : list syn_entry;
  syn_lcw1 : list syn_entry;
  syn_lcw2 : list syn_entry;
  syn_lcw3 : list syn_entry;
}.

(** [build_syn]: the same table construction as [build_syndrome_table]. *)
Definition build_syn (poly : Z) (nbits max_errors table_size : nat) : list syn_entry :=
  let syn0 := replicate table_size (SynEntry (-1) 0) in
  let syn1 := fold_left (syn_single poly) (seq 0 nbits) syn0 in
  if (2 <=? max_errors)%nat then
    fold_left (fun syn b1 =>
      fold_left (fun syn b2 => syn_double poly syn b1 b2)
                (seq (b1 + 1) (nbits - (b1 + 1))) syn)
      (seq 0 nbits) syn1
  else syn1.

Definition ida_decode_init : ida_tables := {|
  syn_da := build_syn BCH_POLY_DA 31 2 2048;
  syn_lcw1 := build_syn BCH_POLY_LCW1 7 1 16;
  syn_lcw2 := build_syn BCH_POLY_LCW2 14 1 256;
  syn_lcw3 := build_syn BCH_POLY_LCW3 26 2 32;
|}.

(** The uninitialised locals [h1], [h2], [lh1], [lh2] of [descramble_payload]. *)
Record stack_junk := StackJunk {
  junk_h1 : list Z; junk_h2 : list Z; junk_lh1 : list f32; junk_lh2 : list f32;
}.

(** [ida_burst_t]; the stored stream is the 256-entry array. *)
Record ida_burst := IdaBurst {
  ib_timestamp : Z;
  ib_frequency : f64;
  ib_direction : ir_direction;
  ib_magnitude : f32;
  ib_noise : f32;
  ib_level : f32;
  ib_confidence : Z;
  ib_n_symbols : Z;
  ib_da_ctr : Z;
  ib_da_len : Z;
  ib_cont : Z;
  ib_payload : list Z;       (* 32 bytes *)
  ib_payload_len : Z;
  ib_crc_ok : bool;
  ib_stored_crc : Z;
  ib_computed_crc : Z;
  ib_fixederrs : Z;
  ib_bch_stream : list Z;    (* 256 bits *)
  ib_bch_len : nat;
  ib_lcw : lcw_t;
  ib_lcw_header : string;
}.

(** * Chase decoding *)

(** The selection of the [k] least reliable positions: [pos] starts as the
    identity and is partially selection-sorted by reliability. *)
Definition min_index (llr : list f32) (pos : list nat) (i : nat) : nat :=
  fold_left (fun min_idx j =>
    if f32_ltb (llr !!! (pos !!! j)) (llr !!! (pos !!! min_idx)) then j else min_idx)
    (seq (i + 1) (31 - (i + 1))) i.

Definition swap_pos (pos : list nat) (i j : nat) : list nat :=
  let tmp := pos !!! i in <[j := tmp]> (<[i := pos !!! j]> pos).

Definition least_reliable (llr : list f32) (k : nat) : list nat :=
  fold_left (fun pos i => swap_pos pos i (min_index llr pos i)) (seq 0 k) (seq 0 31).

Definition flip_masks (pos : list nat) (k : nat) : list Z :=
  map (fun i => u32 (Z.shiftl 1 (30 - Z.of_nat (pos !!! i)))) (seq 0 k).

(** [base_val] with the masks selected by the bits of [mask] applied. *)
Definition flip (base_val : Z) (flip_mask : list Z) (k mask : nat) : Z :=
  fold_left (fun v b => if Nat.testbit mask b then Z.lxor v (flip_mask.[b]) else v) (seq 0 k) base_val.

(** The data bits of one corrected word and the error count of the table. *)
Definition da_accept (tbl : ida_tables) (val : Z) : option (Z * list Z) :=
  let syndrome := gf2_remainder BCH_POLY_DA val in
  if syndrome =? 0 then Some (0, uint_to_bits (Z.shiftr val BCH_DA_SYN) BCH_DA_DATA)
  else match syn_lookup (syn_da tbl) syndrome with
       | Some e => Some (errs e, uint_to_bits (Z.shiftr (Z.lxor val (locator e)) BCH_DA_SYN) BCH_DA_DATA)
       | None => None
       end.

(** The retry loop: masks in increasing order, first acceptance wins. *)
Fixpoint chase_loop (tbl : ida_tables) (base_val : Z) (flip_mask : list Z) (k : nat)
    (masks : list nat) : option (Z * list Z) :=
  match masks with
  | [] => None
  | mask :: rest =>
      match da_accept tbl (flip base_val flip_mask k mask) with
      | Some r => Some r
      | None => chase_loop tbl base_val flip_mask k rest
      end
  end.

(** [chase_bch_da]: error count, data bits and the [fixed] flag. *)
Definition chase_bch_da (tbl : ida_tables) (use_chase : nat) (block31 : list Z)
    (llr31 : option (list f32)) : option (Z * list Z * Z) :=
  let val := bits_to_uint block31 31 in
  match da_accept tbl val with
  | Some (n, d) => Some (n, d, if gf2_remainder BCH_POLY_DA val =? 0 then 0 else 1)
  | None =>
      match llr31 with
      | None => None
      | Some llr =>
          let k := use_chase in
          let flip_mask := flip_masks (least_reliable llr k) k in
          match chase_loop tbl val flip_mask k (seq 1 (2 ^ k - 1)) with
          | Some (n, d) => Some (n, d, 1)
          | None => None
          end
      end
  end.

(** * Link Control Word *)

Definition pair_swap (data : list Z) : list Z :=
  flat_map (fun i => [data.[(2 * i + 1)%nat]; data.[(2 * i)%nat]]) (seq 0 23).

(** One LCW component: the corrected word and whether it was touched. *)
Definition lcw_component (syn : list syn_entry) (poly v : Z) : option (Z * Z) :=
  let s := gf2_remainder poly v in
  if s =? 0 then Some (v, 0)
  else match syn_lookup syn s with
       | Some e => Some (Z.lxor v (locator e), 1)
       | None => None
       end.

Definition decode_lcw (tbl : ida_tables) (data : list Z) : option lcw_t :=
  if (List.length data <? 46)%nat then None
  else
    let swapped := pair_swap data in
    let lcw_bits := map (fun p => swapped.[(p - 1)%nat]) lcw_perm in
    match lcw_component (syn_lcw1 tbl) BCH_POLY_LCW1 (bits_to_uint lcw_bits 7) with
    | None => None
    | Some (v1, e1) =>
        let ft := Z.land (Z.shiftr v1 4) 0x7 in
        match lcw_component (syn_lcw2 tbl) BCH_POLY_LCW2
                (u32 (Z.shiftl (bits_to_uint (drop 7 lcw_bits) 13) 1)) with
        | None => None
        | Some (v2, e2) =>
            match lcw_component (syn_lcw3 tbl) BCH_POLY_LCW3 (bits_to_uint (drop 20 lcw_bits) 26) with
            | None => None
            | Some (v3, e3) =>
                let lcw2_data := Z.land (Z.shiftr v2 8) 0x3F in
                let lcw3_data := Z.shiftr v3 5 in
                Some (Lcw ft 1 (Z.land (Z.shiftr lcw2_data 4) 0x3) (Z.land lcw2_data 0xF)
                          lcw3_data (e1 + e2 + e3))
            end
        end
    end.

(** * Payload *)

(** [de_interleave_n]: what is written to [out1] and [out2]. *)
Definition de_interleave_n {A} `{Inhabited A} (inp : list A) (n_sym : Z) : list A * list A :=
  (pick_symbols inp (down_range (n_sym - 1) 1 2), pick_symbols inp (down_range (n_sym - 2) 0 2)).

Definition de_interleave_llr_n (inp : list f32) (n_sym : Z) : list f32 * list f32 :=
  de_interleave_n inp n_sym.

(** An array of which a prefix has been written. *)
Definition overwrite {A} (written junk : list A) : list A := written ++ drop (List.length written) junk.

(** The state of [descramble_payload]: stream so far and corrected blocks. *)
Definition ds_state : Type := list Z * Z.

(** The chunk loop over offsets of [combined]; [inl] is [goto done]. *)
Fixpoint chunk_loop (tbl : ida_tables) (use_chase max_bch : nat) (combined : list Z)
    (lcombined : option (list f32)) (offs : list nat) (st : ds_state) : ds_state + ds_state :=
  match offs with
  | [] => inr st
  | off :: rest =>
      if (max_bch <? List.length (fst st) + BCH_DA_DATA)%nat then inr st
      else match chase_bch_da tbl use_chase (drop off combined) (drop off <$> lcombined) with
           | None => inl st
           | Some (_, d, fixed) =>
               chunk_loop tbl use_chase max_bch combined lcombined rest (fst st ++ d, snd st + fixed)
           end
  end.

(** One full 124-bit block, chunks in the order 3, 1, 2, 0. *)
Definition full_block (tbl : ida_tables) (use_chase max_bch : nat) (block : list Z)
    (block_llr : option (list f32)) (st : ds_state) : ds_state + ds_state :=
  let '(half1, half2) := de_interleave_n block 62 in
  let combined := half1 ++ half2 in
  let lcombined := (fun l => let '(l1, l2) := de_interleave_llr_n l 62 in l1 ++ l2) <$> block_llr in
  chunk_loop tbl use_chase max_bch combined lcombined [93; 31; 62; 0]%nat st.

Fixpoint full_blocks (tbl : ida_tables) (use_chase max_bch : nat) (data : list Z)
    (llr : option (list f32)) (blks : list nat) (st : ds_state) : ds_state + ds_state :=
  match blks with
  | [] => inr st
  | blk :: rest =>
      match full_block tbl use_chase max_bch (drop (blk * 124) data) (drop (blk * 124) <$> llr) st with
      | inl st => inl st
      | inr st => full_blocks tbl use_chase max_bch data llr rest st
      end
  end.

(** The last partial block: each half loses its first bit, the second half
    goes first, and 31-bit words are taken while they fit. *)
Definition tail_bits {A} `{Inhabited A} (h : list A) (half_len : nat) : list A :=
  map (fun i => h !!! i) (seq 1 (half_len - 1)).

Fixpoint tail_loop (fuel : nat) (tbl : ida_tables) (use_chase max_bch : nat) (combined : list Z)
    (lcombined : option (list f32)) (pos : nat) (st : ds_state) : ds_state :=
  match fuel with
  | O => st
  | S fuel =>
      if (pos + 31 <=? List.length combined)%nat && (List.length (fst st) + BCH_DA_DATA <=? max_bch)%nat then
        match chase_bch_da tbl use_chase (drop pos combined) (drop pos <$> lcombined) with
        | None => st
        | Some (_, d, fixed) =>
            tail_loop fuel tbl use_chase max_bch combined lcombined (pos + 31) (fst st ++ d, snd st + fixed)
        end
      else st
  end.

Definition partial_block (tbl : ida_tables) (use_chase max_bch : nat) (stk : stack_junk)
    (data : list Z) (llr : option (list f32)) (remain : nat) (st : ds_state) : ds_state :=
  if (4 <=? remain)%nat && (List.length (fst st) + 2 * (remain / 2 - 1) <=? max_bch)%nat then
    let n_sym_last := (remain / 2)%nat in
    let '(o1, o2) := de_interleave_n data (Z.of_nat n_sym_last) in
    let h1 := overwrite o1 (junk_h1 stk) in
    let h2 := overwrite o2 (junk_h2 stk) in
    let half_len := n_sym_last in
    if (1 <? half_len)%nat && (List.length (fst st) + BCH_DA_DATA <=? max_bch)%nat then
      let combined := tail_bits h2 half_len ++ tail_bits h1 half_len in
      let lcombined := (fun l =>
        let '(l1, l2) := de_interleave_llr_n l (Z.of_nat n_sym_last) in
        tail_bits (overwrite l2 (junk_lh2 stk)) half_len ++
        tail_bits (overwrite l1 (junk_lh1 stk)) half_len) <$> llr in
      tail_loop (List.length combined) tbl use_chase max_bch combined lcombined 0 st
    else st
  else st.

Definition descramble_payload (tbl : ida_tables) (use_chase : nat) (stk : stack_junk)
    (data : list Z) (llr : option (list f32)) (max_bch : nat) : ds_state :=
  let n_full := (List.length data / 124)%nat in
  let remain := (List.length data mod 124)%nat in
  match full_blocks tbl use_chase max_bch data llr (seq 0 n_full) ([], 0) with
  | inl st => st
  | inr st =>
      partial_block tbl use_chase max_bch stk (drop (n_full * 124) data)
        (drop (n_full * 124) <$> llr) remain st
  end.

(** * The decoder *)

(** [crc_buf[bit_pos / 8] |= bit << (7 - bit_pos % 8)] for consecutive bits. *)
Definition put_bit (st : list Z * nat) (bit : Z) : list Z * nat :=
  let '(buf, bit_pos) := st in
  let i := (bit_pos / 8)%nat in
  (<[i := Z.lor (buf.[i]) (u8 (Z.shiftl bit (7 - Z.of_nat (bit_pos mod 8))))]> buf, (bit_pos + 1)%nat).

(** The CRC input: 20 header bits, 12 zero bits, then the stream up to its
    last four bits, packed into the zeroed 64-byte buffer. *)
Definition crc_input (bch_stream : list Z) : list Z :=
  let bch_len := List.length bch_stream in
  let '(buf, bit_pos) := fold_left put_bit (take 20 bch_stream) (replicate 64 0, 0%nat) in
  let bit_pos := (bit_pos + 12)%nat in
  let '(buf, bit_pos) := fold_left put_bit (slice bch_stream 20 (bch_len - 4)) (buf, bit_pos) in
  take ((bit_pos + 7) / 8) buf.

Definition payload_byte (bch_stream : list Z) (i : nat) : Z :=
  fold_left (fun byte b => Z.lor (u8 (Z.shiftl byte 1)) b) (slice bch_stream (20 + i * 8) (28 + i * 8)) 0.

Definition bits_field (l : list Z) (from to : nat) : Z :=
  fold_left (fun v b => Z.lor (Z.shiftl v 1) b) (slice l from to) 0.

(** The burst that [ida_decode] fills in from an accepted stream: payload bytes,
    checksum verification and the copied frame data. *)
Definition fill_burst (frame : demod_frame) (lcw : lcw_t) (bch_stream : list Z) (fixederrs : Z)
    : ida_burst :=
  let bch_len := List.length bch_stream in
  let da_len := bits_field bch_stream 11 16 in
  let payload := map (payload_byte bch_stream) (seq 0 20) in
  let crc_bytes := ((20 + 12 + (bch_len - 20 - 4) + 7) / 8)%nat in
  let stored_crc := if 0 <? da_len then bits_field bch_stream 180 196 else 0 in
  let checked := (0 <? da_len) && (crc_bytes <=? 64)%nat in
  let computed_crc := if checked then crc_ccitt (crc_input bch_stream) else 0 in
  let payload_len := if 0 <? da_len then da_len else 20 in
  {| ib_timestamp := df_timestamp frame;
     ib_frequency := df_center_frequency frame;
     ib_direction := df_direction frame;
     ib_magnitude := df_magnitude frame;
     ib_noise := df_noise frame;
     ib_level := df_level frame;
     ib_confidence := df_confidence frame;
     ib_n_symbols := df_n_payload_symbols frame;
     ib_da_ctr := bits_field bch_stream 5 8;
     ib_da_len := da_len;
     ib_cont := bch_stream.[3];
     ib_payload := overwrite (take (Z.to_nat payload_len) payload) (replicate 32 0);
     ib_payload_len := payload_len;
     ib_crc_ok := checked && (computed_crc =? 0);
     ib_stored_crc := stored_crc;
     ib_computed_crc := computed_crc;
     ib_fixederrs := fixederrs;
     ib_bch_stream := overwrite (take 256 bch_stream) (replicate 256 0);
     ib_bch_len := bch_len;
     ib_lcw := lcw;
     ib_lcw_header := format_lcw_header (lcw_ft_field lcw) lcw 128 |}.

(** The part of [ida_decode] after the payload has been descrambled. *)
Definition ida_fields (frame : demod_frame) (lcw : lcw_t) (bch_stream : list Z) (fixederrs : Z)
    : option ida_burst :=
  if (List.length bch_stream <? 196)%nat then None
  else
    let da_len := bits_field bch_stream 11 16 in
    let zero1 := bits_field bch_stream 17 20 in
    if negb (zero1 =? 0) then None
    else if 20 <? da_len then None
    else Some (fill_burst frame lcw bch_stream fixederrs).

(** [ida_decode]: [None] is the 0 result. *)
Definition ida_decode (tbl : ida_tables) (use_chase : nat) (stk : stack_junk) (frame : demod_frame)
    : option ida_burst :=
  if (df_n_bits frame <? 24 + 46 + 124)%nat then None
  else if bool_decide (df_direction frame = DIR_UNDEF) then None
  else
    let data := drop 24 (df_bits frame) in
    let data_llr := drop 24 <$> df_llr frame in
    match decode_lcw tbl data with
    | None => None
    | Some lcw =>
        let ft := lcw_ft_field lcw in
        if negb (ft =? 2) && negb (ft =? 6) && negb (ft =? 7) then None
        else
          let payload_data := drop 46 data in
          let payload_llr := drop 46 <$> data_llr in
          if (List.length payload_data <? 124)%nat then None
          else
            let '(bch_stream, fixederrs) :=
              descramble_payload tbl use_chase stk payload_data payload_llr 512 in
            ida_fields frame lcw bch_stream fixederrs
    end.

(** * The transmitter's side *)

Definition da_code : bch_code := BchCode BCH_POLY_DA 31 11 2 2 (syn_da ida_decode_init).
Definition lcw1_code : bch_code := BchCode BCH_POLY_LCW1 7 4 1 1 (syn_lcw1 ida_decode_init).
Definition lcw2_code : bch_code := BchCode BCH_POLY_LCW2 14 8 1 1 (syn_lcw2 ida_decode_init).
Definition lcw3_code : bch_code := BchCode BCH_POLY_LCW3 26 5 1 2 (syn_lcw3 ida_decode_init).

#[global] Typeclasses Opaque da_code lcw1_code lcw2_code lcw3_code.
#[global] Arguments ida_decode_init : simpl never.

(** A 31-bit payload word: 20 data bits as sent, with flips [ps]. *)
Definition tx_word (b : list Z * list nat) : list Z :=
  uint_to_bits (Z.lxor (bch_encode da_code (bval (fst b))) (err_mask (snd b))) 31.

Definition word_ok (b : list Z * list nat) : Prop :=
  bits_ok (fst b) /\ List.length (fst b) = BCH_DA_DATA /\ err_pattern 31 2 (snd b).

#[export] Instance word_ok_dec b : Decision (word_ok b).
Proof. unfold word_ok. apply _. Defined.

(** The interleaver for any number of symbol pairs: the first symbol of each
    half is sent last. *)
Fixpoint interleave_n {A} (a b : list A) : list A :=
  match a, b with
  | a0 :: a1 :: a, b0 :: b1 :: b => interleave_n a b ++ [b0; b1; a0; a1]
  | _, _ => []
  end.

(** The Link Control Word as sent: three code words, the last bit of the second
    one left out, permuted and pair-swapped. *)
Definition lcw_interleave (bits : list Z) : list Z :=
  map (fun j =>
    let want := (if Nat.even j then j + 2 else j)%nat in
    fold_left (fun acc i => if (lcw_perm !!! i =? want)%nat then bits.[i] else acc) (seq 0 46) 0)
    (seq 0 46).

(** * Lemmas *)

#[export] Instance da_code_ok : BchOk da_code.
Proof. bch_eval. Qed.
#[export] Instance lcw1_code_ok : BchOk lcw1_code.
Proof. bch_eval. Qed.
#[export] Instance lcw2_code_ok : BchOk lcw2_code.
Proof. bch_eval. Qed.
#[export] Instance lcw3_code_ok : BchOk lcw3_code.
Proof. bch_eval. Qed.

#[global] Opaque build_syn.

Lemma da_accept_correct val :
  da_accept ida_decode_init val =
  match bch_correct da_code val with
  | Some (n, w) => Some (n, uint_to_bits (Z.shiftr w BCH_DA_SYN) BCH_DA_DATA)
  | None => None
  end.
Proof.
  unfold da_accept, bch_correct. change (cpoly da_code) with BCH_POLY_DA.
  change (ctable da_code) with (syn_da ida_decode_init).
  destruct (_ =? 0); [done|]. by destruct (syn_lookup _ _).
Qed.

Lemma da_encode_spec data : 0 <= data < 2 ^ Z.of_nat BCH_DA_DATA ->
  gf2_remainder (cpoly da_code) (bch_encode da_code data) = 0 /\
  0 <= bch_encode da_code data < 2 ^ Z.of_nat 31 /\
  Z.shiftr (bch_encode da_code data) 11 = data.
Proof. intros Hd. apply (bch_encode_spec (c:=da_code)); [cbn; lia|exact Hd]. Qed.

Lemma tx_word_value b rest : word_ok b ->
  bits_to_uint (tx_word b ++ rest) 31 = Z.lxor (bch_encode da_code (bval (fst b))) (err_mask (snd b)).
Proof.
  intros (Hb & Hl & Hp). unfold tx_word.
  rewrite bits_to_uint_bval by (rewrite ?take_uint_bits; auto with sniff; lia).
  rewrite take_uint_bits. apply bval_uint_small. pose proof (bval_range _ Hb) as Hr.
  rewrite Hl in Hr. apply lxor_range; [lia|by apply da_encode_spec|apply err_mask_range, Hp].
Qed.

Lemma tx_word_accept b rest : word_ok b ->
  da_accept ida_decode_init (bits_to_uint (tx_word b ++ rest) 31) =
    Some (Z.of_nat (List.length (snd b)), fst b).
Proof.
  intros Hok. pose proof Hok as (Hb & Hl & Hp). rewrite da_accept_correct, tx_word_value by done.
  pose proof (bval_range _ Hb) as Hr. rewrite Hl in Hr.
  destruct (da_encode_spec (bval (fst b)) Hr) as (Hc & _ & Hs).
  rewrite (bch_correct_pattern (c:=da_code)) by (exact Hc || exact Hp).
  do 2 f_equal. unfold BCH_DA_SYN. rewrite Hs, <- Hl. by apply uint_to_bits_bval.
Qed.

(** Whether a word counts as corrected. *)
Definition touched (b : list Z * list nat) : Z := if decide (snd b = []) then 0 else 1.

Lemma tx_word_decoded k b rest llr : word_ok b ->
  chase_bch_da ida_decode_init k (tx_word b ++ rest) llr =
    Some (Z.of_nat (List.length (snd b)), fst b, touched b).
Proof.
  intros Hok. unfold chase_bch_da. rewrite tx_word_accept, tx_word_value by done.
  rewrite gf2_remainder_lxor. pose proof Hok as (Hb & Hl & Hp).
  pose proof (bval_range _ Hb) as Hr. rewrite Hl in Hr.
  destruct (da_encode_spec (bval (fst b)) Hr) as (Hc & _ & _).
  change (cpoly da_code) with BCH_POLY_DA in Hc. rewrite Hc, Z.lxor_0_l. unfold touched.
  destruct (decide (snd b = [])) as [->|Hne]; [done|].
  destruct (bch_exact (c:=da_code) (snd b) Hp Hne) as [Hn _].
  change (cpoly da_code) with BCH_POLY_DA in Hn. by rewrite (proj2 (Z.eqb_neq _ _) Hn).
Qed.

Lemma length_tx_word b : List.length (tx_word b) = 31%nat.
Proof. apply length_uint_to_bits. Qed.

(** The de-interleaver undoes the interleaver, whatever follows. *)
Lemma down_from_S fuel s lo step :
  lo <= s -> down_from (S fuel) s lo step = s :: down_from fuel (s - step) lo step.
Proof. intros H. simpl. by rewrite (proj2 (Z.leb_le _ _) H). Qed.

Lemma down_from_fuel n m s lo : s - lo + 1 <= Z.of_nat n -> s - lo + 1 <= Z.of_nat m ->
  down_from n s lo 2 = down_from m s lo 2.
Proof.
  revert m s. induction n as [|n IH]; intros [|m] s Hn Hm; simpl; [done|zguards; done|zguards; done|].
  destruct (Z.leb_spec lo s); [|done]. f_equal. apply IH; lia.
Qed.

Lemma down_range_step s lo : lo <= s -> down_range s lo 2 = s :: down_range (s - 2) lo 2.
Proof.
  intros H. unfold down_range. replace (Z.to_nat (s - lo + 1)) with (S (Z.to_nat (s - lo))) by lia.
  rewrite down_from_S by done. f_equal. apply down_from_fuel; lia.
Qed.

Lemma length_interleave_n {A} k (a b : list A) :
  List.length a = (2 * k)%nat -> List.length b = (2 * k)%nat ->
  List.length (interleave_n a b) = (4 * k)%nat.
Proof.
  revert a b. induction k as [|k IH]; intros a b Ha Hb.
  - by destruct a, b.
  - destruct a as [|a0 [|a1 a]], b as [|b0 [|b1 b]]; simpl in *; try lia.
    rewrite length_app, (IH a b) by lia. simpl. lia.
Qed.

Lemma de_interleave_n_inv {A} `{Inhabited A} k (a b rest : list A) :
  List.length a = (2 * k)%nat -> List.length b = (2 * k)%nat ->
  de_interleave_n (interleave_n a b ++ rest) (Z.of_nat (2 * k)) = (a, b).
Proof.
  revert a b rest. induction k as [|k IH]; intros a b rest Ha Hb.
  - by destruct a, b.
  - destruct a as [|a0 [|a1 a]], b as [|b0 [|b1 b]]; simpl in Ha, Hb; try lia.
    cbn [interleave_n]. rewrite <- app_assoc.
    specialize (IH a b ([b0; b1; a0; a1] ++ rest) ltac:(lia) ltac:(lia)).
    unfold de_interleave_n in *.
    pose proof (length_interleave_n k a b ltac:(lia) ltac:(lia)) as Hl.
    rewrite !(down_range_step (Z.of_nat (2 * S k) - _)) by lia.
    replace (Z.of_nat (2 * S k) - 1 - 2) with (Z.of_nat (2 * k) - 1) by lia.
    replace (Z.of_nat (2 * S k) - 2 - 2) with (Z.of_nat (2 * k) - 2) by lia.
    apply pair_equal_spec in IH as [E1 E2].
    unfold pick_symbols in *. cbn [flat_map]. rewrite E1, E2.
    assert (forall i j, i = (4 * k + j)%nat ->
      (interleave_n a b ++ [b0; b1; a0; a1] ++ rest) !!! i = ([b0; b1; a0; a1] ++ rest) !!! j) as Hj.
    { intros i j ->. rewrite lookup_total_app_r by lia. f_equal. lia. }
    rewrite (Hj _ 2%nat), (Hj _ 3%nat), (Hj _ 0%nat), (Hj _ 1%nat) by lia. done.
Qed.

(** The Link Control Word permutation is undone. *)
Lemma lcw_interleave_inv bits rest : List.length bits = 46%nat ->
  map (fun p => (pair_swap (lcw_interleave bits ++ rest)).[(p - 1)%nat]) lcw_perm = bits.
Proof. intros H. explode_list bits. vm_compute. reflexivity. Qed.

Lemma length_lcw_interleave bits : List.length (lcw_interleave bits) = 46%nat.
Proof. unfold lcw_interleave. by rewrite length_map, length_seq. Qed.

(** One component as sent, with flips. *)
Definition lcw_word (c : bch_code) (p : Z * list nat) : Z :=
  Z.lxor (bch_encode c (fst p)) (err_mask (snd p)).

Definition lcw_sent (p1 p2 p3 : Z * list nat) : list Z :=
  lcw_interleave (uint_to_bits (lcw_word lcw1_code p1) 7 ++
                  uint_to_bits (Z.shiftr (lcw_word lcw2_code p2) 1) 13 ++
                  uint_to_bits (lcw_word lcw3_code p3) 26).

(** Data in range and at most one flip.  The second word loses its last bit in
    transmission and the receiver appends a zero: a one there is its flip. *)
Definition lcw_word_ok (c : bch_code) (p : Z * list nat) : Prop :=
  0 <= fst p < 2 ^ Z.of_nat (cbits c - cdeg c) /\ err_pattern (cbits c) 1 (snd p).
Definition lcw_pad_ok (p2 : Z * list nat) : Prop := Z.testbit (lcw_word lcw2_code p2) 0 = false.

#[export] Instance lcw_word_ok_dec c p : Decision (lcw_word_ok c p).
Proof. unfold lcw_word_ok. apply _. Defined.
#[export] Instance lcw_pad_ok_dec p : Decision (lcw_pad_ok p).
Proof. unfold lcw_pad_ok. apply _. Defined.

Definition touched1 (p : Z * list nat) : Z := if decide (snd p = []) then 0 else 1.

Section lcw.
Context {c : bch_code} {Hc : BchOk c}.
Hypothesis Hbits : (cdeg c <= cbits c <= 32)%nat.
Hypothesis Hrad : cradius c = 1%nat.

Lemma lcw_word_range p : lcw_word_ok c p -> 0 <= lcw_word c p < 2 ^ Z.of_nat (cbits c).
Proof using Hc Hbits.
  intros [Hd Hp]. apply lxor_range; [apply Nat2Z.is_nonneg|by apply bch_encode_spec|apply err_mask_range, Hp].
Qed.

Lemma lcw_component_sent p : lcw_word_ok c p ->
  lcw_component (ctable c) (cpoly c) (lcw_word c p) = Some (bch_encode c (fst p), touched1 p).
Proof.
  intros [Hd Hp]. destruct (bch_encode_spec (c:=c) (fst p) Hbits Hd) as (Hcw & _ & _).
  unfold lcw_component, lcw_word, touched1. rewrite gf2_remainder_lxor, Hcw, Z.lxor_0_l.
  destruct (decide (snd p = [])) as [->|Hne]; [simpl; by rewrite Z.lxor_0_r|].
  rewrite <- Hrad in Hp. destruct (bch_exact (c:=c) _ Hp Hne) as [Hn ->].
  rewrite (proj2 (Z.eqb_neq _ _) Hn). simpl. by rewrite lxor_cancel.
Qed.
End lcw.

Lemma bits_to_uint_sent v n rest :
  (n <= 32)%nat -> 0 <= v < 2 ^ Z.of_nat n -> bits_to_uint (uint_to_bits v n ++ rest) n = v.
Proof.
  intros Hn Hv. rewrite bits_to_uint_bval by (rewrite ?take_uint_bits; auto with sniff).
  rewrite take_uint_bits. by apply bval_uint_small.
Qed.

Lemma bits_to_uint_all v n :
  (n <= 32)%nat -> 0 <= v < 2 ^ Z.of_nat n -> bits_to_uint (uint_to_bits v n) n = v.
Proof. intros. rewrite <- (app_nil_r (uint_to_bits v n)). by apply bits_to_uint_sent. Qed.

Lemma shiftr_shiftl_even v n :
  0 <= v < 2 ^ n -> n <= 32 -> Z.testbit v 0 = false -> u32 (Z.shiftl (Z.shiftr v 1) 1) = v.
Proof.
  intros Hv Hn H0. rewrite Z.bit0_odd in H0.
  assert (Z.shiftl (Z.shiftr v 1) 1 = v) as ->.
  { rewrite Z.shiftl_mul_pow2, Z.shiftr_div_pow2 by lia.
    rewrite <- Z.negb_even in H0. apply negb_false_iff, Z.even_spec in H0 as [q ->].
    rewrite Z.pow_1_r. Z.div_mod_to_equations. lia. }
  destruct (decide (0 <= n)); [|rewrite Z.pow_neg_r in Hv by lia; lia].
  assert (2 ^ n <= 2 ^ 32) by (apply Z.pow_le_mono_r; lia). apply u32_small. lia.
Qed.

Lemma decode_lcw_sent p1 p2 p3 rest :
  lcw_word_ok lcw1_code p1 -> lcw_word_ok lcw2_code p2 -> lcw_word_ok lcw3_code p3 ->
  lcw_pad_ok p2 ->
  decode_lcw ida_decode_init (lcw_sent p1 p2 p3 ++ rest) =
  Some (Lcw (fst p1) 1 (fst p2 / 16) (fst p2 mod 16) (fst p3)
            (touched1 p1 + touched1 p2 + touched1 p3)).
Proof.
  intros H1 H2 H3 Hpad. unfold decode_lcw.
  replace (_ <? 46)%nat with false
    by (symmetry; apply Nat.ltb_ge; unfold lcw_sent; rewrite length_app, length_lcw_interleave; lia).
  pose proof (lcw_word_range (c:=lcw1_code) ltac:(cbn; lia) _ H1) as R1.
  pose proof (lcw_word_range (c:=lcw2_code) ltac:(cbn; lia) _ H2) as R2.
  pose proof (lcw_word_range (c:=lcw3_code) ltac:(cbn; lia) _ H3) as R3.
  pose proof (lcw_component_sent (c:=lcw1_code) ltac:(cbn; lia) eq_refl _ H1) as C1.
  pose proof (lcw_component_sent (c:=lcw2_code) ltac:(cbn; lia) eq_refl _ H2) as C2.
  pose proof (lcw_component_sent (c:=lcw3_code) ltac:(cbn; lia) eq_refl _ H3) as C3.
  change (cbits lcw1_code) with 7%nat in R1. change (cbits lcw2_code) with 14%nat in R2.
  change (cbits lcw3_code) with 26%nat in R3. cbn [ctable cpoly lcw1_code lcw2_code lcw3_code] in C1, C2, C3.
  unfold lcw_sent. rewrite lcw_interleave_inv by (rewrite !length_app, !length_uint_to_bits; done).
  rewrite bits_to_uint_sent by (exact R1 || lia).
  rewrite drop_uint_bits. rewrite bits_to_uint_sent
    by (lia || rewrite Z.shiftr_div_pow2 by lia; Z.div_mod_to_equations; lia).
  rewrite (shiftr_shiftl_even _ 14) by (done || lia).
  change 20%nat with (7 + 13)%nat. rewrite <- drop_drop, !drop_uint_bits.
  rewrite bits_to_uint_all by (exact R3 || lia).
  rewrite C1, C2, C3.
  destruct (bch_encode_spec (c:=lcw1_code) (fst p1) ltac:(cbn; lia) (proj1 H1)) as (_ & _ & S1).
  destruct (bch_encode_spec (c:=lcw2_code) (fst p2) ltac:(cbn; lia) (proj1 H2)) as (_ & _ & S2).
  destruct (bch_encode_spec (c:=lcw3_code) (fst p3) ltac:(cbn; lia) (proj1 H3)) as (_ & _ & S3).
  destruct H1 as [H1 _], H2 as [H2 _], H3 as [H3 _].
  cbn [cdeg lcw1_code lcw2_code lcw3_code] in S1, S2, S3.
  change (0 <= fst p1 < 8) in H1. change (0 <= fst p2 < 64) in H2.
  change (Z.of_nat 4) with 4 in S1. change (Z.of_nat 8) with 8 in S2. change (Z.of_nat 5) with 5 in S3.
  rewrite S1, S2, S3, (land_mask _ 7 3), (land_mask _ 3 2), (land_mask _ 0x3F 6), (land_mask _ 0xF 4),
    Z.shiftr_div_pow2 by lia.
  rewrite (Z.mod_small (fst p1)), (Z.mod_small (fst p2) (2 ^ 6)) by lia.
  do 2 f_equal. apply Z.mod_small. Z.div_mod_to_equations. lia.
Qed.

(** ** Payload blocks *)

(** Four words as one 124-bit block, two words as the 64-bit last block whose
    halves start with a filler bit. *)
Record quad := Quad { w0 : list Z * list nat; w1 : list Z * list nat;
                      w2 : list Z * list nat; w3 : list Z * list nat }.
Definition quad_words (q : quad) := [w0 q; w1 q; w2 q; w3 q].
Definition combined_bits (q : quad) : list Z :=
  tx_word (w3 q) ++ tx_word (w1 q) ++ tx_word (w2 q) ++ tx_word (w0 q).
Definition tx_quad (q : quad) : list Z :=
  interleave_n (take 62 (combined_bits q)) (drop 62 (combined_bits q)).
Definition tx_tail (x y : Z) (wa wb : list Z * list nat) : list Z :=
  interleave_n (y :: tx_word wb) (x :: tx_word wa).

Definition words_data (ws : list (list Z * list nat)) : list Z := List.concat (map fst ws).
Definition words_fixed (ws : list (list Z * list nat)) : Z := fold_right Z.add 0 (map touched ws).

Lemma length_combined q : List.length (combined_bits q) = 124%nat.
Proof. unfold combined_bits. by rewrite !length_app, !length_tx_word. Qed.

Lemma length_tx_quad q : List.length (tx_quad q) = 124%nat.
Proof.
  unfold tx_quad. apply (length_interleave_n 31); rewrite ?length_take, ?length_drop, length_combined; done.
Qed.

Lemma length_tx_tail x y a b : List.length (tx_tail x y a b) = 64%nat.
Proof. apply (length_interleave_n 16); cbn [List.length]; rewrite length_tx_word; done. Qed.

(** One step of the chunk loop on a sent word. *)
Lemma chunk_step k cap combined lc off rest st b tail :
  word_ok b -> drop off combined = tx_word b ++ tail -> (List.length (fst st) + 20 <= cap)%nat ->
  chunk_loop ida_decode_init k cap combined lc (off :: rest) st =
  chunk_loop ida_decode_init k cap combined lc rest (fst st ++ fst b, snd st + touched b).
Proof.
  intros Hb Hd Hc. cbn [chunk_loop]. unfold BCH_DA_DATA.
  replace (cap <? List.length (fst st) + 20)%nat with false by (symmetry; apply Nat.ltb_ge; lia).
  by rewrite Hd, tx_word_decoded.
Qed.

Lemma full_block_sent k cap q rest llr st :
  Forall word_ok (quad_words q) -> (List.length (fst st) + 80 <= cap)%nat ->
  full_block ida_decode_init k cap (tx_quad q ++ rest) llr st =
  inr (fst st ++ words_data (quad_words q), snd st + words_fixed (quad_words q)).
Proof.
  intros Hq Hc. unfold quad_words in Hq. rewrite !Forall_cons in Hq. destruct Hq as (H0 & H1 & H2 & H3 & _).
  unfold full_block, tx_quad. change (de_interleave_n ?l 62) with (de_interleave_n l (Z.of_nat (2 * 31))).
  rewrite de_interleave_n_inv by (rewrite ?length_take, ?length_drop, length_combined; done).
  rewrite take_drop. set (lc := fmap _ llr). unfold combined_bits.
  assert (forall b, word_ok b -> List.length (fst b) = 20%nat) as Hl by (intros b (_ & Hl & _); exact Hl).
  erewrite (chunk_step _ _ _ _ 93 _ _ (w0 q) []), (chunk_step _ _ _ _ 31 _ _ (w1 q)),
    (chunk_step _ _ _ _ 62 _ _ (w2 q)), (chunk_step _ _ _ _ 0 _ _ (w3 q));
    try done; cbn [fst snd]; rewrite ?length_app, ?(Hl _ H0), ?(Hl _ H1), ?(Hl _ H2); try lia.
  cbn [chunk_loop]. unfold words_data, words_fixed, quad_words. simpl.
  rewrite app_nil_r, <- !app_assoc. do 2 f_equal. lia.
Qed.

Lemma length_words_data ws : Forall word_ok ws -> List.length (words_data ws) = (20 * List.length ws)%nat.
Proof.
  unfold words_data. induction 1 as [|b ws (_ & Hb & _) _ IH]; [done|]. simpl.
  rewrite length_app, IH, Hb. unfold BCH_DA_DATA. lia.
Qed.

Definition quads_words (qs : list quad) := flat_map quad_words qs.

Lemma words_data_app ws vs : words_data (ws ++ vs) = words_data ws ++ words_data vs.
Proof. unfold words_data. by rewrite map_app, concat_app. Qed.
Lemma words_fixed_app ws vs : words_fixed (ws ++ vs) = words_fixed ws + words_fixed vs.
Proof. unfold words_fixed. induction ws as [|b ws IH]; simpl; [done|]. simpl in IH. lia. Qed.

Lemma length_quads qs : List.length (List.concat (map tx_quad qs)) = (124 * List.length qs)%nat.
Proof. induction qs as [|q qs IH]; [done|]. simpl. rewrite length_app, length_tx_quad, IH. lia. Qed.

Lemma full_blocks_sent k cap qs pre rest llr st :
  Forall word_ok (quads_words qs) -> (List.length (fst st) + 80 * List.length qs <= cap)%nat ->
  full_blocks ida_decode_init k cap (List.concat (map tx_quad pre) ++ List.concat (map tx_quad qs) ++ rest) llr
    (seq (List.length pre) (List.length qs)) st =
  inr (fst st ++ words_data (quads_words qs), snd st + words_fixed (quads_words qs)).
Proof.
  revert pre st. induction qs as [|q qs IH]; intros pre st Hq Hc.
  - destruct st as [s n]. cbn. by rewrite app_nil_r, Z.add_0_r.
  - unfold quads_words in *. cbn [flat_map] in *. apply Forall_app in Hq as [Hq Hqs].
    cbn [map List.concat List.length seq full_blocks]. cbn [List.length] in Hc.
    rewrite drop_app_length' by (rewrite length_quads; lia). rewrite <- app_assoc, full_block_sent by (done || lia).
    specialize (IH (pre ++ [q]) (fst st ++ words_data (quad_words q), snd st + words_fixed (quad_words q)) Hqs).
    rewrite map_app, concat_app, length_app, Nat.add_1_r in IH. cbn [map List.concat fst snd] in IH.
    rewrite app_nil_r, <- app_assoc in IH. rewrite IH.
    + by rewrite words_data_app, words_fixed_app, app_assoc, Z.add_assoc.
    + rewrite length_app, length_words_data by done. cbn. lia.
Qed.

Lemma map_seq_lookup {A} `{Inhabited A} (l j : list A) :
  map (fun i => (l ++ j) !!! i) (seq 0 (List.length l)) = l.
Proof.
  revert j. induction l as [|x l IH] using rev_ind; intros j; [done|].
  rewrite length_app, seq_app, map_app. cbn [List.length seq map]. rewrite <- app_assoc, IH.
  f_equal. rewrite lookup_total_app_r by lia. by rewrite Nat.add_0_l, Nat.sub_diag.
Qed.

(** What the code reads of a half that was written completely. *)
Lemma tail_bits_written {A} `{Inhabited A} x (l junk : list A) n :
  n = S (List.length l) -> tail_bits (overwrite (x :: l) junk) n = l.
Proof.
  intros ->. unfold tail_bits, overwrite. cbn [List.length]. rewrite Nat.sub_succ, Nat.sub_0_r.
  rewrite <- seq_shift, map_map. cbn [app]. apply (map_seq_lookup l (drop (S (List.length l)) junk)).
Qed.

(** One step of the word loop of the last block. *)
Lemma tail_step fuel k cap combined lc pos st b tail :
  word_ok b -> drop pos combined = tx_word b ++ tail -> (List.length (fst st) + 20 <= cap)%nat ->
  (pos + 31 <= List.length combined)%nat ->
  tail_loop (S fuel) ida_decode_init k cap combined lc pos st =
  tail_loop fuel ida_decode_init k cap combined lc (pos + 31) (fst st ++ fst b, snd st + touched b).
Proof.
  intros Hb Hd Hc Hp. cbn [tail_loop]. unfold BCH_DA_DATA.
  rewrite (proj2 (Nat.leb_le _ _) Hp), (proj2 (Nat.leb_le _ _) Hc). cbn [andb].
  by rewrite Hd, tx_word_decoded.
Qed.

Lemma tail_loop_end fuel k tbl cap combined lc pos st :
  (List.length combined < pos + 31)%nat -> tail_loop fuel tbl k cap combined lc pos st = st.
Proof.
  intros H. destruct fuel; [done|]. cbn [tail_loop].
  by rewrite (proj2 (Nat.leb_gt _ _)) by lia.
Qed.

Lemma partial_block_sent k cap stk x y wa wb llr st :
  word_ok wa -> word_ok wb -> (List.length (fst st) + 62 <= cap)%nat ->
  partial_block ida_decode_init k cap stk (tx_tail x y wa wb) llr 64 st =
  (fst st ++ words_data [wa; wb], snd st + words_fixed [wa; wb]).
Proof.
  intros Ha Hb Hc. unfold partial_block. change (64 / 2)%nat with (2 * 16)%nat.
  replace ((4 <=? 64)%nat && _) with true by (symmetry; apply Nat.leb_le; simpl; lia).
  unfold tx_tail. rewrite <- (app_nil_r (interleave_n _ _)).
  rewrite de_interleave_n_inv by (cbn [List.length]; by rewrite length_tx_word).
  replace ((1 <? 2 * 16)%nat && _) with true by (symmetry; apply Nat.leb_le; unfold BCH_DA_DATA; lia).
  rewrite !tail_bits_written by (by rewrite length_tx_word).
  set (lc := fmap _ llr). rewrite length_app, !length_tx_word.
  pose proof Ha as (_ & Hla & _). unfold BCH_DA_DATA in Hla.
  change (31 + 31)%nat with (S (S 60)).
  rewrite (tail_step _ _ _ _ _ _ _ wa (tx_word wb)); [|done|by rewrite drop_0|lia|
    rewrite length_app, !length_tx_word; lia].
  rewrite (tail_step _ _ _ _ _ _ _ wb []); [|done| |cbn [fst]; rewrite length_app; lia|
    rewrite length_app, !length_tx_word; lia].
  2: { by rewrite app_nil_r, drop_app_length' by (by rewrite length_tx_word). }
  rewrite tail_loop_end by (rewrite length_app, !length_tx_word; lia).
  unfold words_data, words_fixed. simpl. rewrite app_nil_r, <- app_assoc. f_equal. lia.
Qed.

Lemma descramble_sent k stk qs x y wa wb llr :
  Forall word_ok (quads_words qs) -> word_ok wa -> word_ok wb -> (List.length qs <= 5)%nat ->
  descramble_payload ida_decode_init k stk (List.concat (map tx_quad qs) ++ tx_tail x y wa wb) llr 512 =
  (words_data (quads_words qs ++ [wa; wb]), words_fixed (quads_words qs ++ [wa; wb])).
Proof.
  intros Hq Ha Hb Hn. unfold descramble_payload.
  rewrite length_app, length_quads, length_tx_tail.
  replace ((124 * List.length qs + 64) / 124)%nat with (List.length qs)
    by (rewrite Nat.mul_comm, Nat.div_add_l by lia; change (64 / 124)%nat with 0%nat; lia).
  replace ((124 * List.length qs + 64) mod 124)%nat with 64%nat
    by (rewrite Nat.mul_comm, Nat.add_comm, Nat.Div0.mod_add; done).
  pose proof (full_blocks_sent k 512 qs [] (tx_tail x y wa wb) llr ([], 0) Hq) as Hf.
  cbn [map List.concat app List.length fst snd] in Hf. rewrite Hf by lia. clear Hf.
  rewrite drop_app_length' by (rewrite length_quads; lia).
  assert (List.length (quads_words qs) = 4 * List.length qs)%nat as Hw.
  { clear. induction qs as [|q qs IH]; [done|]. unfold quads_words in *. simpl. rewrite IH. lia. }
  rewrite partial_block_sent by (done || (cbn [fst]; rewrite length_words_data, Hw by done; lia)).
  by rewrite words_data_app, words_fixed_app.
Qed.

(** ** The CRC buffer *)

(** [n] bytes of a bit string. *)
Definition pack (n : nat) (bits : list Z) : list Z :=
  map (fun i => bval (slice bits (8 * i) (8 * i + 8))) (seq 0 n).

Lemma pack_app n m a b : List.length a = (8 * n)%nat -> pack (n + m) (a ++ b) = pack n a ++ pack m b.
Proof.
  intros Ha. unfold pack. rewrite seq_app, map_app. f_equal.
  - apply map_ext_in. intros i Hi%in_seq. by rewrite slice_app_l by lia.
  - rewrite Nat.add_0_l, seq_shift_n, map_map. apply map_ext_in.
    intros i _. rewrite slice_app_r by lia. rewrite Ha. do 2 f_equal; lia.
Qed.

Lemma rd_app_r pre post i : (pre ++ post).[(List.length pre + i)%nat] = post.[i].
Proof. unfold rd. rewrite app_nth2 by lia. f_equal. lia. Qed.

Lemma put_bit_at pre x post j b : (j < 8)%nat ->
  put_bit (pre ++ x :: post, (8 * List.length pre + j)%nat) b =
  (pre ++ Z.lor x (u8 (Z.shiftl b (7 - Z.of_nat j))) :: post, (8 * List.length pre + S j)%nat).
Proof.
  intros Hj. unfold put_bit. rewrite (Nat.mul_comm 8), Nat.div_add_l, Nat.div_small, Nat.add_0_r by lia.
  rewrite (Nat.add_comm (_ * 8)), Nat.Div0.mod_add, Nat.mod_small by lia.
  pose proof (rd_app_r pre (x :: post) 0) as Hr. rewrite Nat.add_0_r in Hr. rewrite Hr.
  rewrite insert_app_r_alt, Nat.sub_diag by lia. cbn. f_equal. lia.
Qed.

(** Eight bits fill one zero byte. *)
Lemma put_byte pre post bits : bits_ok bits -> List.length bits = 8%nat ->
  fold_left put_bit bits (pre ++ 0 :: post, (8 * List.length pre)%nat) =
  ((pre ++ [bval bits]) ++ post, (8 * List.length (pre ++ [bval bits]))%nat).
Proof.
  intros Hb Hl. rewrite <- (Nat.add_0_r (8 * List.length pre)). explode_list bits.
  cbn [fold_left]. rewrite !put_bit_at by lia. rewrite length_app, <- app_assoc. cbn [List.length app].
  rewrite !Forall_cons in Hb. destruct Hb as (H0 & H1 & H2 & H3 & H4 & H5 & H6 & H7 & _).
  f_equal; [|lia]. f_equal. f_equal.
  destruct H0 as [->| ->], H1 as [->| ->], H2 as [->| ->], H3 as [->| ->],
    H4 as [->| ->], H5 as [->| ->], H6 as [->| ->], H7 as [->| ->]; reflexivity.
Qed.

Lemma pack_cons n b bits : List.length b = 8%nat -> pack (S n) (b ++ bits) = bval b :: pack n bits.
Proof.
  intros Hb. change (S n) with (1 + n)%nat. rewrite pack_app by done.
  change (pack 1 b) with [bval (slice b 0 8)]. unfold slice. rewrite drop_0, take_ge by lia. done.
Qed.

Lemma put_bytes n pre m bits : bits_ok bits -> List.length bits = (8 * n)%nat ->
  fold_left put_bit bits (pre ++ replicate (n + m) 0, (8 * List.length pre)%nat) =
  ((pre ++ pack n bits) ++ replicate m 0, (8 * (List.length pre + n))%nat).
Proof.
  revert pre bits. induction n as [|n IH]; intros pre bits Hb Hl.
  - destruct bits; [|done]. unfold pack. cbn [fold_left seq map]. by rewrite app_nil_r, !Nat.add_0_r.
  - rewrite <- (take_drop 8 bits), fold_left_app. cbn [replicate Nat.add].
    assert (List.length (take 8 bits) = 8)%nat as H8 by (rewrite length_take; lia).
    rewrite put_byte by auto with sniff. rewrite IH by (auto with sniff; rewrite length_drop; lia).
    rewrite pack_cons by done. rewrite <- !app_assoc. rewrite length_app. cbn. f_equal. lia.
Qed.

(** Skipping a bit is writing a zero. *)
Lemma put_zero st : put_bit st 0 = (fst st, S (snd st)).
Proof.
  destruct st as [buf p]. unfold put_bit. rewrite Z.shiftl_0_l. change (u8 0) with 0. rewrite Z.lor_0_r.
  cbn [fst snd]. f_equal; [|lia]. destruct (decide (p / 8 < List.length buf)%nat) as [H|H].
  - apply list_insert_id. unfold rd. rewrite nth_lookup.
    apply lookup_lt_is_Some_2 in H as [x Hx]. by rewrite Hx.
  - apply list_insert_ge. lia.
Qed.

Lemma put_zeros n st : fold_left put_bit (replicate n 0) st = (fst st, (snd st + n)%nat).
Proof.
  revert st. induction n as [|n IH]; intros [buf p];
    cbn [replicate fold_left fst snd]; [f_equal; lia|].
  rewrite put_zero, IH. cbn [fst snd]. f_equal. lia.
Qed.

(** The bytes the checksum covers, for a stream of 200 bits. *)
Definition crc_header (stream : list Z) : list Z := pack 4 (take 20 stream ++ replicate 12 0).

Lemma crc_input_200 stream : bits_ok stream -> List.length stream = 200%nat ->
  crc_input stream = crc_header stream ++ pack 22 (slice stream 20 196).
Proof.
  intros Hb Hl. unfold crc_input, crc_header. rewrite Hl.
  assert (List.length (slice stream 20 196) = 176)%nat as Hs
    by (unfold slice; rewrite length_take, length_drop; lia).
  assert (List.length (take 20 stream ++ replicate 12 0%Z) = 32)%nat as Hh
    by (rewrite length_app, length_take, length_replicate; lia).
  change (200 - 4)%nat with 196%nat.
  pose proof (put_zeros 12 (fold_left put_bit (take 20 stream) (replicate 64 0, 0%nat))) as Hz.
  rewrite <- fold_left_app in Hz.
  destruct (fold_left put_bit (take 20 stream) _) as [buf p]. cbn [fst snd] in Hz. rewrite <- Hz.
  rewrite <- fold_left_app.
  pose proof (put_bytes 26 [] 38 ((take 20 stream ++ replicate 12 0) ++ slice stream 20 196)) as Hp.
  cbn [app List.length] in Hp. change (8 * 0)%nat with 0%nat in Hp.
  change (26 + 38)%nat with 64%nat in Hp. rewrite Hp; clear Hp.
  - change ((8 * (0 + 26) + 7) / 8)%nat with 26%nat. change 26%nat with (4 + 22)%nat at 2.
    rewrite pack_app by done. apply take_app_length'. by rewrite length_app; unfold pack; rewrite !length_map.
  - unfold slice. solve_bits. apply Forall_replicate. by left.
  - rewrite length_app. lia.
Qed.

Lemma bits_field_bval l i j : bits_ok l -> bits_field l i j = bval (slice l i j).
Proof. intros Hl. unfold bits_field. by rewrite shift_or_bval by auto with sniff lia. Qed.

Lemma payload_byte_bval l i : bits_ok l -> payload_byte l i = bval (slice l (20 + i * 8) (28 + i * 8)).
Proof.
  intros Hl. apply shift_or_u8_bval; [auto with sniff|]. unfold slice. rewrite length_take. lia.
Qed.

Lemma bval_byte l i j : bits_ok l -> (j - i = 8)%nat -> is_byte (bval (slice l i j)).
Proof.
  intros Hl Hij. pose proof (bval_range _ (slice_bits_ok l i j Hl)) as Hr.
  assert (List.length (slice l i j) <= 8)%nat by (unfold slice; rewrite length_take; lia).
  assert (2 ^ Z.of_nat (List.length (slice l i j)) <= 2 ^ 8) by (apply Z.pow_le_mono_r; lia).
  unfold is_byte. lia.
Qed.

Definition ida_payload (stream : list Z) : list Z := map (payload_byte stream) (seq 0 20).

(** The body under the checksum: the 20 payload bytes, then the stored checksum. *)
Lemma crc_body stream : bits_ok stream -> List.length stream = 200%nat ->
  exists hi lo, pack 22 (slice stream 20 196) = ida_payload stream ++ [hi; lo] /\
    is_byte hi /\ is_byte lo /\ bits_field stream 180 196 = Z.lor (Z.shiftl hi 8) lo.
Proof.
  intros Hb Hl. exists (bval (slice stream 180 188)), (bval (slice stream 188 196)).
  split; [|split; [by apply bval_byte|split; [by apply bval_byte|]]].
  - unfold pack, ida_payload. change 22%nat with (20 + 2)%nat. rewrite seq_app, map_app. f_equal.
    + apply map_ext_in. intros i Hi%in_seq. rewrite payload_byte_bval, slice_slice by (done || lia).
      do 2 f_equal; lia.
    + cbn [seq map Nat.add]. rewrite !slice_slice by lia. done.
  - rewrite bits_field_bval, (slice_split _ 180 188 196), bval_app, length_slice by (done || lia).
    rewrite word16_add by (by apply bval_byte). done.
Qed.

(** The verdict of the checksum, for the standard stream. *)
Lemma crc_verdict stream : bits_ok stream -> List.length stream = 200%nat ->
  crc_ccitt (crc_input stream) = 0 <->
  bits_field stream 180 196 = crc_ccitt (crc_header stream ++ ida_payload stream).
Proof.
  intros Hb Hl. destruct (crc_body stream Hb Hl) as (hi & lo & E & Hh & Hlo & ->).
  rewrite crc_input_200, E, app_assoc, crc_residue by done. split; done.
Qed.

(** ** What the payload decoder can produce *)

Definition ds_ok (cap : nat) (st : ds_state) : Prop :=
  bits_ok (fst st) /\ (List.length (fst st) <= cap)%nat /\
  exists n, List.length (fst st) = (20 * n)%nat /\ 0 <= snd st <= Z.of_nat n.

Lemma da_accept_data tbl v n d : da_accept tbl v = Some (n, d) -> bits_ok d /\ List.length d = 20%nat.
Proof.
  unfold da_accept. destruct (_ =? 0); [intros [= <- <-]|destruct (syn_lookup _ _); [intros [= <- <-]|done]];
    split; auto using uint_to_bits_ok, length_uint_to_bits.
Qed.

Lemma chase_loop_data tbl v fm k ms n d :
  chase_loop tbl v fm k ms = Some (n, d) -> bits_ok d /\ List.length d = 20%nat.
Proof.
  induction ms as [|m ms IH]; cbn [chase_loop]; [done|].
  destruct (da_accept _ _) as [[n' d']|] eqn:E; [|done]. intros [= <- <-]. by eapply da_accept_data.
Qed.

Lemma chase_data tbl k blk llr n d fx :
  chase_bch_da tbl k blk llr = Some (n, d, fx) -> bits_ok d /\ List.length d = 20%nat /\ 0 <= fx <= 1.
Proof.
  unfold chase_bch_da. destruct (da_accept _ _) as [[n' d']|] eqn:E.
  - intros [= <- <- <-]. apply da_accept_data in E as [? ?]. repeat split; [done..| |]; destruct (_ =? 0); lia.
  - destruct llr as [l|]; [|done]. destruct (chase_loop _ _ _ _ _) as [[n' d']|] eqn:E'; [|done].
    intros [= <- <- <-]. apply chase_loop_data in E' as [? ?]. repeat split; (done || lia).
Qed.

Lemma ds_ok_step cap st d fx : ds_ok cap st -> bits_ok d -> List.length d = 20%nat -> 0 <= fx <= 1 ->
  (List.length (fst st) + 20 <= cap)%nat -> ds_ok cap (fst st ++ d, snd st + fx).
Proof.
  intros (Hb & Hc & n & Hn & Hf) Hd Hl Hx Hcap. unfold ds_ok. cbn [fst snd]. rewrite length_app, Forall_app.
  repeat split; [done..|lia|]. exists (S n). lia.
Qed.

Lemma chunk_loop_ok tbl k cap c lc offs st : ds_ok cap st ->
  match chunk_loop tbl k cap c lc offs st with inl st' => ds_ok cap st' | inr st' => ds_ok cap st' end.
Proof.
  revert st. induction offs as [|o offs IH]; intros st Hst; [done|]. cbn [chunk_loop].
  destruct (_ <? _)%nat eqn:E; [done|]. apply Nat.ltb_ge in E. unfold BCH_DA_DATA in E.
  destruct (chase_bch_da _ _ _ _) as [[[n d] fx]|] eqn:E'; [|done].
  apply chase_data in E' as (? & ? & ?). apply IH. by apply ds_ok_step.
Qed.

Lemma full_blocks_ok tbl k cap data llr blks st : ds_ok cap st ->
  match full_blocks tbl k cap data llr blks st with inl st' => ds_ok cap st' | inr st' => ds_ok cap st' end.
Proof.
  revert st. induction blks as [|b blks IH]; intros st Hst; [done|]. cbn [full_blocks].
  unfold full_block. destruct (de_interleave_n _ 62) as [h1 h2].
  pose proof (chunk_loop_ok tbl k cap (h1 ++ h2)
    ((fun l => let '(l1, l2) := de_interleave_llr_n l 62 in l1 ++ l2) <$> (drop (b * 124) <$> llr))
    [93; 31; 62; 0]%nat st Hst) as Hk.
  destruct (chunk_loop _ _ _ _ _ _ _); [done|by apply IH].
Qed.

Lemma tail_loop_ok fuel tbl k cap c lc pos st : ds_ok cap st -> ds_ok cap (tail_loop fuel tbl k cap c lc pos st).
Proof.
  revert pos st. induction fuel as [|f IH]; intros pos st Hst; [done|]. cbn [tail_loop].
  destruct (_ && _) eqn:E; [|done]. apply andb_true_iff in E as [_ E%Nat.leb_le]. unfold BCH_DA_DATA in E.
  destruct (chase_bch_da _ _ _ _) as [[[n d] fx]|] eqn:E'; [|done].
  apply chase_data in E' as (? & ? & ?). apply IH. by apply ds_ok_step.
Qed.

Lemma descramble_ok tbl k stk data llr cap : ds_ok cap (descramble_payload tbl k stk data llr cap).
Proof.
  unfold descramble_payload. assert (ds_ok cap ([], 0)) as H0.
  { repeat split; [constructor|simpl; lia|]. exists 0%nat. simpl. lia. }
  pose proof (full_blocks_ok tbl k cap data llr (seq 0 (List.length data / 124)) _ H0) as Hf.
  destruct (full_blocks _ _ _ _ _ _ _) as [st|st]; [done|].
  unfold partial_block. destruct (_ && _); [|done]. destruct (de_interleave_n _ _) as [o1 o2].
  destruct (_ && _); [|done]. by apply tail_loop_ok.
Qed.

(** The word loop of the last block ends by itself. *)
Lemma tail_loop_fuel n m tbl k cap c lc pos st :
  (List.length c < pos + 31 * S n)%nat -> (List.length c < pos + 31 * S m)%nat ->
  tail_loop n tbl k cap c lc pos st = tail_loop m tbl k cap c lc pos st.
Proof.
  revert m pos st. induction n as [|n IH]; intros m pos st Hn Hm.
  - by rewrite !tail_loop_end by lia.
  - destruct m as [|m]; [by rewrite !tail_loop_end by lia|]. cbn [tail_loop].
    destruct (_ && _); [|done]. destruct (chase_bch_da _ _ _ _) as [[[n' d] fx]|]; [|done].
    apply IH; lia.
Qed.

(** ** The uninitialised halves of the last block *)

Lemma length_pick_symbols {A} `{Inhabited A} (l : list A) syms :
  List.length (pick_symbols l syms) = (2 * List.length syms)%nat.
Proof. unfold pick_symbols. induction syms as [|s syms IH]; [done|]. cbn [flat_map List.length app]. lia. Qed.

Lemma length_down_range k hi lo : hi = lo + 2 * Z.of_nat k - 2 \/ hi = lo + 2 * Z.of_nat k - 1 ->
  List.length (down_range hi lo 2) = k.
Proof.
  revert hi. induction k as [|k IH]; intros hi Hhi.
  - unfold down_range. by replace (Z.to_nat (hi - lo + 1)) with 0%nat by lia.
  - rewrite down_range_step by lia. cbn [List.length]. f_equal. apply IH. lia.
Qed.

Lemma length_de_interleave_n {A} `{Inhabited A} (l : list A) k :
  List.length (fst (de_interleave_n l (Z.of_nat (2 * k)))) = (2 * k)%nat /\
  List.length (snd (de_interleave_n l (Z.of_nat (2 * k)))) = (2 * k)%nat.
Proof.
  unfold de_interleave_n. cbn [fst snd]. rewrite !length_pick_symbols.
  split; f_equal; apply length_down_range; lia.
Qed.

Lemma tail_bits_overwrite {A} `{Inhabited A} (l j1 j2 : list A) n :
  (n <= List.length l)%nat -> tail_bits (overwrite l j1) n = tail_bits (overwrite l j2) n.
Proof.
  intros Hn. unfold tail_bits, overwrite. apply map_ext_in. intros i Hi%in_seq.
  by rewrite !lookup_total_app_l by lia.
Qed.

Lemma partial_block_junk tbl k cap s1 s2 data llr remain st :
  Nat.Even (remain / 2) ->
  partial_block tbl k cap s1 data llr remain st = partial_block tbl k cap s2 data llr remain st.
Proof.
  intros [h Hh]. unfold partial_block. rewrite !Hh.
  destruct (_ && _); [|done]. destruct (length_de_interleave_n data h) as [L1 L2].
  destruct (de_interleave_n data _) as [o1 o2]. cbn [fst snd] in L1, L2.
  destruct (_ && _); [|done].
  rewrite (tail_bits_overwrite o2 (junk_h2 s1) (junk_h2 s2)),
    (tail_bits_overwrite o1 (junk_h1 s1) (junk_h1 s2)) by lia.
  f_equal. destruct llr as [l|]; [|done]. apply (f_equal Some). unfold de_interleave_llr_n.
  destruct (length_de_interleave_n l h) as [M1 M2].
  destruct (de_interleave_n l _) as [p1 p2]. cbn [fst snd] in M1, M2.
  rewrite (tail_bits_overwrite p2 (junk_lh2 s1) (junk_lh2 s2)),
    (tail_bits_overwrite p1 (junk_lh1 s1) (junk_lh1 s2)) by lia. done.
Qed.

(** ** From a sent frame to the field extraction *)

Lemma ida_decode_sent k stk f pre p1 p2 p3 qs x y wa wb :
  List.length pre = 24%nat -> df_direction f <> DIR_UNDEF ->
  lcw_word_ok lcw1_code p1 -> lcw_word_ok lcw2_code p2 -> lcw_word_ok lcw3_code p3 -> lcw_pad_ok p2 ->
  fst p1 = 2 \/ fst p1 = 6 \/ fst p1 = 7 ->
  Forall word_ok (quads_words qs) -> word_ok wa -> word_ok wb -> (2 <= List.length qs <= 5)%nat ->
  df_bits f = pre ++ lcw_sent p1 p2 p3 ++ List.concat (map tx_quad qs) ++ tx_tail x y wa wb ->
  ida_decode ida_decode_init k stk f =
  ida_fields f (Lcw (fst p1) 1 (fst p2 / 16) (fst p2 mod 16) (fst p3) (touched1 p1 + touched1 p2 + touched1 p3))
    (words_data (quads_words qs ++ [wa; wb])) (words_fixed (quads_words qs ++ [wa; wb])).
Proof.
  intros Hpre Hdir H1 H2 H3 Hpad Hft Hq Ha Hb Hn Hbits.
  assert (List.length (lcw_sent p1 p2 p3) = 46%nat) as Hlcw by apply length_lcw_interleave.
  assert (drop 24 (df_bits f) = lcw_sent p1 p2 p3 ++ List.concat (map tx_quad qs) ++ tx_tail x y wa wb)
    as Hd by (rewrite Hbits; apply drop_app_length'; lia).
  unfold ida_decode, df_n_bits.
  replace (_ <? _)%nat with false
    by (symmetry; apply Nat.ltb_ge; rewrite Hbits, !length_app, length_quads; lia).
  rewrite bool_decide_eq_false_2, Hd, decode_lcw_sent by done. cbn [lcw_ft_field].
  replace (negb (fst p1 =? 2) && _ && _) with false by (symmetry; destruct Hft as [-> |[-> | ->]]; done).
  rewrite drop_app_length' by lia.
  replace (_ <? _)%nat with false by (symmetry; apply Nat.ltb_ge; rewrite length_app, length_quads; lia).
  by rewrite descramble_sent by (done || lia).
Qed.

(** The 200-bit stream of one message fragment: header, 20 payload bytes, the
    checksum over both and four unused bits. *)
Definition ida_tx_header (h1 : list Z) (cont h2 ctr : Z) (h3 : list Z) (len h4 : Z) : list Z :=
  h1 ++ [cont; h2] ++ uint_to_bits ctr 3 ++ h3 ++ uint_to_bits len 5 ++ [h4; 0; 0; 0].
Definition ida_body (payload : list Z) : list Z := flat_map (fun b => uint_to_bits b 8) payload.
Definition ida_crc (hdr payload : list Z) : Z := crc_ccitt (pack 4 (hdr ++ replicate 12 0) ++ payload).
Definition ida_stream (hdr payload unused : list Z) : list Z :=
  hdr ++ ida_body payload ++ uint_to_bits (ida_crc hdr payload) 16 ++ unused.

Lemma length_ida_body payload : List.length (ida_body payload) = (8 * List.length payload)%nat.
Proof.
  unfold ida_body. induction payload as [|b l IH]; [done|]. cbn [flat_map List.length].
  rewrite length_app, length_uint_to_bits. lia.
Qed.

Lemma ida_body_ok payload : bits_ok (ida_body payload).
Proof.
  unfold ida_body. induction payload as [|b l IH]; [constructor|]. cbn [flat_map]. solve_bits.
Qed.

Lemma pack_body payload : bytes_ok payload -> pack (List.length payload) (ida_body payload) = payload.
Proof.
  induction 1 as [|b l Hb _ IH]; [done|]. unfold ida_body in *. cbn [flat_map List.length].
  rewrite pack_cons by apply length_uint_to_bits. rewrite IH. by rewrite bval_uint_small by apply Hb.
Qed.

Section stream.
Context (hdr payload unused : list Z).
Hypothesis Hhdr : bits_ok hdr /\ List.length hdr = 20%nat.
Hypothesis Hpay : bytes_ok payload /\ List.length payload = 20%nat.
Hypothesis Hun : bits_ok unused /\ List.length unused = 4%nat.

Lemma ida_stream_ok : bits_ok (ida_stream hdr payload unused) /\
  List.length (ida_stream hdr payload unused) = 200%nat.
Proof.
  destruct Hhdr as [Hh Lh], Hpay as [Hp Lp], Hun as [Hu Lu]. unfold ida_stream. split.
  - rewrite !Forall_app. auto using ida_body_ok, uint_to_bits_ok.
  - rewrite !length_app, length_uint_to_bits, length_ida_body. lia.
Qed.

Lemma ida_stream_payload : ida_payload (ida_stream hdr payload unused) = payload.
Proof.
  pose proof ida_stream_ok as [Hb Hl]. destruct Hhdr as [Hh Lh], Hpay as [Hp Lp].
  transitivity (pack 20 (ida_body payload)); [|rewrite <- Lp at 1; by apply pack_body].
  apply map_ext_in. intros i Hi%in_seq. rewrite payload_byte_bval by done. unfold ida_stream.
  rewrite slice_app_r by lia. rewrite slice_app_l by (rewrite length_ida_body; lia).
  do 2 f_equal; lia.
Qed.

Lemma ida_stream_stored : bits_field (ida_stream hdr payload unused) 180 196 = ida_crc hdr payload.
Proof.
  pose proof ida_stream_ok as [Hb Hl]. destruct Hhdr as [Hh Lh], Hpay as [Hp Lp].
  rewrite bits_field_bval by done. unfold ida_stream.
  rewrite slice_app_r, slice_app_r by (rewrite ?length_ida_body; lia).
  rewrite length_ida_body, Lh, Lp, slice_app_l by (by rewrite length_uint_to_bits).
  cbn [Nat.sub Nat.mul Nat.add]. unfold slice. rewrite drop_0, take_ge by (by rewrite length_uint_to_bits).
  apply bval_uint_small, crc_ccitt_range.
Qed.

Lemma ida_stream_crc : crc_ccitt (crc_input (ida_stream hdr payload unused)) = 0.
Proof.
  pose proof ida_stream_ok as [Hb Hl]. apply crc_verdict; [done..|].
  rewrite ida_stream_stored, ida_stream_payload. unfold ida_crc, crc_header, ida_stream.
  by rewrite take_app_length' by (symmetry; apply Hhdr).
Qed.
End stream.

Lemma ida_header_read h1 cont h2 ctr h3 len h4 rest :
  bits_ok h1 -> List.length h1 = 3%nat -> is_bit cont -> is_bit h2 -> 0 <= ctr < 8 ->
  bits_ok h3 -> List.length h3 = 3%nat -> 0 <= len < 32 -> is_bit h4 -> bits_ok rest ->
  let s := ida_tx_header h1 cont h2 ctr h3 len h4 ++ rest in
  bits_ok (ida_tx_header h1 cont h2 ctr h3 len h4) /\
  List.length (ida_tx_header h1 cont h2 ctr h3 len h4) = 20%nat /\
  s.[3] = cont /\ bits_field s 5 8 = ctr /\ bits_field s 11 16 = len /\ bits_field s 17 20 = 0.
Proof.
  intros H1 L1 Hc H2 Hr H3 L3 Hl H4 Hrest s.
  assert (bits_ok (ida_tx_header h1 cont h2 ctr h3 len h4)) as Hok.
  { unfold ida_tx_header. rewrite !Forall_app, !Forall_cons.
    repeat split; auto using uint_to_bits_ok; by left. }
  assert (bits_ok s) as Hs by (by apply Forall_app).
  split; [done|]. rewrite !bits_field_bval by done. subst s. clear Hok Hs.
  unfold ida_tx_header. pose proof (bval_uint_small ctr 3 Hr) as Vc. pose proof (bval_uint_small len 5 Hl) as Vl.
  pose proof (length_uint_to_bits ctr 3) as Lc. pose proof (length_uint_to_bits len 5) as Ll.
  destruct (uint_to_bits ctr 3) as [|c0 [|c1 [|c2 [|]]]]; try discriminate Lc.
  generalize dependent (uint_to_bits len 5). intros u Vu Lu.
  explode_list h1. explode_list h3. explode_list u. by repeat split.
Qed.

(** ** The least reliable positions *)

Section reliability.
Context (llr : list f32).
Abbreviation less p q := (f32_ltb (llr !!! p) (llr !!! q)).

Lemma fold_min_spec (f : nat -> nat) js m0 :
  let m := fold_left (fun m j => if less (f j) (f m) then j else m) js m0 in
  (m = m0 \/ In m js) /\ forall j, j = m0 \/ In j js -> less (f j) (f m) = false.
Proof.
  induction js as [|j js IH] using rev_ind; cbn zeta.
  - cbn. split; [by left|]. intros j [->|[]]. apply f32_ltb_irrefl.
  - rewrite fold_left_app. cbn [fold_left]. destruct IH as [Hin Hmin].
    set (m := fold_left _ js m0) in *. destruct (less (f j) (f m)) eqn:E.
    + split; [right; apply in_or_app; right; by left|]. intros i Hi.
      destruct (less (f i) (f j)) eqn:E'; [|done].
      pose proof (f32_ltb_trans _ _ _ E' E) as Ht. rewrite in_app_iff in Hi. cbn in Hi.
      destruct Hi as [->|[Hi|[->|[]]]]; [by rewrite Hmin in Ht by auto..|by rewrite f32_ltb_irrefl in E'].
    + rewrite in_app_iff. split; [tauto|]. intros i Hi. rewrite in_app_iff in Hi. cbn in Hi.
      destruct Hi as [->|[Hi|[->|[]]]]; auto.
Qed.

(** The first [i] entries are settled: distinct, and none of the others is
    less reliable than any of them. *)
Definition settled (i : nat) (pos : list nat) : Prop :=
  List.length pos = 31%nat /\ (forall a, a < 31 -> pos !!! a < 31)%nat /\
  (forall a b, (a < 31)%nat -> (b < 31)%nat -> pos !!! a = pos !!! b -> a = b) /\
  (forall a b, (a < i)%nat -> (i <= b < 31)%nat -> less (pos !!! b) (pos !!! a) = false).

Lemma swap_pos_lookup pos i j a : (i < List.length pos)%nat -> (j < List.length pos)%nat ->
  swap_pos pos i j !!! a = if decide (a = j) then pos !!! i else if decide (a = i) then pos !!! j else pos !!! a.
Proof.
  intros Hi Hj. unfold swap_pos. rewrite !list_lookup_total_alt.
  destruct (decide (a = j)) as [->|Hne].
  - rewrite list_lookup_insert_eq by (rewrite length_insert; lia). done.
  - rewrite list_lookup_insert_ne by done. destruct (decide (a = i)) as [->|Hne'].
    + by rewrite list_lookup_insert_eq by lia.
    + by rewrite list_lookup_insert_ne by done.
Qed.

Lemma settled_step i pos : (i < 31)%nat -> settled i pos ->
  settled (S i) (swap_pos pos i (min_index llr pos i)).
Proof.
  intros Hi (Hl & Hr & Hinj & Hord).
  destruct (fold_min_spec (fun j => pos !!! j) (seq (i + 1) (31 - (i + 1))) i) as [Hm Hmin].
  fold (min_index llr pos i) in Hm, Hmin. set (m := min_index llr pos i) in *.
  assert (i <= m < 31)%nat as Hm' by (destruct Hm as [->|Hm%in_seq]; lia).
  assert (forall j, (i <= j < 31)%nat -> less (pos !!! j) (pos !!! m) = false) as Hmin'.
  { intros j Hj. apply Hmin. rewrite in_seq. lia. }
  clear Hm Hmin. clearbody m. split; [by unfold swap_pos; rewrite !length_insert|].
  split; [|split].
  - intros a Ha. rewrite swap_pos_lookup by lia. repeat case_decide; apply Hr; lia.
  - intros a b Ha Hb. rewrite !swap_pos_lookup by lia.
    repeat case_decide; intros E; apply Hinj in E; lia.
  - intros a b Ha Hb. rewrite !swap_pos_lookup by lia.
    repeat case_decide; subst; try lia; try first [apply Hmin'; lia | apply Hord; lia].
    replace i with m by lia. apply Hmin'. lia.
Qed.

Lemma least_reliable_settled k : (k <= 31)%nat -> settled k (least_reliable llr k).
Proof.
  intros Hk. unfold least_reliable. induction k as [|k IH].
  - change (fold_left _ (seq 0 0) ?l) with l. assert (forall a, (a < 31)%nat -> seq 0 31 !!! a = a) as Hs.
    { intros a Ha. rewrite list_lookup_total_alt, lookup_seq_lt by lia. done. }
    split; [apply length_seq|]. split; [intros a Ha; by rewrite Hs|].
    split; [intros a b Ha Hb; by rewrite !Hs|lia].
  - rewrite seq_S, fold_left_app. cbn [fold_left Nat.add]. apply settled_step; [lia|]. apply IH. lia.
Qed.
End reliability.

(** The masks tried are the bits of the selected positions. *)
Definition chosen (pos : list nat) (k mask : nat) : list nat :=
  map (fun b => (30 - pos !!! b)%nat) (List.filter (Nat.testbit mask) (seq 0 k)).

Lemma err_mask_snoc ps p : err_mask (ps ++ [p]) = Z.lxor (err_mask ps) (2 ^ Z.of_nat p).
Proof.
  unfold err_mask. induction ps as [|q ps IH]; [cbn; by rewrite Z.lxor_0_r|].
  cbn [foldr app]. by rewrite IH, Z.lxor_assoc.
Qed.

Lemma flip_chosen v pos k mask : (forall b, (b < k)%nat -> (pos !!! b < 31)%nat) ->
  flip v (flip_masks pos k) k mask = Z.lxor v (err_mask (chosen pos k mask)).
Proof.
  intros Hp. unfold flip, chosen.
  assert (forall b, (b < k)%nat -> (flip_masks pos k).[b] = 2 ^ Z.of_nat (30 - pos !!! b)) as Hm.
  { intros b Hb. unfold rd, flip_masks. rewrite (nth_indep _ 0 (u32 (Z.shiftl 1 (30 - Z.of_nat (pos !!! 0%nat)))))
      by (rewrite length_map, length_seq; lia).
    rewrite (map_nth (fun i => u32 (Z.shiftl 1 (30 - Z.of_nat (pos !!! i))))), seq_nth by lia.
    specialize (Hp b Hb). cbn [Nat.add]. rewrite shiftl_1_pow.
    replace (30 - Z.of_nat (pos !!! b)) with (Z.of_nat (30 - pos !!! b)) by lia.
    apply u32_small. split; [lia|]. apply Z.pow_lt_mono_r; lia. }
  assert (forall n, (n <= k)%nat ->
    fold_left (fun v b => if Nat.testbit mask b then Z.lxor v ((flip_masks pos k).[b]) else v) (seq 0 n) v =
    Z.lxor v (err_mask (map (fun b => (30 - pos !!! b)%nat) (List.filter (Nat.testbit mask) (seq 0 n))))) as Hn;
    [|by apply Hn].
  induction n as [|n IH]; intros Hn; [by rewrite Z.lxor_0_r|].
  rewrite seq_S, fold_left_app, List.filter_app, map_app. cbn [fold_left List.filter Nat.add]. rewrite IH by lia.
  destruct (Nat.testbit mask n); [|by rewrite app_nil_r].
  cbn [map]. rewrite err_mask_snoc, Hm by lia. by rewrite Z.lxor_assoc.
Qed.

Lemma chase_loop_accept tbl v fm k ms r :
  chase_loop tbl v fm k ms = Some r -> exists mask, In mask ms /\ da_accept tbl (flip v fm k mask) = Some r.
Proof.
  induction ms as [|m ms IH]; cbn [chase_loop]; [done|].
  destruct (da_accept _ _) as [r'|] eqn:E.
  - intros [= <-]. exists m. split; [by left|done].
  - intros H. destruct (IH H) as (mask & Hin & Ha). exists mask. split; [by right|done].
Qed.

Lemma chase_loop_some tbl v fm k ms mask :
  In mask ms -> da_accept tbl (flip v fm k mask) <> None -> chase_loop tbl v fm k ms <> None.
Proof.
  induction ms as [|m ms IH]; cbn [chase_loop]; [done|].
  destruct (da_accept tbl (flip v fm k m)) eqn:E; [done|]. intros [->|Hin] Ha; auto.
Qed.

Lemma word31_range blk : bits_ok (take 31 blk) -> (31 <= List.length blk)%nat ->
  0 <= bits_to_uint blk 31 < 2 ^ Z.of_nat 31.
Proof.
  intros Hb Hl. rewrite bits_to_uint_bval by (done || lia). pose proof (bval_range _ Hb) as Hr.
  rewrite length_take, Nat.min_l in Hr by lia. exact Hr.
Qed.

Lemma da_accept_sound v n d : 0 <= v < 2 ^ Z.of_nat 31 -> da_accept ida_decode_init v = Some (n, d) ->
  exists w ps, gf2_remainder BCH_POLY_DA w = 0 /\ d = uint_to_bits (Z.shiftr w BCH_DA_SYN) BCH_DA_DATA /\
    w = Z.lxor v (err_mask ps) /\ err_pattern 31 2 ps /\ n = Z.of_nat (List.length ps).
Proof.
  intros Hv. rewrite da_accept_correct. destruct (bch_correct _ _) as [[m w]|] eqn:E; [|done].
  intros [= <- <-]. apply (bch_correct_sound (c:=da_code)) in E as (Hc & _ & ps & Hps & Hm & Hw);
    [|exact Hv|cbn; lia].
  exists w, ps. repeat split; (exact Hc || apply Hps || done).
Qed.

Lemma chosen_lt pos k mask : (forall b, (b < k)%nat -> (pos !!! b < 31)%nat) ->
  Forall (fun p => p < 31)%nat (chosen pos k mask).
Proof.
  intros Hp. apply Forall_map, List.Forall_forall. intros b [Hb%in_seq _]%filter_In. lia.
Qed.

Lemma least_reliable_lt llr k b : (k <= 31)%nat -> (b < 31)%nat -> (least_reliable llr k !!! b < 31)%nat.
Proof. intros Hk Hb. by apply (least_reliable_settled llr k Hk). Qed.

(** Every LCW3 syndrome has a row: the third component is never rejected. *)
Lemma lcw3_total v : 0 <= v < 2 ^ 26 ->
  lcw_component (syn_lcw3 ida_decode_init) BCH_POLY_LCW3 v <> None.
Proof.
  intros Hv. unfold lcw_component. destruct (Z.eqb_spec (gf2_remainder BCH_POLY_LCW3 v) 0) as [|Hne]; [done|].
  pose proof (gf2_remainder_range BCH_POLY_LCW3 v ltac:(unfold BCH_POLY_LCW3; lia) ltac:(lia)) as Hr.
  change (2 ^ Z.log2 BCH_POLY_LCW3) with 32 in Hr.
  assert (forallb (fun i => bool_decide (is_Some (syn_lookup (syn_lcw3 ida_decode_init) (Z.of_nat i))))
            (seq 1 31) = true) as Ht by (vm_compute; reflexivity).
  rewrite forallb_forall in Ht. specialize (Ht (Z.to_nat (gf2_remainder BCH_POLY_LCW3 v))).
  rewrite in_seq, Z2Nat.id in Ht by lia. apply bool_decide_eq_true in Ht; [|lia].
  by destruct Ht as [e ->].
Qed.

(** What an accepted frame tells about the intermediate results. *)
Lemma ida_decode_inv tbl k stk f b : ida_decode tbl k stk f = Some b ->
  exists lcw s fx, ds_ok 512 (s, fx) /\ decode_lcw tbl (drop 24 (df_bits f)) = Some lcw /\
    (lcw_ft_field lcw = 2 \/ lcw_ft_field lcw = 6 \/ lcw_ft_field lcw = 7) /\
    df_direction f <> DIR_UNDEF /\
    ((196 <= List.length s)%nat /\ bits_field s 17 20 = 0 /\ bits_field s 11 16 <= 20) /\
    b = fill_burst f lcw s fx.
Proof.
  unfold ida_decode. destruct (_ <? _)%nat; [done|]. destruct (bool_decide _) eqn:Hdir; [done|].
  destruct (decode_lcw _ _) as [lcw|]; [|done]. destruct (_ && _ && _) eqn:Hft; [done|].
  destruct (_ <? _)%nat; [done|].
  match goal with |- context [descramble_payload ?a ?b ?c ?d ?e ?g] =>
    pose proof (descramble_ok a b c d e g) as Hd; destruct (descramble_payload a b c d e g) as [s fx] end.
  unfold ida_fields. destruct (_ <? 196)%nat eqn:H1; [done|]. destruct (negb (_ =? 0)) eqn:H2; [done|].
  destruct (20 <? _) eqn:H3; [done|]. intros H%(inj Some). exists lcw, s, fx.
  apply Nat.ltb_ge in H1. bsplit. apply bool_decide_eq_false in Hdir.
  split_and!; try done. rewrite !andb_false_iff, !negb_false_iff, !Z.eqb_eq in Hft. tauto.
Qed.

(** ** Concrete inputs for the witnesses *)

Definition demo_junk : stack_junk := StackJunk [] [] [] [].
Definition demo_hdr : list Z := ida_tx_header [0; 0; 0] 1 0 0 [0; 0; 0] 5 0.
Definition demo_pay : list Z := [72; 69; 76; 76; 79] ++ replicate 15 0.
Definition demo_stream : list Z := ida_stream demo_hdr demo_pay [0; 0; 0; 0].
Definition demo_word (k : nat) (ps : list nat) : list Z * list nat := (slice demo_stream (20 * k) (20 * k + 20), ps).
Definition demo_quads : list quad :=
  [Quad (demo_word 0 [4%nat; 30%nat]) (demo_word 1 []) (demo_word 2 [7%nat]) (demo_word 3 []);
   Quad (demo_word 4 []) (demo_word 5 [0%nat; 1%nat]) (demo_word 6 []) (demo_word 7 [])].
Definition demo_lcw1 : Z * list nat := (2, [6%nat]).
Definition demo_lcw2 : Z * list nat := (18, [0%nat]).
Definition demo_lcw3 : Z * list nat := (12345, [3%nat]).
Definition demo_ida_frame : demod_frame :=
  demo_frame (access_dl ++ lcw_sent demo_lcw1 demo_lcw2 demo_lcw3 ++
    List.concat (map tx_quad demo_quads) ++ tx_tail 0 0 (demo_word 8 []) (demo_word 9 [13%nat])).


Lemma demo_ida_decodes : exists b, ida_decode ida_decode_init 5 demo_junk demo_ida_frame = Some b /\
  ib_bch_len b = 200%nat /\ ib_crc_ok b = true.
Proof. eexists. split; [vm_compute; reflexivity|]. split; reflexivity. Qed.

(** ** The padded word *)

(** The second word of the Link Control Word is sent without its last bit, and
    the receiver puts a zero in its place: where the bit was a one, the padding
    itself is a flip, and uses up the one that can be corrected. *)
Definition omitted (d : Z) : nat := if Z.testbit (bch_encode lcw2_code d) 0 then 1 else 0.
Definition lcw2_ok (p : Z * list nat) : Prop :=
  0 <= fst p < 64 /\ Forall (fun i => (1 <= i < 14)%nat) (snd p) /\ (omitted (fst p) + List.length (snd p) <= 1)%nat.
#[export] Instance lcw2_ok_dec p : Decision (lcw2_ok p).
Proof. unfold lcw2_ok. apply _. Defined.

Lemma lcw2_received p : lcw2_ok p -> exists p', fst p' = fst p /\ lcw_word_ok lcw2_code p' /\ lcw_pad_ok p' /\
  Z.shiftr (lcw_word lcw2_code p') 1 = Z.shiftr (lcw_word lcw2_code p) 1 /\ touched1 p' = Z.of_nat (omitted (fst p) + List.length (snd p)).
Proof.
  destruct p as [d ps]. unfold lcw2_ok. cbn [fst snd]. intros (Hd & Hps & Hn). unfold omitted in *. destruct (Z.testbit (bch_encode lcw2_code d) 0) eqn:Eb.
  - destruct ps as [|i ps]; [|cbn in Hn; lia]. exists (d, [0%nat]). split; [done|]. split; [split; [done|]; eval_dec|].
    split; [unfold lcw_pad_ok, lcw_word; cbn [fst snd]; by rewrite Z.lxor_spec, Eb|]. split; [|done].
    unfold lcw_word. cbn [fst snd]. by rewrite !Z.shiftr_lxor.
  - exists (d, ps). split; [done|]. destruct ps as [|i [|j ps]]; [| |cbn in Hn; lia].
    + split; [split; [done|eval_dec]|]. split; [unfold lcw_pad_ok, lcw_word; cbn [fst snd err_mask foldr]; by rewrite Z.lxor_0_r|]. done.
    + apply Forall_cons in Hps as [Hps _]. split; [split; [done|]; split; [apply NoDup_singleton|]; split; [apply Forall_singleton; change (cbits lcw2_code) with 14%nat; lia|cbn; lia]|].
      split; [|done]. unfold lcw_pad_ok, lcw_word. cbn [fst snd err_mask foldr]. rewrite Z.lxor_0_r, Z.lxor_spec, Eb, Z.pow2_bits_false by lia. done.
Qed.

(** With a one there, any flip in the word is too many: half of the words are
    not protected. *)
Definition padded (p : Z * list nat) : Z := Z.shiftl (Z.shiftr (lcw_word lcw2_code p) 1) 1.
Definition flip_refused (t : list syn_entry) (d : Z) (i : nat) : bool :=
  match lcw_component t (cpoly lcw2_code) (padded (d, [i])) with None => true | Some _ => false end.
Lemma lcw2_padding_costs :
  let words := List.filter (fun d => (omitted d =? 1)%nat) (map Z.of_nat (seq 0 64)) in
  List.length words = 32%nat /\ forallb (fun d => forallb (flip_refused (ctable lcw2_code) d) (seq 1 13)) words = true.
Proof.
  cbv zeta. split; [by vm_compute|].
  set (check t := forallb (fun d => forallb (flip_refused t d) (seq 1 13)) (List.filter (fun d => (omitted d =? 1)%nat) (map Z.of_nat (seq 0 64)))).
  change (check (ctable lcw2_code) = true). vm_compute. reflexivity.
Qed.

(** * Properties *)

(** C1 (roundtrip). A standard data frame, with up to two flipped bits in each
    of its ten payload words and one in the first and third part of its Link
    Control Word, is decoded to exactly what was sent: counter, length,
    continuation flag, payload, Link Control Word fields, a good checksum, and
    the number of words that had to be repaired.  The second part of the Link
    Control Word may have one flipped bit when its omitted check bit is zero, and
    none when it is one: the padding then counts as the flip. *)
Theorem ida_frame_decoded k stk f pre p1 p2 p3 q1 q2 x y wa wb h1 cont h2 ctr h3 len h4 payload unused :
  List.length pre = 24%nat -> df_direction f <> DIR_UNDEF ->
  lcw_word_ok lcw1_code p1 -> lcw2_ok p2 -> lcw_word_ok lcw3_code p3 ->
  fst p1 = 2 \/ fst p1 = 6 \/ fst p1 = 7 ->
  Forall word_ok (quads_words [q1; q2]) -> word_ok wa -> word_ok wb ->
  df_bits f = pre ++ lcw_sent p1 p2 p3 ++ List.concat (map tx_quad [q1; q2]) ++ tx_tail x y wa wb ->
  bits_ok h1 -> List.length h1 = 3%nat -> is_bit cont -> is_bit h2 -> 0 <= ctr < 8 ->
  bits_ok h3 -> List.length h3 = 3%nat -> 0 <= len <= 20 -> is_bit h4 ->
  bytes_ok payload -> List.length payload = 20%nat -> bits_ok unused -> List.length unused = 4%nat ->
  words_data (quads_words [q1; q2] ++ [wa; wb]) =
    ida_stream (ida_tx_header h1 cont h2 ctr h3 len h4) payload unused ->
  exists b, ida_decode ida_decode_init k stk f = Some b /\
    ib_da_ctr b = ctr /\ ib_da_len b = len /\ ib_cont b = cont /\
    ib_payload b = (if 0 <? len then take (Z.to_nat len) payload else payload) ++
                   replicate (Z.to_nat (if 0 <? len then 32 - len else 12)) 0 /\
    ib_crc_ok b = (0 <? len) /\ ib_direction b = df_direction f /\ ib_timestamp b = df_timestamp f /\
    ib_lcw b = Lcw (fst p1) 1 (fst p2 / 16) (fst p2 mod 16) (fst p3) (touched1 p1 + Z.of_nat (omitted (fst p2) + List.length (snd p2)) + touched1 p3) /\
    ib_fixederrs b = words_fixed (quads_words [q1; q2] ++ [wa; wb]).
Proof.
  intros Hpre Hdir H1 H2 H3 Hft Hq Ha Hb Hbits Hh1 Lh1 Hc Hh2 Hctr Hh3 Lh3 Hlen Hh4 Hp Lp Hu Lu Hw.
  destruct (lcw2_received p2 H2) as (p2' & E2' & H2' & Hpad & Es & <-). rewrite <- E2'.
  assert (lcw_sent p1 p2 p3 = lcw_sent p1 p2' p3) as El by (unfold lcw_sent; by rewrite Es). rewrite El in Hbits. clear H2 Es El.
  rewrite (ida_decode_sent k stk f pre p1 p2' p3 [q1; q2] x y wa wb), Hw by (done || cbn; lia).
  destruct (ida_header_read h1 cont h2 ctr h3 len h4 [] Hh1 Lh1 Hc Hh2 Hctr Hh3 Lh3 ltac:(lia) Hh4
    ltac:(constructor)) as (Hok & Lok & _).
  set (hdr := ida_tx_header h1 cont h2 ctr h3 len h4) in *.
  destruct (ida_stream_ok hdr payload unused ltac:(done) ltac:(done) ltac:(done)) as [Sok Slen].
  pose proof (ida_stream_payload hdr payload unused ltac:(done) ltac:(done) ltac:(done)) as Spay.
  pose proof (ida_stream_crc hdr payload unused ltac:(done) ltac:(done) ltac:(done)) as Scrc.
  destruct (ida_header_read h1 cont h2 ctr h3 len h4
    (ida_body payload ++ uint_to_bits (ida_crc hdr payload) 16 ++ unused)
    Hh1 Lh1 Hc Hh2 Hctr Hh3 Lh3 ltac:(lia) Hh4) as (_ & _ & E1 & E2 & E3 & E4).
  { rewrite !Forall_app. auto using ida_body_ok, uint_to_bits_ok. }
  fold hdr in E1, E2, E3, E4. fold (ida_stream hdr payload unused) in E1, E2, E3, E4.
  unfold ida_fields, fill_burst. rewrite Slen, E1, E2, E3, E4. fold (ida_payload (ida_stream hdr payload unused)).
  rewrite Spay, Scrc. replace (20 <? len) with false by (symmetry; apply Z.ltb_ge; lia).
  cbn [Nat.ltb Nat.leb negb Z.eqb]. eexists. split; [reflexivity|].
  cbn [ib_da_ctr ib_da_len ib_cont ib_payload ib_crc_ok ib_direction ib_timestamp ib_lcw ib_fixederrs].
  split_and!; try done.
  - unfold overwrite. destruct (Z.ltb_spec 0 len).
    + f_equal. rewrite length_take, Lp, drop_replicate. f_equal. lia.
    + change (Z.to_nat 20) with 20%nat. rewrite take_ge by lia. rewrite Lp. done.
  - by destruct (0 <? len).
Qed.

Lemma ida_frame_decoded_witness :
  exists b, ida_decode ida_decode_init 5 demo_junk demo_ida_frame = Some b /\
    ib_da_ctr b = 0 /\ ib_da_len b = 5 /\ ib_cont b = 1 /\ ib_crc_ok b = true /\ ib_fixederrs b = 4.
Proof.
  destruct (ida_frame_decoded 5 demo_junk demo_ida_frame access_dl demo_lcw1 (18, []) demo_lcw3
    (Quad (demo_word 0 [4%nat; 30%nat]) (demo_word 1 []) (demo_word 2 [7%nat]) (demo_word 3 []))
    (Quad (demo_word 4 []) (demo_word 5 [0%nat; 1%nat]) (demo_word 6 []) (demo_word 7 []))
    0 0 (demo_word 8 []) (demo_word 9 [13%nat]) [0; 0; 0] 1 0 0 [0; 0; 0] 5 0 demo_pay [0; 0; 0; 0])
    as (b & Hb & H1 & H2 & H3 & _ & H4 & _ & _ & _ & H5);
    try reflexivity; try eval_dec; try lia; try (by left).
  exists b. split_and!; [exact Hb|exact H1|exact H2|exact H3|exact H4|exact H5].
Defined.

(** For the standard stream of 200 bits the checksum verdict is
    right: a decoded burst is marked good exactly when it carries data and the
    stored checksum equals the CRC-CCITT of its header and 20 payload bytes. *)
Theorem ida_crc_check tbl k stk f b :
  ida_decode tbl k stk f = Some b -> ib_bch_len b = 200%nat ->
  ib_crc_ok b = true <->
  0 < ib_da_len b /\
  ib_stored_crc b = crc_ccitt (crc_header (ib_bch_stream b) ++ ida_payload (ib_bch_stream b)).
Proof.
  intros (lcw & s & fx & (Hs & _) & _ & _ & _ & _ & ->)%ida_decode_inv. unfold fill_burst.
  cbn [ib_bch_len ib_crc_ok ib_da_len ib_stored_crc ib_bch_stream fst] in *. intros Hl.
  assert (crc_header (overwrite (take 256 s) (replicate 256 0)) = crc_header s /\
          ida_payload (overwrite (take 256 s) (replicate 256 0)) = ida_payload s) as [-> ->].
  { unfold overwrite. rewrite take_ge by lia. unfold crc_header, ida_payload. split.
    - by rewrite take_app_le by lia.
    - apply map_ext_in. intros i Hi%in_seq. unfold payload_byte. by rewrite slice_app_l by lia. }
  rewrite Hl. change ((_ + 7) / 8 <=? 64)%nat with true. rewrite andb_true_r.
  destruct (Z.ltb_spec 0 (bits_field s 11 16)) as [Hp|Hp]; cbn [andb].
  - rewrite Z.eqb_eq, crc_verdict by done. split; [intros H; by split|intros [_ H]; done].
  - split; [done|lia].
Qed.

Lemma ida_crc_check_witness :
  exists b, ida_decode ida_decode_init 5 demo_junk demo_ida_frame = Some b /\
    ib_stored_crc b = crc_ccitt (crc_header (ib_bch_stream b) ++ ida_payload (ib_bch_stream b)).
Proof.
  destruct demo_ida_decodes as (b & E & L & C). exists b. split; [exact E|].
  apply (ida_crc_check ida_decode_init 5 demo_junk demo_ida_frame b E L), C.
Defined.

(** The Link Control Word survives one flipped bit in each of its
    three parts: frame type, type, code and parameter come back as sent, with
    the number of repaired parts. *)
Theorem lcw_decoded (p1 p2 p3 : Z * list nat) (rest : list Z) :
  lcw_word_ok lcw1_code p1 -> lcw_word_ok lcw2_code p2 -> lcw_word_ok lcw3_code p3 -> lcw_pad_ok p2 ->
  exists lcw, decode_lcw ida_decode_init (lcw_sent p1 p2 p3 ++ rest) = Some lcw /\
    lcw_ft_field lcw = fst p1 /\ 16 * lcw_ft lcw + lcw_code lcw = fst p2 /\ lcw3_val lcw = fst p3 /\
    ec_lcw lcw = touched1 p1 + touched1 p2 + touched1 p3 /\ lcw_wf lcw.
Proof.
  intros H1 H2 H3 Hp. rewrite decode_lcw_sent by done. eexists. split; [done|].
  cbn [lcw_ft_field lcw_ft lcw_code lcw3_val ec_lcw]. destruct H1 as [H1 _], H2 as [H2 _], H3 as [H3 _].
  change (0 <= fst p1 < 8) in H1. change (0 <= fst p2 < 64) in H2. change (0 <= fst p3 < 2097152) in H3.
  pose proof (Z.div_mod (fst p2) 16 ltac:(lia)). pose proof (Z.mod_pos_bound (fst p2) 16 ltac:(lia)).
  assert (0 <= touched1 p1 + touched1 p2 + touched1 p3 <= 3)
    by (unfold touched1; repeat case_decide; lia).
  split_and!; [done|lia|done..|]. unfold lcw_wf.
  cbn [lcw_ft_field lcw_ok lcw_ft lcw_code lcw3_val ec_lcw]. split_and!; lia.
Qed.

Lemma lcw_decoded_witness :
  exists lcw, decode_lcw ida_decode_init (lcw_sent demo_lcw1 demo_lcw2 demo_lcw3 ++ []) = Some lcw /\
    lcw_ft_field lcw = 2 /\ lcw3_val lcw = 12345.
Proof.
  destruct (lcw_decoded demo_lcw1 demo_lcw2 demo_lcw3 []) as (l & H & H1 & _ & H3 & _); try eval_dec.
  exists l. split_and!; [exact H|exact H1|exact H3].
Defined.

(** Soft decoding accepts only what it may: the data it returns
    belong to a code word reached from the received 31 bits by flipping some of
    the [k] least reliable positions (none in a hard decision, and then no soft
    value is consulted) plus at most two more, as many as reported; no position
    outside the selection is less reliable than one inside. *)
Theorem chase_da_sound (k : nat) (blk : list Z) (llr : option (list f32)) (n : Z) (d : list Z) (fx : Z) :
  bits_ok (take 31 blk) -> (31 <= List.length blk)%nat -> (k <= 31)%nat ->
  chase_bch_da ida_decode_init k blk llr = Some (n, d, fx) ->
  exists w flips ps,
    gf2_remainder BCH_POLY_DA w = 0 /\ d = uint_to_bits (Z.shiftr w BCH_DA_SYN) BCH_DA_DATA /\
    w = Z.lxor (Z.lxor (bits_to_uint blk 31) (err_mask flips)) (err_mask ps) /\
    err_pattern 31 2 ps /\ n = Z.of_nat (List.length ps) /\
    (flips = [] \/ exists l mask, llr = Some l /\ flips = chosen (least_reliable l k) k mask /\
       settled l k (least_reliable l k)).
Proof.
  intros Hb Hl Hk. pose proof (word31_range blk Hb Hl) as Hv. unfold chase_bch_da.
  destruct (da_accept _ _) as [[n' d']|] eqn:E.
  - intros [= <- <- _]. apply da_accept_sound in E as (w & ps & H1 & H2 & H3 & H4 & H5); [|done].
    exists w, [], ps. cbn [err_mask foldr]. rewrite Z.lxor_0_r. auto 10.
  - destruct llr as [l|]; [|done]. destruct (chase_loop _ _ _ _ _) as [[n' d']|] eqn:E'; [|done].
    intros [= <- <- _]. apply chase_loop_accept in E' as (mask & _ & Ha).
    rewrite flip_chosen in Ha by (intros b Hb'; apply least_reliable_lt; lia).
    apply da_accept_sound in Ha as (w & ps & H1 & H2 & H3 & H4 & H5).
    + exists w, (chosen (least_reliable l k) k mask), ps. split_and!; try done.
      right. exists l, mask. split_and!; [done..|]. by apply least_reliable_settled.
    + apply lxor_range; [lia|done|]. apply err_mask_range, chosen_lt.
      intros b Hb'. apply least_reliable_lt; lia.
Qed.

Lemma chase_da_sound_witness :
  let blk := tx_word (demo_word 0 [4%nat; 30%nat]) in
  exists w, gf2_remainder BCH_POLY_DA w = 0 /\ fst (demo_word 0 []) = uint_to_bits (Z.shiftr w BCH_DA_SYN) BCH_DA_DATA.
Proof.
  intros blk.
  destruct (chase_da_sound 5 blk None 2 (fst (demo_word 0 [])) 1) as (w & _ & _ & H1 & H2 & _).
  - eval_dec.
  - vm_compute. lia.
  - lia.
  - vm_compute. reflexivity.
  - exists w. split; [exact H1|exact H2].
Defined.

(** Soft decoding does not give up early: when flipping some of
    the [k] least reliable positions brings the received word within two flips
    of a code word, a result is returned. *)
Theorem chase_da_complete (k mask : nat) (blk : list Z) (l : list f32) (w : Z) (ps : list nat) :
  (k <= 31)%nat -> (0 < mask < 2 ^ k)%nat -> gf2_remainder BCH_POLY_DA w = 0 -> err_pattern 31 2 ps ->
  Z.lxor (bits_to_uint blk 31) (err_mask (chosen (least_reliable l k) k mask)) = Z.lxor w (err_mask ps) ->
  exists r, chase_bch_da ida_decode_init k blk (Some l) = Some r.
Proof.
  intros Hk Hm Hw Hps Heq. unfold chase_bch_da.
  destruct (da_accept _ _) as [[n d]|]; [by eexists|].
  destruct (chase_loop _ _ _ _ _) as [[n d]|] eqn:E; [by eexists|]. exfalso. revert E.
  apply (chase_loop_some _ _ _ _ _ mask); [apply in_seq; lia|].
  rewrite flip_chosen, Heq by (intros b Hb; apply least_reliable_lt; lia).
  rewrite da_accept_correct, (bch_correct_pattern (c:=da_code)) by (exact Hw || exact Hps). done.
Qed.

(** A word with three flips, one of them at the least reliable position. *)
Definition demo_llr : list f32 := <[30%nat := S754_zero false]> (replicate 31 (f32_of_Z 1)).

Lemma chase_da_complete_witness :
  exists r, chase_bch_da ida_decode_init 1 (tx_word (demo_word 1 [0%nat; 5%nat; 9%nat])) (Some demo_llr) = Some r.
Proof.
  apply (chase_da_complete 1 1 (tx_word (demo_word 1 [0%nat; 5%nat; 9%nat])) demo_llr
    (bch_encode da_code (bval (fst (demo_word 1 [])))) [5%nat; 9%nat]).
  - lia.
  - simpl. lia.
  - vm_compute. reflexivity.
  - eval_dec.
  - vm_compute. reflexivity.
Defined.

(** The payload decoder never looks at uninitialised memory when the
    last partial block holds an even number of symbols: its result is the same
    whatever the stack held. *)
Theorem descramble_stack_independent tbl k s1 s2 (data : list Z) (llr : option (list f32)) cap :
  Nat.Even (List.length data mod 124 / 2) ->
  descramble_payload tbl k s1 data llr cap = descramble_payload tbl k s2 data llr cap.
Proof.
  intros He. unfold descramble_payload. destruct (full_blocks _ _ _ _ _ _ _) as [st|st]; [done|].
  by apply partial_block_junk.
Qed.

Lemma descramble_stack_independent_witness :
  descramble_payload ida_decode_init 0 demo_junk (replicate 188 0) None 512 =
  descramble_payload ida_decode_init 0 (StackJunk [1; 1] [1; 1] [] []) (replicate 188 0) None 512.
Proof. apply descramble_stack_independent. exists 16%nat. reflexivity. Defined.

(** With an odd number of symbols it does: 17 symbols after one full block, all
    bits zero, and the same input is repaired or not depending on the stack. *)
Theorem descramble_reads_stack :
  descramble_payload ida_decode_init 0 (StackJunk (replicate 64 0) (replicate 64 0) [] [])
    (replicate 158 0) None 512 <>
  descramble_payload ida_decode_init 0 (StackJunk (replicate 64 0) (replicate 64 1) [] [])
    (replicate 158 0) None 512.
Proof. vm_compute. discriminate. Qed.

(** What an accepted frame looks like. *)
Lemma ida_decode_wf tbl k stk f b :
  ida_decode tbl k stk f = Some b ->
  0 <= ib_da_len b <= 20 /\ 0 <= ib_da_ctr b < 8 /\ is_bit (ib_cont b) /\
  bytes_ok (ib_payload b) /\ List.length (ib_payload b) = 32%nat /\
  0 <= ib_stored_crc b < 2 ^ 16 /\ 0 <= ib_computed_crc b < 2 ^ 16 /\
  List.length (ib_bch_stream b) = 256%nat /\ bits_ok (ib_bch_stream b) /\
  (exists n, ib_bch_len b = 20 * n /\ 10 <= n <= 25)%nat /\
  0 <= 20 * ib_fixederrs b <= Z.of_nat (ib_bch_len b) /\
  (lcw_ft_field (ib_lcw b) = 2 \/ lcw_ft_field (ib_lcw b) = 6 \/ lcw_ft_field (ib_lcw b) = 7) /\
  ib_direction b <> DIR_UNDEF /\ (ib_crc_ok b = true -> 0 < ib_da_len b).
Proof.
  intros (lcw & s & fx & (Hs & Hcap & n & Hn & Hfx) & _ & Hft & Hdir & (Hmin & _ & Hlen) & ->)%ida_decode_inv.
  cbn [fst snd] in *. unfold fill_burst.
  cbn [ib_da_len ib_da_ctr ib_cont ib_payload ib_stored_crc ib_computed_crc ib_bch_stream ib_bch_len
       ib_fixederrs ib_lcw ib_direction ib_crc_ok].
  assert (forall i j m, (j - i <= m)%nat -> 0 <= bits_field s i j < 2 ^ Z.of_nat m) as Hf.
  { intros i j m Hij. rewrite bits_field_bval by done.
    pose proof (bval_range _ (slice_bits_ok s i j Hs)) as Hr.
    assert (List.length (slice s i j) <= m)%nat by (unfold slice; rewrite length_take; lia).
    assert (2 ^ Z.of_nat (List.length (slice s i j)) <= 2 ^ Z.of_nat m) by (apply Z.pow_le_mono_r; lia). lia. }
  pose proof (Hf 11%nat 16%nat 5%nat ltac:(lia)) as H11. pose proof (Hf 5%nat 8%nat 3%nat ltac:(lia)) as H5.
  pose proof (Hf 180%nat 196%nat 16%nat ltac:(lia) : _ <= _ < 2 ^ 16) as H180.
  pose proof (crc_ccitt_range (crc_input s)) as Hcrc.
  assert (forall m, (m <= 32)%nat -> bytes_ok (overwrite (take m (map (payload_byte s) (seq 0 20))) (replicate 32 0)) /\
    List.length (overwrite (take m (map (payload_byte s) (seq 0 20))) (replicate 32 0)) = 32%nat) as Hpay.
  { intros m Hm. unfold overwrite. split.
    - apply Forall_app. split; [apply Forall_take, Forall_map|apply Forall_drop, Forall_replicate; done].
      apply List.Forall_forall. intros i _. rewrite payload_byte_bval by done. apply bval_byte; [done|lia].
    - rewrite length_app, length_drop, length_replicate, length_take, length_map, length_seq. lia. }
  destruct (Hpay (Z.to_nat (if 0 <? bits_field s 11 16 then bits_field s 11 16 else 20))) as [P1 P2];
    [destruct (0 <? bits_field s 11 16); lia|].
  split_and!; try done; try lia; try (by apply rd_bit);
    try (repeat case_match; cbn [andb]; lia).
  - unfold overwrite. rewrite length_app, length_drop, length_replicate, length_take. lia.
  - unfold overwrite. apply Forall_app. split; [by apply Forall_take|apply Forall_drop, Forall_replicate]. by left.
  - exists n. lia.
Qed.

(** The payload of an accepted frame has the announced length, and is zero
    beyond it. *)
Lemma ida_decode_payload tbl k stk f b : ida_decode tbl k stk f = Some b ->
  ib_payload_len b = (if 0 <? ib_da_len b then ib_da_len b else 20) /\
  forall i, (Z.to_nat (ib_payload_len b) <= i)%nat -> (ib_payload b).[i] = 0.
Proof.
  intros (lcw & s & fx & (Hs & Hcap & n & Hn & Hfx) & _ & Hft & Hdir & (Hmin & _ & Hlen) & ->)%ida_decode_inv.
  cbn [fst snd] in *. unfold fill_burst. cbn [ib_da_len ib_payload ib_payload_len]. split; [done|]. intros i Hi. unfold rd, overwrite.
  rewrite app_nth2 by (rewrite length_take; cbn in *; lia). rewrite nth_lookup. destruct (_ !! _) as [x|] eqn:E; [|done].
  rewrite drop_replicate in E. by apply lookup_replicate in E as [-> _].
Qed.

(** Whatever bits arrive and whatever the stack holds, an accepted
    data frame is well formed: length, counter and flag in range, 32 payload
    bytes, 16-bit checksums, a whole number of 20-bit words in the stream of
    which no more were repaired than decoded, a known frame type and direction,
    and a good checksum only on frames that carry data. *)
Theorem ida_decode_result tbl k stk f b :
  ida_decode tbl k stk f = Some b ->
  0 <= ib_da_len b <= 20 /\ 0 <= ib_da_ctr b < 8 /\ is_bit (ib_cont b) /\
  bytes_ok (ib_payload b) /\ List.length (ib_payload b) = 32%nat /\
  0 <= ib_stored_crc b < 2 ^ 16 /\ 0 <= ib_computed_crc b < 2 ^ 16 /\
  List.length (ib_bch_stream b) = 256%nat /\ bits_ok (ib_bch_stream b) /\
  (exists n, ib_bch_len b = 20 * n /\ 10 <= n <= 25)%nat /\
  0 <= 20 * ib_fixederrs b <= Z.of_nat (ib_bch_len b) /\
  (lcw_ft_field (ib_lcw b) = 2 \/ lcw_ft_field (ib_lcw b) = 6 \/ lcw_ft_field (ib_lcw b) = 7) /\
  ib_direction b <> DIR_UNDEF /\ (ib_crc_ok b = true -> 0 < ib_da_len b).
Proof. apply ida_decode_wf. Qed.

Lemma ida_decode_result_witness :
  exists b, ida_decode ida_decode_init 5 demo_junk demo_ida_frame = Some b /\ 0 <= ib_da_len b <= 20.
Proof.
  destruct demo_ida_decodes as (b & E & _). exists b. split; [exact E|].
  apply (ida_decode_result ida_decode_init 5 demo_junk demo_ida_frame b E).
Defined.

(** The stored stream length is not bounded by the array that holds the stream:
    a frame of five full blocks reports 440 bits, of which 256 are kept. *)
Definition demo_long_frame : demod_frame :=
  demo_frame (access_dl ++ lcw_sent demo_lcw1 demo_lcw2 demo_lcw3 ++
    List.concat (map tx_quad (demo_quads ++ demo_quads ++ take 1 demo_quads)) ++
    tx_tail 0 0 (demo_word 8 []) (demo_word 9 [])).

Theorem bch_len_exceeds_stream :
  exists b, ida_decode ida_decode_init 0 demo_junk demo_long_frame = Some b /\
    ib_bch_len b = 440%nat /\ List.length (ib_bch_stream b) = 256%nat.
Proof. eexists. split; [vm_compute; reflexivity|]. split; reflexivity. Qed.
