(* ===== verification/IdaReassemble.v ===== *)
(** Multi-burst reassembly, [ida_reassemble] and [ida_reassemble_flush] of
    [src/ida_decode.c].

    The context is the array of 16 slots.  The callback is modelled by the
    message it is called with: [ida_reassemble] returns the new context and the
    emitted message, which is present exactly when the C function returns 1.
    Timestamps are [uint64_t] nanoseconds, frequencies IEEE doubles. *)
From S2P Require Import Prelude CFloat CString QpskDemod LcwFormat IdaDecode.

(** * Data *)

(** [ida_reassembly_t]; [data] is the 256-byte array. *)
Record ida_reassembly := Slot {
  active : bool;
  s_direction : ir_direction;
  s_frequency : f64;
  last_timestamp : Z;
  last_ctr : Z;
  s_data : list Z;
  data_len : nat;
}.

Definition IDA_MAX_REASSEMBLY : nat := 16.

(** [ida_context_t]. *)
Abbreviation ida_context := (list ida_reassembly).

(** The static, zero-initialised context. *)
Definition slot_zero : ida_reassembly :=
  Slot false DIR_UNDEF (S754_zero false) 0 0 (replicate 256 0) 0.
Definition ctx_init : ida_context := replicate IDA_MAX_REASSEMBLY slot_zero.

#[export] Instance slot_inhabited : Inhabited ida_reassembly := populate slot_zero.

(** The arguments of [ida_message_cb]. *)
Record ida_message := Message {
  m_data : list Z;
  m_timestamp : Z;
  m_frequency : f64;
  m_direction : ir_direction;
  m_magnitude : f32;
}.

(** * Operations *)

(** [memcpy(dst + off, src, n)]. *)
Definition memcpy (dst : list Z) (off : nat) (src : list Z) (n : nat) : list Z :=
  take off dst ++ take n src ++ drop (off + n) dst.

Definition freq_window : f64 := f64_of_Z 260.
Definition time_window : Z := 280000000.

(** The frequency test: [true] is [continue]. *)
Definition far (f g : f64) : bool := f64_gtb (f64_abs (f64_sub f g)) freq_window.

(** The five tests of the matching loop. *)
Definition slot_matches (b : ida_burst) (s : ida_reassembly) : bool :=
  active s &&
  bool_decide (s_direction s = ib_direction b) &&
  negb (far (s_frequency s) (ib_frequency b)) &&
  negb (ib_timestamp b <? last_timestamp s) &&
  negb (time_window <? u64 (ib_timestamp b - last_timestamp s)) &&
  (Z.rem (last_ctr s + 1) 8 =? ib_da_ctr b).

Fixpoint find_slot (p : ida_reassembly -> bool) (i : nat) (slots : ida_context) : option nat :=
  match slots with
  | [] => None
  | s :: slots => if p s then Some i else find_slot p (i + 1) slots
  end.

(** What a matching fragment does to its slot. *)
Definition append (b : ida_burst) (s : ida_reassembly) : ida_reassembly :=
  let n := Z.to_nat (ib_da_len b) in
  let fits := (data_len s + n <=? 256)%nat in
  {| active := active s; s_direction := s_direction s; s_frequency := s_frequency s;
     last_timestamp := ib_timestamp b; last_ctr := ib_da_ctr b;
     s_data := if fits then memcpy (s_data s) (data_len s) (ib_payload b) n else s_data s;
     data_len := if fits then data_len s + n else data_len s |}.

Definition set_inactive (s : ida_reassembly) : ida_reassembly :=
  Slot false (s_direction s) (s_frequency s) (last_timestamp s) (last_ctr s) (s_data s) (data_len s).

(** The search for a free slot, or else the one with the oldest timestamp. *)
Fixpoint find_victim (i : nat) (slots : ida_context) (idx : option nat) (oldest : Z) : option nat :=
  match slots with
  | [] => idx
  | s :: slots =>
      if negb (active s) then Some i
      else if last_timestamp s <? oldest then find_victim (i + 1) slots (Some i) (last_timestamp s)
      else find_victim (i + 1) slots idx oldest
  end.

Definition start_slot (b : ida_burst) (s : ida_reassembly) : ida_reassembly :=
  let n := Z.to_nat (ib_da_len b) in
  Slot true (ib_direction b) (ib_frequency b) (ib_timestamp b) (ib_da_ctr b)
       (memcpy (s_data s) 0 (ib_payload b) n) n.

(** [ida_reassemble]. *)
Definition ida_reassemble (ctx : ida_context) (b : ida_burst) : ida_context * option ida_message :=
  if negb (ib_crc_ok b) || (ib_da_len b =? 0) then (ctx, None)
  else
    match find_slot (slot_matches b) 0 ctx with
    | Some i =>
        let s := append b (ctx !!! i) in
        if ib_cont b =? 0 then
          (<[i := set_inactive s]> ctx,
           Some (Message (take (data_len s) (s_data s)) (ib_timestamp b) (s_frequency s)
                         (s_direction s) (ib_magnitude b)))
        else (<[i := s]> ctx, None)
    | None =>
        if (ib_da_ctr b =? 0) && (ib_cont b =? 0) then
          (ctx, Some (Message (take (Z.to_nat (ib_da_len b)) (ib_payload b)) (ib_timestamp b)
                              (ib_frequency b) (ib_direction b) (ib_magnitude b)))
        else if (ib_da_ctr b =? 0) && negb (ib_cont b =? 0) then
          let idx := default 0%nat (find_victim 0 ctx None (2 ^ 64 - 1)) in
          (<[idx := start_slot b (ctx !!! idx)]> ctx, None)
        else (ctx, None)
    end.

(** [ida_reassemble_flush]. *)
Definition flush_slot (now_ns : Z) (s : ida_reassembly) : ida_reassembly :=
  if active s && (u64 (last_timestamp s + time_window) <? now_ns) then set_inactive s else s.

Definition ida_reassemble_flush (ctx : ida_context) (now_ns : Z) : ida_context :=
  map (flush_slot now_ns) ctx.

(** ** Runs: bursts and flushes in the order the caller issues them *)

Inductive event := Burst (b : ida_burst) | Flush (now_ns : Z).

Definition do_event (ctx : ida_context) (e : event) : ida_context * option ida_message :=
  match e with
  | Burst b => ida_reassemble ctx b
  | Flush now => (ida_reassemble_flush ctx now, None)
  end.

Fixpoint run (ctx : ida_context) (es : list event) : ida_context * list ida_message :=
  match es with
  | [] => (ctx, [])
  | e :: es =>
      let '(ctx1, o) := do_event ctx e in
      let '(ctx2, ms) := run ctx1 es in
      (ctx2, option_list o ++ ms)
  end.

(** * Abstract specification

    A message is a chain of fragments: counters from 0 upwards modulo 8, one
    direction, frequencies within the window of the first fragment, at most
    280 ms between neighbours, continuation flag set on all but the last.  Its
    contents are the payloads in order.  A message of more than 256 bytes does
    not fit the buffer of a slot. *)

(** What the decoder promises of a burst (theorem [ida_decode_result]). *)
Definition burst_ok (b : ida_burst) : Prop :=
  0 <= ib_da_len b <= 20 /\ List.length (ib_payload b) = 32%nat /\ 0 <= ib_da_ctr b < 8 /\
  is_bit (ib_cont b) /\ 0 <= ib_timestamp b < 2 ^ 64.

#[export] Instance burst_ok_dec b : Decision (burst_ok b).
Proof. unfold burst_ok. apply _. Defined.

Definition good (b : ida_burst) : Prop := ib_crc_ok b = true /\ ib_da_len b <> 0.
#[export] Instance good_dec b : Decision (good b).
Proof. unfold good. apply _. Defined.

Definition payload_of (b : ida_burst) : list Z := take (Z.to_nat (ib_da_len b)) (ib_payload b).

(** What was sent in the fragments. *)
Definition contents (frs : list ida_burst) : list Z := flat_map payload_of frs.

(** What the code puts together of them: it leaves out each fragment that does
    not fit into the 256 bytes. *)
Definition assemble_step (acc : list Z) (b : ida_burst) : list Z :=
  if (List.length acc + Z.to_nat (ib_da_len b) <=? 256)%nat then acc ++ payload_of b else acc.
Definition assemble (frs : list ida_burst) : list Z := fold_left assemble_step frs [].

Definition continues (f l b : ida_burst) : Prop :=
  ib_direction f = ib_direction b /\ far (ib_frequency f) (ib_frequency b) = false /\
  ib_timestamp l <= ib_timestamp b <= ib_timestamp l + time_window /\
  ib_da_ctr b = (ib_da_ctr l + 1) mod 8.

#[export] Instance continues_dec f l b : Decision (continues f l b).
Proof. unfold continues. apply _. Defined.

(** [chain f l frs]: the fragments [frs], first [f], last [l]. *)
Inductive chain : ida_burst -> ida_burst -> list ida_burst -> Prop :=
| chain_start f : good f -> ib_da_ctr f = 0 -> chain f f [f]
| chain_next f l frs b : chain f l frs -> ib_cont l <> 0 -> good b -> continues f l b ->
    chain f b (frs ++ [b]).

Definition message_of (f l : ida_burst) (frs : list ida_burst) : ida_message :=
  Message (assemble frs) (ib_timestamp l) (ib_frequency f) (ib_direction f) (ib_magnitude l).

(** A message is that of a chain when it has the data of all fragments; of a chain
    of more than 256 bytes it has some fragments, each whole and in order, but
    not all. *)
Definition message_for (f l : ida_burst) (frs : list ida_burst) (m : ida_message) : Prop :=
  m_timestamp m = ib_timestamp l /\ m_frequency m = ib_frequency f /\ m_direction m = ib_direction f /\ m_magnitude m = ib_magnitude l /\
  ((List.length (contents frs) <= 256)%nat -> m_data m = contents frs) /\
  ((256 < List.length (contents frs))%nat ->
    exists kept, kept `sublist_of` frs /\ m_data m = contents kept /\ (List.length (m_data m) <= 256)%nat).

(** The bursts of a run, in order. *)
Definition bursts (es : list event) : list ida_burst :=
  omap (fun e => match e with Burst b => Some b | Flush _ => None end) es.

(** How a slot stands for the chain it has received. *)
Definition holds (f l : ida_burst) (frs : list ida_burst) (s : ida_reassembly) : Prop :=
  s_direction s = ib_direction f /\ s_frequency s = ib_frequency f /\
  last_timestamp s = ib_timestamp l /\ last_ctr s = ib_da_ctr l /\
  take (data_len s) (s_data s) = assemble frs.

Definition slot_wf (s : ida_reassembly) : Prop :=
  List.length (s_data s) = 256%nat /\ (data_len s <= 256)%nat.

(** * Lemmas *)

(** The decoder's output is what the assembler expects. *)
Lemma decoded_burst_ok tbl k stk f b : ida_decode tbl k stk f = Some b -> 0 <= df_timestamp f < 2 ^ 64 -> burst_ok b.
Proof.
  intros H Ht. pose proof (ida_decode_wf _ _ _ _ _ H) as (H1 & H2 & H3 & _ & H4 & _).
  apply ida_decode_inv in H as (lcw & s & fx & _ & _ & _ & _ & _ & ->).
  exact (conj H1 (conj H4 (conj H2 (conj H3 Ht)))).
Qed.

Lemma find_slot_spec p i slots :
  match find_slot p i slots with
  | Some k => exists s, (i <= k)%nat /\ slots !! (k - i)%nat = Some s /\ p s = true
  | None => forall s, s ∈ slots -> p s = false
  end.
Proof.
  revert i. induction slots as [|s slots IH]; intros i; cbn; [set_solver|].
  destruct (p s) eqn:E.
  - exists s. split; [lia|]. by rewrite Nat.sub_diag.
  - specialize (IH (i + 1)%nat). destruct (find_slot _ _ _) as [k|].
    + destruct IH as (s' & Hk & Hl & Hp). exists s'. split; [lia|].
      replace (k - i)%nat with (S (k - (i + 1)))%nat by lia. done.
    + intros s' [->|Hs]%list_elem_of_In; [done|]. by apply IH, list_elem_of_In.
Qed.

Lemma find_slot_some p slots k : find_slot p 0 slots = Some k ->
  exists s, slots !! k = Some s /\ p s = true.
Proof.
  intros H. pose proof (find_slot_spec p 0 slots) as Hs. rewrite H in Hs.
  destruct Hs as (s & _ & Hl & Hp). rewrite Nat.sub_0_r in Hl. eauto.
Qed.

Lemma find_slot_none p slots s : find_slot p 0 slots = None -> s ∈ slots -> p s = false.
Proof. intros H. pose proof (find_slot_spec p 0 slots) as Hs. rewrite H in Hs. apply Hs. Qed.

Lemma find_victim_free i slots idx old s :
  s ∈ slots -> active s = false ->
  exists k s', find_victim i slots idx old = Some (i + k)%nat /\ slots !! k = Some s' /\ active s' = false.
Proof.
  revert i idx old. induction slots as [|s0 slots IH]; intros i idx old; [set_solver|].
  intros Hs Ha. cbn [find_victim]. destruct (active s0) eqn:E; cbn [negb].
  - assert (s ∈ slots) as Hs' by (apply list_elem_of_In in Hs as [->|Hs]; [congruence|by apply list_elem_of_In]).
    destruct (_ <? _).
    + destruct (IH (i + 1)%nat (Some i) (last_timestamp s0) Hs' Ha) as (k & s' & -> & Hk & Ha').
      exists (S k), s'. split; [f_equal; lia|done].
    + destruct (IH (i + 1)%nat idx old Hs' Ha) as (k & s' & -> & Hk & Ha').
      exists (S k), s'. split; [f_equal; lia|done].
  - exists 0%nat, s0. split; [f_equal; lia|done].
Qed.

Lemma find_victim_range i slots idx old :
  match find_victim i slots idx old with
  | Some k => idx = Some k \/ (i <= k < i + List.length slots)%nat
  | None => idx = None
  end.
Proof.
  revert i idx old. induction slots as [|s slots IH]; intros i idx old; cbn; [by destruct idx; auto|].
  destruct (active s); cbn [negb]; [|right; lia].
  destruct (_ <? _).
  - specialize (IH (i + 1)%nat (Some i) (last_timestamp s)). destruct (find_victim _ _ _ _) as [k|]; [|done].
    destruct IH as [[= <-]|IH]; right; lia.
  - specialize (IH (i + 1)%nat idx old). destruct (find_victim _ _ _ _) as [k|]; [|done].
    destruct IH as [->|IH]; [by left|right; lia].
Qed.

(** Copying into the array and reading the prefix back. *)
Lemma length_memcpy dst off src n :
  (n <= List.length src)%nat -> (off + n <= List.length dst)%nat ->
  List.length (memcpy dst off src n) = List.length dst.
Proof. intros. unfold memcpy. rewrite !length_app, length_drop, !length_take. lia. Qed.

Lemma take_memcpy dst off src n :
  (n <= List.length src)%nat -> (off + n <= List.length dst)%nat ->
  take (off + n) (memcpy dst off src n) = take off dst ++ take n src.
Proof.
  intros Hn Ho. unfold memcpy. rewrite app_assoc. apply take_app_length'.
  rewrite length_app, !length_take. lia.
Qed.

Lemma length_payload_of b : burst_ok b -> List.length (payload_of b) = Z.to_nat (ib_da_len b).
Proof. intros (Hl & Hp & _). unfold payload_of. rewrite length_take. lia. Qed.

Lemma length_assemble_step acc b : burst_ok b -> (List.length acc <= 256)%nat ->
  (List.length (assemble_step acc b) <= 256)%nat.
Proof.
  intros Hb Ha. unfold assemble_step. destruct (Nat.leb_spec (List.length acc + Z.to_nat (ib_da_len b)) 256); [|done].
  rewrite length_app, length_payload_of by done. done.
Qed.

Lemma append_wf b s : burst_ok b -> slot_wf s -> slot_wf (append b s).
Proof.
  intros (Hl & Hp & _) [Hd Hn]. unfold slot_wf, append. cbn [s_data data_len].
  destruct (Nat.leb_spec (data_len s + Z.to_nat (ib_da_len b)) 256); [|done].
  rewrite length_memcpy by lia. done.
Qed.

Lemma start_slot_wf b s : burst_ok b -> slot_wf s -> slot_wf (start_slot b s).
Proof.
  intros (Hl & Hp & _) [Hd Hn]. unfold slot_wf, start_slot. cbn [s_data data_len].
  rewrite length_memcpy by lia. lia.
Qed.

(** Appending to a slot is appending to the chain it stands for. *)
Lemma append_holds f l frs b s : burst_ok b -> slot_wf s -> holds f l frs s ->
  holds f b (frs ++ [b]) (append b s).
Proof.
  intros Hb [Hd Hn] (H1 & H2 & H3 & H4 & H5). unfold holds, append.
  cbn [s_direction s_frequency last_timestamp last_ctr data_len s_data]. split_and!; try done.
  unfold assemble. rewrite fold_left_app. fold (assemble frs). cbn [fold_left]. unfold assemble_step.
  rewrite <- H5, length_take, Nat.min_l by lia. destruct Hb as (Hl & Hp & _).
  destruct (Nat.leb_spec (data_len s + Z.to_nat (ib_da_len b)) 256); [|done].
  rewrite take_memcpy by lia. done.
Qed.

Lemma start_holds b s : burst_ok b -> slot_wf s -> holds b b [b] (start_slot b s).
Proof.
  intros (Hl & Hp & _) [Hd Hn]. unfold holds, start_slot.
  cbn [s_direction s_frequency last_timestamp last_ctr data_len s_data]. split_and!; try done.
  change (Z.to_nat (ib_da_len b)) with (0 + Z.to_nat (ib_da_len b))%nat at 1.
  rewrite take_memcpy by lia. unfold assemble, assemble_step, payload_of. cbn [fold_left List.length Nat.add].
  rewrite (proj2 (Nat.leb_le _ _)) by lia. done.
Qed.

(** The tests of the matching loop, against the chain a slot stands for. *)
Lemma slot_matches_iff f l frs b s :
  burst_ok l -> burst_ok b -> holds f l frs s ->
  slot_matches b s = true <-> active s = true /\ continues f l b.
Proof.
  intros (_ & _ & Hcl & _ & Htl) (_ & _ & Hcb & _ & Htb) (H1 & H2 & H3 & H4 & _).
  unfold slot_matches, continues. rewrite H1, H2, H3, H4, Z.rem_mod_nonneg by lia.
  rewrite !andb_true_iff, !negb_true_iff, bool_decide_eq_true, Z.eqb_eq, !Z.ltb_ge.
  split.
  - intros (((((Ha & Hd) & Hf) & Ht) & Hw) & Hc). rewrite u64_small in Hw by lia.
    split_and!; (done || lia).
  - intros (Ha & Hd & Hf & Ht & Hc). rewrite u64_small by lia. unfold time_window in *.
    split_and!; (done || lia).
Qed.

(** ** The invariant of every run *)

Definition slot_inv (hist : list ida_burst) (s : ida_reassembly) : Prop :=
  slot_wf s /\
  (active s = true -> exists f l frs, frs `sublist_of` hist /\ chain f l frs /\ ib_cont l <> 0 /\
    burst_ok l /\ holds f l frs s).

Definition ctx_inv (hist : list ida_burst) (ctx : ida_context) : Prop :=
  List.length ctx = IDA_MAX_REASSEMBLY /\ Forall (slot_inv hist) ctx.

Lemma slot_inv_mono hist b s : slot_inv hist s -> slot_inv (hist ++ [b]) s.
Proof.
  intros [Hw Ha]. split; [done|]. intros Hact. destruct (Ha Hact) as (f & l & frs & Hs & H).
  exists f, l, frs. split; [by apply sublist_inserts_r|done].
Qed.

Lemma set_inactive_inv hist s : slot_wf s -> slot_inv hist (set_inactive s).
Proof. intros Hw. split; [exact Hw|done]. Qed.

Lemma ctx_inv_insert hist ctx i s : ctx_inv hist ctx -> slot_inv hist s -> ctx_inv hist (<[i := s]> ctx).
Proof.
  intros [Hl Hf] Hs. split; [by rewrite length_insert|]. by apply Forall_insert.
Qed.

Lemma flush_inv hist ctx now : ctx_inv hist ctx -> ctx_inv hist (ida_reassemble_flush ctx now).
Proof.
  intros [Hl Hf]. split; [by unfold ida_reassemble_flush; rewrite length_map|].
  apply Forall_map. eapply Forall_impl; [exact Hf|]. intros s Hs. unfold flush_slot, compose.
  destruct (_ && _); [apply set_inactive_inv, Hs|done].
Qed.

(** One burst: the invariant is kept and a message, if any, is a complete chain. *)
Lemma reassemble_inv hist ctx b : burst_ok b -> ctx_inv hist ctx ->
  ctx_inv (hist ++ [b]) (fst (ida_reassemble ctx b)) /\
  forall m, snd (ida_reassemble ctx b) = Some m ->
    exists f l frs, frs `sublist_of` (hist ++ [b]) /\ chain f l frs /\ ib_cont l = 0 /\ m = message_of f l frs.
Proof.
  intros Hb Hinv. assert (ctx_inv (hist ++ [b]) ctx) as Hinv'.
  { destruct Hinv as [Hl Hf]. split; [done|]. eapply Forall_impl; [exact Hf|]. intros. by apply slot_inv_mono. }
  unfold ida_reassemble. destruct (negb (ib_crc_ok b) || (ib_da_len b =? 0)) eqn:Hg; [by split|].
  assert (good b) as Hgood by (bsplit; by split).
  destruct (find_slot _ _ _) as [i|] eqn:Hfind.
  - apply find_slot_some in Hfind as (s & Hi & Hm).
    destruct (proj1 (Forall_lookup _ _) (proj2 Hinv) i s Hi) as [Hw Ha].
    destruct (Ha) as (f & l & frs & Hsub & Hch & Hc & Hokl & Hh); [unfold slot_matches in Hm; by bsplit|].
    apply (slot_matches_iff f l frs) in Hm as [Hact Hcont]; [|done..].
    assert (chain f b (frs ++ [b])) as Hch' by (by eapply chain_next).
    assert (frs ++ [b] `sublist_of` hist ++ [b]) as Hsub' by (by apply sublist_app).
    pose proof (append_holds f l frs b s Hb Hw Hh) as Hh'. pose proof (append_wf b s Hb Hw) as Hw'.
    rewrite list_lookup_total_alt, Hi. cbn [from_option id default].
    destruct (Z.eqb_spec (ib_cont b) 0) as [Hz|Hz]; cbn [fst snd].
    + split; [apply ctx_inv_insert; [done|by apply set_inactive_inv]|]. intros m [= <-].
      exists f, b, (frs ++ [b]). split_and!; try done. destruct Hh' as (E1 & E2 & _ & _ & E5).
      unfold message_of. by rewrite <- E5, <- E1, <- E2.
    + split; [|done]. apply ctx_inv_insert; [done|]. split; [done|]. intros _.
      exists f, b, (frs ++ [b]). done.
  - destruct (Z.eqb_spec (ib_da_ctr b) 0) as [H0|H0]; cbn [andb]; [|by split].
    destruct (Z.eqb_spec (ib_cont b) 0) as [Hz|Hz]; cbn [negb fst snd].
    + split; [done|]. intros m [= <-]. exists b, b, [b].
      split_and!; [by apply sublist_inserts_l|by constructor|done|].
      unfold message_of, assemble, assemble_step, payload_of. cbn [fold_left List.length Nat.add].
      destruct Hb as (Hl & _). rewrite (proj2 (Nat.leb_le _ _)) by lia. done.
    + split; [|done]. apply ctx_inv_insert; [done|].
      assert (slot_wf (ctx !!! default 0%nat (find_victim 0 ctx None (2 ^ 64 - 1)))) as Hw.
      { destruct (lookup_lt_is_Some_2 ctx (default 0%nat (find_victim 0 ctx None (2 ^ 64 - 1)))) as [s Hs].
        - pose proof (find_victim_range 0 ctx None (2 ^ 64 - 1)) as Hr. destruct Hinv as [Hl _].
          unfold IDA_MAX_REASSEMBLY in Hl.
          destruct (find_victim _ _ _ _) as [k|]; cbn; [destruct Hr as [?|?]; [done|lia]|lia].
        - rewrite list_lookup_total_alt, Hs. by apply (proj1 (Forall_lookup _ _) (proj2 Hinv) _ _ Hs). }
      split; [by apply start_slot_wf|]. intros _. exists b, b, [b].
      split_and!; [by apply sublist_inserts_l|by constructor|done|done|by apply start_holds].
Qed.

Lemma ctx_init_inv : ctx_inv [] ctx_init.
Proof.
  split; [done|]. apply Forall_replicate. split; [|done]. split; [done|]. cbn. lia.
Qed.

Lemma bursts_cons e es : bursts (e :: es) = (match e with Burst b => [b] | Flush _ => [] end) ++ bursts es.
Proof. by destruct e. Qed.

Lemma run_inv hist ctx es : Forall burst_ok (bursts es) -> ctx_inv hist ctx ->
  ctx_inv (hist ++ bursts es) (fst (run ctx es)) /\
  forall m, m ∈ snd (run ctx es) ->
    exists f l frs, frs `sublist_of` (hist ++ bursts es) /\ chain f l frs /\ ib_cont l = 0 /\ m = message_of f l frs.
Proof.
  revert hist ctx. induction es as [|e es IH]; intros hist ctx Hok Hinv.
  - rewrite app_nil_r. split; [done|]. cbn. set_solver.
  - cbn [run]. destruct e as [b|now]; cbn [do_event]; rewrite bursts_cons in *.
    + apply Forall_app in Hok as [Hb Hok]. rewrite Forall_singleton in Hb.
      destruct (reassemble_inv hist ctx b Hb Hinv) as [Hi Hm].
      destruct (ida_reassemble ctx b) as [ctx1 o]. cbn [fst snd] in *.
      specialize (IH _ _ Hok Hi). rewrite <- app_assoc in IH. destruct (run ctx1 es) as [ctx2 ms]. cbn [fst snd] in *.
      destruct IH as [IH1 IH2]. split; [done|]. intros m [Ho|Hm']%elem_of_app; [|by apply IH2].
      destruct o as [m'|]; [|set_solver]. cbn in Ho. apply list_elem_of_singleton in Ho as ->.
      destruct (Hm m' eq_refl) as (f & l & frs & Hs & H). exists f, l, frs. split; [|done].
      rewrite app_assoc. by apply sublist_inserts_r.
    + specialize (IH hist (ida_reassemble_flush ctx now) Hok (flush_inv _ _ _ Hinv)).
      destruct (run _ es) as [ctx2 ms]. cbn [fst snd] in *. exact IH.
Qed.

(** ** Interleaved messages *)

(** Two bursts that can never meet in a slot, and a slot a burst can never use. *)
Definition foreign (o b : ida_burst) : Prop :=
  ib_direction o <> ib_direction b \/
  (far (ib_frequency o) (ib_frequency b) = true /\ far (ib_frequency b) (ib_frequency o) = true).

Definition off_channel (b : ida_burst) (d : ir_direction) (fq : f64) : Prop :=
  d <> ib_direction b \/ far fq (ib_frequency b) = true.

#[export] Instance foreign_dec o b : Decision (foreign o b).
Proof. unfold foreign. apply _. Defined.
#[export] Instance off_channel_dec b d fq : Decision (off_channel b d fq).
Proof. unfold off_channel. apply _. Defined.

Lemma off_channel_no_match b s : off_channel b (s_direction s) (s_frequency s) -> slot_matches b s = false.
Proof.
  unfold slot_matches. intros [Hd|Hf].
  - rewrite (bool_decide_eq_false_2 _ Hd). by destruct (active s).
  - rewrite Hf. by destruct (active s), (bool_decide _).
Qed.

(** Bursts that open a slot, and the number of slots in use. *)
Definition opens (b : ida_burst) : bool :=
  ib_crc_ok b && negb (ib_da_len b =? 0) && (ib_da_ctr b =? 0) && negb (ib_cont b =? 0).
Definition openings (es : list event) : nat := List.length (List.filter opens (bursts es)).
Definition count_active (ctx : ida_context) : nat := List.length (List.filter active ctx).

Lemma count_active_insert ctx i s s' : ctx !! i = Some s ->
  (count_active (<[i := s']> ctx) + Nat.b2n (active s) = count_active ctx + Nat.b2n (active s'))%nat.
Proof.
  unfold count_active. revert i. induction ctx as [|t ctx IH]; intros [|i] H; [done..| |].
  - injection H as H. subst t. cbn. destruct (active s), (active s'); cbn; lia.
  - change (<[S i := s']> (t :: ctx)) with (t :: <[i := s']> ctx). specialize (IH i H).
    cbn [List.filter]. destruct (active t); cbn [List.length]; lia.
Qed.

Lemma count_active_flush ctx now : (count_active (ida_reassemble_flush ctx now) <= count_active ctx)%nat.
Proof.
  unfold count_active, ida_reassemble_flush. induction ctx as [|s ctx IH]; [done|]. cbn [map List.filter].
  assert (active (flush_slot now s) = true -> active s = true) as Ha
    by (unfold flush_slot; by destruct (_ && _)).
  destruct (active (flush_slot now s)), (active s); cbn [List.length]; (lia || by specialize (Ha eq_refl)).
Qed.

Lemma exists_inactive ctx : (count_active ctx < List.length ctx)%nat -> exists s, s ∈ ctx /\ active s = false.
Proof.
  unfold count_active. induction ctx as [|s ctx IH]; cbn; [lia|]. destruct (active s) eqn:E; cbn.
  - intros H. destruct IH as (s' & Hs & Ha); [lia|]. exists s'. split; [by right|done].
  - intros _. exists s. split; [by left|done].
Qed.

Section channel.
(** [Q] holds of direction and frequency of every slot but our own. *)
Context (Q : ir_direction -> f64 -> Prop).

Definition owned (own : option (nat * ida_reassembly)) (ctx : ida_context) : Prop :=
  List.length ctx = IDA_MAX_REASSEMBLY /\ Forall slot_wf ctx /\
  (forall j sj, own = Some (j, sj) -> ctx !! j = Some sj /\ active sj = true) /\
  (forall i s, ctx !! i = Some s -> active s = true -> own = Some (i, s) \/ Q (s_direction s) (s_frequency s)).

Lemma owned_insert own ctx i s old : owned own ctx -> ctx !! i = Some old -> slot_wf s ->
  (forall j sj, own = Some (j, sj) -> i <> j) -> (active s = true -> Q (s_direction s) (s_frequency s)) ->
  owned own (<[i := s]> ctx).
Proof.
  intros (Hl & Hw & Hown & Hq) Hi Hs Hne HQ. split_and!.
  - by rewrite length_insert.
  - by apply Forall_insert.
  - intros j sj Hj. destruct (Hown j sj Hj) as [Hj' Ha]. split; [|done].
    by rewrite list_lookup_insert_ne by (by eapply Hne).
  - intros k t Hk Ha. destruct (decide (i = k)) as [->|Hik].
    + rewrite list_lookup_insert_eq in Hk by (by eapply lookup_lt_Some). injection Hk as <-. right. auto.
    + rewrite list_lookup_insert_ne in Hk by done. by apply Hq.
Qed.

(** Taking or updating our own slot. *)
Lemma owned_update own ctx j s old : owned own ctx -> ctx !! j = Some old -> slot_wf s -> active s = true ->
  (forall i si, own = Some (i, si) -> i = j) -> owned (Some (j, s)) (<[j := s]> ctx).
Proof.
  intros (Hl & Hw & Hown & Hq) Hj Hs Ha Heq. split_and!.
  - by rewrite length_insert.
  - by apply Forall_insert.
  - intros i si [= <- <-]. split; [|done]. apply list_lookup_insert_eq. by eapply lookup_lt_Some.
  - intros i t Hi Hat. destruct (decide (j = i)) as [->|Hij].
    + rewrite list_lookup_insert_eq in Hi by (by eapply lookup_lt_Some). injection Hi as <-. by left.
    + rewrite list_lookup_insert_ne in Hi by done. destruct (Hq i t Hi Hat) as [E|E]; [|by right].
      by destruct (Hij (eq_sym (Heq _ _ E))).
Qed.

(** A burst of another channel leaves our slot alone. *)
Lemma foreign_step own ctx o :
  burst_ok o -> owned own ctx -> (forall j sj, own = Some (j, sj) -> slot_matches o sj = false) ->
  Q (ib_direction o) (ib_frequency o) ->
  (count_active ctx + Nat.b2n (opens o) <= IDA_MAX_REASSEMBLY)%nat ->
  owned own (fst (ida_reassemble ctx o)) /\
  (count_active (fst (ida_reassemble ctx o)) <= count_active ctx + Nat.b2n (opens o))%nat.
Proof.
  intros Ho Hinv Hno HQ Hroom. pose proof Hinv as (Hl & Hw & Hown & Hq). unfold ida_reassemble.
  destruct (negb (ib_crc_ok o) || (ib_da_len o =? 0)) eqn:Hg; [split; [done|cbn [fst]; lia]|].
  destruct (find_slot _ _ _) as [i|] eqn:Hfind.
  - apply find_slot_some in Hfind as (s & Hi & Hm). rewrite list_lookup_total_alt, Hi. cbn [from_option id].
    assert (active s = true) as Ha by (unfold slot_matches in Hm; by bsplit).
    assert (slot_wf (append o s)) as Hw' by (apply append_wf; [done|by eapply Forall_lookup_1]).
    assert (forall j sj, own = Some (j, sj) -> i <> j) as Hne.
    { intros j sj Hj <-. specialize (Hno _ _ Hj). destruct (Hown _ _ Hj) as [Hj' _]. congruence. }
    assert (Q (s_direction s) (s_frequency s)) as HQs.
    { destruct (Hq i s Hi Ha) as [E|E]; [|done]. specialize (Hno _ _ E). congruence. }
    destruct (ib_cont o =? 0); cbn [fst].
    + split; [by eapply owned_insert|].
      pose proof (count_active_insert ctx i s (set_inactive (append o s)) Hi). rewrite Ha in *.
      cbn [active set_inactive append Nat.b2n] in *. lia.
    + split; [by eapply owned_insert|].
      pose proof (count_active_insert ctx i s (append o s) Hi). cbn [active append] in *. lia.
  - destruct (Z.eqb_spec (ib_da_ctr o) 0) as [H0|H0]; cbn [andb]; [|split; [done|cbn [fst]; lia]].
    destruct (Z.eqb_spec (ib_cont o) 0) as [Hz|Hz]; cbn [negb fst]; [split; [done|lia]|].
    assert (opens o = true) as Hop.
    { unfold opens. bsplit. rewrite H0, (proj2 (Z.eqb_neq _ _) Hz), (proj2 (Z.eqb_neq _ _) H1), H. done. }
    rewrite Hop in *. cbn [Nat.b2n] in *.
    destruct (exists_inactive ctx ltac:(rewrite Hl; lia)) as (s0 & Hs0 & Hi0).
    destruct (find_victim_free 0 ctx None (2 ^ 64 - 1) s0 Hs0 Hi0) as (k & s & -> & Hk & Hka).
    cbn [default from_option id Nat.add]. rewrite list_lookup_total_alt, Hk. cbn [from_option id].
    split.
    + eapply owned_insert; [done|done| | |done].
      * apply start_slot_wf; [done|by eapply Forall_lookup_1].
      * intros j sj Hj ->. destruct (Hown _ _ Hj) as [Hj' Ha]. congruence.
    + pose proof (count_active_insert ctx k s (start_slot o s) Hk). rewrite Hka in *.
      cbn [active start_slot Nat.b2n] in *. lia.
Qed.

Lemma flush_owned own ctx now : owned own ctx ->
  (forall j sj, own = Some (j, sj) -> flush_slot now sj = sj) -> owned own (ida_reassemble_flush ctx now).
Proof.
  intros (Hl & Hw & Hown & Hq) Hk. unfold ida_reassemble_flush. split_and!.
  - by rewrite length_map.
  - apply Forall_map. eapply Forall_impl; [exact Hw|]. intros s Hs. unfold compose, flush_slot.
    by destruct (_ && _).
  - intros j sj Hj. destruct (Hown j sj Hj) as [Hj' Ha]. split; [|done].
    change (map (flush_slot now) ctx) with (flush_slot now <$> ctx). rewrite list_lookup_fmap, Hj'. cbn.
    by rewrite (Hk _ _ Hj).
  - intros i s. change (map (flush_slot now) ctx) with (flush_slot now <$> ctx).
    rewrite list_lookup_fmap. destruct (ctx !! i) as [t|] eqn:Ht; [|done]. cbn. intros [= <-].
    unfold flush_slot. destruct (active t && _) eqn:E; [done|]. intros Ha. by apply Hq.
Qed.
End channel.

Lemma chain_head f l frs : chain f l frs -> exists frs', frs = f :: frs'.
Proof.
  induction 1 as [f _ _|f l frs b _ (frs' & ->) _ _ _]; [by eexists|]. by exists (frs' ++ [b]).
Qed.

Lemma chain_first f l frs : chain f l frs -> good f /\ ib_da_ctr f = 0.
Proof. induction 1; auto. Qed.

Lemma chain_inv f l frs : chain f l frs ->
  (frs = [f] /\ l = f /\ good f /\ ib_da_ctr f = 0) \/
  exists l' frs', frs = frs' ++ [l] /\ chain f l' frs' /\ ib_cont l' <> 0 /\ good l /\ continues f l' l.
Proof. intros H. destruct H as [f ? ?|f l frs b ? ? ? ?]; [left; done|right; eauto 10]. Qed.

Lemma chain_last f l frs : chain f l frs -> last frs = Some l.
Proof. intros [(-> & -> & _)|(l' & frs' & -> & _)]%chain_inv; [done|]. by rewrite last_snoc. Qed.

(** Every prefix of a chain is an open chain the next fragment continues. *)
Lemma chain_split f l done b todo : chain f l (done ++ b :: todo) -> done <> [] ->
  exists l', chain f l' done /\ ib_cont l' <> 0 /\ good b /\ continues f l' b.
Proof.
  revert l. induction todo as [|x todo IH] using rev_ind; intros l Hc Hne.
  - apply chain_inv in Hc as [(E & _)|(l' & frs' & E & Hc & Hr)].
    + destruct done as [|? [|? ?]]; done.
    + apply app_inj_tail in E as [-> ->]. by exists l'.
  - apply chain_inv in Hc as [(E & _)|(l' & frs' & E & Hc & Hr)].
    + destruct done as [|? [|? ?]]; done.
    + change (b :: todo ++ [x]) with ((b :: todo) ++ [x]) in E. rewrite app_assoc in E.
      apply app_inj_tail in E as [<- <-]. by apply (IH l').
Qed.

(** ** The run of one channel among others *)

(** Flushes come before our slot expires: [prev] is our last fragment. *)
Fixpoint timely (mine : ida_burst -> bool) (prev : option ida_burst) (es : list event) : Prop :=
  match es with
  | [] => True
  | Burst b :: es => timely mine (if mine b then Some b else prev) es
  | Flush now :: es =>
      match prev with
      | Some p => now <= ib_timestamp p + time_window < 2 ^ 64
      | None => True
      end /\ timely mine prev es
  end.

Lemma run_cons ctx e es : run ctx (e :: es) =
  (fst (run (fst (do_event ctx e)) es),
   option_list (snd (do_event ctx e)) ++ snd (run (fst (do_event ctx e)) es)).
Proof.
  cbn [run]. destruct (do_event ctx e) as [c o]. cbn [fst snd]. by destruct (run c es).
Qed.

Section interleaved.
Context (mine : ida_burst -> bool) (f l : ida_burst) (frs : list ida_burst).
Hypothesis Hchain : chain f l frs.
Hypothesis Hlast : ib_cont l = 0.

(** Direction and frequency no fragment of ours matches. *)
Let Q (d : ir_direction) (fq : f64) : Prop := Forall (fun b => off_channel b d fq) frs.

Definition others_foreign (es : list event) : Prop :=
  Forall (fun o => mine o = false -> Forall (foreign o) frs) (bursts es).

Lemma foreign_Q o : Forall (foreign o) frs -> Q (ib_direction o) (ib_frequency o).
Proof.
  intros H. eapply Forall_impl; [exact H|]. intros b [Hd|[Hf _]]; [left|right]; done.
Qed.

(** Our fragment finds our slot and no other. *)
Lemma find_own j s ctx b : owned Q (Some (j, s)) ctx -> b ∈ frs -> slot_matches b s = true ->
  find_slot (slot_matches b) 0 ctx = Some j.
Proof.
  intros (Hl & _ & Hown & Hq) Hb Hm. destruct (Hown j s eq_refl) as [Hj Ha].
  destruct (find_slot _ _ _) as [i|] eqn:E.
  - apply find_slot_some in E as (t & Hi & Ht).
    assert (active t = true) as Hat by (unfold slot_matches in Ht; by bsplit).
    destruct (Hq i t Hi Hat) as [[= <- _]|HQ]; [done|].
    unfold Q in HQ. rewrite Forall_forall in HQ.
    rewrite (off_channel_no_match b t) in Ht by (by apply HQ). done.
  - rewrite (find_slot_none _ _ s E) in Hm; [done|]. by eapply list_elem_of_lookup_2.
Qed.

Lemma good_guard b : good b -> negb (ib_crc_ok b) || (ib_da_len b =? 0) = false.
Proof. intros [-> Hn]. by rewrite (proj2 (Z.eqb_neq _ _) Hn). Qed.

Lemma own_no_match (j : nat) (s : ida_reassembly) l' done o : holds f l' done s -> foreign o f ->
  forall i si, Some (j, s) = Some (i, si) -> slot_matches o si = false.
Proof.
  intros (H1 & H2 & _) Hfo i si [= <- <-]. apply off_channel_no_match. rewrite H1, H2.
  destruct Hfo as [Hd|[_ Hf]]; [left|right]; done.
Qed.

Lemma openings_cons b es : openings (Burst b :: es) = (Nat.b2n (opens b) + openings es)%nat.
Proof. unfold openings. rewrite bursts_cons. cbn [app List.filter]. by destruct (opens b). Qed.

(** The next fragment of our chain reaches our slot. *)
Lemma own_step ctx done b todo l' j s :
  frs = done ++ b :: todo -> done <> [] -> chain f l' done -> burst_ok l' -> burst_ok b ->
  owned Q (Some (j, s)) ctx -> holds f l' done s ->
  chain f b (done ++ [b]) /\ holds f b (done ++ [b]) (append b s) /\
  ctx !! j = Some s /\ active s = true /\ slot_wf s /\
  ida_reassemble ctx b = if ib_cont b =? 0 then
      (<[j := set_inactive (append b s)]> ctx, Some (message_of f b (done ++ [b])))
    else (<[j := append b s]> ctx, None).
Proof.
  intros Hfrs Hd Hc Hl' Hb Hown Hh. pose proof Hchain as Hch. rewrite Hfrs in Hch.
  destruct (chain_split _ _ _ _ _ Hch Hd) as (l2 & Hc2 & Hcont & Hg & Hco).
  assert (l2 = l') as -> by (apply chain_last in Hc, Hc2; congruence).
  assert (b ∈ frs) as Hbin by (rewrite Hfrs; set_solver).
  pose proof Hown as (Hlen & Hwf & Howns & _). destruct (Howns j s eq_refl) as [Hj Ha].
  assert (slot_wf s) as Hws by (by eapply Forall_lookup_1).
  assert (slot_matches b s = true) as Hm by (apply (slot_matches_iff f l' done); done).
  pose proof (append_holds f l' done b s Hb Hws Hh) as Hh'.
  split_and!; [by eapply chain_next|done..|].
  unfold ida_reassemble. rewrite good_guard, (find_own j s ctx b Hown Hbin Hm) by done.
  rewrite list_lookup_total_alt, Hj. cbn [from_option id]. destruct (_ =? 0); [|done].
  unfold message_of. destruct Hh' as (E1 & E2 & _ & _ & <-). by rewrite E1, E2.
Qed.

(** Once our slot is open, the rest of the chain is collected and delivered. *)
Lemma deliver_open es ctx done todo l' j s :
  frs = done ++ todo -> done <> [] -> todo <> [] -> chain f l' done -> burst_ok l' ->
  owned Q (Some (j, s)) ctx -> holds f l' done s ->
  List.filter mine (bursts es) = todo -> Forall burst_ok (bursts es) -> others_foreign es ->
  (count_active ctx + openings es <= IDA_MAX_REASSEMBLY)%nat -> timely mine (Some l') es ->
  message_of f l frs ∈ snd (run ctx es).
Proof.
  revert ctx done todo l' j s. induction es as [|e es IH];
    intros ctx done todo l' j s Hfrs Hd Ht Hc Hl' Hown Hh Hmine Hbok Hfor Hroom Htime.
  { cbn in Hmine. congruence. }
  rewrite run_cons. cbn [snd]. apply elem_of_app.
  destruct e as [b|now]; cbn [do_event].
  - unfold others_foreign in Hfor. rewrite bursts_cons in Hmine, Hbok, Hfor.
    apply Forall_app in Hbok as [Hb Hbok], Hfor as [Hf Hfor]. rewrite Forall_singleton in Hb, Hf.
    rewrite openings_cons in Hroom. cbn [app List.filter] in Hmine. cbn [timely] in Htime.
    destruct (mine b) eqn:Hmb.
    + destruct todo as [|b' todo]; [done|]. injection Hmine as <- Hmine.
      destruct (own_step ctx done b todo l' j s Hfrs Hd Hc Hl' Hb Hown Hh) as (Hc' & Hh' & Hj & Ha & Hws & ->).
      pose proof Hchain as Hch. rewrite Hfrs in Hch.
      destruct todo as [|b2 todo].
      * assert (b = l) as -> by (apply chain_last in Hch, Hc'; congruence).
        rewrite Hlast, Z.eqb_refl. left. cbn. rewrite Hfrs. set_solver.
      * destruct (chain_split f l (done ++ [b]) b2 todo) as (l3 & Hc3 & Hcont3 & _);
          [by rewrite <- app_assoc|by destruct done|].
        assert (l3 = b) as -> by (apply chain_last in Hc3, Hc'; congruence).
        rewrite (proj2 (Z.eqb_neq _ _) Hcont3). right. cbn [fst].
        eapply (IH _ (done ++ [b]) (b2 :: todo) b j (append b s)); try done.
        -- by rewrite <- app_assoc.
        -- by destruct done.
        -- eapply owned_update; [done|done|by apply append_wf|done|]. by intros i si [= <- _].
        -- pose proof (count_active_insert ctx j s (append b s) Hj). cbn [active append] in *. lia.
    + right. assert (Forall (foreign b) frs) as Hfb by auto.
      assert (foreign b f) as Hbf.
      { destruct (chain_head _ _ _ Hchain) as [frs' E]. rewrite E in Hfb. by apply Forall_inv in Hfb. }
      destruct (foreign_step Q (Some (j, s)) ctx b Hb Hown (own_no_match j s l' done b Hh Hbf)
        (foreign_Q b Hfb) ltac:(lia)) as [Hown' Hcount].
      eapply (IH _ done todo l' j s); try done. lia.
  - right. cbn [timely] in Htime. destruct Htime as [Hnow Htime].
    eapply (IH _ done todo l' j s); try done.
    + apply flush_owned; [done|]. intros i si [= <- <-]. unfold flush_slot.
      destruct Hh as (_ & _ & H3 & _). rewrite H3. destruct Hl' as (_ & _ & _ & _ & Hts).
      rewrite u64_small by (unfold time_window in *; lia).
      rewrite (proj2 (Z.ltb_ge _ _)) by lia. by rewrite andb_false_r.
    + cbn [fst]. pose proof (count_active_flush ctx now). unfold openings in *. rewrite bursts_cons in Hroom.
      cbn [app] in Hroom. lia.
Qed.

(** The first fragment takes a free slot, or is the whole message. *)
Lemma first_step ctx todo : frs = f :: todo -> burst_ok f -> owned Q None ctx ->
  (count_active ctx + Nat.b2n (opens f) <= IDA_MAX_REASSEMBLY)%nat ->
  if ib_cont f =? 0 then snd (ida_reassemble ctx f) = Some (message_of f f [f])
  else exists j s, owned Q (Some (j, s)) (fst (ida_reassemble ctx f)) /\ holds f f [f] s /\
    (count_active (fst (ida_reassemble ctx f)) <= count_active ctx + Nat.b2n (opens f))%nat.
Proof.
  intros Hfrs Hf Hown Hroom. destruct (chain_first _ _ _ Hchain) as [Hg H0].
  pose proof Hown as (Hlen & Hwf & _ & Hq).
  assert (find_slot (slot_matches f) 0 ctx = None) as Hnone.
  { destruct (find_slot _ _ _) as [i|] eqn:E; [|done]. apply find_slot_some in E as (t & Hi & Ht).
    assert (active t = true) as Hat by (unfold slot_matches in Ht; by bsplit).
    destruct (Hq i t Hi Hat) as [?|HQ]; [done|]. unfold Q in HQ. rewrite Hfrs in HQ.
    rewrite (off_channel_no_match f t (Forall_inv HQ)) in Ht. done. }
  unfold ida_reassemble. rewrite good_guard, Hnone, H0 by done. cbn [Z.eqb andb].
  destruct (Z.eqb_spec (ib_cont f) 0) as [Hz|Hz]; cbn [negb fst snd].
  - f_equal. unfold message_of, assemble, assemble_step, payload_of. cbn [fold_left List.length Nat.add].
    destruct Hf as (Hl & _). by rewrite (proj2 (Nat.leb_le _ _)) by lia.
  - assert (opens f = true) as Hop.
    { unfold opens. destruct Hg as [-> Hn]. by rewrite H0, (proj2 (Z.eqb_neq _ _) Hz), (proj2 (Z.eqb_neq _ _) Hn). }
    rewrite Hop in *. cbn [Nat.b2n] in *.
    destruct (exists_inactive ctx ltac:(rewrite Hlen; lia)) as (s0 & Hs0 & Hi0).
    destruct (find_victim_free 0 ctx None (2 ^ 64 - 1) s0 Hs0 Hi0) as (k & s & -> & Hk & Hka).
    cbn [default from_option id Nat.add]. rewrite list_lookup_total_alt, Hk. cbn [from_option id].
    assert (slot_wf s) as Hws by (by eapply Forall_lookup_1).
    exists k, (start_slot f s). split_and!.
    + eapply owned_update; [done|done|by apply start_slot_wf|done|done].
    + by apply start_holds.
    + pose proof (count_active_insert ctx k s (start_slot f s) Hk). rewrite Hka in *.
      cbn [active start_slot Nat.b2n] in *. lia.
Qed.

(** The whole chain, from before its first fragment. *)
Lemma deliver es ctx :
  owned Q None ctx -> List.filter mine (bursts es) = frs -> Forall burst_ok (bursts es) ->
  others_foreign es -> (count_active ctx + openings es <= IDA_MAX_REASSEMBLY)%nat -> timely mine None es ->
  message_of f l frs ∈ snd (run ctx es).
Proof.
  revert ctx. induction es as [|e es IH]; intros ctx Hown Hmine Hbok Hfor Hroom Htime.
  { destruct (chain_head _ _ _ Hchain) as [frs' E]. cbn in Hmine. congruence. }
  rewrite run_cons. cbn [snd]. apply elem_of_app. destruct e as [b|now]; cbn [do_event].
  - unfold others_foreign in Hfor. rewrite bursts_cons in Hmine, Hbok, Hfor.
    apply Forall_app in Hbok as [Hb Hbok], Hfor as [Hf Hfor]. rewrite Forall_singleton in Hb, Hf.
    rewrite openings_cons in Hroom. cbn [app List.filter] in Hmine. cbn [timely] in Htime.
    destruct (mine b) eqn:Hmb.
    + destruct (chain_head _ _ _ Hchain) as [todo E]. rewrite E in Hmine. injection Hmine as -> Hmine.
      pose proof (first_step ctx todo E Hb Hown ltac:(lia)) as Hfs.
      pose proof Hchain as Hch. rewrite E in Hch. destruct todo as [|b2 todo].
      * apply chain_last in Hch. injection Hch as ->. rewrite Hlast, Z.eqb_refl in Hfs. rewrite Hfs, E.
        left. cbn. set_solver.
      * destruct (chain_split f l [f] b2 todo Hch ltac:(done)) as (l3 & Hc3 & Hcont3 & _).
        assert (l3 = f) as -> by (apply chain_last in Hc3; injection Hc3; congruence).
        rewrite (proj2 (Z.eqb_neq _ _) Hcont3) in Hfs. destruct Hfs as (j & s & Hown' & Hh & Hcount).
        right. eapply (deliver_open es _ [f] (b2 :: todo) f j s); try done. lia.
    + right. assert (Forall (foreign b) frs) as Hfb by auto.
      destruct (foreign_step Q None ctx b Hb Hown ltac:(done) (foreign_Q b Hfb) ltac:(lia)) as [Hown' Hcount].
      apply IH; try done. lia.
  - right. apply IH; try done.
    + by apply flush_owned.
    + cbn [fst]. pose proof (count_active_flush ctx now). unfold openings in *. rewrite bursts_cons in Hroom.
      cbn [app] in Hroom. lia.
    + by destruct Htime.
Qed.
End interleaved.

(** ** Bounds and flushing *)

Lemma assemble_bounds frs : Forall burst_ok frs -> (List.length (assemble frs) <= 256)%nat.
Proof.
  intros H. unfold assemble. assert (List.length (@nil Z) <= 256)%nat as H0 by (cbn; lia). revert H0.
  generalize (@nil Z). induction H as [|b frs Hb _ IH]; intros acc Ha; [done|].
  cbn [fold_left]. apply IH. by apply length_assemble_step.
Qed.

Lemma assemble_mono frs acc : (List.length acc <= List.length (fold_left assemble_step frs acc))%nat.
Proof.
  revert acc. induction frs as [|b frs IH]; intros acc; [done|]. cbn [fold_left].
  etransitivity; [|apply IH]. unfold assemble_step. destruct (_ <=? _)%nat; [rewrite length_app|]; lia.
Qed.

Lemma chain_assemble_pos f l frs : chain f l frs -> Forall burst_ok frs -> (0 < List.length (assemble frs))%nat.
Proof.
  intros Hc Hok. destruct (chain_first _ _ _ Hc) as [[_ Hn] _]. destruct (chain_head _ _ _ Hc) as [frs' ->].
  apply Forall_inv in Hok. pose proof Hok as (Hl & _). unfold assemble. cbn [fold_left].
  eapply Nat.lt_le_trans; [|apply assemble_mono]. unfold assemble_step. cbn [List.length Nat.add].
  rewrite (proj2 (Nat.leb_le _ _)), length_app, length_payload_of by (done || lia). cbn [List.length]. lia.
Qed.

Lemma find_slot_map p g i slots : (forall s, s ∈ slots -> p (g s) = p s) ->
  find_slot p i (map g slots) = find_slot p i slots.
Proof.
  revert i. induction slots as [|s slots IH]; intros i H; [done|]. cbn [map find_slot].
  rewrite H by set_solver. destruct (p s); [done|]. apply IH. intros t Ht. apply H. set_solver.
Qed.

Lemma flush_no_match now b s :
  burst_ok b -> now <= ib_timestamp b -> 0 <= last_timestamp s -> last_timestamp s + time_window < 2 ^ 64 ->
  slot_matches b (flush_slot now s) = slot_matches b s.
Proof.
  intros (_ & _ & _ & _ & Ht) Hnow H0 H1. unfold flush_slot. destruct (active s) eqn:Ha; [|done]. cbn [andb].
  unfold time_window in H1 |- *. rewrite u64_small by lia.
  destruct (Z.ltb_spec (last_timestamp s + 280000000) now) as [Hlt|]; [|done].
  assert (slot_matches b s = false) as ->; [|done]. unfold slot_matches, time_window.
  rewrite u64_small by lia. rewrite (proj2 (Z.ltb_lt 280000000 (ib_timestamp b - last_timestamp s))) by lia.
  cbn [negb]. by rewrite andb_false_r.
Qed.

(** ** What was sent, and what is put together *)

Lemma assemble_fits frs acc : Forall burst_ok frs -> (List.length acc + List.length (contents frs) <= 256)%nat ->
  fold_left assemble_step frs acc = acc ++ contents frs.
Proof.
  intros H. revert acc. induction H as [|b frs Hb _ IH]; intros acc Hl; [by rewrite app_nil_r|].
  cbn [fold_left contents flat_map] in *. rewrite length_app, length_payload_of in Hl by done. fold (contents frs) in *.
  assert (assemble_step acc b = acc ++ payload_of b) as -> by (unfold assemble_step; by rewrite (proj2 (Nat.leb_le _ _)) by lia).
  rewrite IH by (rewrite length_app, length_payload_of by done; lia).
  by rewrite app_assoc.
Qed.

Lemma assemble_keeps frs acc : exists kept, kept `sublist_of` frs /\ fold_left assemble_step frs acc = acc ++ contents kept.
Proof.
  revert acc. induction frs as [|b frs IH]; intros acc; [exists []; split; [done|by rewrite app_nil_r]|]. cbn [fold_left].
  destruct (IH (assemble_step acc b)) as (kept & Hk & E). rewrite E. unfold assemble_step. destruct (_ <=? _)%nat.
  - exists (b :: kept). split; [by constructor|]. cbn [contents flat_map]. by rewrite app_assoc.
  - exists kept. split; [by constructor|done].
Qed.

Lemma message_of_for f l frs : Forall burst_ok frs -> message_for f l frs (message_of f l frs).
Proof.
  intros H. repeat split; cbn [m_data message_of].
  - intros Hl. unfold assemble. by rewrite assemble_fits.
  - intros _. destruct (assemble_keeps frs []) as (kept & Hk & E). exists kept. split; [done|]. split; [exact E|by apply assemble_bounds].
Qed.

(** ** Concrete inputs for the witnesses *)

Definition demo_burst (freq ctr cont len byte ts : Z) : ida_burst := {|
  ib_timestamp := ts; ib_frequency := f64_of_Z freq; ib_direction := DIR_DOWNLINK;
  ib_magnitude := f32_of_Z 20; ib_noise := f32_of_Z (-80); ib_level := f32_of_Z 1;
  ib_confidence := 95; ib_n_symbols := 191; ib_da_ctr := ctr; ib_da_len := len; ib_cont := cont;
  ib_payload := replicate (Z.to_nat len) byte ++ replicate (32 - Z.to_nat len) 0;
  ib_payload_len := len; ib_crc_ok := true; ib_stored_crc := 0; ib_computed_crc := 0; ib_fixederrs := 0;
  ib_bch_stream := replicate 256 0; ib_bch_len := 200; ib_lcw := Lcw 2 1 0 0 0 0; ib_lcw_header := String.EmptyString |}.

(** Three fragments of one channel, two of another, and a flush in between. *)
Definition demo_frs : list ida_burst :=
  [demo_burst 1626000000 0 1 20 1 1000; demo_burst 1626000100 1 1 20 2 90001000;
   demo_burst 1626000050 2 0 7 3 180001000].
Definition demo_events : list event :=
  [Burst (demo_burst 1626000000 0 1 20 1 1000);
   Burst (demo_burst 1626041667 0 1 20 8 2000);
   Burst (demo_burst 1626000100 1 1 20 2 90001000);
   Flush 90001000;
   Burst (demo_burst 1626041667 1 0 4 9 90002000);
   Burst (demo_burst 1626000050 2 0 7 3 180001000)].
Definition demo_mine (b : ida_burst) : bool := negb (f64_gtb (ib_frequency b) (f64_of_Z 1626020000)).

Lemma demo_chain : chain (demo_burst 1626000000 0 1 20 1 1000) (demo_burst 1626000050 2 0 7 3 180001000) demo_frs.
Proof.
  unfold demo_frs.
  change [?a; ?b; ?c] with (([a] ++ [b]) ++ [c]).
  eapply chain_next; [eapply chain_next; [apply chain_start| | |]| | |]; try done; eval_dec.
Qed.

(** * Properties *)

(** C9 (refinement). Nothing but real messages is delivered: whatever bursts and
    flushes arrive, in whatever order and interleaving, every message handed to
    the callback is that of a chain of received fragments: counters consecutive
    from 0, one direction, frequencies and gaps within the windows, complete, in
    order.  Its data are those of all fragments when they have at most 256 bytes;
    of a longer chain whole fragments are missing. *)
Theorem reassembly_refines_chains (es : list event) (m : ida_message) :
  Forall burst_ok (bursts es) -> m ∈ snd (run ctx_init es) ->
  exists f l frs, frs `sublist_of` bursts es /\ chain f l frs /\ ib_cont l = 0 /\ message_for f l frs m.
Proof.
  intros Hok Hm. destruct (run_inv [] ctx_init es Hok ctx_init_inv) as [_ H]. destruct (H m Hm) as (f & l & frs & Hs & Hc & Hl & ->).
  exists f, l, frs. split; [done|]. split; [done|]. split; [done|]. apply message_of_for.
  rewrite Forall_forall in Hok |- *. intros b Hb. apply Hok. by eapply elem_of_sublist.
Qed.

Lemma reassembly_refines_chains_witness :
  exists m f l frs, m ∈ snd (run ctx_init demo_events) /\ chain f l frs /\ message_for f l frs m.
Proof.
  destruct (reassembly_refines_chains demo_events
    (Message (replicate 20 8 ++ replicate 4 9) 90002000 (f64_of_Z 1626041667) DIR_DOWNLINK (f32_of_Z 20)))
    as (f & l & frs & _ & Hc & _ & Hm).
  - eval_dec.
  - vm_compute. by left.
  - exists (Message (replicate 20 8 ++ replicate 4 9) 90002000 (f64_of_Z 1626041667) DIR_DOWNLINK (f32_of_Z 20)).
    exists f, l, frs. split; [vm_compute; by left|]. split; [exact Hc|exact Hm].
Defined.

(** C16 (liveness). Every message of at most 256 bytes that is sent is delivered: a
    chain of fragments is handed over with the data of all of them, in the middle
    of any traffic of other channels, as long as there are slots for all messages
    opened and the flushes come in time. *)
Theorem interleaved_delivery mine f l frs ctx es :
  chain f l frs -> ib_cont l = 0 -> (List.length (contents frs) <= 256)%nat ->
  owned (fun d fq => Forall (fun b => off_channel b d fq) frs) None ctx ->
  List.filter mine (bursts es) = frs -> Forall burst_ok (bursts es) -> others_foreign mine frs es ->
  (count_active ctx + openings es <= IDA_MAX_REASSEMBLY)%nat -> timely mine None es ->
  Message (contents frs) (ib_timestamp l) (ib_frequency f) (ib_direction f) (ib_magnitude l) ∈ snd (run ctx es).
Proof.
  intros Hc Hl Hn Ho Hf Hok Hot Hs Ht. assert (Forall burst_ok frs) as Hfr.
  { rewrite <- Hf. rewrite List.Forall_forall in Hok |- *. intros b Hb. apply List.filter_In in Hb as [Hb _]. by apply Hok. }
  replace (contents frs) with (assemble frs) by (unfold assemble; by rewrite assemble_fits).
  change (message_of f l frs ∈ snd (run ctx es)). by apply (deliver mine).
Qed.

Lemma ctx_init_owned Q : owned Q None ctx_init.
Proof.
  split_and!; [done| |done|].
  - apply Forall_replicate. split; [done|]. cbn. lia.
  - intros i s [-> _]%lookup_replicate_1. done.
Qed.

Lemma interleaved_delivery_witness :
  Message (replicate 20 1 ++ replicate 20 2 ++ replicate 7 3) 180001000 (f64_of_Z 1626000000) DIR_DOWNLINK (f32_of_Z 20)
    ∈ snd (run ctx_init demo_events).
Proof.
  apply (interleaved_delivery demo_mine (demo_burst 1626000000 0 1 20 1 1000) (demo_burst 1626000050 2 0 7 3 180001000) demo_frs); try done.
  - apply demo_chain.
  - vm_compute. lia.
  - apply ctx_init_owned.
  - eval_dec.
  - eval_dec.
  - vm_compute. lia.
Defined.

(** The 16 slots stay within their buffers in every run, and every
    delivered message has between 1 and 256 bytes. *)
Theorem reassembly_bounded (es : list event) :
  Forall burst_ok (bursts es) ->
  List.length (fst (run ctx_init es)) = IDA_MAX_REASSEMBLY /\
  Forall slot_wf (fst (run ctx_init es)) /\
  Forall (fun m => 0 < List.length (m_data m) <= 256)%nat (snd (run ctx_init es)).
Proof.
  intros Hok. destruct (run_inv [] ctx_init es Hok ctx_init_inv) as [[Hl Hf] Hm]. split_and!; [done| |].
  - eapply Forall_impl; [exact Hf|]. by intros s [Hw _].
  - apply Forall_forall. intros m Hin. destruct (Hm m Hin) as (f & l & frs & Hs & Hc & _ & ->). cbn [m_data message_of].
    assert (Forall burst_ok frs) as Hfok.
    { rewrite Forall_forall in Hok |- *. intros b Hb. apply Hok. by eapply elem_of_sublist. }
    split; [by eapply chain_assemble_pos|by apply assemble_bounds].
Qed.

Lemma reassembly_bounded_witness :
  Forall (fun m => 0 < List.length (m_data m) <= 256)%nat (snd (run ctx_init demo_events)).
Proof. apply (reassembly_bounded demo_events). eval_dec. Defined.

(** Flushing is invisible to what comes later: it never changes the
    message a burst with the same or a later timestamp completes. *)
Theorem flush_transparent ctx now b :
  burst_ok b -> now <= ib_timestamp b ->
  Forall (fun s => 0 <= last_timestamp s /\ last_timestamp s + time_window < 2 ^ 64) ctx ->
  snd (ida_reassemble (ida_reassemble_flush ctx now) b) = snd (ida_reassemble ctx b).
Proof.
  intros Hb Hnow Hts. rewrite Forall_forall in Hts. unfold ida_reassemble.
  destruct (_ || _); [done|]. unfold ida_reassemble_flush.
  rewrite (find_slot_map (slot_matches b) (flush_slot now)) by (intros s Hs; apply flush_no_match; [done..| |]; apply Hts, Hs).
  destruct (find_slot _ _ _) as [i|] eqn:E; [|by repeat case_match].
  apply find_slot_some in E as (s & Hi & Hm).
  assert (flush_slot now s = s) as Hsame.
  { destruct (Hts s ltac:(by eapply list_elem_of_lookup_2)) as [H0 H1].
    rewrite <- (flush_no_match now b s Hb Hnow H0 H1) in Hm. unfold flush_slot in *. by destruct (active s && _). }
  rewrite !list_lookup_total_alt, list_lookup_fmap, Hi. cbn [fmap option_fmap option_map from_option id].
  rewrite Hsame. by destruct (ib_cont b =? 0).
Qed.

Lemma flush_transparent_witness :
  snd (ida_reassemble (ida_reassemble_flush (fst (run ctx_init (take 3 demo_events))) 400000000)
        (demo_burst 1626000050 2 0 7 3 400000000)) = None.
Proof.
  rewrite (flush_transparent (fst (run ctx_init (take 3 demo_events))) 400000000 (demo_burst 1626000050 2 0 7 3 400000000));
    [vm_compute; reflexivity|eval_dec|vm_compute; discriminate|eval_dec].
Defined.

(** A message longer than the buffer is still delivered, with the fragments that
    did not fit left out: twelve fragments of 20 bytes, a thirteenth that is
    skipped, and a last one of 10 bytes that is kept. *)
Definition oversized : list event :=
  map (fun i => Burst (demo_burst 1626000000 (Z.of_nat i mod 8) (if (i =? 13)%nat then 0 else 1)
                        (if (i =? 13)%nat then 10 else 20) (Z.of_nat i) (Z.of_nat i))) (seq 0 14).

Theorem oversized_message_has_gap :
  exists m, snd (run ctx_init oversized) = [m] /\
    m_data m = List.concat (map (fun i => replicate 20 (Z.of_nat i)) (seq 0 12)) ++ replicate 10 13.
Proof. eexists. split; vm_compute; reflexivity. Qed.
