(* ===== verification/Sbd.v ===== *)
(** Short Burst Data packets, [src/sbd_acars.c]: recognition and header parsing
    of an IDA message, and reassembly of multi-packet messages.

    The static array [sbd_multi] and the packet counters are the record
    [sbd_state]; a call of [sbd_process] is the packet it is called with. *)
From S2P Require Import Prelude CFloat CString QpskDemod LcwFormat IdaDecode IdaReassemble.

(** * Data *)

Definition SBD_MAX_MULTI : nat := 8.
Definition SBD_MAX_DATA : nat := 1024.
Definition SBD_TIMEOUT_NS : Z := 5000000000.

(** [sbd_multi_t]; [sm_data] is the 1024-byte array. *)
Record sbd_multi_t := SbdMulti {
  sm_active : bool;
  sm_msgno : Z;
  sm_msgcnt : Z;
  sm_ul : bool;
  sm_timestamp : Z;
  sm_frequency : f64;
  sm_magnitude : f32;
  sm_data : list Z;
  sm_data_len : nat;
}.

Definition multi_zero : sbd_multi_t :=
  SbdMulti false 0 0 false 0 (S754_zero false) (S754_zero false) (replicate SBD_MAX_DATA 0) 0.
#[export] Instance sbd_multi_inhabited : Inhabited sbd_multi_t := populate multi_zero.

(** The [stat_*] counters of this part. *)
Record sbd_stats := SbdStats {
  stat_ida_total : Z;
  stat_sbd_total : Z;
  stat_sbd_short : Z;
  stat_sbd_single : Z;
  stat_sbd_multi_ok : Z;
  stat_sbd_multi_frag : Z;
  stat_sbd_broken : Z;
}.

Record sbd_state := SbdState { sbd_multi : list sbd_multi_t; stats : sbd_stats }.

(** After [acars_init]. *)
Definition sbd_init : sbd_state :=
  SbdState (replicate SBD_MAX_MULTI multi_zero) (SbdStats 0 0 0 0 0 0 0).

(** The arguments of [sbd_process]. *)
Record sbd_packet := SbdPacket {
  p_data : list Z;
  p_ul : bool;
  p_timestamp : Z;
  p_frequency : f64;
  p_magnitude : f32;
}.

(** * Parsing *)

(** The marker test. *)
Definition is_sbd (data : list Z) (ul : bool) : bool :=
  if (data.[0] =? 0x76) && negb (data.[1] =? 5) then
    if ul then (0x0c <=? data.[1]) && (data.[1] <=? 0x0e)
    else (0x08 <=? data.[1]) && (data.[1] <=? 0x0b)
  else if (data.[0] =? 0x06) && (data.[1] =? 0x00) then
    (data.[2] =? 0x00) || (data.[2] =? 0x10) || (data.[2] =? 0x20) ||
    (data.[2] =? 0x40) || (data.[2] =? 0x50) || (data.[2] =? 0x70)
  else false.

(** The header of type 06/00: [Some (msgno, msgcnt, sbd_data)], or [None] for
    the early return. *)
Definition parse_0600 (data : list Z) : option (Z * Z * list Z) :=
  if (List.length data <? 30)%nat || negb (data.[0] =? 0x20) then None
  else
    let msgcnt := data.[15] in
    Some (if msgcnt =? 0 then 0 else 1, msgcnt, drop 29 data).

(** The packet after the optional pre-header. *)
Definition parse_packet (data : list Z) (ul : bool) (msgcnt : Z) : option (Z * Z * list Z) :=
  let data := if ul && (3 <=? List.length data)%nat && ((data.[0] =? 0x50) || (data.[0] =? 0x51))
              then drop 3 data else data in
  if (List.length data =? 0)%nat then Some (0, msgcnt, [])
  else if (3 <? List.length data)%nat && (data.[0] =? 0x10) then
    let pkt_len := Z.to_nat (data.[1]) in
    let msgno := data.[2] in
    let data := drop 3 data in
    if (List.length data <? pkt_len)%nat then None
    else Some (msgno, msgcnt, take pkt_len data)
  else Some (0, msgcnt, data).

Definition parse_76 (typ1 : Z) (data : list Z) (ul : bool) : option (Z * Z * list Z) :=
  if typ1 =? 0x08 then
    if (List.length data <? 5)%nat then None
    else
      let prehdr_len := if data.[0] =? 0x26 then 7%nat else if data.[0] =? 0x20 then 5%nat else 7%nat in
      if (List.length data <? prehdr_len)%nat then None
      else parse_packet (drop prehdr_len data) ul (data.[3])
  else parse_packet data ul (-1).

(** All of the header parsing of [sbd_extract], after the marker test. *)
Definition sbd_parse (data : list Z) (ul : bool) : option (Z * Z * list Z) :=
  let typ0 := data.[0] in
  let typ1 := data.[1] in
  let data := drop 2 data in
  if (typ0 =? 0x06) && (typ1 =? 0x00) then parse_0600 data else parse_76 typ1 data ul.

(** * Reassembly *)

Definition set_sm_inactive (s : sbd_multi_t) : sbd_multi_t :=
  SbdMulti false (sm_msgno s) (sm_msgcnt s) (sm_ul s) (sm_timestamp s) (sm_frequency s)
    (sm_magnitude s) (sm_data s) (sm_data_len s).

Definition expire_slot (now_ns : Z) (s : sbd_multi_t) : sbd_multi_t :=
  if sm_active s && (u64 (sm_timestamp s + SBD_TIMEOUT_NS) <? now_ns) then set_sm_inactive s else s.

Definition sbd_expire (slots : list sbd_multi_t) (now_ns : Z) : list sbd_multi_t :=
  map (expire_slot now_ns) slots.

Fixpoint first_free (i : nat) (slots : list sbd_multi_t) : option nat :=
  match slots with
  | [] => None
  | s :: slots => if negb (sm_active s) then Some i else first_free (i + 1) slots
  end.

Fixpoint oldest_slot (i : nat) (slots : list sbd_multi_t) (idx : option nat) (oldest : Z) : option nat :=
  match slots with
  | [] => idx
  | s :: slots =>
      if sm_timestamp s <? oldest then oldest_slot (i + 1) slots (Some i) (sm_timestamp s)
      else oldest_slot (i + 1) slots idx oldest
  end.

Definition pick_slot (slots : list sbd_multi_t) : nat :=
  match first_free 0 slots with
  | Some i => i
  | None => default 0%nat (oldest_slot 0 slots None (2 ^ 64 - 1))
  end.

Definition open_multi (msgno msgcnt : Z) (ul : bool) (timestamp : Z) (frequency : f64) (magnitude : f32)
    (sbd_data : list Z) (s : sbd_multi_t) : sbd_multi_t :=
  let n := Nat.min (List.length sbd_data) SBD_MAX_DATA in
  SbdMulti true msgno msgcnt ul timestamp frequency magnitude (memcpy (sm_data s) 0 sbd_data n) n.

(** The continuation search, slot 7 downwards. *)
Definition continues_multi (msgno : Z) (ul : bool) (s : sbd_multi_t) : bool :=
  sm_active s && Bool.eqb (sm_ul s) ul && (msgno =? sm_msgno s + 1).

Fixpoint find_down (p : sbd_multi_t -> bool) (slots : list sbd_multi_t) (n : nat) : option nat :=
  match n with
  | O => None
  | S n => if p (slots !!! n) then Some n else find_down p slots n
  end.

Definition append_multi (msgno timestamp : Z) (sbd_data : list Z) (s : sbd_multi_t) : sbd_multi_t :=
  let space := (SBD_MAX_DATA - sm_data_len s)%nat in
  let copy := Nat.min (List.length sbd_data) space in
  SbdMulti (sm_active s) msgno (sm_msgcnt s) (sm_ul s) timestamp (sm_frequency s) (sm_magnitude s)
    (memcpy (sm_data s) (sm_data_len s) sbd_data copy) (sm_data_len s + copy).

(** Counter updates. *)
Definition bump_total (c : sbd_stats) := SbdStats (stat_ida_total c) (stat_sbd_total c + 1)
  (stat_sbd_short c) (stat_sbd_single c) (stat_sbd_multi_ok c) (stat_sbd_multi_frag c) (stat_sbd_broken c).
Definition bump_short (c : sbd_stats) := SbdStats (stat_ida_total c) (stat_sbd_total c)
  (stat_sbd_short c + 1) (stat_sbd_single c) (stat_sbd_multi_ok c) (stat_sbd_multi_frag c) (stat_sbd_broken c).
Definition bump_single (c : sbd_stats) := SbdStats (stat_ida_total c) (stat_sbd_total c)
  (stat_sbd_short c) (stat_sbd_single c + 1) (stat_sbd_multi_ok c) (stat_sbd_multi_frag c) (stat_sbd_broken c).
Definition bump_frag (ok : bool) (c : sbd_stats) := SbdStats (stat_ida_total c) (stat_sbd_total c)
  (stat_sbd_short c) (stat_sbd_single c) (stat_sbd_multi_ok c + Z.b2z ok) (stat_sbd_multi_frag c + 1) (stat_sbd_broken c).
Definition bump_broken (c : sbd_stats) := SbdStats (stat_ida_total c) (stat_sbd_total c)
  (stat_sbd_short c) (stat_sbd_single c) (stat_sbd_multi_ok c) (stat_sbd_multi_frag c) (stat_sbd_broken c + 1).

(** [sbd_extract] after parsing: [sbd_expire], then the four-way dispatch. *)
Definition sbd_dispatch (st : sbd_state) (msgno msgcnt : Z) (sbd_data : list Z) (ul : bool)
    (timestamp : Z) (frequency : f64) (magnitude : f32) : sbd_state * option sbd_packet :=
  let slots := sbd_expire (sbd_multi st) timestamp in
  let c := stats st in
  if msgno =? 0 then
    (SbdState slots (bump_short c),
     if (0 <? List.length sbd_data)%nat
     then Some (SbdPacket sbd_data ul timestamp frequency magnitude) else None)
  else if (msgcnt =? 1) && (msgno =? 1) then
    (SbdState slots (bump_single c), Some (SbdPacket sbd_data ul timestamp frequency magnitude))
  else if 1 <? msgcnt then
    let idx := pick_slot slots in
    (SbdState (<[idx := open_multi msgno msgcnt ul timestamp frequency magnitude sbd_data (slots !!! idx)]> slots) c,
     None)
  else if 1 <? msgno then
    match find_down (continues_multi msgno ul) slots SBD_MAX_MULTI with
    | Some i =>
        let s := append_multi msgno timestamp sbd_data (slots !!! i) in
        if msgno =? sm_msgcnt s then
          (SbdState (<[i := set_sm_inactive s]> slots) (bump_frag true c),
           Some (SbdPacket (take (sm_data_len s) (sm_data s)) ul timestamp (sm_frequency s) (sm_magnitude s)))
        else (SbdState (<[i := s]> slots) (bump_frag false c), None)
    | None => (SbdState slots (bump_broken c), None)
    end
  else (SbdState slots c, None).

(** [sbd_extract]. *)
Definition sbd_extract (st : sbd_state) (data : list Z) (ul : bool) (timestamp : Z)
    (frequency : f64) (magnitude : f32) : sbd_state * option sbd_packet :=
  if (List.length data <? 5)%nat then (st, None)
  else if negb (is_sbd data ul) then (st, None)
  else
    let st := SbdState (sbd_multi st) (bump_total (stats st)) in
    match sbd_parse data ul with
    | None => (st, None)
    | Some (msgno, msgcnt, sbd_data) => sbd_dispatch st msgno msgcnt sbd_data ul timestamp frequency magnitude
    end.

(** [acars_ida_cb]: the callback of the IDA assembler. *)
Definition acars_ida_cb (st : sbd_state) (m : ida_message) : sbd_state * option sbd_packet :=
  let c := stats st in
  let st := SbdState (sbd_multi st) (SbdStats (stat_ida_total c + 1) (stat_sbd_total c) (stat_sbd_short c)
    (stat_sbd_single c) (stat_sbd_multi_ok c) (stat_sbd_multi_frag c) (stat_sbd_broken c)) in
  let ul := bool_decide (m_direction m = DIR_UPLINK) in
  sbd_extract st (m_data m) ul (m_timestamp m) (m_frequency m) (m_magnitude m).

Fixpoint run_sbd (st : sbd_state) (ms : list ida_message) : sbd_state * list sbd_packet :=
  match ms with
  | [] => (st, [])
  | m :: ms =>
      let '(st1, o) := acars_ida_cb st m in
      let '(st2, ps) := run_sbd st1 ms in
      (st2, option_list o ++ ps)
  end.

(** * Abstract specification *)

(** One recognised and parsed packet. *)
Record frag := Frag {
  fr_no : Z; fr_cnt : Z; fr_bytes : list Z; fr_ul : bool; fr_ts : Z; fr_fq : f64; fr_mag : f32;
}.

Definition frag_of (m : ida_message) : option frag :=
  let ul := bool_decide (m_direction m = DIR_UPLINK) in
  if (List.length (m_data m) <? 5)%nat then None
  else if negb (is_sbd (m_data m) ul) then None
  else match sbd_parse (m_data m) ul with
       | Some (no, cnt, d) => Some (Frag no cnt d ul (m_timestamp m) (m_frequency m) (m_magnitude m))
       | None => None
       end.

(** A packet that is a message by itself, and the first of several. *)
Definition fr_whole (fr : frag) : Prop := fr_no fr = 0 \/ (fr_no fr = 1 /\ fr_cnt fr = 1).
Definition fr_first (fr : frag) : Prop := fr_no fr <> 0 /\ 1 < fr_cnt fr.

(** [sbd_chain f l frs]: a first packet and the ones that continue it, each one
    higher, in the same direction, at most five seconds after its predecessor. *)
Inductive sbd_chain : frag -> frag -> list frag -> Prop :=
| sbd_start f : fr_first f -> sbd_chain f f [f]
| sbd_next f l frs b : sbd_chain f l frs -> fr_ul b = fr_ul f -> fr_no b = fr_no l + 1 ->
    fr_ts b <= fr_ts l + SBD_TIMEOUT_NS -> sbd_chain f b (frs ++ [b]).

Definition chain_bytes (frs : list frag) : list Z := take SBD_MAX_DATA (List.concat (map fr_bytes frs)).

Definition whole_packet (fr : frag) : sbd_packet :=
  SbdPacket (fr_bytes fr) (fr_ul fr) (fr_ts fr) (fr_fq fr) (fr_mag fr).
Definition chain_packet (f l : frag) (frs : list frag) : sbd_packet :=
  SbdPacket (chain_bytes frs) (fr_ul f) (fr_ts l) (fr_fq f) (fr_mag f).

Definition multi_wf (s : sbd_multi_t) : Prop :=
  List.length (sm_data s) = SBD_MAX_DATA /\ (sm_data_len s <= SBD_MAX_DATA)%nat.

Definition multi_holds (f l : frag) (frs : list frag) (s : sbd_multi_t) : Prop :=
  sm_ul s = fr_ul f /\ sm_msgno s = fr_no l /\ sm_msgcnt s = fr_cnt f /\ sm_timestamp s = fr_ts l /\
  sm_frequency s = fr_fq f /\ sm_magnitude s = fr_mag f /\
  take (sm_data_len s) (sm_data s) = chain_bytes frs.

(** Timestamps far enough from wrapping. *)
Definition ts_ok (fr : frag) : Prop := 0 <= fr_ts fr /\ fr_ts fr + SBD_TIMEOUT_NS < 2 ^ 64.

(** * Lemmas *)

Definition dispatch (st : sbd_state) (fr : frag) : sbd_state * option sbd_packet :=
  sbd_dispatch st (fr_no fr) (fr_cnt fr) (fr_bytes fr) (fr_ul fr) (fr_ts fr) (fr_fq fr) (fr_mag fr).

(** The callback, packet by packet; counters do not influence the slots. *)
Lemma cb_slots st m :
  (sbd_multi (fst (acars_ida_cb st m)), snd (acars_ida_cb st m)) =
  match frag_of m with
  | None => (sbd_multi st, None)
  | Some fr => (sbd_multi (fst (dispatch st fr)), snd (dispatch st fr))
  end.
Proof.
  unfold acars_ida_cb, frag_of, sbd_extract. destruct (_ <? 5)%nat; [done|].
  destruct (negb _); [done|]. destruct (sbd_parse _ _) as [[[no cnt] d]|]; [|done].
  unfold dispatch, sbd_dispatch.
  cbn [fr_no fr_cnt fr_bytes fr_ul fr_ts fr_fq fr_mag sbd_multi stats].
  destruct (no =? 0); [done|]. destruct (_ && _); [done|]. destruct (1 <? cnt); [done|].
  destruct (1 <? no); [|done]. destruct (find_down _ _ _); [|done]. by destruct (_ =? _).
Qed.

Lemma first_free_spec i slots :
  match first_free i slots with
  | Some k => exists s, (i <= k)%nat /\ slots !! (k - i)%nat = Some s /\ sm_active s = false
  | None => forall s, s ∈ slots -> sm_active s = true
  end.
Proof.
  revert i. induction slots as [|s slots IH]; intros i; cbn [first_free]; [set_solver|].
  destruct (sm_active s) eqn:E; cbn [negb].
  - specialize (IH (i + 1)%nat). destruct (first_free _ _) as [k|].
    + destruct IH as (s' & Hk & Hl & Hp). exists s'. split; [lia|].
      replace (k - i)%nat with (S (k - (i + 1)))%nat by lia. done.
    + intros s' [->|Hs]%list_elem_of_In; [done|]. by apply IH, list_elem_of_In.
  - exists s. split; [lia|]. by rewrite Nat.sub_diag.
Qed.

Lemma oldest_slot_range i slots idx old :
  match oldest_slot i slots idx old with
  | Some k => idx = Some k \/ (i <= k < i + List.length slots)%nat
  | None => idx = None
  end.
Proof.
  revert i idx old. induction slots as [|s slots IH]; intros i idx old; cbn [oldest_slot List.length];
    [destruct idx; auto|].
  destruct (_ <? _).
  - specialize (IH (i + 1)%nat (Some i) (sm_timestamp s)). destruct (oldest_slot _ _ _ _) as [k|]; [|done].
    destruct IH as [[= <-]|IH]; right; lia.
  - specialize (IH (i + 1)%nat idx old). destruct (oldest_slot _ _ _ _) as [k|]; [|done].
    destruct IH as [->|IH]; [by left|right; lia].
Qed.

Lemma pick_slot_lt slots : (0 < List.length slots)%nat -> (pick_slot slots < List.length slots)%nat.
Proof.
  intros H. unfold pick_slot. pose proof (first_free_spec 0 slots) as Hf.
  destruct (first_free 0 slots) as [k|].
  - destruct Hf as (s & _ & Hl & _). rewrite Nat.sub_0_r in Hl. by eapply lookup_lt_Some.
  - pose proof (oldest_slot_range 0 slots None (2 ^ 64 - 1)) as Ho.
    destruct (oldest_slot _ _ _ _) as [k|]; cbn; [|lia]. destruct Ho as [?|?]; [done|lia].
Qed.

Lemma find_down_spec p slots n :
  match find_down p slots n with
  | Some k => (k < n)%nat /\ p (slots !!! k) = true
  | None => forall i, (i < n)%nat -> p (slots !!! i) = false
  end.
Proof.
  induction n as [|n IH]; cbn [find_down]; [lia|]. destruct (p (slots !!! n)) eqn:E; [split; [lia|done]|].
  destruct (find_down p slots n) as [k|]; [split; [lia|apply IH]|].
  intros i Hi. destruct (decide (i = n)) as [->|]; [done|]. apply IH. lia.
Qed.

Lemma take_concat_step (frs : list frag) b n :
  take n (List.concat (map fr_bytes (frs ++ [b]))) =
  take n (List.concat (map fr_bytes frs)) ++ take (n - List.length (take n (List.concat (map fr_bytes frs)))) (fr_bytes b).
Proof.
  rewrite map_app, concat_app. cbn [map List.concat]. rewrite app_nil_r.
  set (l := List.concat (map fr_bytes frs)). rewrite take_app, length_take.
  by replace (n - Nat.min n (List.length l))%nat with (n - List.length l)%nat by lia.
Qed.

Lemma append_multi_wf no ts d s : multi_wf s -> multi_wf (append_multi no ts d s).
Proof.
  intros [Hd Hn]. unfold multi_wf, append_multi. cbn [sm_data sm_data_len].
  rewrite length_memcpy by (rewrite ?Hd; lia). split; [done|lia].
Qed.

Lemma open_multi_wf no cnt ul ts fq mag d s : multi_wf s -> multi_wf (open_multi no cnt ul ts fq mag d s).
Proof.
  intros [Hd Hn]. unfold multi_wf, open_multi. cbn [sm_data sm_data_len].
  rewrite length_memcpy by (rewrite ?Hd; lia). split; [done|lia].
Qed.

Lemma append_multi_holds f l frs b s : multi_wf s -> multi_holds f l frs s ->
  multi_holds f b (frs ++ [b]) (append_multi (fr_no b) (fr_ts b) (fr_bytes b) s).
Proof.
  intros [Hd Hn] (H1 & H2 & H3 & H4 & H5 & H6 & H7). unfold multi_holds, append_multi.
  cbn [sm_ul sm_msgno sm_msgcnt sm_timestamp sm_frequency sm_magnitude sm_data sm_data_len].
  split_and!; try done. unfold chain_bytes. rewrite take_concat_step. fold (chain_bytes frs). rewrite <- H7.
  rewrite length_take, Hd, (Nat.min_l (sm_data_len s)) by lia. rewrite take_memcpy by (rewrite ?Hd; lia). f_equal.
  destruct (Nat.min_spec (List.length (fr_bytes b)) (SBD_MAX_DATA - sm_data_len s)) as [[Hlt ->]|[Hle ->]]; [|done].
  by rewrite !take_ge by lia.
Qed.

Lemma open_multi_holds f s : multi_wf s ->
  multi_holds f f [f] (open_multi (fr_no f) (fr_cnt f) (fr_ul f) (fr_ts f) (fr_fq f) (fr_mag f) (fr_bytes f) s).
Proof.
  intros [Hd Hn]. unfold multi_holds, open_multi.
  cbn [sm_ul sm_msgno sm_msgcnt sm_timestamp sm_frequency sm_magnitude sm_data sm_data_len].
  split_and!; try done. unfold chain_bytes. cbn [map List.concat]. rewrite app_nil_r.
  set (n := Nat.min _ _). change n with (0 + n)%nat at 1. rewrite take_memcpy by (unfold n; rewrite ?Hd; lia).
  rewrite take_0. cbn [app]. unfold n.
  destruct (Nat.min_spec (List.length (fr_bytes f)) SBD_MAX_DATA) as [[Hlt ->]|[Hle ->]]; [|done].
  by rewrite !take_ge by lia.
Qed.

Lemma expire_wf now s : multi_wf s -> multi_wf (expire_slot now s).
Proof. unfold expire_slot. by destruct (_ && _). Qed.

(** ** The invariant of every run *)

Definition multi_inv (hist : list frag) (s : sbd_multi_t) : Prop :=
  multi_wf s /\
  (sm_active s = true -> exists f l frs, frs `sublist_of` hist /\ sbd_chain f l frs /\ ts_ok l /\ multi_holds f l frs s).

Definition slots_inv (hist : list frag) (slots : list sbd_multi_t) : Prop :=
  List.length slots = SBD_MAX_MULTI /\ Forall (multi_inv hist) slots.

Lemma multi_inv_mono hist b s : multi_inv hist s -> multi_inv (hist ++ [b]) s.
Proof.
  intros [Hw Ha]. split; [done|]. intros Hact. destruct (Ha Hact) as (f & l & frs & Hs & H).
  exists f, l, frs. split; [by apply sublist_inserts_r|done].
Qed.

Lemma slots_inv_insert hist slots i s : slots_inv hist slots -> multi_inv hist s -> slots_inv hist (<[i := s]> slots).
Proof. intros [Hl Hf] Hs. split; [by rewrite length_insert|by apply Forall_insert]. Qed.

Lemma expire_inv hist slots now : slots_inv hist slots -> slots_inv hist (sbd_expire slots now).
Proof.
  intros [Hl Hf]. split; [by unfold sbd_expire; rewrite length_map|].
  apply Forall_map. eapply Forall_impl; [exact Hf|]. intros s [Hw Ha]. split; [by apply expire_wf|].
  unfold expire_slot. by destruct (_ && _).
Qed.

(** A slot that survives expiry is recent. *)
Lemma expire_recent now s : 0 <= sm_timestamp s -> sm_timestamp s + SBD_TIMEOUT_NS < 2 ^ 64 ->
  sm_active (expire_slot now s) = true -> expire_slot now s = s /\ now <= sm_timestamp s + SBD_TIMEOUT_NS.
Proof.
  intros H0 H1. unfold expire_slot. destruct (sm_active s) eqn:Ha; cbn [andb]; [|by rewrite Ha].
  rewrite u64_small by (unfold SBD_TIMEOUT_NS in *; lia).
  destruct (Z.ltb_spec (sm_timestamp s + SBD_TIMEOUT_NS) now); [done|]. intros _. split; [done|lia].
Qed.

(** Where a packet handed to [sbd_process] comes from. *)
Definition delivered (hist : list frag) (p : sbd_packet) : Prop :=
  (exists fr, fr ∈ hist /\ fr_whole fr /\ p = whole_packet fr) \/
  (exists f l frs, frs `sublist_of` hist /\ sbd_chain f l frs /\ fr_no l = fr_cnt f /\ p = chain_packet f l frs).

Lemma open_inv hist slots b : ts_ok b -> fr_first b -> slots_inv hist slots ->
  multi_inv (hist ++ [b]) (open_multi (fr_no b) (fr_cnt b) (fr_ul b) (fr_ts b) (fr_fq b) (fr_mag b)
                             (fr_bytes b) (slots !!! pick_slot slots)).
Proof.
  intros Hb Hf [Hl Hinv]. assert (multi_wf (slots !!! pick_slot slots)) as Hw.
  { destruct (lookup_lt_is_Some_2 slots (pick_slot slots)) as [s Hs].
    - apply pick_slot_lt. rewrite Hl. unfold SBD_MAX_MULTI. lia.
    - rewrite list_lookup_total_alt, Hs. by apply (proj1 (Forall_lookup _ _) Hinv _ _ Hs). }
  split; [by apply open_multi_wf|]. intros _. exists b, b, [b].
  split; [by apply sublist_inserts_l|]. split; [by constructor|]. split; [exact Hb|by apply open_multi_holds].
Qed.

(** The packet that continues slot [i] extends its chain. *)
Lemma cont_inv hist slots b i : ts_ok b -> slots_inv hist slots ->
  find_down (continues_multi (fr_no b) (fr_ul b)) (sbd_expire slots (fr_ts b)) SBD_MAX_MULTI = Some i ->
  let s := append_multi (fr_no b) (fr_ts b) (fr_bytes b) (sbd_expire slots (fr_ts b) !!! i) in
  multi_wf s /\
  exists f frs, frs ++ [b] `sublist_of` hist ++ [b] /\ sbd_chain f b (frs ++ [b]) /\
                fr_ul f = fr_ul b /\ multi_holds f b (frs ++ [b]) s.
Proof.
  intros Hb [Hl Hinv] Hfd. pose proof (find_down_spec (continues_multi (fr_no b) (fr_ul b))
    (sbd_expire slots (fr_ts b)) SBD_MAX_MULTI) as Hs. rewrite Hfd in Hs. destruct Hs as [Hi Hc].
  destruct (lookup_lt_is_Some_2 slots i ltac:(lia)) as [s0 Hs0].
  assert (sbd_expire slots (fr_ts b) !!! i = expire_slot (fr_ts b) s0) as E.
  { rewrite list_lookup_total_alt. unfold sbd_expire. by rewrite list_lookup_fmap, Hs0. }
  rewrite E in *. unfold continues_multi in Hc. bsplit. apply eqb_prop in H1.
  destruct (proj1 (Forall_lookup _ _) Hinv i s0 Hs0) as [Hw Ha].
  assert (sm_active s0 = true) as Hact by (unfold expire_slot in H; destruct (sm_active s0) eqn:Es; [done|]; cbn [andb] in H; congruence).
  destruct (Ha Hact) as (f & l & frs & Hsub & Hch & [Ht0 Ht1] & Hh).
  pose proof Hh as (E1 & E2 & _ & E4 & _).
  destruct (expire_recent (fr_ts b) s0) as [Hsame Hrec]; [lia..|done|]. rewrite Hsame in *.
  split; [by apply append_multi_wf|]. exists f, frs.
  split; [by apply sublist_app|]. split; [|split; [congruence|by eapply append_multi_holds]].
  apply (sbd_next f l frs b Hch); [congruence|lia|lia].
Qed.

Lemma dispatch_inv hist st b : ts_ok b -> slots_inv hist (sbd_multi st) ->
  slots_inv (hist ++ [b]) (sbd_multi (fst (dispatch st b))) /\
  forall p, snd (dispatch st b) = Some p -> delivered (hist ++ [b]) p.
Proof.
  intros Hb Hinv. pose proof (expire_inv _ _ (fr_ts b) Hinv) as Hexp.
  assert (slots_inv (hist ++ [b]) (sbd_expire (sbd_multi st) (fr_ts b))) as Hi.
  { destruct Hexp as [Hl Hf]. split; [done|]. eapply Forall_impl; [exact Hf|]. intros. by apply multi_inv_mono. }
  assert (b ∈ hist ++ [b]) as Hin by set_solver.
  unfold dispatch, sbd_dispatch. destruct (Z.eqb_spec (fr_no b) 0) as [H0|H0].
  { split; [done|]. intros p. cbn [snd]. destruct (_ <? _)%nat; [|done]. intros [= <-]. left. exists b.
    split; [done|]. split; [by left|done]. }
  destruct ((fr_cnt b =? 1) && (fr_no b =? 1)) eqn:E1.
  { bsplit. split; [done|]. cbn [snd]. intros p [= <-]. left. exists b. split; [done|]. split; [by right|done]. }
  destruct (Z.ltb_spec 1 (fr_cnt b)) as [Hc|Hc].
  { split; [|done]. apply slots_inv_insert; [done|]. by apply open_inv. }
  destruct (Z.ltb_spec 1 (fr_no b)) as [Hn|Hn]; [|by split].
  destruct (find_down _ _ _) as [i|] eqn:Hfd; [|by split].
  destruct (cont_inv hist (sbd_multi st) b i Hb Hinv Hfd) as (Hw & f & frs & Hsub & Hch & Hul & Hh).
  set (s := append_multi _ _ _ _) in *. clearbody s.
  destruct (Z.eqb_spec (fr_no b) (sm_msgcnt s)) as [Hlast|Hlast]; cbn [fst snd sbd_multi].
  - split; [apply slots_inv_insert; [done|]; split; [exact Hw|done]|]. intros p [= <-]. right.
    exists f, b, (frs ++ [b]). destruct Hh as (E & _ & E3 & _ & E5 & E6 & E7).
    split; [done|]. split; [done|]. split; [congruence|]. unfold chain_packet.
    by rewrite E5, E6, E7, Hul.
  - split; [|done]. apply slots_inv_insert; [done|]. split; [exact Hw|]. intros _. by exists f, b, (frs ++ [b]).
Qed.

Lemma sbd_init_inv : slots_inv [] (sbd_multi sbd_init).
Proof.
  split; [done|]. apply Forall_replicate. split; [|done]. split; [apply length_replicate|]. cbn. lia.
Qed.

Lemma run_sbd_inv hist st ms : Forall ts_ok (omap frag_of ms) -> slots_inv hist (sbd_multi st) ->
  slots_inv (hist ++ omap frag_of ms) (sbd_multi (fst (run_sbd st ms))) /\
  forall p, p ∈ snd (run_sbd st ms) -> delivered (hist ++ omap frag_of ms) p.
Proof.
  revert hist st. induction ms as [|m ms IH]; intros hist st Hok Hinv.
  - cbn. rewrite app_nil_r. split; [done|set_solver].
  - cbn [run_sbd]. pose proof (cb_slots st m) as Hcb. destruct (acars_ida_cb st m) as [st1 o].
    cbn [fst snd] in Hcb. cbn [omap list_omap] in *. destruct (frag_of m) as [fr|].
    + injection Hcb as E1 E2. apply Forall_cons in Hok as [Hfr Hok].
      destruct (dispatch_inv hist st fr Hfr Hinv) as [Hi Hp]. rewrite <- E1 in Hi. rewrite <- E2 in Hp.
      specialize (IH _ st1 Hok Hi). destruct (run_sbd st1 ms) as [st2 ps]. cbn [fst snd] in *.
      rewrite <- app_assoc in IH. destruct IH as [IH1 IH2]. split; [done|].
      intros p [Ho|Hps]%elem_of_app; [|by apply IH2].
      destruct o as [p'|]; [|set_solver]. apply list_elem_of_singleton in Ho as ->.
      destruct (Hp p' eq_refl) as [(b & Hb & Hw)|(f & l & frs & Hs & Hw)].
      * left. exists b. split; [|done]. apply elem_of_app. apply elem_of_app in Hb as [Hb|Hb]; [by left|].
        apply list_elem_of_singleton in Hb as ->. right. apply list_elem_of_here.
      * right. exists f, l, frs. split; [|done]. change (fr :: omap frag_of ms) with ([fr] ++ omap frag_of ms).
        rewrite app_assoc. by apply sublist_inserts_r.
    + injection Hcb as E1 E2. subst o. specialize (IH hist st1 Hok). rewrite E1 in IH. specialize (IH Hinv).
      destruct (run_sbd st1 ms) as [st2 ps]. exact IH.
Qed.

(** ** Delivery of a multi-packet message *)

(** Traffic that does not compete with direction [ul]: complete messages, and
    packets that continue something in the other direction. *)
Definition quiet (ul : bool) (b : frag) : Prop :=
  fr_whole b \/ (fr_cnt b <= 1 /\ (fr_no b <= 1 \/ fr_ul b <> ul)).

#[export] Instance fr_whole_dec b : Decision (fr_whole b).
Proof. unfold fr_whole. apply _. Defined.
#[export] Instance quiet_dec ul b : Decision (quiet ul b).
Proof. unfold quiet. apply _. Defined.
#[export] Instance ts_ok_dec b : Decision (ts_ok b).
Proof. unfold ts_ok. apply _. Defined.

Definition slots_wf (slots : list sbd_multi_t) : Prop :=
  List.length slots = SBD_MAX_MULTI /\ Forall multi_wf slots.

Lemma slots_wf_insert slots i s : slots_wf slots -> multi_wf s -> slots_wf (<[i := s]> slots).
Proof. intros [Hl Hw] Hs. split; [by rewrite length_insert|by apply Forall_insert]. Qed.

Lemma expire_slots_wf slots now : slots_wf slots -> slots_wf (sbd_expire slots now).
Proof.
  intros [Hl Hw]. split; [by unfold sbd_expire; rewrite length_map|].
  apply Forall_map. eapply Forall_impl; [exact Hw|]. intros s. apply expire_wf.
Qed.

Lemma expire_lookup slots now i : sbd_expire slots now !! i = expire_slot now <$> slots !! i.
Proof. apply list_lookup_fmap. Qed.

(** What such traffic may do to the slots. *)
Lemma quiet_dispatch ul st b : quiet ul b -> slots_wf (sbd_multi st) ->
  let slots' := sbd_multi (fst (dispatch st b)) in
  slots_wf slots' /\
  forall i s, sbd_multi st !! i = Some s -> exists s', slots' !! i = Some s' /\
    (s' = expire_slot (fr_ts b) s \/ (sm_active s = true /\ sm_ul s <> ul /\ sm_ul s' = sm_ul s)).
Proof.
  intros Hq Hw. cbn zeta. pose proof (expire_slots_wf _ (fr_ts b) Hw) as Hw'.
  assert (forall i s, sbd_multi st !! i = Some s -> exists s', sbd_expire (sbd_multi st) (fr_ts b) !! i = Some s' /\
    (s' = expire_slot (fr_ts b) s \/ (sm_active s = true /\ sm_ul s <> ul /\ sm_ul s' = sm_ul s))) as Hsame.
  { intros i s Hi. rewrite expire_lookup, Hi. eexists. split; [done|by left]. }
  unfold dispatch, sbd_dispatch. destruct (Z.eqb_spec (fr_no b) 0) as [H0|H0]; [by split|].
  destruct ((fr_cnt b =? 1) && (fr_no b =? 1)) eqn:E1; [by split|].
  destruct Hq as [[?|[Q1 Q2]]|[Hc Hn]]; [done|by rewrite Q1, Q2 in E1|].
  rewrite (proj2 (Z.ltb_ge _ _) Hc). destruct (Z.ltb_spec 1 (fr_no b)) as [Hgt|]; [|by split].
  destruct Hn as [?|Hul]; [lia|]. destruct (find_down _ _ _) as [k|] eqn:Hfd; [|by split].
  pose proof (find_down_spec (continues_multi (fr_no b) (fr_ul b))
    (sbd_expire (sbd_multi st) (fr_ts b)) SBD_MAX_MULTI) as Hs. rewrite Hfd in Hs. destruct Hs as [Hk Hcm].
  destruct (lookup_lt_is_Some_2 (sbd_multi st) k ltac:(rewrite (proj1 Hw); lia)) as [sk Hsk].
  assert (sbd_expire (sbd_multi st) (fr_ts b) !!! k = expire_slot (fr_ts b) sk) as Ek
    by (by rewrite list_lookup_total_alt, expire_lookup, Hsk).
  rewrite Ek in *. unfold continues_multi in Hcm. bsplit. apply eqb_prop in H2.
  assert (sm_active sk = true) as Ha
    by (unfold expire_slot in H; destruct (sm_active sk) eqn:Es; [done|]; cbn [andb] in H; congruence).
  assert (sm_ul (expire_slot (fr_ts b) sk) = sm_ul sk) as Eul by (unfold expire_slot; destruct (sm_active sk && _); reflexivity).
  assert (forall s', sm_ul s' = sm_ul sk -> multi_wf s' ->
    slots_wf (<[k := s']> (sbd_expire (sbd_multi st) (fr_ts b))) /\
    forall i s, sbd_multi st !! i = Some s -> exists t, <[k := s']> (sbd_expire (sbd_multi st) (fr_ts b)) !! i = Some t /\
      (t = expire_slot (fr_ts b) s \/ (sm_active s = true /\ sm_ul s <> ul /\ sm_ul t = sm_ul s))) as Hput.
  { intros s' Hu Hws. split; [by apply slots_wf_insert|]. intros i s Hi. destruct (decide (k = i)) as [->|Hne].
    - exists s'. split; [apply list_lookup_insert_eq; apply lookup_lt_is_Some_1; rewrite expire_lookup, Hi; by eexists|].
      right. rewrite Hi in Hsk. injection Hsk as <-. split_and!; [done|congruence|done].
    - rewrite list_lookup_insert_ne by done. by apply Hsame. }
  assert (multi_wf (append_multi (fr_no b) (fr_ts b) (fr_bytes b) (expire_slot (fr_ts b) sk))) as Hwa.
  { apply append_multi_wf, expire_wf. by eapply (Forall_lookup_1 _ _ _ _ (proj2 Hw)). }
  case_match; apply Hput; done.
Qed.

Lemma sbd_chain_inv f l frs : sbd_chain f l frs ->
  (frs = [f] /\ l = f /\ fr_first f) \/
  exists l' frs', frs = frs' ++ [l] /\ sbd_chain f l' frs' /\ fr_ul l = fr_ul f /\ fr_no l = fr_no l' + 1 /\
    fr_ts l <= fr_ts l' + SBD_TIMEOUT_NS.
Proof. intros H. destruct H as [f ?|f l frs b ? ? ? ?]; [left; done|right; eauto 10]. Qed.

Lemma sbd_chain_head f l frs : sbd_chain f l frs -> exists frs', frs = f :: frs'.
Proof. induction 1 as [f _|f l frs b _ (frs' & ->) _ _ _]; [by eexists|]. by exists (frs' ++ [b]). Qed.

Lemma sbd_chain_last f l frs : sbd_chain f l frs -> last frs = Some l.
Proof. intros [(-> & -> & _)|(l' & frs' & -> & _)]%sbd_chain_inv; [done|]. by rewrite last_snoc. Qed.

(** Every proper prefix is a chain that the next packet continues and whose
    number is below that of the last packet. *)
Lemma sbd_chain_split f l done b todo : sbd_chain f l (done ++ b :: todo) -> done <> [] ->
  exists l', sbd_chain f l' done /\ fr_ul b = fr_ul f /\ fr_no b = fr_no l' + 1 /\
    fr_ts b <= fr_ts l' + SBD_TIMEOUT_NS /\ fr_no b + Z.of_nat (List.length todo) = fr_no l.
Proof.
  revert l. induction todo as [|x todo IH] using rev_ind; intros l Hc Hne.
  - apply sbd_chain_inv in Hc as [(E & _)|(l' & frs' & E & Hc & Hu & Hn & Ht)].
    + destruct done as [|? [|? ?]]; done.
    + apply app_inj_tail in E as [-> ->]. exists l'. cbn [List.length]. split_and!; (done || lia).
  - apply sbd_chain_inv in Hc as [(E & _)|(l' & frs' & E & Hc & _ & Hn & _)].
    + destruct done as [|? [|? ?]]; done.
    + change (b :: todo ++ [x]) with ((b :: todo) ++ [x]) in E. rewrite app_assoc in E.
      apply app_inj_tail in E as [<- <-]. destruct (IH l' Hc Hne) as (l2 & H1 & H2 & H3 & H4 & H5).
      exists l2. rewrite length_app. cbn [List.length]. split_and!; (done || lia).
Qed.

Lemma run_sbd_cons st m ms : run_sbd st (m :: ms) =
  (fst (run_sbd (fst (acars_ida_cb st m)) ms),
   option_list (snd (acars_ida_cb st m)) ++ snd (run_sbd (fst (acars_ida_cb st m)) ms)).
Proof. cbn [run_sbd]. destruct (acars_ida_cb st m) as [c o]. cbn [fst snd]. by destruct (run_sbd c ms). Qed.

Section delivery.
Context (mine : frag -> bool) (f l : frag) (frs : list frag).
Hypothesis Hchain : sbd_chain f l frs.
Hypothesis Hfirst : fr_no f = 1.
Hypothesis Hlast : fr_no l = fr_cnt f.
Hypothesis Hcnt : Forall (fun b => fr_cnt b <= 1) (tail frs).
Hypothesis Hts : Forall ts_ok frs.

(** Our slot [j] holds [s]; nothing else of our direction is active. *)
Definition sbd_owned (own : option (nat * sbd_multi_t)) (slots : list sbd_multi_t) : Prop :=
  slots_wf slots /\
  (forall j s, own = Some (j, s) -> slots !! j = Some s /\ sm_active s = true) /\
  (forall i s, slots !! i = Some s -> sm_active s = true -> sm_ul s = fr_ul f -> own = Some (i, s)).

Lemma quiet_owned own st b : quiet (fr_ul f) b -> sbd_owned own (sbd_multi st) ->
  (forall j s, own = Some (j, s) -> expire_slot (fr_ts b) s = s /\ sm_ul s = fr_ul f) ->
  sbd_owned own (sbd_multi (fst (dispatch st b))).
Proof.
  intros Hq (Hw & Hown & Hun) Hk. destruct (quiet_dispatch _ st b Hq Hw) as [Hw' Hsl]. split_and!; [done| |].
  - intros j s Hj. destruct (Hown j s Hj) as [Hl Ha], (Hk j s Hj) as [He Hu]. split; [|done].
    destruct (Hsl j s Hl) as (s' & Hs' & [->|(_ & Hne & _)]); [by rewrite He in Hs'|done].
  - intros i s' Hi Ha Hu. destruct (lookup_lt_is_Some_2 (sbd_multi st) i) as [s Hs].
    { rewrite (proj1 Hw), <- (proj1 Hw'). by eapply lookup_lt_Some. }
    destruct (Hsl i s Hs) as (t & Ht & Hor). rewrite Hi in Ht. injection Ht as <-.
    destruct Hor as [->|(_ & Hne & Heq)]; [|congruence].
    assert (sm_active s = true) as Has
      by (unfold expire_slot in Ha; destruct (sm_active s) eqn:Es; [done|]; cbn [andb] in Ha; congruence).
    assert (sm_ul s = fr_ul f) as Hus by (unfold expire_slot in Hu; by destruct (sm_active s && _)).
    pose proof (Hun i s Hs Has Hus) as Ho. destruct (Hk i s Ho) as [He _]. by rewrite He.
Qed.

Lemma sbd_owned_update own slots j s old : sbd_owned own slots -> slots !! j = Some old -> multi_wf s ->
  sm_active s = true -> (forall i si, own = Some (i, si) -> i = j) -> sbd_owned (Some (j, s)) (<[j := s]> slots).
Proof.
  intros (Hw & Hown & Hun) Hj Hs Ha Heq. split_and!.
  - by apply slots_wf_insert.
  - intros i si [= <- <-]. split; [|done]. apply list_lookup_insert_eq. by eapply lookup_lt_Some.
  - intros i t Hi Hat Hu. destruct (decide (j = i)) as [->|Hij].
    + rewrite list_lookup_insert_eq in Hi by (by eapply lookup_lt_Some). by injection Hi as <-.
    + rewrite list_lookup_insert_ne in Hi by done. pose proof (Hun i t Hi Hat Hu) as E.
      by destruct (Hij (eq_sym (Heq _ _ E))).
Qed.

Lemma expire_owned own slots now : sbd_owned own slots ->
  (forall j s, own = Some (j, s) -> expire_slot now s = s) -> sbd_owned own (sbd_expire slots now).
Proof.
  intros (Hw & Hown & Hun) Hk. split_and!.
  - by apply expire_slots_wf.
  - intros j s Hj. destruct (Hown j s Hj) as [Hl Ha]. by rewrite expire_lookup, Hl; cbn; rewrite (Hk j s Hj).
  - intros i s'. rewrite expire_lookup. destruct (slots !! i) as [s|] eqn:Hs; [|done]. cbn. intros [= <-].
    unfold expire_slot. destruct (sm_active s && _) eqn:E; [done|]. intros Ha Hu. by apply Hun.
Qed.

Lemma own_recent b s l' done : multi_holds f l' done s -> ts_ok l' -> sm_active s = true ->
  fr_ts b <= fr_ts l' + SBD_TIMEOUT_NS -> expire_slot (fr_ts b) s = s.
Proof.
  intros (_ & _ & _ & E & _) [H0 H1] Ha Hb. unfold expire_slot. rewrite Ha, E. cbn [andb].
  rewrite u64_small by (unfold SBD_TIMEOUT_NS in *; lia). by rewrite (proj2 (Z.ltb_ge _ _)) by lia.
Qed.

(** The continuation search finds our slot. *)
Lemma find_own_multi slots j s b l' done :
  sbd_owned (Some (j, s)) slots -> multi_holds f l' done s -> fr_ul b = fr_ul f -> fr_no b = fr_no l' + 1 ->
  find_down (continues_multi (fr_no b) (fr_ul b)) slots SBD_MAX_MULTI = Some j.
Proof.
  intros (Hw & Howns & Hun) Hh Hul Hno. destruct (Howns j s eq_refl) as [Hj Ha].
  pose proof (find_down_spec (continues_multi (fr_no b) (fr_ul b)) slots SBD_MAX_MULTI) as Hs.
  destruct (find_down _ _ _) as [i|].
  - destruct Hs as [Hi Hm]. unfold continues_multi in Hm. bsplit. apply eqb_prop in H1.
    destruct (lookup_lt_is_Some_2 slots i) as [t Ht]; [by rewrite (proj1 Hw)|].
    rewrite list_lookup_total_alt, Ht in H, H1. cbn in H, H1.
    pose proof (Hun i t Ht H ltac:(congruence)) as E. by injection E as <- _.
  - exfalso. specialize (Hs j ltac:(rewrite <- (proj1 Hw); by eapply lookup_lt_Some)).
    rewrite list_lookup_total_alt, Hj in Hs. cbn in Hs. destruct Hh as (E1 & E2 & _).
    unfold continues_multi in Hs. rewrite Ha, E1, E2, Hul, Hno, eqb_reflx, Z.eqb_refl in Hs. done.
Qed.

(** The next packet of our message reaches our slot. *)
Lemma sbd_own_step st done b todo l' j s :
  frs = done ++ b :: todo -> done <> [] -> sbd_chain f l' done -> ts_ok l' -> 1 <= fr_no l' ->
  sbd_owned (Some (j, s)) (sbd_multi st) -> multi_holds f l' done s ->
  let s' := append_multi (fr_no b) (fr_ts b) (fr_bytes b) s in
  sbd_chain f b (done ++ [b]) /\ multi_holds f b (done ++ [b]) s' /\
  (if bool_decide (todo = []) then snd (dispatch st b) = Some (chain_packet f b (done ++ [b]))
   else sbd_owned (Some (j, s')) (sbd_multi (fst (dispatch st b)))).
Proof.
  intros Hfrs Hd Hc Hl' Hge Hown Hh. pose proof Hchain as Hch. rewrite Hfrs in Hch.
  destruct (sbd_chain_split _ _ _ _ _ Hch Hd) as (l2 & Hc2 & Hul & Hno & Hgap & Hrem).
  assert (l2 = l') as -> by (apply sbd_chain_last in Hc, Hc2; congruence).
  assert (fr_cnt b <= 1) as Hcb.
  { destruct done as [|d done]; [done|]. rewrite Hfrs in Hcnt. cbn [app tail] in Hcnt.
    apply Forall_app in Hcnt as [_ Hcnt']. by apply Forall_inv in Hcnt'. }
  pose proof Hown as (Hw & Howns & Hun). destruct (Howns j s eq_refl) as [Hj Ha].
  pose proof (own_recent b s l' done Hh Hl' Ha Hgap) as Hrec.
  assert (multi_wf s) as Hws by (by eapply (Forall_lookup_1 _ _ _ _ (proj2 Hw))).
  assert (sbd_owned (Some (j, s)) (sbd_expire (sbd_multi st) (fr_ts b))) as Hexp
    by (apply expire_owned; [done|by intros i si [= <- <-]]).
  assert (find_down (continues_multi (fr_no b) (fr_ul b)) (sbd_expire (sbd_multi st) (fr_ts b)) SBD_MAX_MULTI = Some j)
    as Hfd by (by eapply (find_own_multi (sbd_expire (sbd_multi st) (fr_ts b)) j s b l' done)).
  split_and!; [by eapply sbd_next|by eapply append_multi_holds|].
  pose proof (append_multi_holds f l' done b s Hws Hh) as (F1 & _ & F3 & _ & F5 & F6 & F7).
  unfold dispatch, sbd_dispatch. rewrite (proj2 (Z.eqb_neq (fr_no b) 0)), (proj2 (Z.eqb_neq (fr_no b) 1)) by lia.
  rewrite andb_false_r, (proj2 (Z.ltb_ge 1 (fr_cnt b)) Hcb), (proj2 (Z.ltb_lt 1 (fr_no b))), Hfd by lia.
  destruct (proj1 (proj2 Hexp) j s eq_refl) as [Hj' _].
  rewrite list_lookup_total_alt, Hj'. cbn [from_option id]. rewrite F3.
  destruct (bool_decide_reflect (todo = [])) as [->|Hne].
  - cbn [List.length] in Hrem. rewrite (proj2 (Z.eqb_eq _ _)) by lia. cbn [snd]. unfold chain_packet.
    by rewrite F5, F6, F7, Hul.
  - rewrite (proj2 (Z.eqb_neq _ _)) by (destruct todo; [done|cbn [List.length] in Hrem; lia]).
    cbn [fst sbd_multi]. eapply sbd_owned_update; [exact Hexp|exact Hj'|by apply append_multi_wf|done|].
    by intros i si [= <- _].
Qed.

(** The first packet opens a slot. *)
Lemma sbd_first_step st : sbd_owned None (sbd_multi st) -> (exists s, s ∈ sbd_multi st /\ sm_active s = false) ->
  exists j s, sbd_owned (Some (j, s)) (sbd_multi (fst (dispatch st f))) /\ multi_holds f f [f] s.
Proof.
  intros Hown (s0 & Hs0 & Ha0).
  assert (fr_first f) as [_ Hc].
  { clear -Hchain. induction Hchain; auto. }
  assert (sbd_owned None (sbd_expire (sbd_multi st) (fr_ts f))) as Hexp by (by apply expire_owned).
  set (slots := sbd_expire (sbd_multi st) (fr_ts f)) in *.
  assert (expire_slot (fr_ts f) s0 ∈ slots) as Hin by (apply list_elem_of_fmap; eauto).
  assert (sm_active (expire_slot (fr_ts f) s0) = false) as Hia by (unfold expire_slot; by rewrite Ha0).
  unfold dispatch, sbd_dispatch. rewrite Hfirst. cbn [Z.eqb Pos.eqb]. rewrite andb_true_r.
  rewrite (proj2 (Z.eqb_neq (fr_cnt f) 1)), (proj2 (Z.ltb_lt 1 (fr_cnt f))) by lia. cbn [fst sbd_multi].
  fold slots. pose proof (first_free_spec 0 slots) as Hff. unfold pick_slot.
  destruct (first_free 0 slots) as [k|]; [|by rewrite (Hff _ Hin) in Hia].
  destruct Hff as (s & _ & Hk & _). rewrite Nat.sub_0_r in Hk.
  assert (multi_wf s) as Hws by (by eapply (Forall_lookup_1 _ _ _ _ (proj2 (proj1 Hexp)))).
  rewrite list_lookup_total_alt, Hk. cbn [from_option id]. rewrite <- Hfirst.
  exists k. eexists. split; [|by apply open_multi_holds].
  eapply sbd_owned_update; [exact Hexp|exact Hk|by apply open_multi_wf|done|done].
Qed.

(** The other packets come before our slot expires. *)
Fixpoint sbd_timely (prev : option frag) (bs : list frag) : Prop :=
  match bs with
  | [] => True
  | b :: bs =>
      if mine b then sbd_timely (Some b) bs
      else match prev with Some p => fr_ts b <= fr_ts p + SBD_TIMEOUT_NS | None => True end /\
           sbd_timely prev bs
  end.

Definition others_quiet (bs : list frag) : Prop := Forall (fun b => mine b = false -> quiet (fr_ul f) b) bs.

Lemma sbd_deliver_open ms st done todo l' j s :
  frs = done ++ todo -> done <> [] -> todo <> [] -> sbd_chain f l' done -> ts_ok l' -> 1 <= fr_no l' ->
  sbd_owned (Some (j, s)) (sbd_multi st) -> multi_holds f l' done s ->
  List.filter mine (omap frag_of ms) = todo -> others_quiet (omap frag_of ms) ->
  sbd_timely (Some l') (omap frag_of ms) ->
  chain_packet f l frs ∈ snd (run_sbd st ms).
Proof.
  revert st done todo l' j s. induction ms as [|m ms IH];
    intros st done todo l' j s Hfrs Hd Ht Hc Hl' Hge Hown Hh Hmine Hq Htime; [cbn in Hmine; congruence|].
  rewrite run_sbd_cons. cbn [snd]. apply elem_of_app. pose proof (cb_slots st m) as Hcb.
  destruct (acars_ida_cb st m) as [st1 o]. cbn [fst snd] in *. cbn [omap list_omap] in Hmine, Hq, Htime.
  destruct (frag_of m) as [b|]; [|injection Hcb as E1 _; rewrite <- E1 in Hown; right; by eapply IH].
  injection Hcb as E1 E2. cbn [List.filter] in Hmine. cbn [sbd_timely] in Htime.
  apply Forall_cons in Hq as [Hqb Hq]. destruct (mine b) eqn:Hmb.
  - destruct todo as [|b' todo]; [done|]. injection Hmine as <- Hmine.
    destruct (sbd_own_step st done b todo l' j s Hfrs Hd Hc Hl' Hge Hown Hh) as (Hc' & Hh' & Hstep).
    destruct (bool_decide_reflect (todo = [])) as [->|Hne].
    + left. rewrite E2, Hstep. assert (b = l) as ->.
      { pose proof (sbd_chain_last _ _ _ Hchain) as H1. rewrite Hfrs, last_snoc in H1. by injection H1. }
      rewrite Hfrs. apply list_elem_of_here.
    + right. rewrite <- E1 in Hstep. eapply (IH st1 (done ++ [b]) todo b); try done.
      * by rewrite <- app_assoc.
      * by destruct done.
      * rewrite Hfrs in Hts. apply Forall_app in Hts as [_ Hts']. by apply Forall_inv in Hts'.
      * pose proof Hchain as Hch. rewrite Hfrs in Hch.
        destruct (sbd_chain_split _ _ _ _ _ Hch Hd) as (l2 & Hc2 & _ & Hno & _).
        assert (l2 = l') as -> by (apply sbd_chain_last in Hc, Hc2; congruence). lia.
  - right. destruct Htime as [Hb Htime]. eapply (IH st1 done todo l' j s); try done.
    rewrite E1. apply quiet_owned; [by apply Hqb|done|]. intros i si [= <- <-].
    split; [|by destruct Hh]. exact (own_recent b s l' done Hh Hl' (proj2 (proj1 (proj2 Hown) j s eq_refl)) Hb).
Qed.

Lemma sbd_deliver ms st :
  frs <> [f] -> sbd_owned None (sbd_multi st) -> (exists s, s ∈ sbd_multi st /\ sm_active s = false) ->
  List.filter mine (omap frag_of ms) = frs -> others_quiet (omap frag_of ms) ->
  sbd_timely None (omap frag_of ms) -> chain_packet f l frs ∈ snd (run_sbd st ms).
Proof.
  intros Hmulti. destruct (sbd_chain_head _ _ _ Hchain) as [todo Hfrs].
  revert st. induction ms as [|m ms IH]; intros st Hown Hfree Hmine Hq Htime; [cbn in Hmine; congruence|].
  rewrite run_sbd_cons. cbn [snd]. apply elem_of_app. pose proof (cb_slots st m) as Hcb.
  destruct (acars_ida_cb st m) as [st1 o]. cbn [fst snd] in *. cbn [omap list_omap] in Hmine, Hq, Htime.
  destruct (frag_of m) as [b|]; [|injection Hcb as E1 _; rewrite <- E1 in Hown, Hfree; right; by eapply IH].
  injection Hcb as E1 E2. cbn [List.filter] in Hmine. cbn [sbd_timely] in Htime.
  apply Forall_cons in Hq as [Hqb Hq]. right. destruct (mine b) eqn:Hmb.
  - rewrite Hfrs in Hmine. injection Hmine as -> Hmine.
    destruct (sbd_first_step st Hown Hfree) as (j & s & Hown' & Hh). rewrite <- E1 in Hown'.
    eapply (sbd_deliver_open ms st1 [f] todo f j s); try done.
    + intros ->. by apply Hmulti.
    + apply sbd_start. clear -Hchain. induction Hchain; auto.
    + rewrite Hfrs in Hts. by apply Forall_inv in Hts.
    + lia.
  - destruct Htime as [_ Htime]. apply IH; try done.
    + rewrite E1. apply quiet_owned; [by apply Hqb|done|done].
    + destruct Hfree as (s0 & Hs0 & Ha0). apply list_elem_of_lookup_1 in Hs0 as [i Hi].
      destruct (quiet_dispatch _ st b (Hqb eq_refl) (proj1 Hown)) as [_ Hsl].
      destruct (Hsl i s0 Hi) as (s' & Hs' & [->|(Hact & _)]); [|congruence].
      rewrite E1. exists (expire_slot (fr_ts b) s0). split; [by eapply list_elem_of_lookup_2|].
      unfold expire_slot. by rewrite Ha0.
Qed.
End delivery.

(** ** Packets as sent *)

(** The packet header and body, with the optional uplink marker. *)
Definition tx_body (no : Z) (d : list Z) : list Z := [0x10; Z.of_nat (List.length d); no] ++ d.

(** First packet of a downlink message of [cnt] packets (7-byte pre-header). *)
Definition tx_first (pre : list Z) (cnt : Z) (no : Z) (d : list Z) : list Z :=
  match pre with
  | [a; b; c; e; g] => [0x76; 0x08] ++ [0x26; a; b; cnt; c; e; g] ++ tx_body no d
  | _ => []
  end.
(** Further packets, in either direction. *)
Definition tx_next (typ : Z) (mark no : Z) (ul : bool) (d : list Z) : list Z :=
  [0x76; typ] ++ (if ul then [mark; 0; 0] else []) ++ tx_body no d.

Lemma parse_packet_body no cnt d ul : d <> [] ->
  parse_packet (tx_body no d) ul cnt = Some (no, cnt, d).
Proof.
  intros Hd. unfold parse_packet, tx_body. cbn [app]. change (rd (0x10 :: ?l) 0) with 0x10.
  cbn [Z.eqb Pos.eqb orb]. rewrite andb_false_r.
  assert (0 < List.length d)%nat by (destruct d; cbn; [done|lia]).
  cbn [List.length]. rewrite (proj2 (Nat.ltb_lt _ _)) by lia. cbn [Nat.eqb andb].
  change (drop 3 (16 :: ?a :: ?b :: d)) with d. change (rd (16 :: ?a :: ?b :: d) 1) with a.
  change (rd (16 :: ?a :: ?b :: d) 2) with b. rewrite Nat2Z.id, Nat.ltb_irrefl, take_ge by lia. done.
Qed.

(** What the parser hands on is a contiguous part of the message. *)
Lemma parse_packet_within data ul cnt no c d : parse_packet data ul cnt = Some (no, c, d) ->
  exists off, d = slice data off (off + List.length d) /\ (off + List.length d <= List.length data)%nat.
Proof.
  assert (forall n (l : list Z), (n <= List.length l)%nat ->
    drop n l = slice l n (n + List.length (drop n l)) /\ (n + List.length (drop n l) <= List.length l)%nat) as Hdrop.
  { intros n l Hn. unfold slice. rewrite length_drop. split; [|lia]. rewrite take_ge; [done|]. rewrite length_drop. lia. }
  unfold parse_packet.
  assert (exists k, (k <= List.length data)%nat /\
    (if ul && (3 <=? List.length data)%nat && ((data.[0] =? 80) || (data.[0] =? 81)) then drop 3 data else data) = drop k data)
    as (n & Hn & ->).
  { destruct (ul && _ && _) eqn:E.
    - exists 3%nat. split; [|done]. apply andb_true_iff in E as [E _]. apply andb_true_iff in E as [_ E%Nat.leb_le]. done.
    - exists 0%nat. split; [lia|]. by rewrite drop_0. }
  destruct (_ =? 0)%nat.
  { intros [= _ _ <-]. exists 0%nat. split; [|cbn; lia]. unfold slice. done. }
  destruct ((3 <? List.length (drop n data))%nat && ((drop n data).[0] =? 0x10)) eqn:E.
  - destruct (List.length (drop 3 (drop n data)) <? _)%nat eqn:E'; [done|].
    intros [= _ _ <-]. apply Nat.ltb_ge in E'.
    rewrite drop_drop in *. apply andb_true_iff in E as [E%Nat.ltb_lt _]. rewrite length_drop in E, E'.
    exists (n + 3)%nat. rewrite length_take, length_drop. split; [|lia].
    unfold slice. f_equal. lia.
  - intros [= _ _ <-]. exists n. by apply Hdrop.
Qed.

Lemma slice_drop {A} (l : list A) n i j : slice (drop n l) i j = slice l (n + i) (n + j).
Proof. unfold slice. rewrite drop_drop. f_equal. lia. Qed.

Lemma sbd_parse_within_drop (data d : list Z) n : (n <= List.length data)%nat ->
  (exists off, d = slice (drop n data) off (off + List.length d) /\ (off + List.length d <= List.length (drop n data))%nat) ->
  exists off, d = slice data off (off + List.length d) /\ (off + List.length d <= List.length data)%nat.
Proof.
  intros Hn (off & Hd & Hl). exists (n + off)%nat. rewrite slice_drop in Hd. rewrite length_drop in Hl.
  rewrite <- Nat.add_assoc. split; [done|lia].
Qed.

Lemma sbd_parse_part (data : list Z) (ul : bool) (no cnt : Z) (d : list Z) :
  (5 <= List.length data)%nat -> sbd_parse data ul = Some (no, cnt, d) ->
  exists off, d = slice data off (off + List.length d) /\ (off + List.length d <= List.length data)%nat.
Proof.
  intros Hl. unfold sbd_parse. destruct (_ && _).
  - unfold parse_0600. destruct (_ || _) eqn:E; [done|]. intros [= _ _ <-].
    apply orb_false_iff in E as [E%Nat.ltb_ge _]. rewrite length_drop in E.
    apply (sbd_parse_within_drop data _ 2); [lia|]. exists 29%nat. unfold slice. rewrite !length_drop.
    split; [|lia]. rewrite take_ge; [done|]. rewrite !length_drop. lia.
  - unfold parse_76. intros H. apply (sbd_parse_within_drop data _ 2); [lia|]. destruct (_ =? 8).
    + destruct (_ <? 5)%nat; [done|]. destruct (_ <? _)%nat eqn:E; [done|]. apply Nat.ltb_ge in E.
      eapply sbd_parse_within_drop; [exact E|]. by eapply parse_packet_within.
    + by eapply parse_packet_within.
Qed.

(** ** Concrete inputs for the witnesses *)

Definition demo_msg (data : list Z) (ts : Z) : ida_message :=
  Message data ts (f64_of_Z 1626000000) DIR_DOWNLINK (f32_of_Z 20).
(** A three-packet message with a short message in between. *)
Definition demo_msgs : list ida_message :=
  [demo_msg (tx_first [0; 0; 0; 0; 0] 3 1 [1; 65; 66]) 1000;
   demo_msg (tx_next 0x09 0 2 false [67; 68]) 2000;
   demo_msg ([0x76; 0x09] ++ [1; 2; 3]) 2500;
   demo_msg (tx_next 0x0a 0 3 false [69]) 3000].
Definition demo_frags : list frag :=
  omap frag_of [demo_msg (tx_first [0; 0; 0; 0; 0] 3 1 [1; 65; 66]) 1000;
   demo_msg (tx_next 0x09 0 2 false [67; 68]) 2000; demo_msg (tx_next 0x0a 0 3 false [69]) 3000].
Definition demo_frag_of (no cnt ts : Z) (d : list Z) : frag :=
  Frag no cnt d false ts (f64_of_Z 1626000000) (f32_of_Z 20).

#[export] Instance fr_first_dec b : Decision (fr_first b).
Proof. unfold fr_first. apply _. Defined.

Lemma demo_sbd_chain : sbd_chain (demo_frag_of 1 3 1000 [1; 65; 66]) (demo_frag_of 3 (-1) 3000 [69]) demo_frags.
Proof.
  change demo_frags with (([demo_frag_of 1 3 1000 [1; 65; 66]] ++ [demo_frag_of 2 (-1) 2000 [67; 68]]) ++
    [demo_frag_of 3 (-1) 3000 [69]]).
  eapply sbd_next; [eapply sbd_next; [apply sbd_start; eval_dec|done|done|]|done|done|];
    unfold SBD_TIMEOUT_NS; cbn; lia.
Qed.

(** * Properties *)

(** C19 (refinement). Only real packets reach the ACARS parser: whatever messages
    arrive, each packet handed over is either one complete packet as received,
    or the concatenation (cut at 1024 bytes) of packets numbered consecutively
    from a first packet to its announced count, in one direction and at most
    five seconds apart, in the order they were received. *)
Theorem sbd_refines_chains (ms : list ida_message) (p : sbd_packet) :
  Forall ts_ok (omap frag_of ms) -> p ∈ snd (run_sbd sbd_init ms) -> delivered (omap frag_of ms) p.
Proof. intros Hok. apply (run_sbd_inv [] sbd_init ms Hok sbd_init_inv). Qed.

Lemma sbd_refines_chains_witness :
  delivered (omap frag_of demo_msgs)
    (SbdPacket [1; 65; 66; 67; 68; 69] false 3000 (f64_of_Z 1626000000) (f32_of_Z 20)).
Proof. apply sbd_refines_chains; [eval_dec|]. vm_compute. right. by left. Defined.

(** A multi-packet message is delivered complete, in the midst of any
    single-packet traffic and of continuations in the other direction, if a
    slot is free and its packets are at most five seconds apart. *)
Theorem sbd_multi_delivery mine f l frs st ms :
  sbd_chain f l frs -> fr_no f = 1 -> fr_no l = fr_cnt f -> Forall (fun b => fr_cnt b <= 1) (tail frs) ->
  Forall ts_ok frs -> frs <> [f] -> sbd_owned f None (sbd_multi st) ->
  (exists s, s ∈ sbd_multi st /\ sm_active s = false) ->
  List.filter mine (omap frag_of ms) = frs -> others_quiet mine f (omap frag_of ms) ->
  sbd_timely mine None (omap frag_of ms) ->
  chain_packet f l frs ∈ snd (run_sbd st ms).
Proof. intros Hc Hf Hl Hcnt Hts. by apply sbd_deliver. Qed.

Lemma sbd_init_owned f : sbd_owned f None (sbd_multi sbd_init).
Proof.
  split_and!; [|done|].
  - split; [done|]. apply Forall_replicate. split; [apply length_replicate|cbn; lia].
  - intros i s [-> _]%lookup_replicate_1. done.
Qed.

Lemma sbd_multi_delivery_witness :
  chain_packet (demo_frag_of 1 3 1000 [1; 65; 66]) (demo_frag_of 3 (-1) 3000 [69]) demo_frags
    ∈ snd (run_sbd sbd_init demo_msgs).
Proof.
  apply (sbd_multi_delivery (fun b => negb (fr_no b =? 0))).
  - apply demo_sbd_chain.
  - reflexivity.
  - reflexivity.
  - eval_dec.
  - eval_dec.
  - vm_compute. discriminate.
  - apply sbd_init_owned.
  - exists multi_zero. split; [apply list_elem_of_here|done].
  - reflexivity.
  - eval_dec.
  - vm_compute. repeat split. discriminate.
Defined.

(** Packets are parsed as sent: number, count and contents of the
    first packet of a message and of every further packet, in either direction. *)
Theorem sbd_packet_parsed (pre : list Z) (cnt no typ mark : Z) (ul : bool) (d : list Z) :
  List.length pre = 5%nat -> d <> [] -> mark = 0x50 \/ mark = 0x51 -> typ <> 5 -> typ <> 8 ->
  sbd_parse (tx_first pre cnt no d) false = Some (no, cnt, d) /\
  is_sbd (tx_first pre cnt no d) false = true /\
  sbd_parse (tx_next typ mark no ul d) ul = Some (no, -1, d) /\
  (is_sbd (tx_next typ mark no ul d) ul = true <-> if ul then 12 <= typ <= 14 else 8 <= typ <= 11).
Proof.
  intros Hpre Hd Hm H5 H8. explode_list pre. split_and!.
  - unfold sbd_parse, parse_76. cbn [app tx_first]. cbn. by apply (parse_packet_body no cnt d false).
  - done.
  - unfold sbd_parse, tx_next, parse_76. cbn [app rd nth drop]. cbn [Z.eqb Pos.eqb andb].
    rewrite (proj2 (Z.eqb_neq typ 8)) by done. destruct ul; cbn [app]; [|by apply parse_packet_body].
    unfold parse_packet at 1. replace (true && _ && _) with true by (destruct Hm as [-> | ->]; done).
    change (drop 3 (mark :: 0 :: 0 :: tx_body no d)) with (tx_body no d).
    pose proof (parse_packet_body no (-1) d false Hd) as Hp. exact Hp.
  - unfold is_sbd, tx_next. cbn [app rd nth]. cbn [Z.eqb Pos.eqb].
    rewrite (proj2 (Z.eqb_neq typ 5)) by done. cbn [negb andb].
    destruct ul; rewrite andb_true_iff, !Z.leb_le; done.
Qed.

Lemma sbd_packet_parsed_witness : sbd_parse (tx_first [9; 8; 7; 6; 5] 3 1 [65; 66]) false = Some (1, 3, [65; 66]).
Proof. apply (sbd_packet_parsed [9; 8; 7; 6; 5] 3 1 12 0x50 true [65; 66]); (reflexivity || lia || auto || done). Defined.

(** Parsing stays inside the message: what is handed on is a contiguous
    part of it, for every message and either direction. *)
Theorem sbd_parse_within (data : list Z) (ul : bool) (no cnt : Z) (d : list Z) :
  (5 <= List.length data)%nat -> sbd_parse data ul = Some (no, cnt, d) ->
  exists off, d = slice data off (off + List.length d) /\ (off + List.length d <= List.length data)%nat.
Proof. apply sbd_parse_part. Qed.

Lemma sbd_parse_within_witness :
  exists off, [65; 66] = slice (tx_first [9; 8; 7; 6; 5] 3 1 [65; 66]) off (off + 2) /\ (off + 2 <= 14)%nat.
Proof. apply (sbd_parse_within (tx_first [9; 8; 7; 6; 5] 3 1 [65; 66]) false 1 3 [65; 66]); [cbn; lia|reflexivity]. Defined.
