(* ===== verification/Vita49.v ===== *)
(** VITA 49 (VRT) input, [src/vita49.c]: the optional VRL wrapper, the header of
    signal data packets, context packets with their indicator field, sequence
    gap detection and sample conversion.

    One datagram is a list of bytes; [handle_packet] is the body of the receive
    loop of [vita49_thread] after [recvfrom], on the thread's local counters and
    the program options it may set.  The socket calls, the logging and the
    condition variable are not modelled; [errx] is the result [Fatal]. *)
From S2P Require Import Prelude CFloat.

(** * Data *)

Inductive iq_format_t := FMT_CI8 | FMT_CI16 | FMT_CF32.
#[export] Instance iq_format_eq_dec : EqDecision iq_format_t.
Proof. solve_decision. Defined.

Definition VRT_TYPE_SIGNAL_DATA_NO_SID : Z := 0.
Definition VRT_TYPE_SIGNAL_DATA : Z := 1.
Definition VRT_TYPE_IF_CONTEXT : Z := 4.
Definition VRT_TYPE_EXT_CONTEXT : Z := 5.
Definition VRLP : Z := 0x56524C50.

Definition CIF_RF_REF_FREQ : Z := 27.
Definition CIF_SAMPLE_RATE : Z := 21.
Definition CIF_DATA_FORMAT : Z := 15.

(** [cif_fields]: bit number and size in words, most significant bit first. *)
Definition cif_fields : list (Z * nat) :=
  [(31, 1%nat); (30, 1%nat); (29, 2%nat); (28, 2%nat); (CIF_RF_REF_FREQ, 2%nat); (26, 2%nat); (25, 2%nat); (24, 1%nat);
   (23, 1%nat); (22, 1%nat); (CIF_SAMPLE_RATE, 2%nat); (20, 2%nat); (19, 1%nat); (18, 1%nat); (17, 2%nat); (16, 1%nat);
   (CIF_DATA_FORMAT, 2%nat)].

(** What [push_samples] receives: 8-bit samples, or the words of the floats. *)
Inductive samples_t := SAMPLE_FMT_INT8 (l : list Z) | SAMPLE_FMT_FLOAT (l : list Z).
Record sample_buf := SampleBuf { sb_num : nat; sb_samples : samples_t }.

(** Options the thread may set, and its local counters. *)
Record v49_state := V49 {
  samp_rate : f64; samp_rate_explicit : bool;
  center_freq : f64; center_freq_explicit : bool;
  iq_format : iq_format_t; iq_format_explicit : bool;
  vita49_ctx_ready : bool;
  ctx_logged : bool;
  last_count : Z;
  have_count : bool;
  total_pkts : Z;
  skipped_pkts : Z;
  gap_pkts : Z;
}.

Inductive outcome (A : Type) := Fatal | Continue (a : A).
Arguments Fatal {A}.
Arguments Continue {A}.

(** * Reading words *)

(** [ntohl] of the four bytes at [off]. *)
Definition be32 (pkt : list Z) (off : nat) : Z :=
  Z.lor (Z.lor (Z.lor (Z.shiftl (pkt.[off]) 24) (Z.shiftl (pkt.[(off + 1)%nat]) 16))
               (Z.shiftl (pkt.[(off + 2)%nat]) 8)) (pkt.[(off + 3)%nat]).
(** [ntohl(words[i])]. *)
Definition word (pkt : list Z) (i : nat) : Z := be32 pkt (4 * i).

Definition read_be64 (pkt : list Z) (i : nat) : Z :=
  Z.lor (u64 (Z.shiftl (word pkt i) 32)) (word pkt (i + 1)).

(** * Packet headers *)

(** [vrl_strip]: offset of the VRT packet and the length without trailer. *)
Definition vrl_strip (pkt : list Z) (pkt_len : nat) : nat * nat :=
  if (12 <=? pkt_len)%nat && (be32 pkt 0 =? VRLP) then (8, pkt_len - 4)%nat else (0, pkt_len)%nat.

Definition field (w0 pos mask : Z) : Z := Z.land (Z.shiftr w0 pos) mask.

(** A C condition on an unsigned, and the words an optional part takes. *)
Definition nz (x : Z) : bool := negb (x =? 0).
Definition opt_words (b : bool) (n : nat) : nat := if b then n else 0%nat.

(** Class ID, integer and fractional timestamp, from the header word. *)
Definition common_words (w0 : Z) : nat :=
  (opt_words (nz (field w0 27 0x1)) 2 + opt_words (nz (field w0 22 0x3)) 1 +
   opt_words (nz (field w0 20 0x3)) 2)%nat.

(** [vrt_parse_header]: payload offset and size in bytes. *)
Definition vrt_parse_header (pkt : list Z) : option (nat * nat) :=
  let pkt_len := List.length pkt in
  if (pkt_len <? 4)%nat then None
  else
    let '(vrl_off, pkt_len) := vrl_strip pkt pkt_len in
    let w0 := be32 pkt vrl_off in
    let pkt_type := field w0 28 0xF in
    let trailer := field w0 26 0x1 in
    let pkt_size_w := Z.to_nat (Z.land w0 0xFFFF) in
    if negb (pkt_type =? VRT_TYPE_SIGNAL_DATA_NO_SID) && negb (pkt_type =? VRT_TYPE_SIGNAL_DATA) then None
    else
      let vrt_len := (pkt_len - vrl_off)%nat in
      let pkt_size_bytes := (pkt_size_w * 4)%nat in
      if (vrt_len <? pkt_size_bytes)%nat || (pkt_size_bytes <? 4)%nat then None
      else
        let has_sid := pkt_type =? VRT_TYPE_SIGNAL_DATA in
        let hdr_words := (1 + opt_words has_sid 1 + common_words w0)%nat in
        let trailer_words := opt_words (nz trailer) 1 in
        if (pkt_size_w <=? hdr_words + trailer_words)%nat then None
        else
          let payload_words := (pkt_size_w - hdr_words - trailer_words)%nat in
          Some (vrl_off + hdr_words * 4, payload_words * 4)%nat.

(** [vrt_parse_data_format]: [None] is -1. *)
Definition vrt_parse_data_format (fmt_word1 : Z) : option iq_format_t :=
  let real_cpx := field fmt_word1 29 0x3 in
  let dif := field fmt_word1 24 0x1F in
  let data_bits := Z.land fmt_word1 0x1F + 1 in
  if negb (real_cpx =? 1) then None
  else if dif =? 0 then
    if data_bits =? 8 then Some FMT_CI8 else if data_bits =? 16 then Some FMT_CI16 else None
  else if dif =? 14 then Some FMT_CF32
  else None.

(** * Context packets *)

(** What the walk over the indicator field has found. *)
Record ctx_info := CtxInfo {
  rf_freq_hz : option f64;
  ctx_samp_rate : option f64;
  detected_format : option iq_format_t;
}.

(** [(double)(int64_t)val / (1LL << 20)]. *)
Definition fixed20 (val : Z) : f64 := f64_div (f64_of_Z (to_signed 64 val)) (f64_of_Z (2 ^ 20)).

(** The table walk; [None] is the truncated packet. *)
Fixpoint cif_walk (vrt : list Z) (cif0 : Z) (pkt_size_w : nat) (fields : list (Z * nat)) (off_w : nat)
    (c : ctx_info) : option ctx_info :=
  match fields with
  | [] => Some c
  | (bit, words) :: fields =>
      if negb (Z.testbit cif0 bit) then cif_walk vrt cif0 pkt_size_w fields off_w c
      else if (pkt_size_w <? off_w + words)%nat then None
      else
        let c :=
          if bit =? CIF_RF_REF_FREQ then
            CtxInfo (Some (fixed20 (read_be64 vrt off_w))) (ctx_samp_rate c) (detected_format c)
          else if bit =? CIF_SAMPLE_RATE then
            CtxInfo (rf_freq_hz c) (Some (fixed20 (read_be64 vrt off_w))) (detected_format c)
          else if bit =? CIF_DATA_FORMAT then
            CtxInfo (rf_freq_hz c) (ctx_samp_rate c) (vrt_parse_data_format (word vrt off_w))
          else c in
        cif_walk vrt cif0 pkt_size_w fields (off_w + words) c
  end.

(** The parsing half of [vrt_handle_context]; [None] is an early return. *)
Definition parse_context (vrt : list Z) : option ctx_info :=
  if (List.length vrt <? 8)%nat then None
  else
    let w0 := word vrt 0 in
    let pkt_size_w := Z.to_nat (Z.land w0 0xFFFF) in
    if (List.length vrt <? pkt_size_w * 4)%nat || (pkt_size_w <? 2)%nat then None
    else
      let off_w := (2 + common_words w0)%nat in
      if (pkt_size_w <=? off_w)%nat then None
      else cif_walk vrt (word vrt off_w) pkt_size_w cif_fields (off_w + 1) (CtxInfo None None None).

Definition is_some {A} (o : option A) : bool := match o with Some _ => true | None => false end.

(** [vrt_handle_context]. *)
Definition vrt_handle_context (st : v49_state) (vrt : list Z) : outcome v49_state :=
  match parse_context vrt with
  | None => Continue st
  | Some c =>
      if negb (is_some (rf_freq_hz c)) && negb (is_some (ctx_samp_rate c)) && negb (is_some (detected_format c))
      then Continue st
      else if ctx_logged st then Continue st
      else
        match detected_format c with
        | Some f =>
            if iq_format_explicit st && bool_decide (iq_format st <> f) then Fatal
            else Continue (V49
              (if samp_rate_explicit st then samp_rate st else default (samp_rate st) (ctx_samp_rate c))
              (samp_rate_explicit st)
              (if center_freq_explicit st then center_freq st else default (center_freq st) (rf_freq_hz c))
              (center_freq_explicit st)
              (if iq_format_explicit st then iq_format st else f) (iq_format_explicit st)
              true true (last_count st) (have_count st) (total_pkts st) (skipped_pkts st) (gap_pkts st))
        | None =>
            Continue (V49
              (if samp_rate_explicit st then samp_rate st else default (samp_rate st) (ctx_samp_rate c))
              (samp_rate_explicit st)
              (if center_freq_explicit st then center_freq st else default (center_freq st) (rf_freq_hz c))
              (center_freq_explicit st)
              (iq_format st) (iq_format_explicit st)
              true true (last_count st) (have_count st) (total_pkts st) (skipped_pkts st) (gap_pkts st))
        end
  end.

(** * The receive loop *)

(** [(int8_t)(ntohs(src[i]) >> 8)] of the 16-bit sample at byte [off]. *)
Definition ci16_sample (pkt : list Z) (off : nat) : Z :=
  to_signed 8 (Z.shiftr (Z.lor (Z.shiftl (pkt.[off]) 8) (pkt.[(off + 1)%nat])) 8).

(** Sample conversion by format; [None] when there is no complete sample. *)
Definition convert (f : iq_format_t) (pkt : list Z) (payload_off payload_bytes : nat) : option sample_buf :=
  match f with
  | FMT_CF32 =>
      let n := (payload_bytes / 8)%nat in
      if (n =? 0)%nat then None
      else Some (SampleBuf n (SAMPLE_FMT_FLOAT (map (fun i => be32 pkt (payload_off + 4 * i)) (seq 0 (n * 2)))))
  | FMT_CI16 =>
      let n := (payload_bytes / 4)%nat in
      if (n =? 0)%nat then None
      else Some (SampleBuf n (SAMPLE_FMT_INT8 (map (fun i => ci16_sample pkt (payload_off + 2 * i)) (seq 0 (n * 2)))))
  | FMT_CI8 =>
      let n := (payload_bytes / 2)%nat in
      if (n =? 0)%nat then None
      else Some (SampleBuf n (SAMPLE_FMT_INT8 (map (fun i => to_signed 8 (pkt.[(payload_off + i)%nat])) (seq 0 (n * 2)))))
  end.

Definition set_skipped (st : v49_state) : v49_state :=
  V49 (samp_rate st) (samp_rate_explicit st) (center_freq st) (center_freq_explicit st) (iq_format st)
    (iq_format_explicit st) (vita49_ctx_ready st) (ctx_logged st) (last_count st) (have_count st)
    (total_pkts st) (skipped_pkts st + 1) (gap_pkts st).

(** Sequence gap detection and the packet counter. *)
Definition count_packet (st : v49_state) (count : Z) : v49_state :=
  let expected := Z.land (last_count st + 1) 0xF in
  let gap := if have_count st && negb (count =? expected) then 1 else 0 in
  V49 (samp_rate st) (samp_rate_explicit st) (center_freq st) (center_freq_explicit st) (iq_format st)
    (iq_format_explicit st) (vita49_ctx_ready st) (ctx_logged st) count true
    (total_pkts st + 1) (skipped_pkts st) (gap_pkts st + gap).

Definition handle_packet (st : v49_state) (pkt : list Z) : outcome (v49_state * option sample_buf) :=
  let '(ctx_off, ctx_len) := vrl_strip pkt (List.length pkt) in
  let ctype := field (be32 pkt ctx_off) 28 0xF in
  if (ctx_off + 4 <? ctx_len)%nat && ((ctype =? VRT_TYPE_IF_CONTEXT) || (ctype =? VRT_TYPE_EXT_CONTEXT)) then
    match vrt_handle_context st (slice pkt ctx_off ctx_len) with
    | Fatal => Fatal
    | Continue st => Continue (st, None)
    end
  else
    match vrt_parse_header pkt with
    | None => Continue (set_skipped st, None)
    | Some (payload_off, payload_bytes) =>
        let vrt_off := if be32 pkt 0 =? VRLP then 8%nat else 0%nat in
        let count := field (be32 pkt vrt_off) 16 0xF in
        let st := count_packet st count in
        Continue (st, convert (iq_format st) pkt payload_off payload_bytes)
    end.

(** The loop over the datagrams received. *)
Fixpoint run_packets (st : v49_state) (pkts : list (list Z)) : outcome v49_state :=
  match pkts with
  | [] => Continue st
  | pkt :: pkts =>
      match handle_packet st pkt with
      | Fatal => Fatal
      | Continue (st, _) => run_packets st pkts
      end
  end.

(** * Specification *)

(** Where a field of a context packet is: the words of the fields before it. *)
Fixpoint words_before (cif0 : Z) (bit : Z) (fields : list (Z * nat)) : nat :=
  match fields with
  | [] => 0
  | (b, n) :: fields =>
      if b =? bit then 0
      else ((if Z.testbit cif0 b then n else 0) + words_before cif0 bit fields)%nat
  end.

(** The words of all fields present. *)
Fixpoint cif_words (cif0 : Z) (fields : list (Z * nat)) : nat :=
  match fields with
  | [] => 0
  | (b, n) :: fields => ((if Z.testbit cif0 b then n else 0) + cif_words cif0 fields)%nat
  end.

(** A 32-bit word in network byte order. *)
Definition put32 (w : Z) : list Z := [w / 2 ^ 24; w / 2 ^ 16 mod 256; w / 2 ^ 8 mod 256; w mod 256].

(** The header word of a packet. *)
Definition vrt_w0 (typ cls trl tsi tsf cnt size : Z) : Z :=
  typ * 2 ^ 28 + cls * 2 ^ 27 + trl * 2 ^ 26 + tsi * 2 ^ 22 + tsf * 2 ^ 20 + cnt * 2 ^ 16 + size.

(** The VRL wrapper: frame alignment word, frame count and size, and a trailer. *)
Definition vrl_wrap (vrl : option (list Z * list Z)) (vrt : list Z) : list Z :=
  match vrl with
  | Some (h, t) => put32 VRLP ++ h ++ vrt ++ t
  | None => vrt
  end.
Definition vrl_ok (vrl : option (list Z * list Z)) : Prop :=
  match vrl with Some (h, t) => List.length h = 4%nat /\ List.length t = 4%nat | None => True end.

(** * Lemmas *)

Lemma be32_value pkt off a b c d : slice pkt off (off + 4) = [a; b; c; d] ->
  is_byte a -> is_byte b -> is_byte c -> is_byte d ->
  be32 pkt off = a * 2 ^ 24 + b * 2 ^ 16 + c * 2 ^ 8 + d.
Proof.
  unfold is_byte. intros Hs Ha Hb Hc Hd.
  assert (forall i x, slice pkt off (off + 4) !! i = Some x -> pkt.[(off + i)%nat] = x) as Hr.
  { intros i x Hi. unfold slice in Hi. rewrite lookup_take_Some, lookup_drop in Hi. destruct Hi as [Hi _].
    unfold rd. by rewrite nth_lookup, Hi. }
  rewrite Hs in Hr. unfold be32. rewrite (Hr 1%nat b), (Hr 2%nat c), (Hr 3%nat d) by done.
  rewrite <- (Nat.add_0_r off) at 1. rewrite (Hr 0%nat a) by done.
  rewrite (lor_shiftl_add a) by (rewrite ?Z.shiftl_mul_pow2; lia).
  replace (a * 2 ^ 24 + Z.shiftl b 16) with (Z.shiftl (a * 2 ^ 8 + b) 16) by (rewrite !Z.shiftl_mul_pow2; lia).
  rewrite (lor_shiftl_add _ (Z.shiftl c 8)) by (rewrite ?Z.shiftl_mul_pow2; lia).
  replace ((a * 2 ^ 8 + b) * 2 ^ 16 + Z.shiftl c 8) with (Z.shiftl ((a * 2 ^ 8 + b) * 2 ^ 8 + c) 8)
    by (rewrite !Z.shiftl_mul_pow2; lia).
  rewrite lor_shiftl_add by lia. lia.
Qed.

Lemma be32_put pre w rest : 0 <= w < 2 ^ 32 -> be32 (pre ++ put32 w ++ rest) (List.length pre) = w.
Proof.
  intros Hw. unfold put32. rewrite (be32_value _ _ (w / 2 ^ 24) (w / 2 ^ 16 mod 256) (w / 2 ^ 8 mod 256) (w mod 256)).
  - change (2 ^ 24) with (256 * 2 ^ 16). change (2 ^ 16) with (256 * 2 ^ 8). change (2 ^ 8) with 256.
    rewrite <- !Z.div_div by lia. Z.div_mod_to_equations. lia.
  - unfold slice. rewrite drop_app_length. replace (List.length pre + 4 - List.length pre)%nat with 4%nat by lia. done.
  - unfold is_byte. split; [apply Z.div_pos; lia|apply Z.div_lt_upper_bound; lia].
  - apply Z.mod_pos_bound. lia.
  - apply Z.mod_pos_bound. lia.
  - apply Z.mod_pos_bound. lia.
Qed.

(** The fields of a header word come back. *)
Section w0.
Context (typ cls trl tsi tsf cnt size : Z).
Hypothesis Ht : 0 <= typ < 16.
Hypothesis Hc : 0 <= cls < 2.
Hypothesis Hr : 0 <= trl < 2.
Hypothesis Hi : 0 <= tsi < 4.
Hypothesis Hf : 0 <= tsf < 4.
Hypothesis Hn : 0 <= cnt < 16.
Hypothesis Hs : 0 <= size < 2 ^ 16.
Let w := vrt_w0 typ cls trl tsi tsf cnt size.

Lemma w0_range : 0 <= w < 2 ^ 32.
Proof. unfold w, vrt_w0. lia. Qed.

Ltac field_tac m n :=
  unfold w, field, vrt_w0; rewrite Z.shiftr_div_pow2, (land_mask _ m n) by lia;
  Z.div_mod_to_equations; lia.

Lemma w0_type : field w 28 0xF = typ.
Proof. field_tac 0xF 4. Qed.
Lemma w0_class : field w 27 0x1 = cls.
Proof. field_tac 0x1 1. Qed.
Lemma w0_trailer : field w 26 0x1 = trl.
Proof. field_tac 0x1 1. Qed.
Lemma w0_tsi : field w 22 0x3 = tsi.
Proof. field_tac 0x3 2. Qed.
Lemma w0_tsf : field w 20 0x3 = tsf.
Proof. field_tac 0x3 2. Qed.
Lemma w0_count : field w 16 0xF = cnt.
Proof. field_tac 0xF 4. Qed.
Lemma w0_size : Z.land w 0xFFFF = size.
Proof. unfold w, vrt_w0. rewrite (land_mask _ 0xFFFF 16) by lia. Z.div_mod_to_equations. lia. Qed.
End w0.

(** The walk over the indicator field, as offsets. *)
Fixpoint locate (cif0 bit : Z) (fields : list (Z * nat)) (base : nat) : option nat :=
  match fields with
  | [] => None
  | (b, n) :: fields =>
      if b =? bit then if Z.testbit cif0 b then Some base else None
      else locate cif0 bit fields (base + if Z.testbit cif0 b then n else 0)
  end.

Lemma locate_offset cif0 bit fields base : bit ∈ map fst fields ->
  locate cif0 bit fields base =
  if Z.testbit cif0 bit then Some (base + words_before cif0 bit fields)%nat else None.
Proof.
  revert base. induction fields as [|[b n] fields IH]; intros base Hin; [by apply not_elem_of_nil in Hin|].
  cbn [locate words_before]. destruct (Z.eqb_spec b bit) as [->|Hne]; [by rewrite Nat.add_0_r|].
  rewrite IH by (apply elem_of_cons in Hin as [?|?]; [done|done]). by rewrite Nat.add_assoc.
Qed.

Lemma locate_absent cif0 bit fields base : bit ∉ map fst fields -> locate cif0 bit fields base = None.
Proof.
  revert base. induction fields as [|[b n] fields IH]; intros base Hin; [done|]. cbn [locate].
  cbn in Hin. apply not_elem_of_cons in Hin as [Hne Hin].
  rewrite (proj2 (Z.eqb_neq b bit)) by done. by apply IH.
Qed.

Definition located {A} (o : option nat) (f : nat -> option A) (old : option A) : option A :=
  match o with Some off => f off | None => old end.

Definition walk_info (vrt : list Z) (cif0 : Z) (fields : list (Z * nat)) (base : nat) (c : ctx_info) : ctx_info :=
  CtxInfo
    (located (locate cif0 CIF_RF_REF_FREQ fields base) (fun o => Some (fixed20 (read_be64 vrt o))) (rf_freq_hz c))
    (located (locate cif0 CIF_SAMPLE_RATE fields base) (fun o => Some (fixed20 (read_be64 vrt o))) (ctx_samp_rate c))
    (located (locate cif0 CIF_DATA_FORMAT fields base) (fun o => vrt_parse_data_format (word vrt o)) (detected_format c)).

Lemma cif_walk_spec vrt cif0 size fields base c : NoDup (map fst fields) -> (base <= size)%nat ->
  cif_walk vrt cif0 size fields base c =
  if (base + cif_words cif0 fields <=? size)%nat then Some (walk_info vrt cif0 fields base c) else None.
Proof.
  revert base c. induction fields as [|[b n] fields IH]; intros base c Hnd Hle.
  - cbn [cif_walk cif_words]. rewrite Nat.add_0_r, (proj2 (Nat.leb_le _ _) Hle). by destruct c.
  - cbn in Hnd. apply NoDup_cons in Hnd as [Hb Hnd]. cbn [cif_walk cif_words]. unfold walk_info. cbn [locate].
    destruct (Z.testbit cif0 b) eqn:Et; cbn [negb].
    + destruct (Nat.ltb_spec size (base + n)) as [Hlt|Hge].
      { by rewrite (proj2 (Nat.leb_gt _ _)) by lia. }
      rewrite IH, Nat.add_assoc by done. destruct (_ <=? size)%nat; [|done]. apply (f_equal Some). unfold walk_info.
      destruct (Z.eqb_spec b CIF_RF_REF_FREQ) as [->|H1]; [by rewrite (locate_absent _ _ _ _ Hb)|].
      destruct (Z.eqb_spec b CIF_SAMPLE_RATE) as [->|H2]; [by rewrite (locate_absent _ _ _ _ Hb)|].
      destruct (Z.eqb_spec b CIF_DATA_FORMAT) as [->|H3]; [by rewrite (locate_absent _ _ _ _ Hb)|]. done.
    + rewrite IH by done. rewrite Nat.add_0_l, Nat.add_0_r.
      destruct (_ <=? size)%nat; [|done]. apply (f_equal Some). unfold walk_info.
      destruct (Z.eqb_spec b CIF_RF_REF_FREQ) as [->|H1]; [by rewrite (locate_absent _ _ _ _ Hb)|].
      destruct (Z.eqb_spec b CIF_SAMPLE_RATE) as [->|H2]; [by rewrite (locate_absent _ _ _ _ Hb)|].
      destruct (Z.eqb_spec b CIF_DATA_FORMAT) as [->|H3]; [by rewrite (locate_absent _ _ _ _ Hb)|]. done.
Qed.

Lemma vrl_strip_wrap vrl vrt : vrl_ok vrl -> (vrl = None -> be32 vrt 0 <> VRLP) ->
  let off := match vrl with Some _ => 8%nat | None => 0%nat end in
  (vrl = None \/ 0 < List.length vrt)%nat ->
  vrl_strip (vrl_wrap vrl vrt) (List.length (vrl_wrap vrl vrt)) = (off, (off + List.length vrt)%nat).
Proof.
  intros Hok Hno off Hl. unfold vrl_strip, vrl_wrap. subst off. destruct vrl as [[h t]|].
  - destruct Hok as [Hh Ht]. rewrite !length_app, Hh, Ht. change (List.length (put32 VRLP)) with 4%nat.
    rewrite (proj2 (Nat.leb_le _ _)) by lia. pose proof (be32_put [] VRLP (h ++ vrt ++ t)) as Hb.
    cbn [app List.length] in Hb. rewrite Hb by (unfold VRLP; lia). rewrite Z.eqb_refl. cbn [andb].
    f_equal. lia.
  - rewrite (proj2 (Z.eqb_neq _ _)) by auto. by rewrite andb_false_r.
Qed.

Lemma vrl_wrap_be32 vrl w rest : vrl_ok vrl -> 0 <= w < 2 ^ 32 ->
  be32 (vrl_wrap vrl (put32 w ++ rest)) (match vrl with Some _ => 8%nat | None => 0%nat end) = w.
Proof.
  intros Hok Hw. unfold vrl_wrap. destruct vrl as [[h t]|].
  - destruct Hok as [Hh Ht]. rewrite <- app_assoc, app_assoc. apply (be32_put (put32 VRLP ++ h)) with (rest := rest ++ t) in Hw.
    rewrite length_app, Hh in Hw. exact Hw.
  - by apply (be32_put []).
Qed.

(** A signal data packet: header word, optional header words [ext], payload and
    optional trailer. *)
Definition tx_data (typ cls trl tsi tsf cnt : Z) (ext payload tl : list Z) : list Z :=
  let size := (1 + (List.length ext + List.length payload + List.length tl) / 4)%nat in
  put32 (vrt_w0 typ cls trl tsi tsf cnt (Z.of_nat size)) ++ ext ++ payload ++ tl.

Definition ext_words (typ cls tsi tsf : Z) : nat :=
  (opt_words (typ =? VRT_TYPE_SIGNAL_DATA)%Z 1 + (opt_words (nz cls) 2 + opt_words (nz tsi) 1 + opt_words (nz tsf) 2))%nat.

Lemma common_words_w0 typ cls trl tsi tsf cnt size : 0 <= typ < 16 -> 0 <= cls < 2 -> 0 <= trl < 2 ->
  0 <= tsi < 4 -> 0 <= tsf < 4 -> 0 <= cnt < 16 -> 0 <= size < 2 ^ 16 ->
  common_words (vrt_w0 typ cls trl tsi tsf cnt size) = (opt_words (nz cls) 2 + opt_words (nz tsi) 1 + opt_words (nz tsf) 2)%nat.
Proof. intros. unfold common_words. by rewrite w0_class, w0_tsi, w0_tsf. Qed.

Lemma tx_data_shape typ cls trl tsi tsf cnt ext payload tl a n b :
  List.length ext = (4 * a)%nat -> List.length payload = (4 * n)%nat -> List.length tl = (4 * b)%nat ->
  tx_data typ cls trl tsi tsf cnt ext payload tl =
    put32 (vrt_w0 typ cls trl tsi tsf cnt (Z.of_nat (1 + (a + n + b)))) ++ ext ++ payload ++ tl.
Proof.
  intros Ha Hn Hb. unfold tx_data. rewrite Ha, Hn, Hb.
  by rewrite <- !Nat.mul_add_distr_l, (Nat.mul_comm 4), Nat.div_mul by lia.
Qed.

(** A well-formed data packet, possibly wrapped. *)
Section data_packet.
Context (vrl : option (list Z * list Z)) (typ cls trl tsi tsf cnt : Z) (ext payload tl : list Z) (n : nat).
Hypothesis Hvrl : vrl_ok vrl.
Hypothesis Ht : typ = 0 \/ typ = 1.
Hypothesis Hc : 0 <= cls < 2.
Hypothesis Hr : 0 <= trl < 2.
Hypothesis Hi : 0 <= tsi < 4.
Hypothesis Hf : 0 <= tsf < 4.
Hypothesis Hn : 0 <= cnt < 16.
Hypothesis Hext : List.length ext = (4 * ext_words typ cls tsi tsf)%nat.
Hypothesis Htl : List.length tl = (4 * opt_words (nz trl) 1)%nat.
Hypothesis Hpay : List.length payload = (4 * n)%nat.
Hypothesis Hpos : (0 < n)%nat.
Hypothesis Hmax : (8 + n < 2 ^ 16)%nat.
Let pkt := vrl_wrap vrl (tx_data typ cls trl tsi tsf cnt ext payload tl).
Let size := (1 + (ext_words typ cls tsi tsf + n + opt_words (nz trl) 1))%nat.
Let w0 := vrt_w0 typ cls trl tsi tsf cnt (Z.of_nat size).
Let off := match vrl with Some _ => 8%nat | None => 0%nat end.

Lemma ext_words_le : (ext_words typ cls tsi tsf <= 6)%nat.
Proof using. clear. unfold ext_words, opt_words; repeat case_match; lia. Qed.

Lemma data_size : 0 <= Z.of_nat size < 2 ^ 16.
Proof.
  pose proof ext_words_le. assert (opt_words (nz trl) 1 <= 1)%nat by (unfold opt_words; case_match; lia).
  unfold size. split; [lia|]. change (2 ^ 16) with (Z.of_nat (2 ^ 16)%nat). lia.
Qed.

Lemma data_tx : tx_data typ cls trl tsi tsf cnt ext payload tl = put32 w0 ++ ext ++ payload ++ tl.
Proof. by apply tx_data_shape. Qed.

Lemma data_w0 : be32 pkt off = w0.
Proof. unfold pkt. rewrite data_tx. apply vrl_wrap_be32; [done|]. pose proof data_size. apply w0_range; lia. Qed.

Lemma data_type : field w0 28 0xF = typ.
Proof. pose proof data_size. apply w0_type; lia. Qed.

Lemma data_len : List.length (tx_data typ cls trl tsi tsf cnt ext payload tl) = (4 * size)%nat.
Proof. rewrite data_tx, !length_app. change (List.length (put32 w0)) with 4%nat. unfold size. lia. Qed.

(** A data packet never starts like a wrapper. *)
Lemma data_not_vrl : w0 <> VRLP.
Proof. intros E. pose proof data_type as H. rewrite E in H. change (field VRLP 28 0xF) with 5 in H. lia. Qed.

Lemma data_strip : vrl_strip pkt (List.length pkt) = (off, (off + 4 * size)%nat).
Proof.
  unfold pkt, off. rewrite <- data_len. apply vrl_strip_wrap; [done| |right; rewrite data_len; unfold size; lia].
  intros E. pose proof data_w0 as H. unfold pkt, off in H. rewrite E in H. cbn [vrl_wrap] in H. rewrite H.
  apply data_not_vrl.
Qed.

Lemma data_vrt_off : (if be32 pkt 0 =? VRLP then 8%nat else 0%nat) = off.
Proof.
  pose proof data_w0 as H. pose proof data_not_vrl. unfold pkt, off, vrl_wrap in *. destruct vrl as [[h t]|].
  - pose proof (be32_put [] VRLP (h ++ tx_data typ cls trl tsi tsf cnt ext payload tl ++ t)) as Hb.
    cbn [app List.length] in Hb. rewrite Hb by (unfold VRLP; lia). by rewrite Z.eqb_refl.
  - by rewrite H, (proj2 (Z.eqb_neq _ _)).
Qed.

Lemma data_header :
  vrt_parse_header pkt = Some ((off + (1 + ext_words typ cls tsi tsf) * 4)%nat, List.length payload).
Proof.
  unfold vrt_parse_header. replace (List.length pkt <? 4)%nat with false.
  2: { symmetry. apply Nat.ltb_ge. unfold pkt, vrl_wrap. pose proof data_len as Hlen. unfold size in Hlen.
       destruct vrl as [[h t]|]; rewrite ?length_app, Hlen; lia. }
  rewrite data_strip, data_w0, data_type. unfold VRT_TYPE_SIGNAL_DATA_NO_SID, VRT_TYPE_SIGNAL_DATA.
  replace (negb (typ =? 0) && negb (typ =? 1)) with false by (destruct Ht as [-> | ->]; done).
  pose proof data_size. unfold w0. rewrite w0_size, Nat2Z.id, w0_trailer by lia.
  replace (_ || _) with false by (symmetry; apply orb_false_iff; split; apply Nat.ltb_ge; unfold size; lia).
  rewrite common_words_w0 by lia. fold (ext_words typ cls tsi tsf).
  replace (1 + opt_words (typ =? 1)%Z 1 + (opt_words (nz cls) 2 + opt_words (nz tsi) 1 + opt_words (nz tsf) 2))%nat
    with (1 + ext_words typ cls tsi tsf)%nat by (unfold ext_words; rewrite Nat.add_assoc; done).
  rewrite (proj2 (Nat.leb_gt _ _)) by (unfold size; lia). rewrite Hpay. do 2 f_equal. unfold size. lia.
Qed.

Lemma data_payload : slice pkt (off + (1 + ext_words typ cls tsi tsf) * 4)
  (off + (1 + ext_words typ cls tsi tsf) * 4 + List.length payload) = payload.
Proof.
  assert (exists pre post, pkt = (pre ++ put32 w0 ++ ext) ++ payload ++ post /\ List.length pre = off) as (pre & post & -> & Hp).
  { unfold pkt, off, vrl_wrap. rewrite data_tx. destruct vrl as [[h t]|].
    - exists (put32 VRLP ++ h), (tl ++ t). rewrite <- !app_assoc. split; [done|].
      rewrite length_app. destruct Hvrl as [-> _]. done.
    - exists [], tl. by rewrite <- !app_assoc. }
  rewrite slice_app_r; rewrite !length_app; change (List.length (put32 w0)) with 4%nat; [|lia].
  rewrite Hp, Hext. rewrite slice_app_l by lia. unfold slice.
  replace (off + (1 + ext_words typ cls tsi tsf) * 4 - (off + (4 + 4 * ext_words typ cls tsi tsf)))%nat with 0%nat by lia.
  rewrite drop_0. apply take_ge. lia.
Qed.
End data_packet.

Lemma slice_rd (l p : list Z) off i : slice l off (off + List.length p) = p -> (i < List.length p)%nat ->
  l.[(off + i)%nat] = p.[i].
Proof.
  intros Hs Hi. assert (p !! i = l !! (off + i)%nat) as E; [|unfold rd; by rewrite !nth_lookup, E].
  rewrite <- Hs at 1. unfold slice. by rewrite lookup_take_lt, lookup_drop by lia.
Qed.

(** Conversion reads the payload only. *)
Lemma convert_payload f pkt off payload : slice pkt off (off + List.length payload) = payload ->
  convert f pkt off (List.length payload) = convert f payload 0 (List.length payload).
Proof.
  intros Hs. pose proof (fun i => slice_rd pkt payload off i Hs) as Hr. unfold convert.
  destruct f; (case_match; [done|]);
    (apply (f_equal Some); f_equal; f_equal; apply map_ext_in; intros i Hi%in_seq).
  - f_equal. rewrite Nat.add_0_l. apply Hr. pose proof (Nat.Div0.mul_div_le (List.length payload) 2). lia.
  - pose proof (Nat.Div0.mul_div_le (List.length payload) 4). unfold ci16_sample.
    rewrite Nat.add_0_l, <- Nat.add_assoc, !Hr by lia. done.
  - pose proof (Nat.Div0.mul_div_le (List.length payload) 8). unfold be32.
    rewrite Nat.add_0_l, <- !Nat.add_assoc, !Hr by lia. done.
Qed.

(** What a step of the loop leaves of the options; reflexive and transitive. *)
Definition options_kept (st st' : v49_state) : Prop :=
  samp_rate_explicit st' = samp_rate_explicit st /\
  center_freq_explicit st' = center_freq_explicit st /\
  iq_format_explicit st' = iq_format_explicit st /\
  (ctx_logged st = true -> ctx_logged st' = true) /\
  (samp_rate_explicit st = true \/ ctx_logged st = true -> samp_rate st' = samp_rate st) /\
  (center_freq_explicit st = true \/ ctx_logged st = true -> center_freq st' = center_freq st) /\
  (iq_format_explicit st = true \/ ctx_logged st = true -> iq_format st' = iq_format st).

#[export] Instance options_kept_refl : Reflexive options_kept.
Proof. intros st. unfold options_kept. naive_solver. Qed.
#[export] Instance options_kept_trans : Transitive options_kept.
Proof.
  intros a b c (E1 & E2 & E3 & Hl & H1 & H2 & H3) (F1 & F2 & F3 & Gl & G1 & G2 & G3).
  rewrite E1, E2, E3 in *. repeat split; auto; intros H; [rewrite G1, H1|rewrite G2, H2|rewrite G3, H3]; tauto.
Qed.

Lemma handle_context_kept st vrt st' : vrt_handle_context st vrt = Continue st' -> options_kept st st'.
Proof.
  unfold vrt_handle_context. destruct (parse_context vrt) as [c|]; [|by intros [= <-]].
  destruct (_ && _); [by intros [= <-]|]. destruct (ctx_logged st) eqn:El; [by intros [= <-]|].
  destruct (detected_format c) as [f|]; [destruct (iq_format_explicit st && _); [done|]|];
    intros [= <-]; unfold options_kept; cbn; rewrite El; repeat split; try done;
    intros [->|]; done.
Qed.

Lemma handle_packet_kept st pkt st' s : handle_packet st pkt = Continue (st', s) -> options_kept st st'.
Proof.
  unfold handle_packet. destruct (vrl_strip pkt (List.length pkt)) as [o l]. case_match.
  - destruct (vrt_handle_context st _) as [|st1] eqn:E; [done|]. intros [= <- _]. by eapply handle_context_kept.
  - destruct (vrt_parse_header pkt) as [[po pb]|].
    + generalize (field (be32 pkt (if be32 pkt 0 =? VRLP then 8%nat else 0%nat)) 16 0xF). intros cnt.
      generalize (convert (iq_format (count_packet st cnt)) pkt po pb). intros o' [= <- _]. by unfold options_kept.
    + intros [= <- _]. by unfold options_kept.
Qed.

Lemma run_kept pkts st st' : run_packets st pkts = Continue st' -> options_kept st st'.
Proof.
  revert st. induction pkts as [|pkt pkts IH]; intros st; cbn [run_packets]; [by intros [= <-]|].
  destruct (handle_packet st pkt) as [|[st1 s]] eqn:E; [done|]. intros H.
  transitivity st1; [by eapply handle_packet_kept|by apply IH].
Qed.

(** ** Concrete inputs for the witnesses *)

Definition demo_vrt : list Z := tx_data 1 1 1 1 1 7 (replicate 24 0) [1; 2; 3; 4; 250; 251; 252; 253] [0; 0; 0; 9].
(** A context packet with sample rate 10 MHz, RF frequency 1.626 GHz, gain and
    a complex 16-bit format. *)
Definition demo_context : list Z :=
  put32 (vrt_w0 4 0 0 0 0 0 10) ++ put32 0 ++ put32 (2 ^ 27 + 2 ^ 23 + 2 ^ 21 + 2 ^ 15) ++
  put32 (1626000000 * 2 ^ 20 / 2 ^ 32) ++ put32 (1626000000 * 2 ^ 20 mod 2 ^ 32) ++ put32 0 ++
  put32 (10000000 * 2 ^ 20 / 2 ^ 32) ++ put32 (10000000 * 2 ^ 20 mod 2 ^ 32) ++ put32 (2 ^ 29 + 15) ++ put32 0.

Definition demo_state : v49_state :=
  V49 (f64_of_Z 12000000) false (f64_of_Z 1622000000) true FMT_CI16 false false false 6 true 3 0 0.
(** Two data packets around a context packet and an empty datagram. *)
Definition demo_stream : list (list Z) :=
  [demo_vrt; demo_context; []; tx_data 0 0 0 0 0 8 [] [1; 2; 3; 4] []].
Definition demo_final : v49_state :=
  V49 (f64_of_Z 10000000) false (f64_of_Z 1622000000) true FMT_CI16 false true true 8 true 5 1 0.

(** * Properties *)

(** C39 (roundtrip). Every signal data packet is delivered: whatever optional
    parts the header announces, with or without VRL wrapper, the loop counts the
    packet under its sequence number and pushes exactly the samples of the bytes
    between header and trailer. *)
Theorem vrt_data_delivered st vrl typ cls trl tsi tsf cnt (ext payload tl : list Z) (n : nat) :
  vrl_ok vrl -> typ = 0 \/ typ = 1 -> 0 <= cls < 2 -> 0 <= trl < 2 -> 0 <= tsi < 4 -> 0 <= tsf < 4 -> 0 <= cnt < 16 ->
  List.length ext = (4 * ext_words typ cls tsi tsf)%nat -> List.length tl = (4 * opt_words (nz trl) 1)%nat ->
  List.length payload = (4 * n)%nat -> (0 < n)%nat -> (8 + n < 2 ^ 16)%nat ->
  handle_packet st (vrl_wrap vrl (tx_data typ cls trl tsi tsf cnt ext payload tl)) =
    Continue (count_packet st cnt, convert (iq_format st) payload 0 (List.length payload)).
Proof.
  intros. unfold handle_packet. erewrite data_strip, data_w0, data_type by eassumption.
  replace ((typ =? VRT_TYPE_IF_CONTEXT) || (typ =? VRT_TYPE_EXT_CONTEXT)) with false
    by (destruct_or!; by subst typ). rewrite andb_false_r.
  erewrite data_header by eassumption. erewrite data_vrt_off, data_w0 by eassumption.
  rewrite w0_count by (try (eapply data_size; eassumption); lia).
  do 2 f_equal. apply convert_payload. eapply data_payload; eassumption.
Qed.

Lemma vrt_data_delivered_witness :
  handle_packet demo_state (vrl_wrap (Some ([0; 0; 0; 1], [69; 78; 68; 33])) demo_vrt) =
    Continue (count_packet demo_state 7, Some (SampleBuf 2 (SAMPLE_FMT_INT8 [1; 3; -6; -4]))).
Proof.
  apply (vrt_data_delivered demo_state (Some ([0; 0; 0; 1], [69; 78; 68; 33])) 1 1 1 1 1 7 (replicate 24 0)
    [1; 2; 3; 4; 250; 251; 252; 253] [0; 0; 0; 9] 2); try lia; try done.
  apply Nat.ltb_lt. vm_compute. reflexivity.
Defined.

(** No packet makes the reader leave the datagram: the payload it
    reports lies inside the received bytes and is not empty. *)
Theorem vrt_payload_in_bounds (pkt : list Z) (off n : nat) :
  vrt_parse_header pkt = Some (off, n) -> (4 <= off)%nat /\ (0 < n)%nat /\ (off + n <= List.length pkt)%nat.
Proof.
  unfold vrt_parse_header. destruct (_ <? 4)%nat; [done|].
  destruct (vrl_strip pkt (List.length pkt)) as [vo len] eqn:Es.
  assert (len <= List.length pkt /\ vo <= len)%nat as Hl.
  { unfold vrl_strip in Es. destruct (Nat.leb_spec 12 (List.length pkt)), (be32 pkt 0 =? VRLP); cbn [andb] in Es;
      injection Es as <- <-; lia. }
  destruct (negb _ && negb _); [done|]. set (sz := Z.to_nat _). destruct (_ || _) eqn:E1; [done|].
  apply orb_false_iff in E1 as [E1%Nat.ltb_ge E2%Nat.ltb_ge].
  set (hw := (1 + _ + _)%nat). set (tw := opt_words _ 1). destruct (Nat.leb_spec sz (hw + tw)); [done|].
  assert (1 <= hw)%nat by (unfold hw; lia). clearbody sz hw tw. intros Heq.
  pose proof (f_equal (option_map fst) Heq) as Ha. pose proof (f_equal (option_map snd) Heq) as Hb.
  cbn [option_map fst snd] in Ha, Hb. apply (inj Some) in Ha, Hb. subst off n. lia.
Qed.

Lemma vrt_payload_in_bounds_witness : (28 + 8 <= List.length demo_vrt)%nat.
Proof. apply (vrt_payload_in_bounds demo_vrt 28 8). vm_compute. reflexivity. Defined.

(** Context packets are read field by field at the right place:
    a packet that is long enough for the fields its indicator announces yields
    exactly the RF frequency, sample rate and data format found after the words
    of the fields before them, and a shorter one nothing. *)
Theorem context_fields (vrt : list Z) :
  (8 <= List.length vrt)%nat ->
  let size := Z.to_nat (Z.land (word vrt 0) 0xFFFF) in
  (2 <= size)%nat -> (size * 4 <= List.length vrt)%nat ->
  let off := (2 + common_words (word vrt 0))%nat in
  (off < size)%nat ->
  let cif0 := word vrt off in
  let at_bit bit := (off + 1 + words_before cif0 bit cif_fields)%nat in
  parse_context vrt =
  if (off + 1 + cif_words cif0 cif_fields <=? size)%nat then
    Some (CtxInfo
      (if Z.testbit cif0 27 then Some (fixed20 (read_be64 vrt (at_bit 27))) else None)
      (if Z.testbit cif0 21 then Some (fixed20 (read_be64 vrt (at_bit 21))) else None)
      (if Z.testbit cif0 15 then vrt_parse_data_format (word vrt (at_bit 15)) else None))
  else None.
Proof.
  intros Hl size H2 Hsz off Hoff cif0 at_bit. unfold parse_context. fold size.
  rewrite (proj2 (Nat.ltb_ge _ _) Hl), (proj2 (Nat.ltb_ge _ _) Hsz), (proj2 (Nat.ltb_ge _ _) H2). cbn [orb].
  fold off. rewrite (proj2 (Nat.leb_gt _ _) Hoff). fold cif0.
  rewrite cif_walk_spec by (lia || eval_dec). destruct (_ <=? size)%nat; [|done]. apply (f_equal Some).
  unfold walk_info. cbn [rf_freq_hz ctx_samp_rate detected_format].
  rewrite !locate_offset by eval_dec. unfold located, at_bit, CIF_RF_REF_FREQ, CIF_SAMPLE_RATE, CIF_DATA_FORMAT.
  by destruct (Z.testbit cif0 27), (Z.testbit cif0 21), (Z.testbit cif0 15).
Qed.

Lemma context_fields_witness :
  parse_context demo_context =
    Some (CtxInfo (Some (f64_of_Z 1626000000)) (Some (f64_of_Z 10000000)) (Some FMT_CI16)).
Proof.
  rewrite (context_fields demo_context); [vm_compute; reflexivity| | | |];
    apply Nat.leb_le; vm_compute; reflexivity.
Defined.

(** The stream never overrides the command line, and is
    believed once: over any sequence of datagrams an option given explicitly
    keeps its value, and after the first context packet that carried one of the
    three fields no option changes any more. *)
Theorem stream_options_latched (pkts : list (list Z)) (st st' : v49_state) :
  run_packets st pkts = Continue st' ->
  (samp_rate_explicit st = true -> samp_rate st' = samp_rate st) /\
  (center_freq_explicit st = true -> center_freq st' = center_freq st) /\
  (iq_format_explicit st = true -> iq_format st' = iq_format st) /\
  (ctx_logged st = true ->
     samp_rate st' = samp_rate st /\ center_freq st' = center_freq st /\ iq_format st' = iq_format st).
Proof.
  intros (_ & _ & _ & _ & H1 & H2 & H3)%run_kept. repeat split; auto.
Qed.

Lemma stream_options_latched_witness :
  center_freq demo_final = center_freq demo_state.
Proof.
  refine (proj1 (proj2 (stream_options_latched demo_stream demo_state demo_final _)) _); vm_compute; reflexivity.
Defined.
