(* ===== verification/Kermit.v ===== *)
(** CRC-16/Kermit of the ACARS fallback parser, [src/sbd_acars.c]: the table
    filled by [crc16_init] and the table-driven [crc16_kermit].

    The reference is the bit-serial shift register, least significant bit of
    each byte first; the table-driven routine computes it, and a message
    followed by its checksum is the only one with residue zero. *)
From S2P Require Import Prelude.

(** * Definitions *)

(** One round of the inner loop of [crc16_init]. *)
Definition kermit_shift (crc : Z) : Z :=
  if Z.testbit crc 0 then Z.lxor (Z.shiftr crc 1) 0x8408 else Z.shiftr crc 1.

Definition crc16_init : list Z := map (fun i => Nat.iter 8 kermit_shift (Z.of_nat i)) (seq 0 256).

Definition kermit_byte (crc16_table : list Z) (crc b : Z) : Z :=
  Z.lxor (crc16_table.[Z.to_nat (Z.land (Z.lxor crc b) 0xFF)]) (Z.shiftr crc 8).

Definition crc16_kermit (crc16_table : list Z) (data : list Z) : Z :=
  fold_left (kermit_byte crc16_table) data 0.

(** * The bit-serial register *)

(** Bits of a byte, least significant first. *)
Definition lsb_bits (b : Z) : list Z := map (fun i => Z.land (Z.shiftr b (Z.of_nat i)) 1) (seq 0 8).
Definition kermit_bit (crc bit : Z) : Z := kermit_shift (Z.lxor crc bit).
Definition kermit_serial (crc : Z) (data : list Z) : Z := fold_left kermit_bit (flat_map lsb_bits data) crc.

(** * Lemmas *)

Definition kermit_shifts (n : nat) (c : Z) : Z := Nat.iter n kermit_shift c.

Lemma kermit_shift_lxor a b : kermit_shift (Z.lxor a b) = Z.lxor (kermit_shift a) (kermit_shift b).
Proof.
  unfold kermit_shift. rewrite Z.lxor_spec, Z.shiftr_lxor.
  set (x := Z.shiftr a 1). set (y := Z.shiftr b 1).
  destruct (Z.testbit a 0), (Z.testbit b 0); simpl; try done.
  - by rewrite lxor_swap, Z.lxor_nilpotent, Z.lxor_0_r.
  - by rewrite !Z.lxor_assoc, (Z.lxor_comm y).
  - by rewrite Z.lxor_assoc.
Qed.

Lemma kermit_shifts_lxor n a b : kermit_shifts n (Z.lxor a b) = Z.lxor (kermit_shifts n a) (kermit_shifts n b).
Proof. induction n as [|n IH]; [done|]. simpl. by rewrite IH, kermit_shift_lxor. Qed.

Lemma shiftr_range c n : 0 <= c < 2 ^ 16 -> 0 <= n -> 0 <= Z.shiftr c n < 2 ^ 16.
Proof.
  intros Hc Hn. rewrite Z.shiftr_div_pow2 by done. split; [apply Z.div_pos; lia|].
  apply Z.le_lt_trans with c; [apply Z.div_le_upper_bound; nia|lia].
Qed.

Lemma kermit_shift_range c : 0 <= c < 2 ^ 16 -> 0 <= kermit_shift c < 2 ^ 16.
Proof.
  intros Hc. pose proof (shiftr_range c 1 Hc ltac:(lia)). unfold kermit_shift.
  destruct (Z.testbit c 0); [apply lxor_range|]; lia.
Qed.

Lemma kermit_shifts_range n c : 0 <= c < 2 ^ 16 -> 0 <= kermit_shifts n c < 2 ^ 16.
Proof. intros Hc. induction n as [|n IH]; [done|]. by apply kermit_shift_range. Qed.

(** A value above the lowest [n] bits is moved down unchanged. *)
Lemma kermit_shifts_high n c : kermit_shifts n (Z.shiftl c (Z.of_nat n)) = c.
Proof.
  revert c. induction n as [|n IH]; intros c; [by rewrite Z.shiftl_0_r|].
  rewrite Nat2Z.inj_succ, <- Z.add_1_r, (Z.add_comm _ 1), <- Z.shiftl_shiftl by lia. simpl.
  change (kermit_shift (kermit_shifts n (Z.shiftl (Z.shiftl c 1) (Z.of_nat n))) = c). rewrite IH.
  unfold kermit_shift. rewrite Z.shiftl_spec_low by lia. apply Z.shiftr_shiftl_l. lia.
Qed.

Lemma split_byte c : c = Z.lxor (Z.land c 0xFF) (Z.shiftl (Z.shiftr c 8) 8).
Proof.
  apply Z.bits_inj. intros i. rewrite Z.lxor_spec, Z.land_spec. change 0xFF with (Z.ones 8).
  destruct (decide (i < 0)); [by rewrite !Z.testbit_neg_r by lia|]. destruct (decide (i < 8)).
  - rewrite Z.ones_spec_low, Z.shiftl_spec_low, andb_true_r, xorb_false_r by lia. done.
  - rewrite Z.ones_spec_high, andb_false_r, Z.shiftl_spec, Z.shiftr_spec by lia. simpl. f_equal. lia.
Qed.

Lemma kermit_table i : 0 <= i < 256 -> crc16_init.[Z.to_nat i] = kermit_shifts 8 i.
Proof.
  intros Hi. unfold rd, crc16_init.
  rewrite (nth_indep _ 0 (kermit_shifts 8 (Z.of_nat 0))) by (rewrite length_map, length_seq; lia).
  rewrite (map_nth (fun i => kermit_shifts 8 (Z.of_nat i))), seq_nth by lia. f_equal. lia.
Qed.

(** The table step is eight shifts. *)
Lemma kermit_byte_shifts c b : is_byte b -> kermit_byte crc16_init c b = kermit_shifts 8 (Z.lxor c b).
Proof.
  intros Hb. unfold kermit_byte. assert (0 <= Z.land (Z.lxor c b) 0xFF < 256).
  { rewrite (land_mask _ _ 8) by lia. apply Z.mod_pos_bound. lia. }
  rewrite kermit_table by done. rewrite (split_byte (Z.lxor c b)) at 2. rewrite kermit_shifts_lxor.
  f_equal. rewrite Z.shiftr_lxor. rewrite (Z.shiftr_eq_0 b 8), Z.lxor_0_r.
  - symmetry. apply (kermit_shifts_high 8).
  - unfold is_byte in Hb. lia.
  - unfold is_byte in Hb. destruct (decide (b = 0)) as [->|]; [done|]. apply Z.log2_lt_pow2; lia.
Qed.

Lemma kermit_serial_bits n c b : 
  fold_left kermit_bit (map (fun i => Z.land (Z.shiftr b (Z.of_nat i)) 1) (seq 0 n)) c =
  kermit_shifts n (Z.lxor c (Z.land b (Z.ones (Z.of_nat n)))).
Proof.
  revert c. induction n as [|n IH]; intros c; [by rewrite Z.land_0_r, Z.lxor_0_r|].
  rewrite seq_S, map_app, fold_left_app, IH. cbn [map fold_left]. unfold kermit_bit. rewrite Nat.add_0_l.
  change (kermit_shifts (S n)) with (fun c => kermit_shift (kermit_shifts n c)). cbv beta. f_equal.
  rewrite <- (kermit_shifts_high n (Z.land (Z.shiftr b (Z.of_nat n)) 1)) at 1.
  rewrite <- kermit_shifts_lxor. f_equal. rewrite Z.lxor_assoc. f_equal.
  apply Z.bits_inj. intros i. rewrite Z.lxor_spec, !Z.land_spec. change 1 with (Z.ones 1).
  destruct (decide (i < 0)); [by rewrite !Z.testbit_neg_r by lia|].
  destruct (decide (i < Z.of_nat n)).
  - rewrite !Z.ones_spec_low, Z.shiftl_spec_low, xorb_false_r by lia. done.
  - rewrite (Z.ones_spec_high (Z.of_nat n)), andb_false_r, Z.shiftl_spec, Z.land_spec, Z.shiftr_spec by lia.
    replace (i - Z.of_nat n + Z.of_nat n) with i by lia. simpl. f_equal. rewrite !Z.testbit_ones by lia.
    zguards; done.
Qed.

Lemma kermit_byte_serial c b : is_byte b -> fold_left kermit_bit (lsb_bits b) c = kermit_byte crc16_init c b.
Proof.
  intros Hb. unfold lsb_bits. rewrite kermit_serial_bits, kermit_byte_shifts by done. do 2 f_equal.
  rewrite Z.land_ones by lia. by apply Z.mod_small.
Qed.

Lemma kermit_fold_serial data c : bytes_ok data ->
  fold_left (kermit_byte crc16_init) data c = kermit_serial c data.
Proof.
  intros Hd. revert c. induction Hd as [|b data Hb _ IH]; intros c; [done|].
  unfold kermit_serial. cbn [fold_left flat_map]. by rewrite fold_left_app, kermit_byte_serial, IH.
Qed.

Lemma kermit_byte_range c b : 0 <= c < 2 ^ 16 -> is_byte b -> 0 <= kermit_byte crc16_init c b < 2 ^ 16.
Proof.
  intros Hc Hb. rewrite kermit_byte_shifts by done. apply kermit_shifts_range, lxor_range; [lia|done|].
  unfold is_byte in Hb. lia.
Qed.

Lemma kermit_fold_range data c : bytes_ok data -> 0 <= c < 2 ^ 16 ->
  0 <= fold_left (kermit_byte crc16_init) data c < 2 ^ 16.
Proof.
  intros Hd. revert c. induction Hd as [|b data Hb _ IH]; intros c Hc; [done|].
  cbn [fold_left]. by apply IH, kermit_byte_range.
Qed.

Lemma kermit_range data : bytes_ok data -> 0 <= crc16_kermit crc16_init data < 2 ^ 16.
Proof. intros. apply kermit_fold_range; [done|lia]. Qed.

Lemma kermit_shift_kernel y : 0 <= y < 2 ^ 16 -> kermit_shift y = 0 -> y = 0.
Proof.
  intros Hy H. unfold kermit_shift in H. rewrite Z.shiftr_div_pow2 in H by lia.
  pose proof (Z.bit0_mod y) as Hm. destruct (Z.testbit y 0); simpl in Hm.
  - apply Z.lxor_eq in H. exfalso. Z.div_mod_to_equations. lia.
  - Z.div_mod_to_equations. lia.
Qed.

Lemma kermit_shifts_kernel n x : 0 <= x < 2 ^ 16 -> kermit_shifts n x = 0 -> x = 0.
Proof.
  intros Hx. induction n as [|n IH]; [done|]. intros H. apply IH, kermit_shift_kernel; [|done].
  by apply kermit_shifts_range.
Qed.

Lemma lxor_word lo hi : is_byte lo -> Z.lxor lo (Z.shiftl hi 8) = lo + 256 * hi.
Proof.
  unfold is_byte. intros Hlo. assert (Z.land (Z.shiftl hi 8) lo = 0) as H0.
  { apply Z.bits_inj_0. intros i. rewrite Z.land_spec.
    destruct (decide (8 <= i)); [by rewrite (testbit_high lo 8), andb_false_r by lia|].
    destruct (decide (i < 0)); [by rewrite Z.testbit_neg_r by lia|]. by rewrite Z.shiftl_spec_low by lia. }
  rewrite Z.lxor_comm, <- Z.add_nocarry_lxor, Z.shiftl_mul_pow2 by (done || lia). lia.
Qed.

(** Two checksum bytes, low one first, leave the register empty exactly when
    they spell its contents. *)
Lemma kermit_two_bytes c lo hi : 0 <= c < 2 ^ 16 -> is_byte lo -> is_byte hi ->
  kermit_byte crc16_init (kermit_byte crc16_init c lo) hi = 0 <-> c = lo + 256 * hi.
Proof.
  intros Hc Hlo Hhi. rewrite !kermit_byte_shifts by done.
  rewrite <- (kermit_shifts_high 8 hi) at 1. rewrite <- kermit_shifts_lxor.
  change (Z.of_nat 8) with 8. rewrite Z.lxor_assoc.
  rewrite lxor_word by done. split; [|intros ->; by rewrite Z.lxor_nilpotent].
  assert (0 <= Z.lxor c (lo + 256 * hi) < 2 ^ 16) as Hr by (unfold is_byte in *; apply lxor_range; lia).
  intros H. apply Z.lxor_eq, (kermit_shifts_kernel 8); [done|].
  apply (kermit_shifts_kernel 8); [by apply kermit_shifts_range|done].
Qed.

Lemma kermit_residue msg lo hi : bytes_ok msg -> is_byte lo -> is_byte hi ->
  crc16_kermit crc16_init (msg ++ [lo; hi]) = 0 <-> crc16_kermit crc16_init msg = lo + 256 * hi.
Proof.
  intros Hm Hlo Hhi. unfold crc16_kermit at 1. rewrite fold_left_app. cbn [fold_left].
  apply kermit_two_bytes; [by apply kermit_range|done..].
Qed.

(** * Properties *)

(** The table-driven checksum is the bit-serial one: for all
    bytes, [crc16_kermit] with the table of [crc16_init] leaves the register of
    the reflected CRC-16 with polynomial 0x8408 fed bit by bit. *)
Theorem crc16_kermit_serial (data : list Z) :
  bytes_ok data -> crc16_kermit crc16_init data = kermit_serial 0 data.
Proof. apply kermit_fold_serial. Qed.

Lemma crc16_kermit_serial_witness : kermit_serial 0 [0x31; 0x32; 0x33; 0x34; 0x35; 0x36; 0x37; 0x38; 0x39] = 0x2189.
Proof.
  rewrite <- (crc16_kermit_serial [0x31; 0x32; 0x33; 0x34; 0x35; 0x36; 0x37; 0x38; 0x39]) by eval_dec.
  vm_compute. reflexivity.
Defined.
