(* ===== verification/JsonText.v ===== *)
(** JSON text of the ACARS outputs, [src/sbd_acars.c]: string escaping
    ([json_escape] and its copy [hub_json_escape]) and the fixed output buffers
    ([json_buf_append] and its copy [hub_buf_append]).

    Characters are bytes.  An escaped string is what the C function writes
    before the terminating NUL. *)
From S2P Require Import Prelude CString.
#[local] Open Scope Z_scope.

(** * Definitions *)

(** The bytes of a string literal. *)
Definition bytes_of (s : string) : list Z := map (fun c => Z.of_nat (nat_of_ascii c)) (list_ascii_of_string s).

(** What one input character becomes, and the room asked for it: [None] is the
    last branch, which makes no test of its own. *)
Definition escape_char (c : Z) : list Z * option nat :=
  if c =? 34 then ([92; 34], Some 2%nat)
  else if c =? 92 then ([92; 92], Some 2%nat)
  else if c =? 10 then ([92; 110], Some 2%nat)
  else if c =? 13 then ([92; 114], Some 2%nat)
  else if c =? 9 then ([92; 116], Some 2%nat)
  else if (c <? 0x20) || (c =? 0x7f) then (bytes_of (String.append "\u" (pad0 4 (fmt_x c))), Some 6%nat)
  else ([c], None).

(** The loop from output position [o]. *)
Fixpoint escape_from (inp : list Z) (outsz o : nat) : list Z :=
  match inp with
  | [] => []
  | c :: inp =>
      if (o <? outsz - 2)%nat then
        let '(e, room) := escape_char c in
        match room with
        | Some k => if (outsz <=? o + k)%nat then [] else e ++ escape_from inp outsz (o + List.length e)
        | None => e ++ escape_from inp outsz (o + List.length e)
        end
      else []
  end.

Definition json_escape (inp : list Z) (outsz : nat) : list Z := escape_from inp outsz 0.

(** The aggregator's copy of the routine. *)
Definition hub_json_escape (inp : list Z) (outsz : nat) : list Z := escape_from inp outsz 0.

(** The output buffer: the characters before [json_pos]. *)
Definition JSON_BUF_SIZE : nat := Z.to_nat 8192.
Definition json_buf_append (buf s : list Z) : list Z :=
  if (JSON_BUF_SIZE - 1 <=? List.length buf)%nat then buf
  else buf ++ take (JSON_BUF_SIZE - List.length buf - 1) s.

Definition hub_buf_append (buf s : list Z) : list Z :=
  if (JSON_BUF_SIZE - 1 <=? List.length buf)%nat then buf
  else buf ++ take (JSON_BUF_SIZE - List.length buf - 1) s.

(** * Reading JSON strings *)

Definition hex_value (c : Z) : option Z :=
  if (48 <=? c) && (c <=? 57) then Some (c - 48)
  else if (97 <=? c) && (c <=? 102) then Some (c - 87)
  else if (65 <=? c) && (c <=? 70) then Some (c - 55)
  else None.

(** The contents of a JSON string between its quotes: raw control characters
    and quotes are refused, escapes up to [\u00ff] are decoded. *)
Fixpoint json_unescape (s : list Z) : option (list Z) :=
  match s with
  | [] => Some []
  | x :: s =>
      if x =? 92 then
        match s with
        | [] => None
        | e :: s =>
            if e =? 117 then
              match s with
              | a :: b :: c :: d :: s =>
                  match hex_value a, hex_value b, hex_value c, hex_value d, json_unescape s with
                  | Some 0, Some 0, Some h, Some l, Some r => Some (16 * h + l :: r)
                  | _, _, _, _, _ => None
                  end
              | _ => None
              end
            else
              match
                (if (e =? 34) || (e =? 92) || (e =? 47) then Some e
                 else if e =? 110 then Some 10 else if e =? 114 then Some 13 else if e =? 116 then Some 9
                 else if e =? 98 then Some 8 else if e =? 102 then Some 12 else None), json_unescape s
              with
              | Some c, Some r => Some (c :: r)
              | _, _ => None
              end
        end
      else if (x <? 32) || (x =? 34) then None
      else match json_unescape s with Some r => Some (x :: r) | None => None end
  end.

(** * Lemmas *)

(** The control characters, escaped as four hexadecimal digits. *)
Lemma escape_control c : 0 <= c < 0x20 \/ c = 0x7f ->
  exists h l, bytes_of (String.append "\u" (pad0 4 (fmt_x c))) = [92; 117; 48; 48; h; l] /\
    (exists vh vl, hex_value h = Some vh /\ hex_value l = Some vl /\ 16 * vh + vl = c).
Proof.
  intros Hc. assert (exists n, c = Z.of_nat n /\ (n < 32 \/ n = 127)%nat) as (n & -> & Hn)
    by (exists (Z.to_nat c); lia).
  destruct Hn as [Hn| ->]; [do 32 (destruct n as [|n]; [by do 2 eexists; split; [reflexivity|do 2 eexists]|]); lia|].
  by do 2 eexists; split; [reflexivity|do 2 eexists].
Qed.

(** The three shapes of an escaped character. *)
Lemma escape_char_cases c : is_byte c ->
  (exists e, escape_char c = ([92; e], Some 2%nat) /\ e <> 117 /\
     forall s, json_unescape (92 :: e :: s) = match json_unescape s with Some r => Some (c :: r) | None => None end) \/
  (exists h l vh vl, escape_char c = ([92; 117; 48; 48; h; l], Some 6%nat) /\
     hex_value h = Some vh /\ hex_value l = Some vl /\ 16 * vh + vl = c) \/
  (escape_char c = ([c], None) /\ 32 <= c /\ c <> 34 /\ c <> 92).
Proof.
  unfold is_byte. intros Hc. unfold escape_char.
  destruct (Z.eqb_spec c 34) as [->|H1]; [by left; eexists|].
  destruct (Z.eqb_spec c 92) as [->|H2]; [by left; eexists|].
  destruct (Z.eqb_spec c 10) as [->|H3]; [by left; eexists|].
  destruct (Z.eqb_spec c 13) as [->|H4]; [by left; eexists|].
  destruct (Z.eqb_spec c 9) as [->|H5]; [by left; eexists|].
  destruct ((c <? 0x20) || (c =? 0x7f)) eqn:E; [right; left|right; right; repeat split; bsplit; lia].
  destruct (escape_control c) as (h & l & -> & vh & vl & Hh); [apply orb_true_iff in E; lia|].
  by exists h, l, vh, vl.
Qed.

Lemma unescape_escape c s : is_byte c ->
  json_unescape (fst (escape_char c) ++ s) = match json_unescape s with Some r => Some (c :: r) | None => None end.
Proof.
  intros [(e & -> & _ & He)|[(h & l & vh & vl & -> & Hh & Hl & Hv)|(-> & H1 & H2 & H3)]]%escape_char_cases.
  - apply He.
  - cbn [fst app json_unescape]. change (92 =? 92) with true. change (117 =? 117) with true. cbn iota.
    change (hex_value 48) with (Some 0). rewrite Hh, Hl, Hv. done.
  - cbn [fst app json_unescape]. rewrite (proj2 (Z.eqb_neq c 92) H3), (proj2 (Z.eqb_neq c 34) H2).
    by rewrite (proj2 (Z.ltb_ge c 32) H1).
Qed.

(** What the loop keeps: the escapes of a prefix of its input. *)
Lemma escape_from_prefix inp outsz o : exists k, escape_from inp outsz o = flat_map (fst ∘ escape_char) (take k inp).
Proof.
  revert o. induction inp as [|c inp IH]; intros o; [by exists 0%nat|]. cbn [escape_from].
  destruct (o <? outsz - 2)%nat; [|by exists 0%nat].
  destruct (escape_char c) as [e room] eqn:E.
  assert (exists k, e ++ escape_from inp outsz (o + List.length e) = flat_map (fst ∘ escape_char) (take k (c :: inp))) as Hk.
  { destruct (IH (o + List.length e)%nat) as [k ->]. exists (S k). simpl. by rewrite E. }
  destruct room as [k|]; [|done]. destruct (outsz <=? o + k)%nat; [by exists 0%nat|done].
Qed.

Lemma escape_from_fits inp outsz o : bytes_ok inp ->
  (o + List.length (flat_map (fst ∘ escape_char) inp) <= outsz - 2)%nat ->
  escape_from inp outsz o = flat_map (fst ∘ escape_char) inp.
Proof.
  intros Hi. revert o. induction Hi as [|c inp Hc _ IH]; intros o Ho; [done|].
  cbn [escape_from flat_map compose] in *. rewrite length_app in Ho.
  assert (match snd (escape_char c) with Some k => List.length (fst (escape_char c)) = k | None => True end /\
    1 <= List.length (fst (escape_char c)))%nat as [Hr Hl].
  { by destruct (escape_char_cases c Hc) as [(e & -> & _)|[(h & l & vh & vl & -> & _)|(-> & _)]]; cbn; lia. }
  destruct (escape_char c) as [e room]. cbn [fst snd] in *.
  rewrite (proj2 (Nat.ltb_lt _ _)) by lia. rewrite (IH (o + List.length e)%nat) by lia.
  destruct room as [k|]; [|done]. rewrite (proj2 (Nat.leb_gt _ _)) by lia. done.
Qed.

Lemma escape_from_length inp outsz o : bytes_ok inp -> (o < outsz)%nat ->
  (o + List.length (escape_from inp outsz o) < outsz)%nat.
Proof.
  intros Hi. revert o. induction Hi as [|c inp Hc _ IH]; intros o Ho; [cbn; lia|].
  cbn [escape_from]. destruct (Nat.ltb_spec o (outsz - 2)) as [Hlt|]; [|cbn; lia].
  destruct (escape_char_cases c Hc) as [(e & -> & _)|[(h & l & vh & vl & -> & _)|(-> & _)]].
  - destruct (Nat.leb_spec outsz (o + 2)); [cbn; lia|]. rewrite length_app. cbn [List.length].
    specialize (IH (o + 2)%nat). lia.
  - destruct (Nat.leb_spec outsz (o + 6)); [cbn; lia|]. rewrite length_app. cbn [List.length].
    specialize (IH (o + 6)%nat). lia.
  - rewrite length_app. cbn [List.length]. specialize (IH (o + 1)%nat). lia.
Qed.

Lemma unescape_flat_map inp : bytes_ok inp -> json_unescape (flat_map (fst ∘ escape_char) inp) = Some inp.
Proof.
  induction 1 as [|c inp Hc _ IH]; [done|]. cbn [flat_map]. unfold compose at 1.
  rewrite unescape_escape by done. by rewrite IH.
Qed.

Lemma escape_length_le inp : bytes_ok inp -> (List.length (flat_map (fst ∘ escape_char) inp) <= 6 * List.length inp)%nat.
Proof.
  induction 1 as [|c inp Hc _ IH]; [done|]. cbn [flat_map]. rewrite length_app. unfold compose at 1.
  assert (List.length (fst (escape_char c)) <= 6)%nat; [|cbn [List.length]; lia].
  destruct (escape_char_cases c Hc) as [(e & -> & _)|[(h & l & vh & vl & -> & _)|(-> & _)]]; cbn; lia.
Qed.

(** Printable text without quotes and backslashes is copied. *)
Definition plain_char (c : Z) : Prop := 32 <= c < 127 /\ c <> 34 /\ c <> 92.
#[export] Instance plain_char_dec c : Decision (plain_char c).
Proof. unfold plain_char. apply _. Defined.

Lemma escape_plain_char c : plain_char c -> escape_char c = ([c], None).
Proof. unfold plain_char, escape_char. intros. zguards; done. Qed.

Lemma escape_plain inp outsz : Forall plain_char inp -> (List.length inp <= outsz - 2)%nat -> json_escape inp outsz = inp.
Proof.
  intros Hp Hl. assert (flat_map (fst ∘ escape_char) inp = inp) as E.
  { clear Hl. induction Hp as [|c inp Hc _ IH]; [done|]. cbn [flat_map]. unfold compose at 1.
    rewrite escape_plain_char by done. cbn. by f_equal. }
  unfold json_escape. rewrite escape_from_fits; rewrite ?E; try done.
  eapply Forall_impl; [done|]. unfold plain_char, is_byte. lia.
Qed.

(** The buffer keeps the first 8191 characters of everything appended. *)
Lemma json_buf_append_take buf s : (List.length buf <= JSON_BUF_SIZE - 1)%nat ->
  json_buf_append buf s = take (JSON_BUF_SIZE - 1) (buf ++ s).
Proof.
  intros Hb. unfold json_buf_append. destruct (Nat.leb_spec (JSON_BUF_SIZE - 1) (List.length buf)).
  - rewrite take_app_le by lia. symmetry. apply take_ge. lia.
  - rewrite take_app_ge by lia. do 2 f_equal. lia.
Qed.

Lemma json_buf_appends pieces buf : (List.length buf <= JSON_BUF_SIZE - 1)%nat ->
  fold_left json_buf_append pieces buf = take (JSON_BUF_SIZE - 1) (buf ++ List.concat pieces).
Proof.
  revert buf. induction pieces as [|s pieces IH]; intros buf Hb; cbn [fold_left List.concat].
  - rewrite app_nil_r. symmetry. by apply take_ge.
  - rewrite json_buf_append_take by done. rewrite IH by (rewrite length_take; lia).
    rewrite app_assoc. generalize (buf ++ s). intros l.
    destruct (decide (List.length l <= JSON_BUF_SIZE - 1)%nat).
    + by rewrite (take_ge l) by done.
    + rewrite (take_app_le l) by lia. rewrite take_app_le by (rewrite length_take; lia).
      rewrite take_take. by rewrite Nat.min_id.
Qed.

(** * Properties *)

(** Escaped text is a JSON string that reads back: whatever the
    bytes and the size of the buffer, the result and its NUL fit, a JSON reader
    accepts it and recovers a prefix of the input, and all of it when the buffer
    has six characters per input byte to spare. *)
Theorem json_escape_roundtrip (inp : list Z) (outsz : nat) :
  bytes_ok inp -> (0 < outsz)%nat ->
  (List.length (json_escape inp outsz) < outsz)%nat /\
  exists k, json_unescape (json_escape inp outsz) = Some (take k inp) /\
    ((6 * List.length inp + 2 <= outsz)%nat -> take k inp = inp).
Proof.
  intros Hi Ho. split; [by apply (escape_from_length inp outsz 0)|].
  destruct (decide (6 * List.length inp + 2 <= outsz)%nat) as [Hf|Hf].
  - exists (List.length inp). rewrite take_ge by done. split; [|done]. unfold json_escape.
    pose proof (escape_length_le inp Hi). rewrite escape_from_fits by (done || lia). by apply unescape_flat_map.
  - destruct (escape_from_prefix inp outsz 0) as [k Hk]. exists k. unfold json_escape. rewrite Hk. split; [|done].
    by apply unescape_flat_map, Forall_take.
Qed.

Lemma json_escape_roundtrip_witness :
  json_escape [65; 34; 92; 10; 21; 66] 64 = bytes_of "A" ++ [92; 34; 92; 92; 92; 110] ++ bytes_of "\u0015B" /\
  (List.length (json_escape [65; 34; 92; 10; 21; 66]%Z 64) < 64)%nat.
Proof.
  split; [vm_compute; reflexivity|]. apply (json_escape_roundtrip [65; 34; 92; 10; 21; 66] 64); [eval_dec|lia].
Defined.
