(* ===== verification/CNumber.v ===== *)
(** C strings as byte lists and the number readers of the C library: [strtod],
    [atof] and the string searches the text parsers use.

    A pointer into a string is the list of the bytes from it to the terminating
    NUL; reading at or past the end gives 0, the terminator. *)
From S2P Require Import Prelude CFloat.

(** * Definitions *)

(** The C string that starts at a byte array. *)
Fixpoint cstr (l : list Z) : list Z :=
  match l with
  | [] => []
  | c :: l => if c =? 0 then [] else c :: cstr l
  end.

(** [*p]. *)
Definition deref (p : list Z) : Z := p.[0%nat].

Definition is_digit (c : Z) : bool := (48 <=? c) && (c <=? 57).
Definition is_upper (c : Z) : bool := (65 <=? c) && (c <=? 90).
Definition is_space (c : Z) : bool := (c =? 32) || ((9 <=? c) && (c <=? 13)).
Definition tolower (c : Z) : Z := if is_upper c then c + 32 else c.

(** [strncmp(p, s, strlen(s)) == 0]. *)
Fixpoint starts_with (s p : list Z) : bool :=
  match s, p with
  | [], _ => true
  | a :: s, b :: p => (a =? b) && starts_with s p
  | _ :: _, [] => false
  end.

(** [strstr]: the suffix at the first occurrence. *)
Fixpoint strstr (p s : list Z) : option (list Z) :=
  if starts_with s p then Some p
  else match p with [] => None | _ :: p => strstr p s end.

(** The longest prefix of characters of a class, and what follows. *)
Fixpoint span (f : Z -> bool) (p : list Z) : list Z * list Z :=
  match p with
  | [] => ([], [])
  | c :: q => if f c then let '(a, b) := span f q in (c :: a, b) else ([], p)
  end.

Definition digits_value (base : Z) (dig : Z -> Z) (l : list Z) : Z := fold_left (fun n c => n * base + dig c) l 0.
Definition dec_value (l : list Z) : Z := digits_value 10 (fun c => c - 48) l.

(** [n / d] correctly rounded to binary64, [n >= 0], [d > 0]. *)
Definition f64_ratio (neg : bool) (n d : Z) : f64 :=
  if n =? 0 then S754_zero neg
  else let '(m, e, l) := SFdiv_core_binary 53 1024 n 0 d 0 in binary_round_aux 53 1024 neg m e l.

Definition scaled10 (neg : bool) (m k : Z) : f64 :=
  if 0 <=? k then f64_ratio neg (m * 10 ^ k) 1 else f64_ratio neg m (10 ^ (- k)).
Definition scaled2 (neg : bool) (m k : Z) : f64 :=
  if 0 <=? k then f64_ratio neg (m * 2 ^ k) 1 else f64_ratio neg m (2 ^ (- k)).

(** An optional exponent part: its value and what follows. *)
Definition exponent (e : Z) (p : list Z) : Z * list Z :=
  if tolower (deref p) =? e then
    let q := drop 1 p in
    let '(neg, q) := if deref q =? 43 then (false, drop 1 q) else if deref q =? 45 then (true, drop 1 q) else (false, q) in
    let '(ds, rest) := span is_digit q in
    match ds with
    | [] => (0, p)
    | _ => (if neg then - dec_value ds else dec_value ds, rest)
    end
  else (0, p).

(** Digits with an optional radix point: integer part, fraction, rest. *)
Definition mantissa (f : Z -> bool) (p : list Z) : option (list Z * list Z * list Z) :=
  let '(a, q) := span f p in
  let '(b, r) := if deref q =? 46 then span f (drop 1 q) else ([], q) in
  match a, b with
  | [], [] => None
  | _, _ => Some (a, b, r)
  end.

Definition is_hex (c : Z) : bool := is_digit c || ((97 <=? tolower c) && (tolower c <=? 102)).
Definition hex_val (c : Z) : Z := if is_digit c then c - 48 else tolower c - 87.
Definition is_nan_char (c : Z) : bool := is_digit c || ((97 <=? tolower c) && (tolower c <=? 122)) || (c =? 95).

(** The number after blanks and sign; [None] when there is none. *)
Definition strtod_magnitude (neg : bool) (p : list Z) : option (f64 * list Z) :=
  let low := map tolower p in
  if starts_with [105; 110; 102; 105; 110; 105; 116; 121] low then Some (S754_infinity neg, drop 8 p)
  else if starts_with [105; 110; 102] low then Some (S754_infinity neg, drop 3 p)
  else if starts_with [110; 97; 110] low then
    let q := drop 3 p in
    let '(_, r) := span is_nan_char (drop 1 q) in
    Some (S754_nan, if (deref q =? 40) && (deref r =? 41) then drop 1 r else q)
  else
    let hex := if starts_with [48; 120] low then mantissa is_hex (drop 2 p) else None in
    match hex with
    | Some (a, b, r) =>
        let '(e, r) := exponent 112 r in
        Some (scaled2 neg (digits_value 16 hex_val (a ++ b)) (e - 4 * Z.of_nat (length b)), r)
    | None =>
        match mantissa is_digit p with
        | Some (a, b, r) =>
            let '(e, r) := exponent 101 r in
            Some (scaled10 neg (dec_value (a ++ b)) (e - Z.of_nat (length b)), r)
        | None => None
        end
    end.

(** [strtod(p, &end)]: the value and [end]. *)
Definition strtod (p : list Z) : f64 * list Z :=
  let '(_, q) := span is_space p in
  let '(neg, q) := if deref q =? 43 then (false, drop 1 q) else if deref q =? 45 then (true, drop 1 q) else (false, q) in
  match strtod_magnitude neg q with
  | Some r => r
  | None => (S754_zero false, p)
  end.

Definition atof (p : list Z) : f64 := fst (strtod p).

(** [atoi]; C leaves values beyond [int] undefined, here they are themselves. *)
Definition atoi (p : list Z) : Z :=
  let '(_, q) := span is_space p in
  let '(neg, q) := if deref q =? 43 then (false, drop 1 q) else if deref q =? 45 then (true, drop 1 q) else (false, q) in
  let '(ds, _) := span is_digit q in
  if neg then - dec_value ds else dec_value ds.

(** * Lemmas *)

Lemma cstr_nonzero l : Forall (fun c => c <> 0) (cstr l).
Proof.
  induction l as [|c l IH]; cbn [cstr]; [constructor|]. destruct (Z.eqb_spec c 0); constructor; done.
Qed.

Lemma cstr_id l : Forall (fun c => c <> 0) l -> cstr l = l.
Proof. induction 1 as [|c l Hc _ IH]; [done|]. cbn [cstr]. rewrite (proj2 (Z.eqb_neq c 0) Hc). by f_equal. Qed.

Lemma span_app f a p : Forall (fun c => f c = true) a -> f (deref p) = false -> span f (a ++ p) = (a, p).
Proof.
  intros Ha Hp. induction Ha as [|c a Hc _ IH]; cbn [app span].
  - destruct p as [|c p]; [done|]. cbn [span]. change (deref (c :: p)) with c in Hp. by rewrite Hp.
  - by rewrite Hc, IH.
Qed.

Lemma span_split f p : p = fst (span f p) ++ snd (span f p).
Proof.
  induction p as [|c p IH]; [done|]. cbn [span]. destruct (f c); [|done].
  destruct (span f p) as [a b]. cbn in *. by f_equal.
Qed.
