(* ===== verification/CFormat.v ===== *)
(** Numbers as text: the decimal conversions of [printf] the models share, and
    the shape of what they print. *)
From S2P Require Import Prelude CFloat CString JsonText CNumber.
#[local] Open Scope Z_scope.

(** * Definitions *)

Definition dec_digits (n : Z) : string := digits_go (S (Z.to_nat (Z.log2 n))) 10 dec_digit n "".

(** [n / d] to the nearest integer, ties to even. *)
Definition round_half_even (n d : Z) : Z :=
  let q := n / d in
  let r := n mod d in
  if 2 * r <? d then q else if d <? 2 * r then q + 1 else if Z.even q then q else q + 1.

(** [%.pf]. *)
Definition fmt_f (p : nat) (x : f64) : list Z :=
  let body n := bytes_of (String.append (dec_digits (n / 10 ^ Z.of_nat p))
                            (String.append "." (pad0 p (dec_digits (n mod 10 ^ Z.of_nat p))))) in
  match x with
  | S754_zero s => (if s then [45] else []) ++ body 0
  | S754_infinity s => (if s then [45] else []) ++ bytes_of "inf"
  | S754_nan => bytes_of "nan"
  | S754_finite s m e =>
      (if s then [45] else []) ++
      body (if 0 <=? e then Z.pos m * 2 ^ e * 10 ^ Z.of_nat p
            else round_half_even (Z.pos m * 10 ^ Z.of_nat p) (2 ^ (- e)))
  end.

(** [%.0f]. *)
Definition fmt_f0 (x : f64) : list Z :=
  let body n := bytes_of (dec_digits n) in
  match x with
  | S754_zero s => (if s then [45] else []) ++ body 0
  | S754_infinity s => (if s then [45] else []) ++ bytes_of "inf"
  | S754_nan => bytes_of "nan"
  | S754_finite s m e =>
      (if s then [45] else []) ++ body (if 0 <=? e then Z.pos m * 2 ^ e else round_half_even (Z.pos m) (2 ^ (- e)))
  end.

(** The civil date of [gmtime_r]: a day number counted from 1970-01-01, by
    400-year eras starting in March. *)
Definition civil (days : Z) : Z * Z * Z :=
  let z := days + 719468 in
  let era := z / 146097 in
  let doe := z mod 146097 in
  let yoe := (doe - doe / 1460 + doe / 36524 - doe / 146096) / 365 in
  let doy := doe - (365 * yoe + yoe / 4 - yoe / 100) in
  let mp := (5 * doy + 2) / 153 in
  let d := doy - (153 * mp + 2) / 5 + 1 in
  let m := if mp <? 10 then mp + 3 else mp - 9 in
  (yoe + era * 400 + (if m <=? 2 then 1 else 0), m, d).

(** * Shape *)

Definition finite (x : f64) : Prop := match x with S754_zero _ | S754_finite _ _ _ => True | _ => False end.

Definition digit_char (c : Z) : Prop := 48 <= c <= 57.
#[export] Instance digit_char_dec c : Decision (digit_char c).
Proof. unfold digit_char. apply _. Defined.

(** A decimal number without superfluous zeros. *)
Definition decimal (s : list Z) : Prop := s = [48] \/ exists d ds, s = d :: ds /\ 49 <= d <= 57 /\ Forall digit_char ds.

Lemma bytes_of_app s t : bytes_of (s ++ t)%string = bytes_of s ++ bytes_of t.
Proof.
  unfold bytes_of. rewrite <- map_app. f_equal. induction s as [|c s IH]; cbn; [done|]. f_equal. done.
Qed.

Lemma bytes_of_cons c s : bytes_of (String c s) = Z.of_nat (nat_of_ascii c) :: bytes_of s.
Proof. done. Qed.

Lemma dec_digit_code d : 0 <= d < 10 -> Z.of_nat (nat_of_ascii (dec_digit d)) = 48 + d.
Proof. intros Hd. unfold dec_digit, chr. rewrite nat_ascii_embedding; lia. Qed.

Lemma digits_go_shape fuel n acc : 0 <= n < 10 ^ Z.of_nat fuel -> (0 < fuel)%nat ->
  exists ds, decimal ds /\ bytes_of (digits_go fuel 10 dec_digit n acc) = ds ++ bytes_of acc.
Proof.
  revert n acc. induction fuel as [|fuel IH]; intros n acc Hn Hf; [lia|]. cbn [digits_go].
  pose proof (Z.mod_pos_bound n 10 ltac:(lia)) as Hm.
  assert (bytes_of (String (dec_digit (n mod 10)) acc) = (48 + n mod 10) :: bytes_of acc) as Eb by (by rewrite bytes_of_cons, dec_digit_code).
  destruct (Z.ltb_spec n 10) as [Hlt|Hge].
  - rewrite Z.mod_small in * by lia. rewrite Eb. destruct (decide (n = 0)) as [->|].
    + exists [48]. split; [by left|done].
    + exists [48 + n]. split; [|done]. right. exists (48 + n), []. split; [done|]. split; [lia|constructor].
  - assert (0 < fuel)%nat as Hf' by (destruct fuel; [cbn in Hn; lia|lia]).
    destruct (IH (n / 10) (String (dec_digit (n mod 10)) acc)) as (ds & Hds & E); [|done|].
    { split; [apply Z.div_pos; lia|]. apply Z.div_lt_upper_bound; [lia|]. rewrite <- Z.pow_succ_r by lia. replace (Z.succ (Z.of_nat fuel)) with (Z.of_nat (S fuel)) by lia. lia. }
    exists (ds ++ [48 + n mod 10]). split; [|by rewrite E, Eb, <- app_assoc].
    destruct Hds as [->|(d & ds' & -> & Hd & Hds')].
    + exfalso. assert (1 <= n / 10) as H1 by (apply Z.div_le_lower_bound; lia).
      assert (forall f m a, (0 < f)%nat -> 1 <= m < 10 ^ Z.of_nat f -> hd_error (bytes_of (digits_go f 10 dec_digit m a)) <> Some 48) as Hnz.
      { clear. induction f as [|f IH]; intros m a Hf Hm; [lia|]. cbn [digits_go]. pose proof (Z.mod_pos_bound m 10 ltac:(lia)).
        destruct (Z.ltb_spec m 10); [rewrite bytes_of_cons, dec_digit_code by done; cbn; rewrite Z.mod_small by lia; intros [=]; lia|].
        apply IH; [destruct f; [cbn in Hm; lia|lia]|]. split; [apply Z.div_le_lower_bound; lia|]. apply Z.div_lt_upper_bound; [lia|].
        rewrite <- Z.pow_succ_r by lia. replace (Z.succ (Z.of_nat f)) with (Z.of_nat (S f)) by lia. lia. }
      apply (Hnz fuel (n / 10) (String (dec_digit (n mod 10)) acc) Hf'); [|by rewrite E].
      split; [done|]. apply Z.div_lt_upper_bound; [lia|]. rewrite <- Z.pow_succ_r by lia. replace (Z.succ (Z.of_nat fuel)) with (Z.of_nat (S fuel)) by lia. lia.
    + right. exists d, (ds' ++ [48 + n mod 10]). split; [done|]. split; [done|]. apply Forall_app. split; [done|]. constructor; [unfold digit_char; lia|constructor].
Qed.

Lemma dec_digits_shape n : 0 <= n -> decimal (bytes_of (dec_digits n)).
Proof.
  intros Hn. unfold dec_digits. destruct (digits_go_shape (S (Z.to_nat (Z.log2 n))) n "") as (ds & Hds & E); [|lia|by rewrite E, app_nil_r].
  split; [done|]. rewrite Nat2Z.inj_succ, Z2Nat.id by apply Z.log2_nonneg. destruct (decide (n = 0)) as [->|]; [by vm_compute|].
  pose proof (Z.log2_spec n ltac:(lia)) as [_ H]. pose proof (Z.log2_nonneg n).
  eapply Z.lt_le_trans; [exact H|]. apply Z.pow_le_mono_l. lia.
Qed.

Lemma decimal_digits s : decimal s -> Forall digit_char s /\ s <> [].
Proof.
  intros [->|(d & ds & -> & Hd & Hds)]; [split; [repeat constructor; unfold digit_char; lia|done]|].
  split; [constructor; [unfold digit_char; lia|done]|done].
Qed.

(** [%d], [%u], [%lu] and [%llu] of numbers below 10^20. *)
Lemma fmt_d_shape n : - 10 ^ 20 < n < 10 ^ 20 -> exists sg ds, bytes_of (fmt_d n) = sg ++ ds /\ (sg = [] \/ sg = [45]) /\ decimal ds.
Proof.
  intros Hn. unfold fmt_d. destruct (Z.ltb_spec n 0).
  - destruct (digits_go_shape 20 (- n) "") as (ds & Hds & E); [change (Z.of_nat 20) with 20; lia|lia|].
    exists [45], ds. rewrite bytes_of_cons, E, app_nil_r. by split_and!; [|right|].
  - destruct (digits_go_shape 20 n "") as (ds & Hds & E); [change (Z.of_nat 20) with 20; lia|lia|].
    exists [], ds. rewrite E, app_nil_r. by split_and!; [|left|].
Qed.

Lemma bytes_of_fill k : bytes_of (fill k "0"%char) = replicate k 48.
Proof. induction k as [|k IH]; cbn [fill replicate]; [done|]. rewrite bytes_of_cons, IH. done. Qed.

Lemma round_half_even_pos n d : 0 <= n -> 0 < d -> 0 <= round_half_even n d.
Proof.
  intros Hn Hd. unfold round_half_even. pose proof (Z.div_pos n d Hn Hd). destruct (_ <? _); [done|]. destruct (_ <? _); [lia|]. destruct (Z.even _); lia.
Qed.

(** [%.pf] of a finite number is a decimal with [p] or more digits after the
    point. *)
Lemma fmt_f_shape p x : finite x -> exists sg ds fr, fmt_f p x = sg ++ ds ++ [46] ++ fr /\ (sg = [] \/ sg = [45]) /\ decimal ds /\ Forall digit_char fr /\ fr <> [].
Proof.
  intros Hx.
  assert (forall n, 0 <= n -> exists ds fr, bytes_of (String.append (dec_digits (n / 10 ^ Z.of_nat p)) (String.append "." (pad0 p (dec_digits (n mod 10 ^ Z.of_nat p))))) = ds ++ [46] ++ fr /\
    decimal ds /\ Forall digit_char fr /\ fr <> []) as Hb.
  { intros n Hn. assert (0 < 10 ^ Z.of_nat p) by lia. eexists _, _. rewrite !bytes_of_app. split; [reflexivity|].
    split; [apply dec_digits_shape, Z.div_pos; lia|]. unfold pad0. rewrite bytes_of_app, bytes_of_fill.
    destruct (decimal_digits _ (dec_digits_shape (n mod 10 ^ Z.of_nat p) ltac:(apply Z.mod_pos_bound; lia))) as [Hd Hne].
    split; [apply Forall_app; split; [apply Forall_replicate; unfold digit_char; lia|done]|]. intros [_ ?]%app_eq_nil. done. }
  destruct x as [s|s| |s m e]; try done; cbn [fmt_f].
  - destruct (Hb 0 ltac:(lia)) as (ds & fr & E & H). rewrite E. exists (if s then [45] else []), ds, fr. split; [done|]. split; [destruct s; auto|done].
  - destruct (Hb (if 0 <=? e then Z.pos m * 2 ^ e * 10 ^ Z.of_nat p else round_half_even (Z.pos m * 10 ^ Z.of_nat p) (2 ^ (- e)))) as (ds & fr & E & H).
    { destruct (Z.leb_spec 0 e); [lia|]. apply round_half_even_pos; lia. }
    rewrite E. exists (if s then [45] else []), ds, fr. split; [done|]. split; [destruct s; auto|done].
Qed.

Lemma fmt_f0_shape x : finite x -> exists sg ds, fmt_f0 x = sg ++ ds /\ (sg = [] \/ sg = [45]) /\ decimal ds.
Proof.
  intros Hx. destruct x as [s|s| |s m e]; try done; cbn [fmt_f0]; eexists (if s then [45] else []), _; (split; [reflexivity|]);
    (split; [destruct s; auto|]); apply dec_digits_shape; [done|]. destruct (Z.leb_spec 0 e); [lia|]. apply round_half_even_pos; lia.
Qed.
