(* ===== verification/BeamCache.v ===== *)
(** The beam cache of [src/main.c]: the last 64 ground beam positions heard, by
    which an ACARS message is placed.  [beam_cache_add] is the store in
    [output_thread_fn], [beam_cache_lookup] the search from the newest entry
    backwards.  Each runs under [beam_cache_lock], so they are atomic steps on
    the state [beam_cache]. *)
From S2P Require Import Prelude CFloat.

(** * Definitions *)

Definition BEAM_CACHE_SIZE : Z := 64.

Record beam_cache_t := Beam {
  bc_lat : f64;
  bc_lon : f64;
  bc_sat_id : Z;
  bc_beam_id : Z;
  bc_timestamp_ns : Z;  (* 0: empty slot *)
}.
#[export] Instance beam_cache_t_inhabited : Inhabited beam_cache_t := populate (Beam inhabitant inhabitant 0 0 0).

Record beam_cache := Cache { bc_slots : list beam_cache_t; beam_cache_head : Z }.

Definition empty_beam : beam_cache_t := Beam (S754_zero false) (S754_zero false) 0 0 0.
Definition beam_cache_init : beam_cache := Cache (replicate 64 empty_beam) 0.

Definition beam_cache_add (c : beam_cache) (e : beam_cache_t) : beam_cache :=
  Cache (<[Z.to_nat (Z.rem (beam_cache_head c) BEAM_CACHE_SIZE) := e]> (bc_slots c)) (beam_cache_head c + 1).

(** The loop of the lookup, [n] rounds from [i]. *)
Fixpoint lookup_from (c : beam_cache) (ts_ns : Z) (n : nat) (i : Z) : option beam_cache_t :=
  match n with
  | O => None
  | S n =>
      let idx := Z.rem (beam_cache_head c - 1 - i + BEAM_CACHE_SIZE) BEAM_CACHE_SIZE in
      let e := bc_slots c !!! Z.to_nat idx in
      if bc_timestamp_ns e =? 0 then None
      else if ts_ns <? bc_timestamp_ns e then lookup_from c ts_ns n (i + 1)
      else if 10000000000 <? u64 (ts_ns - bc_timestamp_ns e) then None
      else Some e
  end.

Definition beam_cache_lookup (c : beam_cache) (ts_ns : Z) : option beam_cache_t :=
  lookup_from c ts_ns 64 0.

(** * Lemmas *)

Definition entry_ok (e : beam_cache_t) : Prop := 0 < bc_timestamp_ns e < 2 ^ 64.
#[export] Instance entry_ok_dec e : Decision (entry_ok e).
Proof. unfold entry_ok. apply _. Defined.

Definition adds (es : list beam_cache_t) : beam_cache := fold_left beam_cache_add es beam_cache_init.

(** What round [i] of the loop reads: the entries from the newest back, then
    the empty slots. *)
Definition round_slot (c : beam_cache) (i : nat) : beam_cache_t :=
  bc_slots c !!! Z.to_nat (Z.rem (beam_cache_head c - 1 - Z.of_nat i + BEAM_CACHE_SIZE) BEAM_CACHE_SIZE).

Definition represents (c : beam_cache) (es : list beam_cache_t) : Prop :=
  length (bc_slots c) = 64%nat /\ beam_cache_head c = Z.of_nat (length es) /\
  forall i, (i < 64)%nat -> round_slot c i = (rev es ++ replicate 64 empty_beam) !!! i.

Lemma represents_init : represents beam_cache_init [].
Proof.
  repeat split. intros i Hi. unfold round_slot. cbn [bc_slots beam_cache_head beam_cache_init rev app].
  rewrite !lookup_total_replicate_2; [done|lia|].
  unfold BEAM_CACHE_SIZE. rewrite Z.rem_mod_nonneg by lia. Z.div_mod_to_equations. lia.
Qed.

Lemma represents_add c es e : represents c es -> represents (beam_cache_add c e) (es ++ [e]).
Proof.
  intros (Hl & Hh & Hs). unfold beam_cache_add. split; [|split]; cbn [bc_slots beam_cache_head].
  - by rewrite length_insert.
  - rewrite length_app. cbn. lia.
  - intros i Hi. rewrite rev_app_distr. cbn [rev app]. unfold round_slot. cbn [bc_slots beam_cache_head].
    unfold BEAM_CACHE_SIZE. rewrite Hh, !Z.rem_mod_nonneg by lia. destruct i as [|i].
    + replace (Z.of_nat (length es) + 1 - 1 - Z.of_nat 0 + 64) with (Z.of_nat (length es) + 1 * 64) by lia.
      rewrite Z.mod_add by lia. rewrite list_lookup_total_insert_eq; [done|].
      rewrite Hl. Z.div_mod_to_equations. lia.
    + rewrite list_lookup_total_insert_ne by (Z.div_mod_to_equations; lia).
      change ((e :: (rev es ++ replicate 64 empty_beam)) !!! S i) with ((rev es ++ replicate 64 empty_beam) !!! i).
      rewrite <- (Hs i) by lia. unfold round_slot, BEAM_CACHE_SIZE.
      rewrite Hh, Z.rem_mod_nonneg by lia. do 3 f_equal. lia.
Qed.

Lemma represents_adds es : represents (adds es) es.
Proof.
  induction es as [|e es IH] using rev_ind; [apply represents_init|].
  unfold adds. rewrite fold_left_app. by apply represents_add.
Qed.

(** The search on the list of entries, newest first. *)
Definition newest_not_after (ts : Z) (newest_first : list beam_cache_t) : option beam_cache_t :=
  List.find (fun e => bc_timestamp_ns e <=? ts) newest_first.

Definition within_10s (ts : Z) (o : option beam_cache_t) : option beam_cache_t :=
  match o with
  | Some e => if ts - bc_timestamp_ns e <=? 10000000000 then Some e else None
  | None => None
  end.

Lemma lookup_from_list c ts es n i l : represents c es -> Forall entry_ok es -> 0 <= ts < 2 ^ 64 ->
  (i + n <= 64)%nat -> l = take n (drop i (rev es)) ->
  lookup_from c ts n (Z.of_nat i) = within_10s ts (newest_not_after ts l).
Proof.
  intros (Hl & Hh & Hs) Hok Hts Hn ->. revert i Hn. induction n as [|n IH]; intros i Hn; [by rewrite take_0|].
  cbn [lookup_from]. change (bc_slots c !!! _) with (round_slot c i). rewrite Hs by lia.
  destruct (decide (i < length es)%nat) as [Hi|Hi].
  - rewrite lookup_total_app_l by (rewrite length_rev; lia).
    destruct (lookup_lt_is_Some_2 (rev es) i) as [e He]; [rewrite length_rev; lia|].
    rewrite (list_lookup_total_correct _ _ _ He), (drop_S _ _ _ He). cbn [take newest_not_after List.find].
    assert (entry_ok e) as Ht. { apply (Forall_lookup_1 _ (rev es) i); [|done]. by apply Forall_rev. }
    unfold entry_ok in Ht. rewrite (proj2 (Z.eqb_neq _ _)) by lia.
    destruct (Z.ltb_spec ts (bc_timestamp_ns e)) as [Hlt|Hge].
    + rewrite (proj2 (Z.leb_gt _ _)) by lia. specialize (IH (S i) ltac:(lia)).
      unfold newest_not_after in IH. rewrite <- IH. f_equal. lia.
    + rewrite (proj2 (Z.leb_le _ _)) by lia. cbn [within_10s]. rewrite u64_small by lia.
      destruct (Z.ltb_spec 10000000000 (ts - bc_timestamp_ns e)); [by rewrite (proj2 (Z.leb_gt _ _)) by lia|].
      by rewrite (proj2 (Z.leb_le _ _)) by lia.
  - rewrite lookup_total_app_r by (rewrite length_rev; lia). rewrite lookup_total_replicate_2 by lia.
    rewrite drop_ge by (rewrite length_rev; lia). done.
Qed.

Lemma lookup_newest es ts : Forall entry_ok es -> 0 <= ts < 2 ^ 64 ->
  beam_cache_lookup (adds es) ts = within_10s ts (newest_not_after ts (take 64 (rev es))).
Proof.
  intros Hok Hts. unfold beam_cache_lookup. change 0 with (Z.of_nat 0).
  apply (lookup_from_list _ _ es); [apply represents_adds|done..|by rewrite drop_0].
Qed.

(** Whatever the timestamps, what is found was added, and not long before. *)
Lemma lookup_from_added c ts es n i b : represents c es -> (i + n <= 64)%nat ->
  lookup_from c ts n (Z.of_nat i) = Some b ->
  b ∈ es /\ bc_timestamp_ns b <= ts /\ u64 (ts - bc_timestamp_ns b) <= 10000000000.
Proof.
  intros (Hl & Hh & Hs). revert i. induction n as [|n IH]; intros i Hn; [done|].
  cbn [lookup_from]. change (bc_slots c !!! _) with (round_slot c i). rewrite Hs by lia.
  destruct (Z.eqb_spec (bc_timestamp_ns ((rev es ++ replicate 64 empty_beam) !!! i)) 0) as [|H0]; [done|].
  destruct (Z.ltb_spec ts (bc_timestamp_ns ((rev es ++ replicate 64 empty_beam) !!! i))) as [Hlt|Hge].
  { replace (Z.of_nat i + 1) with (Z.of_nat (S i)) by lia. apply IH. lia. }
  destruct (Z.ltb_spec 10000000000 (u64 (ts - bc_timestamp_ns ((rev es ++ replicate 64 empty_beam) !!! i)))) as [|Hr]; [done|].
  intros [= <-]. split; [|done]. destruct (decide (i < length es)%nat) as [Hi|Hi].
  - rewrite lookup_total_app_l by (rewrite length_rev; lia). rewrite list_elem_of_In, in_rev, <- list_elem_of_In.
    apply list_elem_of_lookup_total_2. rewrite length_rev. lia.
  - rewrite lookup_total_app_r in H0 by (rewrite length_rev; lia). rewrite length_rev in H0. by rewrite lookup_total_replicate_2 in H0 by lia.
Qed.

Lemma lookup_added es ts b : beam_cache_lookup (adds es) ts = Some b ->
  b ∈ es /\ bc_timestamp_ns b <= ts /\ u64 (ts - bc_timestamp_ns b) <= 10000000000.
Proof. apply (lookup_from_added _ _ _ 64 0); [apply represents_adds|lia]. Qed.

Lemma find_newest ts l e : StronglySorted (fun a b => bc_timestamp_ns b <= bc_timestamp_ns a) l -> e ∈ l ->
  bc_timestamp_ns e <= ts ->
  exists b, List.find (fun e => bc_timestamp_ns e <=? ts) l = Some b /\ b ∈ l /\ bc_timestamp_ns e <= bc_timestamp_ns b <= ts.
Proof.
  intros Hs He Ht. induction Hs as [|x l Hl IH Hx]; [by apply not_elem_of_nil in He|]. cbn [List.find].
  destruct (Z.leb_spec (bc_timestamp_ns x) ts) as [Hle|Hgt].
  - exists x. split; [done|]. split; [apply list_elem_of_here|]. apply elem_of_cons in He as [->|He]; [lia|].
    rewrite Forall_forall in Hx. specialize (Hx _ He). cbn in Hx. lia.
  - apply elem_of_cons in He as [->|He]; [lia|]. destruct (IH He) as (b & Hf & Hb & Hle).
    exists b. split; [done|]. split; [by apply list_elem_of_further|done].
Qed.

(** ** Concrete input for the witness *)

Definition demo_beams : list beam_cache_t :=
  map (fun n => Beam (f64_of_Z (Z.of_nat n)) (f64_of_Z 8) 42 7 (1000000000 * (1 + Z.of_nat n))) (seq 0 100).

(** * Properties *)

(** The ring of 64 slots behaves as the list of the last 64
    positions: after any sequence of stores, a lookup at [ts] finds the newest
    of them that is not after [ts], and answers it exactly when it is at most
    ten seconds old; when the positions were stored in the order of their times
    and one of them lies in those ten seconds, the answer is one that no other
    position in the cache up to [ts] is later than. *)
Theorem beam_cache_refines_recent (es : list beam_cache_t) (ts : Z) :
  Forall entry_ok es -> 0 <= ts < 2 ^ 64 ->
  let recent := take 64 (rev es) in
  beam_cache_lookup (adds es) ts = within_10s ts (newest_not_after ts recent) /\
  (StronglySorted (fun a b => bc_timestamp_ns a <= bc_timestamp_ns b) es ->
   forall e, e ∈ recent -> bc_timestamp_ns e <= ts <= bc_timestamp_ns e + 10000000000 ->
   exists b, beam_cache_lookup (adds es) ts = Some b /\ b ∈ recent /\
     bc_timestamp_ns e <= bc_timestamp_ns b <= ts).
Proof.
  intros Hok Hts recent. split; [by apply lookup_newest|]. intros Hs e He Ht.
  rewrite lookup_newest by done. fold recent.
  assert (StronglySorted (fun a b => bc_timestamp_ns b <= bc_timestamp_ns a) recent) as Hr
    by (apply sorted_take, sorted_rev, Hs).
  destruct (find_newest ts recent e Hr He) as (b & Hf & Hb & Hle); [lia|].
  unfold newest_not_after. rewrite Hf. exists b. cbn [within_10s]. rewrite (proj2 (Z.leb_le _ _)) by lia. done.
Qed.

Lemma beam_cache_refines_recent_witness :
  beam_cache_lookup (adds demo_beams) 90500000000 = Some (Beam (f64_of_Z 89) (f64_of_Z 8) 42 7 90000000000) /\
  beam_cache_lookup (adds demo_beams) 30000000000 = None.
Proof.
  split.
  - rewrite (proj1 (beam_cache_refines_recent demo_beams 90500000000 ltac:(eval_dec) ltac:(lia))). vm_compute. reflexivity.
  - rewrite (proj1 (beam_cache_refines_recent demo_beams 30000000000 ltac:(eval_dec) ltac:(lia))). vm_compute. reflexivity.
Defined.
