(* ===== verification/CTable.v ===== *)
(** Tables of records with a string key, as the two databases keep them: lines
    read with [fgets], fields cut with [strchr], [qsort] and [bsearch] with a
    comparison by [strcmp]. *)
From S2P Require Import Prelude CNumber.
From stdpp Require Import sorting.
#[local] Open Scope Z_scope.

(** * Strings and lines *)

(** [strcmp] on byte strings. *)
Fixpoint strcmp (a b : list Z) : comparison :=
  match a, b with
  | [], [] => Eq
  | [], _ :: _ => Lt
  | _ :: _, [] => Gt
  | x :: a, y :: b => match x ?= y with Eq => strcmp a b | c => c end
  end.

(** [strchr(p, c)]: what precedes the first [c] and what follows it. *)
Fixpoint split_at (c : Z) (p : list Z) : option (list Z * list Z) :=
  match p with
  | [] => None
  | x :: p =>
      if x =? c then Some ([], p)
      else match split_at c p with Some (a, b) => Some (x :: a, b) | None => None end
  end.

(** [strrchr(s, c)]: what precedes the last [c] and what follows it. *)
Fixpoint split_last (c : Z) (s : list Z) : option (list Z * list Z) :=
  match s with
  | [] => None
  | x :: s =>
      match split_last c s with
      | Some (a, b) => Some (x :: a, b)
      | None => if x =? c then Some ([], s) else None
      end
  end.

(** [fgets(line, n + 1, f)]: at most [n] bytes, up to and including a newline. *)
Fixpoint fgets (n : nat) (f : list Z) : list Z * list Z :=
  match n, f with
  | O, _ | _, [] => ([], f)
  | S n, c :: f => if c =? 10 then ([c], f) else let '(l, f) := fgets n f in (c :: l, f)
  end.

Section lines.
Context {E : Type} (parse : list Z -> option E) (n : nat).

(** A reading loop that keeps what [parse] makes of each line; a line has at
    least one byte, so the length of the file bounds the rounds. *)
Fixpoint read_lines (fuel : nat) (f : list Z) : list E :=
  match fuel with
  | O => []
  | S fuel =>
      match f with
      | [] => []
      | _ =>
          let '(line, f) := fgets n f in
          match parse line with
          | Some e => e :: read_lines fuel f
          | None => read_lines fuel f
          end
      end
  end.

(** The lines of a file, as [fgets] cuts them. *)
Inductive file_line : list Z -> list Z -> Prop :=
| line_here f l r : f <> [] -> fgets n f = (l, r) -> file_line f l
| line_later f l r l' : f <> [] -> fgets n f = (l', r) -> file_line r l -> file_line f l.

Lemma fgets_shorter k f l r : (0 < k)%nat -> f <> [] -> fgets k f = (l, r) -> (length r < length f)%nat.
Proof.
  intros Hk Hf E'. assert (forall k f l r, fgets k f = (l, r) -> length f = (length l + length r)%nat) as Hlen.
  { clear. induction k as [|k IH]; intros f l r; cbn [fgets]; [intros [= <- <-]; done|]. destruct f as [|c f]; [intros [= <- <-]; done|].
    destruct (c =? 10); [intros [= <- <-]; done|]. destruct (fgets k f) as [l' r'] eqn:E. intros [= <- <-]. cbn. by rewrite (IH _ _ _ E). }
  rewrite (Hlen _ _ _ _ E'). destruct k as [|k]; [lia|]. destruct f as [|c f]; [done|]. cbn [fgets] in E'.
  destruct (c =? 10); [by simplify_eq/=; lia|]. destruct (fgets k f) as [l' r']. simplify_eq/=. lia.
Qed.

(** The loop keeps exactly what the lines of the file give. *)
Lemma read_lines_spec fuel f e : (0 < n)%nat -> (length f <= fuel)%nat -> e ∈ read_lines fuel f <-> exists l, file_line f l /\ parse l = Some e.
Proof.
  intros Hn. revert f. induction fuel as [|fuel IH]; intros f Hf.
  { destruct f; [|cbn in Hf; lia]. cbn. split; [by intros ?%elem_of_nil|]. intros (l & Hl & _). by inversion Hl. }
  destruct f as [|c f]; [cbn; split; [by intros ?%elem_of_nil|intros (l & Hl & _); by inversion Hl]|]. cbn [read_lines].
  destruct (fgets n (c :: f)) as [l r] eqn:E1. pose proof (fgets_shorter n (c :: f) l r Hn ltac:(done) E1) as Hr.
  specialize (IH r ltac:(cbn in Hf, Hr; lia)).
  assert ((exists l0, file_line (c :: f) l0 /\ parse l0 = Some e) <-> parse l = Some e \/ exists l0, file_line r l0 /\ parse l0 = Some e) as ->.
  { split.
    - intros (l0 & Hl & He). inversion Hl as [? ? ? _ E2|? ? ? ? _ E2 Hl']; subst; rewrite E1 in E2; simplify_eq; eauto.
    - intros [He|(l0 & Hl & He)]; [exists l; split; [by eapply line_here|done]|exists l0; split; [by eapply line_later|done]]. }
  destruct (parse l) as [x|] eqn:E2; [rewrite elem_of_cons|]; rewrite IH; [|by intuition congruence].
  intuition congruence.
Qed.
End lines.

(** * Sorting and searching *)

Lemma strcmp_refl a : strcmp a a = Eq.
Proof. induction a as [|x a IH]; [done|]. cbn. by rewrite Z.compare_refl. Qed.

Lemma strcmp_eq a b : strcmp a b = Eq -> a = b.
Proof.
  revert b. induction a as [|x a IH]; intros [|y b]; cbn; try done.
  destruct (Z.compare_spec x y); try done. subst. intros H. f_equal. by apply IH.
Qed.

Lemma strcmp_antisym a b : strcmp b a = CompOpp (strcmp a b).
Proof.
  revert b. induction a as [|x a IH]; intros [|y b]; cbn; try done.
  rewrite (Z.compare_antisym x y). by destruct (x ?= y); cbn.
Qed.

Lemma strcmp_trans a b c : strcmp a b = Lt -> strcmp b c = Lt -> strcmp a c = Lt.
Proof.
  revert b c. induction a as [|x a IH]; intros [|y b] [|z c]; cbn; try done.
  destruct (Z.compare_spec x y) as [->|Hxy|]; try done.
  - destruct (Z.compare_spec y z); try done. by apply IH.
  - intros _. destruct (Z.compare_spec y z) as [->|Hyz|]; try done.
    + by rewrite (proj2 (Z.compare_lt_iff x z)).
    + intros _. rewrite (proj2 (Z.compare_lt_iff x z)) by lia. done.
Qed.

Section table.
Context {E : Type} (key : E -> list Z).
Implicit Types (e : E) (db : list E).

Definition key_le (a b : E) : Prop := strcmp (key a) (key b) <> Gt.
#[export] Instance key_le_dec a b : Decision (key_le a b).
Proof. unfold key_le. apply _. Defined.

Definition sort_table (db : list E) : list E := merge_sort key_le db.

(** [bsearch] between [l] and [u]. *)
Fixpoint bsearch (fuel : nat) (k : list Z) (db : list E) (l u : nat) : option E :=
  match fuel with
  | O => None
  | S fuel =>
      if (l <? u)%nat then
        let idx := ((l + u) / 2)%nat in
        match db !! idx with
        | Some e =>
            match strcmp k (key e) with
            | Lt => bsearch fuel k db l idx
            | Gt => bsearch fuel k db (idx + 1) u
            | Eq => Some e
            end
        | None => None
        end
      else None
  end.

#[export] Instance key_le_total : Total key_le.
Proof.
  intros a b. unfold key_le. rewrite (strcmp_antisym (key a) (key b)).
  destruct (strcmp (key a) (key b)); cbn; auto.
Qed.

#[export] Instance key_le_trans : Transitive key_le.
Proof.
  intros a b c. unfold key_le. intros H1 H2.
  destruct (strcmp (key a) (key b)) eqn:E1; [apply strcmp_eq in E1 as ->; done| |done].
  destruct (strcmp (key b) (key c)) eqn:E2; [apply strcmp_eq in E2 as <-; by rewrite E1| |done].
  by rewrite (strcmp_trans _ _ _ E1 E2).
Qed.

Lemma sort_perm db : sort_table db ≡ₚ db.
Proof. apply merge_sort_Permutation. Qed.

Lemma sort_sorted db : StronglySorted key_le (sort_table db).
Proof. apply StronglySorted_merge_sort; apply _. Qed.

Lemma sorted_lookup db i j a b : StronglySorted key_le db -> db !! i = Some a -> db !! j = Some b -> (i <= j)%nat ->
  key_le a b.
Proof.
  intros Hs. revert i j. induction Hs as [|x l Hl IH Hx]; intros [|i] [|j] Hi Hj Hij; cbn in *; try done; try lia.
  - simplify_eq. unfold key_le. by rewrite strcmp_refl.
  - simplify_eq. by eapply Forall_lookup_1.
  - eapply IH; [done..|lia].
Qed.

Lemma bsearch_sound fuel k db l u e : bsearch fuel k db l u = Some e -> e ∈ db /\ key e = k.
Proof.
  revert l u. induction fuel as [|fuel IH]; intros l u; cbn [bsearch]; [done|].
  destruct (l <? u)%nat; [|done]. destruct (db !! ((l + u) / 2)%nat) as [x|] eqn:Ex; [|done].
  destruct (strcmp k (key x)) eqn:Ec; [|by apply IH..].
  intros [= <-]. split; [by eapply list_elem_of_lookup_2|]. symmetry. by apply strcmp_eq.
Qed.

(** Bisection halves the range and never loses a match. *)
Lemma bsearch_complete fuel k db l u i e : StronglySorted key_le db -> db !! i = Some e -> key e = k ->
  (l <= i < u)%nat -> (u <= length db)%nat -> (u - l <= fuel)%nat -> is_Some (bsearch fuel k db l u).
Proof.
  intros Hs Hi He. revert l u. induction fuel as [|fuel IH]; intros l u Hlu Hu Hf; [lia|].
  cbn [bsearch]. rewrite (proj2 (Nat.ltb_lt _ _)) by lia.
  assert (l <= (l + u) / 2 < u)%nat as Hidx.
  { split; [apply Nat.div_le_lower_bound; lia|apply Nat.Div0.div_lt_upper_bound; lia]. }
  destruct (lookup_lt_is_Some_2 db ((l + u) / 2)%nat) as [x Hx]; [lia|]. rewrite Hx.
  destruct (strcmp k (key x)) eqn:Ec; [done| |].
  - apply IH; try lia. destruct (decide (i < (l + u) / 2)%nat); [lia|]. exfalso.
    pose proof (sorted_lookup db _ i x e Hs Hx Hi ltac:(lia)) as H. unfold key_le in H.
    by rewrite He, strcmp_antisym, Ec in H.
  - apply IH; try lia. destruct (decide ((l + u) / 2 < i)%nat); [lia|]. exfalso.
    pose proof (sorted_lookup db i _ e x Hs Hi Hx ltac:(lia)) as H. unfold key_le in H.
    by rewrite He, Ec in H.
Qed.

(** Searching the sorted table is exact. *)
Lemma table_search db k : match bsearch (length db) k (sort_table db) 0 (length db) with
  | Some e => e ∈ db /\ key e = k
  | None => forall e, e ∈ db -> key e <> k
  end.
Proof.
  pose proof (sort_perm db) as Hp. rewrite <- (Permutation_length Hp). destruct (bsearch _ _ _ _ _) as [e|] eqn:E1.
  - apply bsearch_sound in E1 as [He Hk]. by rewrite Hp in He.
  - intros e He Hk. rewrite <- Hp in He. apply list_elem_of_lookup_1 in He as [i Hi]. pose proof (lookup_lt_Some _ _ _ Hi).
    destruct (bsearch_complete (length (sort_table db)) k (sort_table db) 0 (length (sort_table db)) i e (sort_sorted db) Hi Hk) as [? E2]; [lia..|congruence].
Qed.
End table.

(** * The oldest entry *)

Section oldest.
Context {E : Type} (stamp : E -> Z).

(** The first of the entries with the least time below [oldest], as an index
    from [i] on; [idx] when there is none. *)
Fixpoint find_oldest (l : list E) (i : nat) (oldest : Z) (idx : option nat) : option nat :=
  match l with
  | [] => idx
  | e :: l => if stamp e <? oldest then find_oldest l (S i) (stamp e) (Some i) else find_oldest l (S i) oldest idx
  end.

Lemma find_oldest_spec l i oldest idx k : find_oldest l i oldest idx = Some k -> idx = Some k \/ (i <= k < i + length l)%nat.
Proof.
  revert i oldest idx. induction l as [|e l IH]; intros i oldest idx; cbn [find_oldest length]; [by left|].
  destruct (_ <? _); intros H; apply IH in H as [H|H]; try (right; lia); [injection H as ->; right; lia|by left].
Qed.
End oldest.
