(* ===== verification/WaypointDb.v ===== *)
(** The waypoint database, [src/waypoint_db.c]: a CSV file of fixes is read line
    by line, sorted by identifier and searched by bisection.

    The static array [wpdb] is the list of its entries.  [fgets], [qsort] and
    [bsearch] are those of the C library; memory allocation succeeds. *)
From S2P Require Import Prelude CFloat CNumber CTable.
From stdpp Require Import sorting.
#[local] Open Scope Z_scope.

(** * Definitions *)

Record wp_entry_t := Wp { ident : list Z; wp_lat : f64; wp_lon : f64 }.

Definition wp_cmp (a b : wp_entry_t) : comparison := strcmp (ident a) (ident b).

(** Removal of trailing line ends. *)
Definition is_eol (c : Z) : bool := (c =? 10) || (c =? 13).
Definition strip_eol (s : list Z) : list Z := rev (snd (span is_eol (rev s))).

(** One line: [None] is [continue]. *)
Definition parse_line (line : list Z) : option wp_entry_t :=
  match split_at 44 (cstr line) with
  | None => None
  | Some (id, lat_s) =>
      match split_at 44 lat_s with
      | None => None
      | Some (lat_s, lon_s) =>
          let idlen := length id in
          if (idlen <? 2)%nat || (5 <? idlen)%nat then None
          else Some (Wp (take 5 id) (atof lat_s) (atof (strip_eol lon_s)))
      end
  end.

(** The reading loop of [waypoint_db_load]. *)
Definition read_waypoints (file : list Z) : list wp_entry_t := read_lines parse_line 255 (length file) file.

Abbreviation wp_le := (key_le ident).

Definition waypoint_db_load (file : list Z) : list wp_entry_t := sort_table ident (read_waypoints file).

Definition waypoint_db_lookup (wpdb : list wp_entry_t) (id : list Z) : option (f64 * f64) :=
  match wpdb, id with
  | [], _ | _, [] => None
  | _, _ =>
      match bsearch ident (length wpdb) (take 5 id) wpdb 0 (length wpdb) with
      | Some found => Some (wp_lat found, wp_lon found)
      | None => None
      end
  end.

(** * The interface to the message parser *)

(** What a source of waypoints promises: it answers with a position recorded
    under the name asked for, and answers whenever there is one. *)
Class WaypointSource (D : Type) := {
  wp_find : D -> list Z -> option (f64 * f64);
  wp_has : D -> list Z -> f64 -> f64 -> Prop;
  wp_find_sound d id lat lon : wp_find d id = Some (lat, lon) -> wp_has d id lat lon;
  wp_find_complete d id lat lon : wp_has d id lat lon -> exists p, wp_find d id = Some p;
}.

(** * Lemmas *)

Lemma load_perm file : waypoint_db_load file ≡ₚ read_waypoints file.
Proof. apply sort_perm. Qed.

Lemma load_sorted file : StronglySorted wp_le (waypoint_db_load file).
Proof. apply sort_sorted. Qed.

(** The names the parser asks for are cut to five characters, as stored. *)
Definition db_has (wpdb : list wp_entry_t) (id : list Z) (lat lon : f64) : Prop :=
  exists e, e ∈ wpdb /\ ident e = take 5 id /\ id <> [] /\ wp_lat e = lat /\ wp_lon e = lon.

Lemma lookup_sound wpdb id lat lon : waypoint_db_lookup wpdb id = Some (lat, lon) -> db_has wpdb id lat lon.
Proof.
  unfold waypoint_db_lookup. destruct wpdb as [|x wpdb]; [done|]. destruct id as [|c id]; [done|].
  destruct (bsearch _ _ _ _ _) as [e|] eqn:E; [|done]. intros [= <- <-].
  apply bsearch_sound in E as [He Hid]. by exists e.
Qed.

Lemma lookup_complete wpdb id lat lon : StronglySorted wp_le wpdb -> db_has wpdb id lat lon ->
  exists p, waypoint_db_lookup wpdb id = Some p.
Proof.
  intros Hs (e & He & Hid & Hne & _). apply list_elem_of_lookup_1 in He as [i Hi].
  pose proof (lookup_lt_Some _ _ _ Hi) as Hlt.
  destruct (bsearch_complete ident (length wpdb) (take 5 id) wpdb 0 (length wpdb) i e Hs Hi Hid) as [p Hp]; [lia..|].
  unfold waypoint_db_lookup. destruct wpdb as [|x wpdb]; [cbn in Hlt; lia|]. destruct id as [|c id]; [done|].
  rewrite Hp. by eexists.
Qed.

(** A loaded database implements the interface. *)
Definition loaded_db : Type := { db : list wp_entry_t | StronglySorted wp_le db }.

#[export] Instance loaded_db_source : WaypointSource loaded_db := {
  wp_find d := waypoint_db_lookup (`d);
  wp_has d := db_has (`d);
  wp_find_sound d := lookup_sound (`d);
  wp_find_complete d id lat lon := lookup_complete (`d) id lat lon (proj2_sig d);
}.

(** ** Concrete input for the witness *)

(** "SOMAX,50.0,-20.0\nDINIM,51.0,-15.0\r\n" *)
Definition demo_csv : list Z :=
  [83; 79; 77; 65; 88; 44; 53; 48; 46; 48; 44; 45; 50; 48; 46; 48; 10;
   68; 73; 78; 73; 77; 44; 53; 49; 46; 48; 44; 45; 49; 53; 46; 48; 13; 10].

(** * Properties *)

(** Looking a fix up in a loaded file is exact: the answer is
    the position of a line of the file with that identifier, and there is an
    answer whenever the file has such a line. *)
Theorem waypoint_lookup_exact (file id : list Z) :
  id <> [] -> (length id <= 5)%nat ->
  let entries := read_waypoints file in
  match waypoint_db_lookup (waypoint_db_load file) id with
  | Some (lat, lon) => exists e, e ∈ entries /\ ident e = id /\ wp_lat e = lat /\ wp_lon e = lon
  | None => forall e, e ∈ entries -> ident e <> id
  end.
Proof.
  intros Hne Hl entries. pose proof (load_perm file) as Hp. fold entries in Hp.
  destruct (waypoint_db_lookup (waypoint_db_load file) id) as [[lat lon]|] eqn:E.
  - apply lookup_sound in E as (e & He & Hid & _ & H1 & H2). rewrite Hp in He. rewrite take_ge in Hid by done. eauto.
  - intros e He Hid. rewrite <- Hp in He.
    destruct (lookup_complete (waypoint_db_load file) id (wp_lat e) (wp_lon e) (load_sorted file)) as [p Hp'].
    + exists e. by rewrite take_ge by done.
    + by rewrite E in Hp'.
Qed.

Lemma waypoint_lookup_exact_witness :
  waypoint_db_lookup (waypoint_db_load demo_csv) [68; 73; 78; 73; 77] = Some (f64_of_Z 51, f64_of_Z (-15)) /\
  (exists e, e ∈ read_waypoints demo_csv /\ ident e = [68; 73; 78; 73; 77] /\
     wp_lat e = f64_of_Z 51 /\ wp_lon e = f64_of_Z (-15)).
Proof.
  assert (waypoint_db_lookup (waypoint_db_load demo_csv) [68; 73; 78; 73; 77] = Some (f64_of_Z 51, f64_of_Z (-15))) as E
    by (vm_compute; reflexivity).
  split; [exact E|]. pose proof (waypoint_lookup_exact demo_csv [68; 73; 78; 73; 77]) as H.
  rewrite E in H. apply H; [discriminate|cbn; lia].
Defined.
