(* ===== verification/AircraftDb.v ===== *)
(** The aircraft database, [src/aircraft_db.c]: registrations with their ICAO
    addresses from a CSV file, searched under a normal form of the registration.

    The static array [db] is the list of its entries; memory allocation
    succeeds.  The download command of [aircraft_db_update] is not modelled. *)
From S2P Require Import Prelude CNumber CTable.
#[local] Open Scope Z_scope.

(** * Definitions *)

Record db_entry_t := DbEntry { reg : list Z; hex : list Z }.

Definition is_lower (c : Z) : bool := (97 <=? c) && (c <=? 122).
Definition toupper (c : Z) : Z := if is_lower c then c - 32 else c.

Definition entry_cmp (a b : db_entry_t) : comparison := strcmp (reg a) (reg b).

Fixpoint skip_leading_dots (src : list Z) : list Z :=
  match src with
  | c :: src' => if c =? 46 then skip_leading_dots src' else src
  | [] => []
  end.

(** The copying loop, with room for [room] characters. *)
Fixpoint copy_reg (room : nat) (src : list Z) : list Z :=
  match src with
  | [] => []
  | c :: src =>
      match room with
      | O => []
      | S room' => if (c =? 45) || (c =? 32) then copy_reg room src else toupper c :: copy_reg room' src
      end
  end.

Definition normalize_reg (src : list Z) (dstlen : nat) : list Z := copy_reg (dstlen - 1) (skip_leading_dots src).

Definition hex_digit (c : Z) : bool :=
  ((48 <=? c) && (c <=? 57)) || ((65 <=? c) && (c <=? 70)) || ((97 <=? c) && (c <=? 102)).

(** One line: [None] is [continue]. *)
Definition parse_aircraft (line : list Z) : option db_entry_t :=
  match split_at 59 (cstr line) with
  | None => None
  | Some (hex_field, rest) =>
      let reg_field := match split_at 59 rest with Some (r, _) => r | None => rest end in
      if negb (length hex_field =? 6)%nat then None
      else if negb (forallb hex_digit hex_field) then None
      else if reg_field is [] then None
      else
        let r := normalize_reg reg_field 12 in
        if r is [] then None else Some (DbEntry r (map toupper hex_field))
  end.

Definition read_aircraft (file : list Z) : list db_entry_t := read_lines parse_aircraft 511 (length file) file.

Definition aircraft_db_load (file : list Z) : list db_entry_t := sort_table reg (read_aircraft file).

Definition aircraft_db_lookup (db : list db_entry_t) (registration : list Z) : option (list Z) :=
  match db, registration with
  | [], _ | _, [] => None
  | _, _ =>
      let norm := normalize_reg registration 12 in
      if norm is [] then None
      else
        match bsearch reg (length db) norm db 0 (length db) with
        | Some found => Some (hex found)
        | None => None
        end
  end.

(** * The interface to the output of positions *)

(** What a source of addresses promises: an address is six characters of upper
    case hexadecimal, and the spelling of the registration does not matter. *)
Definition icao_char (c : Z) : Prop := 48 <= c <= 57 \/ 65 <= c <= 70.
Class AddressSource (D : Type) := {
  icao_of : D -> list Z -> option (list Z);
  icao_of_shape d r h : icao_of d r = Some h -> length h = 6%nat /\ Forall icao_char h;
  icao_of_normal d r r' : r <> [] -> r' <> [] -> normalize_reg r 12 = normalize_reg r' 12 -> icao_of d r = icao_of d r';
}.

(** * Lemmas *)

Lemma toupper_idem c : toupper (toupper c) = toupper c.
Proof.
  unfold toupper. destruct (is_lower c) eqn:E; [|by rewrite E]. unfold is_lower in *. apply andb_true_iff in E as [H1%Z.leb_le H2%Z.leb_le].
  destruct (Z.leb_spec 97 (c - 32)); [lia|]. done.
Qed.

Lemma toupper_dash c : toupper c = 45 \/ toupper c = 32 \/ toupper c = 46 -> toupper c = c.
Proof.
  unfold toupper, is_lower. destruct (Z.leb_spec 97 c), (Z.leb_spec c 122); cbn [andb]; lia.
Qed.

Lemma copy_reg_length room s : (length (copy_reg room s) <= room)%nat.
Proof.
  revert room. induction s as [|c s IH]; intros room; cbn [copy_reg]; [cbn; lia|]. destruct room as [|room]; [cbn; lia|].
  destruct (_ || _); [apply IH|]. cbn. specialize (IH room). lia.
Qed.

(** The characters kept: upper case, no dash and no blank. *)
Definition reg_char (c : Z) : Prop := toupper c = c /\ c <> 45 /\ c <> 32.

Lemma copy_reg_chars room s : Forall reg_char (copy_reg room s).
Proof.
  revert room. induction s as [|c s IH]; intros room; cbn [copy_reg]; [constructor|]. destruct room as [|room]; [constructor|].
  destruct (Z.eqb_spec c 45); [apply IH|]. destruct (Z.eqb_spec c 32); [apply IH|]. cbn [orb]. constructor; [|apply IH].
  split; [apply toupper_idem|]. split; intros E; [rewrite toupper_dash in E by auto|rewrite toupper_dash in E by auto]; done.
Qed.

Lemma copy_reg_id room s : Forall reg_char s -> (length s <= room)%nat -> copy_reg room s = s.
Proof.
  intros Hs. revert room. induction Hs as [|c s (H1 & H2 & H3) _ IH]; intros room Hl; [done|]. cbn [copy_reg]. cbn in Hl.
  destruct room as [|room]; [lia|]. rewrite (proj2 (Z.eqb_neq c 45)), (proj2 (Z.eqb_neq c 32)) by done. cbn [orb]. rewrite H1, IH by lia. done.
Qed.

Lemma split_at_forall (P : Z -> Prop) c s a b : split_at c s = Some (a, b) -> Forall P s -> Forall P a /\ Forall P b.
Proof.
  revert a b. induction s as [|x s IH]; intros a b; cbn [split_at]; [done|]. destruct (x =? c).
  - intros [= <- <-] H%Forall_cons. by destruct H.
  - destruct (split_at c s) as [[a' b']|]; [|done]. intros [= <- <-] [Hx Hs]%Forall_cons. destruct (IH _ _ eq_refl Hs). split; [by constructor|done].
Qed.

Lemma parse_aircraft_ok line e : parse_aircraft line = Some e ->
  reg e <> [] /\ (length (reg e) <= 11)%nat /\ Forall reg_char (reg e) /\ length (hex e) = 6%nat /\ Forall icao_char (hex e).
Proof.
  unfold parse_aircraft. destruct (split_at 59 (cstr line)) as [[h rest]|]; [|done].
  set (rf := match split_at 59 rest with Some (r, _) => r | None => rest end). clearbody rf.
  destruct (Nat.eqb_spec (length h) 6) as [Hl|]; [|done]. cbn [negb]. destruct (forallb hex_digit h) eqn:Hh; [|done]. cbn [negb].
  destruct rf as [|c rf]; [done|].
  assert ((length (normalize_reg (c :: rf) 12) <= 11)%nat /\ Forall reg_char (normalize_reg (c :: rf) 12)) as [H1 H2]
    by (split; [apply (copy_reg_length 11)|apply copy_reg_chars]).
  destruct (normalize_reg (c :: rf) 12) as [|d r]; [done|]. intros [= <-]. cbn [reg hex]. split; [done|]. split; [done|]. split; [done|].
  split; [by rewrite length_map|]. apply Forall_map. rewrite forallb_forall in Hh. apply Forall_forall. intros x Hx%list_elem_of_In%Hh.
  unfold hex_digit, icao_char, toupper, is_lower in *. rewrite !orb_true_iff, !andb_true_iff, !Z.leb_le in Hx.
  destruct (Z.leb_spec 97 x), (Z.leb_spec x 122); cbn [andb]; lia.
Qed.

(** A table every entry of which came from a line. *)
Definition table_ok (db : list db_entry_t) : Prop := Forall (fun e => length (hex e) = 6%nat /\ Forall icao_char (hex e)) db.

Lemma load_table_ok file : table_ok (aircraft_db_load file).
Proof.
  unfold table_ok, aircraft_db_load. rewrite (sort_perm reg). apply Forall_forall. intros e He.
  apply read_lines_spec in He as (l & _ & Hp); [|lia|lia]. apply parse_aircraft_ok in Hp. tauto.
Qed.

Lemma lookup_unfold db r : r <> [] -> aircraft_db_lookup db r =
  if normalize_reg r 12 is [] then None else hex <$> bsearch reg (length db) (normalize_reg r 12) db 0 (length db).
Proof.
  intros Hr. unfold aircraft_db_lookup. destruct r as [|c r]; [done|]. destruct db as [|e db]; [by destruct (normalize_reg _ _)|].
  destruct (normalize_reg (c :: r) 12); [done|]. by destruct (bsearch _ _ _ _ _ _).
Qed.

Lemma lookup_shape db r h : table_ok db -> aircraft_db_lookup db r = Some h -> length h = 6%nat /\ Forall icao_char h.
Proof.
  intros Hd E. assert (r <> []) as Hr by (intros ->; by destruct db). rewrite lookup_unfold in E by done.
  destruct (normalize_reg r 12) as [|c s]; [done|]. destruct (bsearch _ _ _ _ _ _) as [e|] eqn:Eb; [|done]. cbn in E. injection E as <-.
  apply bsearch_sound in Eb as [He _]. unfold table_ok in Hd. rewrite Forall_forall in Hd. by apply Hd.
Qed.

(** A loaded database implements the interface. *)
Definition aircraft_table : Type := { db : list db_entry_t | table_ok db }.
#[export] Instance aircraft_table_source : AddressSource aircraft_table.
Proof.
  refine {| icao_of d := aircraft_db_lookup (`d) |}.
  - intros [db Hd] r h. by apply lookup_shape.
  - intros [db Hd] r r' Hr Hr' E. cbn [proj1_sig]. by rewrite !lookup_unfold, E by done.
Defined.

(** "A98539;N712TW;B752;00;\nabcdef;G-ABCD;\n" *)
Definition demo_aircraft : list Z :=
  [65; 57; 56; 53; 51; 57; 59; 78; 55; 49; 50; 84; 87; 59; 66; 55; 53; 50; 59; 48; 48; 59; 10;
   97; 98; 99; 100; 101; 102; 59; 71; 45; 65; 66; 67; 68; 59; 10].

(** * Properties *)

(**  Looking up an aircraft in a loaded file answers with the
    address of a line whose registration has the same normal form, and answers
    whenever there is such a line; dots in front, case, dashes and blanks of
    either spelling make no difference. *)
Theorem aircraft_lookup_exact file r : normalize_reg r 12 <> [] ->
  match aircraft_db_lookup (aircraft_db_load file) r with
  | Some h => exists l, file_line 511 file l /\ parse_aircraft l = Some (DbEntry (normalize_reg r 12) h)
  | None => forall l h, file_line 511 file l -> parse_aircraft l <> Some (DbEntry (normalize_reg r 12) h)
  end.
Proof.
  intros Hn. assert (r <> []) as Hr by (by intros ->). rewrite lookup_unfold by done.
  pose proof (table_search reg (read_aircraft file) (normalize_reg r 12)) as Hs. fold (aircraft_db_load file) in Hs.
  rewrite <- (Permutation_length (sort_perm reg (read_aircraft file))) in Hs. fold (aircraft_db_load file) in Hs.
  destruct (normalize_reg r 12) as [|c s]; [done|]. destruct (bsearch _ _ _ _ _ _) as [e|]; cbn.
  - destruct Hs as [(l & Hl & Hp)%read_lines_spec He]; [|lia|lia]. exists l. split; [done|]. rewrite Hp. destruct e as [er eh]. cbn in *. by subst.
  - intros l h Hl Hp. apply (Hs (DbEntry (c :: s) h)); [|done]. apply read_lines_spec; [lia|lia|]. by exists l.
Qed.

Lemma aircraft_lookup_exact_witness :
  aircraft_db_lookup (aircraft_db_load demo_aircraft) [46; 103; 32; 97; 98; 45; 99; 100] = Some [65; 66; 67; 68; 69; 70] /\
  exists l, file_line 511 demo_aircraft l /\ parse_aircraft l = Some (DbEntry [71; 65; 66; 67; 68] [65; 66; 67; 68; 69; 70]).
Proof.
  assert (aircraft_db_lookup (aircraft_db_load demo_aircraft) [46; 103; 32; 97; 98; 45; 99; 100] = Some [65; 66; 67; 68; 69; 70]) as E by (vm_compute; reflexivity).
  split; [exact E|]. pose proof (aircraft_lookup_exact demo_aircraft [46; 103; 32; 97; 98; 45; 99; 100]) as H. rewrite E in H.
  apply H. vm_compute. discriminate.
Defined.
