(* ===== verification/BaseStation.v ===== *)
(** BaseStation output, [src/basestation.c]: position reports as SBS lines for
    tracking programs, the cache of previous fixes from which speed and heading
    are derived, and the list of connections.

    Addresses come through the interface [AddressSource].  [sin], [cos],
    [atan2] and [fmod] of libm are parameters, the clock is an argument, and a
    connection is the number of its descriptor with the outcome of each write
    given.  Opening connections is not modelled, registering them is. *)
From S2P Require Import Prelude CFloat CString JsonText CNumber CFormat CTable AircraftDb.
#[local] Open Scope Z_scope.

(** * The cache of fixes *)

Definition BS_MAX_CLIENTS : nat := 16.
Definition BS_TRACK_MAX : nat := 64.

Record bs_track_t := Track { bt_hex : list Z; bt_lat : f64; bt_lon : f64; bt_time : Z }.

Section libm.
Context (sin cos : f64 -> f64) (atan2 fmod : f64 -> f64 -> f64).

Definition d2r : f64 := f64_div M_PI (f64_of_Z 180).
Definition c_3440_065 : f64 := S754_finite false 7564782935610491 (-41).

Definition bs_distance_nm (lat1 lon1 lat2 lon2 : f64) : f64 :=
  let half d := f64_div d (f64_of_Z 2) in
  let dlat := f64_mul (f64_sub lat2 lat1) d2r in
  let dlon := f64_mul (f64_sub lon2 lon1) d2r in
  let a := f64_add (f64_mul (sin (half dlat)) (sin (half dlat)))
             (f64_mul (f64_mul (f64_mul (cos (f64_mul lat1 d2r)) (cos (f64_mul lat2 d2r))) (sin (half dlon))) (sin (half dlon))) in
  f64_mul (f64_mul (f64_of_Z 2) (atan2 (f64_sqrt a) (f64_sqrt (f64_sub (f64_of_Z 1) a)))) c_3440_065.

Definition bs_bearing (lat1 lon1 lat2 lon2 : f64) : f64 :=
  let dlon := f64_mul (f64_sub lon2 lon1) d2r in
  let y := f64_mul (sin dlon) (cos (f64_mul lat2 d2r)) in
  let x := f64_sub (f64_mul (cos (f64_mul lat1 d2r)) (sin (f64_mul lat2 d2r)))
             (f64_mul (f64_mul (sin (f64_mul lat1 d2r)) (cos (f64_mul lat2 d2r))) (cos dlon)) in
  let brg := f64_div (f64_mul (atan2 y x) (f64_of_Z 180)) M_PI in
  fmod (f64_add brg (f64_of_Z 360)) (f64_of_Z 360).

Definition c_0_5 : f64 := S754_finite false 4503599627370496 (-53).

(** Speed and heading from the previous fix, where the times and the speed are
    plausible. *)
Definition derived (prev : bs_track_t) (lat lon : f64) (timestamp_ns : Z) : option (f64 * f64) :=
  let dt_sec := f64_div (f64_of_Z (u64 (timestamp_ns - bt_time prev))) (f64_of_Z 1000000000) in
  if f64_gtb dt_sec (f64_of_Z 10) && f64_ltb dt_sec (f64_of_Z 7200) then
    let dist := bs_distance_nm (bt_lat prev) (bt_lon prev) lat lon in
    let speed := f64_div dist (f64_div dt_sec (f64_of_Z 3600)) in
    if f64_gtb speed c_0_5 && f64_ltb speed (f64_of_Z 700) then Some (speed, bs_bearing (bt_lat prev) (bt_lon prev) lat lon) else None
  else None.

Definition bs_derive_track (hex : list Z) (lat lon : f64) (timestamp_ns : Z) (l : list bs_track_t) : option (f64 * f64) * list bs_track_t :=
  match list_find (fun e => bt_hex e = hex) l with
  | Some (i, e) => (derived e lat lon timestamp_ns, <[i := Track (bt_hex e) lat lon timestamp_ns]> l)
  | None =>
      let new := Track (take 6 hex) lat lon timestamp_ns in
      (None,
       if (List.length l <? BS_TRACK_MAX)%nat then l ++ [new]
       else <[default 0%nat (find_oldest bt_time l 0 (2 ^ 64 - 1) None) := new]> l)
  end.

(** * The line *)

(** [%.0f] and [%.6f] of the numbers, [%Y/%m/%d] and [%H:%M:%S.000] of the
    clock. *)
Definition two (n : Z) : list Z := bytes_of (pad0 2 (fmt_d n)).
Definition datestamp (now : Z) : list Z :=
  let '(y, m, d) := civil (now / 86400) in bytes_of (fmt_d y) ++ [47] ++ two m ++ [47] ++ two d.
Definition timestamp (now : Z) : list Z :=
  let s := now mod 86400 in two (s / 3600) ++ [58] ++ two (s / 60 mod 60) ++ [58] ++ two (s mod 60) ++ bytes_of ".000".

Definition sbs_fields (hex flight : list Z) (now : Z) (alt_ft : Z) (track : option (f64 * f64)) (lat lon : f64) : list (list Z) :=
  [bytes_of "MSG"; bytes_of "3"; bytes_of "1"; bytes_of "1"; hex; bytes_of "1";
   datestamp now; timestamp now; datestamp now; timestamp now; flight;
   (if -99999 <? alt_ft then bytes_of (fmt_d alt_ft) else []);
   match track with Some (gs, _) => fmt_f0 gs | None => [] end;
   match track with Some (_, deg) => fmt_f0 deg | None => [] end;
   fmt_f 6 lat; fmt_f 6 lon; []; []; []; []; []; bytes_of "0"].

Fixpoint commas (fs : list (list Z)) : list Z :=
  match fs with
  | [] => []
  | [f] => f
  | f :: fs => f ++ [44] ++ commas fs
  end.

Definition sbs_line (hex flight : list Z) (now alt_ft : Z) (track : option (f64 * f64)) (lat lon : f64) : list Z :=
  commas (sbs_fields hex flight now alt_ft track lat lon) ++ [13; 10].

(** * Connections *)

(** How a write ended: some bytes were taken, none could be taken now, or the
    connection is broken. *)
Inductive write_result := Written (n : nat) | WouldBlock | Broken.

Record bs_state := Bs {
  bs_active : bool;
  bs_mode : bool;         (* true: client (push) mode *)
  clients : list Z;       (* the first n_clients descriptors *)
  bs_client_fd : option Z;
  bs_track : list bs_track_t;
}.

Inductive bs_event := Sent (fd : Z) (line : list Z) | Closed (fd : Z).

(** The loop over the connections, from index [i] on. *)
Fixpoint send_all (outcome : Z -> write_result) (line : list Z) (l : list Z) (i : nat) : list bs_event * option nat :=
  match l with
  | [] => ([], None)
  | fd :: l =>
      match outcome fd with
      | Broken => ([Closed fd], Some i)
      | Written n => let '(evs, r) := send_all outcome line l (S i) in (Sent fd (take n line) :: evs, r)
      | WouldBlock => send_all outcome line l (S i)
      end
  end.

(** [clients[i] = clients[--n_clients]]. *)
Definition swap_remove (i : nat) (l : list Z) : list Z :=
  match last l with
  | Some x => take (List.length l - 1) (<[i := x]> l)
  | None => []
  end.

Context {D : Type} `{AddressSource D}.

Definition basestation_send_position (db : D) (outcome : Z -> write_result) (now : Z) (reg flight : list Z) (lat lon : f64) (alt_ft timestamp_ns : Z)
    (s : bs_state) : list bs_event * bs_state :=
  if negb (bs_active s) then ([], s)
  else if reg is [] then ([], s)
  else
    match icao_of db reg with
    | None => ([], s)
    | Some hex =>
        let '(track, l) := bs_derive_track hex lat lon timestamp_ns (bs_track s) in
        let s := Bs (bs_active s) (bs_mode s) (clients s) (bs_client_fd s) l in
        let line := sbs_line hex flight now alt_ft track lat lon in
        if (512 <=? List.length line)%nat then ([], s)
        else
          let '(evs, r) := send_all outcome line (clients s) 0 in
          (evs, match r with
                | None => s
                | Some i =>
                    if bs_mode s then Bs (bs_active s) (bs_mode s) [] None l
                    else Bs (bs_active s) (bs_mode s) (swap_remove i (clients s)) (bs_client_fd s) l
                end)
    end.
End libm.

(** * Opening and closing *)

(** Host (in client mode) and port of the option value. *)
Definition bs_endpoint (endpoint : list Z) : option (list Z) * Z :=
  match endpoint with
  | [] => (None, 30003)
  | _ =>
      match split_last 58 endpoint with
      | Some (host, port) => (if host is [] then None else Some host, atoi port)
      | None => (None, atoi endpoint)
      end
  end.

(** The state after [basestation_init], with what connecting gives in client
    mode and whether the server socket could be opened. *)
Definition basestation_init (endpoint : list Z) (connected : option Z) (listening : bool) : option bs_state :=
  let '(host, port) := bs_endpoint endpoint in
  if (port <=? 0) || (65535 <? port) then None
  else
    match host with
    | Some _ => Some (Bs true true (match connected with Some fd => [fd] | None => [] end) connected [])
    | None => if listening then Some (Bs true false [] None []) else None
    end.

(** What the accepting thread does with a new connection. *)
Definition bs_accept (fd : Z) (s : bs_state) : list bs_event * bs_state :=
  if (List.length (clients s) <? BS_MAX_CLIENTS)%nat then ([], Bs (bs_active s) (bs_mode s) (clients s ++ [fd]) (bs_client_fd s) (bs_track s))
  else ([Closed fd], s).

(** A round of the reconnecting thread, with what connecting gives. *)
Definition bs_reconnect (fd : option Z) (s : bs_state) : bs_state :=
  match bs_client_fd s, fd with
  | None, Some fd => Bs (bs_active s) (bs_mode s) [fd] (Some fd) (bs_track s)
  | _, _ => s
  end.

Definition basestation_destroy (s : bs_state) : list bs_event * bs_state :=
  if negb (bs_active s) then ([], s)
  else (map Closed (clients s) ++ match bs_client_fd s with Some fd => [Closed fd] | None => [] end,
        Bs false (bs_mode s) [] None (bs_track s)).

(** * Lemmas *)

(** ** Text without commas *)

Definition no_comma (s : list Z) : Prop := 44 ∉ s.

Lemma digits_no_comma s : Forall digit_char s -> no_comma s.
Proof. intros Hs Hin. rewrite Forall_forall in Hs. specialize (Hs _ Hin). unfold digit_char in Hs. lia. Qed.

Lemma no_comma_app s t : no_comma s -> no_comma t -> no_comma (s ++ t).
Proof. intros Hs Ht [?|?]%elem_of_app; [by apply Hs|by apply Ht]. Qed.

Lemma digits_go_chars fuel n acc : Forall digit_char (bytes_of acc) -> Forall digit_char (bytes_of (digits_go fuel 10 dec_digit n acc)).
Proof.
  revert n acc. induction fuel as [|fuel IH]; intros n acc Ha; cbn [digits_go]; [done|].
  assert (Forall digit_char (bytes_of (String (dec_digit (n mod 10)) acc))) as Hc.
  { pose proof (Z.mod_pos_bound n 10 ltac:(lia)). rewrite bytes_of_cons, dec_digit_code by done. constructor; [unfold digit_char; lia|done]. }
  destruct (_ <? _); [done|by apply IH].
Qed.

Lemma fmt_d_no_comma n : no_comma (bytes_of (fmt_d n)).
Proof.
  unfold fmt_d. pose proof (fun n => digits_go_chars 20 n "" ltac:(constructor)) as Hd. destruct (n <? 0); [|by apply digits_no_comma].
  rewrite bytes_of_cons. intros [E|Hin]%elem_of_cons; [done|]. by apply (digits_no_comma _ (Hd (- n))).
Qed.

Lemma two_no_comma n : no_comma (two n).
Proof.
  unfold two, pad0. rewrite bytes_of_app, bytes_of_fill. apply no_comma_app; [|apply fmt_d_no_comma].
  apply digits_no_comma. apply Forall_replicate. unfold digit_char. lia.
Qed.

Lemma sign_no_comma sg : sg = [] \/ sg = [45] -> no_comma sg.
Proof. intros [-> | ->] Hin; [by apply elem_of_nil in Hin|]. by apply list_elem_of_singleton in Hin. Qed.

(** What is not a finite number prints as letters. *)
Lemma not_finite_no_comma x : finite x \/ (no_comma (fmt_f0 x) /\ forall p, no_comma (fmt_f p x)).
Proof.
  destruct x as [s|s| |s m e]; [by left| | |by left]; right.
  - destruct s; (split; [|intros p; change (fmt_f p ?x) with (fmt_f0 x)]); apply (bool_decide_unpack _); vm_compute; exact I.
  - split; [|intros p; change (fmt_f p ?x) with (fmt_f0 x)]; apply (bool_decide_unpack _); vm_compute; exact I.
Qed.

Lemma fmt_f_no_comma p x : no_comma (fmt_f p x).
Proof.
  destruct (not_finite_no_comma x) as [Hx|[_ H]]; [|apply H].
  destruct (fmt_f_shape p x Hx) as (sg & ds & fr & -> & Hs & [Hd _]%decimal_digits & Hf & _).
  apply no_comma_app; [by apply sign_no_comma|]. apply no_comma_app; [by apply digits_no_comma|]. apply no_comma_app; [|by apply digits_no_comma].
  by intros ?%list_elem_of_singleton.
Qed.

Lemma fmt_f0_no_comma x : no_comma (fmt_f0 x).
Proof.
  destruct (not_finite_no_comma x) as [Hx|[H _]]; [|apply H].
  destruct (fmt_f0_shape x Hx) as (sg & ds & -> & Hs & [Hd _]%decimal_digits).
  apply no_comma_app; [by apply sign_no_comma|by apply digits_no_comma].
Qed.

(** ** Fields *)

(** The fields of a line, as a consumer splits it. *)
Fixpoint split_fields (s : list Z) : list (list Z) :=
  match s with
  | [] => [[]]
  | c :: s =>
      if c =? 44 then [] :: split_fields s
      else match split_fields s with f :: fs => (c :: f) :: fs | [] => [[c]] end
  end.

Lemma split_fields_app f s : no_comma f -> split_fields (f ++ 44 :: s) = f :: split_fields s.
Proof.
  induction f as [|c f IH]; intros Hf; [done|]. apply not_elem_of_cons in Hf as [Hc Hf]. cbn [app split_fields].
  rewrite (proj2 (Z.eqb_neq c 44)) by congruence. by rewrite IH.
Qed.

Lemma split_fields_id f : no_comma f -> split_fields f = [f].
Proof.
  induction f as [|c f IH]; intros Hf; [done|]. apply not_elem_of_cons in Hf as [Hc Hf]. cbn [split_fields].
  rewrite (proj2 (Z.eqb_neq c 44)) by congruence. by rewrite IH.
Qed.

Lemma split_commas fs : fs <> [] -> Forall no_comma fs -> split_fields (commas fs) = fs.
Proof.
  intros Hne Hf. induction Hf as [|f fs Hf Hfs IH]; [done|]. destruct fs as [|f' fs]; [by apply split_fields_id|].
  change (commas (f :: f' :: fs)) with (f ++ [44] ++ commas (f' :: fs)). cbn [app]. by rewrite split_fields_app, IH.
Qed.

Ltac plain_field := apply (bool_decide_unpack _); vm_compute; exact I.

Lemma time_no_comma now : no_comma (datestamp now) /\ no_comma (timestamp now).
Proof.
  pose proof two_no_comma as H2. assert (forall c, c <> 44 -> no_comma [c]) as H1 by (intros c Hc ?%list_elem_of_singleton; done). split.
  - unfold datestamp. destruct (civil _) as [[y m] d]. repeat apply no_comma_app; (apply fmt_d_no_comma || apply H2 || by apply H1).
  - unfold timestamp. repeat apply no_comma_app; (apply H2 || (by apply H1) || plain_field).
Qed.

Lemma sbs_fields_plain hex flight now alt track lat lon : Forall icao_char hex -> no_comma flight ->
  Forall no_comma (sbs_fields hex flight now alt track lat lon).
Proof.
  intros Hh Hfl. destruct (time_no_comma now) as [Hd Ht]. pose proof fmt_f0_no_comma. pose proof fmt_f_no_comma.
  assert (no_comma []) as Hn by (by intros ?%elem_of_nil).
  assert (no_comma hex) as Hx by (intros Hin; rewrite Forall_forall in Hh; destruct (Hh _ Hin); lia).
  assert (no_comma (if -99999 <? alt then bytes_of (fmt_d alt) else [])) as Ha by (destruct (_ <? _); [apply fmt_d_no_comma|exact Hn]).
  assert (no_comma (match track with Some (gs, _) => fmt_f0 gs | None => [] end)) as Hg by (destruct track as [[gs deg]|]; [apply fmt_f0_no_comma|exact Hn]).
  assert (no_comma (match track with Some (_, deg) => fmt_f0 deg | None => [] end)) as Hk by (destruct track as [[gs deg]|]; [apply fmt_f0_no_comma|exact Hn]).
  unfold sbs_fields. rewrite !Forall_cons, Forall_nil.
  split_and!; first [exact Hx | exact Hfl | exact Hd | exact Ht | exact Hn | exact Ha | exact Hg | exact Hk | apply fmt_f_no_comma | exact I | plain_field].
Qed.

(** ** The cache *)

Section tracks.
Context (sin cos : f64 -> f64) (atan2 fmod : f64 -> f64 -> f64).

(** A position report and the cache after a sequence of them. *)
Definition cache_after (rs : list bs_track_t) : list bs_track_t :=
  fold_left (fun l r => snd (bs_derive_track sin cos atan2 fmod (bt_hex r) (bt_lat r) (bt_lon r) (bt_time r) l)) rs [].

(** The last report of an aircraft. *)
Definition last_fix (h : list Z) (rs : list bs_track_t) : option bs_track_t := last (List.filter (fun r => bool_decide (bt_hex r = h)) rs).

Lemma last_fix_snoc h rs r : last_fix h (rs ++ [r]) = if bool_decide (bt_hex r = h) then Some r else last_fix h rs.
Proof.
  unfold last_fix. rewrite List.filter_app. cbn [List.filter]. destruct (bool_decide _); [apply last_snoc|by rewrite app_nil_r].
Qed.

Lemma last_fix_hex h rs r : last_fix h rs = Some r -> bt_hex r = h /\ r ∈ rs.
Proof.
  unfold last_fix. intros E. assert (r ∈ List.filter (fun r => bool_decide (bt_hex r = h)) rs) as Hin by by apply last_Some_elem_of.
  apply list_elem_of_In, filter_In in Hin as [Hin Hb]. apply bool_decide_eq_true in Hb. split; [done|by apply list_elem_of_In].
Qed.

Definition cache_ok (rs l : list bs_track_t) : Prop :=
  (List.length l <= BS_TRACK_MAX)%nat /\ NoDup (map bt_hex l) /\ Forall (fun e => last_fix (bt_hex e) rs = Some e) l.

Lemma find_track h l : match list_find (fun e => bt_hex e = h) l with
  | Some (i, e) => l !! i = Some e /\ bt_hex e = h
  | None => Forall (fun e => bt_hex e <> h) l
  end.
Proof.
  destruct (list_find _ l) as [[i e]|] eqn:E; [by apply list_find_Some in E as (? & ? & _)|]. by apply list_find_None in E.
Qed.

Lemma track_eta r : Track (bt_hex r) (bt_lat r) (bt_lon r) (bt_time r) = r.
Proof. by destruct r. Qed.

(** What the table is after a report, entry by entry. *)
Lemma cache_entries r l e : NoDup (map bt_hex l) -> List.length (bt_hex r) = 6%nat ->
  e ∈ snd (bs_derive_track sin cos atan2 fmod (bt_hex r) (bt_lat r) (bt_lon r) (bt_time r) l) -> e = r \/ (e ∈ l /\ bt_hex e <> bt_hex r).
Proof.
  intros Hd Hr. unfold bs_derive_track. pose proof (find_track (bt_hex r) l) as Hf. destruct (list_find _ l) as [[i e0]|]; cbn [snd].
  - destruct Hf as [Hi He]. intros [j Hj]%list_elem_of_lookup_1. apply list_lookup_insert_Some in Hj as [(<- & <- & _)|[Hne Hj]].
    + left. rewrite He. by destruct r.
    + right. split; [by eapply list_elem_of_lookup_2|]. intros E. apply Hne. rewrite NoDup_alt in Hd.
      apply (Hd i j (bt_hex r)); rewrite list_lookup_fmap; [by rewrite Hi; cbn; rewrite He|by rewrite Hj; cbn; rewrite E].
  - rewrite Forall_forall in Hf. rewrite take_ge, track_eta by lia.
    destruct (_ <? _)%nat.
    + intros [Hin|Hin%list_elem_of_singleton]%elem_of_app; [right|by left]. split; [done|by apply Hf].
    + intros [j Hj]%list_elem_of_lookup_1. apply list_lookup_insert_Some in Hj as [(_ & <- & _)|[_ Hj]]; [by left|].
      apply list_elem_of_lookup_2 in Hj. right. split; [done|by apply Hf].
Qed.

Lemma nodup_hex_insert l i r : NoDup (map bt_hex l) -> Forall (fun e => bt_hex e <> bt_hex r) l -> NoDup (map bt_hex (<[i := r]> l)).
Proof.
  intros Hd Hf. change (map bt_hex (<[i := r]> l)) with (bt_hex <$> <[i := r]> l). rewrite list_fmap_insert. rewrite NoDup_alt in Hd |- *.
  assert (forall j, (bt_hex <$> l) !! j = Some (bt_hex r) -> False) as Hn.
  { intros j Hj. rewrite list_lookup_fmap in Hj. destruct (l !! j) as [e|] eqn:E; [|done]. cbn in Hj. injection Hj as Hj.
    rewrite Forall_lookup in Hf. by apply (Hf j e). }
  intros j k x [(E1 & E3 & _)|(_ & Hj)]%list_lookup_insert_Some [(E2 & E4 & _)|(_ & Hk)]%list_lookup_insert_Some; subst; try done.
  - exfalso. by apply (Hn k).
  - exfalso. by apply (Hn j).
  - by apply (Hd j k x).
Qed.

Lemma cache_step rs l r : List.length (bt_hex r) = 6%nat -> cache_ok rs l ->
  cache_ok (rs ++ [r]) (snd (bs_derive_track sin cos atan2 fmod (bt_hex r) (bt_lat r) (bt_lon r) (bt_time r) l)).
Proof.
  intros Hr (Hl & Hd & Hf). split; [|split].
  - unfold bs_derive_track. destruct (list_find _ l) as [[i e]|]; cbn [snd]; [by rewrite length_insert|].
    destruct (Nat.ltb_spec (List.length l) BS_TRACK_MAX); [rewrite length_app; cbn; lia|by rewrite length_insert].
  - unfold bs_derive_track. pose proof (find_track (bt_hex r) l) as Hx. destruct (list_find _ l) as [[i e]|]; cbn [snd].
    + destruct Hx as [Hi He]. change (map bt_hex ?l) with (bt_hex <$> l) in *. rewrite list_fmap_insert, list_insert_id; [done|].
      rewrite list_lookup_fmap, Hi. done.
    + rewrite take_ge, track_eta by lia. destruct (_ <? _)%nat; [|by apply nodup_hex_insert].
      rewrite map_app. apply NoDup_app. split; [done|]. split; [|apply NoDup_singleton]. intros x (e & -> & He)%list_elem_of_fmap Hin%list_elem_of_singleton.
      rewrite Forall_forall in Hx. by apply (Hx e He).
  - apply Forall_forall. intros e He. rewrite last_fix_snoc. apply cache_entries in He; [|done|done]. destruct He as [->|[He Hne]].
    + by rewrite bool_decide_eq_true_2.
    + rewrite bool_decide_eq_false_2 by congruence. rewrite Forall_forall in Hf. by apply Hf.
Qed.

Lemma cache_after_ok rs : Forall (fun r => List.length (bt_hex r) = 6%nat) rs -> cache_ok rs (cache_after rs).
Proof.
  induction rs as [|r rs IH] using rev_ind; intros Hrs; [split; [cbn; lia|split; constructor]|].
  apply Forall_app in Hrs as [Hrs Hr]. rewrite Forall_singleton in Hr. unfold cache_after. rewrite fold_left_app. cbn [fold_left]. apply cache_step; [done|by apply IH].
Qed.

(** With room for all aircraft none is forgotten. *)
Lemma cache_keeps rs : Forall (fun r => List.length (bt_hex r) = 6%nat) rs ->
  (List.length (remove_dups (map bt_hex rs)) <= BS_TRACK_MAX)%nat -> forall h, is_Some (last_fix h rs) -> h ∈ map bt_hex (cache_after rs).
Proof.
  induction rs as [|r rs IH] using rev_ind; intros Hrs Hn h Hh; [by destruct Hh|].
  pose proof Hrs as [Hrs' Hr]%Forall_app. rewrite Forall_singleton in Hr.
  assert (remove_dups (map bt_hex rs) ⊆+ remove_dups (map bt_hex (rs ++ [r]))) as Hsub.
  { apply NoDup_submseteq; [apply NoDup_remove_dups|]. intros x. rewrite !elem_of_remove_dups, map_app, elem_of_app. by left. }
  pose proof (submseteq_length _ _ Hsub) as Hlen. specialize (IH Hrs' ltac:(lia)).
  pose proof (cache_after_ok rs Hrs') as (Hl & Hd & Hf). rewrite last_fix_snoc in Hh.
  unfold cache_after. rewrite fold_left_app. fold (cache_after rs). cbn [fold_left]. unfold bs_derive_track.
  pose proof (find_track (bt_hex r) (cache_after rs)) as Hx. destruct (list_find _ _) as [[i e]|]; cbn [snd].
  - destruct Hx as [Hi He]. change (map bt_hex ?l) with (bt_hex <$> l). rewrite list_fmap_insert, list_insert_id by (by rewrite list_lookup_fmap, Hi).
    destruct (decide (bt_hex r = h)) as [E|E]; [|rewrite bool_decide_eq_false_2 in Hh by done; by apply IH]. rewrite <- E, <- He. apply list_elem_of_fmap_2. by eapply list_elem_of_lookup_2.
  - rewrite take_ge by lia. assert (List.length (cache_after rs) < BS_TRACK_MAX)%nat as Hlt.
    { rewrite <- (length_map bt_hex (cache_after rs)).
      assert (bt_hex r :: map bt_hex (cache_after rs) ⊆+ remove_dups (map bt_hex (rs ++ [r]))) as Hs.
      { apply NoDup_submseteq.
        - constructor; [|done]. intros (e & E & He)%list_elem_of_fmap. rewrite Forall_forall in Hx. by apply (Hx e He).
        - intros x. rewrite elem_of_cons, elem_of_remove_dups, map_app, elem_of_app. intros [->|(e & -> & He)%list_elem_of_fmap]; [right; by apply list_elem_of_singleton|].
          left. rewrite Forall_forall in Hf. apply Hf, last_fix_hex in He as [_ He]. by apply list_elem_of_fmap_2. }
      apply submseteq_length in Hs. cbn [List.length] in Hs. lia. }
    rewrite (proj2 (Nat.ltb_lt _ _) Hlt), map_app. apply elem_of_app.
    destruct (decide (bt_hex r = h)) as [E|E]; [right; by apply list_elem_of_singleton|left].
    rewrite bool_decide_eq_false_2 in Hh by done. by apply IH.
Qed.
End tracks.

(** ** Connections *)

Definition closed (evs : list bs_event) : list Z := omap (fun ev => match ev with Closed fd => Some fd | Sent _ _ => None end) evs.

(** The clients before the first broken one get the line, in order, as far as
    their connections take it. *)
Definition delivery (outcome : Z -> write_result) (line : list Z) (fd : Z) : option bs_event :=
  match outcome fd with Written n => Some (Sent fd (take n line)) | _ => None end.

Lemma omap_delivery_cons outcome line fd l : omap (delivery outcome line) (fd :: l) =
  match delivery outcome line fd with Some ev => ev :: omap (delivery outcome line) l | None => omap (delivery outcome line) l end.
Proof. done. Qed.

Lemma send_all_spec outcome line l i : match send_all outcome line l i with
  | (evs, None) => evs = omap (delivery outcome line) l /\ Forall (fun fd => outcome fd <> Broken) l
  | (evs, Some k) => exists l1 fd l2, l = l1 ++ fd :: l2 /\ k = (i + List.length l1)%nat /\ outcome fd = Broken /\
      Forall (fun fd => outcome fd <> Broken) l1 /\ evs = omap (delivery outcome line) l1 ++ [Closed fd]
  end.
Proof.
  revert i. induction l as [|fd l IH]; intros i; cbn [send_all]; [done|]. specialize (IH (S i)).
  pose proof (omap_delivery_cons outcome line fd) as Hc. unfold delivery at 2 in Hc. destruct (outcome fd) as [n| |] eqn:E.
  3: { exists [], fd, l. split; [done|]. split; [cbn; lia|]. split; [done|]. split; [constructor|done]. }
  all: destruct (send_all outcome line l (S i)) as [evs [k|]].
  1,3: destruct IH as (l1 & fd' & l2 & -> & -> & Hb & Hf & ->); exists (fd :: l1), fd', l2; rewrite Hc; cbn [List.length];
    (split; [done|]); (split; [lia|]); (split; [done|]); (split; [constructor; [congruence|done]|done]).
  all: destruct IH as [-> Hf]; rewrite Hc; (split; [done|constructor; [congruence|done]]).
Qed.

Lemma closed_app evs evs' : closed (evs ++ evs') = closed evs ++ closed evs'.
Proof. apply omap_app. Qed.

Lemma closed_deliveries outcome line l : closed (omap (delivery outcome line) l) = [].
Proof.
  induction l as [|fd l IH]; [done|]. rewrite omap_delivery_cons. unfold delivery at 1. by destruct (outcome fd).
Qed.

Lemma swap_remove_perm l1 fd l2 : l1 ++ fd :: l2 ≡ₚ fd :: swap_remove (List.length l1) (l1 ++ fd :: l2).
Proof.
  unfold swap_remove. destruct l2 as [|y l2 _] using rev_ind.
  - rewrite last_snoc, length_app. cbn [List.length]. replace (_ + 1 - 1)%nat with (List.length l1) by lia.
    rewrite insert_app_r_alt, Nat.sub_diag by lia. rewrite take_app_length. by rewrite Permutation_app_comm.
  - replace (l1 ++ fd :: l2 ++ [y]) with ((l1 ++ fd :: l2) ++ [y]) by (by rewrite <- app_assoc). rewrite last_snoc, length_app. cbn [List.length].
    replace (_ + 1 - 1)%nat with (List.length (l1 ++ fd :: l2)) by lia.
    rewrite insert_app_l by (rewrite length_app; cbn; lia). rewrite take_app_length' by (by rewrite length_insert).
    rewrite insert_app_r_alt, Nat.sub_diag by lia. cbn [insert list_insert]. solve_Permutation.
Qed.

Section run.
Context (sin cos : f64 -> f64) (atan2 fmod : f64 -> f64 -> f64) {D : Type} `{AddressSource D} (db : D).

Inductive bs_op :=
  | Accept (fd : Z)
  | Reconnect (fd : option Z)
  | Position (outcome : Z -> write_result) (now : Z) (reg flight : list Z) (lat lon : f64) (alt_ft timestamp_ns : Z).

Definition apply_bs (op : bs_op) (s : bs_state) : list bs_event * bs_state :=
  match op with
  | Accept fd => bs_accept fd s
  | Reconnect fd => ([], bs_reconnect fd s)
  | Position outcome now reg flight lat lon alt t => basestation_send_position sin cos atan2 fmod db outcome now reg flight lat lon alt t s
  end.

(** Connections come from the accepting thread in server mode and from the
    reconnecting thread in client mode, and are not open already. *)
Definition op_possible (op : bs_op) (s : bs_state) : Prop :=
  match op with
  | Accept fd => bs_mode s = false /\ fd ∉ clients s
  | Reconnect _ => bs_mode s = true
  | Position _ _ _ _ _ _ _ _ => True
  end.

(** The connections an operation brings. *)
Definition brought (op : bs_op) (s : bs_state) : list Z :=
  match op with
  | Accept fd => [fd]
  | Reconnect (Some fd) => if bs_client_fd s is None then [fd] else []
  | _ => []
  end.

(** A run: the connections brought, the events, and the final state. *)
Inductive bs_run (s0 : bs_state) : list Z -> list bs_event -> bs_state -> Prop :=
| run_start : bs_run s0 [] [] s0
| run_op fds evs s op evs' s' : bs_run s0 fds evs s -> op_possible op s -> apply_bs op s = (evs', s') ->
    bs_run s0 (fds ++ brought op s) (evs ++ evs') s'.

Definition conns_ok (s : bs_state) : Prop :=
  (List.length (clients s) <= BS_MAX_CLIENTS)%nat /\ NoDup (clients s) /\
  (bs_mode s = true -> clients s = match bs_client_fd s with Some fd => [fd] | None => [] end) /\ (bs_mode s = false -> bs_client_fd s = None).

Lemma init_conns endpoint conn listening s : basestation_init endpoint conn listening = Some s -> conns_ok s.
Proof.
  unfold basestation_init. destruct (bs_endpoint endpoint) as [host port]. destruct (_ || _); [done|]. unfold conns_ok, BS_MAX_CLIENTS.
  destruct host; [|destruct listening; [|done]]; intros [= <-]; cbn.
  - destruct conn as [fd|]; cbn; (split; [lia|]); (split; [constructor|done]); (apply not_elem_of_nil || constructor).
  - split; [lia|]. split; [constructor|done].
Qed.

(** A position report: what happens to the connections. *)
Lemma send_conns outcome now reg flight lat lon alt t s evs s' : conns_ok s ->
  basestation_send_position sin cos atan2 fmod db outcome now reg flight lat lon alt t s = (evs, s') ->
  clients s ≡ₚ closed evs ++ clients s' /\ bs_mode s' = bs_mode s /\ (bs_mode s' = true -> clients s' = match bs_client_fd s' with Some fd => [fd] | None => [] end) /\
  (bs_mode s' = false -> bs_client_fd s' = None).
Proof.
  intros (Hl & Hd & H1 & H2). unfold basestation_send_position.
  destruct (negb (bs_active s)); [intros [= <- <-]; done|]. destruct reg as [|c reg]; [intros [= <- <-]; done|].
  destruct (icao_of db (c :: reg)) as [hex|]; [|intros [= <- <-]; done]. destruct (bs_derive_track _ _ _ _ _ _ _ _ _) as [track l].
  cbn [clients bs_mode bs_active bs_client_fd]. destruct (512 <=? _)%nat; [intros [= <- <-]; done|].
  set (line := sbs_line _ _ _ _ _ _ _). clearbody line. pose proof (send_all_spec outcome line (clients s) 0) as Hs.
  destruct (send_all _ _ _ _) as [evs0 [k|]]; intros E; injection E as <- <-.
  - destruct Hs as (l1 & fd & l2 & El & Ek & _ & _ & ->). rewrite closed_app, closed_deliveries. cbn [app]. change (closed [Closed fd]) with [fd].
    destruct (bs_mode s) eqn:Em; cbn [clients bs_mode bs_client_fd].
    + split; [|done]. rewrite H1 in El |- * by done. destruct (bs_client_fd s) as [f|]; [|by destruct l1]. destruct l1 as [|x l1]; [|by destruct l1]. by injection El as <- _.
    + split; [|by split_and!; [| |intros _; apply H2]]. rewrite El, Ek. cbn [Nat.add]. apply swap_remove_perm.
  - destruct Hs as [-> _]. rewrite closed_deliveries. done.
Qed.

Lemma apply_conns op s evs s' : conns_ok s -> op_possible op s -> apply_bs op s = (evs, s') ->
  brought op s ++ clients s ≡ₚ closed evs ++ clients s' /\ conns_ok s'.
Proof.
  intros Hs Hp E. pose proof Hs as (Hl & Hd & H1 & H2). destruct op as [fd|fd|outcome now reg flight lat lon alt t]; cbn [apply_bs op_possible brought] in *.
  - destruct Hp as [Hm Hn]. unfold bs_accept in E. destruct (Nat.ltb_spec (List.length (clients s)) BS_MAX_CLIENTS); simplify_eq/=; [|done].
    split; [by rewrite Permutation_app_comm|]. unfold conns_ok. cbn. rewrite length_app. cbn [List.length]. split; [lia|]. split; [|split; [congruence|done]].
    apply NoDup_app. split; [done|]. split; [|apply NoDup_singleton]. intros x Hx ->%list_elem_of_singleton. done.
  - simplify_eq/=. unfold bs_reconnect. specialize (H1 Hp). destruct (bs_client_fd s) as [f|] eqn:Ef; [destruct fd; done|]. destruct fd as [fd|]; [|done].
    cbn. rewrite H1. split; [done|]. unfold conns_ok, BS_MAX_CLIENTS. cbn. split; [lia|]. split; [apply NoDup_singleton|]. split; [done|congruence].
  - destruct (send_conns _ _ _ _ _ _ _ _ _ _ _ Hs E) as (Hc & Hm & H3 & H4). split; [done|].
    unfold conns_ok. apply Permutation_length in Hc as Hlen. rewrite length_app in Hlen. split; [lia|]. split; [|done].
    rewrite Hc in Hd. by apply NoDup_app in Hd as (_ & _ & Hd).
Qed.

Lemma run_conns s0 fds evs s : conns_ok s0 -> bs_run s0 fds evs s -> clients s0 ++ fds ≡ₚ closed evs ++ clients s /\ conns_ok s.
Proof.
  intros H0 Hr. induction Hr as [|fds evs s op evs' s' _ IH Hp E]; [by rewrite app_nil_r|]. destruct IH as [IH Hs].
  destruct (apply_conns op s evs' s' Hs Hp E) as [Hc Hs']. split; [|done]. rewrite closed_app, app_assoc, IH, <- !app_assoc.
  by rewrite (Permutation_app_comm (clients s)), Hc.
Qed.
End run.

(** Closing in client mode closes the one connection twice. *)
Lemma destroy_closes_twice : fst (basestation_destroy (Bs true true [3] (Some 3) [])) = [Closed 3; Closed 3].
Proof. reflexivity. Qed.

(** A broken connection keeps the line from the clients after it. *)
Lemma broken_skips_rest : fst (send_all (fun fd => if fd =? 1 then Broken else Written 100) [65] [1; 2] 0) = [Closed 1].
Proof. reflexivity. Qed.

Definition demo_table : aircraft_table := aircraft_db_load demo_aircraft ↾ load_table_ok demo_aircraft.

(** * Properties *)

(**  Whatever reports are sent and connections come and go, each
    connection the program was given is either among the at most sixteen it
    serves, none of them twice, or has been closed exactly once; in client mode
    it serves at most one. *)
Theorem bs_connections sin cos atan2 fmod {D : Type} `{AddressSource D} (db : D) endpoint conn listening s0 fds evs s :
  basestation_init endpoint conn listening = Some s0 -> bs_run sin cos atan2 fmod db s0 fds evs s ->
  clients s0 ++ fds ≡ₚ closed evs ++ clients s /\ NoDup (clients s) /\ (List.length (clients s) <= BS_MAX_CLIENTS)%nat /\
  (bs_mode s = true -> (List.length (clients s) <= 1)%nat).
Proof.
  intros Hi Hr. apply init_conns in Hi. destruct (run_conns _ _ _ _ db s0 fds evs s Hi Hr) as [Hp (Hl & Hd & H1 & _)].
  split; [done|]. split; [done|]. split; [done|]. intros Hm. rewrite H1 by done. destruct (bs_client_fd s); cbn; lia.
Qed.

Lemma bs_connections_witness :
  [] ++ [5; 6] ≡ₚ [5] ++ clients (Bs true false [6] None [Track [65; 57; 56; 53; 51; 57] (f64_of_Z 1) (f64_of_Z 2) 7]).
Proof.
  set (db := demo_table). set (report := Position (fun fd => if fd =? 5 then Broken else WouldBlock) 0 [78; 55; 49; 50; 84; 87] [] (f64_of_Z 1) (f64_of_Z 2) 0 7).
  apply (bs_connections id id f64_sub f64_sub db [] None true (Bs true false [] None []) [5; 6] [Closed 5]); [reflexivity|].
  apply (run_op id id f64_sub f64_sub db (Bs true false [] None []) [5; 6] [] (Bs true false [5; 6] None []) report [Closed 5]);
    [|exact I|vm_compute; reflexivity].
  apply (run_op id id f64_sub f64_sub db (Bs true false [] None []) [5] [] (Bs true false [5] None []) (Accept 6) []);
    [|split; [reflexivity|apply (bool_decide_unpack _); vm_compute; exact I]|reflexivity].
  apply (run_op id id f64_sub f64_sub db (Bs true false [] None []) [] [] (Bs true false [] None []) (Accept 5) []);
    [apply run_start|split; [reflexivity|apply (bool_decide_unpack _); vm_compute; exact I]|reflexivity].
Defined.

(**  Speed and heading of a report are derived from the last
    report of the same aircraft or left out; and as long as at most 64 aircraft
    have reported they are exactly what that report gives. *)
Theorem track_from_last_fix sin cos atan2 fmod rs hex lat lon t : Forall (fun r => List.length (bt_hex r) = 6%nat) rs ->
  let result := fst (bs_derive_track sin cos atan2 fmod hex lat lon t (cache_after sin cos atan2 fmod rs)) in
  let expected := prev ← last_fix hex rs; derived sin cos atan2 fmod prev lat lon t in
  (result = None \/ result = expected) /\
  ((List.length (remove_dups (map bt_hex rs)) <= BS_TRACK_MAX)%nat -> result = expected).
Proof.
  intros Hrs result expected. unfold result, bs_derive_track. pose proof (cache_after_ok sin cos atan2 fmod rs Hrs) as (_ & _ & Hf).
  pose proof (find_track hex (cache_after sin cos atan2 fmod rs)) as Hx. rewrite Forall_forall in Hf. destruct (list_find _ _) as [[i e]|]; cbn [fst].
  - destruct Hx as [Hi%list_elem_of_lookup_2 He]. specialize (Hf e Hi). rewrite He in Hf. unfold expected. rewrite Hf. cbn. auto.
  - split; [by left|]. intros Hn. unfold expected. destruct (last_fix hex rs) as [e|] eqn:E; [|done]. exfalso.
    assert (hex ∈ map bt_hex (cache_after sin cos atan2 fmod rs)) as (e' & -> & He)%list_elem_of_fmap by (apply cache_keeps; [done|done|by eexists]).
    rewrite Forall_forall in Hx. by apply (Hx e' He).
Qed.

Lemma track_from_last_fix_witness :
  let r := Track [65; 57; 56; 53; 51; 57] (f64_of_Z 1) (f64_of_Z 2) 0 in
  fst (bs_derive_track id id f64_sub f64_sub (bt_hex r) (f64_of_Z 1) (f64_of_Z 3) 60000000000 (cache_after id id f64_sub f64_sub [r])) =
  (prev ← last_fix (bt_hex r) [r]; derived id id f64_sub f64_sub prev (f64_of_Z 1) (f64_of_Z 3) 60000000000).
Proof.
  intros r. apply (track_from_last_fix id id f64_sub f64_sub [r] (bt_hex r) (f64_of_Z 1) (f64_of_Z 3) 60000000000); [repeat constructor|vm_compute; lia].
Defined.

(**  A line splits into the 22 fields of the format, in order,
    whatever the numbers are, when the flight name has no comma. *)
Theorem sbs_line_fields {D : Type} `{AddressSource D} (db : D) reg hex flight now alt track lat lon :
  icao_of db reg = Some hex -> 44 ∉ flight ->
  let line := sbs_line hex flight now alt track lat lon in
  exists body, line = body ++ [13; 10] /\ split_fields body = sbs_fields hex flight now alt track lat lon /\
    List.length (split_fields body) = 22%nat /\ List.length hex = 6%nat.
Proof.
  intros Hi Hfl line. apply icao_of_shape in Hi as [Hl Hc]. exists (commas (sbs_fields hex flight now alt track lat lon)).
  assert (split_fields (commas (sbs_fields hex flight now alt track lat lon)) = sbs_fields hex flight now alt track lat lon) as E
    by (apply split_commas; [done|by apply sbs_fields_plain]).
  split; [done|]. by rewrite E.
Qed.

Lemma sbs_line_fields_witness :
  exists body, sbs_line [65; 57; 56; 53; 51; 57] [85; 65; 49] 1700000000 35000 None (f64_of_Z 50) (f64_of_Z (-20)) = body ++ [13; 10] /\
    List.length (split_fields body) = 22%nat.
Proof.
  destruct (sbs_line_fields demo_table [78; 55; 49; 50; 84; 87] [65; 57; 56; 53; 51; 57] [85; 65; 49] 1700000000 35000 None (f64_of_Z 50) (f64_of_Z (-20)))
    as (body & H1 & _ & H3 & _); [vm_compute; reflexivity|apply (bool_decide_unpack _); vm_compute; exact I|]. by exists body.
Defined.
