(* ===== verification/FrameOutput.v ===== *)
(** The text output of frames, [src/frame_output.c]: RAW lines for every frame
    and IDA lines for decoded data bursts, built piece by piece in a line buffer
    of fixed size and written to standard output and to the ZMQ socket.

    [log10] of libm is a parameter; sockets appear as the bytes sent.  The loop
    over the bits after the checksum runs to [bch_len], which can be more than
    the 256 bits the array holds; the bytes behind it are a parameter too. *)
From S2P Require Import Prelude CFloat CString JsonText CNumber CFormat QpskDemod LcwFormat IdaDecode.
#[local] Open Scope Z_scope.

(** * The line buffer *)

Definition LINE_BUF_SIZE : nat := Z.to_nat 8192.

(** [buf_printf] and [buf_char]: [vsnprintf] keeps what fits before the
    terminator, and [line_pos] is moved to the end of that. *)
Definition buf_printf (s : list Z) (line_buf : list Z) : list Z := line_buf ++ take (LINE_BUF_SIZE - 1 - List.length line_buf) s.
Definition buf_char (c : Z) (line_buf : list Z) : list Z :=
  if (List.length line_buf <? LINE_BUF_SIZE - 1)%nat then line_buf ++ [c] else line_buf.

(** What standard output and the socket are given. *)
Record flushed := Flushed { to_stdout : option (list Z); to_zmq : option (list Z) }.
Definition buf_flush (stdout zmq : bool) (line_buf : list Z) : flushed :=
  match line_buf with
  | [] => Flushed None None
  | _ =>
      Flushed (if stdout then Some line_buf else None)
        (if zmq then Some (if bool_decide (last line_buf = Some 10) then removelast line_buf else line_buf) else None)
  end.

(** * Number formats *)

(** [%0w.pf] and [%+0w.pf]: zeros go between the sign and the digits; what is
    not a finite number is padded with blanks. *)
Definition pad_zeros (w : nat) (sign digits : list Z) : list Z :=
  sign ++ replicate (w - List.length sign - List.length digits) 48 ++ digits.
Definition pad_blanks (w : nat) (s : list Z) : list Z := replicate (w - List.length s) 32 ++ s.

Definition f_negative (x : f64) : bool := match x with S754_zero s | S754_infinity s | S754_finite s _ _ => s | S754_nan => false end.
Definition f_finite (x : f64) : bool := match x with S754_zero _ | S754_finite _ _ _ => true | _ => false end.

Definition fmt_0f (plus : bool) (w p : nat) (x : f64) : list Z :=
  let sign := if f_negative x then [45] else if plus then [43] else [] in
  if f_finite x then pad_zeros w sign (fmt_f p (f64_abs x)) else pad_blanks w (sign ++ fmt_f p (f64_abs x)).

(** [%0wd]. *)
Definition fmt_0d (w : nat) (n : Z) : list Z :=
  if n <? 0 then pad_zeros w [45] (bytes_of (fmt_d (- n))) else pad_zeros w [] (bytes_of (fmt_d n)).
Definition fmt_3d (n : Z) : list Z := pad_blanks 3 (bytes_of (fmt_d n)).
Definition fmt_0x (w : nat) (n : Z) : list Z := bytes_of (pad0 w (fmt_x n)).

(** * Shared state *)

Record out_state := OutState { out_file_info : list Z; t0 : Z; initialized : bool }.

Definition ensure_initialized (timestamp : Z) (st : out_state) : out_state :=
  if initialized st then st
  else
    let t0 := timestamp / 1000000000 * 1000000000 in
    OutState (if out_file_info st is [] then bytes_of "i-" ++ bytes_of (fmt_d (t0 / 1000000000)) ++ bytes_of "-t1" else out_file_info st) t0 true.

Definition c_half : f64 := S754_finite false 4503599627370496 (-53).
Definition ts_ms (timestamp : Z) (st : out_state) : f64 := f64_div (f64_of_Z (u64 (timestamp - t0 st))) (f64_of_Z 1000000).
Definition freq_hz (f : f64) : Z := f64_trunc (f64_add f c_half).

Record out_config := OutConfig { diagnostic_mode : bool; acars_on : bool; zmq_active : bool }.

(** * The RAW line *)

Definition blank : list Z := [32].
Definition raw_header (st : out_state) (f : demod_frame) : list Z :=
  bytes_of "RAW: " ++ out_file_info st ++ blank ++ fmt_0f false 12 4 (ts_ms (df_timestamp f) st) ++ blank ++
  fmt_0d 10 (freq_hz (df_center_frequency f)) ++ bytes_of " N:" ++ fmt_0f false 5 2 (df_magnitude f) ++ fmt_0f true 6 2 (df_noise f) ++
  bytes_of " I:" ++ fmt_0d 11 (df_id f) ++ blank ++ fmt_3d (df_confidence f) ++ bytes_of "% " ++ fmt_f 5 (df_level f) ++ blank ++
  fmt_3d (if df_n_payload_symbols f <? 0 then 0 else df_n_payload_symbols f) ++ blank.

Definition raw_line (st : out_state) (f : demod_frame) : list Z :=
  let b := buf_printf (raw_header st f) [] in
  let b := fold_left (fun b bit => buf_char (48 + bit) b) (df_bits f) b in
  buf_char 10 b.

Definition frame_output_print (c : out_config) (st : out_state) (f : demod_frame) : flushed * out_state :=
  let suppress_stdout := diagnostic_mode c || acars_on c in
  if suppress_stdout && negb (zmq_active c) then (Flushed None None, st)
  else
    let st := ensure_initialized (df_timestamp f) st in
    (buf_flush (negb suppress_stdout) (zmq_active c) (raw_line st f), st).

(** * The IDA line *)

Section ida.
Context (log10 : f64 -> f64) (beyond : list Z).

(** -99.99. *)
Definition no_level : f64 := S754_finite true 7036170730324623 (-46).

Definition ida_header (st : out_state) (b : ida_burst) : list Z :=
  let leveldb := if f64_ltb (S754_zero false) (ib_level b) then f64_mul (f64_of_Z 20) (log10 (ib_level b)) else no_level in
  bytes_of "IDA: p-" ++ bytes_of (fmt_d (t0 st / 1000000000)) ++ blank ++ fmt_0f false 14 4 (ts_ms (ib_timestamp b) st) ++ blank ++
  fmt_0d 10 (freq_hz (ib_frequency b)) ++ blank ++ fmt_3d (ib_confidence b) ++ bytes_of "% " ++ fmt_0f false 6 2 leveldb ++ bytes_of "|" ++
  fmt_0f false 7 2 (ib_noise b) ++ bytes_of "|" ++ fmt_0f false 5 2 (ib_magnitude b) ++ blank ++
  fmt_3d (if ib_n_symbols b <? 0 then 0 else ib_n_symbols b) ++ blank ++
  bytes_of (match ib_direction b with DIR_UPLINK => "UL" | _ => "DL" end) ++ blank.

(** The bits [from .. from + n - 1] of the stream as characters. *)
Definition bit_chars (bs : list Z) (from n : nat) : list Z := map (fun i => 48 + bs.[i]) (seq from n).

Definition ida_line_fields (b : ida_burst) : list Z :=
  let bs := ib_bch_stream b in
  bit_chars bs 0 3 ++ bytes_of " cont=" ++ bit_chars bs 3 1 ++ blank ++ bit_chars bs 4 1 ++ bytes_of " ctr=" ++ bit_chars bs 5 3 ++
  blank ++ bit_chars bs 8 3 ++ bytes_of " len=" ++ fmt_0d 2 (ib_da_len b) ++ bytes_of " 0:" ++ bit_chars bs 16 4.

(** Whether the bytes of the payload from [da_len + 1] on are all zero. *)
Definition all_zero (b : ida_burst) : bool :=
  forallb (fun i => (ib_payload b).[i] =? 0) (seq (Z.to_nat (ib_da_len b) + 1) (20 - (Z.to_nat (ib_da_len b) + 1))).

(** [n] bytes in hexadecimal; [mark] is the place of the exclamation mark. *)
Definition hex_bytes (payload : list Z) (n : nat) (mark : option nat) : list Z :=
  List.concat (map (fun i => (if (i =? 0)%nat then [] else if bool_decide (mark = Some i) then [33] else [46]) ++ fmt_0x 2 payload.[i]) (seq 0 n)).

Definition hex_part (b : ida_burst) : list Z :=
  let n := Z.to_nat (ib_da_len b) in
  if 0 <? ib_da_len b then
    if all_zero b then hex_bytes (ib_payload b) n None
    else hex_bytes (ib_payload b) 20 (if (n <? 20)%nat then Some n else None)
  else hex_bytes (ib_payload b) 20 None.

Definition hexlen (b : ida_burst) : nat :=
  let nbytes := if 0 <? ib_da_len b then if all_zero b then Z.to_nat (ib_da_len b) else 20%nat else 20%nat in
  (nbytes * 3 - 1 + 1)%nat.

Definition crc_part (b : ida_burst) : list Z :=
  if 0 <? ib_da_len b then
    blank ++ fmt_0x 4 (ib_stored_crc b) ++ bytes_of "/" ++ fmt_0x 4 (ib_computed_crc b) ++
    bytes_of (if ib_crc_ok b then " CRC:OK" else " CRC:no")
  else bytes_of "  ---   ".

Definition trailing_part (b : ida_burst) : list Z :=
  let first := (9 * 20 + 16)%nat in
  if (first <? ib_bch_len b)%nat then blank ++ map u8 (bit_chars (ib_bch_stream b ++ beyond) first (ib_bch_len b - first)) else bytes_of " 0000".

Definition sbd_char (bs : list Z) (i : nat) : Z :=
  let byte := fold_left (fun v j => Z.lor (Z.shiftl v 1) bs.[(1 * 20 + i * 8 + j)%nat]) (seq 0 8) 0 in
  if (32 <=? byte) && (byte <? 127) then byte else 46.
Definition sbd_part (b : ida_burst) : list Z :=
  if (0 <? ib_da_len b) && (9 * 20 <=? ib_bch_len b)%nat then bytes_of " SBD: " ++ map (sbd_char (ib_bch_stream b)) (seq 0 20) else [].

Definition ida_line (st : out_state) (b : ida_burst) : list Z :=
  let line := buf_printf (bytes_of (ib_lcw_header b)) (buf_printf (ida_header st b) []) in
  if (ib_bch_len b <? 20)%nat then buf_char 10 line
  else
    let line := buf_printf (ida_line_fields b) line in
    let line := buf_printf (bytes_of "]") (buf_printf (hex_part b) (buf_printf (bytes_of " [") line)) in
    let line := fold_left (fun l c => buf_char c l) (replicate (60 - hexlen b) 32) line in
    let line := buf_printf (sbd_part b) (buf_printf (trailing_part b) (buf_printf (crc_part b) line)) in
    buf_char 10 line.

Definition frame_output_print_ida (c : out_config) (st : out_state) (b : ida_burst) : flushed * out_state :=
  if diagnostic_mode c && negb (zmq_active c) then (Flushed None None, st)
  else
    let st := ensure_initialized (ib_timestamp b) st in
    (buf_flush (negb (diagnostic_mode c)) (zmq_active c) (ida_line st b), st).
End ida.

(** * Lemmas *)

(** ** The buffer *)

Lemma buf_printf_spec s b : (List.length b <= LINE_BUF_SIZE - 1)%nat -> buf_printf s b = take (LINE_BUF_SIZE - 1) (b ++ s).
Proof. intros Hb. unfold buf_printf. by rewrite take_app_ge. Qed.

Lemma buf_char_spec c b : buf_char c b = buf_printf [c] b.
Proof.
  unfold buf_char, buf_printf. destruct (Nat.ltb_spec (List.length b) (LINE_BUF_SIZE - 1)).
  - by rewrite take_ge by (cbn; lia).
  - replace (_ - List.length b)%nat with 0%nat by lia. by rewrite app_nil_r.
Qed.

(** Printing a text at once and in pieces is the same. *)
Lemma buf_printf_app s t b : buf_printf (s ++ t) b = buf_printf t (buf_printf s b).
Proof.
  unfold buf_printf. rewrite take_app, <- app_assoc. do 2 f_equal. rewrite length_app, length_take. f_equal. lia.
Qed.

Lemma buf_printf_nil b : buf_printf [] b = b.
Proof. unfold buf_printf. by rewrite take_nil, app_nil_r. Qed.

Lemma buf_chars_spec cs b : fold_left (fun l c => buf_char c l) cs b = buf_printf cs b.
Proof.
  revert b. induction cs as [|c cs IH]; intros b; cbn [fold_left]; [by rewrite buf_printf_nil|].
  rewrite IH, buf_char_spec, <- buf_printf_app. done.
Qed.

Lemma buf_printf_fits s : (List.length s < LINE_BUF_SIZE)%nat -> buf_printf s [] = s.
Proof. intros Hs. unfold buf_printf. cbn [app List.length]. apply take_ge. lia. Qed.

Lemma buf_printf_bound s : (List.length (buf_printf s []) < LINE_BUF_SIZE)%nat.
Proof. unfold buf_printf. cbn [app List.length]. rewrite length_take. unfold LINE_BUF_SIZE. lia. Qed.

(** The lines as texts printed at once. *)
Definition raw_text (st : out_state) (f : demod_frame) : list Z := raw_header st f ++ map (fun bit => 48 + bit) (df_bits f) ++ [10].

Lemma raw_line_text st f : raw_line st f = buf_printf (raw_text st f) [].
Proof.
  unfold raw_line, raw_text. rewrite buf_char_spec, !buf_printf_app. f_equal.
  rewrite <- (buf_chars_spec (map _ _)). generalize (buf_printf (raw_header st f) []). induction (df_bits f) as [|x l IH]; intros b; [done|]. apply IH.
Qed.

Section ida_text.
Context (log10 : f64 -> f64) (beyond : list Z).

Definition ida_text (st : out_state) (b : ida_burst) : list Z :=
  ida_header log10 st b ++ bytes_of (ib_lcw_header b) ++
  (if (ib_bch_len b <? 20)%nat then []
   else ida_line_fields b ++ bytes_of " [" ++ hex_part b ++ bytes_of "]" ++ replicate (60 - hexlen b) 32 ++
        crc_part b ++ trailing_part beyond b ++ sbd_part b) ++ [10].

Lemma ida_line_text st b : ida_line log10 beyond st b = buf_printf (ida_text st b) [].
Proof.
  unfold ida_line, ida_text. destruct (_ <? 20)%nat; rewrite !buf_char_spec, ?buf_chars_spec, !buf_printf_app; [|done].
  by rewrite (buf_printf_nil (buf_printf (bytes_of (ib_lcw_header b)) _)).
Qed.
End ida_text.

(** ** Reading the lines back *)

(** The last field of a line, without the line end, as bits. *)
Fixpoint last_field (s acc : list Z) : list Z :=
  match s with
  | [] => acc
  | c :: s => if c =? 32 then last_field s [] else last_field s (acc ++ [c])
  end.
Definition read_raw (line : list Z) : list Z := map (fun c => c - 48) (last_field (removelast line) []).

Lemma last_field_app s t acc : last_field (s ++ 32 :: t) acc = last_field t [].
Proof.
  revert acc. induction s as [|c s IH]; intros acc; [done|]. cbn [app last_field]. destruct (c =? 32); apply IH.
Qed.

Lemma last_field_plain s acc : Forall (fun c => c <> 32) s -> last_field s acc = acc ++ s.
Proof.
  intros Hs. revert acc. induction Hs as [|c s Hc _ IH]; intros acc; cbn [last_field]; [by rewrite app_nil_r|].
  rewrite (proj2 (Z.eqb_neq c 32) Hc), IH, <- app_assoc. done.
Qed.

(** The bytes between the brackets: two digits each, one separator between. *)
Definition hex_value (c : Z) : Z := if c <=? 57 then c - 48 else c - 87.
Fixpoint read_hex (fuel : nat) (s : list Z) : list Z :=
  match fuel, s with
  | S fuel, a :: b :: c :: s => (16 * hex_value a + hex_value b) :: (if c =? 93 then [] else read_hex fuel s)
  | _, _ => []
  end.

Lemma rd_byte l i : bytes_ok l -> is_byte l.[i].
Proof.
  intros Hl. unfold rd. destruct (nth_in_or_default i l 0) as [Hin|E]; [|rewrite E; unfold is_byte; lia].
  rewrite Forall_forall in Hl. by apply Hl, list_elem_of_In.
Qed.

Lemma rd_lookup (l : list Z) i x : l !! i = Some x -> l.[i] = x.
Proof. intros Hi. unfold rd. by apply nth_lookup_Some. Qed.

Definition hex_ok (v : Z) : bool := match fmt_0x 2 v with [a; b] => 16 * hex_value a + hex_value b =? v | _ => false end.
Lemma hex_ok_bytes : forallb hex_ok (map Z.of_nat (seq 0 256)) = true.
Proof. vm_compute. reflexivity. Qed.

Lemma fmt_hex v : is_byte v -> exists a b, fmt_0x 2 v = [a; b] /\ 16 * hex_value a + hex_value b = v.
Proof.
  intros Hv. pose proof hex_ok_bytes as H. rewrite forallb_forall in H. specialize (H v). unfold is_byte in Hv.
  assert (hex_ok v = true) as Ho.
  { apply H. apply in_map_iff. exists (Z.to_nat v). split; [lia|]. apply in_seq. lia. }
  unfold hex_ok in Ho. destruct (fmt_0x 2 v) as [|a [|b [|c s]]]; try done. exists a, b. split; [done|]. by apply Z.eqb_eq.
Qed.

Definition hex_piece (payload : list Z) (mark : option nat) (i : nat) : list Z :=
  (if (i =? 0)%nat then [] else if bool_decide (mark = Some i) then [33] else [46]) ++ fmt_0x 2 payload.[i].

Lemma read_pieces payload mark fuel m k v rest : bytes_ok payload -> (0 < k)%nat -> is_byte v -> (m < fuel)%nat ->
  read_hex fuel (fmt_0x 2 v ++ List.concat (map (hex_piece payload mark) (seq k m)) ++ 93 :: rest) = v :: map (fun i => payload.[i]) (seq k m).
Proof.
  intros Hp. revert fuel k v. induction m as [|m IH]; intros fuel k v Hk Hv Hf; (destruct fuel as [|fuel]; [lia|]); destruct (fmt_hex v Hv) as (a & b & -> & Ev).
  - cbn. by rewrite Ev.
  - cbn [seq map List.concat]. unfold hex_piece at 1. rewrite (proj2 (Nat.eqb_neq k 0)) by lia.
    assert (is_byte payload.[k]) as Hb by (by apply rd_byte).
    assert (exists c, (if bool_decide (mark = Some k) then [33] else [46]) = [c] /\ c <> 93) as (c & -> & Hc) by (destruct (bool_decide _); by eexists).
    cbn [app read_hex]. rewrite (proj2 (Z.eqb_neq c 93) Hc), Ev. f_equal. rewrite <- !app_assoc. apply IH; (lia || done).
Qed.

Lemma read_hex_bytes payload n mark fuel rest : bytes_ok payload -> (0 < n <= fuel)%nat ->
  read_hex fuel (hex_bytes payload n mark ++ 93 :: rest) = map (fun i => payload.[i]) (seq 0 n).
Proof.
  intros Hp Hn. destruct n as [|n]; [lia|]. unfold hex_bytes. fold (hex_piece payload mark). cbn [seq map List.concat].
  change (hex_piece payload mark 0) with (fmt_0x 2 payload.[0%nat]). rewrite <- app_assoc. apply read_pieces; [done|lia|by apply rd_byte|lia].
Qed.

Lemma length_hex_bytes payload n mark : bytes_ok payload -> (0 < n)%nat -> List.length (hex_bytes payload n mark) = (3 * n - 1)%nat.
Proof.
  intros Hp Hn. destruct n as [|n]; [lia|]. unfold hex_bytes. fold (hex_piece payload mark). cbn [seq map List.concat].
  assert (forall k, List.length (fmt_0x 2 payload.[k]) = 2%nat) as H2.
  { intros k. destruct (fmt_hex payload.[k]) as (a & b & -> & _); [by apply rd_byte|done]. }
  assert (forall m k, (0 < k)%nat -> List.length (List.concat (map (hex_piece payload mark) (seq k m))) = (3 * m)%nat) as Hl.
  { induction m as [|m IH]; intros k Hk; [done|]. cbn [seq map List.concat]. rewrite length_app, IH by lia. unfold hex_piece.
    rewrite (proj2 (Nat.eqb_neq k 0)), length_app, H2 by lia. destruct (bool_decide _); cbn; lia. }
  rewrite length_app, Hl by lia. change (hex_piece payload mark 0) with (fmt_0x 2 payload.[0%nat]). rewrite H2. lia.
Qed.

Lemma map_rd payload n : (n <= List.length payload)%nat -> map (fun i => payload.[i]) (seq 0 n) = take n payload.
Proof.
  intros Hn. apply list_eq_same_length with n; [by rewrite length_take_le|by rewrite length_map, length_seq|].
  intros i x y Hi Hx Hy. rewrite lookup_take_lt in Hy by done. change (map ?f ?l) with (f <$> l) in Hx. rewrite list_lookup_fmap, lookup_seq_lt in Hx by done. cbn in Hx.
  injection Hx as <-. by apply rd_lookup.
Qed.

(** The bracket is closed and filled up to sixty columns. *)
Definition hex_field (b : ida_burst) : list Z := hex_part b ++ bytes_of "]" ++ replicate (60 - hexlen b) 32.

(** Of a burst that is zero beyond its length, as those the decoder accepts
    are, the code shows the bytes up to its length. *)
Definition zero_beyond (b : ida_burst) : Prop :=
  ib_payload_len b = (if 0 <? ib_da_len b then ib_da_len b else 20) /\
  forall i, (Z.to_nat (ib_payload_len b) <= i)%nat -> (ib_payload b).[i] = 0.

Lemma hex_part_bytes b : 0 <= ib_da_len b <= 20 -> zero_beyond b ->
  let n := Z.to_nat (ib_payload_len b) in
  (0 < n <= 20)%nat /\ hex_part b = hex_bytes (ib_payload b) n None /\ hexlen b = (3 * n)%nat.
Proof.
  intros Hl [En Hz]. cbn zeta. unfold hex_part, hexlen. destruct (Z.ltb_spec 0 (ib_da_len b)) as [Hp|Hp]; rewrite En in *; [|split; [lia|done]].
  assert (all_zero b = true) as ->.
  { unfold all_zero. apply forallb_forall. intros i Hi%in_seq. apply Z.eqb_eq, Hz. lia. }
  split; [lia|]. split; [done|lia].
Qed.

Lemma hex_field_spec b : 0 <= ib_da_len b <= 20 -> bytes_ok (ib_payload b) -> List.length (ib_payload b) = 32%nat -> zero_beyond b ->
  List.length (hex_field b) = 60%nat /\ read_hex 20 (hex_field b) = take (Z.to_nat (ib_payload_len b)) (ib_payload b).
Proof.
  intros Hl Hp Hn Hz. destruct (hex_part_bytes b Hl Hz) as (Hr & E & Eh). unfold hex_field. rewrite E, Eh. split.
  - rewrite !length_app, length_hex_bytes, length_replicate by (done || lia). cbn. lia.
  - change (bytes_of "]" ++ ?l) with (93 :: l). rewrite read_hex_bytes by (done || lia). apply map_rd. lia.
Qed.

Lemma raw_header_blank st f : exists h, raw_header st f = h ++ [32].
Proof. eexists. unfold raw_header, blank. rewrite !app_assoc. reflexivity. Qed.

Lemma removelast_snoc {A} (l : list A) x : removelast (l ++ [x]) = l.
Proof. apply removelast_last. Qed.

(** The byte just after the data is neither shown nor tested: bursts that differ
    only there have the same hexadecimal part. *)
Lemma hex_part_skips_next b b' n : ib_da_len b = Z.of_nat n -> (0 < n < 20)%nat -> ib_da_len b' = ib_da_len b ->
  (forall i, i <> n -> (ib_payload b').[i] = (ib_payload b).[i]) -> all_zero b = true -> hex_part b' = hex_part b.
Proof.
  intros El Hn El' Hp Hz. assert (all_zero b' = true) as Hz'.
  { unfold all_zero in *. rewrite El'. rewrite forallb_forall in Hz |- *. intros i Hi. rewrite Hp; [by apply Hz|]. apply in_seq in Hi. lia. }
  unfold hex_part. rewrite El', Hz, Hz'. destruct (0 <? _) eqn:E; [|lia]. unfold hex_bytes. f_equal. apply map_ext_in. intros i Hi%in_seq.
  rewrite Hp; [done|lia].
Qed.

(** * Properties *)

(**  A RAW line fits the line buffer, and when nothing of it had
    to be cut its last field reads back as the bits of the frame. *)
Theorem raw_line_roundtrip st f : bits_ok (df_bits f) ->
  (List.length (raw_line st f) < LINE_BUF_SIZE)%nat /\
  ((List.length (raw_text st f) < LINE_BUF_SIZE)%nat -> read_raw (raw_line st f) = df_bits f).
Proof.
  intros Hb. rewrite raw_line_text. split; [apply buf_printf_bound|]. intros Hl. rewrite buf_printf_fits by done.
  destruct (raw_header_blank st f) as [h E]. unfold raw_text, read_raw. rewrite E, app_assoc, removelast_snoc, <- app_assoc. cbn [app].
  rewrite last_field_app, last_field_plain.
  - cbn [app]. rewrite map_map. rewrite <- (map_id (df_bits f)) at 2. apply map_ext. intros. lia.
  - apply Forall_map. eapply Forall_impl; [exact Hb|]. intros x [-> | ->]; done.
Qed.

Lemma raw_line_roundtrip_witness : read_raw (raw_line (OutState [105] 0 true) demo_ida_frame) = df_bits demo_ida_frame.
Proof.
  apply (raw_line_roundtrip (OutState [105] 0 true) demo_ida_frame).
  - apply (bool_decide_unpack _). vm_compute. exact I.
  - apply (bool_decide_unpack _). vm_compute. exact I.
Defined.

(** C37 (roundtrip).  The line of a decoded data burst fits the line buffer, and
    when nothing had to be cut the field after the bracket is 60 columns wide
    and reads back as the payload of the burst: as many bytes as it announces, or
    all twenty when it announces none. *)
Theorem ida_line_roundtrip log10 beyond tbl k stk f b st : ida_decode tbl k stk f = Some b ->
  (List.length (ida_line log10 beyond st b) < LINE_BUF_SIZE)%nat /\
  ((List.length (ida_text log10 beyond st b) < LINE_BUF_SIZE)%nat ->
   exists head field tail, ida_line log10 beyond st b = head ++ bytes_of " [" ++ field ++ tail /\
     List.length field = 60%nat /\ ib_payload_len b = (if 0 <? ib_da_len b then ib_da_len b else 20) /\ read_hex 20 field = take (Z.to_nat (ib_payload_len b)) (ib_payload b) /\
     head = ida_header log10 st b ++ bytes_of (ib_lcw_header b) ++ ida_line_fields b).
Proof.
  intros Hd. pose proof (ida_decode_payload _ _ _ _ _ Hd) as Hz. apply ida_decode_wf in Hd as (Hl & _ & _ & Hp & Hn & _ & _ & _ & _ & (n & En & Hlen) & _).
  rewrite ida_line_text. split; [apply buf_printf_bound|]. intros Hs. rewrite buf_printf_fits by done.
  destruct (hex_field_spec b Hl Hp Hn Hz) as [H1 H2].
  eexists _, (hex_field b), _. split; [|split; [exact H1|split; [exact (proj1 Hz)|split; [exact H2|reflexivity]]]].
  unfold ida_text, hex_field. destruct (Nat.ltb_spec (ib_bch_len b) 20); [lia|]. rewrite <- !app_assoc. reflexivity.
Qed.

Lemma ida_line_roundtrip_witness : exists b, ida_decode ida_decode_init 5 demo_junk demo_ida_frame = Some b /\
  exists head field tail, ida_line id [] (OutState [105] 0 true) b = head ++ bytes_of " [" ++ field ++ tail /\ read_hex 20 field = take (Z.to_nat (ib_payload_len b)) (ib_payload b).
Proof.
  assert ((fun b => Nat.ltb (List.length (ida_text id [] (OutState [105] 0 true) b)) LINE_BUF_SIZE) <$> ida_decode ida_decode_init 5 demo_junk demo_ida_frame = Some true) as Hf
    by (vm_compute; reflexivity).
  destruct (ida_decode ida_decode_init 5 demo_junk demo_ida_frame) as [b|] eqn:E; [|discriminate Hf].
  exists b. split; [reflexivity|].
  destruct (ida_line_roundtrip id [] ida_decode_init 5 demo_junk demo_ida_frame b (OutState [105] 0 true) E) as [_ H].
  destruct H as (head & field & tail & H1 & _ & _ & H2 & _); [apply Nat.ltb_lt; injection Hf as Hf; exact Hf|].
  exists head, field, tail. split; [exact H1|exact H2].
Defined.
