(* ===== verification/Demod.v ===== *)
(** The demodulator, [src/qpsk_demod.c]: from the samples of a burst at several
    samples per symbol to a frame of bits.  The symbol-level steps (unique word,
    differential decoding, bit mapping) are those of [QpskDemod.v].

    [cosf], [sinf], [atan2f] and [hypotf] of libm are parameters ([cabsf] is
    [hypotf] and [cargf] is [atan2f] of the parts); [fmodf] and [sqrtf] are
    exact.  The thread-local work buffers appear as their capacity: a decimator
    that produces more symbols writes past them.  Allocation succeeds. *)
From S2P Require Import Prelude CFloat CRound CCanon CComplex QpskDemod CString JsonText CNumber CFormat FrameOutput.
#[local] Open Scope Z_scope.

(** * Data *)

(** [downmix_frame_t] of [src/burst_downmix.h]; [num_samples] is the length of
    [samples]. *)
Record downmix_frame := DownmixFrame {
  dm_id : Z;
  dm_timestamp : Z;
  dm_center_frequency : f64;
  dm_sample_rate : f32;
  dm_samples_per_symbol : f32;
  dm_direction : ir_direction;
  dm_magnitude : f32;
  dm_noise : f32;
  dm_uw_start : f32;
  dm_samples : list c32;
}.

Definition num_samples (f : downmix_frame) : Z := Z.of_nat (List.length (dm_samples f)).
Definition set_direction (d : ir_direction) (f : downmix_frame) : downmix_frame :=
  DownmixFrame (dm_id f) (dm_timestamp f) (dm_center_frequency f) (dm_sample_rate f) (dm_samples_per_symbol f) d
    (dm_magnitude f) (dm_noise f) (dm_uw_start f) (dm_samples f).

(** What [save_burst_iq] leaves on disk. *)
Inductive saved_file :=
  | IqFile (path : list Z) (samples : list c32)
  | MetaFile (path : list Z) (text : list Z).

(** * Constants *)

Definition PLL_ALPHA : f32 := f32_lit 1 5.
Definition M_SQRT1_2f : f32 := f32_lit 70710678118654752 100000000000000000.
Definition CONFIDENCE_ANGLE : f32 := f32_of_Z 22.
Definition MAGNITUDE_DROP : f32 := f32_of_Z 8.
Definition MAX_LOW_COUNT : nat := 3.
Definition UW_SOFT_THRESHOLD : f32 := f32_of_Z 3.
Definition GARDNER_KP : f32 := f32_lit 1 50.
Definition GARDNER_KI : f32 := f32_lit 1 5000.
Definition IR_SYMBOLS_PER_SECOND : Z := 25000.
Definition half : f32 := f32_lit 1 2.
Definition M_PIf : f32 := f32_of_f64 M_PI.

(** * Decimation *)

(** [ensure_work_buffers]: the new capacity. *)
Definition ensure_work_buffers (max_symbols work_capacity : Z) : Z :=
  if max_symbols <=? work_capacity then work_capacity else max_symbols + 256.

(** [cubic_interp]: the fraction is taken before the index is clamped. *)
Definition cubic_interp (inp : list c32) (pos : f32) : c32 :=
  let n_samples := Z.of_nat (List.length inp) in
  let idx := f64_trunc pos in
  let mu := f32_sub pos (f32_of_Z idx) in
  let idx := if idx <? 1 then 1 else idx in
  let idx := if n_samples - 2 <=? idx then n_samples - 3 else idx in
  let at_ i := inp !!! Z.to_nat (idx + i) in
  let '(s0, s1, s2, s3) := (at_ (-1), at_ 0, at_ 1, at_ 2) in
  let mu2 := f32_mul mu mu in
  let mu3 := f32_mul mu2 mu in
  let k n d := c_scale (f32_lit n d) in
  let mhalf := c_scale (f32_opp half) in
  let a := c_add (c_sub (c_add (mhalf s0) (k 3%positive 2%positive s1)) (k 3%positive 2%positive s2)) (k 1%positive 2%positive s3) in
  let b := c_sub (c_add (c_sub s0 (k 5%positive 2%positive s1)) (k 2%positive 1%positive s2)) (k 1%positive 2%positive s3) in
  let c := c_add (mhalf s0) (k 1%positive 2%positive s2) in
  let d := s1 in
  c_add (c_add (c_add (c_scale_r a mu3) (c_scale_r b mu2)) (c_scale_r c mu)) d.

Definition clamp (b x : f32) : f32 :=
  let x := if f32_gtb x b then b else x in
  if f32_ltb x (f32_opp b) then f32_opp b else x.

(** One correction of the sampling position: the new integral and position. *)
Definition gardner_adjust (inp : list c32) (sps : f32) (pos timing_offset : f32) (prev_sym on_time : c32) : f32 * f32 :=
  let mid_pos := f32_sub pos (f32_mul sps half) in
  if f32_leb f32_one mid_pos then
    let mid := cubic_interp inp mid_pos in
    let diff := c_sub prev_sym on_time in
    let error := clamp f32_one (c_re (c_mul diff (conjf mid))) in
    let timing_offset := f32_add timing_offset (f32_mul GARDNER_KI error) in
    let adjust := clamp half (f32_add (f32_mul GARDNER_KP error) timing_offset) in
    (timing_offset, f32_add pos adjust)
  else (timing_offset, pos).

(** [decimate_gardner]: the loop; [prev_sym] is [None] before the first symbol
    ([n > 0]).  [None]: still running after [fuel] symbols. *)
Fixpoint gardner_loop (fuel : nat) (inp : list c32) (sps : f32) (pos timing_offset : f32) (prev_sym : option c32) : option (list c32) :=
  if f32_ltb pos (f32_of_Z (Z.of_nat (List.length inp) - 3)) then
    match fuel with
    | O => None
    | S fuel =>
        let on_time := cubic_interp inp pos in
        let '(timing_offset, pos) :=
          match prev_sym with
          | Some prev_sym => gardner_adjust inp sps pos timing_offset prev_sym on_time
          | None => (timing_offset, pos)
          end in
        out ← gardner_loop fuel inp sps (f32_add pos sps) timing_offset (Some on_time);
        Some (on_time :: out)
    end
  else Some [].
Definition decimate_gardner (fuel : nat) (inp : list c32) (sps : f32) : option (list c32) :=
  gardner_loop fuel inp sps f32_zero f32_zero None.

(** [decimate_simple]: every [(int)sps]-th sample; a step below one never gets
    to the end. *)
Fixpoint decimate_simple_go (fuel : nat) (inp : list c32) (i step : Z) : option (list c32) :=
  if i <? Z.of_nat (List.length inp) then
    match fuel with
    | O => None
    | S fuel => out ← decimate_simple_go fuel inp (i + step) step; Some (inp !!! Z.to_nat i :: out)
    end
  else Some [].
Definition decimate_simple (fuel : nat) (inp : list c32) (sps : f32) : option (list c32) :=
  decimate_simple_go fuel inp 0 (f64_trunc sps).

(** * Demodulation *)

Section libm.
Context (cosf sinf : f32 -> f32) (atan2f hypotf : f32 -> f32 -> f32).

Definition cabsf (z : c32) : f32 := hypotf (c_re z) (c_im z).
Definition cargf (z : c32) : f32 := atan2f (c_im z) (c_re z).

(** The nearest constellation point. *)
Definition nearest (z : c32) : c32 :=
  let m := f32_opp M_SQRT1_2f in
  if f32_leb f32_zero (c_re z) && f32_leb f32_zero (c_im z) then C32 M_SQRT1_2f M_SQRT1_2f
  else if f32_leb f32_zero (c_re z) then C32 M_SQRT1_2f m
  else if f32_ltb (c_im z) f32_zero then C32 m m
  else C32 m M_SQRT1_2f.

(** One turn of [qpsk_pll]: the output, the new phase and the accumulated one. *)
Definition pll_step (alpha : f32) (phi_hat : c32) (total_phase : f32) (x : c32) : c32 * c32 * f32 :=
  let out := c_mul x phi_hat in
  let x_hat := nearest out in
  let er := c_mul (conjf x_hat) out in
  let er_mag := cabsf er in
  if f32_ltb er_mag (f32_lit 1 10000000000) then (out, phi_hat, total_phase)
  else
    let phi_hat_t := c_div_r er er_mag in
    let angle := cargf phi_hat_t in
    let scaled_angle := f32_mul alpha angle in
    let correction := c_of_parts (cosf scaled_angle) (sinf scaled_angle) in
    let total_phase := f32_add total_phase scaled_angle in
    let phi_hat := c_mul (conjf correction) phi_hat in
    let phi_mag := cabsf phi_hat in
    let phi_hat := if f32_gtb phi_mag f32_zero then c_div_r phi_hat phi_mag else phi_hat in
    (out, phi_hat, total_phase).

Fixpoint pll_loop (alpha : f32) (phi_hat : c32) (total_phase : f32) (inp : list c32) : list c32 * f32 :=
  match inp with
  | [] => ([], total_phase)
  | x :: rest =>
      let '(out, phi_hat, total_phase) := pll_step alpha phi_hat total_phase x in
      let '(outs, total) := pll_loop alpha phi_hat total_phase rest in
      (out :: outs, total)
  end.
Definition qpsk_pll (inp : list c32) (alpha : f32) : list c32 * f32 := pll_loop alpha c_one f32_zero inp.

(** [demod_qpsk]: what it keeps per symbol. *)
Record symbol := Symbol { sym : Z; sym_mag : f32; sym_offset : f32 }.

Definition hard_symbol (z : c32) : Z :=
  if f32_leb f32_zero (c_re z) && f32_leb f32_zero (c_im z) then 0
  else if f32_ltb (c_re z) f32_zero && f32_leb f32_zero (c_im z) then 1
  else if f32_ltb (c_re z) f32_zero then 2
  else 3.

Definition demod_symbol (z : c32) : symbol :=
  let phase := f32_div (f32_mul (f32_add (cargf z) M_PIf) (f32_of_Z 180)) M_PIf in
  Symbol (hard_symbol z) (f32_sqrt (mag2 z)) (f32_sub (f32_of_Z 45) (f32_fmod phase (f32_of_Z 90))).

(** The loop: [acc] is what has been written, [n = length acc]; after three weak
    symbols in a row they are dropped and the loop ends. *)
Fixpoint demod_loop (max_mag : f32) (low_count : nat) (acc : list symbol) (burst : list c32) : list symbol :=
  match burst with
  | [] => acc
  | z :: rest =>
      let s := demod_symbol z in
      let max_mag := if f32_gtb (sym_mag s) max_mag then sym_mag s else max_mag in
      let acc := acc ++ [s] in
      if f32_ltb (sym_mag s) (f32_div max_mag MAGNITUDE_DROP) then
        let low_count := S low_count in
        if (MAX_LOW_COUNT <=? low_count)%nat then take (List.length acc - MAX_LOW_COUNT) acc
        else demod_loop max_mag low_count acc rest
      else demod_loop max_mag 0 acc rest
  end.

Definition f32_sum (l : list f32) : f32 := fold_left f32_add l f32_zero.
Definition symbol_ok (s : symbol) : bool := f32_leb (f32_abs (sym_offset s)) CONFIDENCE_ANGLE.

(** The symbols, the level and the confidence. *)
Definition demod_qpsk (burst : list c32) : list Z * f32 * Z :=
  let l := demod_loop f32_zero 0 [] burst in
  let n := Z.of_nat (List.length l) in
  let n_ok := Z.of_nat (List.length (List.filter symbol_ok l)) in
  (map sym l,
   if 0 <? n then f32_div (f32_sum (map sym_mag l)) (f32_of_Z n) else f32_zero,
   if 0 <? n then 100 * n_ok / n else 0).

(** [soft_check_sync_word]. *)
Definition soft_error (z : c32) (u : Z) : f32 :=
  let two_pi := f32_mul (f32_of_Z 2) M_PIf in
  let expected := f32_add (f32_mul M_PIf (f32_lit 1 4)) (f32_mul (f32_mul (f32_of_Z u) M_PIf) half) in
  let actual := cargf z in
  let actual := if f32_ltb actual f32_zero then f32_add actual two_pi else actual in
  let diff := f32_sub actual expected in
  let diff := if f32_gtb diff M_PIf then f32_sub diff two_pi else diff in
  let diff := if f32_ltb diff (f32_opp M_PIf) then f32_add diff two_pi else diff in
  f32_mul (f32_abs diff) (f32_of_f64 (f64_div (f64_of_Z 2) M_PI)).
Definition soft_check_sync_word (pll_out : list c32) (n : nat) (direction : ir_direction) : f32 :=
  if (n <? IR_UW_LENGTH)%nat then f32_of_Z 999
  else f32_sum (zip_with soft_error pll_out (uw_of direction)).

(** Step 4 of [qpsk_demod]: the direction, or [None] when no unique word is
    close enough. *)
Definition verify_uw (pll_out : list c32) (symbols : list Z) (dir : ir_direction) : option ir_direction :=
  let n := List.length symbols in
  match hard_direction symbols n dir with
  | Some d => Some d
  | None =>
      let dl_err := soft_check_sync_word pll_out n DIR_DOWNLINK in
      let ul_err := soft_check_sync_word pll_out n DIR_UPLINK in
      let min_err := if f32_ltb dl_err ul_err then dl_err else ul_err in
      if f32_gtb min_err UW_SOFT_THRESHOLD then None
      else Some (if f32_ltb ul_err dl_err then DIR_UPLINK else DIR_DOWNLINK)
  end.

(** Step 7: reliabilities, scaled by the mean magnitude. *)
Definition compute_llr (pll_out : list c32) (n : nat) : list f32 :=
  let l := take n pll_out in
  let sum_mag := f32_sum (map cabsf l) in
  let scale := if (0 <? n)%nat && f32_gtb sum_mag f32_zero then f32_div M_SQRT1_2f (f32_div sum_mag (f32_of_Z (Z.of_nat n))) else f32_one in
  flat_map (fun z => [f32_mul (f32_abs (c_re z)) scale; f32_mul (f32_abs (c_im z)) scale]) l.

Definition refine_frequency (center : f64) (total_phase : f32) (n : Z) : f64 :=
  if 0 <? n then
    let duration := f64_div (f64_of_Z n) (f64_of_Z IR_SYMBOLS_PER_SECOND) in
    f64_add center (f64_div (f64_div (f64_div (f64_of_f32 total_phase) duration) M_PI) (f64_of_Z 2))
  else center.

(** ** [save_burst_iq] *)

(** [dir_ready]: the directory exists or could be made; [fopen]: the paths that
    can be opened for writing. *)
Context (dir_ready : bool) (fopen : list Z -> bool).

Definition direction_text (d : ir_direction) : list Z :=
  bytes_of match d with DIR_DOWNLINK => "DL" | DIR_UPLINK => "UL" | DIR_UNDEF => "UN" end.

(** [%0w.0f]. *)
Definition fmt_00f (w : nat) (x : f64) : list Z :=
  let sign := if f_negative x then [45] else [] in
  if f_finite x then pad_zeros w sign (fmt_f0 (f64_abs x)) else pad_blanks w (sign ++ fmt_f0 (f64_abs x)).

Definition burst_filename (f : downmix_frame) (dir_name : list Z) : list Z :=
  take 511 (dir_name ++ bytes_of "/" ++ bytes_of (pad0 20 (fmt_d (dm_timestamp f))) ++ bytes_of "_" ++ fmt_00f 11 (dm_center_frequency f) ++
    bytes_of "_" ++ bytes_of (fmt_d (dm_id f)) ++ bytes_of "_" ++ direction_text (dm_direction f)).

Definition meta_text (f : downmix_frame) : list Z :=
  bytes_of "burst_id: " ++ bytes_of (fmt_d (dm_id f)) ++ [10] ++
  bytes_of "timestamp_ns: " ++ bytes_of (fmt_d (dm_timestamp f)) ++ [10] ++
  bytes_of "center_freq_hz: " ++ fmt_f0 (dm_center_frequency f) ++ [10] ++
  bytes_of "sample_rate_hz: " ++ fmt_f0 (dm_sample_rate f) ++ [10] ++
  bytes_of "samples_per_symbol: " ++ fmt_f 2 (dm_samples_per_symbol f) ++ [10] ++
  bytes_of "direction: " ++ direction_text (dm_direction f) ++ [10] ++
  bytes_of "magnitude_db: " ++ fmt_f 2 (dm_magnitude f) ++ [10] ++
  bytes_of "noise_dbfs_hz: " ++ fmt_f 2 (dm_noise f) ++ [10] ++
  bytes_of "num_samples: " ++ bytes_of (fmt_d (num_samples f)) ++ [10] ++
  bytes_of "uw_start_offset: " ++ fmt_f 2 (dm_uw_start f) ++ [10].

Definition save_burst_iq (f : downmix_frame) (dir_name : list Z) : list saved_file :=
  if dir_ready then
    let filename := burst_filename f dir_name in
    let iq_file := take 519 (filename ++ bytes_of ".cf32") in
    let meta_file := take 519 (filename ++ bytes_of ".meta") in
    if fopen iq_file then
      IqFile iq_file (dm_samples f) :: (if fopen meta_file then [MetaFile meta_file (meta_text f)] else [])
    else []
  else [].

(** ** [qpsk_demod] *)

Record demod_options := DemodOptions { use_gardner : bool; use_chase : bool; save_bursts_dir : option (list Z) }.

(** A call returns (the capacity of the work buffers, the frame with its
    direction updated, the files written and the demodulated frame), writes past
    a work buffer, or does not get to the end of the samples. *)
Inductive demod_result :=
  | DemodReturns (work_capacity : Z) (inp : downmix_frame) (files : list saved_file) (out : option demod_frame)
  | DemodOverrun
  | DemodEndless.

Definition nominal_sps (f : downmix_frame) : Z :=
  let sps := f64_trunc (f32_add (dm_samples_per_symbol f) half) in if sps <? 1 then 1 else sps.
Definition max_symbols (f : downmix_frame) : Z := Z.quot (num_samples f) (nominal_sps f) + 1.

(** Enough for the loops to finish, when a symbol is at least one sample long. *)
Definition decimation_fuel (f : downmix_frame) : nat := 2 * List.length (dm_samples f) + 1.
Definition decimate (o : demod_options) (f : downmix_frame) : option (list c32) :=
  if use_gardner o then decimate_gardner (decimation_fuel f) (dm_samples f) (dm_samples_per_symbol f)
  else decimate_simple (decimation_fuel f) (dm_samples f) (dm_samples_per_symbol f).

Definition build_frame (o : demod_options) (inp : downmix_frame) (pll_out : list c32) (total_phase : f32)
    (symbols : list Z) (level : f32) (confidence : Z) : demod_frame :=
  let n := Z.of_nat (List.length symbols) in
  DemodFrame (dm_id inp) (dm_timestamp inp) (refine_frequency (dm_center_frequency inp) total_phase n) (dm_direction inp)
    (dm_magnitude inp) (dm_noise inp) confidence level n (n - Z.of_nat IR_UW_LENGTH)
    (map_symbols_to_bits (decode_dqpsk symbols))
    (if use_chase o then Some (compute_llr pll_out (List.length symbols)) else None).

Definition save_if (o : demod_options) (f : downmix_frame) : list saved_file :=
  match save_bursts_dir o with Some d => save_burst_iq f d | None => [] end.

Definition qpsk_demod (o : demod_options) (work_capacity : Z) (inp : downmix_frame) : demod_result :=
  let work_capacity := ensure_work_buffers (max_symbols inp) work_capacity in
  match decimate o inp with
  | None => DemodEndless
  | Some decimated =>
      if work_capacity <? Z.of_nat (List.length decimated) then DemodOverrun
      else
        let '(pll_out, total_phase) := qpsk_pll decimated PLL_ALPHA in
        let '(symbols, level, confidence) := demod_qpsk pll_out in
        match verify_uw pll_out symbols (dm_direction inp) with
        | None =>
            match save_bursts_dir o with
            | Some d => let inp := set_direction DIR_UNDEF inp in DemodReturns work_capacity inp (save_burst_iq inp d) None
            | None => DemodReturns work_capacity inp [] None
            end
        | Some d =>
            let inp := set_direction d inp in
            DemodReturns work_capacity inp (save_if o inp) (Some (build_frame o inp pll_out total_phase symbols level confidence))
        end
  end.
End libm.

(** * Decimation: progress *)

(** [pos] is a NaN, which ends the loop, or at least [t] halves. *)
Definition ahead (t : Z) (pos : f32) : Prop := f_nan pos = true \/ above t (-1) pos.

Lemma const_canonical : canonical32 half /\ canonical32 (f32_opp half) /\ canonical32 GARDNER_KI /\ canonical32 GARDNER_KP /\
  canonical32 f32_one /\ canonical32 (f32_opp f32_one) /\ canonical32 (f32_lit 3 2) /\ canonical32 (f32_lit 5 2) /\ canonical32 (f32_lit 2 1).
Proof. eval_dec. Qed.

Lemma cubic_interp_canon inp pos : Forall c_canon inp -> canonical32 pos -> c_canon (cubic_interp inp pos).
Proof.
  intros Hi Hp. pose proof const_canonical as (? & ? & _ & _ & _ & _ & ? & ? & ?).
  unfold cubic_interp. cbv zeta. auto 20 with canon.
Qed.

Lemma clamp_canonical b x : canonical32 b -> canonical32 x -> canonical32 (clamp b x).
Proof. intros Hb Hx. unfold clamp. repeat case_match; auto with canon. Qed.

Lemma half_value : exists m e, half = fpos m e /\ f32_opp half = S754_finite true (Z.to_pos m) e /\ representable 24 128 m e /\ dle m e 1 (-1).
Proof. exists 8388608, (-24). split; [done|]. split; [done|]. split; [eval_dec|]. by vm_compute. Qed.

Lemma clamp_half x : canonical32 x -> f_nan (clamp half x) = true \/ within_mag 1 (-1) (clamp half x).
Proof.
  intros Hx. destruct half_value as (m & e & Eh & Eo & Hr & Hd). unfold clamp.
  assert (within_mag 1 (-1) half /\ within_mag 1 (-1) (f32_opp half)) as [Hh Ho].
  { rewrite Eo, Eh. unfold within_mag, fpos. rewrite Z2Pos.id by (destruct Hr; lia). done. }
  destruct (f32_gtb x half) eqn:Eu; [right; by case_match|]. destruct (f32_ltb x (f32_opp half)) eqn:El; [by right|].
  destruct (f_nan x) eqn:En; [by left|right].
  assert (within_mag m e x) as Hw.
  { apply (clamped 24 128 ltac:(lia) ltac:(lia)); [done|done|done|by rewrite <- Eh|by rewrite <- Eo]. }
  destruct x as [s|s| |s mx ex]; try done. eapply dle_trans; [exact Hw|done].
Qed.

Lemma ahead_add t s pos sps : 0 < t -> 0 < s -> t + s < 2 ^ 24 -> ahead t pos -> above s (-1) sps -> ahead (t + s) (f32_add pos sps).
Proof.
  intros Ht Hs Hu [Hn|Ha] Hb; [left; by destruct pos|right]. by apply (add_above 24 128 ltac:(lia) ltac:(lia)).
Qed.

Lemma ahead_nudge t pos x : 1 < t < 2 ^ 24 -> ahead t pos -> f_nan x = true \/ within_mag 1 (-1) x -> ahead (t - 1) (f32_add pos x).
Proof.
  intros Ht [Hn|Ha] [Hx|Hx]; [left; by destruct pos..|left; by destruct pos, x|right]. by apply (nudge_above 24 128 ltac:(lia) ltac:(lia)).
Qed.

Lemma ahead_le t u pos : t <= u -> ahead u pos -> ahead t pos.
Proof.
  intros H [Hn|Ha]; [by left|right]. eapply (above_le 24 128 ltac:(lia) ltac:(lia)); [|exact Ha]. rewrite (dle_iff (-1)) by lia. lia.
Qed.

Lemma adjust_ahead inp sps pos timing_offset prev_sym on_time t : Forall c_canon inp -> canonical32 sps -> canonical32 pos ->
  canonical32 timing_offset -> c_canon prev_sym -> c_canon on_time -> 1 < t < 2 ^ 24 -> ahead t pos ->
  let '(timing_offset', pos') := gardner_adjust inp sps pos timing_offset prev_sym on_time in
  canonical32 timing_offset' /\ canonical32 pos' /\ ahead (t - 1) pos'.
Proof.
  intros Hi Hs Hp Ho Hpr Hon Ht Ha. pose proof const_canonical as (? & ? & ? & ? & ? & ? & _). unfold gardner_adjust.
  destruct (f32_leb f32_one _); [|split; [done|split; [done|]]; eapply ahead_le; [|done]; lia]. cbv zeta.
  pose proof cubic_interp_canon as Hc. pose proof clamp_canonical as Hcl.
  set (error := clamp f32_one _). assert (canonical32 error) by (apply Hcl; [done|apply c_mul_canon; auto 10 with canon]).
  split; [auto with canon|]. split; [auto 10 with canon|]. apply ahead_nudge; [done|done|]. apply clamp_half. auto with canon.
Qed.

Lemma guard_bound t z pos : canonical32 pos -> ahead t pos -> 0 < z < 2 ^ 23 -> f32_ltb pos (f32_of_Z z) = true -> t < 2 * z.
Proof.
  intros Hc [Hn|Ha] Hz Hlt; [by destruct pos|]. destruct (of_Z_exact 24 128 ltac:(lia) ltac:(lia) z) as (m & e & E & Hr & Hle & _); [lia|done|].
  unfold f32_of_Z in Hlt. rewrite E in Hlt. apply Z.nle_gt. intros Hx.
  eapply (ltb_above 24 128 ltac:(lia) ltac:(lia)); [exact Hr|exact Hc|exact Ha|exact Hlt|].
  eapply dle_trans; [exact Hle|]. rewrite (dle_iff (-1)) by lia. cbn. lia.
Qed.

(** From the second symbol on, every turn moves the position by at least
    [s - 1] halves, so the loop ends. *)
Lemma gardner_progress inp sps s : Forall c_canon inp -> canonical32 sps -> 2 <= s < 2 ^ 22 -> above s (-1) sps ->
  (4 <= List.length inp)%nat -> Z.of_nat (List.length inp) < 2 ^ 21 ->
  forall fuel t pos timing_offset prev_sym, canonical32 pos -> canonical32 timing_offset -> c_canon prev_sym ->
  2 <= t < 2 ^ 23 -> ahead t pos -> 2 * Z.of_nat (List.length inp) - t <= Z.of_nat fuel ->
  exists out, gardner_loop fuel inp sps pos timing_offset (Some prev_sym) = Some out /\
    (out = [] \/ t + (s - 1) * (Z.of_nat (List.length out) - 1) < 2 * (Z.of_nat (List.length inp) - 3)).
Proof.
  intros Hi Hs Hsr Hab Hn Hn2. set (N := Z.of_nat (List.length inp)) in *.
  induction fuel as [|fuel IH]; intros t pos toff prev Hp Ho Hpr Ht Ha Hf; cbn [gardner_loop]; fold N.
  { destruct (f32_ltb pos (f32_of_Z (N - 3))) eqn:E; [|exists []; split; [done|by left]].
    pose proof (guard_bound t (N - 3) pos Hp Ha ltac:(lia) E). lia. }
  destruct (f32_ltb pos (f32_of_Z (N - 3))) eqn:E; [|exists []; split; [done|by left]].
  pose proof (guard_bound t (N - 3) pos Hp Ha ltac:(lia) E) as Hb. pose proof (cubic_interp_canon inp pos Hi Hp) as Hon.
  pose proof (adjust_ahead inp sps pos toff prev _ t Hi Hs Hp Ho Hpr Hon ltac:(lia) Ha) as Hadj.
  destruct (gardner_adjust _ _ _ _ _ _) as [toff' pos']. destruct Hadj as (Ho' & Hp' & Ha').
  destruct (IH (t - 1 + s) (f32_add pos' sps) toff' (cubic_interp inp pos)) as (out & -> & Hout);
    [auto with canon|done|done|lia|apply ahead_add; [lia|lia|lia|done|done]|lia|].
  cbn [mbind option_bind]. eexists. split; [reflexivity|]. right. cbn [List.length]. destruct Hout as [->|Hout]; cbn [List.length]; nia.
Qed.

Lemma decimate_gardner_ends fuel inp sps s : Forall c_canon inp -> canonical32 sps -> 2 <= s < 2 ^ 22 -> above s (-1) sps ->
  Z.of_nat (List.length inp) < 2 ^ 21 -> (2 * List.length inp + 1 <= fuel)%nat ->
  exists out, decimate_gardner fuel inp sps = Some out /\ (s - 1) * (Z.of_nat (List.length out) - 1) <= 2 * Z.of_nat (List.length inp).
Proof.
  intros Hi Hs Hsr Hab Hn Hf. unfold decimate_gardner. destruct (decide (4 <= List.length inp)%nat) as [H4|H4].
  - destruct fuel as [|fuel]; [lia|]. cbn [gardner_loop].
    destruct (f32_ltb f32_zero _); [|exists []; split; [done|cbn; lia]].
    pose proof (cubic_interp_canon inp f32_zero Hi I) as Hon.
    assert (f32_add f32_zero sps = sps) as -> by by destruct sps as [[]|[]| |].
    destruct (gardner_progress inp sps s Hi Hs Hsr Hab H4 Hn fuel s sps f32_zero (cubic_interp inp f32_zero)) as (out & -> & Hout);
      [done|done|done|lia|by right|lia|].
    eexists. split; [reflexivity|]. cbn [List.length]. destruct Hout as [->|Hout]; cbn [List.length]; nia.
  - exists []. split; [|cbn; lia]. destruct inp as [|? [|? [|? [|? ?]]]]; [..|cbn in H4; lia]; by destruct fuel.
Qed.
