(* ===== verification/DemodSpec.v ===== *)
(** What the demodulator promises: its work buffers are large enough when they
    fit the number of symbols the timing loop can produce, its frames are well
    formed whatever was received, and a burst sent with ideal pulses comes back
    bit for bit. *)
From S2P Require Import Prelude CFloat CRound CCanon CComplex QpskDemod Demod.
#[local] Open Scope Z_scope.

(** * Decimation *)

Abbreviation f32_ten := (f32_of_Z 10).

Lemma ten_above : above 20 (-1) f32_ten.
Proof. by vm_compute. Qed.

Lemma decimate_simple_go_spec inp k : 1 <= k -> forall fuel i, 0 <= i ->
  Z.of_nat (length inp) - i <= Z.of_nat fuel * k ->
  decimate_simple_go fuel inp i k =
  Some (map (fun j => inp !!! Z.to_nat (i + k * Z.of_nat j)) (seq 0 (Z.to_nat ((Z.of_nat (length inp) - i + k - 1) / k)))).
Proof.
  intros Hk. set (N := Z.of_nat (length inp)). induction fuel as [|fuel IH]; intros i Hi Hf; cbn [decimate_simple_go]; fold N.
  - rewrite (proj2 (Z.ltb_ge i N)) by lia. replace (Z.to_nat _) with 0%nat; [done|].
    assert ((N - i + k - 1) / k < 1) by (apply Z.div_lt_upper_bound; lia). lia.
  - destruct (Z.ltb_spec i N).
    + rewrite IH by lia. cbn [mbind option_bind]. replace (N - i + k - 1) with (N - (i + k) + k - 1 + 1 * k) by lia. rewrite Z.div_add by lia.
      assert (0 <= (N - (i + k) + k - 1) / k) by (apply Z.div_pos; lia). rewrite Z2Nat.inj_add by lia. rewrite Nat.add_comm. change (Z.to_nat 1) with 1%nat. cbn [Nat.add seq map].
      change (Z.of_nat 0) with 0. rewrite Z.mul_0_r, Z.add_0_r. do 2 f_equal. rewrite <- seq_shift, map_map. apply map_ext. intros j. f_equal. lia.
    + replace (Z.to_nat _) with 0%nat; [done|]. assert ((N - i + k - 1) / k < 1) by (apply Z.div_lt_upper_bound; lia). lia.
Qed.

(** The number of symbols a burst can give. *)
Definition symbol_bound (o : demod_options) (f : downmix_frame) : Z :=
  if use_gardner o then 2 * num_samples f / 19 + 1 else (num_samples f + 9) / 10.

Lemma decimate_bound o f : Forall c_canon (dm_samples f) -> dm_samples_per_symbol f = f32_ten -> num_samples f < 2 ^ 21 ->
  exists out, decimate o f = Some out /\ Z.of_nat (length out) <= symbol_bound o f.
Proof.
  intros Hc Hs Hn. unfold decimate, symbol_bound, num_samples, decimation_fuel in *. rewrite Hs. destruct (use_gardner o).
  - destruct (decimate_gardner_ends (2 * length (dm_samples f) + 1) (dm_samples f) f32_ten 20) as (out & -> & Hl); [done|apply f32_of_Z_canonical|lia|apply ten_above|done|lia|].
    exists out. split; [done|]. assert (Z.of_nat (length out) - 1 <= 2 * Z.of_nat (length (dm_samples f)) / 19) by (apply Z.div_le_lower_bound; lia). lia.
  - unfold decimate_simple. change (f64_trunc f32_ten) with 10. rewrite decimate_simple_go_spec by lia. eexists. split; [reflexivity|].
    rewrite length_map, length_seq, Z.sub_0_r. replace (Z.of_nat _ + 10 - 1) with (Z.of_nat (length (dm_samples f)) + 9) by lia.
    assert (0 <= (Z.of_nat (length (dm_samples f)) + 9) / 10) by (apply Z.div_pos; lia). lia.
Qed.

Lemma max_symbols_ten f : dm_samples_per_symbol f = f32_ten -> max_symbols f = num_samples f / 10 + 1.
Proof.
  intros Hs. unfold max_symbols, nominal_sps. rewrite Hs. change (f64_trunc _) with 10. cbn [Z.ltb Z.compare Pos.compare Pos.compare_cont].
  rewrite Z.quot_div_nonneg by (unfold num_samples; lia). done.
Qed.

Lemma ensure_ge m cap : m <= ensure_work_buffers m cap /\ cap <= ensure_work_buffers m cap.
Proof. unfold ensure_work_buffers. destruct (Z.leb_spec m cap); lia. Qed.

(** * Symbols *)

Section libm.
Context (cosf sinf : f32 -> f32) (atan2f hypotf : f32 -> f32 -> f32).
#[local] Abbreviation demod_loop' := (demod_loop atan2f).
#[local] Abbreviation demod_symbol' := (demod_symbol atan2f).

(** The demodulated symbols are the decisions on the beginning of the burst. *)
Lemma demod_loop_prefix burst : forall mm lc acc, exists k, (k <= length acc + length burst)%nat /\
  demod_loop' mm lc acc burst = take k (acc ++ map demod_symbol' burst).
Proof.
  induction burst as [|z burst IH]; intros mm lc acc; cbn [demod_loop map length].
  - exists (length acc). split; [lia|]. by rewrite take_app_length.
  - destruct (f32_ltb _ _).
    + destruct (_ <=? _)%nat.
      * exists (length (acc ++ [demod_symbol' z]) - MAX_LOW_COUNT)%nat. rewrite length_app. cbn [length]. split; [lia|].
        rewrite (cons_middle (demod_symbol' z) acc (map demod_symbol' burst)), app_assoc, (take_app_le (acc ++ [demod_symbol' z])); [done|]. rewrite length_app. cbn [length]. lia.
      * destruct (IH (if f32_gtb (sym_mag (demod_symbol' z)) mm then sym_mag (demod_symbol' z) else mm) (S lc) (acc ++ [demod_symbol' z])) as (k & Hk & ->).
        rewrite length_app in Hk. cbn [length] in Hk. exists k. split; [lia|]. by rewrite <- app_assoc.
    + destruct (IH (if f32_gtb (sym_mag (demod_symbol' z)) mm then sym_mag (demod_symbol' z) else mm) 0%nat (acc ++ [demod_symbol' z])) as (k & Hk & ->).
      rewrite length_app in Hk. cbn [length] in Hk. exists k. split; [lia|]. by rewrite <- app_assoc.
Qed.

Lemma hard_symbol_is_sym z : is_sym (hard_symbol z).
Proof. unfold hard_symbol, is_sym. repeat case_match; lia. Qed.

Lemma demod_qpsk_spec burst : let '(symbols, level, confidence) := demod_qpsk atan2f burst in
  Forall is_sym symbols /\ (length symbols <= length burst)%nat /\ 0 <= confidence <= 100.
Proof.
  unfold demod_qpsk. destruct (demod_loop_prefix burst f32_zero 0 []) as (k & Hk & E). cbn [app] in E. rewrite E. split; [|split].
  - rewrite <- firstn_map, map_map. apply Forall_take, Forall_map. apply Forall_true. intros z. apply hard_symbol_is_sym.
  - rewrite length_map, length_take, length_map. lia.
  - set (l := take k _). pose proof (filter_length_le (symbol_ok) l) as Hf. destruct (Z.ltb_spec 0 (Z.of_nat (length l))); [|lia].
    split; [apply Z.div_pos; lia|apply Z.div_le_upper_bound; lia].
Qed.

Lemma length_pll_loop alpha inp : forall phi tp, length (pll_loop cosf sinf atan2f hypotf alpha phi tp inp).1 = length inp.
Proof.
  induction inp as [|x inp IH]; intros phi tp; [done|]. cbn [pll_loop]. destruct (pll_step _ _ _ _ _ _ _ _) as [[out phi'] tp'].
  specialize (IH phi' tp'). destruct (pll_loop _ _ _ _ _ _ _ _) as [outs total]. cbn in *. by rewrite IH.
Qed.

Lemma length_compute_llr pll_out n : (n <= length pll_out)%nat -> length (compute_llr hypotf pll_out n) = (2 * n)%nat.
Proof.
  intros H. unfold compute_llr. set (sc := if _ : bool then _ else _). transitivity (2 * length (take n pll_out))%nat; [|rewrite length_take; lia].
  generalize (take n pll_out). intros l. induction l as [|z l IH]; [done|]. cbn [flat_map app length]. rewrite IH. lia.
Qed.

(** A unique word is accepted only in a long enough burst, and settles the direction. *)
Lemma verify_uw_spec pll_out symbols dir d : Forall is_sym symbols -> verify_uw atan2f pll_out symbols dir = Some d ->
  (IR_UW_LENGTH <= length symbols)%nat /\ (d = DIR_DOWNLINK \/ d = DIR_UPLINK).
Proof.
  intros Hs H. pose proof (sync_words_exclusive symbols Hs) as Hex. unfold verify_uw, hard_direction in H.
  destruct (decide (IR_UW_LENGTH <= length symbols)%nat) as [Hl|Hl].
  - split; [done|]. destruct (check_sync_word symbols _ DIR_DOWNLINK), (check_sync_word symbols _ DIR_UPLINK); cbn [negb andb] in *; simplify_eq; [by left|by right|].
    destruct (f32_gtb _ _); [done|]. destruct (f32_ltb _ _); simplify_eq; [by right|by left].
  - exfalso. unfold check_sync_word, soft_check_sync_word in H. assert ((length symbols <? IR_UW_LENGTH)%nat = true) as E by (apply Nat.ltb_lt; lia).
    rewrite E in H. discriminate H.
Qed.

(** * Ideal bursts *)

(** The constellation point of a quadrant. *)
Definition point (s : Z) : c32 :=
  let m := f32_opp M_SQRT1_2f in
  match s with 0 => C32 M_SQRT1_2f M_SQRT1_2f | 1 => C32 m M_SQRT1_2f | 2 => C32 m m | _ => C32 M_SQRT1_2f m end.

(** A pulse of four samples and a gap of six. *)
Definition pulse (s : Z) : list c32 := replicate 4 (point s) ++ replicate 6 c_zero.
Definition modulate (phases : list Z) : list c32 := flat_map pulse phases.

(** What libm does at zero (annex F of the C standard). *)
Class ZeroExact : Prop := {
  cosf_zero s : cosf (S754_zero s) = f32_one;
  sinf_zero s : sinf (S754_zero s) = S754_zero s;
  atan2f_zero s x : f32_ltb f32_zero x = true -> atan2f (S754_zero s) x = S754_zero s;
  hypotf_zero s x : hypotf x (S754_zero s) = f32_abs x;
}.
End libm.

Lemma length_modulate l : length (modulate l) = (10 * length l)%nat.
Proof. induction l as [|s l IH]; [done|]. unfold modulate in *. cbn [flat_map]. rewrite length_app, IH. cbn [pulse replicate app length]. lia. Qed.

Lemma modulate_lookup l k s j : l !! k = Some s -> (j < 10)%nat -> modulate l !!! (10 * k + j)%nat = pulse s !!! j.
Proof.
  revert k. induction l as [|x l IH]; intros [|k] H Hj; [done|done|..]; cbn [lookup list_lookup] in H; simplify_eq; unfold modulate; cbn [flat_map].
  - rewrite lookup_total_app_l; [done|]. by cbn.
  - specialize (IH k H Hj). rewrite <- IH. unfold modulate.
    rewrite lookup_total_app_r by (cbn; lia). f_equal. cbn [pulse replicate app length]. lia.
Qed.

Lemma modulate_in l k s j i : l !! k = Some s -> 0 <= j < 10 -> i = 10 * Z.of_nat k + j -> modulate l !!! Z.to_nat i = pulse s !!! Z.to_nat j.
Proof. intros H Hj ->. rewrite <- (modulate_lookup l k s (Z.to_nat j)) by (done || lia). f_equal. lia. Qed.

(** Interpolating at a sample: the four samples around it. *)
Lemma interp_at inp i : 1 <= i < 2 ^ 23 -> i < Z.of_nat (length inp) - 2 ->
  cubic_interp inp (f32_of_Z i) =
  cubic_interp [inp !!! Z.to_nat (i - 1); inp !!! Z.to_nat i; inp !!! Z.to_nat (i + 1); inp !!! Z.to_nat (i + 2)] f32_one.
Proof.
  intros Hi Hn. unfold cubic_interp. rewrite f32_trunc_of_Z, f32_sub_self by lia. change (f32_sub f32_one _) with f32_zero.
  rewrite (proj2 (Z.ltb_ge i 1)), (proj2 (Z.leb_gt (Z.of_nat (length inp) - 2) i)) by lia.
  cbn [length f64_trunc]. by rewrite Z.add_0_r.
Qed.

Lemma on_time_at l k s : Forall is_sym l -> l !! k = Some s -> Z.of_nat (length l) < 2 ^ 19 -> cubic_interp (modulate l) (f32_of_Z (10 * Z.of_nat k)) = point s.
Proof.
  intros Hl Hk Hn. pose proof (lookup_lt_Some _ _ _ Hk). assert (is_sym s) as Hs by by eapply Forall_lookup_1 in Hl.
  destruct k as [|k].
  - unfold cubic_interp. cbn [f32_of_Z]. change (f64_trunc _) with 0. cbn [Z.ltb Z.compare]. rewrite length_modulate.
    rewrite (proj2 (Z.leb_gt _ 1)) by lia. cbn [Z.add Z.opp].
    rewrite (modulate_in l 0 s 0), (modulate_in l 0 s 1), (modulate_in l 0 s 2), (modulate_in l 0 s 3) by (done || lia). sym_cases Hs; by vm_compute.
  - destruct (lookup_lt_is_Some_2 l k ltac:(lia)) as [r Hr]. assert (is_sym r) as Hrs by by eapply Forall_lookup_1 in Hl.
    rewrite interp_at by (rewrite ?length_modulate; lia).
    rewrite (modulate_in l k r 9), (modulate_in l (S k) s 0), (modulate_in l (S k) s 1), (modulate_in l (S k) s 2) by (done || lia).
    sym_cases Hs; by vm_compute.
Qed.

Lemma mid_at l k s : l !! k = Some s -> Z.of_nat (length l) < 2 ^ 19 -> cubic_interp (modulate l) (f32_of_Z (10 * Z.of_nat k + 5)) = c_zero.
Proof.
  intros Hk Hn. pose proof (lookup_lt_Some _ _ _ Hk). rewrite interp_at by (rewrite ?length_modulate; lia).
  by rewrite (modulate_in l k s 4), (modulate_in l k s 5), (modulate_in l k s 6), (modulate_in l k s 7) by (done || lia).
Qed.

Lemma mid_error r s : is_sym r -> is_sym s -> exists b, clamp f32_one (c_re (c_mul (c_sub (point r) (point s)) (conjf c_zero))) = S754_zero b.
Proof. intros Hr Hs. sym_cases Hr; sym_cases Hs; eexists; vm_compute; reflexivity. Qed.

(** Midway between ideal pulses there is nothing to correct. *)
Lemma no_adjust l k r s : Forall is_sym l -> l !! k = Some r -> is_sym s -> Z.of_nat (length l) < 2 ^ 19 ->
  gardner_adjust (modulate l) f32_ten (f32_of_Z (10 * Z.of_nat (S k))) f32_zero (point r) (point s) = (f32_zero, f32_of_Z (10 * Z.of_nat (S k))).
Proof.
  intros Hl Hk Hs Hn. assert (is_sym r) as Hr by by eapply Forall_lookup_1 in Hl. pose proof (lookup_lt_Some _ _ _ Hk).
  unfold gardner_adjust. change (f32_mul f32_ten half) with (f32_of_Z 5). rewrite f32_sub_of_Z by lia.
  replace (10 * Z.of_nat (S k) - 5) with (10 * Z.of_nat k + 5) by lia. destruct (f32_leb _ _); [|done].
  rewrite (mid_at l k r Hk Hn). destruct (mid_error r s Hr Hs) as [b ->].
  destruct (of_Z_scaled 24 128 ltac:(lia) ltac:(lia) (10 * Z.of_nat (S k))) as (m & e & E & _); [lia|lia|]. unfold f32_of_Z. rewrite E. by destruct b.
Qed.

Lemma gardner_modulated_from l : Forall is_sym l -> Z.of_nat (length l) < 2 ^ 19 -> forall fuel k r,
  l !! k = Some r -> (length l <= S k + fuel)%nat ->
  gardner_loop fuel (modulate l) f32_ten (f32_of_Z (10 * Z.of_nat (S k))) f32_zero (Some (point r)) = Some (map point (drop (S k) l)).
Proof.
  intros Hl Hn. induction fuel as [|fuel IH]; intros k r Hk Hf; pose proof (lookup_lt_Some _ _ _ Hk); cbn [gardner_loop];
    rewrite length_modulate, f32_ltb_of_Z by lia; destruct (Z.ltb_spec (10 * Z.of_nat (S k)) (Z.of_nat (10 * length l) - 3)).
  - lia.
  - by rewrite drop_ge by lia.
  - destruct (lookup_lt_is_Some_2 l (S k) ltac:(lia)) as [s Hs]. assert (is_sym s) as Hss by by eapply Forall_lookup_1 in Hl.
    rewrite (on_time_at l (S k) s Hl Hs Hn), (no_adjust l k r s Hl Hk Hss Hn), f32_add_of_Z by lia.
    replace (10 * Z.of_nat (S k) + 10) with (10 * Z.of_nat (S (S k))) by lia. rewrite (IH (S k) s Hs) by lia. cbn [mbind option_bind].
    by rewrite (drop_S l s (S k) Hs).
  - by rewrite drop_ge by lia.
Qed.

Lemma gardner_modulated l fuel : Forall is_sym l -> Z.of_nat (length l) < 2 ^ 19 -> (length l <= fuel)%nat ->
  decimate_gardner fuel (modulate l) f32_ten = Some (map point l).
Proof.
  intros Hl Hn Hf. unfold decimate_gardner. destruct l as [|s l]; [by destruct fuel|]. destruct fuel as [|fuel]; [cbn in Hf; lia|]. cbn [gardner_loop].
  rewrite length_modulate. assert (f32_ltb f32_zero (f32_of_Z (Z.of_nat (10 * length (s :: l)) - 3)) = true) as ->.
  { destruct (of_Z_scaled 24 128 ltac:(lia) ltac:(lia) (Z.of_nat (10 * length (s :: l)) - 3)) as (m & e & E & _); [lia|cbn [length] in *; lia|].
    unfold f32_of_Z. by rewrite E. }
  rewrite (on_time_at (s :: l) 0 s Hl eq_refl Hn : cubic_interp _ f32_zero = _). change (f32_add f32_zero f32_ten) with (f32_of_Z (10 * Z.of_nat 1)).
  rewrite (gardner_modulated_from (s :: l) Hl Hn fuel 0 s eq_refl) by (cbn [length] in *; lia). done.
Qed.

Lemma simple_modulated l fuel : Z.of_nat (length l) < 2 ^ 19 -> (length l <= fuel)%nat -> decimate_simple fuel (modulate l) f32_ten = Some (map point l).
Proof.
  intros Hn Hf. unfold decimate_simple. change (f64_trunc f32_ten) with 10. rewrite decimate_simple_go_spec by (rewrite ?length_modulate; lia).
  f_equal. rewrite length_modulate. replace (Z.to_nat _) with (length l)
    by (replace (Z.of_nat (10 * length l) - 0 + 10 - 1) with (9 + Z.of_nat (length l) * 10) by lia; rewrite Z.div_add by lia; change (9 / 10) with 0; lia).
  apply list_eq. intros i. rewrite !list_lookup_fmap. destruct (l !! i) as [s|] eqn:E; cbn.
  - pose proof (lookup_lt_Some _ _ _ E). rewrite lookup_seq_lt by lia. cbn. f_equal. by rewrite (modulate_in l i s 0) by (done || lia).
  - apply lookup_ge_None in E. by rewrite lookup_seq_ge by lia.
Qed.

Section exact.
Context (cosf sinf : f32 -> f32) (atan2f hypotf : f32 -> f32 -> f32) {Hz : ZeroExact cosf sinf atan2f hypotf}.

(** On a constellation point the loop finds no phase error. *)
Lemma pll_step_point b s : is_sym s -> 
  pll_step cosf sinf atan2f hypotf PLL_ALPHA (C32 f32_one (S754_zero b)) f32_zero (point s) = (point s, C32 f32_one (S754_zero b), f32_zero).
Proof using All.
  intros Hs. destruct Hz as [Hcos Hsin Hatan Hhyp]. unfold pll_step.
  assert (c_mul (point s) (C32 f32_one (S754_zero b)) = point s) as -> by (sym_cases Hs; destruct b; by vm_compute).
  set (er := c_mul (conjf (nearest (point s))) (point s)).
  assert (er = C32 (S754_finite false 16777215 (-24)) (S754_zero false)) as -> by (unfold er; sym_cases Hs; by vm_compute).
  unfold cabsf, cargf. cbn [c_re c_im c_div_r]. rewrite Hhyp. change (f32_ltb _ _) with false.
  change (f32_div (S754_zero false) _) with (S754_zero false). rewrite Hatan by by vm_compute. change (f32_mul PLL_ALPHA _) with (S754_zero false). rewrite Hcos, Hsin.
  change (f32_add f32_zero _) with f32_zero. cbv zeta.
  assert (c_mul (conjf (c_of_parts f32_one (S754_zero false))) (C32 f32_one (S754_zero b)) = C32 f32_one (S754_zero b)) as -> by (destruct b; by vm_compute).
  cbn [c_re c_im c_div_r]. rewrite Hhyp. by destruct b; vm_compute.
Qed.

Lemma pll_modulated l : Forall is_sym l -> qpsk_pll cosf sinf atan2f hypotf (map point l) PLL_ALPHA = (map point l, f32_zero).
Proof using All.
  intros Hl. unfold qpsk_pll. change c_one with (C32 f32_one (S754_zero false)). induction Hl as [|s l Hs _ IH]; [done|].
  cbn [map pll_loop]. by rewrite pll_step_point, IH.
Qed.
End exact.

Lemma point_mag s : is_sym s -> f32_sqrt (mag2 (point s)) = f32_sqrt (mag2 (point 0)).
Proof. intros Hs. sym_cases Hs; by vm_compute. Qed.

Lemma demod_loop_points atan2f l : Forall is_sym l -> forall mm lc acc, mm = f32_zero \/ mm = f32_sqrt (mag2 (point 0)) ->
  demod_loop atan2f mm lc acc (map point l) = acc ++ map (demod_symbol atan2f) (map point l).
Proof.
  intros Hl. induction Hl as [|s l Hs _ IH]; intros mm lc acc Hmm; cbn [map demod_loop]; [by rewrite app_nil_r|].
  cbn [demod_symbol sym_mag]. rewrite point_mag by done.
  assert ((if f32_gtb (f32_sqrt (mag2 (point 0))) mm then f32_sqrt (mag2 (point 0)) else mm) = f32_sqrt (mag2 (point 0))) as -> by by destruct Hmm as [->| ->].
  change (f32_ltb _ _) with false. cbv iota. rewrite IH by by right. by rewrite <- app_assoc.
Qed.

Lemma demod_points atan2f l : Forall is_sym l -> (demod_qpsk atan2f (map point l)).1.1 = l.
Proof.
  intros Hl. unfold demod_qpsk. cbn [fst]. rewrite demod_loop_points by (done || by left). cbn [app]. rewrite !map_map.
  transitivity (map id l); [|apply map_id]. apply map_ext_Forall. eapply Forall_impl; [exact Hl|]. intros s Hs. sym_cases Hs; by vm_compute.
Qed.

(** The unique word at the start of the burst is recognised. *)
Lemma uw_recognised dir rest d : dir <> DIR_UNDEF -> Forall is_sym rest -> 
  hard_direction (uw_of dir ++ rest) (length (uw_of dir ++ rest)) d = Some dir.
Proof.
  intros Hd Hr. assert (Forall is_sym (uw_of dir ++ rest)) as Hs by (apply Forall_app; split; [destruct dir; apply uw_syms|done]).
  pose proof (sync_words_exclusive _ Hs) as Hex.
  assert (check_sync_word (uw_of dir ++ rest) (length (uw_of dir ++ rest)) dir = true) as Hok.
  { rewrite check_sync_word_distance by (rewrite length_app; unfold IR_UW_LENGTH; destruct dir; cbn; lia).
    rewrite take_app_length' by by destruct dir. by destruct dir. }
  unfold hard_direction. destruct dir; [done|..]; rewrite Hok in *; cbn [andb negb] in *; [by rewrite Hex|]. rewrite andb_true_r in Hex. by rewrite Hex.
Qed.

(** The bits of a frame whose symbols start with a unique word: those of the
    word, then the data. *)
Lemma payload_bits dir data : Forall is_sym data ->
  map_symbols_to_bits (decode_dqpsk (uw_of dir ++ encode_dqpsk_from 2 data)) = map_symbols_to_bits (decode_dqpsk (uw_of dir)) ++ map_symbols_to_bits data.
Proof.
  intros Hd. transitivity (map_symbols_to_bits (decode_dqpsk (uw_of dir) ++ data)); [|apply flat_map_app].
  f_equal. pose proof (decode_encode_from data 2 ltac:(unfold is_sym; lia) Hd) as E. unfold decode_dqpsk.
  destruct dir; cbn [uw_of IR_UW_DL IR_UW_UL app decode_dqpsk_from]; by rewrite E.
Qed.

Lemma encode_is_sym data : forall p, Forall is_sym (encode_dqpsk_from p data).
Proof. induction data as [|s data IH]; intros p; cbn; constructor; [unfold is_sym; apply Z.mod_pos_bound; lia|apply IH]. Qed.

Lemma length_encode data : forall p, length (encode_dqpsk_from p data) = length data.
Proof. induction data as [|s data IH]; intros p; cbn; [done|]. by rewrite IH. Qed.

(** A frame the decoders can work on. *)
Definition well_formed (fr : demod_frame) : Prop :=
  12 <= df_n_symbols fr /\ df_n_payload_symbols fr = df_n_symbols fr - 12 /\
  bits_ok (df_bits fr) /\ Z.of_nat (df_n_bits fr) = 2 * df_n_symbols fr /\
  (df_direction fr = DIR_DOWNLINK \/ df_direction fr = DIR_UPLINK) /\
  0 <= df_confidence fr <= 100.

Lemma demod_well_formed cosf sinf atan2f hypotf dir_ready fopen o cap inp :
  match qpsk_demod cosf sinf atan2f hypotf dir_ready fopen o cap inp with
  | DemodReturns _ inp' _ (Some fr) =>
      well_formed fr /\ dm_direction inp' = df_direction fr /\
      match df_llr fr with Some llr => use_chase o = true /\ length llr = df_n_bits fr | None => use_chase o = false end
  | _ => True
  end.
Proof.
  unfold qpsk_demod. destruct (decimate o inp) as [dec|]; [|done]. destruct (_ <? _); [done|].
  pose proof (length_pll_loop cosf sinf atan2f hypotf PLL_ALPHA dec c_one f32_zero) as Hlen. unfold qpsk_pll.
  destruct (pll_loop _ _ _ _ _ _ _ _) as [pll total]. cbn [fst] in Hlen. pose proof (demod_qpsk_spec atan2f pll) as Hd.
  destruct (demod_qpsk atan2f pll) as [[symbols level] conf]. destruct Hd as (Hs & Hl & Hc).
  destruct (verify_uw _ _ _ _) as [d|] eqn:Ev; [|by destruct (save_bursts_dir o)].
  destruct (verify_uw_spec atan2f pll symbols (dm_direction inp) d Hs Ev) as [Hn Hdir]. unfold IR_UW_LENGTH in *.
  unfold well_formed. cbn [build_frame df_n_symbols df_n_payload_symbols df_bits df_direction df_confidence df_llr set_direction dm_direction].
  unfold df_n_bits. cbn [build_frame df_bits]. rewrite length_map_symbols_to_bits, length_decode_dqpsk. split; [|split; [done|]].
  { split; [lia|]. split; [done|]. split; [apply map_symbols_bits_ok|]. split; [lia|]. done. }
  destruct (use_chase o); [|done]. split; [done|]. apply length_compute_llr. lia.
Qed.

(** It returns whenever its buffers hold the symbols there can be. *)
Lemma demod_returns cosf sinf atan2f hypotf dir_ready fopen o cap inp :
  Forall c_canon (dm_samples inp) -> dm_samples_per_symbol inp = f32_of_Z 10 -> num_samples inp < 2 ^ 21 ->
  (use_gardner o = true -> 2 * num_samples inp / 19 + 1 <= ensure_work_buffers (max_symbols inp) cap) ->
  exists inp' files out, qpsk_demod cosf sinf atan2f hypotf dir_ready fopen o cap inp = DemodReturns (ensure_work_buffers (max_symbols inp) cap) inp' files out.
Proof.
  intros Hc Hs Hn Hcap. destruct (decimate_bound o inp Hc Hs Hn) as (dec & Ed & Hl).
  assert (symbol_bound o inp <= ensure_work_buffers (max_symbols inp) cap) as Hb.
  { unfold symbol_bound. destruct (use_gardner o); [by apply Hcap|]. destruct (ensure_ge (max_symbols inp) cap) as [He _].
    rewrite max_symbols_ten in He by done. etransitivity; [|rewrite max_symbols_ten by done; exact He].
    assert (0 <= num_samples inp) by (unfold num_samples; lia). Z.div_mod_to_equations. lia. }
  unfold qpsk_demod. rewrite Ed. rewrite (proj2 (Z.ltb_ge _ _)) by lia. destruct (qpsk_pll _ _ _ _ _ _) as [pll total].
  destruct (demod_qpsk _ _) as [[symbols level] conf]. destruct (verify_uw _ _ _ _); [|destruct (save_bursts_dir o)]; by repeat eexists.
Qed.

(** * Properties *)

(** Every frame the demodulator hands on is well formed, whatever
    the samples: at least a unique word of symbols, two bits per symbol and each
    bit 0 or 1, one reliability per bit when soft decoding is on, a definite
    direction and a confidence that is a percentage. *)
Theorem demod_frame_well_formed cosf sinf atan2f hypotf dir_ready fopen o cap inp :
  match qpsk_demod cosf sinf atan2f hypotf dir_ready fopen o cap inp with
  | DemodReturns _ inp' _ (Some fr) =>
      well_formed fr /\ dm_direction inp' = df_direction fr /\
      match df_llr fr with Some llr => use_chase o = true /\ length llr = df_n_bits fr | None => use_chase o = false end
  | _ => True
  end.
Proof. apply demod_well_formed. Qed.

(** C21 (bounds). At ten samples per symbol the demodulator always gets to the end
    of a burst, and writes within its work buffers whenever they hold the number
    of symbols the decimator can produce: [2 n / 19 + 1] with the timing loop,
    whose steps are never shorter than nine and a half samples, and what the
    buffers are always grown to without it. *)
Theorem demod_in_bounds cosf sinf atan2f hypotf dir_ready fopen o cap inp :
  Forall c_canon (dm_samples inp) -> dm_samples_per_symbol inp = f32_of_Z 10 -> num_samples inp < 2 ^ 21 ->
  (use_gardner o = true -> 2 * num_samples inp / 19 + 1 <= ensure_work_buffers (max_symbols inp) cap) ->
  exists cap' inp' files out, qpsk_demod cosf sinf atan2f hypotf dir_ready fopen o cap inp = DemodReturns cap' inp' files out.
Proof. intros Hc Hs Hn Hcap. destruct (demod_returns cosf sinf atan2f hypotf dir_ready fopen o cap inp Hc Hs Hn Hcap) as (inp' & files & out & ->). by repeat eexists. Qed.

(** C4 (roundtrip). A burst sent with ideal pulses is demodulated exactly, with either
    decimator: the direction is that of its unique word and the bits after it are
    those of the data, for any data of up to a hundred thousand symbols. *)
Theorem demod_roundtrip cosf sinf atan2f hypotf dir_ready fopen o cap inp dir data :
  ZeroExact cosf sinf atan2f hypotf -> dir <> DIR_UNDEF -> Forall is_sym data -> Z.of_nat (length data) <= 100000 ->
  dm_samples inp = modulate (uw_of dir ++ encode_dqpsk_from 2 data) -> dm_samples_per_symbol inp = f32_of_Z 10 ->
  exists cap' files fr, qpsk_demod cosf sinf atan2f hypotf dir_ready fopen o cap inp = DemodReturns cap' (set_direction dir inp) files (Some fr) /\
    df_direction fr = dir /\ drop 24 (df_bits fr) = map_symbols_to_bits data.
Proof.
  intros Hz Hd Hs Hn Hsm Hsps. set (l := uw_of dir ++ encode_dqpsk_from 2 data) in *.
  assert (length l = (12 + length data)%nat) as Hlen by (unfold l; rewrite length_app, length_encode; by destruct dir).
  assert (Forall is_sym l) as Hl by (apply Forall_app; split; [destruct dir; apply uw_syms|apply encode_is_sym]).
  assert (num_samples inp = 10 * Z.of_nat (length l)) as HN by (unfold num_samples; rewrite Hsm, length_modulate; lia).
  assert (decimate o inp = Some (map point l)) as Ed.
  { unfold decimate, decimation_fuel. rewrite Hsm, Hsps, length_modulate. destruct (use_gardner o); [apply gardner_modulated|apply simple_modulated]; done || lia. }
  unfold qpsk_demod. rewrite Ed, length_map. destruct (ensure_ge (max_symbols inp) cap) as [He _].
  rewrite max_symbols_ten, HN, (Z.mul_comm 10), Z.div_mul in He by done.
  rewrite (proj2 (Z.ltb_ge _ _)) by (rewrite max_symbols_ten, HN, (Z.mul_comm 10), Z.div_mul by done; lia).
  rewrite pll_modulated by done. pose proof (demod_points atan2f l Hl) as Hp. destruct (demod_qpsk atan2f (map point l)) as [[symbols level] conf].
  cbn [fst] in Hp. subst symbols. unfold verify_uw. unfold l at 1 2. rewrite uw_recognised by (done || apply encode_is_sym).
  eexists _, _, _. split; [reflexivity|]. split; [done|]. cbn [build_frame df_bits]. unfold l. rewrite payload_bits by done.
  apply drop_app_length'. by destruct dir.
Qed.

(** ** Witnesses *)

Definition sample_burst (samples : list c32) : downmix_frame :=
  DownmixFrame 7 1000 (f64_of_Z 1626270833) (f32_of_Z 250000) f32_ten DIR_UNDEF (f32_of_Z 20) (f32_of_Z (-80)) f32_zero samples.
Definition plain_options : demod_options := DemodOptions true false None.

(** Functions that agree with libm at zero. *)
Lemma zero_exact_sample : ZeroExact (fun _ => f32_one) (fun x => x) (fun y _ => y) (fun x _ => f32_abs x).
Proof. by constructor. Qed.

Lemma demod_in_bounds_witness : exists cap' inp' files out,
  qpsk_demod (fun _ => f32_one) (fun x => x) (fun y _ => y) (fun x _ => f32_abs x) false (fun _ => false) plain_options 0
    (sample_burst (replicate 40 (C32 f32_one f32_zero))) = DemodReturns cap' inp' files out.
Proof.
  apply demod_in_bounds; [|reflexivity|vm_compute; reflexivity|intros _; vm_compute; discriminate].
  cbn [sample_burst dm_samples]. apply Forall_replicate. eval_dec.
Defined.

Lemma demod_roundtrip_witness : exists cap' files fr,
  qpsk_demod (fun _ => f32_one) (fun x => x) (fun y _ => y) (fun x _ => f32_abs x) false (fun _ => false) plain_options 0
    (sample_burst (modulate (uw_of DIR_UPLINK ++ encode_dqpsk_from 2 [1; 3; 0; 2])))
  = DemodReturns cap' (set_direction DIR_UPLINK (sample_burst (modulate (uw_of DIR_UPLINK ++ encode_dqpsk_from 2 [1; 3; 0; 2])))) files (Some fr) /\
  df_direction fr = DIR_UPLINK /\ drop 24 (df_bits fr) = [0; 1; 1; 1; 0; 0; 1; 0].
Proof.
  apply (demod_roundtrip _ _ _ _ _ _ _ _ _ DIR_UPLINK [1; 3; 0; 2]); [apply zero_exact_sample|discriminate| |vm_compute; discriminate|reflexivity|reflexivity].
  unfold is_sym. repeat constructor; lia.
Defined.

(** * Limits of the code *)

(** The headroom is only added when the buffers grow.  After a burst of 809
    samples they hold 337 symbols; a burst of 3369 samples is taken to need no
    more, but on a rising signal the timing loop yields 339. *)
Definition ramp (n : nat) : list c32 := map (fun i => C32 (f32_of_Z (100 + Z.of_nat i)) f32_zero) (seq 0 n).

Example gardner_overrun : ensure_work_buffers (max_symbols (sample_burst (ramp 809))) 0 = 337 /\
  forall cosf sinf atan2f hypotf dir_ready fopen chase dir,
  qpsk_demod cosf sinf atan2f hypotf dir_ready fopen (DemodOptions true chase dir) 337 (sample_burst (ramp (Z.to_nat 3369))) = DemodOverrun.
Proof.
  split; [by vm_compute|]. intros. unfold qpsk_demod.
  assert (exists l, decimate (DemodOptions true chase dir) (sample_burst (ramp (Z.to_nat 3369))) = Some l /\ Z.of_nat (length l) = 339) as (l & -> & ->).
  { eexists. split; [vm_compute; reflexivity|]. vm_compute. reflexivity. }
  reflexivity.
Qed.

(** A NaN passes the soft check of the unique word: the comparison that rejects
    is false for it. *)
Example nan_burst_accepted (atan2f : f32 -> f32 -> f32) : (forall x y, f_nan x = true -> atan2f x y = S754_nan) ->
  verify_uw atan2f (replicate 12 (C32 S754_nan S754_nan)) (map hard_symbol (replicate 12 (C32 S754_nan S754_nan))) DIR_UNDEF = Some DIR_DOWNLINK.
Proof.
  intros Ha. unfold verify_uw. change (hard_direction _ _ _) with (@None ir_direction).
  unfold soft_check_sync_word, soft_error, cargf. cbn [replicate map length Nat.ltb Nat.leb IR_UW_LENGTH uw_of IR_UW_DL IR_UW_UL zip_with c_im c_re].
  rewrite !Ha by done. reflexivity.
Qed.
