(* ===== verification/Kernels.v ===== *)
(** The numeric kernels, [src/simd_generic.c], with the filter design of
    [src/fir_filter.c], the window of [src/window_func.c] and the rotator of
    [src/rotator.h].

    The program calls its kernels through function pointers that [simd_init]
    sets once: [kernels] is that table.  An array argument is the list of its
    elements from the pointer on; a kernel that fills [n] elements returns them.
    The scalar code adds and multiplies in the order written, without fused
    operations. *)
From S2P Require Import Prelude CFloat CRound CCanon CComplex.
#[local] Open Scope Z_scope.

(** * The table of function pointers *)

Record kernels := Kernels {
  simd_fir_ccf : list f32 -> nat -> list c32 -> nat -> list c32;
  simd_fir_ccf_dec : list f32 -> nat -> list c32 -> nat -> nat -> list c32;
  simd_fir_fff : list f32 -> nat -> list f32 -> nat -> list f32;
  simd_window_cf : list c32 -> list f32 -> nat -> list c32;
  simd_fftshift_mag : list c32 -> nat -> list f32;
  simd_baseline_update : list f32 -> list f32 -> list f32 -> nat -> list f32;
  simd_relative_mag : list f32 -> list f32 -> nat -> list f32;
  simd_convert_i8_cf : list Z -> nat -> list c32;
  simd_mag_squared : list c32 -> nat -> list f32;
  simd_max_float : list f32 -> nat -> f32;
  simd_csquare_window : list c32 -> list f32 -> nat -> list c32;
}.

(** What the callers rely on: a kernel fills the elements it is asked for. *)
Class KernelsOk (K : kernels) : Prop := {
  length_fir_ccf taps ntaps inp n : length (simd_fir_ccf K taps ntaps inp n) = n;
  length_fir_ccf_dec taps ntaps inp n dec : length (simd_fir_ccf_dec K taps ntaps inp n dec) = n;
  length_fir_fff taps ntaps inp n : length (simd_fir_fff K taps ntaps inp n) = n;
  length_mag_squared inp n : length (simd_mag_squared K inp n) = n;
  length_csquare_window inp w n : length (simd_csquare_window K inp w n) = n;
}.

(** * Scalar kernels *)

Definition generic_fir_ccf (taps : list f32) (ntaps : nat) (inp : list c32) (n : nat) : list c32 :=
  map (fun i => fold_left (fun acc k => c_add acc (c_scale (taps !!! k) (inp !!! (i + k)%nat))) (seq 0 ntaps) c_zero) (seq 0 n).

Definition generic_fir_ccf_dec (taps : list f32) (ntaps : nat) (inp : list c32) (n_out decimation : nat) : list c32 :=
  map (fun i => let p := drop (i * decimation) inp in
                fold_left (fun acc k => c_add acc (c_scale (taps !!! k) (p !!! k))) (seq 0 ntaps) c_zero) (seq 0 n_out).

Definition generic_fir_fff (taps : list f32) (ntaps : nat) (inp : list f32) (n : nat) : list f32 :=
  map (fun i => fold_left (fun acc k => f32_add acc (f32_mul (taps !!! k) (inp !!! (i + k)%nat))) (seq 0 ntaps) f32_zero) (seq 0 n).

Definition generic_window_cf (samples : list c32) (window : list f32) (n : nat) : list c32 :=
  map (fun i => c_scale_r (samples !!! i) (window !!! i)) (seq 0 n).

(** The upper half first; an odd [fft_size] leaves its last element alone. *)
Definition generic_fftshift_mag (fft_out : list c32) (fft_size : nat) : list f32 :=
  let half := (fft_size / 2)%nat in
  map (fun i => mag2 (fft_out !!! (half + i)%nat)) (seq 0 half) ++ map (fun i => mag2 (fft_out !!! i)) (seq 0 half).

Definition generic_baseline_update (sum old_hist new_mag : list f32) (n : nat) : list f32 :=
  map (fun i => f32_add (f32_sub (sum !!! i) (old_hist !!! i)) (new_mag !!! i)) (seq 0 n).

Definition generic_relative_mag (mag baseline : list f32) (n : nat) : list f32 :=
  map (fun i => if f32_gtb (baseline !!! i) f32_zero then f32_div (mag !!! i) (baseline !!! i) else f32_zero) (seq 0 n).

(** [iq] are signed bytes. *)
Definition generic_convert_i8_cf (iq : list Z) (n : nat) : list c32 :=
  map (fun i => c_of_parts (f32_div (f32_of_Z (iq !!! (2 * i)%nat)) (f32_of_Z 128)) (f32_div (f32_of_Z (iq !!! (2 * i + 1)%nat)) (f32_of_Z 128))) (seq 0 n).

Definition generic_mag_squared (inp : list c32) (n : nat) : list f32 := map (fun i => mag2 (inp !!! i)) (seq 0 n).

(** [-1e30f]. *)
Definition max_start : f32 := f32_opp (f32_of_Z (10 ^ 30)).
Definition generic_max_float (inp : list f32) (n : nat) : f32 :=
  fold_left (fun max_val i => if f32_gtb (inp !!! i) max_val then inp !!! i else max_val) (seq 0 n) max_start.

Definition generic_csquare_window (inp : list c32) (window : list f32) (n : nat) : list c32 :=
  map (fun i => let s := inp !!! i in c_scale_r (c_mul s s) (window !!! i)) (seq 0 n).

Definition generic_kernels : kernels :=
  Kernels generic_fir_ccf generic_fir_ccf_dec generic_fir_fff generic_window_cf generic_fftshift_mag generic_baseline_update
    generic_relative_mag generic_convert_i8_cf generic_mag_squared generic_max_float generic_csquare_window.

#[export] Instance generic_kernels_ok : KernelsOk generic_kernels.
Proof. split; intros; cbn; unfold generic_fir_ccf, generic_fir_ccf_dec, generic_fir_fff, generic_mag_squared, generic_csquare_window; by rewrite length_map, length_seq. Qed.

(** * Filters *)

Record fir_filter := FirFilter { fir_taps : list f32; ntaps : nat }.

Definition pad_to_8 (n : Z) : Z := Z.land (n + 7) (Z.lnot 7).
Definition fir_filter_create (taps : list f32) : fir_filter :=
  FirFilter (taps ++ replicate (Z.to_nat (pad_to_8 (Z.of_nat (length taps))) - length taps) f32_zero) (length taps).

Section apply.
Context (K : kernels).
Definition fir_filter_ccf (f : fir_filter) (inp : list c32) (n : nat) : list c32 := simd_fir_ccf K (fir_taps f) (ntaps f) inp n.
Definition fir_filter_ccf_dec (f : fir_filter) (inp : list c32) (n_out decimation : nat) : list c32 := simd_fir_ccf_dec K (fir_taps f) (ntaps f) inp n_out decimation.
Definition fir_filter_fff (f : fir_filter) (inp : list f32) (n : nat) : list f32 := simd_fir_fff K (fir_taps f) (ntaps f) inp n.
End apply.

(** * Filter design *)

Definition PIf : f32 := f32_of_f64 M_PI.
Definition fz : Z -> f32 := f32_of_Z.
Declare Scope f32_scope.
Delimit Scope f32_scope with f32.
Infix "+" := f32_add : f32_scope.
Infix "-" := f32_sub : f32_scope.
Infix "*" := f32_mul : f32_scope.
Infix "/" := f32_div : f32_scope.
Infix "<" := f32_ltb : f32_scope.

Definition tiny10 : f32 := f32_lit 1 10000000000.
Definition tiny6 : f32 := f32_lit 1 1000000.

(** [n |= 1]. *)
Definition make_odd (n : Z) : Z := Z.lor n 1.

Section design.
Context (sinf cosf : f32 -> f32).

Definition sincf (x : f32) : f32 :=
  if (f32_abs x < tiny10)%f32 then f32_one else (sinf (PIf * x) / (PIf * x))%f32.

Definition rrc_tap (alpha t : f32) : f32 :=
  (if f32_abs t < tiny10 then f32_one - alpha + fz 4 * alpha / PIf
   else if f32_abs (f32_abs t - f32_one / (fz 4 * alpha)) < tiny6 then
     alpha / f32_sqrt (fz 2) *
       ((f32_one + fz 2 / PIf) * sinf (PIf / (fz 4 * alpha)) + (f32_one - fz 2 / PIf) * cosf (PIf / (fz 4 * alpha)))
   else
     let num := sinf (PIf * t * (f32_one - alpha)) + fz 4 * alpha * t * cosf (PIf * t * (f32_one + alpha)) in
     let den := PIf * t * (f32_one - (fz 4 * alpha * t) * (fz 4 * alpha * t)) in
     num / den)%f32.

(** The sample times of a centred filter. *)
Definition tap_times (ntaps : Z) (sps : f32) : list f32 :=
  map (fun i => (fz (Z.of_nat i - Z.quot ntaps 2) / sps)%f32) (seq 0 (Z.to_nat ntaps)).

Definition rrc_taps (gain sample_rate symbol_rate alpha : f32) (ntaps : Z) : list f32 :=
  let ntaps := make_odd ntaps in
  let sps := (sample_rate / symbol_rate)%f32 in
  let taps := map (rrc_tap alpha) (tap_times ntaps sps) in
  let energy := fold_left (fun e x => e + x * x)%f32 taps f32_zero in
  let scale := (gain / f32_sqrt energy)%f32 in
  map (fun x => x * scale)%f32 taps.

Definition rc_tap (alpha t : f32) : f32 :=
  (if f32_abs t < tiny10 then f32_one
   else if (f32_zero < alpha) && (f32_abs (f32_abs t - f32_one / (fz 2 * alpha)) < tiny6) then
     PIf / fz 4 * sincf (f32_one / (fz 2 * alpha))
   else
     let cos_term := cosf (PIf * alpha * t) in
     let den := f32_one - (fz 2 * alpha * t) * (fz 2 * alpha * t) in
     sincf t * cos_term / den)%f32.

Definition rc_taps (sample_rate symbol_rate alpha : f32) (ntaps : Z) : list f32 :=
  let ntaps := make_odd ntaps in
  map (rc_tap alpha) (tap_times ntaps (sample_rate / symbol_rate)%f32).

Definition lpf_tap (omega_c : f32) (ntaps center i : Z) : f32 :=
  let n := fz (i - center) in
  let h := (if f32_abs n < tiny10 then omega_c / PIf else sinf (omega_c * n) / (PIf * n))%f32 in
  let c k := cosf (fz k * PIf * fz i / fz (ntaps - 1))%f32 in
  let w := (f32_lit 35875 100000 - f32_lit 48829 100000 * c 2%Z + f32_lit 14128 100000 * c 4%Z - f32_lit 1168 100000 * c 6%Z)%f32 in
  (h * w)%f32.

Definition lpf_ntaps (sample_rate transition_width : f32) : Z :=
  make_odd (f64_trunc (fz 4 / (transition_width / sample_rate))%f32).

Definition lpf_taps (gain sample_rate cutoff_freq transition_width : f32) : list f32 :=
  let ntaps := lpf_ntaps sample_rate transition_width in
  let center := Z.quot ntaps 2 in
  let omega_c := (fz 2 * PIf * cutoff_freq / sample_rate)%f32 in
  let taps := map (fun i => lpf_tap omega_c ntaps center (Z.of_nat i)) (seq 0 (Z.to_nat ntaps)) in
  let energy := fold_left f32_add taps f32_zero in
  if (f32_zero < f32_abs energy)%f32 then
    let scale := (gain / energy)%f32 in map (fun x => x * scale)%f32 taps
  else taps.

Definition box_taps (length : Z) : list f32 := replicate (Z.to_nat length) (f32_one / fz length)%f32.

Definition blackman_window (n : Z) : list f32 :=
  map (fun i => let c k := cosf (fz k * PIf * fz (Z.of_nat i) / fz (n - 1))%f32 in
                (f32_lit 42 100 - f32_lit 1 2 * c 2%Z + f32_lit 8 100 * c 4%Z)%f32) (seq 0 (Z.to_nat n)).
End design.

(** * Rotator *)

Section rotator.
Context (hypotf : f32 -> f32 -> f32).

(** [rotator_rotate_n]: the samples and the phase, normalised at the end. *)
Fixpoint rotate (phase phase_incr : c32) (inp : list c32) : list c32 * c32 :=
  match inp with
  | [] => ([], phase)
  | x :: rest => let '(out, phase') := rotate (c_mul phase phase_incr) phase_incr rest in (c_mul x phase :: out, phase')
  end.
Definition rotator_rotate_n (phase phase_incr : c32) (inp : list c32) : list c32 * c32 :=
  let '(out, phase) := rotate phase phase_incr inp in
  let mag := hypotf (c_re phase) (c_im phase) in
  (out, if f32_gtb mag f32_zero then c_div_r phase mag else phase).
End rotator.

Lemma length_rotator hypotf p d l : length (rotator_rotate_n hypotf p d l).1 = length l.
Proof.
  unfold rotator_rotate_n. assert (length (rotate p d l).1 = length l) as H; [|by destruct (rotate p d l)].
  revert p. induction l as [|x l IH]; intros p; [done|]. cbn [rotate]. specialize (IH (c_mul p d)). destruct (rotate _ d l). cbn in *. by rewrite IH.
Qed.

(** * Canonical values *)

(** What the demodulator relies on beyond that: filters map floats to floats. *)
Class KernelsCanon (K : kernels) : Prop := {
  fir_ccf_canon taps ntaps inp n : Forall (canonical 24 128) taps -> Forall c_canon inp -> Forall c_canon (simd_fir_ccf K taps ntaps inp n);
  fir_ccf_dec_canon taps ntaps inp n dec : Forall (canonical 24 128) taps -> Forall c_canon inp -> Forall c_canon (simd_fir_ccf_dec K taps ntaps inp n dec);
}.

Lemma Forall_map_seq {A} (P : A -> Prop) (f : nat -> A) n : (forall i, P (f i)) -> Forall P (map f (seq 0 n)).
Proof. intros H. apply Forall_map, Forall_forall. auto. Qed.

Lemma fold_preserves {A B} (P : A -> Prop) (f : A -> B -> A) l a : (forall a b, P a -> P (f a b)) -> P a -> P (fold_left f l a).
Proof. intros Hf. revert a. induction l as [|b l IH]; intros a Ha; cbn [fold_left]; auto. Qed.

#[export] Instance generic_kernels_canon : KernelsCanon generic_kernels.
Proof.
  split; intros; cbn [simd_fir_ccf simd_fir_ccf_dec generic_kernels]; apply Forall_map_seq; intros i; cbv zeta; apply fold_preserves; auto 6 using Forall_drop with canon.
Qed.

Section canonical_taps.
Context (sinf cosf : f32 -> f32) (Hsin : forall x, canonical32 (sinf x)) (Hcos : forall x, canonical32 (cosf x)).

Lemma PIf_canonical : canonical32 PIf.
Proof. eval_dec. Qed.
#[local] Hint Resolve PIf_canonical Hsin Hcos : canon.

Lemma lpf_taps_canonical gain rate cutoff width : Forall (canonical 24 128) (lpf_taps sinf cosf gain rate cutoff width).
Proof using Hsin Hcos.
  unfold lpf_taps. match goal with |- context [map ?f (seq 0 ?n)] => assert (Forall (canonical 24 128) (map f (seq 0 n))) as Ht end.
  { apply Forall_map_seq. intros i. unfold lpf_tap. apply f32_mul_canonical; [|auto 8 with canon]. destruct (f32_ltb _ _); auto with canon. }
  destruct (f32_ltb _ _); [|done]. apply Forall_map. eapply Forall_impl; [exact Ht|]. cbn. auto with canon.
Qed.

Lemma rrc_taps_canonical gain rate symbol_rate alpha n : canonical32 alpha -> Forall (canonical 24 128) (rrc_taps sinf cosf gain rate symbol_rate alpha n).
Proof using Hsin Hcos.
  intros Ha. unfold rrc_taps, tap_times. rewrite !map_map. apply Forall_map_seq. intros i. apply f32_mul_canonical; [|auto with canon].
  unfold rrc_tap, fz. destruct (f32_ltb _ _); [auto 8 with canon|]. destruct (f32_ltb _ _); auto 8 with canon.
Qed.

Lemma fir_filter_create_canonical taps : Forall (canonical 24 128) taps -> Forall (canonical 24 128) (fir_taps (fir_filter_create taps)).
Proof. intros H. cbn [fir_taps fir_filter_create]. apply Forall_app. split; [done|]. apply Forall_replicate. done. Qed.
End canonical_taps.

Lemma rotator_canon hypotf p d l : c_canon p -> c_canon d -> Forall c_canon l -> Forall c_canon (rotator_rotate_n hypotf p d l).1.
Proof.
  intros Hp Hd Hl. unfold rotator_rotate_n. enough (Forall c_canon (rotate p d l).1) by (by destruct (rotate p d l)).
  revert p Hp. induction Hl as [|x l Hx _ IH]; intros p Hp; cbn [rotate]; [constructor|]. specialize (IH (c_mul p d)). destruct (rotate _ d l).
  constructor; auto with canon.
Qed.

(** * Dispatch *)

Inductive simd_mode := SIMD_AUTO | SIMD_AVX2 | SIMD_SSE42 | SIMD_NEON | SIMD_SCALAR.
Inductive kernel_set := set_scalar | set_sse42 | set_avx2 | set_neon.

(** [simd_init] on x86: what the processor supports decides, scalar kernels are
    always available. *)
Definition simd_init_x86 (cpu_has_avx2_fma cpu_has_sse42 : bool) (mode : simd_mode) : kernel_set :=
  match mode with
  | SIMD_AVX2 => if cpu_has_avx2_fma then set_avx2 else if cpu_has_sse42 then set_sse42 else set_scalar
  | SIMD_SSE42 => if cpu_has_sse42 then set_sse42 else set_scalar
  | SIMD_SCALAR => set_scalar
  | _ => if cpu_has_avx2_fma then set_avx2 else if cpu_has_sse42 then set_sse42 else set_scalar
  end.
(** On AArch64. *)
Definition simd_init_arm (mode : simd_mode) : kernel_set := match mode with SIMD_SCALAR => set_scalar | _ => set_neon end.
