(* ===== verification/Simd.v ===== *)
(** The SSE4.2 kernels, [src/simd_sse42.c], and that they compute bit for bit
    what the scalar kernels of [src/simd_generic.c] compute.

    A register is four lanes.  Arrays are flat lists of floats, complex values
    as their two parts in turn, and a kernel updates its output array by stores.
    A kernel has a loop over blocks of two or four elements and a scalar tail. *)
From S2P Require Import Prelude CFloat CRound CCanon CComplex Kernels.

(** * Registers *)

Record m128 := M128 { l0 : f32; l1 : f32; l2 : f32; l3 : f32 }.

Definition lane (v : m128) (i : nat) : f32 := match i with 0 => l0 v | 1 => l1 v | 2 => l2 v | _ => l3 v end%nat.
Definition lanes2 (f : f32 -> f32 -> f32) (a b : m128) : m128 := M128 (f (l0 a) (l0 b)) (f (l1 a) (l1 b)) (f (l2 a) (l2 b)) (f (l3 a) (l3 b)).

Definition mm_setzero_ps : m128 := M128 f32_zero f32_zero f32_zero f32_zero.
Definition mm_set1_ps (x : f32) : m128 := M128 x x x x.
(** The arguments run from the highest lane to the lowest. *)
Definition mm_set_ps (e3 e2 e1 e0 : f32) : m128 := M128 e0 e1 e2 e3.
Definition mm_add_ps : m128 -> m128 -> m128 := lanes2 f32_add.
Definition mm_sub_ps : m128 -> m128 -> m128 := lanes2 f32_sub.
Definition mm_mul_ps : m128 -> m128 -> m128 := lanes2 f32_mul.
Definition mm_div_ps : m128 -> m128 -> m128 := lanes2 f32_div.
(** [a > b ? a : b], so the second operand when one is a NaN. *)
Definition mm_max_ps : m128 -> m128 -> m128 := lanes2 (fun a b => if f32_gtb a b then a else b).
(** [_mm_and_ps(x, _mm_cmpgt_ps(a, b))]: the lanes where the mask is set, else
    all bits zero. *)
Definition mm_and_cmpgt_ps (x a b : m128) : m128 :=
  let pick p x := if p : bool then x else f32_zero in
  M128 (pick (f32_gtb (l0 a) (l0 b)) (l0 x)) (pick (f32_gtb (l1 a) (l1 b)) (l1 x)) (pick (f32_gtb (l2 a) (l2 b)) (l2 x)) (pick (f32_gtb (l3 a) (l3 b)) (l3 x)).
(** [_mm_shuffle_ps(a, b, _MM_SHUFFLE(z, y, x, w))]. *)
Definition mm_shuffle_ps (a b : m128) (z y x w : nat) : m128 := M128 (lane a w) (lane a x) (lane b y) (lane b z).
Definition mm_unpacklo_ps (a b : m128) : m128 := M128 (l0 a) (l0 b) (l1 a) (l1 b).
Definition mm_cvtss_f32 (a : m128) : f32 := l0 a.
Definition mm_loadu_ps (a : list f32) (i : nat) : m128 := M128 (a !!! i) (a !!! S i) (a !!! S (S i)) (a !!! S (S (S i))).
Definition mm_storeu_ps (a : list f32) (i : nat) (v : m128) : list f32 :=
  <[S (S (S i)) := l3 v]> (<[S (S i) := l2 v]> (<[S i := l1 v]> (<[i := l0 v]> a))).
(** [_mm_store_sd] of a register of floats: the two lower lanes. *)
Definition mm_store_sd (a : list f32) (i : nat) (v : m128) : list f32 := <[S i := l1 v]> (<[i := l0 v]> a).
(** [_mm_cvtepi32_ps] of four sign-extended bytes. *)
Definition mm_cvt_bytes (b : list Z) (i : nat) : m128 := M128 (f32_of_Z (b !!! i)) (f32_of_Z (b !!! S i)) (f32_of_Z (b !!! S (S i))) (f32_of_Z (b !!! S (S (S i)))).

(** [for (; i + w - 1 < n; i += w) body; for (; i < n; i++) tail]. *)
Definition vec_loop {S : Type} (w n : nat) (body tail : nat -> S -> S) (s : S) : S :=
  fold_left (fun s i => tail i s) (seq (w * (n / w)) (n mod w)) (fold_left (fun s j => body (w * j)%nat s) (seq 0 (n / w)) s).

(** * Kernels *)

Definition sse42_fir_ccf (taps : list f32) (ntaps : nat) (inp out : list f32) (n : nat) : list f32 :=
  vec_loop 2 n
    (fun i out => mm_storeu_ps out (2 * i) (fold_left (fun acc k => mm_add_ps acc (mm_mul_ps (mm_set1_ps (taps !!! k)) (mm_loadu_ps inp (2 * (i + k))))) (seq 0 ntaps) mm_setzero_ps))
    (fun i out =>
       let acc_re := fold_left (fun acc k => f32_add acc (f32_mul (taps !!! k) (inp !!! (2 * (i + k))%nat))) (seq 0 ntaps) f32_zero in
       let acc_im := fold_left (fun acc k => f32_add acc (f32_mul (taps !!! k) (inp !!! S (2 * (i + k))))) (seq 0 ntaps) f32_zero in
       <[S (2 * i) := acc_im]> (<[(2 * i)%nat := acc_re]> out)) out.

Definition sse42_fir_fff (taps : list f32) (ntaps : nat) (inp out : list f32) (n : nat) : list f32 :=
  vec_loop 4 n
    (fun i out => mm_storeu_ps out i (fold_left (fun acc k => mm_add_ps acc (mm_mul_ps (mm_set1_ps (taps !!! k)) (mm_loadu_ps inp (i + k)))) (seq 0 ntaps) mm_setzero_ps))
    (fun i out => <[i := fold_left (fun acc k => f32_add acc (f32_mul (taps !!! k) (inp !!! (i + k)%nat))) (seq 0 ntaps) f32_zero]> out) out.

Definition sse42_window_cf (samples window out : list f32) (n : nat) : list f32 :=
  vec_loop 2 n
    (fun i out =>
       let data := mm_loadu_ps samples (2 * i) in
       let w2 := mm_set_ps (window !!! S i) (window !!! S i) (window !!! i) (window !!! i) in
       mm_storeu_ps out (2 * i) (mm_mul_ps data w2))
    (fun i out => <[S (2 * i) := f32_mul (samples !!! S (2 * i)) (window !!! i)]> (<[(2 * i)%nat := f32_mul (samples !!! (2 * i)%nat) (window !!! i)]> out)) out.

(** [re * re + im * im] of two complex values, in the two lower lanes. *)
Definition mag_lanes (v : m128) : m128 :=
  let re := mm_shuffle_ps v v 2 0 2 0 in
  let im := mm_shuffle_ps v v 3 1 3 1 in
  mm_add_ps (mm_mul_ps re re) (mm_mul_ps im im).
Definition mag_at (a : list f32) (i : nat) : f32 :=
  f32_add (f32_mul (a !!! (2 * i)%nat) (a !!! (2 * i)%nat)) (f32_mul (a !!! S (2 * i)) (a !!! S (2 * i))).

Definition sse42_fftshift_mag (fft_out mag_shifted : list f32) (fft_size : nat) : list f32 :=
  let half := (fft_size / 2)%nat in
  vec_loop 2 half
    (fun i mag_shifted =>
       let mag_shifted := mm_store_sd mag_shifted i (mag_lanes (mm_loadu_ps fft_out (2 * (half + i)))) in
       mm_store_sd mag_shifted (half + i) (mag_lanes (mm_loadu_ps fft_out (2 * i))))
    (fun i mag_shifted => <[(half + i)%nat := mag_at fft_out i]> (<[i := mag_at fft_out (half + i)]> mag_shifted)) mag_shifted.

Definition sse42_baseline_update (sum old_hist new_mag : list f32) (n : nat) : list f32 :=
  vec_loop 4 n
    (fun i sum => mm_storeu_ps sum i (mm_add_ps (mm_sub_ps (mm_loadu_ps sum i) (mm_loadu_ps old_hist i)) (mm_loadu_ps new_mag i)))
    (fun i sum => <[i := f32_add (f32_sub (sum !!! i) (old_hist !!! i)) (new_mag !!! i)]> sum) sum.

Definition sse42_relative_mag (mag baseline out : list f32) (n : nat) : list f32 :=
  vec_loop 4 n
    (fun i out =>
       let m := mm_loadu_ps mag i in
       let b := mm_loadu_ps baseline i in
       mm_storeu_ps out i (mm_and_cmpgt_ps (mm_div_ps m b) b mm_setzero_ps))
    (fun i out => <[i := if f32_gtb (baseline !!! i) f32_zero then f32_div (mag !!! i) (baseline !!! i) else f32_zero]> out) out.

Definition sse42_convert_i8_cf (iq : list Z) (out : list f32) (n : nat) : list f32 :=
  let scale := mm_set1_ps (f32_div f32_one (f32_of_Z 128)) in
  vec_loop 4 n
    (fun i out =>
       let out := mm_storeu_ps out (2 * i) (mm_mul_ps (mm_cvt_bytes iq (2 * i)) scale) in
       mm_storeu_ps out (2 * (i + 2)) (mm_mul_ps (mm_cvt_bytes iq (2 * i + 4)) scale))
    (fun i out => <[S (2 * i) := f32_div (f32_of_Z (iq !!! S (2 * i))) (f32_of_Z 128)]> (<[(2 * i)%nat := f32_div (f32_of_Z (iq !!! (2 * i)%nat)) (f32_of_Z 128)]> out)) out.

Definition sse42_mag_squared (inp out : list f32) (n : nat) : list f32 :=
  vec_loop 2 n
    (fun i out => mm_store_sd out i (mag_lanes (mm_loadu_ps inp (2 * i))))
    (fun i out => <[i := mag_at inp i]> out) out.

Definition sse42_max_float (inp : list f32) (n : nat) : f32 :=
  let vmax := fold_left (fun vmax j => mm_max_ps vmax (mm_loadu_ps inp (4 * j))) (seq 0 (n / 4)) (mm_set1_ps max_start) in
  let mx := mm_max_ps vmax (mm_shuffle_ps vmax vmax 1 0 3 2) in
  let mx := mm_max_ps mx (mm_shuffle_ps mx mx 0 1 0 1) in
  fold_left (fun max_val i => if f32_gtb (inp !!! i) max_val then inp !!! i else max_val) (seq (4 * (n / 4)) (n mod 4)) (mm_cvtss_f32 mx).

(** The taps are summed in two interleaved halves, so this one rounds
    differently from the scalar kernel. *)
Definition sse42_fir_ccf_dec (taps : list f32) (ntaps : nat) (inp out : list f32) (n_out decimation : nat) : list f32 :=
  fold_left (fun out i =>
    let p := drop (i * decimation * 2) inp in
    let acc := fold_left (fun acc j => let k := (2 * j)%nat in
      mm_add_ps acc (mm_mul_ps (mm_set_ps (taps !!! S k) (taps !!! S k) (taps !!! k) (taps !!! k)) (mm_loadu_ps p (2 * k)))) (seq 0 (ntaps / 2)) mm_setzero_ps in
    let result := mm_add_ps acc (mm_shuffle_ps acc acc 3 2 3 2) in
    let tail := seq (2 * (ntaps / 2)) (ntaps mod 2) in
    let acc_re := fold_left (fun acc k => f32_add acc (f32_mul (taps !!! k) (p !!! (2 * k)%nat))) tail (mm_cvtss_f32 result) in
    let acc_im := fold_left (fun acc k => f32_add acc (f32_mul (taps !!! k) (p !!! S (2 * k)))) tail (mm_cvtss_f32 (mm_shuffle_ps result result 0 0 0 1)) in
    <[S (2 * i) := acc_im]> (<[(2 * i)%nat := acc_re]> out)) (seq 0 n_out) out.

Definition sse42_csquare_window (inp window out : list f32) (n : nat) : list f32 :=
  vec_loop 2 n
    (fun i out =>
       let data := mm_loadu_ps inp (2 * i) in
       let re := mm_shuffle_ps data data 2 0 2 0 in
       let im := mm_shuffle_ps data data 3 1 3 1 in
       let sq_re := mm_sub_ps (mm_mul_ps re re) (mm_mul_ps im im) in
       let sq_im := mm_mul_ps (mm_set1_ps (f32_of_Z 2)) (mm_mul_ps re im) in
       let w := mm_set_ps (window !!! S i) (window !!! i) (window !!! S i) (window !!! i) in
       mm_storeu_ps out (2 * i) (mm_unpacklo_ps (mm_mul_ps sq_re w) (mm_mul_ps sq_im w)))
    (fun i out =>
       let a := inp !!! (2 * i)%nat in
       let b := inp !!! S (2 * i) in
       <[S (2 * i) := f32_mul (f32_mul (f32_mul (f32_of_Z 2) a) b) (window !!! i)]>
         (<[(2 * i)%nat := f32_mul (f32_sub (f32_mul a a) (f32_mul b b)) (window !!! i)]> out)) out.

(** * Loops and stores *)

(** A blocked loop whose block is as many turns of the tail is the plain loop. *)
Lemma vec_loop_plain {S} w n (body tail : nat -> S -> S) s : (0 < w)%nat ->
  (forall i s, body i s = fold_left (fun s i => tail i s) (seq i w) s) ->
  vec_loop w n body tail s = fold_left (fun s i => tail i s) (seq 0 n) s.
Proof.
  intros Hw Hb. unfold vec_loop. pose proof (Nat.div_mod n w ltac:(lia)) as Hn.
  assert (forall m s, fold_left (fun s j => body (w * j)%nat s) (seq 0 m) s = fold_left (fun s i => tail i s) (seq 0 (w * m)) s) as H.
  { induction m as [|m IH]; intros t; [by rewrite Nat.mul_0_r|]. rewrite seq_S, fold_left_app, IH. cbn [fold_left Nat.add].
    rewrite Hb, <- fold_left_app, <- seq_app. do 2 f_equal. lia. }
  rewrite H. rewrite <- fold_left_app. f_equal. transitivity (seq 0 (w * (n / w) + n mod w)); [by rewrite seq_app|]. by rewrite <- Hn.
Qed.

Lemma insert_app_drop {A} (l out : list A) x : (length l < length out)%nat -> <[length l := x]> (l ++ drop (length l) out) = (l ++ [x]) ++ drop (S (length l)) out.
Proof.
  intros H. rewrite insert_app_r_alt, Nat.sub_diag by lia. destruct (lookup_lt_is_Some_2 out (length l) H) as [y Hy].
  rewrite (drop_S out y (length l) Hy). cbn. by rewrite <- app_assoc.
Qed.

(** Storing one element per turn. *)
Lemma store_loop {A} (f : nat -> A) n out : (n <= length out)%nat ->
  fold_left (fun out i => <[i := f i]> out) (seq 0 n) out = map f (seq 0 n) ++ drop n out.
Proof.
  induction n as [|n IH]; intros Hn; [by rewrite drop_0|]. rewrite seq_S, fold_left_app, IH by lia. cbn [fold_left Nat.add].
  rewrite map_app. cbn [map]. pose proof (insert_app_drop (map f (seq 0 n)) out (f n)) as H. rewrite length_map, length_seq in H. apply H. lia.
Qed.

(** Storing two. *)
Lemma store_pair_loop (f g : nat -> f32) n out : (2 * n <= length out)%nat ->
  fold_left (fun out i => <[S (2 * i) := g i]> (<[(2 * i)%nat := f i]> out)) (seq 0 n) out = flat_map (fun i => [f i; g i]) (seq 0 n) ++ drop (2 * n) out.
Proof.
  assert (forall n m, length (flat_map (fun i => [f i; g i]) (seq m n)) = (2 * n)%nat) as Hlen.
  { clear. induction n as [|n IH]; intros m; [done|]. cbn [seq flat_map app length]. rewrite IH. lia. }
  induction n as [|n IH]; intros Hn; [by rewrite drop_0|]. rewrite seq_S, fold_left_app, IH by lia. cbn [fold_left Nat.add].
  rewrite flat_map_app. cbn [flat_map app]. pose proof (insert_app_drop (flat_map (fun i => [f i; g i]) (seq 0 n)) out (f n)) as H1.
  rewrite Hlen in H1. rewrite H1 by lia.
  pose proof (insert_app_drop (flat_map (fun i => [f i; g i]) (seq 0 n) ++ [f n]) out (g n)) as H2.
  rewrite length_app, Hlen in H2. cbn [length] in H2. replace (2 * n + 1)%nat with (S (2 * n)) in H2 by lia. rewrite H2 by lia.
  rewrite <- !app_assoc. cbn [app]. by replace (2 * S n)%nat with (S (S (2 * n))) by lia.
Qed.

(** * Flat arrays *)

Definition flat (l : list c32) : list f32 := flat_map (fun z => [c_re z; c_im z]) l.

Lemma flat_re l i : flat l !!! (2 * i)%nat = c_re (l !!! i).
Proof.
  revert i. induction l as [|z l IH]; intros i; [by rewrite !list_lookup_total_alt, !lookup_nil|].
  destruct i as [|i]; [done|]. replace (2 * S i)%nat with (S (S (2 * i))) by lia. cbn. apply IH.
Qed.
Lemma flat_im l i : flat l !!! S (2 * i) = c_im (l !!! i).
Proof.
  revert i. induction l as [|z l IH]; intros i; [by rewrite !list_lookup_total_alt, !lookup_nil|].
  destruct i as [|i]; [done|]. replace (S (2 * S i)) with (S (S (S (2 * i)))) by lia. cbn. apply IH.
Qed.
Lemma flat_map_flat (f : nat -> c32) l : flat (map f l) = flat_map (fun i => [c_re (f i); c_im (f i)]) l.
Proof. induction l as [|i l IH]; [done|]. cbn. by rewrite <- IH. Qed.

(** A block of two complex values begins at an even element. *)
Lemma even_step i : S (S (2 * i)) = (2 * S i)%nat.
Proof. lia. Qed.

Lemma load_pair l i : mm_loadu_ps (flat l) (2 * i) = M128 (c_re (l !!! i)) (c_im (l !!! i)) (c_re (l !!! S i)) (c_im (l !!! S i)).
Proof. unfold mm_loadu_ps. rewrite even_step, !flat_re, !flat_im. done. Qed.

(** A sum of products, lane by lane. *)
Lemma fold_lanes (c : nat -> f32) (d : nat -> m128) ks a0 a1 a2 a3 :
  fold_left (fun acc k => mm_add_ps acc (mm_mul_ps (mm_set1_ps (c k)) (d k))) ks (M128 a0 a1 a2 a3) =
  M128 (fold_left (fun acc k => f32_add acc (f32_mul (c k) (l0 (d k)))) ks a0) (fold_left (fun acc k => f32_add acc (f32_mul (c k) (l1 (d k)))) ks a1)
       (fold_left (fun acc k => f32_add acc (f32_mul (c k) (l2 (d k)))) ks a2) (fold_left (fun acc k => f32_add acc (f32_mul (c k) (l3 (d k)))) ks a3).
Proof. revert a0 a1 a2 a3. induction ks as [|k ks IH]; intros; [done|]. cbn [fold_left]. apply IH. Qed.

Lemma fold_complex (c : nat -> f32) (d : nat -> c32) ks a b :
  fold_left (fun acc k => c_add acc (c_scale (c k) (d k))) ks (C32 a b) =
  C32 (fold_left (fun acc k => f32_add acc (f32_mul (c k) (c_re (d k)))) ks a) (fold_left (fun acc k => f32_add acc (f32_mul (c k) (c_im (d k)))) ks b).
Proof. revert a b. induction ks as [|k ks IH]; intros; [done|]. cbn [fold_left]. apply IH. Qed.

Lemma fold_ext {A B} (f g : A -> B -> A) l a : (forall a b, f a b = g a b) -> fold_left f l a = fold_left g l a.
Proof. intros H. revert a. induction l as [|b l IH]; intros a; [done|]. cbn. by rewrite H, IH. Qed.

(** * Kernel by kernel *)

Lemma store_cong (s : list f32) i j k m a b c d a' b' c' d' : d = d' -> c = c' -> b = b' -> a = a' ->
  <[m := d]> (<[k := c]> (<[j := b]> (<[i := a]> s))) = <[m := d']> (<[k := c']> (<[j := b']> (<[i := a']> s))).
Proof. by intros -> -> -> ->. Qed.

Lemma sse42_fir_ccf_eq taps ntaps inp out n : (2 * n <= length out)%nat ->
  sse42_fir_ccf taps ntaps (flat inp) out n = flat (generic_fir_ccf taps ntaps inp n) ++ drop (2 * n) out.
Proof.
  intros Hn. unfold sse42_fir_ccf. rewrite vec_loop_plain; [|lia|].
  - rewrite store_pair_loop by done. f_equal. unfold generic_fir_ccf. rewrite flat_map_flat. apply flat_map_ext. intros i.
    unfold c_zero. rewrite fold_complex. cbn [c_re c_im]. f_equal; [|f_equal]; apply fold_ext; intros a k; by rewrite ?flat_re, ?flat_im.
  - intros i s. cbn [seq fold_left]. unfold mm_storeu_ps. rewrite even_step. unfold mm_setzero_ps. rewrite fold_lanes. cbn [l0 l1 l2 l3].
    apply store_cong; apply fold_ext; intros a k; by rewrite load_pair, ?flat_re, ?flat_im.
Qed.

Lemma sse42_fir_fff_eq taps ntaps inp out n : (n <= length out)%nat ->
  sse42_fir_fff taps ntaps inp out n = generic_fir_fff taps ntaps inp n ++ drop n out.
Proof.
  intros Hn. unfold sse42_fir_fff. rewrite vec_loop_plain; [|lia|]; [by rewrite store_loop|].
  intros i s. cbn [seq fold_left]. unfold mm_storeu_ps, mm_setzero_ps. rewrite fold_lanes. done.
Qed.

Lemma sse42_window_cf_eq samples window out n : (2 * n <= length out)%nat ->
  sse42_window_cf (flat samples) window out n = flat (generic_window_cf samples window n) ++ drop (2 * n) out.
Proof.
  intros Hn. unfold sse42_window_cf. rewrite vec_loop_plain; [|lia|].
  - rewrite store_pair_loop by done. f_equal. unfold generic_window_cf. rewrite flat_map_flat. apply flat_map_ext. intros i. by rewrite flat_re, flat_im.
  - intros i s. cbn [seq fold_left]. unfold mm_storeu_ps. rewrite load_pair, even_step, !flat_re, !flat_im. done.
Qed.

Lemma mag_lanes_pair l i : mag_lanes (mm_loadu_ps (flat l) (2 * i)) = M128 (mag2 (l !!! i)) (mag2 (l !!! S i)) (mag2 (l !!! i)) (mag2 (l !!! S i)).
Proof. by rewrite load_pair. Qed.
Lemma mag_at_flat l i : mag_at (flat l) i = mag2 (l !!! i).
Proof. unfold mag_at. by rewrite flat_re, flat_im. Qed.

Lemma sse42_mag_squared_eq inp out n : (n <= length out)%nat -> sse42_mag_squared (flat inp) out n = generic_mag_squared inp n ++ drop n out.
Proof.
  intros Hn. unfold sse42_mag_squared. rewrite vec_loop_plain; [|lia|].
  - rewrite store_loop by done. f_equal. apply map_ext. intros i. apply mag_at_flat.
  - intros i s. cbn [seq fold_left]. unfold mm_store_sd. by rewrite mag_lanes_pair, !mag_at_flat.
Qed.

Lemma sse42_relative_mag_eq mag baseline out n : (n <= length out)%nat ->
  sse42_relative_mag mag baseline out n = generic_relative_mag mag baseline n ++ drop n out.
Proof. intros Hn. unfold sse42_relative_mag. rewrite vec_loop_plain; [|lia|done]. by rewrite store_loop. Qed.

(** The update in place reads an element before it is stored. *)
Lemma update_loop (g : nat -> f32 -> f32) n s : (n <= length s)%nat ->
  fold_left (fun s i => <[i := g i (s !!! i)]> s) (seq 0 n) s = map (fun i => g i (s !!! i)) (seq 0 n) ++ drop n s.
Proof.
  induction n as [|n IH]; intros Hn; [by rewrite drop_0|]. rewrite seq_S, fold_left_app, IH by lia. cbn [fold_left Nat.add].
  pose proof (insert_app_drop (map (fun i => g i (s !!! i)) (seq 0 n)) s (g n (s !!! n))) as H. rewrite length_map, length_seq in H.
  rewrite map_app. cbn [map]. rewrite <- H by lia. do 2 f_equal.
  rewrite lookup_total_app_r by (rewrite length_map, length_seq; lia). rewrite length_map, length_seq, Nat.sub_diag, lookup_total_drop, Nat.add_0_r. done.
Qed.

Lemma sse42_baseline_update_eq sum old_hist new_mag n : (n <= length sum)%nat ->
  sse42_baseline_update sum old_hist new_mag n = generic_baseline_update sum old_hist new_mag n ++ drop n sum.
Proof.
  intros Hn. unfold sse42_baseline_update. rewrite vec_loop_plain; [|lia|].
  - by rewrite (update_loop (fun i x => f32_add (f32_sub x (old_hist !!! i)) (new_mag !!! i))).
  - intros i s. cbn [seq fold_left]. unfold mm_storeu_ps. cbn [mm_add_ps mm_sub_ps mm_loadu_ps lanes2 l0 l1 l2 l3].
    rewrite !list_lookup_total_insert_ne by lia. done.
Qed.

(** Every signed byte divides by 128 exactly. *)
Lemma byte_scaled b : -128 <= b < 128 -> f32_mul (f32_of_Z b) (f32_div f32_one (f32_of_Z 128)) = f32_div (f32_of_Z b) (f32_of_Z 128).
Proof.
  intros Hb. assert (Forall (fun b => f32_mul (f32_of_Z b) (f32_div f32_one (f32_of_Z 128)) = f32_div (f32_of_Z b) (f32_of_Z 128)) (map (fun n => Z.of_nat n - 128) (seq 0 256))) as H by eval_dec.
  rewrite Forall_forall in H. apply H. apply list_elem_of_fmap. exists (Z.to_nat (b + 128)). split; [lia|]. apply elem_of_seq. lia.
Qed.

Lemma byte_parts b c : -128 <= b < 128 -> -128 <= c < 128 ->
  c_of_parts (f32_div (f32_of_Z b) (f32_of_Z 128)) (f32_div (f32_of_Z c) (f32_of_Z 128)) = C32 (f32_div (f32_of_Z b) (f32_of_Z 128)) (f32_div (f32_of_Z c) (f32_of_Z 128)).
Proof.
  intros Hb Hc. set (q b := f32_div (f32_of_Z b) (f32_of_Z 128)).
  assert (Forall (fun b => f32_add (q b) (S754_zero true) = q b /\ f32_add (q b) (S754_zero false) = q b /\ f32_mul (q b) f32_one = q b /\
    (f32_mul (q b) f32_zero = S754_zero true \/ f32_mul (q b) f32_zero = S754_zero false)) (map (fun n => Z.of_nat n - 128) (seq 0 256))) as H by eval_dec.
  rewrite Forall_forall in H. assert (forall b, -128 <= b < 128 -> b ∈ map (fun n => Z.of_nat n - 128) (seq 0 256)) as Hin.
  { intros x Hx. apply list_elem_of_fmap. exists (Z.to_nat (x + 128)). split; [lia|]. apply elem_of_seq. lia. }
  destruct (H b (Hin b Hb)) as (H1 & H2 & _), (H c (Hin c Hc)) as (_ & _ & H3 & H4). unfold c_of_parts. fold (q b) (q c). rewrite H3.
  destruct H4 as [->| ->]; congruence.
Qed.

Lemma bytes_lookup iq i : Forall (fun b => -128 <= b < 128) iq -> -128 <= iq !!! i < 128.
Proof. intros H. rewrite list_lookup_total_alt. destruct (iq !! i) eqn:E; [|by cbn]. by eapply Forall_lookup_1 in H. Qed.

Lemma sse42_convert_i8_cf_eq iq out n : Forall (fun b => -128 <= b < 128) iq -> (2 * n <= length out)%nat ->
  sse42_convert_i8_cf iq out n = flat (generic_convert_i8_cf iq n) ++ drop (2 * n) out.
Proof.
  intros Hb Hn. unfold sse42_convert_i8_cf. rewrite vec_loop_plain; [|lia|].
  - rewrite store_pair_loop by done. f_equal. unfold generic_convert_i8_cf. rewrite flat_map_flat. apply flat_map_ext. intros i.
    replace (2 * i + 1)%nat with (S (2 * i)) by lia. by rewrite byte_parts by by apply bytes_lookup.
  - intros i s. cbn [seq fold_left]. unfold mm_storeu_ps. cbn [mm_mul_ps mm_cvt_bytes mm_set1_ps lanes2 l0 l1 l2 l3].
    rewrite !byte_scaled by by apply bytes_lookup.
    replace (2 * i + 4)%nat with (2 * S (S i))%nat by lia. replace (2 * (i + 2))%nat with (2 * S (S i))%nat by lia. rewrite !even_step. done.
Qed.

(** Storing to both halves. *)
Lemma shift_loop (f g : nat -> f32) half out : (2 * half <= length out)%nat -> forall n x, (n <= half)%nat ->
  fold_left (fun out i => <[(half + i)%nat := g i]> (<[i := f i]> out)) (seq 0 n) out !! x =
  if decide (x < n)%nat then Some (f x) else if decide (half <= x < half + n)%nat then Some (g (x - half)%nat) else out !! x.
Proof.
  intros Hout. induction n as [|n IH]; intros x Hn; [by repeat case_decide; try lia|].
  assert (length (fold_left (fun out i => <[(half + i)%nat := g i]> (<[i := f i]> out)) (seq 0 n) out) = length out) as Hlen.
  { clear. generalize (seq 0 n). intros l. revert out. induction l as [|i l IH]; intros out; [done|]. cbn. by rewrite IH, !length_insert. }
  rewrite seq_S, fold_left_app. cbn [fold_left Nat.add]. rewrite !list_lookup_insert, IH, length_insert, Hlen by lia.
  repeat case_decide; try lia; try done; f_equal; f_equal; lia.
Qed.

Lemma sse42_fftshift_mag_eq fft_out out n : (n <= length out)%nat ->
  sse42_fftshift_mag (flat fft_out) out n = generic_fftshift_mag fft_out n ++ drop (2 * (n / 2)) out.
Proof.
  intros Hn. unfold sse42_fftshift_mag, generic_fftshift_mag. set (half := (n / 2)%nat). pose proof (Nat.div_mod n 2 ltac:(lia)) as Hd. fold half in Hd.
  assert (vec_loop 2 half (fun i mag_shifted => mm_store_sd (mm_store_sd mag_shifted i (mag_lanes (mm_loadu_ps (flat fft_out) (2 * (half + i))))) (half + i) (mag_lanes (mm_loadu_ps (flat fft_out) (2 * i))))
    (fun i mag_shifted => <[(half + i)%nat := mag_at (flat fft_out) i]> (<[i := mag_at (flat fft_out) (half + i)]> mag_shifted)) out =
    fold_left (fun out i => <[(half + i)%nat := mag_at (flat fft_out) i]> (<[i := mag_at (flat fft_out) (half + i)]> out)) (seq 0 half) out) as E.
  { destruct (decide (half < 2)%nat) as [Hs|Hs]; [by destruct half as [|[|half]]; [..|lia]|].
    rewrite (vec_loop_plain 2 half _ (fun i mag_shifted => <[(half + i)%nat := mag_at (flat fft_out) i]> (<[i := mag_at (flat fft_out) (half + i)]> mag_shifted))); [done|lia|].
    intros i s. cbn [seq fold_left]. unfold mm_store_sd. rewrite !mag_lanes_pair, !mag_at_flat. cbn [l0 l1].
    replace (half + S i)%nat with (S (half + i)) by lia. f_equal. by rewrite (list_insert_insert_ne _ (half + i)%nat (S i)) by lia. }
  cbv zeta. rewrite E. apply list_eq. intros x. rewrite (shift_loop (fun i => mag_at (flat fft_out) (half + i)) (fun i => mag_at (flat fft_out) i) half) by lia.
  rewrite <- app_assoc. destruct (decide (x < half)%nat).
  { rewrite lookup_app_l by (rewrite length_map, length_seq; lia). rewrite list_lookup_fmap, lookup_seq_lt by lia. cbn. by rewrite mag_at_flat. }
  rewrite lookup_app_r by (rewrite length_map, length_seq; lia). rewrite length_map, length_seq. destruct (decide (half <= x < half + half)%nat).
  - rewrite lookup_app_l by (rewrite length_map, length_seq; lia). rewrite list_lookup_fmap, lookup_seq_lt by lia. cbn. by rewrite mag_at_flat.
  - rewrite lookup_app_r by (rewrite length_map, length_seq; lia). rewrite length_map, length_seq, lookup_drop. f_equal. lia.
Qed.

(** * The table of SSE4.2 kernels *)

Fixpoint unflat (l : list f32) : list c32 :=
  match l with re :: im :: rest => C32 re im :: unflat rest | _ => [] end.

Lemma unflat_flat l : unflat (flat l) = l.
Proof. induction l as [|[re im] l IH]; [done|]. cbn. f_equal. apply IH. Qed.

Lemma length_unflat l n : length l = (2 * n)%nat -> length (unflat l) = n.
Proof.
  revert l. induction n as [|n IH]; intros l Hl; [by destruct l|]. destruct l as [|re [|im l]]; cbn in Hl; [lia|lia|]. cbn. rewrite (IH l) by lia. done.
Qed.

(** Output arrays are filled completely, so what they held does not matter. *)
Definition blank (n : nat) : list f32 := replicate n f32_zero.
Definition sse42_kernels : kernels :=
  Kernels (fun taps ntaps inp n => unflat (sse42_fir_ccf taps ntaps (flat inp) (blank (2 * n)) n))
    (fun taps ntaps inp n dec => unflat (sse42_fir_ccf_dec taps ntaps (flat inp) (blank (2 * n)) n dec))
    (fun taps ntaps inp n => sse42_fir_fff taps ntaps inp (blank n) n)
    (fun samples window n => unflat (sse42_window_cf (flat samples) window (blank (2 * n)) n))
    (fun fft_out n => sse42_fftshift_mag (flat fft_out) (blank (2 * (n / 2))) (2 * (n / 2)))
    (fun sum old_hist new_mag n => take n (sse42_baseline_update sum old_hist new_mag n))
    (fun mag baseline n => sse42_relative_mag mag baseline (blank n) n)
    (fun iq n => unflat (sse42_convert_i8_cf iq (blank (2 * n)) n))
    (fun inp n => sse42_mag_squared (flat inp) (blank n) n)
    sse42_max_float
    (fun inp window n => unflat (sse42_csquare_window (flat inp) window (blank (2 * n)) n)).

Lemma length_vec_loop {A} w n (body tail : nat -> list A -> list A) s :
  (forall i s, length (body i s) = length s) -> (forall i s, length (tail i s) = length s) -> length (vec_loop w n body tail s) = length s.
Proof.
  intros Hb Ht. unfold vec_loop. assert (forall (f : list A -> nat -> list A) l s, (forall s i, length (f s i) = length s) -> length (fold_left f l s) = length s) as H.
  { intros f l. induction l as [|i l IH]; intros t Hf; [done|]. cbn. by rewrite IH, Hf. }
  rewrite !H; auto.
Qed.

#[export] Instance sse42_kernels_ok : KernelsOk sse42_kernels.
Proof.
  assert (forall n, length (blank n) = n) as Hb by (intros; apply length_replicate).
  split; intros; cbn [simd_fir_ccf simd_fir_ccf_dec simd_fir_fff simd_mag_squared simd_csquare_window sse42_kernels].
  - rewrite sse42_fir_ccf_eq by (rewrite Hb; lia). rewrite drop_ge by (rewrite Hb; lia). rewrite app_nil_r, unflat_flat.
    unfold generic_fir_ccf. by rewrite length_map, length_seq.
  - apply length_unflat. rewrite <- (Hb (2 * n)%nat) at 2. generalize (blank (2 * n)). unfold sse42_fir_ccf_dec. generalize (seq 0 n). intros l.
    induction l as [|i l IH]; intros out; [done|]. cbn [fold_left]. by rewrite IH, !length_insert.
  - rewrite sse42_fir_fff_eq by (rewrite Hb; lia). rewrite drop_ge by (rewrite Hb; lia). rewrite app_nil_r. unfold generic_fir_fff. by rewrite length_map, length_seq.
  - rewrite sse42_mag_squared_eq by (rewrite Hb; lia). rewrite drop_ge by (rewrite Hb; lia). rewrite app_nil_r. unfold generic_mag_squared. by rewrite length_map, length_seq.
  - apply length_unflat. unfold sse42_csquare_window. rewrite length_vec_loop; [apply Hb|..]; intros; unfold mm_storeu_ps; by rewrite !length_insert.
Qed.

(** ** Floats in, floats out *)

#[local] Abbreviation canon_all := (Forall (canonical 24 128)).
Definition lanes_canon (v : m128) : Prop := canonical32 (l0 v) /\ canonical32 (l1 v) /\ canonical32 (l2 v) /\ canonical32 (l3 v).

Lemma flat_canon l : Forall c_canon l -> canon_all (flat l).
Proof. unfold flat. induction 1 as [|[a b] l [Ha Hb] _ IH]; cbn; [constructor|]. by repeat constructor. Qed.

Lemma unflat_canon : forall l, canon_all l -> Forall c_canon (unflat l).
Proof.
  fix IH 1. intros [|a [|b l]] H; [constructor..|]. apply Forall_cons in H as [Ha H]. apply Forall_cons in H as [Hb H].
  cbn [unflat]. constructor; [done|by apply IH].
Qed.

Lemma mm_add_canon a b : lanes_canon a -> lanes_canon b -> lanes_canon (mm_add_ps a b).
Proof. intros (? & ? & ? & ?) (? & ? & ? & ?). repeat split; cbn; auto with canon. Qed.
Lemma mm_mul_canon a b : lanes_canon a -> lanes_canon b -> lanes_canon (mm_mul_ps a b).
Proof. intros (? & ? & ? & ?) (? & ? & ? & ?). repeat split; cbn; auto with canon. Qed.
Lemma lane_canon v i : lanes_canon v -> canonical32 (lane v i).
Proof. intros (? & ? & ? & ?). by destruct i as [|[|[|i]]]. Qed.
Lemma mm_shuffle_canon a b z y x w : lanes_canon a -> lanes_canon b -> lanes_canon (mm_shuffle_ps a b z y x w).
Proof. intros Ha Hb. repeat split; by apply lane_canon. Qed.
Lemma mm_loadu_canon a i : canon_all a -> lanes_canon (mm_loadu_ps a i).
Proof. repeat split; cbn; auto with canon. Qed.
Lemma mm_set_canon a b c d : canonical32 a -> canonical32 b -> canonical32 c -> canonical32 d -> lanes_canon (mm_set_ps a b c d).
Proof. by repeat split. Qed.
#[local] Hint Resolve mm_add_canon mm_mul_canon mm_shuffle_canon mm_loadu_canon mm_set_canon : canon.

Lemma fir_ccf_dec_sse42_canon taps ntaps inp out n dec : canon_all taps -> canon_all inp -> canon_all out ->
  canon_all (sse42_fir_ccf_dec taps ntaps inp out n dec).
Proof.
  intros Ht Hi. unfold sse42_fir_ccf_dec. apply fold_preserves. intros o i Ho. cbv zeta.
  assert (canon_all (drop (i * dec * 2) inp)) as Hp by by apply Forall_drop. set (p := drop _ inp) in *. clearbody p.
  match goal with |- context [fold_left ?f (seq 0 (ntaps / 2)) mm_setzero_ps] => set (acc := fold_left f (seq 0 (ntaps / 2)) mm_setzero_ps) end.
  assert (lanes_canon acc) as Ha by (apply fold_preserves; [|done]; auto 8 with canon). clearbody acc.
  assert (forall v, lanes_canon v -> canonical32 (mm_cvtss_f32 v)) as Hv by (intros v Hv; apply Hv).
  apply Forall_insert; [apply Forall_insert; [done|]|]; apply fold_preserves; auto 8 with canon.
Qed.

#[export] Instance sse42_kernels_canon : KernelsCanon sse42_kernels.
Proof.
  split; intros taps ntaps inp n; intros; cbn [simd_fir_ccf simd_fir_ccf_dec sse42_kernels].
  - unfold blank. rewrite sse42_fir_ccf_eq by (rewrite length_replicate; lia). rewrite drop_ge by (rewrite length_replicate; lia). rewrite app_nil_r, unflat_flat.
    by apply (fir_ccf_canon (K := generic_kernels)).
  - apply unflat_canon, fir_ccf_dec_sse42_canon; [done|by apply flat_canon|]. by apply Forall_replicate.
Qed.

(** * Properties *)

(** C12 (equivalence). The vector kernels are the scalar ones: for every input the
    SSE4.2 filters, window, magnitudes, baseline update, relative magnitudes and
    byte conversion store exactly the bits the scalar kernels compute and leave
    the rest of the output array alone, whatever the length is modulo the block
    size. *)
Theorem sse42_matches_scalar taps ntaps (c : list c32) (a b : list f32) (iq : list Z) (out : list f32) n :
  (2 * n <= length out)%nat -> Forall (fun x => -128 <= x < 128) iq ->
  sse42_fir_ccf taps ntaps (flat c) out n = flat (generic_fir_ccf taps ntaps c n) ++ drop (2 * n) out /\
  sse42_fir_fff taps ntaps a out n = generic_fir_fff taps ntaps a n ++ drop n out /\
  sse42_window_cf (flat c) a out n = flat (generic_window_cf c a n) ++ drop (2 * n) out /\
  sse42_fftshift_mag (flat c) out n = generic_fftshift_mag c n ++ drop (2 * (n / 2)) out /\
  sse42_baseline_update out a b n = generic_baseline_update out a b n ++ drop n out /\
  sse42_relative_mag a b out n = generic_relative_mag a b n ++ drop n out /\
  sse42_convert_i8_cf iq out n = flat (generic_convert_i8_cf iq n) ++ drop (2 * n) out /\
  sse42_mag_squared (flat c) out n = generic_mag_squared c n ++ drop n out.
Proof.
  intros Hn Hb. split; [by apply sse42_fir_ccf_eq|]. split; [apply sse42_fir_fff_eq; lia|]. split; [by apply sse42_window_cf_eq|].
  split; [apply sse42_fftshift_mag_eq; lia|]. split; [apply sse42_baseline_update_eq; lia|]. split; [apply sse42_relative_mag_eq; lia|].
  split; [by apply sse42_convert_i8_cf_eq|apply sse42_mag_squared_eq; lia].
Qed.

Lemma sse42_matches_scalar_witness :
  sse42_convert_i8_cf [127; -128; 3; 0; 5; 6] (blank 8) 3 = flat (generic_convert_i8_cf [127; -128; 3; 0; 5; 6] 3) ++ blank 2.
Proof. apply (sse42_matches_scalar [] 0 [] [] [] [127; -128; 3; 0; 5; 6] (blank 8) 3); [cbn; lia|]. repeat constructor; lia. Defined.

(** The maximum of the vector kernel is not that of the scalar one when a NaN is
    among the values: the scalar loop skips it, the vector one forgets what came
    before it. *)
Example max_forgets : exists l, generic_max_float l 8 = f32_of_Z 9 /\ sse42_max_float l 8 = f32_of_Z 2.
Proof. exists ([f32_of_Z 9; f32_zero; f32_zero; f32_zero; S754_nan; f32_zero; f32_zero; f32_of_Z 2]). by vm_compute. Qed.
