(* ===== verification/BurstDownmix.v ===== *)
(** The downmixer, [src/burst_downmix.c]: from the samples of a burst to the
    samples of one frame at ten samples per symbol, starting at its unique word.

    The Fourier transforms of FFTW and the functions of libm are parameters; the
    numeric kernels are a table ([Kernels.v]).  The four work buffers hold
    [work_size] elements each; every step that reads or writes them has the test
    that it stays inside ([fits]), and [None] is an access outside. *)
From S2P Require Import Prelude CFloat CRound CCanon CComplex QpskDemod Demod Kernels.
#[local] Open Scope Z_scope.

(** * Data *)

(** [burst_info_t] and [burst_data_t] of [src/burst_detect.h]. *)
Record burst_info := BurstInfo { bi_id : Z; bi_start : Z; bi_stop : Z; bi_last_active : Z; bi_center_bin : Z; bi_magnitude : f32; bi_noise : f32 }.
Record burst_data := BurstData {
  bd_info : burst_info;
  bd_center_frequency : f64;
  bd_sample_rate : Z;
  bd_fft_size : Z;
  bd_start_time_ns : Z;
  bd_samples : list c32;
}.

Record downmix_config := DownmixConfig { dc_output_sample_rate : Z; dc_search_depth : Z; dc_handle_multiple_frames : Z }.

Record burst_downmix := BurstDownmix {
  output_sample_rate : Z;
  search_depth : Z;
  handle_multiple_frames : Z;
  samples_per_symbol : f32;
  input_fir : fir_filter;
  noise_fir : fir_filter;
  start_fir : fir_filter;
  rrc_fir : fir_filter;
  rc_fir : fir_filter;
  cfo_fft_size : Z;
  cfo_fft_total : Z;
  cfo_window : list f32;
  corr_fft_size : Z;
  sync_search_len : Z;
  dl_sync_fft : list c32;
  ul_sync_fft : list c32;
  dl_sync_len : Z;
  ul_sync_len : Z;
  work_size : Z;
  pre_start_samples : Z;
}.

Definition CFO_FFT_OVERSAMPLE : Z := 16.
Definition RRC_NTAPS : Z := 51.
Definition RC_NTAPS : Z := 51.
Definition RRC_ALPHA : f32 := f32_lit 2 5.
Definition START_THRESHOLD : f32 := f32_lit 45 100.
Definition PRE_START_US : Z := 100.
Definition IR_DEFAULT_SPS : Z := 10.
Definition IR_PREAMBLE_LENGTH_SHORT : Z := 16.
Definition IR_PREAMBLE_LENGTH_LONG : Z := 64.
Definition IR_SIMPLEX_FREQUENCY_MIN : Z := 1626000000.
Definition IR_MIN_FRAME_LENGTH_NORMAL : Z := 131.
Definition IR_MAX_FRAME_LENGTH_NORMAL : Z := 191.
Definition IR_MIN_FRAME_LENGTH_SIMPLEX : Z := 80.
Definition IR_MAX_FRAME_LENGTH_SIMPLEX : Z := 444.
Definition UW_LENGTH : Z := Z.of_nat IR_UW_LENGTH.

(** * Helpers *)

Fixpoint next_pow2_go (fuel : nat) (p n : Z) : Z :=
  match fuel with
  | O => p
  | S fuel => if p <? n then next_pow2_go fuel (Z.shiftl p 1) n else p
  end.
(** An [int] is below [2 ^ 31]. *)
Definition next_pow2 (n : Z) : Z := next_pow2_go 31 1 n.

(** The greatest power of two that is not above [raw], from [n] on. *)
Fixpoint floor_pow2_go (fuel : nat) (n raw : Z) : Z :=
  match fuel with
  | O => n
  | S fuel => if n * 2 <=? raw then floor_pow2_go fuel (n * 2) raw else n
  end.

Definition fft_unshift_index (idx size : Z) : Z := if Z.quot size 2 <=? idx then idx - size else idx.
Definition fft_shift_index (idx size : Z) : Z := if idx <? 0 then idx + size else idx.

(** [(int)roundf(x)]: halves away from zero, so the cut of [|x| + 1/2] computed
    exactly. *)
Definition roundf_int (x : f32) : Z := f64_trunc (f64_round x).
(** [(int)(n * x)] for an [int] and a [float]. *)
Definition int_times (n : Z) (x : f32) : Z := f64_trunc (f32_mul (f32_of_Z n) x).
(** [(uint64_t)x]. *)
Definition u64_of (x : f64) : Z := u64 (f64_trunc x).

(** The first element that exceeds all before it and the start value zero: the
    value and the index, zero when there is none. *)
Definition find_peak (mags : list f32) : f32 * Z :=
  fold_left (fun best im => if f32_gtb (snd im) (fst best) then (snd im, Z.of_nat (fst im)) else best) (zip (seq 0 (length mags)) mags) (f32_zero, 0).

(** The vertex of the parabola through three magnitudes. *)
Definition quadratic_correction (alpha beta gamma : f32) : f32 :=
  let denom := f32_add (f32_sub alpha (f32_mul (f32_of_Z 2) beta)) gamma in
  if f32_gtb (f32_abs denom) tiny10 then f32_div (f32_mul half (f32_sub alpha gamma)) denom else f32_zero.

(** Zeros behind the first elements of a buffer. *)
Definition zero_padded (l : list c32) (n : nat) : list c32 := take n l ++ replicate (n - length l) c_zero.

(** [memset] of [pad] elements, then [memcpy] of [l] at offset [o]. *)
Definition centred (o pad : nat) (l : list c32) : list c32 := replicate o c_zero ++ l ++ replicate (pad - o - length l) c_zero.

Section downmix.
Context (K : kernels) (fft_forward fft_backward : list c32 -> list c32).
Context (sinf cosf : f32 -> f32) (hypotf : f32 -> f32 -> f32) (cexpf : c32 -> c32).

(** * The sync words *)

Definition sym_s0 : c32 := c_of_parts f32_one f32_one.
Definition sym_s1 : c32 := C32 (f32_sub (f32_opp f32_one) (f32_mul f32_one f32_zero)) (f32_opp (f32_mul f32_one f32_one)).

Definition sync_symbols (uw : list Z) (preamble_len : nat) (is_uplink : bool) : list c32 :=
  map (fun i => if is_uplink then (if Nat.even i then sym_s1 else sym_s0) else sym_s0) (seq 0 preamble_len) ++
  map (fun u => if u =? 0 then sym_s0 else sym_s1) uw.

(** [isps - 1] zeros between two symbols. *)
Definition upsample (isps : nat) (symbols : list c32) : list c32 :=
  match symbols with
  | [] => []
  | s :: rest => s :: flat_map (fun x => replicate (isps - 1) c_zero ++ [x]) rest
  end.

(** The filtered sequence, reversed and conjugated. *)
Definition sync_template (rc : fir_filter) (padded : list c32) : list c32 :=
  let half_rc := Nat.div (ntaps rc - 1) 2 in
  let buf := centred half_rc (length padded + ntaps rc - 1) padded in
  let shaped := fir_filter_ccf K rc buf (length padded) in
  rev (map conjf shaped).

(** [generate_sync_word]: the transform of the template and its length. *)
Definition generate_sync_word (sps : f32) (rc : fir_filter) (corr_size : Z) (uw : list Z) (preamble_len : nat) (is_uplink : bool) : list c32 * Z :=
  let padded := upsample (Z.to_nat (roundf_int sps)) (sync_symbols uw preamble_len is_uplink) in
  (fft_forward (zero_padded (sync_template rc padded) (Z.to_nat corr_size)), Z.of_nat (length padded)).

(** * [burst_downmix_create] *)

Definition burst_downmix_create (config : option downmix_config) : burst_downmix :=
  let rate := match config with
              | Some c => if 0 <? dc_output_sample_rate c then dc_output_sample_rate c else IR_DEFAULT_SPS * IR_SYMBOLS_PER_SECOND
              | None => IR_DEFAULT_SPS * IR_SYMBOLS_PER_SECOND
              end in
  let ratef := f32_of_Z rate in
  let sps := f32_div ratef (f32_of_Z IR_SYMBOLS_PER_SECOND) in
  let depth := match config with Some c => if 0 <? dc_search_depth c then dc_search_depth c else rate | None => rate end in
  let multi := match config with Some c => dc_handle_multiple_frames c | None => 0 end in
  let pre_start := f64_trunc (f32_mul (f32_mul (f32_of_Z PRE_START_US) tiny6) ratef) in
  let input := fir_filter_create (lpf_taps sinf cosf f32_one (f32_of_Z 10000000) (f32_mul ratef (f32_lit 2 5)) (f32_mul ratef (f32_lit 1 5))) in
  let burst_width := f32_of_Z 40000 in
  let noise := fir_filter_create (lpf_taps sinf cosf f32_one ratef (f32_div burst_width (f32_of_Z 2)) burst_width) in
  let box_len := f64_trunc (f32_mul sps (f32_of_Z 2)) in
  let start := fir_filter_create (box_taps (if box_len <? 3 then 3 else box_len)) in
  let rrc := fir_filter_create (rrc_taps sinf cosf f32_one ratef (f32_of_Z IR_SYMBOLS_PER_SECOND) RRC_ALPHA RRC_NTAPS) in
  let rc := fir_filter_create (rc_taps sinf cosf ratef (f32_of_Z IR_SYMBOLS_PER_SECOND) RRC_ALPHA RC_NTAPS) in
  let cfo_size := floor_pow2_go 31 1 (f64_trunc (f32_mul sps (f32_of_Z 26))) in
  let search_len := int_times (IR_PREAMBLE_LENGTH_LONG + UW_LENGTH + 8) sps in
  let ul_sync_samples := int_times (IR_PREAMBLE_LENGTH_SHORT + UW_LENGTH) sps in
  let corr_size := next_pow2 (search_len + ul_sync_samples) in
  let '(dl_fft, dl_len) := generate_sync_word sps rc corr_size IR_UW_DL (Z.to_nat IR_PREAMBLE_LENGTH_SHORT) false in
  let '(ul_fft, ul_len) := generate_sync_word sps rc corr_size IR_UW_UL (Z.to_nat IR_PREAMBLE_LENGTH_SHORT) true in
  BurstDownmix rate depth multi sps input noise start rrc rc cfo_size (cfo_size * CFO_FFT_OVERSAMPLE) (blackman_window cosf cfo_size)
    corr_size search_len dl_fft ul_fft dl_len ul_len (2 * 1024 * 1024) pre_start.

(** * Steps *)

Context (dm : burst_downmix).

Definition fits (n : Z) : bool := n <=? work_size dm.

(** [decimate_burst]: the samples and the delay of the filter in nanoseconds. *)
Definition decimation (in_sample_rate : Z) : Z :=
  let d := roundf_int (f32_div (f32_of_Z in_sample_rate) (f32_of_Z (output_sample_rate dm))) in if d <? 1 then 1 else d.
Definition decimate_burst (inp : list c32) (in_sample_rate : Z) : list c32 * Z :=
  let d := decimation in_sample_rate in
  let n_out := Z.quot (Z.of_nat (length inp) - Z.of_nat (ntaps (input_fir dm)) + 1) d in
  if n_out <=? 0 then ([], 0)
  else
    let n_out := if work_size dm <? n_out then work_size dm else n_out in
    (fir_filter_ccf_dec K (input_fir dm) inp (Z.to_nat n_out) (Z.to_nat d),
     Z.quot (Z.of_nat (Nat.div (ntaps (input_fir dm)) 2) * 1000000000) in_sample_rate).

(** A filter whose output is aligned with its input: the input is copied to the
    middle of a zeroed buffer. *)
Definition centred_filter (f : fir_filter) (l : list c32) : option (list c32) :=
  let len := Z.of_nat (length l) in
  let half_taps := Nat.div (ntaps f - 1) 2 in
  let pad_len := len + Z.of_nat (ntaps f) - 1 in
  let pad_len := if work_size dm <? pad_len then work_size dm else pad_len in
  if fits (Z.of_nat half_taps + len) && fits (len + Z.of_nat (ntaps f) - 1) then
    Some (fir_filter_ccf K f (centred half_taps (Z.to_nat pad_len) l) (length l))
  else None.

Definition noise_filter (l : list c32) : option (list c32) :=
  let nlpf_len := Z.of_nat (length l) - Z.of_nat (ntaps (noise_fir dm)) + 1 in
  if 0 <? nlpf_len then centred_filter (noise_fir dm) l else Some l.

(** The first element that is not below the threshold, or the length. *)
Fixpoint first_at_least (threshold : f32) (l : list f32) : Z :=
  match l with
  | [] => 0
  | x :: rest => if f32_leb threshold x then 0 else 1 + first_at_least threshold rest
  end.

Definition find_burst_start (frame : list c32) : Z :=
  let frame_len := Z.of_nat (length frame) in
  let taps := Z.of_nat (ntaps (start_fir dm)) in
  let search := if frame_len <? search_depth dm then frame_len else search_depth dm in
  let mag_len := search + taps - 1 in
  let mag_len := if frame_len <? mag_len then frame_len else mag_len in
  let mag_f := simd_mag_squared K frame (Z.to_nat mag_len) in
  let half_fir := Z.quot (taps - 1) 2 in
  let filtered_len := mag_len - taps + 1 in
  if filtered_len <=? 0 then 0
  else
    let filtered_len := if search <? filtered_len then search else filtered_len in
    let filtered := fir_filter_fff K (start_fir dm) mag_f (Z.to_nat filtered_len) in
    let max_val := simd_max_float K filtered (Z.to_nat filtered_len) in
    let start := first_at_least (f32_mul START_THRESHOLD max_val) filtered in
    if 0 <? start then
      let start := start + half_fir - pre_start_samples dm in if start <? 0 then 0 else start
    else start.

(** [estimate_fine_cfo]: in cycles per sample. *)
Definition estimate_fine_cfo (frame : list c32) : f32 :=
  let total := cfo_fft_total dm in
  let n := if Z.of_nat (length frame) <? cfo_fft_size dm then Z.of_nat (length frame) else cfo_fft_size dm in
  let out := fft_forward (zero_padded (simd_csquare_window K frame (cfo_window dm) (Z.to_nat n)) (Z.to_nat total)) in
  let mag i := mag2 (out !!! Z.to_nat i) in
  let '(max_mag, max_idx_shifted) := find_peak (map mag2 (take (Z.to_nat total) out)) in
  let max_idx := fft_unshift_index max_idx_shifted total in
  let correction :=
    if (0 <? max_idx_shifted) && (max_idx_shifted <? total - 1) then
      quadratic_correction (mag (fft_shift_index (max_idx - 1) total)) max_mag (mag (fft_shift_index (max_idx + 1) total))
    else f32_zero in
  f32_div (f32_div (f32_add (f32_of_Z max_idx) correction) (f32_of_Z total)) (f32_of_Z 2).

(** [correlate_sync]: direction, start of the unique word, sub-sample correction
    and the value of the correlation there. *)
Definition preamble_symbols (direction : ir_direction) : Z :=
  match direction with DIR_DOWNLINK => IR_PREAMBLE_LENGTH_SHORT | _ => 32 end.
Definition sync_len (direction : ir_direction) : Z := match direction with DIR_DOWNLINK => dl_sync_len dm | _ => ul_sync_len dm end.
Definition uw_position (direction : ir_direction) (corr_offset : Z) : Z :=
  let preamble_offset := corr_offset - sync_len direction + 1 in
  preamble_offset + int_times (preamble_symbols direction) (samples_per_symbol dm).

Definition correlate_sync (frame : list c32) : ir_direction * Z * f32 * c32 :=
  let frame_len := Z.of_nat (length frame) in
  let search_len := if frame_len <? sync_search_len dm then frame_len else sync_search_len dm in
  let fwd := fft_forward (zero_padded (take (Z.to_nat search_len) frame) (Z.to_nat (corr_fft_size dm))) in
  let correlation sync := fft_backward (zip_with c_mul fwd sync) in
  let dl := correlation (dl_sync_fft dm) in
  let ul := correlation (ul_sync_fft dm) in
  let '(max_dl, offset_dl) := find_peak (map mag2 (take (Z.to_nat search_len) dl)) in
  let '(max_ul, offset_ul) := find_peak (map mag2 (take (Z.to_nat search_len) ul)) in
  let '(direction, corr_offset, ifft_out) := if f32_leb max_ul max_dl then (DIR_DOWNLINK, offset_dl, dl) else (DIR_UPLINK, offset_ul, ul) in
  let mag i := mag2 (ifft_out !!! Z.to_nat i) in
  let correction :=
    if (0 <? corr_offset) && (corr_offset <? search_len - 1) then
      quadratic_correction (mag (corr_offset - 1)) (mag corr_offset) (mag (corr_offset + 1))
    else f32_zero in
  (direction, uw_position direction corr_offset, correction, ifft_out !!! Z.to_nat corr_offset).

(** A frequency shift by [-rel] cycles per sample. *)
Definition shift_frequency (rel : f32) (l : list c32) : list c32 :=
  let phase_inc := f32_mul (f32_mul (f32_of_Z (-2)) PIf) rel in
  (rotator_rotate_n hypotf c_one (cexpf (C32 (f32_mul phase_inc f32_zero) (f32_mul phase_inc f32_one))) l).1.

Definition align_phase (corr_result : c32) (l : list c32) : list c32 :=
  let mag := hypotf (c_re corr_result) (c_im corr_result) in
  let phase_correction := if f32_gtb mag f32_zero then conjf (c_div_r corr_result mag) else c_one in
  (rotator_rotate_n hypotf phase_correction c_one l).1.

(** The shortest and the longest frame at a frequency, in samples. *)
Definition frame_limits (center_frequency : f64) : Z * Z :=
  if f64_gtb center_frequency (f64_of_Z IR_SIMPLEX_FREQUENCY_MIN) then
    (int_times IR_MIN_FRAME_LENGTH_SIMPLEX (samples_per_symbol dm), int_times IR_MAX_FRAME_LENGTH_SIMPLEX (samples_per_symbol dm))
  else (int_times IR_MIN_FRAME_LENGTH_NORMAL (samples_per_symbol dm), int_times IR_MAX_FRAME_LENGTH_NORMAL (samples_per_symbol dm)).

Definition add_ns (t : Z) (samples rate : Z) : Z :=
  u64 (t + u64_of (f64_mul (f64_div (f64_of_Z samples) (f64_of_Z rate)) (f64_of_Z 1000000000))).

(** Steps 7 to 9: [frame] is the matched-filter output, [start] its position. *)
Definition extract_frame (burst : burst_data) (center_frequency : f64) (timestamp start : Z) (frame : list c32) : option downmix_frame :=
  let frame_len := Z.of_nat (length frame) in
  let '(direction, uw_start, correction, corr_result) := correlate_sync frame in
  if (uw_start <? 0) || (frame_len <=? uw_start) then None
  else
    let aligned := align_phase corr_result frame in
    let '(min_frame_len, max_frame_len) := frame_limits center_frequency in
    let available := frame_len - uw_start in
    if available <? min_frame_len then None
    else
      let extract_len := if available <? max_frame_len then available else max_frame_len in
      let i := bd_info burst in
      Some (DownmixFrame (bi_id i) (add_ns timestamp start (output_sample_rate dm)) center_frequency (f32_of_Z (output_sample_rate dm))
              (samples_per_symbol dm) direction (bi_magnitude i) (bi_noise i) correction
              (take (Z.to_nat extract_len) (drop (Z.to_nat uw_start) aligned))).

(** [burst_downmix_process]: the frame, if there is one; [None] is an access
    outside a work buffer. *)
Definition burst_downmix_process (burst : burst_data) : option (option downmix_frame) :=
  if (length (bd_samples burst) <? 100)%nat then Some None
  else
    let work := take (Z.to_nat (work_size dm)) (bd_samples burst) in
    let rate := bd_sample_rate burst in
    let timestamp := add_ns (bd_start_time_ns burst) (bi_start (bd_info burst)) rate in
    let relative_freq := f32_div (f32_of_Z (bi_center_bin (bd_info burst) - Z.quot (bd_fft_size burst) 2)) (f32_of_Z (bd_fft_size burst)) in
    let work := shift_frequency relative_freq work in
    let center := f64_add (bd_center_frequency burst) (f64_of_f32 (f32_mul relative_freq (f32_of_Z rate))) in
    let '(decimated, delay_ns) := decimate_burst work rate in
    if (length decimated <? 100)%nat then Some None
    else
      let timestamp := u64 (timestamp + delay_ns) in
      filtered ← noise_filter decimated;
      let start := find_burst_start filtered in
      if Z.of_nat (length filtered) - 100 <=? start then Some None
      else
        let frame := drop (Z.to_nat start) filtered in
        let center_offset := estimate_fine_cfo frame in
        let frame := shift_frequency center_offset frame in
        let center := f64_add center (f64_of_f32 (f32_mul center_offset (f32_of_Z (output_sample_rate dm)))) in
        matched ← centred_filter (rrc_fir dm) frame;
        Some (extract_frame burst center timestamp start matched).

(** [burst_downmix_thread], for the bursts taken from the queue until it closes:
    the frames queued and the number dropped because the frame queue was full
    ([full], one answer per frame offered). *)
Fixpoint burst_downmix_thread (bursts : list burst_data) (full : list bool) : option (list downmix_frame * Z) :=
  match bursts with
  | [] => Some ([], 0)
  | b :: rest =>
      r ← burst_downmix_process b;
      match r with
      | None => burst_downmix_thread rest full
      | Some f =>
          '(frames, drops) ← burst_downmix_thread rest (tail full);
          Some (if hd false full then (frames, drops + 1) else (f :: frames, drops))
      end
  end.
End downmix.

(** * Lengths *)

Lemma length_lpf_taps sinf cosf g r c t : length (lpf_taps sinf cosf g r c t) = Z.to_nat (lpf_ntaps r t).
Proof. unfold lpf_taps. destruct (f32_ltb _ _); by rewrite ?length_map, length_seq. Qed.

Lemma length_rrc_taps sinf cosf g r s a n : length (rrc_taps sinf cosf g r s a n) = Z.to_nat (make_odd n).
Proof. unfold rrc_taps, tap_times. by rewrite !length_map, length_seq. Qed.

Lemma length_centred o n l : (o + length l <= n)%nat -> length (centred o n l) = n.
Proof. intros H. unfold centred. rewrite !length_app, !length_replicate. lia. Qed.

Lemma first_at_least_bounds t l : 0 <= first_at_least t l <= Z.of_nat (length l).
Proof. induction l as [|x l IH]; cbn [first_at_least length]; [lia|]. destruct (f32_leb t x); lia. Qed.

Lemma find_burst_start_nonneg K dm l : 0 <= find_burst_start K dm l.
Proof.
  unfold find_burst_start. destruct (_ <=? 0); [done|]. set (st := first_at_least _ _). pose proof (first_at_least_bounds : forall t l, _) as Hb.
  assert (0 <= st) by (unfold st; apply Hb). destruct (0 <? st); [|done]. zguards.
Qed.

Lemma correlate_direction ff fb dm frame : let d := (correlate_sync ff fb dm frame).1.1.1 in d = DIR_DOWNLINK \/ d = DIR_UPLINK.
Proof.
  unfold correlate_sync. do 2 match goal with |- context [find_peak ?l] => destruct (find_peak l) as [? ?] end.
  match goal with |- context [f32_leb ?a ?b] => destruct (f32_leb a b) end; cbn [fst]; tauto.
Qed.

Section default.
Context (K : kernels) {HK : KernelsOk K} (fft_forward fft_backward : list c32 -> list c32).
Context (sinf cosf : f32 -> f32) (hypotf : f32 -> f32 -> f32) (cexpf : c32 -> c32).

(** The context of the program: all settings zero. *)
Definition default_config : downmix_config := DownmixConfig 0 0 0.
#[local] Abbreviation dm0 := (burst_downmix_create K fft_forward sinf cosf (Some default_config)).

Lemma default_input_taps : ntaps (input_fir dm0) = 801%nat.
Proof. unfold burst_downmix_create, generate_sync_word. cbn [input_fir fir_filter_create ntaps]. rewrite length_lpf_taps. by vm_compute. Qed.
Lemma default_noise_taps : ntaps (noise_fir dm0) = 25%nat.
Proof. unfold burst_downmix_create, generate_sync_word. cbn [noise_fir fir_filter_create ntaps]. rewrite length_lpf_taps. by vm_compute. Qed.
Lemma default_rrc_taps : ntaps (rrc_fir dm0) = 51%nat.
Proof. unfold burst_downmix_create, generate_sync_word. cbn [rrc_fir fir_filter_create ntaps]. by rewrite length_rrc_taps. Qed.
Lemma default_sps : samples_per_symbol dm0 = f32_of_Z 10.
Proof. unfold burst_downmix_create, generate_sync_word. cbn [samples_per_symbol]. by vm_compute. Qed.
Lemma default_work : work_size dm0 = 2097152.
Proof. done. Qed.
Lemma default_rate : output_sample_rate dm0 = 250000.
Proof. done. Qed.
Lemma default_sync_len d : sync_len dm0 d = 271.
Proof. unfold burst_downmix_create, generate_sync_word. destruct d; cbn [sync_len dl_sync_len ul_sync_len]; by vm_compute. Qed.

(** The burst after decimation leaves room for the later filters. *)
Lemma decimated_short burst rate : Z.of_nat (length burst) <= 2097152 -> Z.of_nat (length (decimate_burst K dm0 burst rate).1) <= 2096352.
Proof using HK.
  intros Hb. unfold decimate_burst. rewrite default_input_taps, default_work. set (d := decimation dm0 rate).
  assert (1 <= d) by (unfold d, decimation; zguards). set (n_out := Z.quot _ d). destruct (Z.leb_spec n_out 0); [cbn; lia|].
  assert (n_out <= 2096352).
  { unfold n_out in *. set (m := Z.of_nat (length burst) - Z.of_nat 801 + 1) in *. destruct (decide (0 <= m)) as [Hm|Hm].
    - rewrite Z.quot_div_nonneg by lia. apply Z.div_le_upper_bound; nia.
    - assert (Z.quot m d <= 0) by (replace m with (- (- m)) by lia; rewrite Z.quot_opp_l by lia; pose proof (Z.quot_pos (- m) d); lia). lia. }
  unfold fir_filter_ccf_dec. cbn [fst]. rewrite length_fir_ccf_dec. destruct (Z.ltb_spec 2097152 n_out); lia.
Qed.

Lemma centred_filter_some f l : (1 <= ntaps f <= 100)%nat -> Z.of_nat (length l) <= 2096352 ->
  exists l', centred_filter K dm0 f l = Some l' /\ length l' = length l.
Proof using HK.
  intros Hf Hl. unfold centred_filter, fits. rewrite default_work.
  assert (Nat.div (ntaps f - 1) 2 <= 50)%nat by (apply Nat.Div0.div_le_upper_bound; lia).
  rewrite (proj2 (Z.leb_le (Z.of_nat (Nat.div (ntaps f - 1) 2) + Z.of_nat (length l)) _)) by lia.
  rewrite (proj2 (Z.leb_le (Z.of_nat (length l) + Z.of_nat (ntaps f) - 1) _)) by lia. cbn [andb].
  eexists. split; [reflexivity|]. unfold fir_filter_ccf. by rewrite length_fir_ccf.
Qed.

Lemma length_shift_frequency r l : length (shift_frequency hypotf cexpf r l) = length l.
Proof. apply length_rotator. Qed.

(** The frames the downmixer hands on. *)
Definition frame_ok (f : downmix_frame) : Prop :=
  dm_samples_per_symbol f = f32_of_Z 10 /\ dm_sample_rate f = f32_of_Z 250000 /\
  (dm_direction f = DIR_DOWNLINK \/ dm_direction f = DIR_UPLINK) /\
  (if f64_gtb (dm_center_frequency f) (f64_of_Z IR_SIMPLEX_FREQUENCY_MIN) then 800 <= num_samples f <= 4440 else 1310 <= num_samples f <= 1910).

Lemma limits_ten : int_times IR_MIN_FRAME_LENGTH_SIMPLEX (f32_of_Z 10) = 800 /\ int_times IR_MAX_FRAME_LENGTH_SIMPLEX (f32_of_Z 10) = 4440 /\
  int_times IR_MIN_FRAME_LENGTH_NORMAL (f32_of_Z 10) = 1310 /\ int_times IR_MAX_FRAME_LENGTH_NORMAL (f32_of_Z 10) = 1910.
Proof. by vm_compute. Qed.

Lemma extract_frame_ok burst c t st frame f : extract_frame fft_forward fft_backward hypotf dm0 burst c t st frame = Some f -> frame_ok f.
Proof using HK.
  unfold extract_frame. destruct (correlate_sync _ _ _ _) as [[[d uw] corr] res] eqn:Ec. destruct ((uw <? 0) || _) eqn:Eu; [done|].
  apply orb_false_iff in Eu as [Eu1 Eu2]. apply Z.ltb_ge in Eu1. apply Z.leb_gt in Eu2.
  assert (d = DIR_DOWNLINK \/ d = DIR_UPLINK) as Hd.
  { pose proof (correlate_direction fft_forward fft_backward dm0 frame) as H. by rewrite Ec in H. }
  unfold frame_limits. rewrite default_sps, default_rate.
  assert (length (align_phase hypotf res frame) = length frame) as Hal by apply length_rotator.
  destruct limits_ten as (-> & -> & -> & ->). destruct (f64_gtb c _) eqn:Es; cbv zeta;
    (match goal with |- context [Z.of_nat (length frame) - uw <? ?n] => destruct (Z.ltb_spec (Z.of_nat (length frame) - uw) n) end; [done|]); intros [= <-]; unfold frame_ok; cbn [dm_samples_per_symbol dm_sample_rate dm_direction dm_center_frequency];
    rewrite Es; (split; [done|]); (split; [done|]); (split; [done|]); unfold num_samples; cbn [dm_samples];
    rewrite length_take, length_drop, Hal; zguards.
Qed.
End default.

Lemma downmix_safe K fft_forward fft_backward sinf cosf hypotf cexpf burst : KernelsOk K ->
  let dm := burst_downmix_create K fft_forward sinf cosf (Some default_config) in
  match burst_downmix_process K fft_forward fft_backward hypotf cexpf dm burst with
  | None => False
  | Some None => True
  | Some (Some f) => frame_ok f
  end.
Proof.
  intros HK dm. unfold burst_downmix_process. destruct (_ <? 100)%nat; [done|]. set (work := shift_frequency _ _ _ _).
  assert (Z.of_nat (length work) <= 2097152) as Hw.
  { unfold work. rewrite length_shift_frequency, length_take. unfold dm. rewrite default_work. lia. }
  pose proof (decimated_short K fft_forward sinf cosf work (bd_sample_rate burst) Hw) as Hd. fold dm in Hd.
  destruct (decimate_burst K dm work (bd_sample_rate burst)) as [dec delay]. cbn [fst] in Hd. destruct (_ <? 100)%nat; [done|].
  assert (exists filtered, noise_filter K dm dec = Some filtered /\ length filtered = length dec) as (filtered & -> & Hfl).
  { unfold noise_filter. destruct (0 <? _); [|by eexists]. apply centred_filter_some; [done| |done]. unfold dm. rewrite default_noise_taps. lia. }
  cbn [mbind option_bind]. destruct (_ <=? _); [done|]. set (frame := shift_frequency _ _ _ _).
  pose proof (centred_filter_some K fft_forward sinf cosf (rrc_fir dm) frame) as Hr. fold dm in Hr.
  destruct Hr as (matched & -> & _); [unfold dm; rewrite default_rrc_taps; lia|unfold frame; rewrite length_shift_frequency, length_drop; lia|].
  cbn [mbind option_bind]. destruct (extract_frame _ _ _ _ _ _ _ _ _) eqn:E; [|done]. by eapply extract_frame_ok.
Qed.

(** ** Floats in, floats out *)

(** The functions of libm return floats. *)
Class FloatLibm (sinf cosf : f32 -> f32) (cexpf : c32 -> c32) : Prop := {
  sinf_canonical x : canonical32 (sinf x);
  cosf_canonical x : canonical32 (cosf x);
  cexpf_canon z : c_canon (cexpf z);
}.

Section canonical_frames.
Context (K : kernels) {HC : KernelsCanon K} (fft_forward fft_backward : list c32 -> list c32).
Context (sinf cosf : f32 -> f32) (hypotf : f32 -> f32 -> f32) (cexpf : c32 -> c32) {HL : FloatLibm sinf cosf cexpf}.
#[local] Abbreviation dm0 := (burst_downmix_create K fft_forward sinf cosf (Some default_config)).

Lemma default_taps_canonical : Forall (canonical 24 128) (fir_taps (input_fir dm0)) /\ Forall (canonical 24 128) (fir_taps (noise_fir dm0)) /\
  Forall (canonical 24 128) (fir_taps (rrc_fir dm0)).
Proof using HL.
  unfold burst_downmix_create, generate_sync_word. cbn [input_fir noise_fir rrc_fir]. destruct HL as [Hs Hc _].
  split_and!; apply fir_filter_create_canonical; [apply lpf_taps_canonical|apply lpf_taps_canonical|apply rrc_taps_canonical];
    done || apply f32_lit_canonical.
Qed.

Lemma shift_frequency_canon r l : Forall c_canon l -> Forall c_canon (shift_frequency hypotf cexpf r l).
Proof using HL. intros Hl. apply rotator_canon; [apply c_one_canon|apply cexpf_canon|done]. Qed.

Lemma align_phase_canon z l : Forall c_canon l -> Forall c_canon (align_phase hypotf z l).
Proof. intros Hl. apply rotator_canon; [destruct (f32_gtb _ _)|..]; auto with canon. Qed.

Lemma centred_filter_canon f l l' : Forall (canonical 24 128) (fir_taps f) -> Forall c_canon l -> centred_filter K dm0 f l = Some l' -> Forall c_canon l'.
Proof using HC.
  intros Hf Hl. unfold centred_filter. destruct (_ && _); [|done]. intros [= <-]. apply fir_ccf_canon; [done|]. unfold centred.
  rewrite !Forall_app. repeat split; [|done|]; apply Forall_replicate, c_zero_canon.
Qed.

(** The samples of a frame are floats when those of the burst are. *)
Lemma downmix_canon burst f : Forall c_canon (bd_samples burst) ->
  burst_downmix_process K fft_forward fft_backward hypotf cexpf dm0 burst = Some (Some f) -> Forall c_canon (dm_samples f).
Proof using HC HL.
  intros Hb. destruct default_taps_canonical as (Ti & Tn & Tr). pose proof centred_filter_canon as Hcf. set (dm := dm0) in *. clearbody dm.
  unfold burst_downmix_process. destruct (_ <? 100)%nat; [done|]. set (work := shift_frequency _ _ _ _).
  assert (Forall c_canon work) as Hw by by apply shift_frequency_canon, Forall_take.
  assert (Forall c_canon (decimate_burst K dm work (bd_sample_rate burst)).1) as Hd.
  { unfold decimate_burst. destruct (_ <=? 0); [constructor|]. by apply fir_ccf_dec_canon. }
  destruct (decimate_burst K dm work _) as [dec delay]. cbn [fst] in Hd. destruct (_ <? 100)%nat; [done|].
  destruct (noise_filter K dm dec) as [filtered|] eqn:En; [|done]. cbn [mbind option_bind].
  assert (Forall c_canon filtered) as Hfi by (unfold noise_filter in En; destruct (0 <? _); [exact (Hcf _ _ _ Tn Hd En)|by simplify_eq]).
  destruct (_ <=? _); [done|]. match goal with |- context [centred_filter K dm (rrc_fir dm) ?l] => set (frame := l) end.
  assert (Forall c_canon frame) as Hfr by by apply shift_frequency_canon, Forall_drop. clearbody frame.
  destruct (centred_filter K dm (rrc_fir dm) frame) as [matched|] eqn:Em; [|done]. cbn [mbind option_bind].
  apply (Hcf _ _ _ Tr Hfr) in Em. unfold extract_frame. destruct (correlate_sync _ _ _ _) as [[[d uw] corr] res]. destruct (_ || _); [done|].
  destruct (frame_limits dm _) as [lo hi]. destruct (_ <? lo); [done|]. intros [= <-]. cbn [dm_samples]. by apply Forall_take, Forall_drop, align_phase_canon.
Qed.
End canonical_frames.

(** * Properties *)

(** C11 (bounds). With the settings of the program no burst, however long and
    whatever its samples and rate, makes the downmixer touch memory outside its
    work buffers; a frame it hands on has ten samples per symbol, a definite
    direction and between 800 and 4440 samples, or between 1310 and 1910 below
    1626 MHz.  This holds for any transforms, any libm and any kernels that fill
    what they are asked to fill. *)
Theorem downmix_in_bounds K fft_forward fft_backward sinf cosf hypotf cexpf burst : KernelsOk K ->
  let dm := burst_downmix_create K fft_forward sinf cosf (Some default_config) in
  match burst_downmix_process K fft_forward fft_backward hypotf cexpf dm burst with
  | None => False
  | Some None => True
  | Some (Some f) => frame_ok f
  end.
Proof. apply downmix_safe. Qed.

Lemma downmix_in_bounds_witness :
  let dm := burst_downmix_create generic_kernels id id id (Some default_config) in
  let burst := BurstData (BurstInfo 10 0 0 0 700 (f32_of_Z 20) (f32_of_Z (-90))) (f64_of_Z 1622000000) 10000000 8192 0 (replicate (Z.to_nat 90000) c_one) in
  match burst_downmix_process generic_kernels id id (fun x _ => x) id dm burst with
  | None => False
  | Some None => True
  | Some (Some f) => frame_ok f
  end.
Proof. apply (downmix_in_bounds generic_kernels id id id id (fun x _ => x) id). apply generic_kernels_ok. Defined.

(** * Where the frame starts *)

(** The first of the largest magnitudes; the start when none is above zero. *)
Definition is_peak (mags : list f32) (p : nat) (m : f32) : Prop :=
  (forall j x, mags !! j = Some x -> f32_ltb m x = false) /\
  (p = 0%nat /\ m = f32_zero \/
   mags !! p = Some m /\ f32_ltb f32_zero m = true /\ forall j x, (j < p)%nat -> mags !! j = Some x -> f32_leb m x = false).

Lemma find_peak_snoc mags x :
  find_peak (mags ++ [x]) = let best := find_peak mags in if f32_gtb x (fst best) then (x, Z.of_nat (length mags)) else best.
Proof.
  unfold find_peak. rewrite length_app, seq_app, zip_with_app, fold_left_app by by rewrite length_seq. done.
Qed.

Lemma find_peak_spec mags : is_peak mags (Z.to_nat (snd (find_peak mags))) (fst (find_peak mags)) /\ 0 <= snd (find_peak mags).
Proof.
  induction mags as [|x mags [[Hle Hat] H0]] using rev_ind; [split; [split; [done|by left]|done]|].
  rewrite find_peak_snoc. destruct (find_peak mags) as [m k]. cbn [fst snd] in *. cbv zeta.
  unfold f32_gtb. change (SFltb m x) with (f32_ltb m x). destruct (f32_ltb m x) eqn:E; cbn [fst snd]; (split; [|lia]).
  - rewrite Nat2Z.id. split.
    + intros j y Hj. apply lookup_app_Some in Hj as [Hj|[_ Hj]].
      * apply not_true_iff_false. intros Hxy. pose proof (f32_ltb_trans _ _ _ E Hxy) as H. by rewrite (Hle j y Hj) in H.
      * apply list_lookup_singleton_Some in Hj as [_ <-]. apply f32_ltb_irrefl.
    + right. split; [by rewrite lookup_app_r, Nat.sub_diag by lia|]. split.
      * destruct Hat as [[_ ->]|(_ & Hm & _)]; [done|by apply (f32_ltb_trans _ m)].
      * intros j y Hj Hy. rewrite lookup_app_l in Hy by done. apply not_true_iff_false. intros Hxy.
        assert (f32_ltb m y = true) as H by exact (f64_ltb_leb_trans _ _ _ E Hxy). by rewrite (Hle j y Hy) in H.
  - split.
    + intros j y Hj. apply lookup_app_Some in Hj as [Hj|[_ Hj]]; [by apply (Hle j)|]. by apply list_lookup_singleton_Some in Hj as [_ <-].
    + destruct Hat as [Hat|(Hk & Hm & Hf)]; [by left|right]. split; [by apply lookup_app_l_Some|]. split; [done|].
      intros j y Hj Hy. apply (Hf j y Hj). rewrite lookup_app_l in Hy; [done|]. apply lookup_lt_Some in Hk. lia.
Qed.

(** The template of a sync word, one symbol in ten samples. *)
Definition template (dir : ir_direction) : list c32 := upsample 10 (sync_symbols (uw_of dir) 16 (bool_decide (dir = DIR_UPLINK))).

Section alignment.
Context (K : kernels) (fft_forward fft_backward : list c32 -> list c32) (sinf cosf : f32 -> f32).
#[local] Abbreviation dm0 := (burst_downmix_create K fft_forward sinf cosf (Some default_config)).

(** The correlation of the first 840 samples with the sync word of a direction. *)
Definition correlation (dir : ir_direction) (frame : list c32) : list c32 :=
  fft_backward (zip_with c_mul (fft_forward (zero_padded (take 840 frame) 2048))
    (fft_forward (zero_padded (sync_template K (rc_fir dm0) (template dir)) 2048))).

Lemma default_spectrum : dl_sync_fft dm0 = fft_forward (zero_padded (sync_template K (rc_fir dm0) (template DIR_DOWNLINK)) 2048) /\
  ul_sync_fft dm0 = fft_forward (zero_padded (sync_template K (rc_fir dm0) (template DIR_UPLINK)) 2048).
Proof.
  unfold burst_downmix_create. unfold generate_sync_word. cbn [dl_sync_fft ul_sync_fft rc_fir]. unfold template.
  match goal with |- context [upsample (Z.to_nat ?n) (sync_symbols IR_UW_DL _ _)] => assert (Z.to_nat n = 10%nat) as -> by (vm_compute; reflexivity) end.
  match goal with |- context [Z.to_nat (next_pow2 ?n)] => assert (Z.to_nat (next_pow2 n) = 2048%nat) as -> by (vm_compute; reflexivity) end.
  by split.
Qed.
Lemma default_search : sync_search_len dm0 = 840 /\ corr_fft_size dm0 = 2048.
Proof. unfold burst_downmix_create, generate_sync_word. cbn [sync_search_len corr_fft_size]. by vm_compute. Qed.

(** [correlate_sync] picks the direction with the larger peak, and its first peak. *)
Lemma correlate_peaks frame : exists p q m n,
  is_peak (map mag2 (take (length (take 840 frame)) (correlation DIR_DOWNLINK frame))) p m /\
  is_peak (map mag2 (take (length (take 840 frame)) (correlation DIR_UPLINK frame))) q n /\
  exists corr, correlate_sync fft_forward fft_backward dm0 frame =
    if f32_leb n m then (DIR_DOWNLINK, Z.of_nat p - 270 + 160, corr, correlation DIR_DOWNLINK frame !!! p)
    else (DIR_UPLINK, Z.of_nat q - 270 + 320, corr, correlation DIR_UPLINK frame !!! q).
Proof.
  unfold correlate_sync. destruct default_search as [-> ->]. destruct default_spectrum as [-> ->]. cbv zeta.
  assert (Z.to_nat (if Z.of_nat (length frame) <? 840 then Z.of_nat (length frame) else 840) = length (take 840 frame)) as ->
    by (rewrite length_take; zguards).
  assert (take (length (take 840 frame)) frame = take 840 frame) as -> by (rewrite length_take; destruct (Nat.min_spec 840 (length frame)) as [[_ ->]|[? ->]]; [done|by rewrite !take_ge by lia]).
  change (Z.to_nat 2048) with 2048%nat. fold (correlation DIR_DOWNLINK frame) (correlation DIR_UPLINK frame).
  match goal with |- context [find_peak (map mag2 (take ?k (correlation DIR_DOWNLINK frame)))] =>
    destruct (find_peak_spec (map mag2 (take k (correlation DIR_DOWNLINK frame)))) as [Hd Hd0];
    destruct (find_peak_spec (map mag2 (take k (correlation DIR_UPLINK frame)))) as [Hu Hu0] end.
  destruct (find_peak (map mag2 (take _ (correlation DIR_DOWNLINK frame)))) as [m p]. destruct (find_peak (map mag2 (take _ (correlation DIR_UPLINK frame)))) as [n q].
  cbn [fst snd] in *. exists (Z.to_nat p), (Z.to_nat q), m, n. split; [done|]. split; [done|]. rewrite !Z2Nat.id by done.
  destruct (f32_leb n m); eexists; unfold uw_position; rewrite default_sync_len, default_sps;
    [change (int_times (preamble_symbols DIR_DOWNLINK) _) with 160|change (int_times (preamble_symbols DIR_UPLINK) _) with 320]; repeat f_equal; lia.
Qed.
End alignment.

(** C28 (functional).  From the matched-filter output the frame is cut at the sync
    word: the first 840 samples are correlated with the templates of both directions,
    the direction with the larger peak is taken (the downlink on a tie), and the frame
    is the samples from where its unique word is expected, turned by the phase of the
    peak, as many as there are up to the longest frame; there is none when fewer than
    the shortest are left or the start lies before the burst.  A template has its
    unique word 160 samples from its start and is 271 long, so a correlation peak at [p] means a
    burst whose template starts at [p - 270]: a downlink frame begins with the unique word, an
    uplink frame sixteen symbols behind the start of it. *)
Theorem sync_alignment K fft_forward fft_backward sinf cosf hypotf burst center timestamp start frame :
  let dm := burst_downmix_create K fft_forward sinf cosf (Some default_config) in
  let corr dir := correlation K fft_forward fft_backward sinf cosf dir frame in
  let mags dir := map mag2 (take (length (take 840 frame)) (corr dir)) in
  let len := Z.of_nat (length frame) in
  (forall dir, length (template dir) = 271%nat /\
     forall j u, uw_of dir !! j = Some u -> template dir !! (160 + 10 * j)%nat = Some (if u =? 0 then sym_s0 else sym_s1)) /\
  exists p q m n, is_peak (mags DIR_DOWNLINK) p m /\ is_peak (mags DIR_UPLINK) q n /\
  let '(dir, peak, behind) := if f32_leb n m then (DIR_DOWNLINK, p, 0) else (DIR_UPLINK, q, 160) in
  let first := (Z.of_nat peak - 270) + 160 + behind in
  let '(shortest, longest) := if f64_gtb center (f64_of_Z IR_SIMPLEX_FREQUENCY_MIN) then (800, 4440) else (1310, 1910) in
  let r := extract_frame fft_forward fft_backward hypotf dm burst center timestamp start frame in
  if (0 <=? first) && (shortest <=? len - first) then
    exists f, r = Some f /\ dm_direction f = dir /\ dm_id f = bi_id (bd_info burst) /\ dm_center_frequency f = center /\
      dm_samples f = take (Z.to_nat (Z.min (len - first) longest)) (drop (Z.to_nat first) (align_phase hypotf (corr dir !!! peak) frame))
  else r = None.
Proof.
  intros dm corr mags len. split.
  { intros dir. split; [by destruct dir; vm_compute|]. intros j u. destruct dir; do 12 (destruct j as [|j]; [intros [= <-]; vm_compute; reflexivity|]); done. }
  destruct (correlate_peaks K fft_forward fft_backward sinf cosf frame) as (p & q & m & n & Hp & Hq & c & Hc).
  exists p, q, m, n. split; [exact Hp|]. split; [exact Hq|]. unfold extract_frame, frame_limits. fold dm in Hc. rewrite Hc. fold len.
  assert (samples_per_symbol dm = f32_of_Z 10) as -> by apply default_sps. destruct limits_ten as (-> & -> & -> & ->). clearbody dm.
  destruct (f32_leb n m), (f64_gtb center _); cbv zeta; zguards; try done; eexists; (split; [reflexivity|]); cbn [dm_direction dm_id dm_center_frequency dm_samples];
    (split; [done|]); (split; [done|]); (split; [done|]); do 2 f_equal; lia.
Qed.
