(* ===== verification/Gsmtap.v ===== *)
(** GSMTAP output, [src/gsmtap.c] and the callback [gsmtap_ida_cb] of
    [src/main.c]: the datagram for a reassembled message.

    [log10f] of libm is a parameter; the socket appears as the datagrams sent. *)
From S2P Require Import Prelude CFloat QpskDemod IdaReassemble.
#[local] Open Scope Z_scope.

(** * Definitions *)

Definition GSMTAP_VERSION : Z := 2.
Definition GSMTAP_HDR_LEN : Z := 4.
Definition GSMTAP_TYPE_ABIS : Z := 2.
Definition GSMTAP_SUB_BCCH : Z := 1.
Definition GSMTAP_ARFCN_F_UPLINK : Z := 0x4000.
Definition IR_BASE_FREQ : f64 := f64_of_Z 1616000000.
Definition IR_CHANNEL_WIDTH : f64 := S754_finite false 5726623107146318 (-37).

Record gsmtap_hdr_t := GsmtapHdr {
  g_version : Z;
  g_hdr_len : Z;
  g_type : Z;
  g_timeslot : Z;
  g_arfcn : Z;
  g_signal_dbm : Z;
  g_snr_db : Z;
  g_frame_number : Z;
  g_sub_type : Z;
  g_antenna_nr : Z;
  g_sub_slot : Z;
  g_res : Z;
}.

(** The packed structure, numbers in network order. *)
Definition net16 (n : Z) : list Z := [u8 (Z.shiftr n 8); u8 n].
Definition net32 (n : Z) : list Z := [u8 (Z.shiftr n 24); u8 (Z.shiftr n 16); u8 (Z.shiftr n 8); u8 n].
Definition hdr_bytes (h : gsmtap_hdr_t) : list Z :=
  [g_version h; g_hdr_len h; g_type h; g_timeslot h] ++ net16 (g_arfcn h) ++ [u8 (g_signal_dbm h); u8 (g_snr_db h)] ++
  net32 (g_frame_number h) ++ [g_sub_type h; g_antenna_nr h; g_sub_slot h; g_res h].

Definition fchan (frequency : f64) : Z := u16 (f64_trunc (f64_div (f64_sub frequency IR_BASE_FREQ) IR_CHANNEL_WIDTH)).

Definition gsmtap_send (is_open : bool) (data : list Z) (frequency : f64) (direction : ir_direction) (signal_dbm : Z) : option (list Z) :=
  if negb is_open || (length data =? 0)%nat then None
  else
    let arfcn := fchan frequency in
    let arfcn := match direction with DIR_UPLINK => Z.lor arfcn GSMTAP_ARFCN_F_UPLINK | _ => arfcn end in
    let len := if (240 <? length data)%nat then 240%nat else length data in
    let hdr := GsmtapHdr GSMTAP_VERSION GSMTAP_HDR_LEN GSMTAP_TYPE_ABIS 0 arfcn signal_dbm 0 (u32 (f64_trunc frequency)) GSMTAP_SUB_BCCH 0 0 0 in
    Some (hdr_bytes hdr ++ take len data).

(** The callback; a value outside [int8_t] is undefined in C and wraps here. *)
Definition signal_dbm (log10f : f32 -> f32) (magnitude : f32) : Z :=
  if f32_ltb (S754_zero false) magnitude then to_signed 8 (f64_trunc (f32_mul (f32_of_Z 20) (log10f magnitude))) else -128.

Definition gsmtap_ida_cb (log10f : f32 -> f32) (is_open : bool) (m : ida_message) : option (list Z) :=
  gsmtap_send is_open (m_data m) (m_frequency m) (m_direction m) (signal_dbm log10f (m_magnitude m)).

(** * Reading a datagram, as a receiver does *)

Record gsmtap_view := View { v_channel : Z; v_uplink : bool; v_signal : Z; v_hz : Z; v_data : list Z }.

Definition read_gsmtap (pkt : list Z) : option gsmtap_view :=
  if (pkt.[0%nat] =? 2) && (pkt.[2%nat] =? GSMTAP_TYPE_ABIS) && (pkt.[12%nat] =? GSMTAP_SUB_BCCH) then
    let arfcn := pkt.[4%nat] * 256 + pkt.[5%nat] in
    Some (View (arfcn mod 0x4000) (Z.testbit arfcn 14) (to_signed 8 pkt.[6%nat])
            (((pkt.[8%nat] * 256 + pkt.[9%nat]) * 256 + pkt.[10%nat]) * 256 + pkt.[11%nat])
            (drop (Z.to_nat (4 * pkt.[1%nat])) pkt))
  else None.

(** * Lemmas *)

Lemma net16_value n : 0 <= n < 2 ^ 16 -> u8 (Z.shiftr n 8) * 256 + u8 n = n.
Proof.
  intros Hn. unfold u8. rewrite Z.shiftr_div_pow2 by lia. change (2 ^ 8) with 256.
  rewrite (Z.mod_small (n / 256)) by (split; [apply Z.div_pos; lia|apply Z.div_lt_upper_bound; lia]).
  pose proof (Z.div_mod n 256 ltac:(lia)). lia.
Qed.

Lemma net32_value n : 0 <= n < 2 ^ 32 ->
  ((u8 (Z.shiftr n 24) * 256 + u8 (Z.shiftr n 16)) * 256 + u8 (Z.shiftr n 8)) * 256 + u8 n = n.
Proof.
  intros Hn. unfold u8. rewrite !Z.shiftr_div_pow2 by lia. change (2 ^ 8) with 256. change (2 ^ 16) with (256 * 256). change (2 ^ 24) with (256 * 256 * 256).
  rewrite <- !Z.div_div by lia. set (a := n / 256). set (b := a / 256). set (c := b / 256).
  assert (0 <= c < 256) as Hc.
  { unfold c, b, a. rewrite !Z.div_div by lia. split; [apply Z.div_pos; lia|apply Z.div_lt_upper_bound; lia]. }
  rewrite (Z.mod_small c) by done. pose proof (Z.div_mod n 256 ltac:(lia)). pose proof (Z.div_mod a 256 ltac:(lia)). pose proof (Z.div_mod b 256 ltac:(lia)).
  fold a in H. fold b in H0. fold c in H1. lia.
Qed.

Lemma uplink_flag n : 0 <= n < 0x4000 -> let a := Z.lor n GSMTAP_ARFCN_F_UPLINK in
  0 <= a < 2 ^ 16 /\ a mod 0x4000 = n /\ Z.testbit a 14 = true.
Proof.
  intros Hn a. assert (a = n + 0x4000) as ->.
  { unfold a, GSMTAP_ARFCN_F_UPLINK. rewrite Z.add_nocarry_lxor, Z.lxor_lor; try done; apply Z.bits_inj'; intros i Hi; rewrite Z.land_spec, Z.bits_0;
      change 0x4000 with (2 ^ 14); rewrite Z.pow2_bits_eqb by lia; destruct (Z.eqb_spec 14 i) as [<-|]; rewrite ?andb_false_r; try done;
      rewrite andb_true_r; apply Z.bits_above_log2; [lia| |lia|]; (destruct (decide (n = 0)) as [->|]; [done|apply Z.log2_lt_pow2; lia]). }
  split; [lia|]. split; [rewrite Z.add_mod, Z_mod_same_full, Z.add_0_r, Z.mod_mod, Z.mod_small by lia; done|].
  rewrite Z.testbit_eqb by lia. apply Z.eqb_eq. change (2 ^ 14) with 0x4000. rewrite <- (Z.mul_1_l 0x4000) at 1. rewrite Z.div_add by lia. by rewrite Z.div_small.
Qed.

Lemma downlink_flag n : 0 <= n < 0x4000 -> n mod 0x4000 = n /\ Z.testbit n 14 = false.
Proof.
  intros Hn. split; [by apply Z.mod_small|]. rewrite Z.testbit_eqb by lia. change (2 ^ 14) with 0x4000. by rewrite Z.div_small by done.
Qed.

(** * Properties *)

(**  A receiver reads from the datagram of a message the
    channel, direction, frequency in Hz and signal strength given, and the bytes
    of the message as far as 240. *)
Theorem gsmtap_roundtrip data frequency direction dbm : data <> [] ->
  0 <= f64_trunc (f64_div (f64_sub frequency IR_BASE_FREQ) IR_CHANNEL_WIDTH) < 0x4000 -> 0 <= f64_trunc frequency < 2 ^ 32 -> -128 <= dbm < 128 ->
  exists pkt, gsmtap_send true data frequency direction dbm = Some pkt /\ (length pkt <= 256)%nat /\
    read_gsmtap pkt = Some (View (f64_trunc (f64_div (f64_sub frequency IR_BASE_FREQ) IR_CHANNEL_WIDTH))
      (bool_decide (direction = DIR_UPLINK)) dbm (f64_trunc frequency) (take 240 data)).
Proof.
  intros Hd Hc Hf Hs. set (ch := f64_trunc (f64_div _ _)) in *. assert (fchan frequency = ch) as Ec by (unfold fchan, u16; apply Z.mod_small; fold ch; lia).
  assert (take (if (240 <? length data)%nat then 240 else length data) data = take 240 data) as Et.
  { destruct (Nat.ltb_spec 240 (length data)); [done|]. rewrite !take_ge by lia. done. }
  unfold gsmtap_send. cbn [negb orb]. rewrite (proj2 (Nat.eqb_neq _ 0)) by (by destruct data). rewrite Et, Ec. eexists. split; [reflexivity|].
  assert (u32 (f64_trunc frequency) = f64_trunc frequency) as Ef by (unfold u32; apply Z.mod_small; lia).
  assert (to_signed 8 (u8 dbm) = dbm) as Es.
  { unfold to_signed, u8. change (2 ^ 8) with 256. change (2 ^ (8 - 1)) with 128. rewrite Z.mod_mod by lia.
    assert (dbm mod 256 = if dbm <? 0 then dbm + 256 else dbm) as ->.
    { destruct (Z.ltb_spec dbm 0); symmetry; [apply (Z.mod_unique _ _ (-1)); lia|apply (Z.mod_unique _ _ 0); lia]. }
    destruct (Z.ltb_spec dbm 0); [destruct (Z.ltb_spec (dbm + 256) 128)|destruct (Z.ltb_spec dbm 128)]; lia. }
  rewrite Ef. split; [rewrite length_app, length_take; change (length (hdr_bytes _)) with 16%nat; lia|].
  set (a := match direction with DIR_UPLINK => Z.lor ch GSMTAP_ARFCN_F_UPLINK | _ => ch end).
  assert (0 <= a < 2 ^ 16 /\ a mod 0x4000 = ch /\ Z.testbit a 14 = bool_decide (direction = DIR_UPLINK)) as (A1 & A2 & A3).
  { pose proof (uplink_flag ch Hc) as (U1 & U2 & U3). pose proof (downlink_flag ch Hc) as (D1 & D2). unfold a. destruct direction; by repeat split; try done; try lia. }
  clearbody a. unfold read_gsmtap. cbn [hdr_bytes g_version g_hdr_len g_type g_timeslot g_arfcn g_signal_dbm g_snr_db g_frame_number g_sub_type g_antenna_nr g_sub_slot g_res net16 net32 app].
  cbn [rd nth]. rewrite net16_value, net32_value, A2, A3, Es by lia. done.
Qed.

Lemma gsmtap_roundtrip_witness : exists pkt, gsmtap_send true [1; 2; 3] (f64_of_Z 1626000000) DIR_UPLINK (-40) = Some pkt /\
  read_gsmtap pkt = Some (View 239 true (-40) 1626000000 [1; 2; 3]).
Proof.
  destruct (gsmtap_roundtrip [1; 2; 3] (f64_of_Z 1626000000) DIR_UPLINK (-40)) as (pkt & H1 & _ & H3); [done|vm_compute; split; congruence..|lia|].
  exists pkt. split; [exact H1|]. rewrite H3. vm_compute. reflexivity.
Defined.
