(* ===== verification/Sigmf.v ===== *)
(** SigMF metadata, [src/sigmf.c]: data type, sample rate and centre frequency
    from a [.sigmf-meta] file.

    The JSON library is third-party code: its parser is a parameter, the tree it
    builds is [cjson], and the accessors used are modelled on that tree. *)
From S2P Require Import Prelude CFloat CString JsonText CNumber Vita49.
#[local] Open Scope Z_scope.

(** * The JSON tree *)

#[warnings="-register-all"]
Inductive cjson :=
  | JNull
  | JBool (b : bool)
  | JNumber (valuedouble : f64)
  | JString (valuestring : list Z)
  | JArray (items : list cjson)
  | JObject (members : list (list Z * cjson)).

Definition cJSON_GetObjectItemCaseSensitive (j : cjson) (key : list Z) : option cjson :=
  match j with
  | JObject members => snd <$> List.find (fun m => bool_decide (fst m = key)) members
  | _ => None
  end.
Definition cJSON_GetArrayItem (j : cjson) (i : nat) : option cjson :=
  match j with
  | JArray items => items !! i
  | JObject members => snd <$> members !! i
  | _ => None
  end.

(** * Reading *)

Definition sigmf_parse_datatype (dt : list Z) : option iq_format_t :=
  if bool_decide (dt = bytes_of "cf32_le") then Some FMT_CF32
  else if bool_decide (dt = bytes_of "ci16_le") then Some FMT_CI16
  else if bool_decide (dt = bytes_of "ci8") then Some FMT_CI8
  else if bool_decide (dt = bytes_of "cu8") then Some FMT_CI8
  else None.

(** What the file gives; [None] where it leaves the caller's value alone. *)
Record sigmf_meta := SigmfMeta { sm_sample_rate : option f64; sm_center_freq : option f64; sm_format : option iq_format_t }.

Definition number_of (j : option cjson) : option f64 := match j with Some (JNumber v) => Some v | _ => None end.

Definition meta_of (root : cjson) : sigmf_meta :=
  let global := cJSON_GetObjectItemCaseSensitive root (bytes_of "global") in
  let fmt := match global ≫= fun g => cJSON_GetObjectItemCaseSensitive g (bytes_of "core:datatype") with
             | Some (JString s) => sigmf_parse_datatype s
             | _ => None
             end in
  let sr := number_of (global ≫= fun g => cJSON_GetObjectItemCaseSensitive g (bytes_of "core:sample_rate")) in
  let freq := match cJSON_GetObjectItemCaseSensitive root (bytes_of "captures") with
              | Some (JArray items) => number_of (cJSON_GetArrayItem (JArray items) 0 ≫= fun c => cJSON_GetObjectItemCaseSensitive c (bytes_of "core:frequency"))
              | _ => None
              end in
  SigmfMeta sr freq fmt.

(** [None] is the return value -1. *)
Definition sigmf_read_meta (cJSON_Parse : list Z -> option cjson) (file : option (list Z)) : option sigmf_meta :=
  match file with
  | None => None
  | Some bytes =>
      if (List.length bytes =? 0)%nat || (1024 * 1024 <? Z.of_nat (List.length bytes)) then None
      else meta_of <$> cJSON_Parse (cstr bytes)
  end.

(** Unsigned samples read as signed ones are not off by a constant. *)
Lemma cu8_is_not_ci8 : ~ exists c, forall u, is_byte u -> to_signed 8 u = u - 128 + c.
Proof.
  intros (c & Hc). assert (to_signed 8 127 = 127 /\ to_signed 8 128 = -128) as [E1 E2] by (split; vm_compute; reflexivity).
  pose proof (Hc 127 ltac:(unfold is_byte; lia)). pose proof (Hc 128 ltac:(unfold is_byte; lia)). lia.
Qed.
