(* ===== verification/Options.v ===== *)
(** The command line, [src/options.c]: what each option does to the global
    variables of [src/main.c], and the checks after the last one.

    [getopt_long] is that of the C library; its results, one option after the
    other with their arguments, are the input.  The libraries a build has are
    [build]; files are what [fopen] and the reader of metadata give.  The
    globals are stores indexed by the names of the variables. *)
From S2P Require Import Prelude CFloat CString JsonText CNumber CTable Vita49 Sigmf.
#[local] Open Scope Z_scope.

(** * Globals *)

Inductive ivar :=
  | v_verbose | v_live | v_bladerf_num | v_soapy_num | v_hackrf_lna_gain | v_hackrf_vga_gain | v_hackrf_amp_enable
  | v_bladerf_gain_val | v_usrp_gain_val | v_sdrplay_gain_val | v_sidekiq_gain_val | v_bias_tee | v_use_gpu | v_simd_mode
  | v_use_chase | v_web_enabled | v_web_port | v_gsmtap_enabled | v_gsmtap_port | v_diagnostic_mode | v_use_gardner
  | v_parsed_mode | v_position_enabled | v_acars_enabled | v_acars_json | v_zmq_enabled | v_zmq_sub_enabled
  | v_vita49_enabled | v_basestation_enabled | v_basestation_beam | v_num_downmix_workers | v_samp_rate_explicit
  | v_center_freq_explicit | v_iq_format_explicit | v_clock_source | v_time_source.
Inductive dvar := v_samp_rate | v_center_freq | v_threshold_db | v_soapy_gain_val | v_position_height.
Inductive svar :=
  | v_file_info | v_serial | v_usrp_serial | v_soapy_args | v_sdrplay_serial | v_sidekiq_dev | v_save_bursts_dir | v_station_id
  | v_gsmtap_host | v_zmq_endpoint | v_zmq_sub_endpoint | v_vita49_endpoint | v_basestation_endpoint | v_aircraft_db_path.
#[export] Instance ivar_eq_dec : EqDecision ivar.
Proof. solve_decision. Defined.
#[export] Instance dvar_eq_dec : EqDecision dvar.
Proof. solve_decision. Defined.
#[export] Instance svar_eq_dec : EqDecision svar.
Proof. solve_decision. Defined.

Definition upd {V W} `{EqDecision V} (s : V -> W) (x : V) (v : W) : V -> W := fun y => if decide (y = x) then v else s y.

Record globals := Globals {
  ints : ivar -> Z;
  dbls : dvar -> f64;
  strs : svar -> option (list Z);
  g_format : iq_format_t;
  in_file : option (list Z);      (* the path it was opened under *)
  in_filename : option (list Z);
  acars_udp : list (list Z * Z);
  feeds : list (list Z * Z * bool);
  soapy_settings : list (list Z * list Z);
  soapy_gain_elems : list (list Z * f64);
}.

Definition set_int (x : ivar) (n : Z) (g : globals) : globals :=
  Globals (upd (ints g) x n) (dbls g) (strs g) (g_format g) (in_file g) (in_filename g) (acars_udp g) (feeds g) (soapy_settings g) (soapy_gain_elems g).
Definition set_dbl (x : dvar) (v : f64) (g : globals) : globals :=
  Globals (ints g) (upd (dbls g) x v) (strs g) (g_format g) (in_file g) (in_filename g) (acars_udp g) (feeds g) (soapy_settings g) (soapy_gain_elems g).
Definition set_str (x : svar) (s : list Z) (g : globals) : globals :=
  Globals (ints g) (dbls g) (upd (strs g) x (Some s)) (g_format g) (in_file g) (in_filename g) (acars_udp g) (feeds g) (soapy_settings g) (soapy_gain_elems g).
Definition set_format (f : iq_format_t) (g : globals) : globals :=
  Globals (ints g) (dbls g) (strs g) f (in_file g) (in_filename g) (acars_udp g) (feeds g) (soapy_settings g) (soapy_gain_elems g).
Definition set_file (open : option (list Z)) (name : option (list Z)) (g : globals) : globals :=
  Globals (ints g) (dbls g) (strs g) (g_format g) open name (acars_udp g) (feeds g) (soapy_settings g) (soapy_gain_elems g).
Definition add_udp (e : list Z * Z) (g : globals) : globals :=
  Globals (ints g) (dbls g) (strs g) (g_format g) (in_file g) (in_filename g) (acars_udp g ++ [e]) (feeds g) (soapy_settings g) (soapy_gain_elems g).
Definition add_feed (e : list Z * Z * bool) (g : globals) : globals :=
  Globals (ints g) (dbls g) (strs g) (g_format g) (in_file g) (in_filename g) (acars_udp g) (feeds g ++ [e]) (soapy_settings g) (soapy_gain_elems g).
Definition add_setting (e : list Z * list Z) (g : globals) : globals :=
  Globals (ints g) (dbls g) (strs g) (g_format g) (in_file g) (in_filename g) (acars_udp g) (feeds g) (soapy_settings g ++ [e]) (soapy_gain_elems g).
Definition add_gain (e : list Z * f64) (g : globals) : globals :=
  Globals (ints g) (dbls g) (strs g) (g_format g) (in_file g) (in_filename g) (acars_udp g) (feeds g) (soapy_settings g) (soapy_gain_elems g ++ [e]).

Definition ints_init (x : ivar) : Z :=
  match x with
  | v_bladerf_num | v_soapy_num | v_sdrplay_gain_val => -1
  | v_hackrf_lna_gain | v_bladerf_gain_val | v_usrp_gain_val => 40
  | v_hackrf_vga_gain => 20
  | v_sidekiq_gain_val => 50
  | v_web_port => 8888
  | v_gsmtap_port => 4729
  | v_use_gpu | v_use_gardner => 1
  | _ => 0
  end.
Definition dbls_init (x : dvar) : f64 :=
  match x with
  | v_samp_rate => f64_of_Z 10000000
  | v_center_freq => f64_of_Z 1622000000
  | v_threshold_db => f64_of_Z 16
  | v_soapy_gain_val => f64_of_Z 30
  | v_position_height => S754_zero false
  end.
Definition globals_init : globals := Globals ints_init dbls_init (fun _ => None) FMT_CI8 None None [] [] [] [].

(** * Options *)

(** Options with a plain integer, a plain number, a plain string, or a flag are
    grouped by the variable they set. *)
Inductive opt :=
  | OptFile (arg : list Z) | OptInterface (arg : list Z) | OptCenterFreq (arg : list Z) | OptSampleRate (arg : list Z)
  | OptFormat (arg : list Z) | OptSimd (arg : list Z) | OptChase (arg : option (list Z)) | OptWeb (arg : option (list Z))
  | OptGsmtap (arg : option (list Z)) | OptPosition (arg : option (list Z)) | OptAcarsJson | OptAcarsUdp (arg : list Z)
  | OptFeed (arg : option (list Z)) | OptZmq (arg : option (list Z)) | OptZmqSub (arg : option (list Z)) | OptVita49 (arg : option (list Z))
  | OptBasestation (arg : option (list Z)) | OptUpdateDb | OptWorkers (arg : list Z) | OptSoapySetting (arg : list Z)
  | OptSoapyGainElem (arg : list Z) | OptClockSource (arg : list Z) | OptTimeSource (arg : list Z) | OptList | OptHelp | OptUnknown
  | OptLive | OptBiasTee | OptThreshold (arg : list Z) | OptVerbose | OptFileInfo (arg : list Z)
  | OptHackrfLna (arg : list Z) | OptHackrfVga (arg : list Z) | OptHackrfAmp | OptBladerfGain (arg : list Z) | OptUsrpGain (arg : list Z)
  | OptSoapyGain (arg : list Z) | OptSdrplayGain (arg : list Z) | OptSidekiqGain (arg : list Z) | OptNoGpu | OptNoSimd
  | OptSaveBursts (arg : list Z) | OptDiagnostic | OptGardner | OptNoGardner | OptParsed | OptAcars | OptStation (arg : list Z)
  | OptBasestationBeam | OptAircraftDb (arg : list Z).

Record build := Build {
  have_hackrf : bool; have_bladerf : bool; have_uhd : bool; have_soapysdr : bool; have_sdrplay : bool; have_sidekiq : bool; have_zmq : bool;
}.

(** How it goes on: with new globals, with [exit], or with a null pointer given
    to [strdup]. *)
Inductive outcome := Run (g : globals) | Exit (code : Z) | Crash.

Definition ACARS_UDP_MAX : nat := 4.
Definition FEED_MAX : nat := 4.
Definition SOAPY_SETTINGS_MAX : nat := 8.
Definition SOAPY_GAINS_MAX : nat := 8.

Definition port_ok (port : Z) : bool := negb ((port <=? 0) || (65535 <? port)).

(** HOST:PORT with a checked port. *)
Definition host_port (arg : list Z) : option (list Z * Z) :=
  match split_last 58 arg with
  | Some (host, port) => if port_ok (atoi port) then Some (host, atoi port) else None
  | None => None
  end.

Definition clock_src (arg : list Z) : option Z :=
  if bool_decide (arg = bytes_of "internal") then Some 0
  else if bool_decide (arg = bytes_of "external") then Some 1
  else if bool_decide (arg = bytes_of "gpsdo") then Some 2
  else None.

Definition simd_of (arg : list Z) : option Z :=
  if bool_decide (arg = bytes_of "auto") then Some 0
  else if bool_decide (arg = bytes_of "avx2") then Some 1
  else if bool_decide (arg = bytes_of "sse42") || bool_decide (arg = bytes_of "sse4.2") then Some 2
  else if bool_decide (arg = bytes_of "neon") then Some 3
  else if bool_decide (arg = bytes_of "scalar") || bool_decide (arg = bytes_of "none") then Some 4
  else None.

Definition format_of (arg : list Z) : option iq_format_t :=
  if bool_decide (arg = bytes_of "ci8") then Some FMT_CI8
  else if bool_decide (arg = bytes_of "ci16") then Some FMT_CI16
  else if bool_decide (arg = bytes_of "cf32") then Some FMT_CF32
  else None.

Definition usrp_get_serial (name : list Z) : option (list Z) :=
  if starts_with (bytes_of "usrp-") name then snd <$> split_at 45 (drop 5 name) else None.

Definition set_interface (b : build) (arg : list Z) (g : globals) : outcome :=
  if have_hackrf b && starts_with (bytes_of "hackrf-") arg then Run (set_str v_serial (drop 7 arg) g)
  else if have_bladerf b && starts_with (bytes_of "bladerf") arg then Run (set_int v_bladerf_num (atoi (drop 7 arg)) g)
  else if have_uhd b && starts_with (bytes_of "usrp-") arg then
    match usrp_get_serial arg with Some s => Run (set_str v_usrp_serial s g) | None => Crash end
  else if have_soapysdr b && starts_with (bytes_of "soapy:") arg then Run (set_str v_soapy_args (drop 6 arg) g)
  else if have_soapysdr b && starts_with (bytes_of "soapy-") arg then Run (set_int v_soapy_num (atoi (drop 6 arg)) g)
  else if have_sdrplay b && starts_with (bytes_of "sdrplay-") arg then Run (set_str v_sdrplay_serial (drop 8 arg) g)
  else if have_sidekiq b && starts_with (bytes_of "sidekiq") arg then Run (set_str v_sidekiq_dev arg g)
  else Exit 1.

Definition set_gsmtap (arg : option (list Z)) (g : globals) : globals :=
  let g := set_int v_gsmtap_enabled 1 g in
  match arg with
  | None => g
  | Some a =>
      match split_last 58 a with
      | Some (host, port) => set_int v_gsmtap_port (atoi port) (set_str v_gsmtap_host host g)
      | None => set_str v_gsmtap_host a g
      end
  end.

Definition set_position (arg : option (list Z)) (g : globals) : outcome :=
  let g := set_int v_web_enabled 1 (set_int v_position_enabled 1 g) in
  match arg with
  | None => Run g
  | Some a =>
      let h := atof a in
      if f64_ltb h (S754_zero false) || f64_gtb h (f64_of_Z 9000) then Exit 1 else Run (set_dbl v_position_height h g)
  end.

Definition set_feed (arg : option (list Z)) (g : globals) : outcome :=
  let g := set_int v_acars_enabled 1 g in
  if (FEED_MAX <=? List.length (feeds g))%nat then Exit 1
  else
    match arg with
    | None => Run (add_feed (bytes_of "feed.airframes.io", 5590, true) g)
    | Some a =>
        let tcp := starts_with (bytes_of "tcp://") a in
        if starts_with (bytes_of "udp://") a || tcp then
          match host_port (drop 6 a) with
          | Some (host, port) => Run (add_feed (host, port, tcp) g)
          | None => Exit 1
          end
        else Exit 1
    end.

(** The default endpoint stays when the option has no argument. *)
Definition set_endpoint (flag : ivar) (name : svar) (arg : option (list Z)) (g : globals) : globals :=
  let g := set_int flag 1 g in
  match arg with Some a => set_str name a g | None => g end.

Section parse.
Context (b : build) (fopen : list Z -> bool) (update_ok : bool).

(** One round of the loop. *)
Definition handle_option (o : opt) (g : globals) : outcome :=
  match o with
  | OptFile a => if fopen a then Run (set_file (Some a) (Some a) g) else Exit 1
  | OptLive => Run (set_int v_live 1 g)
  | OptInterface a => set_interface b a g
  | OptCenterFreq a => Run (set_int v_center_freq_explicit 1 (set_dbl v_center_freq (atof a) g))
  | OptSampleRate a => Run (set_int v_samp_rate_explicit 1 (set_dbl v_samp_rate (atof a) g))
  | OptBiasTee => Run (set_int v_bias_tee 1 g)
  | OptThreshold a => Run (set_dbl v_threshold_db (atof a) g)
  | OptVerbose => Run (set_int v_verbose 1 g)
  | OptFileInfo a => Run (set_str v_file_info a g)
  | OptFormat a =>
      match format_of a with Some f => Run (set_format f (set_int v_iq_format_explicit 1 g)) | None => Exit 1 end
  | OptList => Exit 0
  | OptHackrfLna a => Run (set_int v_hackrf_lna_gain (atoi a) g)
  | OptHackrfVga a => Run (set_int v_hackrf_vga_gain (atoi a) g)
  | OptHackrfAmp => Run (set_int v_hackrf_amp_enable 1 g)
  | OptBladerfGain a => Run (set_int v_bladerf_gain_val (atoi a) g)
  | OptUsrpGain a => Run (set_int v_usrp_gain_val (atoi a) g)
  | OptSoapyGain a => Run (set_dbl v_soapy_gain_val (atof a) g)
  | OptSdrplayGain a => Run (set_int v_sdrplay_gain_val (atoi a) g)
  | OptSidekiqGain a => Run (set_int v_sidekiq_gain_val (atoi a) g)
  | OptNoGpu => Run (set_int v_use_gpu 0 g)
  | OptNoSimd => Run (set_int v_simd_mode 4 g)
  | OptSimd a => match simd_of a with Some n => Run (set_int v_simd_mode n g) | None => Exit 1 end
  | OptChase a =>
      let n := match a with Some a => atoi a | None => 0 end in
      if (n <? 0) || (7 <? n) then Exit 1 else Run (set_int v_use_chase n g)
  | OptWeb a =>
      let g := set_int v_web_enabled 1 g in
      Run (match a with Some a => set_int v_web_port (atoi a) g | None => g end)
  | OptGsmtap a => Run (set_gsmtap a g)
  | OptSaveBursts a => Run (set_str v_save_bursts_dir a g)
  | OptDiagnostic => Run (set_int v_diagnostic_mode 1 g)
  | OptGardner => Run (set_int v_use_gardner 1 g)
  | OptNoGardner => Run (set_int v_use_gardner 0 g)
  | OptParsed => Run (set_int v_parsed_mode 1 g)
  | OptPosition a => set_position a g
  | OptAcars => Run (set_int v_acars_enabled 1 g)
  | OptAcarsJson => Run (set_int v_acars_json 1 (set_int v_acars_enabled 1 g))
  | OptAcarsUdp a =>
      let g := set_int v_acars_enabled 1 g in
      if (ACARS_UDP_MAX <=? List.length (acars_udp g))%nat then Exit 1
      else match host_port a with Some e => Run (add_udp e g) | None => Exit 1 end
  | OptFeed a => set_feed a g
  | OptStation a => Run (set_str v_station_id a g)
  | OptZmq a => if have_zmq b then Run (set_endpoint v_zmq_enabled v_zmq_endpoint a g) else Exit 1
  | OptZmqSub a => if have_zmq b then Run (set_endpoint v_zmq_sub_enabled v_zmq_sub_endpoint a g) else Exit 1
  | OptVita49 a => Run (set_endpoint v_vita49_enabled v_vita49_endpoint a g)
  | OptBasestation a => Run (set_endpoint v_basestation_enabled v_basestation_endpoint a g)
  | OptBasestationBeam => Run (set_int v_basestation_beam 1 g)
  | OptAircraftDb a => Run (set_str v_aircraft_db_path a g)
  | OptUpdateDb => Exit (if update_ok then 0 else 1)
  | OptWorkers a => let w := atoi a in if (w <? 1) || (32 <? w) then Exit 1 else Run (set_int v_num_downmix_workers w g)
  | OptSoapySetting a =>
      if negb (have_soapysdr b) || (SOAPY_SETTINGS_MAX <=? List.length (soapy_settings g))%nat then Exit 1
      else match split_at 58 a with Some kv => Run (add_setting kv g) | None => Exit 1 end
  | OptSoapyGainElem a =>
      if negb (have_soapysdr b) || (SOAPY_GAINS_MAX <=? List.length (soapy_gain_elems g))%nat then Exit 1
      else match split_at 58 a with
           | Some (name, v) =>
               let '(val, rest) := strtod v in
               if (List.length rest =? List.length v)%nat || negb (List.length rest =? 0)%nat then Exit 1 else Run (add_gain (name, val) g)
           | None => Exit 1
           end
  | OptClockSource a => match clock_src a with Some n => Run (set_int v_clock_source n g) | None => Exit 1 end
  | OptTimeSource a => match clock_src a with Some n => Run (set_int v_time_source n g) | None => Exit 1 end
  | OptHelp => Exit 0
  | OptUnknown => Exit 1
  end.

Fixpoint option_loop (os : list opt) (g : globals) : outcome :=
  match os with
  | [] => Run g
  | o :: os => match handle_option o g with Run g => option_loop os g | r => r end
  end.
End parse.

(** * After the last option *)

Definition is_set (x : svar) (g : globals) : bool := match strs g x with Some _ => true | None => false end.

(** [-i] implies live capture. *)
Definition imply_live (b : build) (g : globals) : globals :=
  if is_set v_serial g || (have_bladerf b && (0 <=? ints g v_bladerf_num)) || (have_uhd b && is_set v_usrp_serial g) ||
     (have_soapysdr b && ((0 <=? ints g v_soapy_num) || is_set v_soapy_args g)) || (have_sdrplay b && is_set v_sdrplay_serial g)
  then set_int v_live 1 g else g.

Definition flag (x : ivar) (g : globals) : bool := negb (ints g x =? 0).
Definition has_file (g : globals) : bool := match in_file g with Some _ => true | None => false end.

(** The sources of samples that exclude each other. *)
Definition sources_conflict (g : globals) : bool :=
  (negb (flag v_live g) && negb (has_file g) && negb (flag v_zmq_sub_enabled g) && negb (flag v_vita49_enabled g)) ||
  (flag v_live g && has_file g) ||
  (flag v_zmq_sub_enabled g && (flag v_live g || has_file g)) ||
  (flag v_vita49_enabled g && (flag v_live g || has_file g)) ||
  (flag v_vita49_enabled g && flag v_zmq_sub_enabled g).

(** The format a file extension stands for. *)
Definition extension_format (ext : list Z) : option iq_format_t :=
  if bool_decide (ext = bytes_of "cf32") || bool_decide (ext = bytes_of "fc32") || bool_decide (ext = bytes_of "cfile") then Some FMT_CF32
  else if bool_decide (ext = bytes_of "ci16") || bool_decide (ext = bytes_of "cs16") || bool_decide (ext = bytes_of "sc16") then Some FMT_CI16
  else None.

Definition detect_format (g : globals) : globals :=
  match in_filename g with
  | Some name =>
      if flag v_iq_format_explicit g then g
      else match split_last 46 name ≫= fun p => extension_format (snd p) with Some f => set_format f g | None => g end
  | None => g
  end.

Definition PATH_MAX : nat := Z.to_nat 4096.
Definition path_of (s : list Z) : list Z := take (PATH_MAX - 1) s.

(** Values of the metadata where the command line gave none. *)
Definition apply_meta (mt : sigmf_meta) (g : globals) : globals :=
  let g := match sm_format mt with Some f => if flag v_iq_format_explicit g then g else set_format f g | None => g end in
  let g := match sm_sample_rate mt with
           | Some sr => if f64_gtb sr (S754_zero false) && negb (flag v_samp_rate_explicit g) then set_dbl v_samp_rate sr g else g
           | None => g
           end in
  match sm_center_freq mt with
  | Some fq => if f64_gtb fq (S754_zero false) && negb (flag v_center_freq_explicit g) then set_dbl v_center_freq fq g else g
  | None => g
  end.

Section finish.
Context (b : build) (fopen : list Z -> bool) (update_ok : bool) (cJSON_Parse : list Z -> option cjson) (read_file : list Z -> option (list Z)).

Definition read_sigmf (meta_path : list Z) (g : globals) : globals :=
  match sigmf_read_meta cJSON_Parse (read_file meta_path) with Some mt => apply_meta mt g | None => g end.

Definition sigmf_config (g : globals) : outcome :=
  match in_filename g with
  | None => Run g
  | Some name =>
      match split_last 46 name with
      | Some (base, ext) =>
          if bool_decide (ext = bytes_of "sigmf-meta") then
            let data_path := path_of (base ++ bytes_of ".sigmf-data") in
            if fopen data_path then Run (read_sigmf (path_of name) (set_file (Some data_path) (in_filename g) g)) else Exit 1
          else if bool_decide (ext = bytes_of "sigmf-data") then Run (read_sigmf (path_of (base ++ bytes_of ".sigmf-meta")) g)
          else Run g
      | None => Run g
      end
  end.

Definition not_positive (x : f64) : bool := f64_leb x (S754_zero false).
Definition rates_invalid (g : globals) : bool :=
  ((negb (flag v_vita49_enabled g) || flag v_samp_rate_explicit g) && not_positive (dbls g v_samp_rate)) ||
  ((negb (flag v_vita49_enabled g) || flag v_center_freq_explicit g) && not_positive (dbls g v_center_freq)).

Definition finish_options (g : globals) : outcome :=
  let g := imply_live b g in
  if sources_conflict g then Exit 1
  else
    match sigmf_config (detect_format g) with
    | Run g => if rates_invalid g then Exit 1 else Run g
    | r => r
    end.

Definition parse_options (os : list opt) : outcome :=
  match option_loop b fopen update_ok os globals_init with
  | Run g => finish_options g
  | r => r
  end.
End finish.

(** * The invariant *)

(** What the variables can hold. *)
Definition int_ok (x : ivar) (n : Z) : Prop :=
  match x with
  | v_use_chase => 0 <= n <= 7
  | v_num_downmix_workers => 0 <= n <= 32
  | v_simd_mode => 0 <= n <= 4
  | v_clock_source | v_time_source => 0 <= n <= 2
  | v_bladerf_num | v_soapy_num | v_hackrf_lna_gain | v_hackrf_vga_gain | v_bladerf_gain_val | v_usrp_gain_val | v_sdrplay_gain_val
  | v_sidekiq_gain_val | v_web_port | v_gsmtap_port => True
  | _ => n = 0 \/ n = 1
  end.

Definition endpoints_ok (g : globals) : Prop :=
  (List.length (acars_udp g) <= ACARS_UDP_MAX)%nat /\ Forall (fun e => 0 < snd e <= 65535) (acars_udp g) /\
  (List.length (feeds g) <= FEED_MAX)%nat /\ Forall (fun e => 0 < snd (fst e) <= 65535) (feeds g) /\
  (List.length (soapy_settings g) <= SOAPY_SETTINGS_MAX)%nat /\ (List.length (soapy_gain_elems g) <= SOAPY_GAINS_MAX)%nat.

Definition height_ok (h : f64) : Prop := f64_ltb h (S754_zero false) = false /\ f64_gtb h (f64_of_Z 9000) = false.

Definition globals_ok (g : globals) : Prop :=
  (forall x, int_ok x (ints g x)) /\ endpoints_ok g /\ height_ok (dbls g v_position_height) /\
  (ints g v_position_enabled = 1 -> ints g v_web_enabled = 1) /\
  (acars_udp g <> [] \/ feeds g <> [] \/ ints g v_acars_json = 1 -> ints g v_acars_enabled = 1).

Lemma upd_eq {V W} `{EqDecision V} (s : V -> W) x v : upd s x v x = v.
Proof. unfold upd. by rewrite decide_True. Qed.
Lemma upd_ne {V W} `{EqDecision V} (s : V -> W) x y v : y <> x -> upd s x v y = s y.
Proof. intros Hn. unfold upd. by rewrite decide_False. Qed.

(** Variables that nothing else depends on. *)
Definition plain_var (x : ivar) : Prop := x <> v_position_enabled /\ x <> v_web_enabled /\ x <> v_acars_enabled /\ x <> v_acars_json.

Lemma ints_upd s x n : (forall y, int_ok y (s y)) -> int_ok x n -> forall y, int_ok y (upd s x n y).
Proof. intros Hs Hn y. unfold upd. destruct (decide (y = x)) as [->|]; auto. Qed.

Lemma set_plain_ok x n g : plain_var x -> int_ok x n -> globals_ok g -> globals_ok (set_int x n g).
Proof.
  intros (N1 & N2 & N3 & N4) Hn (H1 & H2 & H3 & H4 & H5). split; [by apply ints_upd|]. split; [done|]. split; [done|].
  cbn [ints set_int acars_udp feeds]. rewrite !upd_ne by congruence. done.
Qed.

(** Enabling the web map or ACARS breaks nothing. *)
Lemma set_enable_ok x g : x = v_web_enabled \/ x = v_acars_enabled -> globals_ok g -> globals_ok (set_int x 1 g).
Proof.
  intros Hx (H1 & H2 & H3 & H4 & H5). split; [apply ints_upd; [done|destruct Hx as [-> | ->]; by right]|]. split; [done|]. split; [done|].
  cbn [ints set_int acars_udp feeds]. destruct Hx as [-> | ->]; rewrite ?upd_eq, ?upd_ne by done; auto.
Qed.

Lemma set_str_ok x s g : globals_ok g -> globals_ok (set_str x s g).
Proof. done. Qed.
Lemma set_dbl_ok x v g : (x = v_position_height -> height_ok v) -> globals_ok g -> globals_ok (set_dbl x v g).
Proof.
  intros Hx (H1 & H2 & H3 & H4 & H5). split; [done|]. split; [done|]. split; [|done]. cbn [dbls set_dbl].
  destruct (decide (v_position_height = x)) as [<-|]; [rewrite upd_eq; by apply Hx|by rewrite upd_ne].
Qed.
Lemma set_format_ok f g : globals_ok g -> globals_ok (set_format f g).
Proof. done. Qed.
Lemma set_file_ok o n g : globals_ok g -> globals_ok (set_file o n g).
Proof. done. Qed.

Lemma host_port_ok a h p : host_port a = Some (h, p) -> 0 < p <= 65535.
Proof.
  unfold host_port, port_ok. destruct (split_last 58 a) as [[h' p']|]; [|done].
  destruct (Z.leb_spec (atoi p') 0), (Z.ltb_spec 65535 (atoi p')); cbn; try done. intros [= <- <-]. lia.
Qed.

(** The setters of a branch, from the outermost inwards. *)
Ltac setting := repeat match goal with
  | H : globals_ok ?g |- globals_ok ?g => exact H
  | |- globals_ok (set_str _ _ _) => apply set_str_ok
  | |- globals_ok (set_format _ _) => apply set_format_ok
  | |- globals_ok (set_file _ _ _) => apply set_file_ok
  | |- globals_ok (set_dbl _ _ _) => apply set_dbl_ok; [discriminate|]
  | |- globals_ok (set_int v_web_enabled 1 _) => apply set_enable_ok; [left; reflexivity|]
  | |- globals_ok (set_int v_acars_enabled 1 _) => apply set_enable_ok; [right; reflexivity|]
  | |- globals_ok (set_int _ _ _) => apply set_plain_ok; [split_and!; discriminate|first [exact I | left; reflexivity | right; reflexivity | assumption | cbn; lia]|]
  end.

Lemma interface_ok b a g g' : set_interface b a g = Run g' -> globals_ok g -> globals_ok g'.
Proof.
  unfold set_interface. intros E Hg.
  repeat match type of E with (if ?c then _ else _) = _ => destruct c; [first [injection E as <-; setting | destruct (usrp_get_serial a); [injection E as <-; setting|done]]|] end.
  done.
Qed.

Lemma gsmtap_ok a g : globals_ok g -> globals_ok (set_gsmtap a g).
Proof. intros Hg. unfold set_gsmtap. destruct a as [a|]; [destruct (split_last 58 a) as [[h p]|]|]; setting. Qed.

Lemma position_ok a g g' : set_position a g = Run g' -> globals_ok g -> globals_ok g'.
Proof.
  unfold set_position. intros E Hg.
  assert (globals_ok (set_int v_web_enabled 1 (set_int v_position_enabled 1 g))) as Hp.
  { destruct Hg as (H1 & H2 & H3 & H4 & H5). split; [apply ints_upd; [apply ints_upd; [done|by right]|by right]|]. split; [done|]. split; [done|].
    cbn [ints set_int acars_udp feeds]. split; [intros _; apply upd_eq|]. rewrite !upd_ne by done. done. }
  destruct a as [a|]; [|by injection E as <-]. destruct (_ || _) eqn:Eh; [done|]. injection E as <-.
  apply orb_false_iff in Eh as [E1 E2]. apply set_dbl_ok; [by split|done].
Qed.

Lemma add_feed_ok e g : ints g v_acars_enabled = 1 -> 0 < snd (fst e) <= 65535 -> (List.length (feeds g) < FEED_MAX)%nat -> globals_ok g -> globals_ok (add_feed e g).
Proof.
  intros Ha He Hl (H1 & (U1 & U2 & F1 & F2 & S1 & S2) & H3 & H4 & H5). split; [done|]. split; [|by auto].
  split; [done|]. split; [done|]. cbn [feeds add_feed]. split; [rewrite length_app; cbn; unfold FEED_MAX in *; lia|].
  split; [apply Forall_app; split; [done|by apply Forall_singleton]|done].
Qed.

Lemma feed_ok a g g' : set_feed a g = Run g' -> globals_ok g -> globals_ok g'.
Proof.
  unfold set_feed. intros E Hg. assert (globals_ok (set_int v_acars_enabled 1 g)) as Hg' by setting.
  set (g1 := set_int v_acars_enabled 1 g) in *. assert (ints g1 v_acars_enabled = 1) as Ha by apply upd_eq.
  destruct (Nat.leb_spec FEED_MAX (List.length (feeds g1))); [done|]. destruct a as [a|]; [|injection E as <-; apply add_feed_ok; [done|cbn; lia|done|done]].
  destruct (_ || _); [|done]. destruct (host_port (drop 6 a)) as [[h p]|] eqn:Eh; [|done]. injection E as <-.
  apply add_feed_ok; [done|by eapply host_port_ok|done|done].
Qed.

Lemma udp_ok a g g' : (let g := set_int v_acars_enabled 1 g in
    if (ACARS_UDP_MAX <=? List.length (acars_udp g))%nat then Exit 1
    else match host_port a with Some e => Run (add_udp e g) | None => Exit 1 end) = Run g' -> globals_ok g -> globals_ok g'.
Proof.
  cbn zeta. intros E Hg. assert (globals_ok (set_int v_acars_enabled 1 g)) as Hg' by setting.
  assert (ints (set_int v_acars_enabled 1 g) v_acars_enabled = 1) as Ha by apply upd_eq. revert E Hg' Ha. generalize (set_int v_acars_enabled 1 g). intros g1 E Hg' Ha.
  destruct (Nat.leb_spec ACARS_UDP_MAX (List.length (acars_udp g1))); [done|]. destruct (host_port a) as [[h p]|] eqn:Eh; [|done]. injection E as <-.
  destruct Hg' as (H1 & (U1 & U2 & F1 & F2 & S1 & S2) & H3 & H4 & H5). split; [done|]. split; [|by auto].
  unfold endpoints_ok. cbn [acars_udp add_udp]. split; [rewrite length_app; cbn; unfold ACARS_UDP_MAX in *; lia|].
  split; [apply Forall_app; split; [done|apply Forall_singleton; by eapply host_port_ok]|done].
Qed.

Lemma soapy_ok g : globals_ok g -> (forall e, (List.length (soapy_settings g) < SOAPY_SETTINGS_MAX)%nat -> globals_ok (add_setting e g)) /\
  (forall e, (List.length (soapy_gain_elems g) < SOAPY_GAINS_MAX)%nat -> globals_ok (add_gain e g)).
Proof.
  intros (H1 & (U1 & U2 & F1 & F2 & S1 & S2) & H3 & H4 & H5). split; intros e Hl; (split; [done|]); (split; [|done]); unfold endpoints_ok;
    split_and!; try done; cbn [soapy_settings soapy_gain_elems add_setting add_gain]; rewrite length_app; cbn; lia.
Qed.

Lemma clock_src_ok a n : clock_src a = Some n -> 0 <= n <= 2.
Proof. unfold clock_src. repeat case_bool_decide; intros [= <-]; lia. Qed.
Lemma simd_of_ok a n : simd_of a = Some n -> 0 <= n <= 4.
Proof. unfold simd_of. repeat (destruct (_ || _) || case_bool_decide); intros [= <-]; lia. Qed.

Lemma json_ok g : globals_ok g -> globals_ok (set_int v_acars_json 1 (set_int v_acars_enabled 1 g)).
Proof.
  intros Hg. assert (globals_ok (set_int v_acars_enabled 1 g)) as (H1 & H2 & H3 & H4 & H5) by setting.
  split; [apply ints_upd; [done|by right]|]. split; [done|]. split; [done|]. cbn [ints set_int acars_udp feeds] in *.
  rewrite !(upd_ne _ v_acars_json) by done. split; [exact H4|]. intros _. rewrite upd_ne by done. apply upd_eq.
Qed.

(** Every option keeps the invariant. *)
Lemma handle_option_ok b fopen u o g g' : handle_option b fopen u o g = Run g' -> globals_ok g -> globals_ok g'.
Proof.
  intros E Hg. destruct o; cbn [handle_option] in E; try discriminate E; try (injection E as <-; solve [setting]).
  - destruct (fopen arg); [injection E as <-; setting|discriminate].
  - by eapply interface_ok.
  - destruct (format_of arg); [injection E as <-; setting|discriminate].
  - destruct (simd_of arg) as [n|] eqn:En; [|discriminate]. apply simd_of_ok in En. injection E as <-. setting.
  - set (n := match arg with Some a => atoi a | None => 0 end) in *. destruct (Z.ltb_spec n 0), (Z.ltb_spec 7 n); try discriminate E.
    cbn [orb] in E. injection E as <-. setting.
  - destruct arg; injection E as <-; setting.
  - injection E as <-. by apply gsmtap_ok.
  - by eapply position_ok.
  - injection E as <-. by apply json_ok.
  - by eapply udp_ok.
  - by eapply feed_ok.
  - destruct (have_zmq b); [|discriminate]. injection E as <-. unfold set_endpoint. destruct arg; setting.
  - destruct (have_zmq b); [|discriminate]. injection E as <-. unfold set_endpoint. destruct arg; setting.
  - injection E as <-. unfold set_endpoint. destruct arg; setting.
  - injection E as <-. unfold set_endpoint. destruct arg; setting.
  - destruct (Z.ltb_spec (atoi arg) 1), (Z.ltb_spec 32 (atoi arg)); try discriminate E. cbn [orb] in E. injection E as <-. setting.
  - destruct (have_soapysdr b); [|discriminate]. cbn [negb orb] in E. destruct (Nat.leb_spec SOAPY_SETTINGS_MAX (List.length (soapy_settings g))); [discriminate|].
    destruct (split_at 58 arg) as [kv|]; [|discriminate]. injection E as <-. by apply (soapy_ok g Hg).
  - destruct (have_soapysdr b); [|discriminate]. cbn [negb orb] in E. destruct (Nat.leb_spec SOAPY_GAINS_MAX (List.length (soapy_gain_elems g))); [discriminate|].
    destruct (split_at 58 arg) as [[k v]|]; [|discriminate]. destruct (strtod v) as [val rest]. destruct (_ || _); [discriminate|].
    injection E as <-. by apply (soapy_ok g Hg).
  - destruct (clock_src arg) as [n|] eqn:En; [|discriminate]. apply clock_src_ok in En. injection E as <-. setting.
  - destruct (clock_src arg) as [n|] eqn:En; [|discriminate]. apply clock_src_ok in En. injection E as <-. setting.
Qed.

Lemma globals_init_ok : globals_ok globals_init.
Proof.
  split; [intros x; destruct x; cbn; lia|]. split; [unfold endpoints_ok; cbn; split_and!; (lia || constructor)|].
  split; [split; vm_compute; reflexivity|]. split; [done|]. intros [H|[H|H]]; done.
Qed.

Lemma option_loop_ok b fopen u os g g' : option_loop b fopen u os g = Run g' -> globals_ok g -> globals_ok g'.
Proof.
  revert g. induction os as [|o os IH]; intros g E Hg; cbn [option_loop] in E; [by injection E as <-|].
  destruct (handle_option b fopen u o g) as [g1| |] eqn:Eo; try discriminate E. apply (IH g1); [done|]. by eapply handle_option_ok.
Qed.

(** ** After the last option *)

Lemma imply_live_ok b g : globals_ok g -> globals_ok (imply_live b g).
Proof. intros Hg. unfold imply_live. destruct (_ || _); [setting|done]. Qed.

Lemma detect_format_same g : ints (detect_format g) = ints g /\ dbls (detect_format g) = dbls g /\ in_filename (detect_format g) = in_filename g /\
  has_file (detect_format g) = has_file g /\ (globals_ok g -> globals_ok (detect_format g)).
Proof.
  unfold detect_format. destruct (in_filename g) eqn:E; [|done]. destruct (flag _ g); [done|]. by destruct (_ ≫= _).
Qed.

Lemma apply_meta_same mt g : ints (apply_meta mt g) = ints g /\ has_file (apply_meta mt g) = has_file g /\ (globals_ok g -> globals_ok (apply_meta mt g)).
Proof.
  unfold apply_meta. set (g1 := match sm_format mt with Some f => _ | None => g end).
  assert (ints g1 = ints g /\ has_file g1 = has_file g /\ (globals_ok g -> globals_ok g1)) as (E1 & E2 & E3) by (unfold g1; destruct (sm_format mt); [destruct (flag _ g)|]; done).
  clearbody g1. set (g2 := match sm_sample_rate mt with Some sr => _ | None => g1 end).
  assert (ints g2 = ints g1 /\ has_file g2 = has_file g1 /\ (globals_ok g1 -> globals_ok g2)) as (F1 & F2 & F3).
  { unfold g2. destruct (sm_sample_rate mt); [|done]. destruct (_ && _); [|done]. split; [done|]. split; [done|]. intros. setting. }
  clearbody g2. rewrite <- E1, <- F1, <- E2, <- F2. destruct (sm_center_freq mt); [|by auto]. destruct (_ && _); [|by auto].
  split; [done|]. split; [done|]. intros Hg. apply set_dbl_ok; [discriminate|by auto].
Qed.

Section finish_lemmas.
Context (b : build) (fopen : list Z -> bool) (update_ok : bool) (cJSON_Parse : list Z -> option cjson) (read_file : list Z -> option (list Z)).

Lemma read_sigmf_same path g : let g' := read_sigmf cJSON_Parse read_file path g in
  ints g' = ints g /\ has_file g' = has_file g /\ (globals_ok g -> globals_ok g').
Proof. unfold read_sigmf. destruct (sigmf_read_meta _ _); [apply apply_meta_same|done]. Qed.

Lemma sigmf_config_same g g' : sigmf_config fopen cJSON_Parse read_file g = Run g' -> has_file g = true \/ in_filename g = None ->
  ints g' = ints g /\ has_file g' = has_file g /\ (globals_ok g -> globals_ok g').
Proof.
  unfold sigmf_config. intros E Hf. destruct (in_filename g) as [name|] eqn:En; [|by injection E as <-]. destruct Hf as [Hf|]; [|done].
  destruct (split_last 46 name) as [[base ext]|]; [|by injection E as <-]. destruct (bool_decide _).
  - destruct (fopen _); [|discriminate]. injection E as <-. destruct (read_sigmf_same (path_of name) (set_file (Some (path_of (base ++ bytes_of ".sigmf-data"))) (Some name) g)) as (H1 & H2 & H3).
    rewrite H1, H2, Hf. split; [done|]. split; [done|]. intros Hg. apply H3. exact Hg.
  - destruct (bool_decide _); injection E as <-; [apply read_sigmf_same|done].
Qed.

(** The file is set by its option alone. *)
Lemma handle_option_file o g g' : handle_option b fopen update_ok o g = Run g' ->
  (in_file g' = in_file g /\ in_filename g' = in_filename g) \/ exists a, g' = set_file (Some a) (Some a) g.
Proof.
  intros E. destruct o; cbn [handle_option] in E; unfold set_interface, set_gsmtap, set_position, set_feed, set_endpoint in E; cbn zeta in E;
    repeat match type of E with
    | Run _ = Run _ => injection E as <-
    | Exit _ = Run _ => discriminate E
    | Crash = Run _ => discriminate E
    | (match ?x with _ => _ end) = Run _ => destruct x
    end; try (by left); try by right; eexists.
  all: left; repeat match goal with |- context [match ?x with _ => _ end] => destruct x end; done.
Qed.

Definition file_ok (g : globals) : Prop := has_file g = true \/ in_filename g = None.

Lemma option_loop_file os g g' : option_loop b fopen update_ok os g = Run g' -> file_ok g -> file_ok g'.
Proof.
  revert g. induction os as [|o os IH]; intros g E Hg; cbn [option_loop] in E; [by injection E as <-|].
  destruct (handle_option b fopen update_ok o g) as [g1| |] eqn:Eo; try discriminate E. apply (IH g1); [done|]. unfold file_ok, has_file in *.
  apply handle_option_file in Eo as [[-> ->]|[a ->]]; [done|by left].
Qed.

(** What an accepted command line has passed. *)
Lemma finish_options_run g g' : finish_options b fopen cJSON_Parse read_file g = Run g' -> globals_ok g -> file_ok g ->
  globals_ok g' /\ sources_conflict g' = false /\ rates_invalid g' = false.
Proof.
  unfold finish_options. intros E Hg Hf. set (g1 := imply_live b g) in *. assert (globals_ok g1) as Hg1 by by apply imply_live_ok.
  assert (file_ok g1) as Hf1 by (unfold g1, imply_live; by destruct (_ || _)). clearbody g1. destruct (sources_conflict g1) eqn:Es; [discriminate|].
  destruct (detect_format_same g1) as (D1 & D2 & D3 & D4 & D5).
  destruct (sigmf_config _ _ _ (detect_format g1)) as [g2| |] eqn:Ec; try discriminate E. destruct (rates_invalid g2) eqn:Er; [discriminate|]. injection E as <-.
  apply sigmf_config_same in Ec as (C1 & C2 & C3); [|unfold file_ok in Hf1; by rewrite D3, D4].
  split; [by apply C3, D5|]. split; [|done]. unfold sources_conflict, flag. rewrite C1, C2, D1, D4. exact Es.
Qed.
End finish_lemmas.

Definition source_count (g : globals) : Z :=
  Z.b2z (flag v_live g) + Z.b2z (has_file g) + Z.b2z (flag v_zmq_sub_enabled g) + Z.b2z (flag v_vita49_enabled g).

Lemma one_source g : sources_conflict g = false -> source_count g = 1.
Proof.
  unfold sources_conflict, source_count. destruct (flag v_live g), (has_file g), (flag v_zmq_sub_enabled g), (flag v_vita49_enabled g); done.
Qed.

(** A serial number is missing. *)
Definition bad_usrp (b : build) (o : opt) : Prop := exists a, o = OptInterface a /\ have_uhd b = true /\ starts_with (bytes_of "usrp-") a = true /\ usrp_get_serial a = None.

Lemma handle_option_exit b fopen u o g : match handle_option b fopen u o g with
  | Run _ => True
  | Exit c => c = 0 \/ c = 1
  | Crash => bad_usrp b o
  end.
Proof.
  destruct o; cbn [handle_option]; unfold set_interface, set_position, set_feed; cbn zeta;
    repeat match goal with
    | |- True => exact I
    | |- 0 = 0 \/ _ => by left
    | |- _ \/ 1 = 1 => by right
    | |- match (match ?x with _ => _ end) with _ => _ end => destruct x eqn:?
    end.
  - apply andb_true_iff in Heqb2 as [? ?]. by exists arg.
  - destruct u; auto.
Qed.

Lemma option_loop_exit b fopen u os g : match option_loop b fopen u os g with
  | Run _ => True
  | Exit c => c = 0 \/ c = 1
  | Crash => Exists (bad_usrp b) os
  end.
Proof.
  revert g. induction os as [|o os IH]; intros g; cbn [option_loop]; [done|]. pose proof (handle_option_exit b fopen u o g) as Ho.
  destruct (handle_option b fopen u o g) as [g1| |]; [|done|by apply Exists_cons_hd]. specialize (IH g1). destruct (option_loop _ _ _ os g1); [done|done|by apply Exists_cons_tl].
Qed.

Lemma finish_options_exit b fopen parse read g : match finish_options b fopen parse read g with
  | Run _ => True
  | Exit c => c = 1
  | Crash => False
  end.
Proof.
  unfold finish_options. destruct (sources_conflict _); [done|]. generalize (detect_format (imply_live b g)). intros g1.
  assert (match sigmf_config fopen parse read g1 with Run _ => True | Exit c => c = 1 | Crash => False end) as Hs.
  { unfold sigmf_config. destruct (in_filename g1) as [name|]; [|done]. destruct (split_last 46 name) as [[base ext]|]; [|done].
    destruct (bool_decide _); [by destruct (fopen _)|]. by destruct (bool_decide _). }
  destruct (sigmf_config fopen parse read g1); [|done|done]. by destruct (rates_invalid _).
Qed.

(** ** Explicit values *)

(** The two numbers that metadata can give, with their flags and options. *)
Inductive rate_option : dvar -> ivar -> (list Z -> opt) -> Prop :=
| rate_sample : rate_option v_samp_rate v_samp_rate_explicit OptSampleRate
| rate_center : rate_option v_center_freq v_center_freq_explicit OptCenterFreq.

Definition explicit (x : dvar) (ex : ivar) (v : f64) (g : globals) : Prop := dbls g x = v /\ ints g ex = 1.

Lemma handle_option_rate b fopen u x ex mk o g g' v : rate_option x ex mk -> (forall a, o <> mk a) -> handle_option b fopen u o g = Run g' ->
  explicit x ex v g -> explicit x ex v g'.
Proof.
  intros Hx Hn E Hv. destruct o; cbn [handle_option] in E; unfold set_interface, set_gsmtap, set_position, set_feed, set_endpoint in E; cbn zeta in E;
    repeat match type of E with
    | Run _ = Run _ => injection E as <-
    | Exit _ = Run _ => discriminate E
    | Crash = Run _ => discriminate E
    | (match ?x with _ => _ end) = Run _ => destruct x
    end; repeat match goal with |- context [match ?x with _ => _ end] => destruct x end; try (exact Hv);
    destruct Hx; try (by destruct (Hn arg)); exact Hv.
Qed.

Lemma option_loop_rate b fopen u x ex mk os g g' v : rate_option x ex mk -> Forall (fun o => forall a, o <> mk a) os -> option_loop b fopen u os g = Run g' ->
  explicit x ex v g -> explicit x ex v g'.
Proof.
  intros Hx Hn. revert g. induction Hn as [|o os Ho _ IH]; intros g E Hv; cbn [option_loop] in E; [by injection E as <-|].
  destruct (handle_option b fopen u o g) as [g1| |] eqn:Eo; try discriminate E. apply (IH g1); [done|]. by eapply handle_option_rate.
Qed.

Lemma option_loop_app b fopen u os1 os2 g : option_loop b fopen u (os1 ++ os2) g =
  match option_loop b fopen u os1 g with Run g1 => option_loop b fopen u os2 g1 | r => r end.
Proof.
  revert g. induction os1 as [|o os1 IH]; intros g; cbn [app option_loop]; [done|]. destruct (handle_option b fopen u o g); [apply IH|done|done].
Qed.

Lemma apply_meta_rate x ex mk v mt g : rate_option x ex mk -> explicit x ex v g -> explicit x ex v (apply_meta mt g).
Proof.
  intros Hx Hv. unfold apply_meta. set (g1 := match sm_format mt with Some f => _ | None => g end).
  assert (explicit x ex v g1) as H1 by (unfold g1; destruct (sm_format mt); [destruct (flag _ g)|]; done). clearbody g1.
  set (g2 := match sm_sample_rate mt with Some sr => _ | None => g1 end).
  assert (forall y ey w g0, rate_option y ey (match y with v_samp_rate => OptSampleRate | _ => OptCenterFreq end) -> explicit x ex v g0 ->
    explicit x ex v (if f64_gtb w (S754_zero false) && negb (flag ey g0) then set_dbl y w g0 else g0)) as Hs.
  { intros y ey w g0 Hy [D1 D2]. destruct (_ && _) eqn:E; [|done]. apply andb_true_iff in E as [_ E]. split; [|done]. cbn [dbls set_dbl].
    rewrite upd_ne; [done|]. intros <-. assert (ex = ey) as -> by (inversion Hx; subst; by inversion Hy). unfold flag in E. by rewrite D2 in E. }
  assert (explicit x ex v g2) as H2 by (unfold g2; destruct (sm_sample_rate mt); [apply (Hs v_samp_rate); [constructor|done]|done]). clearbody g2.
  destruct (sm_center_freq mt); [apply (Hs v_center_freq); [constructor|done]|done].
Qed.

Lemma finish_options_rate b fopen parse read x ex mk v g g' : rate_option x ex mk -> finish_options b fopen parse read g = Run g' ->
  explicit x ex v g -> explicit x ex v g'.
Proof.
  intros Hx. unfold finish_options. intros E Hv. set (g1 := imply_live b g) in *.
  assert (explicit x ex v g1) as H1 by (unfold g1, imply_live; destruct (_ || _); [|done]; destruct Hx; exact Hv). clearbody g1.
  destruct (sources_conflict g1); [discriminate|]. destruct (detect_format_same g1) as (D1 & D2 & _).
  assert (explicit x ex v (detect_format g1)) as H2 by (unfold explicit; rewrite D1, D2; exact H1). revert E H2. generalize (detect_format g1). intros g2 E H2.
  destruct (sigmf_config _ _ _ g2) as [g3| |] eqn:Ec; try discriminate E. destruct (rates_invalid g3); [discriminate|]. injection E as <-.
  assert (forall path g0, explicit x ex v g0 -> explicit x ex v (read_sigmf parse read path g0)) as Hr
    by (intros path g0 H0; unfold read_sigmf; destruct (sigmf_read_meta _ _); [by eapply apply_meta_rate|done]).
  unfold sigmf_config in Ec. destruct (in_filename g2) as [name|]; [|by injection Ec as <-]. destruct (split_last 46 name) as [[base ext]|]; [|by injection Ec as <-].
  destruct (bool_decide _); [destruct (fopen _); [injection Ec as <-; by apply Hr|discriminate]|].
  destruct (bool_decide _); injection Ec as <-; [by apply Hr|done].
Qed.

(** ** What the help and comments say otherwise *)

(** A bare [--chase] turns soft decoding off. *)
Lemma bare_chase_disables b fopen u g : handle_option b fopen u (OptChase None) g = Run (set_int v_use_chase 0 g).
Proof. reflexivity. Qed.

(** [-i sidekiq] does not imply live capture. *)
Definition full_build : build := Build true true true true true true true.
Lemma sidekiq_not_live parse read : parse_options full_build (fun _ => true) true parse read [OptInterface (bytes_of "sidekiq")] = Exit 1.
Proof. reflexivity. Qed.

(** [-i usrp-X] passes a null pointer to [strdup]. *)
Lemma usrp_without_serial parse read : parse_options full_build (fun _ => true) true parse read [OptInterface (bytes_of "usrp-B210")] = Crash.
Proof. reflexivity. Qed.

(** A rate that is not a number is accepted. *)
Lemma nan_rate_accepted parse read : exists g,
  parse_options full_build (fun _ => true) true parse read [OptLive; OptSampleRate (bytes_of "nan")] = Run g /\ dbls g v_samp_rate = S754_nan.
Proof. eexists. split; reflexivity. Qed.

(** * Properties *)

(** The comparisons reject what is out of range but not NaN. *)
Lemma not_below x y : f64_ltb x y = false -> x = S754_nan \/ y = S754_nan \/ f64_leb y x = true.
Proof.
  unfold f64_ltb, f64_leb, SFltb, SFleb.
  destruct x as [sx|sx| |sx mx ex], y as [sy|sy| |sy my ey]; cbn [SFcompare]; auto; try (destruct sx; auto; discriminate); try (destruct sy; auto; discriminate);
    try (destruct sx, sy; auto; discriminate).
  change (Pos.compare_cont Eq mx my) with (Pos.compare mx my). change (Pos.compare_cont Eq my mx) with (Pos.compare my mx).
  rewrite (Z.compare_antisym ex ey), (Pos.compare_antisym mx my).
  destruct sx, sy; auto; try discriminate; destruct (ex ?= ey); auto; try discriminate; destruct (Pos.compare mx my); auto; discriminate.
Qed.
Lemma not_positive_false x : not_positive x = false -> x = S754_nan \/ f64_gtb x (f64_of_Z 0) = true.
Proof. unfold not_positive. destruct x as [s|s| |s m e]; [done|destruct s; [done|by right]|by left|destruct s; [done|by right]]. Qed.
Lemma height_range h : height_ok h -> h = S754_nan \/ f64_leb (f64_of_Z 0) h = true /\ f64_leb h (f64_of_Z 9000) = true.
Proof.
  intros [H1 H2]. destruct (not_below _ _ H1) as [|[[=]|H1']]; [by left|]. destruct (not_below _ _ H2) as [[=]|[|H2']]; [by left|]. by right.
Qed.

(** C29 (error).  Parsing the command line ends in one of three ways: with exit
    code 0 or 1; in the crash for a USRP name without serial number; or with exactly
    one source of samples and checked variables: flags 0 or 1, worker count, chase
    depth, SIMD mode and clock sources in their ranges, at most as many UDP streams,
    feeds and SoapySDR settings as the arrays hold, each stream and feed with a port
    from 1 to 65535, a height from 0 to 9000 m or NaN, and rates that are positive
    or NaN.  Not checked by the code: rates under [--vita49] that were not given,
    gains, device numbers, and the web and GSMTAP ports. *)
Theorem options_accepted b fopen update_ok cJSON_Parse read_file os :
  let positive x := x = S754_nan \/ f64_gtb x (f64_of_Z 0) = true in
  match parse_options b fopen update_ok cJSON_Parse read_file os with
  | Run g =>
      globals_ok g /\ source_count g = 1 /\
      (let h := dbls g v_position_height in h = S754_nan \/ f64_leb (f64_of_Z 0) h = true /\ f64_leb h (f64_of_Z 9000) = true) /\
      (flag v_vita49_enabled g = false \/ flag v_samp_rate_explicit g = true -> positive (dbls g v_samp_rate)) /\
      (flag v_vita49_enabled g = false \/ flag v_center_freq_explicit g = true -> positive (dbls g v_center_freq))
  | Exit c => c = 0 \/ c = 1
  | Crash => Exists (bad_usrp b) os
  end.
Proof.
  intros positive. unfold parse_options. pose proof (option_loop_exit b fopen update_ok os globals_init) as Hx.
  destruct (option_loop b fopen update_ok os globals_init) as [g| |] eqn:El; [|done|done].
  assert (globals_ok g) as Hg by (eapply option_loop_ok; [exact El|apply globals_init_ok]).
  assert (file_ok g) as Hf by (eapply option_loop_file; [exact El|by right]).
  destruct (finish_options b fopen cJSON_Parse read_file g) as [g'| |] eqn:Ef.
  - destruct (finish_options_run _ _ _ _ _ _ Ef Hg Hf) as (H1 & H2%one_source & H3). split; [done|]. split; [done|]. split; [by apply height_range, H1|].
    unfold rates_invalid in H3. apply orb_false_iff in H3 as [R1 R2].
    split; (intros [E|E]; rewrite E in *; rewrite ?orb_true_r in *; cbn [negb orb andb] in *; by apply not_positive_false).
  - right. pose proof (finish_options_exit b fopen cJSON_Parse read_file g) as He. by rewrite Ef in He.
  - pose proof (finish_options_exit b fopen cJSON_Parse read_file g) as He. by rewrite Ef in He.
Qed.

(**  A sample rate or centre frequency given on the command line
    is the one used, the last one if there are several, whatever the metadata of
    the file says. *)
Theorem explicit_rate_wins b fopen update_ok cJSON_Parse read_file x ex mk os1 a os2 g :
  rate_option x ex mk -> Forall (fun o => forall a, o <> mk a) os2 ->
  parse_options b fopen update_ok cJSON_Parse read_file (os1 ++ mk a :: os2) = Run g -> dbls g x = atof a.
Proof.
  intros Hx Hn. unfold parse_options. rewrite option_loop_app. destruct (option_loop b fopen update_ok os1 globals_init) as [g1| |]; try discriminate.
  cbn [option_loop]. assert (exists g2, handle_option b fopen update_ok (mk a) g1 = Run g2 /\ explicit x ex (atof a) g2) as (g2 & -> & H2).
  { destruct Hx; (eexists; split; [reflexivity|]); split; cbn [dbls ints set_int set_dbl]; apply upd_eq. }
  destruct (option_loop b fopen update_ok os2 g2) as [g3| |] eqn:El; try discriminate. intros Ef.
  eapply option_loop_rate in H2; [|exact Hx|exact Hn|exact El]. eapply finish_options_rate in H2; [|exact Hx|exact Ef]. apply H2.
Qed.

Lemma explicit_rate_wins_witness : exists g,
  parse_options full_build (fun _ => true) true (fun _ => None) (fun _ => None) ([OptLive] ++ OptSampleRate (bytes_of "5000000") :: [OptVerbose]) = Run g /\
  dbls g v_samp_rate = atof (bytes_of "5000000").
Proof.
  eexists. split; [reflexivity|].
  apply (explicit_rate_wins full_build (fun _ => true) true (fun _ => None) (fun _ => None) v_samp_rate v_samp_rate_explicit OptSampleRate [OptLive] (bytes_of "5000000") [OptVerbose]);
    [constructor|repeat constructor; discriminate|reflexivity].
Defined.
