(* ===== verification/AcarsPos.v ===== *)
(** Aircraft positions in ACARS free text, [src/sbd_acars.c]:
    [acars_extract_text_position] with its three coordinate formats and
    [acars_extract_waypoint_position], which resolves a named fix.

    Label and text are C strings (bytes without NUL).  The waypoint database is
    reached through the interface [WaypointSource]. *)
From S2P Require Import Prelude CFloat CNumber WaypointDb.

(** * Definitions *)

Definition c_N : Z := 78.
Definition c_S : Z := 83.
Definition c_E : Z := 69.
Definition c_W : Z := 87.
Definition s_POS : list Z := [80; 79; 83].
Definition s_LAT : list Z := [76; 65; 84].
Definition s_LON : list Z := [76; 79; 78].
Definition s_FPN : list Z := [70; 80; 78].

(** The labels that carry the aircraft's own position: H1 20 44 4J 15 SA. *)
Definition label_ok (label : list Z) : bool :=
  let lab a b := (label.[0%nat] =? a) && (label.[1%nat] =? b) in
  lab 72 49 || lab 50 48 || lab 52 52 || lab 52 74 || lab 49 53 || lab 83 65.

(** A flight plan: label H1 and text FPN. *)
Definition flight_plan (label text : list Z) : bool :=
  (label.[0%nat] =? 72) && (label.[1%nat] =? 49) && starts_with s_FPN text.

(** At most [n] digits. *)
Fixpoint digits_upto (n : nat) (p : list Z) : list Z * list Z :=
  match n, p with
  | S n, c :: q => if is_digit c then let '(a, b) := digits_upto n q in (c :: a, b) else ([], p)
  | _, _ => ([], p)
  end.

Definition signed (dir minus : Z) (x : f64) : f64 := if dir =? minus then f64_opp x else x.

Definition in_range (la lo : f64) : bool :=
  f64_leb (S754_zero false) la && f64_leb la (f64_of_Z 90) && f64_leb (S754_zero false) lo && f64_leb lo (f64_of_Z 180).

(** Format 1: POS[NS]ddddd[EW]dddddd, at the first POS. *)
Definition format1 (text : list Z) : option (f64 * f64) :=
  match strstr text s_POS with
  | None => None
  | Some p =>
      let p := drop 3 p in
      let lat_dir := deref p in
      if (lat_dir =? c_N) || (lat_dir =? c_S) then
        let '(lat_digits, p) := digits_upto 5 (drop 1 p) in
        if (length lat_digits =? 5)%nat then
          let lon_dir := deref p in
          if (lon_dir =? c_E) || (lon_dir =? c_W) then
            let '(lon_digits, _) := digits_upto 6 (drop 1 p) in
            if (length lon_digits =? 6)%nat then
              let la := f64_div (atof lat_digits) (f64_of_Z 1000) in
              let lo := f64_div (atof lon_digits) (f64_of_Z 1000) in
              if in_range la lo then Some (signed lat_dir c_S la, signed lon_dir c_W lo) else None
            else None
          else None
        else None
      else None
  end.

(** Degrees and tenths of minutes from digits. *)
Definition minutes_value (deg min10 : Z) : f64 := f64_add (f64_of_Z deg) (f64_div (f64_of_Z min10) (f64_of_Z 600)).

(** Format 2 at one place of the text: [NS]ddmmm[EW]dddmmm. *)
Definition format2_at (s : list Z) : option (f64 * f64) :=
  let lat_dir := deref s in
  if ((lat_dir =? c_N) || (lat_dir =? c_S)) && is_digit (s.[1%nat]) then
    let '(lat, p) := span is_digit (drop 1 s) in
    let lon_dir := deref p in
    if (length lat =? 5)%nat && ((lon_dir =? c_E) || (lon_dir =? c_W)) then
      let '(lon, _) := span is_digit (drop 1 p) in
      if (length lon =? 6)%nat then
        let lat_deg := dec_value (take 2 lat) in
        let lat_min10 := dec_value (drop 2 lat) in
        let lon_deg := dec_value (take 3 lon) in
        let lon_min10 := dec_value (drop 3 lon) in
        if (lat_deg <=? 90) && (lat_min10 <? 600) && (lon_deg <=? 180) && (lon_min10 <? 600) then
          Some (signed lat_dir c_S (minutes_value lat_deg lat_min10), signed lon_dir c_W (minutes_value lon_deg lon_min10))
        else None
      else None
    else None
  else None.

(** The scan over the text. *)
Fixpoint format2 (text : list Z) : option (f64 * f64) :=
  match text with
  | [] => None
  | _ :: rest => match format2_at text with Some r => Some r | None => format2 rest end
  end.

Definition skip_blanks (p : list Z) : list Z := snd (span (fun c => c =? 32) p).

(** Format 3: LAT [NS] dd.ddd/LON [EW] ddd.ddd. *)
Definition format3 (text : list Z) : option (f64 * f64) :=
  match strstr text s_LAT with
  | None => None
  | Some p =>
      let p := skip_blanks (drop 3 p) in
      let lat_dir := deref p in
      if (lat_dir =? c_N) || (lat_dir =? c_S) then
        let p := skip_blanks (drop 1 p) in
        let '(la, end_) := strtod p in
        if negb (length end_ =? length p)%nat && f64_leb (S754_zero false) la && f64_leb la (f64_of_Z 90) then
          match strstr end_ s_LON with
          | None => None
          | Some lp =>
              let lp := skip_blanks (drop 3 lp) in
              let lon_dir := deref lp in
              if (lon_dir =? c_E) || (lon_dir =? c_W) then
                let lp := skip_blanks (drop 1 lp) in
                let '(lo, end_) := strtod lp in
                if negb (length end_ =? length lp)%nat && f64_leb (S754_zero false) lo && f64_leb lo (f64_of_Z 180) then
                  Some (signed lat_dir c_S la, signed lon_dir c_W lo)
                else None
              else None
          end
        else None
      else None
  end.

Definition acars_extract_text_position (label text : list Z) : option (f64 * f64) :=
  match text with
  | [] => None
  | _ =>
      if negb (label_ok label) then None
      else if flight_plan label text then None
      else
        match format1 text with
        | Some r => Some r
        | None => match format2 text with Some r => Some r | None => format3 text end
        end
  end.

(** ** Waypoints *)

Definition is_sep (c : Z) : bool := (c =? 44) || (c =? 32) || (c =? 47).
Definition not_sep (c : Z) : bool := negb (is_sep c).

(** Five capitals followed by a separator, a line end or the end of the text. *)
Definition five_letters (scan : list Z) : bool :=
  forallb (fun i => is_upper (scan.[i])) [0; 1; 2; 3; 4]%nat &&
  let c := scan.[5%nat] in (is_sep c || (c =? 0) || (c =? 13) || (c =? 10)).

Section waypoints.
Context {D : Type} `{WaypointSource D}.

(** The scanning loop; every round consumes at least one character. *)
Fixpoint scan_waypoints (fuel : nat) (d : D) (scan : list Z) : option (f64 * f64) :=
  match fuel with
  | O => None
  | S fuel =>
      match scan with
      | [] => None
      | _ =>
          let scan := snd (span not_sep scan) in
          let scan := snd (span is_sep scan) in
          match (if five_letters scan then wp_find d (take 5 scan) else None) with
          | Some p => Some p
          | None => scan_waypoints fuel d (snd (span not_sep scan))
          end
      end
  end.

Definition acars_extract_waypoint_position (d : D) (label text : list Z) : option (f64 * f64) :=
  match text with
  | [] => None
  | _ =>
      if negb (label_ok label) then None
      else if flight_plan label text then None
      else
        let scan := if starts_with s_POS text then drop 3 text else text in
        scan_waypoints (length scan) d scan
  end.
End waypoints.

(** * Specification *)

(** How a position is written. *)
Inductive written : list Z -> f64 * f64 -> Prop :=
  | written_thousandths pre post d1 lat d2 lon :
      d1 = c_N \/ d1 = c_S -> d2 = c_E \/ d2 = c_W ->
      Forall (fun c => is_digit c = true) (lat ++ lon) -> length lat = 5%nat -> length lon = 6%nat ->
      let la := f64_div (atof lat) (f64_of_Z 1000) in
      let lo := f64_div (atof lon) (f64_of_Z 1000) in
      in_range la lo = true ->
      written (pre ++ s_POS ++ [d1] ++ lat ++ [d2] ++ lon ++ post) (signed d1 c_S la, signed d2 c_W lo)
  | written_minutes pre post d1 lat d2 lon :
      d1 = c_N \/ d1 = c_S -> d2 = c_E \/ d2 = c_W ->
      Forall (fun c => is_digit c = true) (lat ++ lon) -> length lat = 5%nat -> length lon = 6%nat ->
      is_digit (deref post) = false ->
      dec_value (take 2 lat) <= 90 -> dec_value (drop 2 lat) < 600 ->
      dec_value (take 3 lon) <= 180 -> dec_value (drop 3 lon) < 600 ->
      written (pre ++ [d1] ++ lat ++ [d2] ++ lon ++ post)
        (signed d1 c_S (minutes_value (dec_value (take 2 lat)) (dec_value (drop 2 lat))),
         signed d2 c_W (minutes_value (dec_value (take 3 lon)) (dec_value (drop 3 lon))))
  | written_decimal pre b1 b2 p d1 la mid post b3 b4 q d2 lo rest :
      d1 = c_N \/ d1 = c_S -> d2 = c_E \/ d2 = c_W ->
      Forall (fun c => c = 32) (b1 ++ b2 ++ b3 ++ b4) ->
      strtod p = (la, mid ++ s_LON ++ post) -> strtod q = (lo, rest) ->
      post = b3 ++ [d2] ++ b4 ++ q ->
      in_range la lo = true ->
      written (pre ++ s_LAT ++ b1 ++ [d1] ++ b2 ++ p) (signed d1 c_S la, signed d2 c_W lo).

(** The fields of a text: its maximal runs without separator. *)
Fixpoint fields_go (cur : list Z) (text : list Z) : list (list Z) :=
  match text with
  | [] => match cur with [] => [] | _ => [rev cur] end
  | c :: text =>
      if is_sep c then match cur with [] => fields_go [] text | _ => rev cur :: fields_go [] text end
      else fields_go (c :: cur) text
  end.
Definition fields (text : list Z) : list (list Z) := fields_go [] text.

(** The fields after the first separator. *)
Definition later_fields (text : list Z) : list (list Z) := fields (snd (span not_sep text)).

(** A field that names a fix: five capitals, alone or before a line end. *)
Definition names_fix (field : list Z) : bool :=
  forallb (fun i => is_upper (field.[i])) [0; 1; 2; 3; 4]%nat &&
  let c := field.[5%nat] in ((c =? 0) || (c =? 13) || (c =? 10)).

Fixpoint find_first {A} (f : list Z -> option A) (l : list (list Z)) : option A :=
  match l with
  | [] => None
  | x :: l => match f x with Some r => Some r | None => find_first f l end
  end.

(** * Lemmas *)

Lemma starts_with_split s p : starts_with s p = true -> exists post, p = s ++ post.
Proof.
  revert p. induction s as [|a s IH]; intros p H; [by exists p|]. destruct p as [|b p]; [done|].
  cbn in H. apply andb_true_iff in H as [->%Z.eqb_eq H]. apply IH in H as [post ->]. by exists post.
Qed.

Lemma strstr_split p s q : strstr p s = Some q -> exists pre post, p = pre ++ s ++ post /\ q = s ++ post.
Proof.
  revert q. induction p as [|c p IH]; intros q; cbn [strstr].
  - destruct (starts_with s []) eqn:E; [|done]. intros [= <-]. apply starts_with_split in E as [post ->].
    by exists [], post.
  - destruct (starts_with s (c :: p)) eqn:E.
    + intros [= <-]. apply starts_with_split in E as [post ->]. by exists [], post.
    + intros (pre & post & -> & ->)%IH. by exists (c :: pre), post.
Qed.

Lemma span_all f p : Forall (fun c => f c = true) (fst (span f p)).
Proof.
  induction p as [|c p IH]; [constructor|]. cbn [span]. destruct (f c) eqn:E; [|constructor].
  destruct (span f p). by constructor.
Qed.

Lemma span_next f p : f 0 = false -> f (deref (snd (span f p))) = false.
Proof.
  intros H0. induction p as [|c p IH]; [done|]. cbn [span]. destruct (f c) eqn:E; [|done].
  by destruct (span f p).
Qed.

Lemma span_inv f p a b : span f p = (a, b) -> p = a ++ b /\ Forall (fun c => f c = true) a.
Proof.
  intros E. pose proof (span_split f p) as H. pose proof (span_all f p) as H'. by rewrite E in *.
Qed.

Lemma digits_upto_inv n p a b : digits_upto n p = (a, b) ->
  p = a ++ b /\ Forall (fun c => is_digit c = true) a.
Proof.
  revert p a b. induction n as [|n IH]; intros p a b; [by intros [= <- <-]|].
  destruct p as [|c p]; cbn [digits_upto]; [by intros [= <- <-]|].
  destruct (is_digit c) eqn:E; [|by intros [= <- <-]].
  destruct (digits_upto n p) as [a' b'] eqn:Ed. intros [= <- <-]. apply IH in Ed as [-> Hd]. split; [done|by constructor].
Qed.

Lemma dir_cases c a b : (c =? a) || (c =? b) = true -> c = a \/ c = b.
Proof. rewrite orb_true_iff, !Z.eqb_eq. done. Qed.

(** A direction letter is never the terminator, so it stands in the string. *)
Lemma deref_cons p c : deref p = c -> c <> 0 -> p = c :: drop 1 p.
Proof. destruct p as [|x p]; intros <-; [done|]. by rewrite drop_0 || (cbn; by rewrite drop_0). Qed.

Lemma dir_nonzero c : c = c_N \/ c = c_S \/ c = c_E \/ c = c_W -> c <> 0.
Proof. unfold c_N, c_S, c_E, c_W. lia. Qed.

Lemma format1_sound text r : format1 text = Some r -> written text r.
Proof.
  unfold format1. destruct (strstr text s_POS) as [p|] eqn:E; [|done].
  apply strstr_split in E as (pre & post & -> & ->). change (drop 3 (s_POS ++ post)) with (drop 0 post). rewrite drop_0.
  destruct (_ || _) eqn:E1; [|done]. apply dir_cases in E1.
  destruct (digits_upto 5 _) as [lat p] eqn:Ed. destruct (Nat.eqb_spec (length lat) 5) as [Hl|]; [|done].
  destruct ((deref p =? c_E) || _) eqn:E2; [|done]. apply dir_cases in E2.
  destruct (digits_upto 6 _) as [lon q] eqn:Ed2. destruct (Nat.eqb_spec (length lon) 6) as [Hl2|]; [|done].
  destruct (in_range _ _) eqn:Er; [|done]. intros [= <-].
  apply digits_upto_inv in Ed as [Hp Hd]. apply digits_upto_inv in Ed2 as [Hq Hd2].
  rewrite (deref_cons post (deref post)) by (done || apply dir_nonzero; tauto). rewrite Hp.
  rewrite (deref_cons p (deref p)) by (done || apply dir_nonzero; tauto). rewrite Hq.
  apply (written_thousandths pre q (deref post) lat (deref p) lon); auto. by apply Forall_app.
Qed.

Lemma format2_at_sound pre s r : format2_at s = Some r -> written (pre ++ s) r.
Proof.
  unfold format2_at. destruct (_ && is_digit _) eqn:E1; [|done]. apply andb_true_iff in E1 as [E1%dir_cases _].
  destruct (span is_digit (drop 1 s)) as [lat p] eqn:Es. destruct ((length lat =? 5)%nat && _) eqn:E2; [|done].
  apply andb_true_iff in E2 as [Hl%Nat.eqb_eq E2%dir_cases].
  destruct (span is_digit (drop 1 p)) as [lon q] eqn:Es2. destruct (Nat.eqb_spec (length lon) 6) as [Hl2|]; [|done].
  destruct (_ && _) eqn:Eg; [|done]. intros [= <-]. bsplit.
  pose proof (span_next is_digit (drop 1 p) eq_refl) as Hn. rewrite Es2 in Hn.
  apply span_inv in Es as [Hp Hd]. apply span_inv in Es2 as [Hq Hd2].
  rewrite (deref_cons s (deref s)) by (done || apply dir_nonzero; tauto). rewrite Hp.
  rewrite (deref_cons p (deref p)) by (done || apply dir_nonzero; tauto). rewrite Hq.
  apply (written_minutes pre q (deref s) lat (deref p) lon); auto. by apply Forall_app.
Qed.

Lemma format2_sound text r : format2 text = Some r -> written text r.
Proof.
  assert (forall pre, format2 text = Some r -> written (pre ++ text) r) as H; [|apply (H [])].
  induction text as [|c text IH]; intros pre; cbn [format2]; [done|].
  destruct (format2_at (c :: text)) as [r'|] eqn:E.
  - intros [= ->]. by apply format2_at_sound.
  - intros H. specialize (IH (pre ++ [c]) H). by rewrite <- app_assoc in IH.
Qed.

Lemma blanks_split p : exists b, p = b ++ skip_blanks p /\ Forall (fun c => c = 32) b.
Proof.
  exists (fst (span (fun c => c =? 32) p)). split; [apply span_split|].
  eapply Forall_impl; [apply span_all|]. intros c. apply Z.eqb_eq.
Qed.

Lemma format3_sound text r : format3 text = Some r -> written text r.
Proof.
  unfold format3. destruct (strstr text s_LAT) as [p|] eqn:E; [|done].
  apply strstr_split in E as (pre & post & -> & ->). change (drop 3 (s_LAT ++ post)) with (drop 0 post). rewrite drop_0.
  destruct (blanks_split post) as (b1 & Hb1 & Hf1). set (p1 := skip_blanks post) in *.
  destruct ((deref p1 =? c_N) || _) eqn:E1; [|done]. apply dir_cases in E1.
  destruct (blanks_split (drop 1 p1)) as (b2 & Hb2 & Hf2). set (p2 := skip_blanks (drop 1 p1)) in *.
  destruct (strtod p2) as [la e1] eqn:Ela. destruct (_ && f64_leb la _) eqn:Eg; [|done].
  destruct (strstr e1 s_LON) as [lp|] eqn:E; [|done].
  apply strstr_split in E as (mid & post2 & -> & ->). change (drop 3 (s_LON ++ post2)) with (drop 0 post2). rewrite drop_0.
  destruct (blanks_split post2) as (b3 & Hb3 & Hf3). set (q1 := skip_blanks post2) in *.
  destruct ((deref q1 =? c_E) || _) eqn:E2; [|done]. apply dir_cases in E2.
  destruct (blanks_split (drop 1 q1)) as (b4 & Hb4 & Hf4). set (q2 := skip_blanks (drop 1 q1)) in *.
  destruct (strtod q2) as [lo e2] eqn:Elo. destruct (_ && f64_leb lo _) eqn:Eg2; [|done]. intros [= <-].
  rewrite Hb1, (deref_cons p1 (deref p1)), Hb2 by (done || apply dir_nonzero; tauto).
  apply (written_decimal pre b1 b2 p2 (deref p1) la mid post2 b3 b4 q2 (deref q1) lo e2); auto.
  - by repeat (apply Forall_app; split).
  - rewrite Hb3 at 1. f_equal. rewrite (deref_cons q1 (deref q1)) at 1 by (done || apply dir_nonzero; tauto).
    cbn [app]. f_equal. exact Hb4.
  - unfold in_range. apply andb_true_iff in Eg as [[_ ->]%andb_true_iff ->].
    by apply andb_true_iff in Eg2 as [[_ ->]%andb_true_iff ->].
Qed.

(** ** Completeness of the minute format *)

Lemma digit_not_dir c : is_digit c = true -> c <> c_N /\ c <> c_S /\ c <> c_E /\ c <> c_W.
Proof. unfold is_digit, c_N, c_S, c_E, c_W. intros H. bsplit. lia. Qed.

Lemma not_digit_dir c : c = c_E \/ c = c_W -> is_digit c = false.
Proof. by intros [-> | ->]. Qed.

Lemma format2_at_complete d1 lat d2 lon post :
  d1 = c_N \/ d1 = c_S -> d2 = c_E \/ d2 = c_W ->
  Forall (fun c => is_digit c = true) (lat ++ lon) -> length lat = 5%nat -> length lon = 6%nat ->
  is_digit (deref post) = false ->
  dec_value (take 2 lat) <= 90 -> dec_value (drop 2 lat) < 600 ->
  dec_value (take 3 lon) <= 180 -> dec_value (drop 3 lon) < 600 ->
  format2_at ([d1] ++ lat ++ [d2] ++ lon ++ post) =
    Some (signed d1 c_S (minutes_value (dec_value (take 2 lat)) (dec_value (drop 2 lat))),
          signed d2 c_W (minutes_value (dec_value (take 3 lon)) (dec_value (drop 3 lon)))).
Proof.
  intros H1 H2 [Hd Hd2]%Forall_app Hl Hl2 Hn Ha Hb Hc He. unfold format2_at.
  change (deref ([d1] ++ lat ++ [d2] ++ lon ++ post)) with d1.
  replace ((d1 =? c_N) || (d1 =? c_S)) with true by (destruct H1 as [-> | ->]; done).
  destruct lat as [|x lat]; [done|].
  change (([d1] ++ (x :: lat) ++ [d2] ++ lon ++ post).[1%nat]) with x.
  pose proof Hd as Hd'. apply Forall_cons in Hd' as [-> _]. cbn [andb].
  change (drop 1 ([d1] ++ (x :: lat) ++ [d2] ++ lon ++ post)) with (drop 0 ((x :: lat) ++ [d2] ++ lon ++ post)).
  rewrite drop_0, span_app by (done || by apply not_digit_dir). rewrite Hl. change (5 =? 5)%nat with true.
  change (deref ([d2] ++ lon ++ post)) with d2.
  replace ((d2 =? c_E) || (d2 =? c_W)) with true by (destruct H2 as [-> | ->]; done). cbn [andb].
  change (drop 1 ([d2] ++ lon ++ post)) with (drop 0 (lon ++ post)). rewrite drop_0, span_app by done.
  rewrite Hl2. change (6 =? 6)%nat with true. cbn iota.
  rewrite (proj2 (Z.leb_le _ _) Ha), (proj2 (Z.ltb_lt _ _) Hb), (proj2 (Z.leb_le _ _) Hc), (proj2 (Z.ltb_lt _ _) He).
  done.
Qed.

(** No place before is read as a position. *)
Lemma format2_skip pre s : Forall (fun c => c <> c_N /\ c <> c_S) pre -> format2 (pre ++ s) = format2 s.
Proof.
  induction 1 as [|c pre [H1 H2] _ IH]; [done|]. cbn [app format2]. unfold format2_at.
  change (deref (c :: pre ++ s)) with c.
  by rewrite (proj2 (Z.eqb_neq _ _) H1), (proj2 (Z.eqb_neq _ _) H2).
Qed.

(** ** Fields *)

Lemma fields_seps a p : Forall (fun c => is_sep c = true) a -> fields (a ++ p) = fields p.
Proof. induction 1 as [|c a Hc _ IH]; [done|]. unfold fields. cbn [app fields_go]. rewrite Hc. apply IH. Qed.

Lemma fields_go_token tok cur p : Forall (fun c => not_sep c = true) tok ->
  fields_go cur (tok ++ p) = fields_go (rev tok ++ cur) p.
Proof.
  intros Ht. revert cur. induction Ht as [|c tok Hc _ IH]; intros cur; [done|]. cbn [app fields_go rev].
  unfold not_sep in Hc. apply negb_true_iff in Hc. rewrite Hc, IH. by rewrite <- app_assoc.
Qed.

Lemma fields_token tok p : Forall (fun c => not_sep c = true) tok -> tok <> [] -> not_sep (deref p) = false \/ p = [] ->
  fields (tok ++ p) = tok :: fields p.
Proof.
  intros Ht Hne Hp. unfold fields. rewrite fields_go_token, app_nil_r by done.
  assert (rev tok <> []) as Hr by (intros E; apply (f_equal (@rev Z)) in E; rewrite rev_involutive in E; done).
  destruct p as [|c p]; cbn [fields_go].
  - destruct (rev tok) as [|x l] eqn:E; [done|]. by rewrite <- E, rev_involutive.
  - destruct Hp as [Hp|]; [|done]. change (deref (c :: p)) with c in Hp. unfold not_sep in Hp.
    apply negb_false_iff in Hp. rewrite Hp.
    destruct (rev tok) as [|x l] eqn:E; [done|]. by rewrite <- E, rev_involutive.
Qed.

Lemma span_not_sep_rest p : not_sep (deref (snd (span not_sep p))) = false \/ snd (span not_sep p) = [].
Proof.
  induction p as [|c p IH]; [by right|]. cbn [span]. destruct (not_sep c) eqn:E; [|by left].
  by destruct (span not_sep p).
Qed.

Lemma rd_app_l (l m : list Z) i : (i < length l)%nat -> (l ++ m).[i] = l.[i].
Proof. intros Hi. unfold rd. by rewrite app_nth1. Qed.

Lemma rd_app_len (l m : list Z) : (l ++ m).[length l] = deref m.
Proof. unfold rd, deref. by rewrite app_nth2, Nat.sub_diag by lia. Qed.

Lemma is_upper_not_sep c : is_upper c = true -> is_sep c = false /\ c <> 0.
Proof. unfold is_upper, is_sep. intros H. bsplit. zguards; split; (done || lia). Qed.

Lemma end_cases p : not_sep (deref p) = false \/ p = [] -> is_sep (deref p) = true \/ deref p = 0.
Proof. unfold not_sep. intros [H| ->]; [left; by apply negb_false_iff|by right]. Qed.

Lemma five_letters_token tok p : Forall (fun c => not_sep c = true) tok -> not_sep (deref p) = false \/ p = [] ->
  five_letters (tok ++ p) = names_fix tok /\ (names_fix tok = true -> take 5 (tok ++ p) = take 5 tok).
Proof.
  intros Ht Hp%end_cases. destruct (decide (length tok < 5)%nat) as [Hs|Hs].
  - assert (is_upper ((tok ++ p).[length tok]) = false) as Hu.
    { rewrite rd_app_len. apply not_true_iff_false. intros [H1 H2]%is_upper_not_sep. destruct Hp; congruence. }
    assert (is_upper (tok.[length tok]) = false) as Hu2 by (unfold rd; by rewrite nth_overflow by lia).
    assert (forall l, is_upper (l.[length tok]) = false -> forallb (fun i => is_upper (l.[i])) [0; 1; 2; 3; 4]%nat = false) as Hf.
    { intros l Hl. apply not_true_iff_false. rewrite forallb_forall. intros H.
      rewrite (H (length tok)) in Hl; [done|]. cbn [In]. lia. }
    unfold five_letters, names_fix. by rewrite (Hf _ Hu), (Hf _ Hu2).
  - split; [|intros _; by rewrite take_app_le by lia].
    unfold five_letters, names_fix. cbn [forallb]. rewrite !rd_app_l by lia. f_equal.
    destruct (decide (length tok = 5)%nat) as [H5|H5].
    + rewrite <- H5, rd_app_len. replace (tok.[length tok]) with 0 by (unfold rd; by rewrite nth_overflow by lia).
      destruct Hp as [->| ->]; done.
    + rewrite rd_app_l by lia. rewrite Forall_forall in Ht. specialize (Ht (tok.[5%nat])).
      unfold not_sep in Ht. rewrite (proj1 (negb_true_iff _) (Ht ltac:(apply list_elem_of_In, nth_In; lia))). done.
Qed.

Section waypoint_scan.
Context {D : Type} `{WaypointSource D}.

(** What one field contributes. *)
Definition resolve (d : D) (field : list Z) : option (f64 * f64) :=
  if names_fix field then wp_find d (take 5 field) else None.

Lemma scan_waypoints_fields fuel (d : D) scan : (length scan <= fuel)%nat ->
  scan_waypoints fuel d scan = find_first (resolve d) (later_fields scan).
Proof.
  revert scan. induction fuel as [|fuel IH]; intros scan Hl; [by destruct scan; cbn in *; [|lia]|].
  destruct scan as [|c0 scan0]; [done|]. remember (c0 :: scan0) as scan eqn:Es.
  assert (scan <> []) as Hne by (by subst). cbn [scan_waypoints]. rewrite Es at 1. cbn iota. unfold later_fields. cbv zeta.
  destruct (span not_sep scan) as [a p1] eqn:E1. cbn [snd]. destruct (span is_sep p1) as [b p2] eqn:E2. cbn [snd].
  destruct (span not_sep p2) as [tok p3] eqn:E3. cbn [snd].
  pose proof (span_not_sep_rest p2) as Hp3. rewrite E3 in Hp3. cbn [snd] in Hp3.
  pose proof (span_next is_sep p1 eq_refl) as Hx2. rewrite E2 in Hx2. cbn [snd] in Hx2.
  apply span_inv in E1 as [H1 _]. apply span_inv in E2 as [H2 Hb]. apply span_inv in E3 as [H3 Htok].
  assert (length scan = length a + (length b + (length tok + length p3)))%nat as Hlen
    by (by rewrite H1, H2, H3, !length_app).
  destruct (decide (tok = [])) as [->|Htok0].
  - assert (p2 = []) as ->.
    { destruct p2 as [|x p2]; [done|]. exfalso. cbn [app] in H3. subst p3. destruct Hp3 as [Hx|]; [|done].
      change (deref (x :: p2)) with x in *. unfold not_sep in Hx. by rewrite Hx2 in Hx. }
    rewrite H2, app_nil_r. rewrite <- (app_nil_r b), fields_seps by done. cbn in H3. subst p3.
    by destruct fuel.
  - assert (length p3 <= fuel)%nat as Hl3 by (destruct tok; [done|cbn in Hlen; lia]).
    destruct (five_letters_token tok p3 Htok Hp3) as [H5 Ht5].
    rewrite H2, fields_seps, H3, fields_token by done. cbn [find_first]. rewrite H5. unfold resolve at 1.
    replace (if names_fix tok then wp_find d (take 5 (tok ++ p3)) else None)
      with (if names_fix tok then wp_find d (take 5 tok) else None)
      by (destruct (names_fix tok); [by rewrite Ht5|done]).
    destruct (if names_fix tok then _ else _); [done|]. rewrite IH by done. unfold later_fields.
    do 2 f_equal. destruct Hp3 as [Hx| ->]; [|done]. destruct p3 as [|x p3]; [done|]. cbn [span].
    change (deref (x :: p3)) with x in Hx. by rewrite Hx.
Qed.
End waypoint_scan.

Lemma find_first_Some {A} (f : list Z -> option A) l r : find_first f l = Some r ->
  exists before x after, l = before ++ x :: after /\ f x = Some r /\ Forall (fun y => f y = None) before.
Proof.
  induction l as [|x l IH]; cbn [find_first]; [done|]. destruct (f x) as [r'|] eqn:E.
  - intros [= ->]. by exists [], x, l.
  - intros (b & y & a & -> & Hy & Hb)%IH. exists (x :: b), y, a. by repeat split; [|constructor].
Qed.

Lemma find_first_None {A} (f : list Z -> option A) l : find_first f l = None -> Forall (fun y => f y = None) l.
Proof.
  induction l as [|x l IH]; cbn [find_first]; [constructor|]. destruct (f x) eqn:E; [done|].
  intros. constructor; auto.
Qed.

(** A fix the source does not have. *)
Definition unknown_fix {D} `{WaypointSource D} (d : D) (field : list Z) : Prop :=
  names_fix field = true -> forall lat lon, ~ wp_has d (take 5 field) lat lon.

Lemma resolve_none {D} `{WaypointSource D} (d : D) field : resolve d field = None -> unknown_fix d field.
Proof.
  unfold resolve, unknown_fix. intros Hr Hn lat lon Hh. rewrite Hn in Hr.
  apply wp_find_complete in Hh as [p Hp]. congruence.
Qed.

(** ** Concrete inputs for the witnesses *)

Definition demo_db : loaded_db := waypoint_db_load demo_csv ↾ load_sorted demo_csv.

(** "FUEL,NORTH,DINIM/1200": NORTH is not in the database. *)
Definition demo_route : list Z :=
  [70; 85; 69; 76; 44; 78; 79; 82; 84; 72; 44; 68; 73; 78; 73; 77; 47; 49; 50; 48; 48].
(** "/N33521W084123," *)
Definition demo_minutes : list Z := [47; 78; 51; 51; 53; 50; 49; 87; 48; 56; 52; 49; 50; 51; 44].

(** * Observations *)

(** The name at the very start of a text is passed over: only names after a
    separator are looked up. *)
Theorem leading_fix_skipped :
  acars_extract_waypoint_position demo_db [52; 52] [68; 73; 78; 73; 77; 44; 49] = None /\
  acars_extract_waypoint_position demo_db [52; 52] [44; 68; 73; 78; 73; 77; 44; 49] = Some (f64_of_Z 51, f64_of_Z (-15)).
Proof. vm_compute. split; reflexivity. Qed.

(** The minute format accepts a latitude beyond the pole: "N90599E000000". *)
Theorem minutes_beyond_pole :
  exists lat lon, acars_extract_text_position [52; 52] [78; 57; 48; 53; 57; 57; 69; 48; 48; 48; 48; 48; 48] = Some (lat, lon) /\
    f64_ltb (f64_of_Z 90) lat = true.
Proof. do 2 eexists. split; [vm_compute; reflexivity|]. vm_compute. reflexivity. Qed.

(** * Properties *)

(** No position is invented: when one is extracted, the label is
    one of those that carry the aircraft's position, the message is not a
    flight plan, and the text contains the position written in one of the three
    formats. *)
Theorem text_position_sound (label text : list Z) (r : f64 * f64) :
  acars_extract_text_position label text = Some r ->
  label_ok label = true /\ flight_plan label text = false /\ written text r.
Proof.
  unfold acars_extract_text_position. destruct text as [|c text]; [done|].
  destruct (label_ok label); [|done]. destruct (flight_plan _ _); [done|]. cbn [negb].
  destruct (format1 (c :: text)) eqn:E1; [intros [= <-]; auto using format1_sound|].
  destruct (format2 (c :: text)) eqn:E2; [intros [= <-]; auto using format2_sound|].
  intros H. auto using format3_sound.
Qed.

Lemma text_position_sound_witness :
  exists r, acars_extract_text_position [52; 52] demo_minutes = Some r /\ written demo_minutes r.
Proof.
  eexists. split; [vm_compute; reflexivity|]. apply (text_position_sound [52; 52] demo_minutes). vm_compute. reflexivity.
Defined.

(** A position written in degrees and tenths of minutes is read
    back: in a text without the POS tag, the first N or S followed by five
    digits, E or W and six digits gives degrees plus minutes, negative for S and
    W, whatever precedes and follows. *)
Theorem minutes_position_read (label pre post : list Z) (d1 : Z) (lat : list Z) (d2 : Z) (lon : list Z) :
  let text := pre ++ [d1] ++ lat ++ [d2] ++ lon ++ post in
  label_ok label = true -> flight_plan label text = false -> strstr text s_POS = None ->
  Forall (fun c => c <> c_N /\ c <> c_S) pre ->
  d1 = c_N \/ d1 = c_S -> d2 = c_E \/ d2 = c_W ->
  Forall (fun c => is_digit c = true) (lat ++ lon) -> length lat = 5%nat -> length lon = 6%nat ->
  is_digit (deref post) = false ->
  let lat_deg := dec_value (take 2 lat) in let lat_min10 := dec_value (drop 2 lat) in
  let lon_deg := dec_value (take 3 lon) in let lon_min10 := dec_value (drop 3 lon) in
  lat_deg <= 90 -> lat_min10 < 600 -> lon_deg <= 180 -> lon_min10 < 600 ->
  acars_extract_text_position label text =
    Some (signed d1 c_S (minutes_value lat_deg lat_min10), signed d2 c_W (minutes_value lon_deg lon_min10)).
Proof.
  intros text Hlab Hfp Hpos Hpre H1 H2 Hd Hl Hl2 Hn lat_deg lat_min10 lon_deg lon_min10 Ha Hb Hc He.
  assert (format2 text = Some (signed d1 c_S (minutes_value lat_deg lat_min10), signed d2 c_W (minutes_value lon_deg lon_min10))) as H.
  { unfold text. rewrite format2_skip by done.
    pose proof (format2_at_complete d1 lat d2 lon post H1 H2 Hd Hl Hl2 Hn Ha Hb Hc He) as H.
    cbn [app format2] in *. by rewrite H. }
  unfold acars_extract_text_position. destruct text as [|c text']; [done|].
  rewrite Hlab, Hfp. cbn [negb]. unfold format1. rewrite Hpos. by rewrite H.
Qed.

Lemma minutes_position_read_witness :
  acars_extract_text_position [52; 52] demo_minutes =
    Some (minutes_value 33 521, f64_opp (minutes_value 84 123)).
Proof.
  apply (minutes_position_read [52; 52] [47] [44] c_N [51; 51; 53; 50; 49] c_W [48; 56; 52; 49; 50; 51]);
    try reflexivity; try (by left); try (by right); try (by vm_compute); try eval_dec.
Defined.

(** The waypoint search resolves the first known name: among
    the separated fields after the first one, the position returned is the
    database's for a five-letter field, all such fields before it are unknown
    to the database, and nothing is returned only when all are unknown. *)
Theorem waypoint_position_first {D} `{WaypointSource D} (d : D) (label text : list Z) :
  label_ok label = true -> flight_plan label text = false ->
  let body := if starts_with s_POS text then drop 3 text else text in
  match acars_extract_waypoint_position d label text with
  | Some (lat, lon) =>
      exists before field after, later_fields body = before ++ field :: after /\
        names_fix field = true /\ wp_has d (take 5 field) lat lon /\ Forall (unknown_fix d) before
  | None => Forall (unknown_fix d) (later_fields body)
  end.
Proof.
  intros Hl Hf body. unfold acars_extract_waypoint_position. destruct text as [|c text]; [constructor|].
  rewrite Hl, Hf. cbn [negb]. fold body. rewrite scan_waypoints_fields by done.
  destruct (find_first (resolve d) (later_fields body)) as [[lat lon]|] eqn:E.
  - apply find_first_Some in E as (b & x & a & Hb & Hx & Hn). exists b, x, a. split; [done|].
    unfold resolve in Hx. destruct (names_fix x); [|done]. split; [done|].
    split; [by apply wp_find_sound|]. eapply Forall_impl; [done|]. apply resolve_none.
  - apply find_first_None in E. eapply Forall_impl; [exact E|]. apply resolve_none.
Qed.

Lemma waypoint_position_first_witness :
  acars_extract_waypoint_position demo_db [72; 49] demo_route = Some (f64_of_Z 51, f64_of_Z (-15)) /\
  exists before field after, later_fields demo_route = before ++ field :: after /\ names_fix field = true.
Proof.
  assert (acars_extract_waypoint_position demo_db [72; 49] demo_route = Some (f64_of_Z 51, f64_of_Z (-15))) as E
    by (vm_compute; reflexivity).
  split; [exact E|]. pose proof (waypoint_position_first demo_db [72; 49] demo_route eq_refl eq_refl) as H.
  rewrite E in H. destruct H as (b & x & a & Hb & Hx & _). exists b, x, a. split; [exact Hb|exact Hx].
Defined.
