(* ===== verification/Acars.v ===== *)
(** The ACARS parser of [src/sbd_acars.c] for builds without libacars:
    checksum, parity, field extraction, and the outputs made from a message
    (JSON line, text line, aggregator feed, web map, BaseStation).

    A call of an output function is an event; the counters, and the time base
    [ts_ensure_init] captures, are the state.  The runtime options are
    [config]; what the clocks say is [env].  The beam cache and the waypoint
    database are read through their own models. *)
From S2P Require Import Prelude CFloat CString CNumber CFormat Kermit JsonText BeamCache WaypointDb AcarsPos.
#[local] Open Scope Z_scope.

(** * Data *)

Record config := Config {
  acars_json : bool;
  acars_enabled : bool;
  udp_count : nat;
  n_feeds : nat;
  web_enabled : bool;
  basestation_enabled : bool;
  basestation_beam : bool;
  station : option (list Z);
}.

(** [clock_gettime(CLOCK_REALTIME)] and [time(NULL)] at the call. *)
Record env := Env { clock_sec : Z; clock_nsec : Z; now_sec : Z }.

Record acars_state := Acars {
  first_ts_ns : Z;
  wall_t0 : option (Z * Z);
  stat_acars_total : Z;
  stat_acars_errors : Z;
  stat_pos_text : Z;
  stat_pos_beam : Z;
  stat_bs_sent : Z;
}.

Inductive acars_event :=
  | StdoutJson (line : list Z)
  | UdpJson (endpoint : nat) (datagram : list Z)
  | StdoutText (line : list Z)
  | FeedJson (buf : list Z)
  | WebMessage (reg flight label text : list Z) (ul : bool) (timestamp : Z)
  | WebAircraft (reg : list Z) (lat lon : f64) (sat beam : Z) (timestamp : Z) (frequency : f64) (exact : bool)
  | BasePosition (reg : list Z) (lat lon : f64) (timestamp : Z).

(** What an IDA message brings with it. *)
Record meta := Meta { a_ul : bool; a_timestamp : Z; a_frequency : f64; a_magnitude : f32 }.

(** * Numbers and times as text *)

Definition fmt_02x (b : Z) : list Z := bytes_of (pad0 2 (fmt_x b)).

(** [gmtime_r] and [strftime] with "%Y-%m-%dT%H:%M:%SZ". *)
Definition iso_time (sec : Z) : list Z :=
  let '(y, m, d) := civil (sec / 86400) in
  let s := sec mod 86400 in
  let two n := pad0 2 (fmt_d n) in
  bytes_of (String.concat "" [fmt_d y; "-"; two m; "-"; two d; "T"; two (s / 3600); ":"; two (s / 60 mod 60); ":"; two (s mod 60); "Z"])%string.

(** [ts_ensure_init]. *)
Definition ts_ensure_init (e : env) (st : acars_state) (ts_ns : Z) : acars_state :=
  Acars (if first_ts_ns st =? 0 then ts_ns else first_ts_ns st)
    (match wall_t0 st with Some w => Some w | None => Some (clock_sec e, clock_nsec e) end)
    (stat_acars_total st) (stat_acars_errors st) (stat_pos_text st) (stat_pos_beam st) (stat_bs_sent st).

Definition wall_base (st : acars_state) : Z * Z := default (0, 0) (wall_t0 st).

Definition elapsed (st : acars_state) (ts_ns : Z) : f64 :=
  f64_div (f64_of_Z (u64 (ts_ns - first_ts_ns st))) (f64_of_Z 1000000000).

Definition format_timestamp (e : env) (st : acars_state) (ts_ns : Z) : acars_state * list Z :=
  let st := ts_ensure_init e st ts_ns in
  (st, iso_time (fst (wall_base st) + f64_trunc (elapsed st ts_ns))).

Definition ts_to_unix (e : env) (st : acars_state) (ts_ns : Z) : acars_state * f64 :=
  let st := ts_ensure_init e st ts_ns in
  (st, f64_add (f64_add (f64_of_Z (fst (wall_base st)))
                        (f64_div (f64_of_Z (snd (wall_base st))) (f64_of_Z 1000000000)))
               (elapsed st ts_ns)).

(** * Message fields *)

(** Removal of ETX or ETB: the rest and whether more blocks follow. *)
Definition strip_end (rest : list Z) : list Z * bool :=
  match last rest with
  | Some 0x03 => (removelast rest, false)
  | Some 0x17 => (removelast rest, true)
  | _ => (rest, false)
  end.

(** Message number, sequence, flight and text of the part after the block id;
    [None] is a null [txt]. *)
Record text_part := TextPart { t_msg_num : list Z; t_seq : Z; t_flight : list Z; t_txt : option (list Z) }.

Definition split_text (ul : bool) (rest : list Z) : text_part :=
  if (0 <? List.length rest)%nat && (rest.[0%nat] =? 0x02) then
    if ul && (11 <=? List.length rest)%nat then
      TextPart (cstr (slice rest 1 4)) (rest.[4%nat]) (cstr (slice rest 5 11)) (Some (drop 11 rest))
    else TextPart [] 0 [] (Some (drop 1 rest))
  else TextPart [] 0 [] None.

(** The registration without leading dots. *)
Definition strip_dots (reg : list Z) : list Z := snd (span (fun c => c =? 46) reg).
Definition tail_of (data : list Z) : list Z := cstr (strip_dots (slice data 1 8)).

(** The label; DEL after an underscore becomes [subst]. *)
Definition label_of (subst : Z) (data : list Z) : list Z :=
  if (data.[9%nat] =? 95) && (data.[10%nat] =? 0x7f) then [95; subst]
  else cstr [data.[9%nat]; data.[10%nat]].

Definition opt_text (t : option (list Z)) : list Z := default [] t.

(** * Outputs *)

Definition bool_text (b : bool) : list Z := bytes_of (if b then "true" else "false").
Definition quoted (name : string) (value : list Z) : list Z :=
  bytes_of (String.append "," (String.append (str1 (chr 34)) (String.append name (String.append (str1 (chr 34))
    (String.append ":" (str1 (chr 34))))))) ++ value ++ [34].
Definition plain (name : string) (value : list Z) : list Z :=
  bytes_of (String.append "," (String.append (str1 (chr 34)) (String.append name (String.append (str1 (chr 34)) ":")))) ++ value.

(** Text in which an apostrophe stands for a quotation mark. *)
Definition q (s : string) : list Z := map (fun c => if c =? 39 then 34 else c) (bytes_of s).

(** [json_buf_emit]. *)
Definition json_buf_emit (cfg : config) (buf : list Z) : list acars_event :=
  match buf with
  | [] => []
  | _ => (if acars_json cfg then [StdoutJson (buf ++ [10])] else []) ++ map (fun i => UdpJson i buf) (seq 0 (udp_count cfg))
  end.

(** The pieces [acars_output_json] appends, from the time base on. *)
Definition json_pieces (cfg : config) (data : list Z) (m : meta) (unix_time : f64) (hdr : option (list Z)) : list (list Z) :=
  let '(rest, cont) := strip_end (drop 12 data) in
  let t := split_text (a_ul m) rest in
  let tv_sec := f64_trunc unix_time in
  let tv_usec := f64_trunc (f64_mul (f64_sub unix_time (f64_of_Z tv_sec)) (f64_of_Z 1000000)) in
  let esc_text := json_escape (opt_text (t_txt t)) 2048 in
  let esc_reg := json_escape (cstr (slice data 1 8)) 64 in
  let esc_label := json_escape (label_of 100 data) 16 in
  let esc_flight := json_escape (t_flight t) 32 in
  let esc_msgnum := json_escape (t_msg_num t) 16 in
  [q "{'iridium':{'app':{'name':'iridium-sniffer','ver':'1.0'}"] ++
  match station cfg with Some s => [quoted "station" s] | None => [] end ++
  [plain "t" (q "{'sec':" ++ bytes_of (fmt_d tv_sec) ++ q ",'usec':" ++ bytes_of (fmt_d tv_usec) ++ q "}")] ++
  [plain "freq" (bytes_of (fmt_d (f64_trunc (a_frequency m))))] ++
  [plain "sig_level" (fmt_f 2 (a_magnitude m))] ++
  match hdr with Some h => [q ",'header':'"] ++ map fmt_02x h ++ [q "'"] | None => [] end ++
  [q ",'acars':{'err':false,'crc_ok':true"] ++
  [plain "more" (bool_text cont)] ++
  [quoted "reg" esc_reg] ++
  [quoted "mode" [data.[0%nat]]] ++
  [quoted "label" esc_label] ++
  [quoted "blk_id" [data.[11%nat]]] ++
  [quoted "ack" [data.[8%nat]]] ++
  (if a_ul m && negb (deref (t_flight t) =? 0) then
     [quoted "flight" esc_flight] ++ [quoted "msg_num" esc_msgnum] ++
     (if negb (t_seq t =? 0) then [quoted "msg_num_seq" [t_seq t]] else [])
   else []) ++
  match esc_text with [] => [] | _ => [quoted "msg_text" esc_text] end ++
  [q "}}}"].

Definition acars_output_json (cfg : config) (e : env) (st : acars_state) (data : list Z) (m : meta)
    (hdr : option (list Z)) : acars_state * list acars_event :=
  if (List.length data <? 13)%nat then (st, [])
  else
    let '(st, unix_time) := ts_to_unix e st (a_timestamp m) in
    (st, json_buf_emit cfg (fold_left json_buf_append (json_pieces cfg data m unix_time hdr) [])).

Definition printable (c : Z) : Z := if (0x20 <=? c) && (c <? 0x7f) then c else 46.
Definition pad_to (w : nat) (s : list Z) : list Z := s ++ replicate (w - List.length s) 32.

Definition acars_output_text (e : env) (st : acars_state) (data : list Z) (m : meta) (errors : Z)
    : acars_state * list acars_event :=
  if (List.length data <? 13)%nat then (st, [])
  else
    let '(st, ts_buf) := format_timestamp e st (a_timestamp m) in
    let '(rest, cont) := strip_end (drop 12 data) in
    let bracket from := if (from <? List.length rest)%nat then [91] ++ map printable (drop from rest) ++ [93] else [] in
    let line :=
      bytes_of "ACARS: " ++ ts_buf ++ [32] ++ bytes_of (if a_ul m then "UL" else "DL") ++ bytes_of " Mode:" ++
      [data.[0%nat]] ++ bytes_of " REG:" ++ pad_to 7 (tail_of data) ++ [32] ++
      (if data.[8%nat] =? 0x15 then bytes_of "NAK  " else bytes_of "ACK:" ++ [data.[8%nat]] ++ [32]) ++
      bytes_of "Label:" ++ label_of 63 data ++ bytes_of " bID:" ++ [data.[11%nat]] ++ [32] ++
      (if (0 <? List.length rest)%nat && (rest.[0%nat] =? 0x02) then
         if a_ul m && (11 <=? List.length rest)%nat then
           bytes_of "SEQ:" ++ take 4 (cstr (drop 1 rest)) ++ bytes_of " FNO:" ++ take 6 (cstr (drop 5 rest)) ++ [32] ++ bracket 11%nat
         else bracket 1%nat
       else []) ++
      (if cont then bytes_of " CONT'd" else []) ++
      (if 0 <? errors then bytes_of " ERRORS" else []) ++ [10] in
    (st, [StdoutText line]).

(** The fields of a message for the aggregators. *)
Record hub_msg := HubMsg {
  h_mode : list Z; h_tail : list Z; h_ack : Z; h_label : list Z; h_block_id : Z; h_block_end : bool;
  h_text : list Z; h_flight : list Z; h_msg_num : list Z;
}.

(** [hub_emit_acars]. *)
Definition hub_pieces (cfg : config) (e : env) (h : hub_msg) (m : meta) (hdr : option (list Z)) (errors : Z) : list (list Z) :=
  [q "{'app':{'name':'iridium-toolkit','version':'0.0.1'}"] ++
  [q ",'source':{'transport':'iridium','protocol':'acars'"] ++
  match station cfg with Some s => [quoted "station_id" s] | None => [] end ++
  [q "}"] ++
  [q ",'acars':{'timestamp':'" ++ iso_time (now_sec e) ++ [34]] ++
  [plain "errors" (bytes_of (fmt_d errors))] ++
  [quoted "link_direction" (bytes_of (if a_ul m then "uplink" else "downlink"))] ++
  [plain "block_end" (bool_text (h_block_end h))] ++
  [quoted "mode" (h_mode h)] ++
  [quoted "tail" (hub_json_escape (h_tail h) 64)] ++
  [quoted "label" (hub_json_escape (h_label h) 16)] ++
  [quoted "block_id" [h_block_id h]] ++
  [quoted "ack" [if h_ack h =? 0x15 then 33 else h_ack h]] ++
  match h_flight h with [] => [] | f => [quoted "flight" (hub_json_escape f 32)] end ++
  match h_msg_num h with [] => [] | n => [quoted "message_number" (hub_json_escape n 16)] end ++
  [quoted "text" (hub_json_escape (h_text h) 2048)] ++
  [q "}"] ++
  [plain "freq" (fmt_f 1 (a_frequency m))] ++
  [plain "level" (fmt_f 2 (a_magnitude m))] ++
  [quoted "header" (match hdr with Some h => List.concat (map fmt_02x (take 31 h)) | None => [] end)] ++
  [q "}"].

Definition hub_emit_acars (cfg : config) (e : env) (h : hub_msg) (m : meta) (hdr : option (list Z)) (errors : Z) : list acars_event :=
  if (n_feeds cfg =? 0)%nat then []
  else [FeedJson (fold_left hub_buf_append (hub_pieces cfg e h m hdr errors) [])].

(** What the fallback parser passes. *)
Definition fallback_msg (data : list Z) (m : meta) : hub_msg :=
  let '(rest, cont) := strip_end (drop 12 data) in
  let t := split_text (a_ul m) rest in
  HubMsg (cstr [data.[0%nat]]) (tail_of data) (data.[8%nat]) (label_of 100 data) (data.[11%nat]) (negb cont)
    (opt_text (t_txt t)) (t_flight t) (t_msg_num t).

(** The web map's message list: no heartbeats, no empty texts; 255 characters. *)
Definition web_message (cfg : config) (data : list Z) (m : meta) : list acars_event :=
  let '(rest, _) := strip_end (drop 12 data) in
  let t := split_text (a_ul m) rest in
  let reg := tail_of data in
  let label := label_of 100 data in
  let txt := opt_text (t_txt t) in
  if web_enabled cfg && negb (deref reg =? 0) && (0 <? List.length txt)%nat &&
     negb ((label.[0%nat] =? 95) && (label.[1%nat] =? 100))
  then [WebMessage reg (t_flight t) label (cstr (take 255 txt)) (a_ul m) (a_timestamp m)]
  else [].

(** * The parser *)

(** The number of set bits, as the loop [for (b = c; b; b >>= 1)] counts them. *)
Fixpoint popcount (fuel : nat) (b : Z) : Z :=
  match fuel with
  | O => 0
  | S fuel => if b =? 0 then 0 else Z.land b 1 + popcount fuel (Z.shiftr b 1)
  end.
Definition odd_parity (c : Z) : bool := negb (Z.rem (popcount 8 c) 2 =? 0).

(** The first half of [acars_parse_fallback]: SOH, checksum, Iridium header and
    parity; header, text and the number of errors. *)
Definition acars_accept (data : list Z) : option (option (list Z) * list Z * Z) :=
  if (List.length data =? 0)%nat || negb (data.[0%nat] =? 0x01) then None
  else if (List.length data <=? 2)%nat then None
  else
    let data := drop 1 data in
    let len := List.length data in
    let has_crc := (3 <=? len)%nat && (data.[(len - 1)%nat] =? 0x7f) in
    let csum := slice data (len - 3) (len - 1) in
    let data := if has_crc then take (len - 3) data else data in
    let has_hdr := (0 <? List.length data)%nat && (data.[0%nat] =? 0x03) && (8 <=? List.length data)%nat in
    let hdr := if has_hdr then Some (take 8 data) else None in
    let data := if has_hdr then drop 8 data else data in
    let crc_errors :=
      if has_crc then
        if (List.length data + 2 <=? 1024)%nat then
          if crc16_kermit crc16_init (data ++ csum) =? 0 then 0 else 1
        else 0
      else 1 in
    if (List.length data <? 13)%nat then None
    else
      let parity_ok := forallb odd_parity data in
      Some (hdr, map (fun c => Z.land c 0x7F) data, crc_errors + (if parity_ok then 0 else 1)).

Section parser.
Context {D : Type} `{WaypointSource D}.

Definition bump_acars (st : acars_state) (errors : Z) : acars_state :=
  Acars (first_ts_ns st) (wall_t0 st) (stat_acars_total st + 1)
    (stat_acars_errors st + (if 0 <? errors then 1 else 0)) (stat_pos_text st) (stat_pos_beam st) (stat_bs_sent st).
Definition bump_pos (st : acars_state) (text beam sent : Z) : acars_state :=
  Acars (first_ts_ns st) (wall_t0 st) (stat_acars_total st) (stat_acars_errors st)
    (stat_pos_text st + text) (stat_pos_beam st + beam) (stat_bs_sent st + sent).

(** The position half: text coordinates, then waypoint, then beam. *)
Definition acars_position (cfg : config) (d : D) (beams : beam_cache) (st : acars_state) (data : list Z) (m : meta)
    : acars_state * list acars_event :=
  let reg := tail_of data in
  if negb (web_enabled cfg) || (deref reg =? 0) then (st, [])
  else
    let label := [data.[9%nat]; data.[10%nat]] in
    let '(rest, _) := strip_end (drop 12 data) in
    let txt := opt_text (t_txt (split_text (a_ul m) rest)) in
    let txt_z := cstr (take 2047 txt) in
    let found :=
      if (0 <? List.length txt)%nat then
        match acars_extract_text_position label txt_z with
        | Some p => Some p
        | None => acars_extract_waypoint_position d label txt_z
        end
      else None in
    let beam := beam_cache_lookup beams (a_timestamp m) in
    match found with
    | Some (lat, lon) =>
        let sat_id := match beam with Some b => bc_sat_id b | None => 0 end in
        let beam_id := match beam with Some b => bc_beam_id b | None => 0 end in
        (bump_pos st 1 0 (if basestation_enabled cfg then 1 else 0),
         [WebAircraft reg lat lon sat_id beam_id (a_timestamp m) (a_frequency m) true] ++
         (if basestation_enabled cfg then [BasePosition reg lat lon (a_timestamp m)] else []))
    | None =>
        match beam with
        | Some b =>
            (bump_pos st 0 1 0,
             [WebAircraft reg (bc_lat b) (bc_lon b) (bc_sat_id b) (bc_beam_id b) (a_timestamp m) (a_frequency m) false] ++
             (if basestation_enabled cfg && basestation_beam cfg then [BasePosition reg (bc_lat b) (bc_lon b) (a_timestamp m)] else []))
        | None => (st, [])
        end
    end.

Definition acars_parse_fallback (cfg : config) (e : env) (d : D) (beams : beam_cache) (st : acars_state)
    (data : list Z) (m : meta) : acars_state * list acars_event :=
  match acars_accept data with
  | None => (st, [])
  | Some (hdr, stripped, errors) =>
      let st := bump_acars st errors in
      let json := acars_json cfg || (0 <? udp_count cfg)%nat in
      if json && (0 <? errors) then (st, [])
      else
        let '(st, ev1) := if json then acars_output_json cfg e st stripped m hdr else (st, []) in
        let '(st, ev2) := if acars_json cfg then (st, []) else acars_output_text e st stripped m errors in
        let ev3 :=
          if (0 <? n_feeds cfg)%nat && (errors =? 0) then
            hub_emit_acars cfg e (fallback_msg stripped m) m hdr errors ++ web_message cfg stripped m
          else [] in
        let '(st, ev4) := if errors =? 0 then acars_position cfg d beams st stripped m else (st, []) in
        (st, ev1 ++ ev2 ++ ev3 ++ ev4)
  end.

(** [sbd_output_raw]. *)
Definition sbd_output_raw (cfg : config) (e : env) (st : acars_state) (data : list Z) (m : meta)
    : acars_state * list acars_event :=
  if acars_enabled cfg then (st, [])
  else
    let '(st, ts_buf) := format_timestamp e st (a_timestamp m) in
    let shown := take 64 data in
    (st, [StdoutText (bytes_of "SBD: " ++ ts_buf ++ [32] ++ bytes_of (if a_ul m then "UL" else "DL") ++ [32] ++
      List.concat (map fmt_02x shown) ++ (if (64 <? List.length data)%nat then bytes_of "..." else []) ++
      bytes_of " | " ++ map printable shown ++ [10])]).

Definition sbd_process (cfg : config) (e : env) (d : D) (beams : beam_cache) (st : acars_state)
    (sbd_data : list Z) (m : meta) : acars_state * list acars_event :=
  if (2 <? List.length sbd_data)%nat && (sbd_data.[0%nat] =? 0x01) then
    acars_parse_fallback cfg e d beams st sbd_data m
  else if (0 <? List.length sbd_data)%nat then sbd_output_raw cfg e st sbd_data m
  else (st, []).
End parser.

(** * What a transmitter sends *)

(** Odd parity in the eighth bit. *)
Definition add_parity (c : Z) : Z := if odd_parity c then c else c + 128.

Definition tx_acars (hdr : option (list Z)) (body : list Z) : list Z :=
  let coded := map add_parity body in
  let crc := crc16_kermit crc16_init coded in
  [0x01] ++ opt_text hdr ++ coded ++ [crc mod 256; crc / 256; 0x7f].

Definition ascii7 (c : Z) : Prop := 0 <= c < 128.
#[export] Instance ascii7_dec c : Decision (ascii7 c).
Proof. unfold ascii7. apply _. Defined.

(** An Iridium header is eight bytes, the first of them 3. *)
Definition hdr_ok (hdr : option (list Z)) : Prop :=
  match hdr with Some h => List.length h = 8%nat /\ h.[0%nat] = 3 /\ bytes_ok h | None => True end.

(** * Lemmas *)

Lemma byte_check (f : Z -> bool) n c : forallb (fun i => f (Z.of_nat i)) (seq 0 n) = true -> 0 <= c < Z.of_nat n -> f c = true.
Proof.
  intros H Hc. rewrite forallb_forall in H. specialize (H (Z.to_nat c)). rewrite Z2Nat.id in H by lia.
  apply H, in_seq. lia.
Qed.

(** A byte of odd parity is the coded form of its lower seven bits. *)
Lemma parity_decode c : is_byte c -> odd_parity c = true -> add_parity (Z.land c 0x7F) = c /\ ascii7 (Z.land c 0x7F).
Proof.
  intros Hc Ho. assert ((negb (odd_parity c) || (add_parity (Z.land c 0x7F) =? c)) = true) as H.
  { apply (byte_check (fun c => negb (odd_parity c) || (add_parity (Z.land c 0x7F) =? c)) 256); [vm_compute; reflexivity|].
    unfold is_byte in Hc. lia. }
  rewrite Ho in H. split; [by apply Z.eqb_eq|]. unfold ascii7. rewrite (land_mask _ _ 7) by lia. apply Z.mod_pos_bound. lia.
Qed.

Lemma parity_encode c : ascii7 c ->
  odd_parity (add_parity c) = true /\ Z.land (add_parity c) 0x7F = c /\ is_byte (add_parity c).
Proof.
  intros Hc. assert ((odd_parity (add_parity c) && (Z.land (add_parity c) 0x7F =? c)) = true) as H.
  { apply (byte_check (fun c => odd_parity (add_parity c) && (Z.land (add_parity c) 0x7F =? c)) 128); [vm_compute; reflexivity|].
    unfold ascii7 in Hc. lia. }
  apply andb_true_iff in H as [H1 H2%Z.eqb_eq]. split; [done|]. split; [done|].
  unfold is_byte, add_parity, ascii7 in *. destruct (odd_parity c); lia.
Qed.

(** The Iridium header and the coded text of what lies between SOH and checksum. *)
Definition split_header (data : list Z) : option (list Z) * list Z :=
  if (0 <? List.length data)%nat && (data.[0%nat] =? 0x03) && (8 <=? List.length data)%nat
  then (Some (take 8 data), drop 8 data) else (None, data).

Lemma accept_checked d c0 c1 :
  acars_accept ([0x01] ++ d ++ [c0; c1; 0x7f]) =
  let '(hdr, data) := split_header d in
  if (List.length data <? 13)%nat then None
  else Some (hdr, map (fun c => Z.land c 0x7F) data,
    (if (List.length data + 2 <=? 1024)%nat then if crc16_kermit crc16_init (data ++ [c0; c1]) =? 0 then 0 else 1 else 0) +
    (if forallb odd_parity data then 0 else 1)).
Proof.
  unfold acars_accept. rewrite !length_app. cbn [List.length]. rewrite (proj2 (Nat.eqb_neq _ _)) by lia.
  change (([1] ++ d ++ [c0; c1; 0x7f]).[0%nat] =? 1) with true. cbn [orb negb].
  rewrite (proj2 (Nat.leb_gt _ _)) by lia.
  change (drop 1 ([1] ++ d ++ [c0; c1; 0x7f])) with (drop 0 (d ++ [c0; c1; 0x7f])). rewrite drop_0, length_app.
  cbn [List.length]. set (len := (List.length d + 3)%nat).
  rewrite (proj2 (Nat.leb_le 3 len)) by (unfold len; lia).
  replace ((d ++ [c0; c1; 0x7f]).[(len - 1)%nat]) with 0x7f.
  2: { unfold rd, len. rewrite app_nth2 by lia. by replace (List.length d + 3 - 1 - List.length d)%nat with 2%nat by lia. }
  change (0x7f =? 0x7f) with true. cbn [andb].
  replace (slice (d ++ [c0; c1; 0x7f]) (len - 3) (len - 1)) with [c0; c1].
  2: { rewrite slice_app_r by (unfold len; lia). unfold len.
       replace (List.length d + 3 - 3 - List.length d)%nat with 0%nat by lia.
       by replace (List.length d + 3 - 1 - List.length d)%nat with 2%nat by lia. }
  replace (take (len - 3) (d ++ [c0; c1; 0x7f])) with d.
  2: { unfold len. rewrite take_app_le by lia. symmetry. apply take_ge. lia. }
  unfold split_header. by destruct (_ && _ && _).
Qed.

(** Without errors the message ends in a checksum and DEL. *)
Lemma accept_errorfree data hdr body : acars_accept data = Some (hdr, body, 0) ->
  exists d c0 c1, data = [0x01] ++ d ++ [c0; c1; 0x7f].
Proof.
  unfold acars_accept. destruct data as [|x data]; [done|]. cbn [List.length Nat.eqb orb].
  destruct (Z.eqb_spec ((x :: data).[0%nat]) 1) as [Hx|]; [|done]. change ((x :: data).[0%nat]) with x in Hx. subst x.
  cbn [negb]. destruct (_ <=? 2)%nat; [done|]. change (drop 1 (1 :: data)) with (drop 0 data). rewrite drop_0.
  destruct (Nat.leb_spec 3 (List.length data)) as [Hl|Hl]; cbn [andb].
  - destruct (Z.eqb_spec (data.[(List.length data - 1)%nat]) 0x7f) as [He|He].
    + intros _. exists (take (List.length data - 3) data).
      pose proof (take_drop (List.length data - 3) data) as Htd.
      assert (List.length (drop (List.length data - 3) data) = 3%nat) as Hd by (rewrite length_drop; lia).
      assert ((drop (List.length data - 3) data).[2%nat] = 0x7f) as Hlast.
      { rewrite <- He. unfold rd. rewrite !nth_lookup, lookup_drop. do 2 f_equal. lia. }
      destruct (drop (List.length data - 3) data) as [|a [|b [|c [|]]]]; try done.
      change ([a; b; c].[2%nat]) with c in Hlast. subst c. exists a, b. cbn [app]. f_equal. by rewrite Htd.
    + case_match; [done|]. intros [= _ _ E]. by destruct (forallb odd_parity _).
  - case_match; [done|]. intros [= _ _ E]. by destruct (forallb odd_parity _).
Qed.

Lemma split_header_inv d hdr data : split_header d = (hdr, data) -> bytes_ok d ->
  d = opt_text hdr ++ data /\ hdr_ok hdr /\ bytes_ok data.
Proof.
  unfold split_header. intros E Hb. destruct (_ && _) eqn:Eh; injection E as <- <-.
  - bsplit. apply Nat.leb_le in H0. change (opt_text (Some (take 8 d))) with (take 8 d). rewrite take_drop. split; [done|].
    split; [|by apply Forall_drop]. split; [rewrite length_take; lia|]. split; [|by apply Forall_take].
    by destruct d as [|x d].
  - done.
Qed.

Lemma coded_first body : Forall ascii7 body -> (map add_parity body).[0%nat] <> 3.
Proof.
  intros Hb. destruct Hb as [|c body Hc _]; [done|]. change ((map add_parity (c :: body)).[0%nat]) with (add_parity c).
  apply parity_encode in Hc as [Ho _]. intros E. by rewrite E in Ho.
Qed.

Lemma split_header_tx hdr body : hdr_ok hdr -> Forall ascii7 body ->
  split_header (opt_text hdr ++ map add_parity body) = (hdr, map add_parity body).
Proof.
  intros Hh Hb. unfold split_header. destruct hdr as [h|]; unfold opt_text; cbn [from_option id].
  - destruct Hh as (Hl & H3 & _). rewrite length_app, Hl. destruct h as [|x h]; [done|].
    change (((x :: h) ++ map add_parity body).[0%nat]) with x. change ((x :: h).[0%nat]) with x in H3. subst x.
    rewrite (proj2 (Nat.ltb_lt _ _)), (proj2 (Nat.leb_le _ _)) by lia. cbn [Z.eqb andb].
    rewrite take_app_le, drop_app_ge, take_ge by lia. by rewrite Hl.
  - cbn [app]. by rewrite (proj2 (Z.eqb_neq _ _) (coded_first body Hb)), andb_false_r.
Qed.

Lemma coded_ok body : Forall ascii7 body ->
  bytes_ok (map add_parity body) /\ forallb odd_parity (map add_parity body) = true /\
  map (fun c => Z.land c 0x7F) (map add_parity body) = body.
Proof.
  induction 1 as [|c body Hc _ (H1 & H2 & H3)]; [done|]. apply parity_encode in Hc as (Ho & Hl & Hby).
  cbn [map forallb]. rewrite Ho, Hl, H2, H3. split; [by constructor|done].
Qed.

Lemma decoded_ok data : bytes_ok data -> forallb odd_parity data = true ->
  map add_parity (map (fun c => Z.land c 0x7F) data) = data /\ Forall ascii7 (map (fun c => Z.land c 0x7F) data).
Proof.
  induction 1 as [|c data Hc _ IH]; [done|]. cbn [forallb map]. intros [Ho Hd]%andb_true_iff.
  destruct (parity_decode c Hc Ho) as [-> Ha]. destruct (IH Hd) as [-> Hf]. by split; [|constructor].
Qed.

Lemma accept_tx hdr body : hdr_ok hdr -> Forall ascii7 body -> (13 <= List.length body)%nat ->
  acars_accept (tx_acars hdr body) = Some (hdr, body, 0).
Proof.
  intros Hh Hb Hl. unfold tx_acars. destruct (coded_ok body Hb) as (Hby & Hodd & Hstrip).
  pose proof (kermit_range _ Hby) as Hr. set (crc := crc16_kermit crc16_init (map add_parity body)) in *.
  rewrite (app_assoc (opt_text hdr)). rewrite accept_checked, split_header_tx by done.
  rewrite length_map, (proj2 (Nat.ltb_ge _ _) Hl), Hstrip, Hodd.
  assert (crc16_kermit crc16_init (map add_parity body ++ [crc mod 256; crc / 256]) = 0) as ->.
  { apply kermit_residue; [done|unfold is_byte; Z.div_mod_to_equations; lia..|].
    fold crc. Z.div_mod_to_equations. lia. }
  by destruct (_ <=? 1024)%nat.
Qed.

Lemma accept_is_tx data hdr body : bytes_ok data -> (List.length data <= 1024)%nat ->
  acars_accept data = Some (hdr, body, 0) ->
  data = tx_acars hdr body /\ hdr_ok hdr /\ Forall ascii7 body /\ (13 <= List.length body)%nat.
Proof.
  intros Hb Hlen E. destruct (accept_errorfree _ _ _ E) as (d & c0 & c1 & ->).
  rewrite accept_checked in E. apply Forall_app in Hb as [_ [Hd Hc]%Forall_app].
  apply Forall_cons in Hc as [Hc0 Hc]. apply Forall_cons in Hc as [Hc1 _].
  destruct (split_header d) as [h data] eqn:Es. destruct (split_header_inv d h data Es Hd) as (-> & Hh & Hby).
  rewrite !length_app in Hlen. cbn [List.length] in Hlen.
  destruct (Nat.ltb_spec (List.length data) 13) as [|Hl]; [done|]. rewrite (proj2 (Nat.leb_le _ _)) in E by lia.
  assert (crc16_kermit crc16_init (data ++ [c0; c1]) = 0 /\ forallb odd_parity data = true /\
    h = hdr /\ map (fun c => Z.land c 0x7F) data = body) as (Hk & Ho & -> & Hbody).
  { injection E as <- <- E. destruct (Z.eqb_spec (crc16_kermit crc16_init (data ++ [c0; c1])) 0);
      destruct (forallb odd_parity data); done. }
  destruct (decoded_ok data Hby Ho) as [Hdata Ha]. rewrite Hbody in Hdata, Ha.
  apply kermit_residue in Hk; [|done..]. unfold tx_acars. rewrite Hdata, Hk.
  split; [|split; [done|split; [done|by rewrite <- Hbody, length_map]]].
  rewrite <- !app_assoc. repeat f_equal; unfold is_byte in *; Z.div_mod_to_equations; lia.
Qed.

Lemma accept_errors_range data hdr body errors : acars_accept data = Some (hdr, body, errors) -> 0 <= errors <= 2.
Proof.
  unfold acars_accept. repeat (case_match; [done|]). intros Heq.
  pose proof (f_equal (option_map snd) Heq) as H'. cbn [option_map snd] in H'. apply (inj Some) in H' as <-.
  repeat case_match; lia.
Qed.

Lemma output_text_events e st data m errors ev :
  ev ∈ snd (acars_output_text e st data m errors) -> exists line, ev = StdoutText line.
Proof.
  unfold acars_output_text. destruct (_ <? 13)%nat; [by intros ?%not_elem_of_nil|].
  destruct (format_timestamp _ _ _) as [st' ts]. destruct (strip_end _) as [rest cont].
  cbn [snd]. intros ->%list_elem_of_singleton. by eexists.
Qed.

(** With errors only the text line remains. *)
Lemma fallback_errors {D} `{WaypointSource D} cfg e (d : D) beams st data m hdr body errors ev :
  acars_accept data = Some (hdr, body, errors) -> errors <> 0 ->
  ev ∈ snd (acars_parse_fallback cfg e d beams st data m) -> exists line, ev = StdoutText line.
Proof.
  intros Ha Hne. pose proof (accept_errors_range _ _ _ _ Ha) as Hr. unfold acars_parse_fallback. rewrite Ha.
  rewrite (proj2 (Z.ltb_lt 0 errors)), (proj2 (Z.eqb_neq errors 0)) by lia. rewrite !andb_false_r, andb_true_r.
  destruct (acars_json cfg || _) eqn:Ej; [by intros ?%not_elem_of_nil|]. apply orb_false_iff in Ej as [-> _].
  destruct (acars_output_text _ _ _ _ _) as [st' ev2] eqn:Et. cbn [snd app]. rewrite !app_nil_r.
  intros Hev. eapply output_text_events. rewrite Et. exact Hev.
Qed.

Lemma fallback_intact {D} `{WaypointSource D} (cfg : config) (e : env) (d : D) (beams : beam_cache)
    (st : acars_state) (data : list Z) (m : meta) (ev : acars_event) :
  bytes_ok data -> (List.length data <= 1024)%nat ->
  ev ∈ snd (acars_parse_fallback cfg e d beams st data m) ->
  (exists line, ev = StdoutText line) \/
  (exists hdr body, data = tx_acars hdr body /\ hdr_ok hdr /\ Forall ascii7 body /\ (13 <= List.length body)%nat).
Proof.
  intros Hb Hl Hev. destruct (acars_accept data) as [[[hdr body] errors]|] eqn:Ha.
  - destruct (decide (errors = 0)) as [->|Hne]; [right; exists hdr, body; by apply accept_is_tx|].
    left. by eapply fallback_errors.
  - unfold acars_parse_fallback in Hev. rewrite Ha in Hev. by apply not_elem_of_nil in Hev.
Qed.

(** ** Concrete inputs for the witnesses *)

Definition demo_body : list Z := bytes_of "2.N12345" ++ [0x15] ++ bytes_of "441" ++ [0x02] ++ bytes_of "M01ABA123POS N50" ++ [0x03].
Definition demo_hdr : list Z := [3; 1; 2; 3; 4; 5; 6; 7].
Definition demo_cfg : config := Config true true 0 1 true true false None.
Definition demo_env : env := Env 1700000000 5 1700000009.
Definition demo_st : acars_state := Acars 0 None 0 0 0 0 0.
Definition demo_meta : meta := Meta true 2000000000 (f64_of_Z 1626000000) (f32_of_Z 3).

Definition demo_aircraft : acars_event :=
  BasePosition (bytes_of "N12345") (f64_of_Z 51) (f64_of_Z (-15)) 2000000000.
(** A downlink report that names a fix: "FUEL 99,DINIM". *)
Definition demo_fix_body : list Z := bytes_of "2.N12345!441" ++ [0x02] ++ bytes_of "FUEL 99,DINIM" ++ [0x03].

(** * Observations *)

(** A NAK is written raw into the JSON line, where a control character is not
    allowed. *)
Theorem json_nak_unescaped : exists line,
  snd (acars_output_json demo_cfg demo_env demo_st demo_body demo_meta (Some demo_hdr)) = [StdoutJson line] /\ 0x15 ∈ line.
Proof. eexists. split; [vm_compute; reflexivity|]. eval_dec. Qed.

(** * Properties *)

(** C38 (equivalence). The message check is exact: the parser finds a message free
    of errors precisely when the bytes are a transmitted one, that is SOH, an
    optional Iridium header, the text with odd parity, its Kermit checksum and
    DEL; it then recovers header and text. *)
Theorem acars_accept_exact (data : list Z) (hdr : option (list Z)) (body : list Z) :
  bytes_ok data -> (List.length data <= 1024)%nat ->
  acars_accept data = Some (hdr, body, 0) <->
  data = tx_acars hdr body /\ hdr_ok hdr /\ Forall ascii7 body /\ (13 <= List.length body)%nat.
Proof.
  intros Hb Hl. split; [by apply accept_is_tx|]. intros (-> & Hh & Ha & H13). by apply accept_tx.
Qed.

Lemma acars_accept_exact_witness :
  acars_accept (tx_acars (Some demo_hdr) demo_body) = Some (Some demo_hdr, demo_body, 0).
Proof.
  apply (acars_accept_exact (tx_acars (Some demo_hdr) demo_body) (Some demo_hdr) demo_body); [eval_dec|eval_dec|].
  split; [reflexivity|]. split; [split; [reflexivity|split; [reflexivity|eval_dec]]|]. split; [eval_dec|].
  apply Nat.leb_le. vm_compute. reflexivity.
Defined.

(** Only intact messages leave the receiver: whatever bytes arrive
    and whatever the options, every JSON line, aggregator message, web map entry
    and BaseStation position stems from bytes that are exactly a transmitted
    message with valid parity and checksum; a damaged one at most appears as a
    text line. *)
Theorem acars_forwards_intact {D} `{WaypointSource D} (cfg : config) (e : env) (d : D) (beams : beam_cache)
    (st : acars_state) (data : list Z) (m : meta) (ev : acars_event) :
  bytes_ok data -> (List.length data <= 1024)%nat ->
  ev ∈ snd (acars_parse_fallback cfg e d beams st data m) ->
  (exists line, ev = StdoutText line) \/
  (exists hdr body, data = tx_acars hdr body /\ hdr_ok hdr /\ Forall ascii7 body /\ (13 <= List.length body)%nat).
Proof. apply fallback_intact. Qed.

Lemma acars_forwards_intact_witness :
  demo_aircraft ∈ snd (acars_parse_fallback demo_cfg demo_env demo_db beam_cache_init demo_st
    (tx_acars None demo_fix_body) (Meta false 2000000000 (f64_of_Z 1626000000) (f32_of_Z 3))) /\
  ((exists line, demo_aircraft = StdoutText line) \/
   exists hdr body, tx_acars None demo_fix_body = tx_acars hdr body /\ hdr_ok hdr /\ Forall ascii7 body /\ (13 <= List.length body)%nat).
Proof.
  assert (demo_aircraft ∈ snd (acars_parse_fallback demo_cfg demo_env demo_db beam_cache_init demo_st
    (tx_acars None demo_fix_body) (Meta false 2000000000 (f64_of_Z 1626000000) (f32_of_Z 3)))) as H.
  { vm_compute. repeat (apply list_elem_of_here || apply list_elem_of_further). }
  split; [exact H|]. eapply (acars_forwards_intact demo_cfg demo_env demo_db beam_cache_init demo_st); [| |exact H].
  - eval_dec.
  - apply Nat.leb_le. vm_compute. reflexivity.
Defined.
