(* ===== verification/AcarsShown.v ===== *)
(** What an ACARS output may show: the specification of the events of [Acars.v]
    in terms of the message as transmitted.

    A message text has its fields at fixed places ([reads]); an output is right
    when its registration, label, text and position are those of the message
    ([shown]), or, for an estimated position, those of a satellite beam that was
    heard of in the last ten seconds.  The main lemma is that the parser makes
    only such outputs. *)
From S2P Require Import Prelude CFloat CString CNumber CFormat Kermit JsonText BeamCache WaypointDb AcarsPos Acars.
#[local] Open Scope Z_scope.

(** * The fields of a message *)

Record acars_text := AcarsText {
  at_mode : Z; at_addr : list Z; at_ack : Z; at_label : list Z; at_block : Z;
  at_more : bool; at_num : list Z; at_flight : list Z; at_text : list Z;
}.

(** ETX ends a message, ETB one that is continued. *)
Inductive ending : list Z -> list Z -> bool -> Prop :=
  | ending_etx t : ending (t ++ [0x03]) t false
  | ending_etb t : ending (t ++ [0x17]) t true
  | ending_none t : last t <> Some 0x03 -> last t <> Some 0x17 -> ending t t false.

(** The text follows STX; in an uplink message after the message number, its
    sequence character and the flight. *)
Inductive text_fields : bool -> list Z -> list Z -> list Z -> list Z -> Prop :=
  | text_down t : text_fields false (0x02 :: t) [] [] t
  | text_up num seq flight t : List.length num = 3%nat -> List.length flight = 6%nat ->
      text_fields true (0x02 :: num ++ [seq] ++ flight ++ t) (cstr num) (cstr flight) t
  | text_up_short t : (List.length t < 10)%nat -> text_fields true (0x02 :: t) [] [] t
  | text_none ul rest : head rest <> Some 0x02 -> text_fields ul rest [] [] [].

Definition reads (ul : bool) (body : list Z) (a : acars_text) : Prop :=
  exists rest t,
    body = [at_mode a] ++ at_addr a ++ [at_ack a] ++ at_label a ++ [at_block a] ++ rest /\
    List.length (at_addr a) = 7%nat /\ List.length (at_label a) = 2%nat /\
    ending rest t (at_more a) /\ text_fields ul t (at_num a) (at_flight a) (at_text a).

(** The registration is the address without leading dots; the label of a
    heartbeat is an underscore and DEL, which is replaced. *)
Definition registration (a : acars_text) : list Z := cstr (strip_dots (at_addr a)).
Definition shown_label (subst : Z) (a : acars_text) : list Z :=
  if bool_decide (at_label a = [95; 0x7f]) then [95; subst] else cstr (at_label a).

(** * What outputs show *)

Definition occurs (s l : list Z) : Prop := exists a b, l = a ++ s ++ b.

(** The buffer has these pieces, unless it was filled. *)
Definition has_pieces (ss : list (list Z)) (buf : list Z) : Prop :=
  List.length buf = (JSON_BUF_SIZE - 1)%nat \/ Forall (fun s => occurs s buf) ss.

Definition nonempty_text (name : string) (s : list Z) : list (list Z) := match s with [] => [] | _ => [quoted name s] end.

Definition json_shows (ul : bool) (a : acars_text) : list (list Z) :=
  [plain "more" (bool_text (at_more a)); quoted "reg" (json_escape (cstr (at_addr a)) 64); quoted "mode" [at_mode a];
   quoted "label" (json_escape (shown_label 100 a) 16); quoted "blk_id" [at_block a]; quoted "ack" [at_ack a]] ++
  (if ul && negb (deref (at_flight a) =? 0)
   then [quoted "flight" (json_escape (at_flight a) 32); quoted "msg_num" (json_escape (at_num a) 16)] else []) ++
  nonempty_text "msg_text" (json_escape (at_text a) 2048).

Definition feed_shows (ul : bool) (a : acars_text) : list (list Z) :=
  [quoted "link_direction" (bytes_of (if ul then "uplink" else "downlink")); plain "block_end" (bool_text (negb (at_more a)));
   quoted "tail" (hub_json_escape (registration a) 64); quoted "label" (hub_json_escape (shown_label 100 a) 16);
   quoted "block_id" [at_block a]; quoted "text" (hub_json_escape (at_text a) 2048)].

Definition line_shows (ul : bool) (a : acars_text) : list (list Z) :=
  [bytes_of " REG:" ++ pad_to 7 (registration a); bytes_of "Label:" ++ shown_label 63 a; bytes_of " bID:" ++ [at_block a]] ++
  match at_text a with [] => [] | t => [[91] ++ map printable t ++ [93]] end.

Section shown.
Context {D : Type} `{WaypointSource D}.

(** The message gives a position: its label is one of those that carry the
    aircraft's own, it is not a flight plan, and the text has coordinates or
    names a fix of the database. *)
Definition position_in (d : D) (a : acars_text) (lat lon : f64) : Prop :=
  let t := cstr (take 2047 (at_text a)) in
  label_ok (at_label a) = true /\ flight_plan (at_label a) t = false /\
  (written t (lat, lon) \/
   exists field, field ∈ later_fields (if starts_with s_POS t then drop 3 t else t) /\
     names_fix field = true /\ wp_has d (take 5 field) lat lon).

(** A beam [heard] of at most ten seconds before. *)
Definition recent_beam (heard : beam_cache_t -> Prop) (ts : Z) (b : beam_cache_t) : Prop :=
  heard b /\ 0 <= ts - bc_timestamp_ns b <= 10000000000.

Definition shown (d : D) (heard : beam_cache_t -> Prop) (m : meta) (a : acars_text) (ev : acars_event) : Prop :=
  match ev with
  | StdoutJson line => exists buf, line = buf ++ [10] /\ has_pieces (json_shows (a_ul m) a) buf
  | UdpJson _ buf => has_pieces (json_shows (a_ul m) a) buf
  | FeedJson buf => has_pieces (feed_shows (a_ul m) a) buf
  | StdoutText line => Forall (fun s => occurs s line) (line_shows (a_ul m) a)
  | WebMessage reg flight label text ul ts =>
      reg = registration a /\ flight = at_flight a /\ label = shown_label 100 a /\ text = cstr (take 255 (at_text a)) /\
      ul = a_ul m /\ ts = a_timestamp m
  | WebAircraft reg lat lon sat beam ts fq exact =>
      reg = registration a /\ ts = a_timestamp m /\ fq = a_frequency m /\
      if exact then
        position_in d a lat lon /\
        ((sat = 0 /\ beam = 0) \/ exists b, recent_beam heard ts b /\ sat = bc_sat_id b /\ beam = bc_beam_id b)
      else exists b, recent_beam heard ts b /\ lat = bc_lat b /\ lon = bc_lon b /\ sat = bc_sat_id b /\ beam = bc_beam_id b
  | BasePosition reg lat lon ts =>
      reg = registration a /\ ts = a_timestamp m /\
      (position_in d a lat lon \/ exists b, recent_beam heard ts b /\ lat = bc_lat b /\ lon = bc_lon b)
  end.
End shown.

(** The text line of a damaged message says so. *)
Definition marked_damaged (ev : acars_event) : Prop :=
  exists pre, ev = StdoutText (pre ++ bytes_of " ERRORS" ++ [10]).

(** * Lemmas *)

(** ** Reading the fields *)

Definition text_of_body (ul : bool) (body : list Z) : acars_text :=
  let '(rest, cont) := strip_end (drop 12 body) in
  let t := split_text ul rest in
  AcarsText (body.[0%nat]) (slice body 1 8) (body.[8%nat]) [body.[9%nat]; body.[10%nat]] (body.[11%nat]) cont
    (t_msg_num t) (t_flight t) (opt_text (t_txt t)).

Lemma strip_end_ending rest t cont : strip_end rest = (t, cont) -> ending rest t cont.
Proof.
  unfold strip_end. destruct (last rest) as [c|] eqn:El; [|intros [= <- <-]; by constructor; rewrite El].
  apply last_Some in El as [r ->]. rewrite removelast_last.
  destruct (decide (c = 0x03)) as [->|H3]; [intros [= <- <-]; constructor|].
  destruct (decide (c = 0x17)) as [->|H17]; [intros [= <- <-]; constructor|].
  intros E. assert ((t, cont) = (r ++ [c], false)) as [= -> ->].
  { rewrite <- E. destruct c as [|p|p]; try done. repeat (destruct p as [p|p|]; try done). }
  constructor; rewrite last_snoc; congruence.
Qed.

Lemma split_text_fields ul rest : let t := split_text ul rest in
  text_fields ul rest (t_msg_num t) (t_flight t) (opt_text (t_txt t)).
Proof.
  unfold split_text. destruct rest as [|c rest]; [by apply text_none|].
  change (0 <? List.length (c :: rest))%nat with true. cbn [andb].
  change ((c :: rest).[0%nat]) with c. destruct (Z.eqb_spec c 0x02) as [->|Hc]; [|apply text_none; cbn; congruence].
  destruct ul; cbn [andb]; [|apply text_down].
  destruct (Nat.leb_spec 11 (List.length (0x02 :: rest))) as [Hl|Hl]; [|apply (text_up_short rest); rewrite length_cons in Hl; lia].
  do 10 (destruct rest as [|? rest]; [cbn in Hl; lia|]).
  eapply (text_up [_; _; _] _ [_; _; _; _; _; _]); done.
Qed.

Lemma reads_text_of ul body : (13 <= List.length body)%nat -> reads ul body (text_of_body ul body).
Proof.
  intros Hl. unfold text_of_body. destruct (strip_end (drop 12 body)) as [rest cont] eqn:Es. apply strip_end_ending in Es.
  exists (drop 12 body), rest. cbn [at_mode at_addr at_ack at_label at_block at_more at_num at_flight at_text].
  split; [|split; [|split; [done|split; [done|apply split_text_fields]]]].
  - by do 12 (destruct body as [|? body]; [cbn in Hl; lia|]).
  - unfold slice. rewrite length_take, length_drop. lia.
Qed.

Lemma label_of_shown subst ul body : label_of subst body = shown_label subst (text_of_body ul body).
Proof.
  unfold label_of, shown_label, text_of_body. destruct (strip_end _) as [rest cont]. cbn [at_label].
  destruct (Z.eqb_spec (body.[9%nat]) 95), (Z.eqb_spec (body.[10%nat]) 127); cbn [andb]; case_bool_decide; congruence.
Qed.

Lemma tail_of_registration ul body : tail_of body = registration (text_of_body ul body).
Proof. unfold tail_of, registration, text_of_body. by destruct (strip_end _). Qed.

(** ** Pieces of the buffers *)

Lemma occurs_concat s (ss : list (list Z)) : s ∈ ss -> occurs s (List.concat ss).
Proof.
  intros (l1 & l2 & ->)%list_elem_of_split. exists (List.concat l1), (List.concat l2). by rewrite concat_app.
Qed.

Lemma buffer_pieces ss pieces : Forall (fun s => s ∈ pieces) ss ->
  has_pieces ss (take (JSON_BUF_SIZE - 1) (List.concat pieces)).
Proof.
  intros H. destruct (decide (List.length (List.concat pieces) <= JSON_BUF_SIZE - 1)%nat) as [Hl|Hl]; [right|left; rewrite length_take; lia].
  rewrite take_ge by done. eapply Forall_impl; [exact H|]. intros s. apply occurs_concat.
Qed.

(** Find a piece in a concatenation. *)
Ltac piece :=
  match goal with
  | |- ?x ∈ [?y] => constr_eq x y; apply list_elem_of_here
  | |- _ ∈ _ ++ _ => apply elem_of_app; left; piece
  | |- _ ∈ _ ++ _ => apply elem_of_app; right; piece
  end.
Ltac pieces := repeat (apply Forall_cons; split; [piece|]); apply Forall_nil_2.

Lemma json_pieces_shown cfg body m t hdr ul : ul = a_ul m ->
  Forall (fun s => s ∈ json_pieces cfg body m t hdr) (json_shows ul (text_of_body ul body)).
Proof.
  intros ->. unfold json_shows. rewrite <- (label_of_shown 100). unfold json_pieces, text_of_body.
  destruct (strip_end (drop 12 body)) as [rest cont]. cbv zeta.
  cbn [at_mode at_addr at_ack at_label at_block at_more at_num at_flight at_text].
  apply Forall_app. split; [pieces|]. apply Forall_app. split.
  - destruct (a_ul m && negb _); [|constructor]. pieces.
  - unfold nonempty_text. destruct (json_escape (opt_text _) 2048) as [|c l]; [constructor|]. pieces.
Qed.

Lemma hub_pieces_shown cfg e body m hdr errors :
  Forall (fun s => s ∈ hub_pieces cfg e (fallback_msg body m) m hdr errors) (feed_shows (a_ul m) (text_of_body (a_ul m) body)).
Proof.
  unfold feed_shows. rewrite <- (label_of_shown 100), <- (tail_of_registration (a_ul m)). unfold hub_pieces, fallback_msg, text_of_body.
  destruct (strip_end (drop 12 body)) as [rest cont]. cbv zeta.
  cbn [at_mode at_addr at_ack at_label at_block at_more at_num at_flight at_text h_mode h_tail h_ack h_label h_block_id h_block_end h_text h_flight h_msg_num].
  pieces.
Qed.

Lemma hub_appends pieces buf : fold_left hub_buf_append pieces buf = fold_left json_buf_append pieces buf.
Proof. unfold hub_buf_append, json_buf_append. reflexivity. Qed.

(** ** The outputs of the parser *)

Lemma json_shown {D} `{WaypointSource D} (d : D) heard cfg e st body m hdr ev :
  ev ∈ snd (acars_output_json cfg e st body m hdr) -> shown d heard m (text_of_body (a_ul m) body) ev.
Proof.
  unfold acars_output_json. destruct (_ <? 13)%nat; [by intros ?%not_elem_of_nil|]. destruct (ts_to_unix _ _ _) as [st' t]. cbn [snd].
  rewrite json_buf_appends by apply Nat.le_0_l. cbn [app].
  pose proof (buffer_pieces _ _ (json_pieces_shown cfg body m t hdr (a_ul m) eq_refl)) as Hp. revert Hp.
  generalize (take (JSON_BUF_SIZE - 1) (List.concat (json_pieces cfg body m t hdr))). intros buf Hp. unfold json_buf_emit.
  destruct buf as [|c buf]; [by intros ?%not_elem_of_nil|]. rewrite elem_of_app. intros [Hev|Hev].
  - destruct (acars_json cfg); [|by apply not_elem_of_nil in Hev]. apply list_elem_of_singleton in Hev as ->. by exists (c :: buf).
  - apply list_elem_of_fmap in Hev as (i & -> & _). exact Hp.
Qed.

Lemma occurs_app_l s a b : occurs s b -> occurs s (a ++ b).
Proof. intros (x & y & ->). exists (a ++ x), y. by rewrite app_assoc. Qed.
Lemma occurs_app_r s a b : occurs s a -> occurs s (a ++ b).
Proof. intros (x & y & ->). exists x, (y ++ b). by rewrite <- !app_assoc. Qed.
Lemma occurs_head x y r : occurs (x ++ y) (x ++ y ++ r).
Proof. exists [], r. by rewrite <- app_assoc. Qed.
Ltac occ :=
  match goal with
  | |- occurs (?x ++ ?y) (?x ++ ?y ++ ?r) => exact (occurs_head x y r)
  | |- occurs _ (_ ++ _) => apply occurs_app_l; occ
  end.

(** The bracketed text of the line. *)
Lemma bracket_shown ul body rest cont : strip_end (drop 12 body) = (rest, cont) ->
  let bracket from := if (from <? List.length rest)%nat then [91] ++ map printable (drop from rest) ++ [93] else [] in
  Forall (fun s => occurs s
    (if (0 <? List.length rest)%nat && (rest.[0%nat] =? 0x02) then
       if ul && (11 <=? List.length rest)%nat then
         bytes_of "SEQ:" ++ take 4 (cstr (drop 1 rest)) ++ bytes_of " FNO:" ++ take 6 (cstr (drop 5 rest)) ++ [32] ++ bracket 11%nat
       else bracket 1%nat
     else []))
    match at_text (text_of_body ul body) with [] => [] | t => [[91] ++ map printable t ++ [93]] end.
Proof.
  intros Es bracket. unfold text_of_body. rewrite Es. cbn [at_text]. unfold split_text.
  assert (forall from, Forall (fun s => occurs s (bracket from)) match drop from rest with [] => [] | t => [[91] ++ map printable t ++ [93]] end) as Hb.
  { intros from. unfold bracket. destruct (Nat.ltb_spec from (List.length rest)) as [Hl|Hl]; [|by rewrite drop_ge by done].
    destruct (drop from rest) eqn:E; [constructor|]. rewrite <- E. constructor; [|constructor]. exists [], []. by rewrite app_nil_r. }
  destruct (_ && (_ =? 2)); [|constructor]. destruct (ul && _); cbn [t_txt opt_text from_option id]; [|apply Hb].
  eapply Forall_impl; [apply Hb|]. intros s Hs. by do 5 apply occurs_app_l.
Qed.

Lemma line_shown {D} `{WaypointSource D} (d : D) heard e st body m errors ev :
  ev ∈ snd (acars_output_text e st body m errors) ->
  shown d heard m (text_of_body (a_ul m) body) ev /\ (0 < errors -> marked_damaged ev).
Proof.
  unfold acars_output_text. destruct (_ <? 13)%nat; [by intros ?%not_elem_of_nil|]. destruct (format_timestamp _ _ _) as [st' ts].
  destruct (strip_end (drop 12 body)) as [rest cont] eqn:Es. cbn [snd]. intros ->%list_elem_of_singleton. split.
  - cbn [shown]. unfold line_shows. rewrite <- (label_of_shown 63), <- (tail_of_registration (a_ul m)).
    assert (at_block (text_of_body (a_ul m) body) = body.[11%nat]) as -> by (unfold text_of_body; by rewrite Es).
    apply Forall_app. split; [repeat (apply Forall_cons; split; [occ|]); apply Forall_nil_2|].
    eapply Forall_impl; [by eapply bracket_shown|]. intros s Hs. do 15 apply occurs_app_l. by apply occurs_app_r.
  - intros He. rewrite (proj2 (Z.ltb_lt 0 errors)) by done. eexists. f_equal. rewrite !app_assoc. reflexivity.
Qed.

Lemma web_message_shown {D} `{WaypointSource D} (d : D) heard cfg body m ev :
  ev ∈ web_message cfg body m -> shown d heard m (text_of_body (a_ul m) body) ev.
Proof.
  unfold web_message. destruct (strip_end (drop 12 body)) as [rest cont] eqn:Es. case_match; [|by intros ?%not_elem_of_nil].
  intros ->%list_elem_of_singleton. cbn [shown]. rewrite <- (label_of_shown 100), <- (tail_of_registration (a_ul m)).
  unfold text_of_body. by rewrite Es.
Qed.

Lemma found_position {D} `{WaypointSource D} (d : D) body m lat lon :
  let a := text_of_body (a_ul m) body in let t := cstr (take 2047 (at_text a)) in
  match acars_extract_text_position (at_label a) t with
  | Some p => Some p
  | None => acars_extract_waypoint_position d (at_label a) t
  end = Some (lat, lon) -> position_in d a lat lon.
Proof.
  intros a t. destruct (acars_extract_text_position (at_label a) t) as [r|] eqn:Et.
  - intros [= ->]. apply text_position_sound in Et as (H1 & H2 & H3). split; [done|]. split; [done|by left].
  - intros Ew. assert (label_ok (at_label a) = true /\ flight_plan (at_label a) t = false) as [H1 H2].
    { revert Ew. unfold acars_extract_waypoint_position. destruct t; [done|]. by destruct (label_ok _), (flight_plan _ _). }
    split; [done|]. split; [done|right]. pose proof (waypoint_position_first d (at_label a) t H1 H2) as Hw. rewrite Ew in Hw.
    destruct Hw as (b & x & c & Hl & Hx & Hh & _). exists x. split; [|done]. unfold t in Hl |- *. rewrite Hl. apply elem_of_app. right. by left.
Qed.

Lemma position_shown {D} `{WaypointSource D} (d : D) (heard : beam_cache_t -> Prop) cfg beams st body m ev :
  (forall b, beam_cache_lookup beams (a_timestamp m) = Some b -> recent_beam heard (a_timestamp m) b) ->
  ev ∈ snd (acars_position cfg d beams st body m) -> shown d heard m (text_of_body (a_ul m) body) ev.
Proof.
  intros Hb. unfold acars_position. destruct (negb _ || _); [by intros ?%not_elem_of_nil|].
  rewrite (tail_of_registration (a_ul m)). pose proof (found_position d body m) as Hf. cbv zeta in Hf.
  destruct (strip_end (drop 12 body)) as [rest cont] eqn:Es.
  assert (opt_text (t_txt (split_text (a_ul m) rest)) = at_text (text_of_body (a_ul m) body)) as -> by (unfold text_of_body; by rewrite Es).
  assert ([body.[9%nat]; body.[10%nat]] = at_label (text_of_body (a_ul m) body)) as -> by (unfold text_of_body; by rewrite Es).
  set (a := text_of_body (a_ul m) body) in *. cbv zeta.
  match goal with |- context [match (if ?c then ?x else None) with _ => _ end] => destruct (if c then x else None) as [[lat lon]|] eqn:Ep end.
  - assert (position_in d a lat lon) as Hp by (apply Hf; by destruct (_ <? _)%nat). cbn [snd]. rewrite elem_of_app. intros [Hev|Hev].
    + apply list_elem_of_singleton in Hev as ->. cbn [shown]. split_and!; try done.
      destruct (beam_cache_lookup beams (a_timestamp m)) as [b|] eqn:E; [right; exists b; auto|by left].
    + destruct (basestation_enabled cfg); [|by apply not_elem_of_nil in Hev]. apply list_elem_of_singleton in Hev as ->. by split_and!; [| |left].
  - destruct (beam_cache_lookup beams (a_timestamp m)) as [b|]; [|by intros ?%not_elem_of_nil]. specialize (Hb b eq_refl).
    cbn [snd]. rewrite elem_of_app. intros [Hev|Hev].
    + apply list_elem_of_singleton in Hev as ->. cbn [shown]. split_and!; try done. by exists b.
    + destruct (_ && _); [|by apply not_elem_of_nil in Hev]. apply list_elem_of_singleton in Hev as ->. split_and!; try done. right. by exists b.
Qed.

(** The parser shows what was transmitted, or a line marked as damaged. *)
Lemma fallback_shown {D} `{WaypointSource D} (cfg : config) (e : env) (d : D) (heard : beam_cache_t -> Prop) (beams : beam_cache)
    (st : acars_state) (data : list Z) (m : meta) (ev : acars_event) :
  bytes_ok data -> (List.length data <= 1024)%nat ->
  (forall b, beam_cache_lookup beams (a_timestamp m) = Some b -> recent_beam heard (a_timestamp m) b) ->
  ev ∈ snd (acars_parse_fallback cfg e d beams st data m) ->
  marked_damaged ev \/
  exists hdr body a, data = tx_acars hdr body /\ hdr_ok hdr /\ Forall ascii7 body /\ reads (a_ul m) body a /\ shown d heard m a ev.
Proof.
  intros Hd Hl Hb. unfold acars_parse_fallback. destruct (acars_accept data) as [[[hdr body] errors]|] eqn:Ha; [|by intros ?%not_elem_of_nil].
  pose proof (accept_errors_range _ _ _ _ Ha) as Hr. destruct (decide (errors = 0)) as [->|Hne].
  - intros Hev. right. apply accept_is_tx in Ha as (Htx & Hh & H7 & H13); [|done..]. exists hdr, body, (text_of_body (a_ul m) body).
    split_and!; [done..|by apply reads_text_of|]. revert Hev. rewrite andb_false_r. change (0 =? 0) with true. rewrite andb_true_r.
    destruct (if _ || _ then _ else _) as [st1 ev1] eqn:E1. destruct (if acars_json cfg then _ else _) as [st2 ev2] eqn:E2.
    destruct (acars_position _ _ _ _ _ _) as [st3 ev4] eqn:E4. cbn [snd]. rewrite !elem_of_app. intros [Hev|[Hev|[Hev|Hev]]].
    + destruct (_ || _); [|injection E1 as <- <-; by apply not_elem_of_nil in Hev]. eapply json_shown. by rewrite E1.
    + destruct (acars_json cfg); [injection E2 as <- <-; by apply not_elem_of_nil in Hev|]. eapply line_shown. by rewrite E2.
    + destruct (0 <? n_feeds cfg)%nat; [|by apply not_elem_of_nil in Hev]. apply elem_of_app in Hev as [Hev|Hev]; [|by eapply web_message_shown].
      unfold hub_emit_acars in Hev. destruct (n_feeds cfg =? 0)%nat; [by apply not_elem_of_nil in Hev|]. apply list_elem_of_singleton in Hev as ->.
      cbn [shown]. rewrite hub_appends, (json_buf_appends _ []) by apply Nat.le_0_l. apply buffer_pieces, hub_pieces_shown.
    + eapply position_shown; [done|]. by rewrite E4.
  - intros Hev. left. rewrite (proj2 (Z.ltb_lt 0 errors)), (proj2 (Z.eqb_neq errors 0)) in Hev by lia. rewrite !andb_false_r, andb_true_r in Hev.
    destruct (acars_json cfg || _) eqn:Ej; [by apply not_elem_of_nil in Hev|]. apply orb_false_iff in Ej as [Ej _]. rewrite Ej in Hev.
    destruct (acars_output_text _ _ _ _ _) as [st' ev2] eqn:Et. cbn [snd app] in Hev. rewrite !app_nil_r in Hev.
    eapply (line_shown d heard); [by rewrite Et|lia].
Qed.
