(* ===== verification/LibAcars.v ===== *)
(** The ACARS path of [src/sbd_acars.c] for builds with libacars.

    libacars parses and reassembles the messages and renders them; it is a
    parameter: [la_parse] is [la_acars_parse_and_reassemble] with the state of its
    reassembly, and a tree gives its ACARS node, its ADS-C node and its text and
    JSON.  What the program does with a tree is modelled: the header it strips, the
    envelope it adds, the outputs it makes and the position it takes. *)
From S2P Require Import Prelude CFloat CString CNumber CFormat JsonText BeamCache WaypointDb AcarsPos Acars.
#[local] Open Scope Z_scope.

(** * What libacars gives *)

Record la_acars_msg := LaMsg {
  msg_in_progress : bool;
  msg_err : bool;
  msg_mode : Z; msg_reg : list Z; msg_ack : Z; msg_label : list Z; msg_block_id : Z; msg_final_block : bool;
  msg_flight_id : list Z; msg_num : list Z; msg_txt : option (list Z);
}.

(** A tag of an ADS-C message: its number, and what its data says when read as a
    basic report or as a flight id. *)
Record adsc_tag := AdscTag { tag_no : Z; tag_basic : f64 * f64 * Z; tag_flight : list Z }.
(** [None] in the list is a tag without data. *)
Record adsc_msg := AdscMsg { adsc_err : bool; adsc_tags : list (option adsc_tag) }.

(** The calls that write JSON. *)
Inductive json_call :=
  | ObjectStart (name : list Z) | ObjectEnd
  | AppendString (name value : list Z) | AppendInt64 (name : list Z) (value : Z) | AppendDouble (name : list Z) (value : f64)
  | AppendOctets (name value : list Z).

Record la_tree := LaTree {
  tree_acars : option la_acars_msg;
  tree_adsc : option adsc_msg;
  tree_json : list json_call -> option (list Z);
  tree_text : option (list Z);
}.

(** * The envelope *)

(** [iridium_format_json]. *)
Definition iridium_format_json (station : option (list Z)) (tv : Z * Z) (freq : Z) (sig_level : f64) (ir_hdr : option (list Z)) : list json_call :=
  [ObjectStart (bytes_of "app"); AppendString (bytes_of "name") (bytes_of "iridium-sniffer"); AppendString (bytes_of "ver") (bytes_of "1.0"); ObjectEnd] ++
  match station with Some s => [AppendString (bytes_of "station") s] | None => [] end ++
  [ObjectStart (bytes_of "t"); AppendInt64 (bytes_of "sec") (fst tv); AppendInt64 (bytes_of "usec") (snd tv); ObjectEnd;
   AppendInt64 (bytes_of "freq") freq; AppendDouble (bytes_of "sig_level") sig_level] ++
  match ir_hdr with Some h => [AppendOctets (bytes_of "header") h] | None => [] end.

(** The bytes given to libacars, without the start mark and the Iridium
    header. *)
Definition la_input (data : list Z) : option (option (list Z) * list Z) :=
  match data with
  | 0x01 :: data =>
      let has_hdr := (0 <? List.length data)%nat && (data.[0%nat] =? 0x03) && (8 <=? List.length data)%nat in
      let hdr := if has_hdr then Some (take 8 data) else None in
      let data := if has_hdr then drop 8 data else data in
      if (List.length data <? 13)%nat then None else Some (hdr, data)
  | _ => None
  end.

(** * Positions *)

Definition is_basic (no : Z) : bool := (no =? 7) || (no =? 9) || (no =? 10) || (no =? 18) || (no =? 19) || (no =? 20).

(** The walk over the tags: position and altitude, and flight id. *)
Definition adsc_step (s : option (f64 * f64 * Z) * list Z) (t : option adsc_tag) : option (f64 * f64 * Z) * list Z :=
  match t with
  | None => s
  | Some t =>
      let s := if is_basic (tag_no t) then (Some (tag_basic t), snd s) else s in
      if tag_no t =? 12 then (fst s, take 9 (tag_flight t)) else s
  end.
Definition adsc_walk (a : option adsc_msg) : option (f64 * f64 * Z) * list Z :=
  match a with
  | Some a => if adsc_err a then (None, []) else fold_left adsc_step (adsc_tags a) (None, [])
  | None => (None, [])
  end.

(** OOOI events. *)
Definition oooi (label : list Z) (txt : option (list Z)) : option (list Z) :=
  if (label.[0%nat] =? 81) && (label.[1%nat] =? 48) then
    match txt with
    | None => None
    | Some t =>
        let has (s : string) := match strstr t (bytes_of s) with Some _ => true | None => false end in
        if has "OUT"%string then Some (bytes_of "OUT") else if has "OFF"%string then Some (bytes_of "OFF")
        else if has " IN"%string then Some (bytes_of "IN") else if has " ON"%string then Some (bytes_of "ON") else None
    end
  else None.

Inductive pos_source := FromAdsc | FromText | FromWaypoint | FromBeam.
#[export] Instance pos_source_eq_dec : EqDecision pos_source.
Proof. solve_decision. Defined.

Inductive la_event :=
  | Out (ev : acars_event)
  | Aircraft (reg flight : list Z) (lat lon : f64) (sat beam : Z) (timestamp : Z) (frequency : f64) (alt : Z) (exact : bool) (oooi : option (list Z))
  | BaseStation (reg flight : list Z) (lat lon : f64) (alt timestamp : Z).

(** The counters of the other path, and those it does not have. *)
Record la_state := LaState { la_base : acars_state; stat_pos_adsc : Z; stat_pos_waypoint : Z }.
Definition on_base (f : acars_state -> acars_state) (st : la_state) : la_state := LaState (f (la_base st)) (stat_pos_adsc st) (stat_pos_waypoint st).
Definition bump_source (src : pos_source) (st : la_state) : la_state :=
  match src with
  | FromAdsc => LaState (la_base st) (stat_pos_adsc st + 1) (stat_pos_waypoint st)
  | FromText => on_base (fun b => bump_pos b 1 0 0) st
  | FromWaypoint => LaState (la_base st) (stat_pos_adsc st) (stat_pos_waypoint st + 1)
  | FromBeam => on_base (fun b => bump_pos b 0 1 0) st
  end.

Section libacars.
Context {R D : Type} `{WaypointSource D}.
Context (la_parse : R -> list Z -> bool -> Z * Z -> R * option la_tree).

(** The source, the coordinates, and the satellite and beam. *)
Definition la_position (d : D) (beams : beam_cache) (msg : la_acars_msg) (adsc : option (f64 * f64 * Z)) (timestamp : Z)
    : option (pos_source * (f64 * f64) * (Z * Z)) :=
  let beam := beam_cache_lookup beams timestamp in
  let ids := match beam with Some b => (bc_sat_id b, bc_beam_id b) | None => (0, 0) end in
  let txt := opt_text (msg_txt msg) in
  match adsc with
  | Some (lat, lon, _) => Some (FromAdsc, (lat, lon), ids)
  | None =>
      let text := match txt with [] => None | _ => acars_extract_text_position (msg_label msg) txt end in
      let wp := match txt, text with [], _ | _, Some _ => None | _, None => acars_extract_waypoint_position d (msg_label msg) txt end in
      match text, wp with
      | Some p, _ => Some (FromText, p, ids)
      | None, Some p => Some (FromWaypoint, p, ids)
      | None, None => match beam with Some b => Some (FromBeam, (bc_lat b, bc_lon b), ids) | None => None end
      end
  end.

(** The aircraft half. *)
Definition la_aircraft (cfg : config) (d : D) (beams : beam_cache) (st : la_state) (tree : la_tree) (msg : la_acars_msg) (m : meta) : la_state * list la_event :=
  if web_enabled cfg && negb (msg_err msg) && negb (deref (msg_reg msg) =? 0) then
    let '(adsc, adsc_flt) := adsc_walk (tree_adsc tree) in
    match la_position d beams msg adsc (a_timestamp m) with
    | None => (st, [])
    | Some (src, (lat, lon), (sat, beam)) =>
        let st := bump_source src st in
        let exact := negb (bool_decide (src = FromBeam)) in
        let alt := match adsc with Some (_, _, alt) => alt | None => -99999 end in
        let tail := strip_dots (msg_reg msg) in
        let flt := match adsc_flt with [] => msg_flight_id msg | f => f end in
        match tail with
        | [] => (st, [])
        | _ =>
            let send := basestation_enabled cfg && (exact || basestation_beam cfg) in
            (if send then on_base (fun b => bump_pos b 0 0 1) st else st,
             Aircraft tail flt lat lon sat beam (a_timestamp m) (a_frequency m) alt exact (oooi (msg_label msg) (msg_txt msg)) ::
             (if send then [BaseStation tail flt lat lon alt (a_timestamp m)] else []))
        end
    end
  else (st, []).

(** The JSON, text, web and aggregator outputs. *)
Definition la_json (cfg : config) (tree : la_tree) (tv : Z * Z) (m : meta) (hdr : option (list Z)) : list la_event :=
  match tree_json tree (iridium_format_json (station cfg) tv (f64_trunc (a_frequency m)) (f64_of_f32 (a_magnitude m)) hdr) with
  | Some str => map Out (json_buf_emit cfg (json_buf_append [] str))
  | None => []
  end.
Definition la_text (e : env) (st : la_state) (tree : la_tree) (m : meta) (hdr : option (list Z)) : la_state * list la_event :=
  let '(base, ts) := format_timestamp e (la_base st) (a_timestamp m) in
  (on_base (fun _ => base) st,
   [Out (StdoutText (bytes_of "ACARS: " ++ ts ++ [32] ++ bytes_of (if a_ul m then "UL" else "DL") ++ [32] ++
      (match hdr with Some _ => bytes_of "[hdr:iridium] " | None => [] end) ++
      match tree_text tree with Some t => [10] ++ t | None => [] end))]).
Definition la_web_message (cfg : config) (msg : la_acars_msg) (m : meta) : list la_event :=
  let txt := opt_text (msg_txt msg) in
  if web_enabled cfg && negb (msg_err msg) && negb (deref (msg_reg msg) =? 0) && negb (deref txt =? 0) &&
     negb (((msg_label msg).[0%nat] =? 95) && ((msg_label msg).[1%nat] =? 100))
  then [Out (WebMessage (strip_dots (msg_reg msg)) (msg_flight_id msg) (msg_label msg) txt (a_ul m) (a_timestamp m))]
  else [].
Definition la_hub (cfg : config) (e : env) (msg : la_acars_msg) (m : meta) (hdr : option (list Z)) : list la_event :=
  if (0 <? n_feeds cfg)%nat && negb (msg_err msg) then
    map Out (hub_emit_acars cfg e (HubMsg (cstr [msg_mode msg]) (strip_dots (msg_reg msg)) (msg_ack msg) (msg_label msg) (msg_block_id msg)
      (msg_final_block msg) (opt_text (msg_txt msg)) (msg_flight_id msg) (msg_num msg)) m hdr 0)
  else [].

(** [acars_parse_libacars]. *)
Definition acars_parse_libacars (cfg : config) (e : env) (d : D) (beams : beam_cache) (st : la_state) (reasm : R) (data : list Z) (m : meta)
    : la_state * R * list la_event :=
  match la_input data with
  | None => (st, reasm, [])
  | Some (hdr, data) =>
      let '(base, unix_time) := ts_to_unix e (la_base st) (a_timestamp m) in
      let st := on_base (fun _ => base) st in
      let sec := f64_trunc unix_time in
      let tv := (sec, f64_trunc (f64_mul (f64_sub unix_time (f64_of_Z sec)) (f64_of_Z 1000000))) in
      let '(reasm, tree) := la_parse reasm data (a_ul m) tv in
      match tree with
      | None => (st, reasm, [])
      | Some tree =>
          match tree_acars tree with
          | None => (st, reasm, [])
          | Some msg =>
              if msg_in_progress msg then (st, reasm, [])
              else
                let st := on_base (fun b => bump_acars b (if msg_err msg then 1 else 0)) st in
                let json := acars_json cfg || (0 <? udp_count cfg)%nat in
                if json && msg_err msg then (st, reasm, [])
                else
                  let ev1 := if json then la_json cfg tree tv m hdr else [] in
                  let '(st, ev2) := if acars_json cfg then (st, []) else la_text e st tree m hdr in
                  let '(st, ev3) := la_aircraft cfg d beams st tree msg m in
                  (st, reasm, ev1 ++ ev2 ++ la_web_message cfg msg m ++ la_hub cfg e msg m hdr ++ ev3)
          end
      end
  end.

(** A run of messages, each with the clock and the beams at its time. *)
Fixpoint libacars_run (cfg : config) (d : D) (st : la_state) (reasm : R) (msgs : list (env * beam_cache * list Z * meta)) : la_state * R * list la_event :=
  match msgs with
  | [] => (st, reasm, [])
  | (e, beams, data, m) :: msgs =>
      let '(st, reasm, ev) := acars_parse_libacars cfg e d beams st reasm data m in
      let '(st, reasm, ev') := libacars_run cfg d st reasm msgs in (st, reasm, ev ++ ev')
  end.

(** * Lemmas *)

(** The walk keeps the last basic report and the last flight id. *)
Definition basic_of (t : option adsc_tag) : option (f64 * f64 * Z) := t ← t; if is_basic (tag_no t) then Some (tag_basic t) else None.
Definition flight_of (t : option adsc_tag) : option (list Z) := t ← t; if tag_no t =? 12 then Some (take 9 (tag_flight t)) else None.

Lemma last_omap_cons {A B} (f : A -> option B) x l : last (omap f (x :: l)) = match last (omap f l) with Some y => Some y | None => f x end.
Proof.
  cbn [omap list_omap]. change (list_omap A B f l) with (omap f l). destruct (f x) as [y|]; [|by destruct (last (omap f l))].
  rewrite last_cons. by destruct (last (omap f l)).
Qed.

Lemma adsc_walk_last tags :
  adsc_walk (Some (AdscMsg false tags)) = (last (omap basic_of tags), default [] (last (omap flight_of tags))).
Proof.
  cbn [adsc_walk adsc_err adsc_tags].
  assert (forall s, fold_left adsc_step tags s = (match last (omap basic_of tags) with Some b => Some b | None => fst s end, default (snd s) (last (omap flight_of tags)))) as Hw.
  { induction tags as [|t tags IH]; intros [b f]; [done|]. cbn [fold_left]. rewrite IH, !last_omap_cons.
    destruct t as [t|]; cbn [adsc_step basic_of flight_of mbind option_bind]; [|by destruct (last (omap basic_of tags)), (last (omap flight_of tags))].
    destruct (is_basic (tag_no t)), (tag_no t =? 12), (last (omap basic_of tags)), (last (omap flight_of tags)); done. }
  rewrite Hw. cbn [fst snd]. by destruct (last (omap basic_of tags)).
Qed.

(** * What a message must lead to *)

(** The message of a tree that is complete. *)
Definition finished (tree : option la_tree) : option la_acars_msg :=
  tree ← tree; msg ← tree_acars tree; if msg_in_progress msg then None else Some msg.
Definition faulty (tree : option la_tree) : bool := match finished tree with Some msg => msg_err msg | None => false end.
Definition reports (tree : option la_tree) : list (option adsc_tag) :=
  match tree with Some (LaTree _ (Some a) _ _) => if adsc_err a then [] else adsc_tags a | _ => [] end.
Definition adsc_report (tree : option la_tree) : option (f64 * f64 * Z) := last (omap basic_of (reports tree)).

(** The position in a text. *)
Definition text_fix (msg : la_acars_msg) : option (f64 * f64) :=
  match opt_text (msg_txt msg) with [] => None | txt => acars_extract_text_position (msg_label msg) txt end.
Definition waypoint_fix (d : D) (msg : la_acars_msg) : option (f64 * f64) :=
  match opt_text (msg_txt msg) with [] => None | txt => acars_extract_waypoint_position d (msg_label msg) txt end.

(** Where a message without errors puts its aircraft: the last ADS-C report, else the
    coordinates of its text, else a waypoint of its text, else the beam heard. *)
Definition placed (d : D) (beams : beam_cache) (ts : Z) (tree : option la_tree) (src : pos_source) (p : f64 * f64) : Prop :=
  exists msg, finished tree = Some msg /\ msg_err msg = false /\ deref (msg_reg msg) <> 0 /\
  match src with
  | FromAdsc => exists alt, adsc_report tree = Some (p, alt)
  | FromText => adsc_report tree = None /\ text_fix msg = Some p
  | FromWaypoint => adsc_report tree = None /\ text_fix msg = None /\ waypoint_fix d msg = Some p
  | FromBeam => adsc_report tree = None /\ text_fix msg = None /\ waypoint_fix d msg = None /\
      exists b, beam_cache_lookup beams ts = Some b /\ p = (bc_lat b, bc_lon b)
  end.

(** A message with the tree libacars gave for it and the place it was given. *)
Record handled := Handled { h_msg : env * beam_cache * list Z * meta; h_tree : option la_tree; h_place : option (pos_source * (f64 * f64)) }.

(** The tree came from libacars. *)
Definition parsed_as (data : list Z) (ul : bool) (tree : option la_tree) : Prop := forall t, tree = Some t ->
  exists reasm tv hdr input, la_input data = Some (hdr, input) /\ snd (la_parse reasm input ul tv) = Some t.

Definition handled_ok (cfg : config) (d : D) (h : handled) : Prop :=
  let '(e, beams, data, m) := h_msg h in
  parsed_as data (a_ul m) (h_tree h) /\
  match h_place h with
  | Some (src, p) => web_enabled cfg = true /\ placed d beams (a_timestamp m) (h_tree h) src p
  | None => web_enabled cfg = true -> forall src p, ~ placed d beams (a_timestamp m) (h_tree h) src p
  end.

(** The events of a placed aircraft: its map entry and, with the feed enabled and for a
    beam only when beams are asked for, one call of [basestation_send_position] with
    the same registration, flight, position, altitude and time. *)
Definition tracked (cfg : config) (h : handled) : list la_event :=
  let '(e, beams, data, m) := h_msg h in
  match h_place h, finished (h_tree h) with
  | Some (src, (lat, lon)), Some msg =>
      let tail := strip_dots (msg_reg msg) in
      let flight := match last (omap flight_of (reports (h_tree h))) with Some (c :: f) => c :: f | _ => msg_flight_id msg end in
      let alt := match adsc_report (h_tree h) with Some (_, _, alt) => alt | None => -99999 end in
      let beam := beam_cache_lookup beams (a_timestamp m) in
      match tail with
      | [] => []
      | _ => Aircraft tail flight lat lon (match beam with Some b => bc_sat_id b | None => 0 end) (match beam with Some b => bc_beam_id b | None => 0 end)
               (a_timestamp m) (a_frequency m) alt (negb (bool_decide (src = FromBeam))) (oooi (msg_label msg) (msg_txt msg)) ::
             (if basestation_enabled cfg && (negb (bool_decide (src = FromBeam)) || basestation_beam cfg)
              then [BaseStation tail flight lat lon alt (a_timestamp m)] else [])
      end
  | _, _ => []
  end.

Definition is_out (ev : la_event) : bool := match ev with Out _ => true | _ => false end.
Definition is_base (ev : la_event) : bool := match ev with BaseStation _ _ _ _ _ _ => true | _ => false end.
Definition count {A} (f : A -> bool) (l : list A) : Z := Z.of_nat (List.length (List.filter f l)).
Definition from_source (src : pos_source) (h : handled) : bool := match h_place h with Some (s, _) => bool_decide (s = src) | None => false end.
Definition complete (h : handled) : bool := match finished (h_tree h) with Some _ => true | None => false end.

(** What the messages add to the counters. *)
Definition counted_messages (st st' : la_state) (hs : list handled) : Prop :=
  stat_acars_total (la_base st') = stat_acars_total (la_base st) + count complete hs /\
  stat_acars_errors (la_base st') = stat_acars_errors (la_base st) + count (fun h => faulty (h_tree h)) hs.
Definition counted_places (st st' : la_state) (hs : list handled) (evs : list la_event) : Prop :=
  stat_bs_sent (la_base st') = stat_bs_sent (la_base st) + count is_base evs /\
  stat_pos_adsc st' = stat_pos_adsc st + count (from_source FromAdsc) hs /\
  stat_pos_text (la_base st') = stat_pos_text (la_base st) + count (from_source FromText) hs /\
  stat_pos_waypoint st' = stat_pos_waypoint st + count (from_source FromWaypoint) hs /\
  stat_pos_beam (la_base st') = stat_pos_beam (la_base st) + count (from_source FromBeam) hs.

(** * Lemmas *)

Lemma count_app {A} (f : A -> bool) a b : count f (a ++ b) = count f a + count f b.
Proof. unfold count. by rewrite List.filter_app, length_app, Nat2Z.inj_add. Qed.
Lemma count_cons {A} (f : A -> bool) x l : count f (x :: l) = (if f x then 1 else 0) + count f l.
Proof. unfold count. cbn [List.filter]. destruct (f x); cbn [List.length]; lia. Qed.

Lemma walk_reports tree : adsc_walk (tree_adsc tree) = (adsc_report (Some tree), default [] (last (omap flight_of (reports (Some tree))))).
Proof.
  unfold adsc_report, reports. destruct tree as [a [[[] tags]|] j t]; cbn [tree_adsc adsc_err adsc_tags]; [done|apply adsc_walk_last|done].
Qed.

(** The choice of the code is the first source that has a position. *)
Lemma position_placed d beams msg tree ts : finished (Some tree) = Some msg -> msg_err msg = false -> deref (msg_reg msg) <> 0 ->
  match la_position d beams msg (adsc_report (Some tree)) ts with
  | Some (src, p, ids) => placed d beams ts (Some tree) src p /\
      let beam := beam_cache_lookup beams ts in
      ids = (match beam with Some b => bc_sat_id b | None => 0 end, match beam with Some b => bc_beam_id b | None => 0 end)
  | None => forall src p, ~ placed d beams ts (Some tree) src p
  end.
Proof.
  intros Hf He Hr. unfold la_position.
  assert (forall b : option beam_cache_t, match b with Some b => (bc_sat_id b, bc_beam_id b) | None => (0, 0) end =
    (match b with Some b => bc_sat_id b | None => 0 end, match b with Some b => bc_beam_id b | None => 0 end)) as Hids by by intros [].
  rewrite Hids.
  assert (forall src p, placed d beams ts (Some tree) src p <->
    match src with
    | FromAdsc => exists alt, adsc_report (Some tree) = Some (p, alt)
    | FromText => adsc_report (Some tree) = None /\ text_fix msg = Some p
    | FromWaypoint => adsc_report (Some tree) = None /\ text_fix msg = None /\ waypoint_fix d msg = Some p
    | FromBeam => adsc_report (Some tree) = None /\ text_fix msg = None /\ waypoint_fix d msg = None /\
        exists b, beam_cache_lookup beams ts = Some b /\ p = (bc_lat b, bc_lon b)
    end) as Hp.
  { intros src p. unfold placed. cbv zeta. split; [intros (msg' & E & _ & _ & Hs); rewrite Hf in E; injection E as <-; exact Hs|].
    intros Hs. exists msg. auto. }
  assert (match opt_text (msg_txt msg) with [] => None | _ => acars_extract_text_position (msg_label msg) (opt_text (msg_txt msg)) end = text_fix msg) as ->
    by (unfold text_fix; by destruct (opt_text (msg_txt msg))).
  assert (match opt_text (msg_txt msg), text_fix msg with [], _ | _, Some _ => None | _, None => acars_extract_waypoint_position d (msg_label msg) (opt_text (msg_txt msg)) end =
    match text_fix msg with Some _ => None | None => waypoint_fix d msg end) as -> by (unfold waypoint_fix; by destruct (opt_text (msg_txt msg)), (text_fix msg)).
  destruct (adsc_report (Some tree)) as [[[lat lon] alt]|] eqn:Er; [split; [apply Hp; by exists alt|done]|].
  destruct (text_fix msg) as [q|] eqn:Et; [split; [by apply Hp|done]|].
  destruct (waypoint_fix d msg) as [q|] eqn:Ew; [split; [by apply Hp|done]|].
  destruct (beam_cache_lookup beams ts) as [b|] eqn:Eb; [split; [apply Hp; split_and!; eauto|done]|].
  intros [] p Hs; apply Hp in Hs; [destruct Hs as [? ?]|destruct Hs as [_ ?]|destruct Hs as (_ & _ & ?)|destruct Hs as (_ & _ & _ & ? & ? & _)]; discriminate.
Qed.

(** The aircraft half of a complete message. *)
Lemma aircraft_tracked cfg e d beams st tree msg data m : finished (Some tree) = Some msg ->
  let '(st', evs) := la_aircraft cfg d beams st tree msg m in
  exists pl, let h := Handled (e, beams, data, m) (Some tree) pl in
  match pl with
  | Some (src, p) => web_enabled cfg = true /\ placed d beams (a_timestamp m) (Some tree) src p
  | None => web_enabled cfg = true -> forall src p, ~ placed d beams (a_timestamp m) (Some tree) src p
  end /\
  evs = tracked cfg h /\ counted_places st st' [h] evs /\ counted_messages st st' [].
Proof.
  intros Hf. unfold la_aircraft. destruct (web_enabled cfg && negb (msg_err msg) && negb (deref (msg_reg msg) =? 0)) eqn:E.
  2:{ exists None. split; [|split; [done|]; unfold counted_places, counted_messages, count; cbn; lia].
      intros Hw src p (msg' & E' & He & Hr & _). rewrite Hf in E'. injection E' as <-. apply Z.eqb_neq in Hr. by rewrite Hw, He, Hr in E. }
  apply andb_true_iff in E as [E Hr]. apply andb_true_iff in E as [Hw He]. apply negb_true_iff in He, Hr. apply Z.eqb_neq in Hr.
  rewrite walk_reports. pose proof (position_placed d beams msg tree (a_timestamp m) Hf He Hr) as Hp.
  destruct (la_position d beams msg (adsc_report (Some tree)) (a_timestamp m)) as [[[src [lat lon]] [sat beam]]|].
  2:{ exists None. split; [auto|]. split; [done|]. unfold counted_places, counted_messages, count. cbn. lia. }
  destruct Hp as [Hp Hids]. cbv zeta in Hids. injection Hids as -> ->.
  assert (match default [] (last (omap flight_of (reports (Some tree)))) with [] => msg_flight_id msg | _ => default [] (last (omap flight_of (reports (Some tree)))) end =
    match last (omap flight_of (reports (Some tree))) with Some (c :: f) => c :: f | _ => msg_flight_id msg end) as ->
    by by destruct (last (omap flight_of (reports (Some tree)))) as [[|]|].
  destruct (strip_dots (msg_reg msg)) as [|c tail] eqn:Es; [|destruct (basestation_enabled cfg && _) eqn:Eb];
    exists (Some (src, (lat, lon))); (split; [done|]); unfold tracked; cbn [h_msg h_tree h_place]; rewrite Hf, Es, ?Eb; (split; [reflexivity|]);
    unfold counted_places, counted_messages; rewrite !count_cons; unfold count; destruct src; cbn; repeat case_bool_decide; (discriminate || lia || congruence).
Qed.

(** Steps that change no counter. *)
Definition same_counters (st st' : la_state) : Prop := counted_places st st' [] [] /\ counted_messages st st' [].

Lemma same_on_base f st :
  (forall b, stat_bs_sent (f b) = stat_bs_sent b /\ stat_pos_text (f b) = stat_pos_text b /\ stat_pos_beam (f b) = stat_pos_beam b /\
    stat_acars_total (f b) = stat_acars_total b /\ stat_acars_errors (f b) = stat_acars_errors b) -> same_counters st (on_base f st).
Proof. intros Hb. specialize (Hb (la_base st)). unfold same_counters, counted_places, counted_messages, count. cbn. lia. Qed.

Lemma unix_same e st ts base u : ts_to_unix e (la_base st) ts = (base, u) -> same_counters st (on_base (fun _ => base) st).
Proof. unfold ts_to_unix. intros E. injection E as <- _. by apply (same_on_base (fun b => ts_ensure_init e b ts) st). Qed.
Lemma text_same e st tree m hdr : same_counters st (fst (la_text e st tree m hdr)).
Proof. unfold la_text, format_timestamp. by apply (same_on_base (fun b => ts_ensure_init e b (a_timestamp m)) st). Qed.

(** The other outputs are neither aircraft nor reports. *)
Lemma filter_out l : List.filter (fun ev => negb (is_out ev)) (map Out l) = [] /\ count is_base (map Out l) = 0.
Proof. unfold count. split; induction l as [|ev l IH]; [done..|]; cbn [map List.filter is_out is_base negb]; done. Qed.

Definition plain (evs : list la_event) : Prop := exists l, evs = map Out l.
Lemma plain_app a b : plain a -> plain b -> plain (a ++ b).
Proof. intros [l ->] [m ->]. exists (l ++ m). by rewrite map_app. Qed.
Lemma outputs_plain cfg e tree tv msg m hdr st :
  plain (la_json cfg tree tv m hdr) /\ plain (snd (la_text e st tree m hdr)) /\ plain (la_web_message cfg msg m) /\ plain (la_hub cfg e msg m hdr).
Proof.
  unfold la_json, la_text, la_web_message, la_hub.
  split; [destruct (tree_json _ _); [by eexists|by exists []]|]. split; [destruct (format_timestamp _ _ _); by eexists [_]|].
  split; [destruct (_ && _); [by eexists [_]|by exists []]|]. destruct (_ && _); [by eexists|by exists []].
Qed.

Lemma finished_tree tree : finished (Some tree) = match tree_acars tree with Some msg => if msg_in_progress msg then None else Some msg | None => None end.
Proof. unfold finished. cbn [mbind option_bind]. by destruct (tree_acars tree). Qed.

Lemma nothing_handled cfg e d beams st st' data m tree : same_counters st st' -> finished tree = None -> parsed_as data (a_ul m) tree ->
  exists h, h_msg h = (e, beams, data, m) /\ handled_ok cfg d h /\ [] = tracked cfg h /\ counted_places st st' [h] [] /\ counted_messages st st' [h].
Proof.
  intros [Hp Hm] Hf Ht. exists (Handled (e, beams, data, m) tree None). split; [done|].
  split; [split; [exact Ht|]; intros _ src p (msg & E & _); cbn [h_tree] in E; by rewrite Hf in E|]. split; [done|].
  unfold counted_places, counted_messages in *. rewrite !count_cons. unfold from_source, complete, faulty. cbn [h_tree h_place]. rewrite Hf.
  unfold count in *. cbn [List.filter List.length] in *. lia.
Qed.

(** One message. *)
Lemma parse_handled cfg e d beams st reasm data m :
  let '(st', _, evs) := acars_parse_libacars cfg e d beams st reasm data m in
  exists h, h_msg h = (e, beams, data, m) /\ handled_ok cfg d h /\ List.filter (fun ev => negb (is_out ev)) evs = tracked cfg h /\
  counted_places st st' [h] evs /\ counted_messages st st' [h].
Proof.
  unfold acars_parse_libacars. destruct (la_input data) as [[hdr data']|] eqn:El; [|apply (nothing_handled cfg e d beams st st data m None); [destruct st; by apply (same_on_base (fun b => b))|done..]].
  destruct (ts_to_unix e (la_base st) (a_timestamp m)) as [base unix_time] eqn:Et. pose proof (unix_same e st _ _ _ Et) as H0.
  set (st0 := on_base (fun _ => base) st) in *. destruct (la_parse reasm data' (a_ul m) _) as [reasm' tree] eqn:Ep.
  assert (parsed_as data (a_ul m) tree) as Ht by (intros t ->; eexists reasm, _, hdr, data'; split; [done|by rewrite Ep]).
  destruct tree as [tree|]; [|by apply (nothing_handled cfg e d beams st st0 data m None)].
  destruct (tree_acars tree) as [msg|] eqn:Ea; [|apply (nothing_handled cfg e d beams st st0 data m (Some tree)); [done|by rewrite finished_tree, Ea|exact Ht]].
  destruct (msg_in_progress msg) eqn:Ei; [apply (nothing_handled cfg e d beams st st0 data m (Some tree)); [done|by rewrite finished_tree, Ea, Ei|exact Ht]|].
  assert (finished (Some tree) = Some msg) as Hf by by rewrite finished_tree, Ea, Ei.
  set (st1 := on_base (fun b => bump_acars b (if msg_err msg then 1 else 0)) st0).
  assert (forall pl, counted_messages st st1 [Handled (e, beams, data, m) (Some tree) pl] /\ counted_places st st1 [] []) as H1.
  { intros pl. destruct H0 as [Hp Hm]. unfold counted_places, counted_messages in *. rewrite !count_cons. unfold complete, faulty. cbn [h_tree]. rewrite Hf.
    unfold st1, count in *. destruct (msg_err msg); cbn in *; lia. }
  destruct (_ && msg_err msg) eqn:Ee.
  { apply andb_true_iff in Ee as [_ Ee]. exists (Handled (e, beams, data, m) (Some tree) None). split; [done|].
    split; [split; [exact Ht|]; intros _ src p (msg' & E & He & _); cbn [h_tree] in E; rewrite Hf in E; injection E as <-; congruence|]. split; [done|].
    destruct (H1 None) as [M1 P1]. split; [|exact M1]. unfold counted_places in *. by rewrite !count_cons. }
  set (st2 := if acars_json cfg then st1 else fst (la_text e st1 tree m hdr)).
  set (ev2 := if acars_json cfg then [] else snd (la_text e st1 tree m hdr)).
  assert ((if acars_json cfg then (st1, []) else la_text e st1 tree m hdr) = (st2, ev2)) as ->
    by (unfold st2, ev2; destruct (acars_json cfg); [done|by destruct (la_text e st1 tree m hdr)]).
  assert (same_counters st1 st2) as H2 by (unfold st2; destruct (acars_json cfg); [destruct st1; by apply (same_on_base (fun b => b))|apply text_same]).
  pose proof (aircraft_tracked cfg e d beams st2 tree msg data m Hf) as Ha. destruct (la_aircraft cfg d beams st2 tree msg m) as [st3 ev3].
  destruct Ha as (pl & Hpl & Hev & Hcp & Hcm). exists (Handled (e, beams, data, m) (Some tree) pl).
  split; [done|]. split; [by split|].
  match goal with |- context [la_json cfg tree ?tv m hdr] => destruct (outputs_plain cfg e tree tv msg m hdr st1) as (Q1 & Q2 & Q3 & Q4) end.
  rewrite !app_assoc. match goal with |- context [?p ++ ev3] => assert (plain p) as [l ->] end.
  { repeat apply plain_app; [destruct (_ || _); [done|by exists []]|unfold ev2; destruct (acars_json cfg); [by exists []|done]|done..]. }
  destruct (filter_out l) as [F1 F2]. specialize (H1 pl) as [M1 P1]. rewrite List.filter_app, F1. destruct H2 as [P2 M2].
  assert (List.filter (fun ev => negb (is_out ev)) ev3 = ev3) as ->.
  { rewrite Hev. unfold tracked. cbn [h_msg h_tree h_place]. destruct pl as [[src [lat lon]]|]; [|done]. rewrite Hf.
    destruct (strip_dots (msg_reg msg)); [done|]. by destruct (basestation_enabled cfg && _). }
  split; [done|]. unfold counted_places, counted_messages in *. rewrite count_app, F2. unfold count in *. cbn [List.filter List.length] in *. lia.
Qed.

(** A run of messages. *)
Lemma run_handled cfg d msgs : forall st reasm, let '(st', _, evs) := libacars_run cfg d st reasm msgs in
  exists hs, map h_msg hs = msgs /\ Forall (handled_ok cfg d) hs /\ List.filter (fun ev => negb (is_out ev)) evs = List.concat (map (tracked cfg) hs) /\
  counted_places st st' hs evs /\ counted_messages st st' hs.
Proof.
  induction msgs as [|[[[e beams] data] m] msgs IH]; intros st reasm; [exists []; unfold libacars_run, counted_places, counted_messages, count; cbn; split_and!; done || lia|]. cbn [libacars_run].
  pose proof (parse_handled cfg e d beams st reasm data m) as H1. destruct (acars_parse_libacars cfg e d beams st reasm data m) as [[st1 r1] ev1].
  specialize (IH st1 r1). destruct (libacars_run cfg d st1 r1 msgs) as [[st2 r2] ev2].
  destruct H1 as (h & Hm & Hok & Hf & Hp & Hc), IH as (hs & Hms & Hoks & Hfs & Hps & Hcs). exists (h :: hs). cbn [map List.concat].
  split; [by rewrite Hm, Hms|]. split; [by constructor|]. split; [by rewrite List.filter_app, Hf, Hfs|].
  unfold counted_places, counted_messages in *. rewrite !count_cons in *. rewrite !count_app. unfold count in *. cbn [List.filter List.length] in *. lia.
Qed.
End libacars.

(** * Properties *)

Definition la_start : la_state := LaState (Acars 0 None 0 0 0 0 0) 0 0.


(** A report with two positions and a flight id. *)
Definition demo_la_msg : la_acars_msg :=
  LaMsg false false 50 (bytes_of ".N12345") 33 (bytes_of "B6") 52 true (bytes_of "AB1234") (bytes_of "L01") (Some (bytes_of "POS")).
Definition demo_tags : list (option adsc_tag) :=
  [Some (AdscTag 7 (f64_of_Z 10, f64_of_Z 20, 31000) []); None; Some (AdscTag 12 (f64_of_Z 0, f64_of_Z 0, 0) (bytes_of "AB12"));
   Some (AdscTag 20 (f64_of_Z 11, f64_of_Z 21, 32000) [])].
Definition demo_tree : la_tree := LaTree (Some demo_la_msg) (Some (AdscMsg false demo_tags)) (fun _ => Some (bytes_of "{}")) None.
Definition demo_data : list Z := 1 :: demo_hdr ++ replicate 13 65.

Lemma libacars_demo {D} `{WaypointSource D} (d : D) beams : beam_cache_lookup beams (a_timestamp demo_meta) = None ->
  let '(st, _, evs) := acars_parse_libacars (fun (r : unit) _ _ _ => (r, Some demo_tree)) (Config true true 0 0 true true false None) demo_env d beams la_start tt demo_data demo_meta in
  stat_pos_adsc st = 1 /\ stat_bs_sent (la_base st) = 1 /\
  evs = [Out (StdoutJson (bytes_of "{}" ++ [10])); Out (WebMessage (bytes_of "N12345") (bytes_of "AB1234") (bytes_of "B6") (bytes_of "POS") true 2000000000);
    Aircraft (bytes_of "N12345") (bytes_of "AB12") (f64_of_Z 11) (f64_of_Z 21) 0 0 2000000000 (a_frequency demo_meta) 32000 true None;
    BaseStation (bytes_of "N12345") (bytes_of "AB12") (f64_of_Z 11) (f64_of_Z 21) 32000 2000000000].
Proof.
  intros Hb. unfold acars_parse_libacars, la_aircraft, la_position. rewrite Hb. vm_compute. auto.
Qed.
