(* ===== verification/Feeds.v ===== *)
(** The endpoints of the ACARS outputs in [src/sbd_acars.c]: the datagram sockets
    of the JSON stream, and the aggregator feeds over UDP or TCP with their
    reconnection.

    The operating system is an oracle: what each call returns may depend on when
    it is made.  Descriptors are numbered in the order they are opened; the log
    records opening, closing and use, and [replay] is the kernel's view of it. *)
From S2P Require Import Prelude.
From stdpp Require Import gmap sets.
#[local] Open Scope Z_scope.

(** * The system *)

Inductive net_event := Opened (fd : nat) | Failed | Closed (fd : nat) | Sent (fd : nat) (data : list Z).

Record net := Net { next_fd : nat; log : list net_event }.
Definition now (n : net) : nat := length (log n).
Definition note (ev : net_event) (n : net) : net := Net (next_fd n) (log n ++ [ev]).

Record system := System {
  socket_ok : nat -> bool;
  resolves : list Z -> bool;
  connect_ok : nat -> bool;
  send_result : nat -> Z;
}.

Definition sys_socket (s : system) (n : net) : option nat * net :=
  if socket_ok s (now n) then (Some (next_fd n), Net (S (next_fd n)) (log n ++ [Opened (next_fd n)])) else (None, note Failed n).
Definition sys_send (s : system) (fd : nat) (data : list Z) (n : net) : Z * net := (send_result s (now n), note (Sent fd data) n).

(** The descriptors that are open; [None] when one that is not is closed or
    used. *)
Definition replay1 (o : gset nat) (ev : net_event) : option (gset nat) :=
  match ev with
  | Opened fd => if decide (fd ∈ o) then None else Some ({[fd]} ∪ o)
  | Failed => Some o
  | Closed fd => if decide (fd ∈ o) then Some (o ∖ {[fd]}) else None
  | Sent fd _ => if decide (fd ∈ o) then Some o else None
  end.
Fixpoint replay (o : gset nat) (evs : list net_event) : option (gset nat) :=
  match evs with [] => Some o | ev :: evs => o ← replay1 o ev; replay o evs end.

(** * Endpoints *)

Definition UDP_MAX : nat := 4.
Definition FEED_MAX : nat := 4.

Record feed_ep := Feed { is_tcp : bool; fd : option nat; ep_host : list Z; ep_port : Z }.
Record endpoints := Endpoints { udp_fds : list nat; feeds : list feed_ep }.

(** [feed_tcp_connect]. *)
Definition feed_tcp_connect (s : system) (host : list Z) (n : net) : option nat * net :=
  if negb (resolves s host) then (None, n)
  else match sys_socket s n with
       | (None, n) => (None, n)
       | (Some fd, n) => if connect_ok s (now n) then (Some fd, n) else (None, note (Closed fd) n)
       end.

(** A datagram socket to a host: none without the socket or the address. *)
Definition udp_open (s : system) (host : list Z) (n : net) : option nat * net :=
  match sys_socket s n with
  | (None, n) => (None, n)
  | (Some fd, n) => if resolves s host then (Some fd, n) else (None, note (Closed fd) n)
  end.

(** The two loops of [acars_init]. *)
Fixpoint init_udp (s : system) (hosts : list (list Z)) (n : net) : list nat * net :=
  match hosts with
  | [] => ([], n)
  | h :: hosts =>
      let '(r, n) := udp_open s h n in
      let '(l, n) := init_udp s hosts n in
      (match r with Some fd => fd :: l | None => l end, n)
  end.
Fixpoint init_feeds (s : system) (specs : list (bool * list Z * Z)) (n : net) : list feed_ep * net :=
  match specs with
  | [] => ([], n)
  | (tcp, h, p) :: specs =>
      let '(r, n) := if tcp then feed_tcp_connect s h n else udp_open s h n in
      let '(l, n) := init_feeds s specs n in
      (if tcp then Feed true r h p :: l else match r with Some fd => Feed false (Some fd) h p :: l | None => l end, n)
  end.
Definition acars_init (s : system) (udp_hosts : list (list Z)) (specs : list (bool * list Z * Z)) (n : net) : endpoints * net :=
  let '(u, n) := init_udp s (take UDP_MAX udp_hosts) n in
  let '(f, n) := init_feeds s (take FEED_MAX specs) n in
  (Endpoints u f, n).

(** A turn of the loop of [hub_buf_emit]. *)
Definition feed_emit (s : system) (buf : list Z) (f : feed_ep) (n : net) : feed_ep * net :=
  let with_fd r := Feed (is_tcp f) r (ep_host f) (ep_port f) in
  if negb (is_tcp f) then
    match fd f with Some x => let '(_, n) := sys_send s x buf n in (f, n) | None => (f, n) end
  else
    let '(r, n) := match fd f with Some x => (Some x, n) | None => feed_tcp_connect s (ep_host f) n end in
    match r with
    | None => (with_fd None, n)
    | Some x =>
        let '(r1, n) := sys_send s x buf n in
        let '(r2, n) := if 0 <? r1 then sys_send s x [10] n else (r1, n) in
        if r2 <=? 0 then (with_fd None, note (Closed x) n) else (with_fd (Some x), n)
    end.
Fixpoint emit_all (s : system) (buf : list Z) (fs : list feed_ep) (n : net) : list feed_ep * net :=
  match fs with
  | [] => ([], n)
  | f :: fs => let '(f, n) := feed_emit s buf f n in let '(fs, n) := emit_all s buf fs n in (f :: fs, n)
  end.
Definition hub_buf_emit (s : system) (buf : list Z) (e : endpoints) (n : net) : endpoints * net :=
  match buf with
  | [] => (e, n)
  | _ => let '(f, n) := emit_all s buf (feeds e) n in (Endpoints (udp_fds e) f, n)
  end.

(** [acars_shutdown]. *)
Definition acars_shutdown (e : endpoints) (n : net) : net :=
  let n := fold_left (fun n x => note (Closed x) n) (udp_fds e) n in
  fold_left (fun n f => match fd f with Some x => note (Closed x) n | None => n end) (feeds e) n.

(** A run of the program: the messages of its feeds. *)
Fixpoint emit_msgs (s : system) (bufs : list (list Z)) (e : endpoints) (n : net) : endpoints * net :=
  match bufs with
  | [] => (e, n)
  | b :: bufs => let '(e, n) := hub_buf_emit s b e n in emit_msgs s bufs e n
  end.

(** * Lemmas *)

Lemma net_replay_app o a b : replay o (a ++ b) = (o ← replay o a; replay o b).
Proof. revert o. induction a as [|ev a IH]; intros o; [done|]. cbn. destruct (replay1 o ev); [apply IH|done]. Qed.

(** The open descriptors are [held], each once. *)
Definition holds (n : net) (held : list nat) : Prop :=
  replay ∅ (log n) = Some (list_to_set held) /\ NoDup held /\ Forall (fun x => (x < next_fd n)%nat) held.

Definition ep_fds (fs : list feed_ep) : list nat := omap fd fs.

Lemma holds_perm n a b : Permutation a b -> holds n a -> holds n b.
Proof. intros HP (H1 & H2 & H3). unfold holds. rewrite <- HP. done. Qed.

Lemma note_replay n ev o : replay ∅ (log n) = Some o -> replay ∅ (log (note ev n)) = replay1 o ev.
Proof. intros H. cbn [note log]. rewrite net_replay_app, H. cbn. by destruct (replay1 o ev). Qed.

Lemma holds_failed n held : holds n held -> holds (note Failed n) held.
Proof. intros (H1 & H2 & H3). split; [|done]. by rewrite (note_replay n _ _ H1). Qed.

Lemma holds_sent n held x data : x ∈ held -> holds n held -> holds (note (Sent x data) n) held.
Proof. intros Hx (H1 & H2 & H3). split; [|done]. rewrite (note_replay n _ _ H1). cbn. by rewrite decide_True by set_solver. Qed.

Lemma holds_closed n held x : holds n (x :: held) -> holds (note (Closed x) n) held.
Proof.
  intros (H1 & H2 & H3). apply NoDup_cons in H2 as [Hx H2]. split; [|split; [done|by apply Forall_cons in H3 as [_ H3]]].
  rewrite (note_replay n _ _ H1). cbn. rewrite decide_True by set_solver. f_equal. set_solver.
Qed.

Lemma holds_opened n held : holds n held -> holds (Net (S (next_fd n)) (log n ++ [Opened (next_fd n)])) (next_fd n :: held).
Proof.
  intros (H1 & H2 & H3). assert (next_fd n ∉ held) as Hx by (rewrite Forall_forall in H3; intros Hx; specialize (H3 _ Hx); lia).
  split; [|split].
  - cbn [log]. rewrite net_replay_app, H1. cbn. rewrite decide_False by (rewrite elem_of_list_to_set; done). done.
  - by constructor.
  - cbn [next_fd]. constructor; [lia|]. eapply Forall_impl; [exact H3|]. intros; cbn in *; lia.
Qed.

(** What an operation that may open one adds. *)
Definition opens (r : option nat * net) (held : list nat) : Prop := holds (snd r) (option_list (fst r) ++ held).

Lemma socket_holds s n held : holds n held -> opens (sys_socket s n) held.
Proof. intros H. unfold sys_socket, opens. destruct (socket_ok s (now n)); [by apply holds_opened|by apply holds_failed]. Qed.

Lemma connect_holds s h n held : holds n held -> opens (feed_tcp_connect s h n) held.
Proof.
  intros H. unfold feed_tcp_connect. destruct (negb _); [done|]. pose proof (socket_holds s n held H) as Hs.
  destruct (sys_socket s n) as [[x|] n']; [|done]. destruct (connect_ok s (now n')); [done|]. by apply holds_closed.
Qed.
Lemma udp_holds s h n held : holds n held -> opens (udp_open s h n) held.
Proof.
  intros H. unfold udp_open. pose proof (socket_holds s n held H) as Hs.
  destruct (sys_socket s n) as [[x|] n']; [|done]. destruct (resolves s h); [done|]. by apply holds_closed.
Qed.

Lemma init_udp_holds s hosts : forall n held, holds n held -> let '(l, n) := init_udp s hosts n in holds n (l ++ held).
Proof.
  induction hosts as [|h hosts IH]; intros n held H; [done|]. cbn [init_udp]. pose proof (udp_holds s h n held H) as Hu.
  destruct (udp_open s h n) as [r n1]. specialize (IH n1 _ Hu). destruct (init_udp s hosts n1) as [l n2].
  destruct r as [x|]; [|done]. eapply holds_perm; [|exact IH]. cbn [fst option_list]. change (option_list (Some x)) with [x].
  by rewrite app_assoc, (Permutation_app_comm l [x]).
Qed.

Lemma init_feeds_holds s specs : forall n held, holds n held -> let '(l, n) := init_feeds s specs n in holds n (ep_fds l ++ held).
Proof.
  induction specs as [|[[tcp h] p] specs IH]; intros n held H; [done|]. cbn [init_feeds].
  assert (opens (if tcp then feed_tcp_connect s h n else udp_open s h n) held) as Hu by (destruct tcp; [by apply connect_holds|by apply udp_holds]).
  destruct (if tcp then feed_tcp_connect s h n else udp_open s h n) as [r n1]. specialize (IH n1 _ Hu). destruct (init_feeds s specs n1) as [l n2].
  cbn [fst] in IH. assert (holds n2 (option_list r ++ ep_fds l ++ held)) as Hp.
  { eapply holds_perm; [|exact IH]. by rewrite !app_assoc, (Permutation_app_comm (ep_fds l) (option_list r)). }
  destruct tcp, r as [x|]; exact Hp.
Qed.

Lemma feed_emit_holds s buf f n held : holds n (option_list (fd f) ++ held) ->
  let '(f', n') := feed_emit s buf f n in holds n' (option_list (fd f') ++ held) /\ is_tcp f' = is_tcp f.
Proof.
  intros H. unfold feed_emit. destruct (is_tcp f) eqn:Et; cbn [negb].
  2: { destruct (fd f) as [x|] eqn:Ef; [|by rewrite Ef]. cbn. rewrite Ef. split; [|done]. apply holds_sent; [by left|done]. }
  assert (opens (match fd f with Some x => (Some x, n) | None => feed_tcp_connect s (ep_host f) n end) held) as Hc
    by (destruct (fd f); [done|by apply connect_holds]).
  destruct (match fd f with Some x => (Some x, n) | None => _ end) as [[x|] n1]; [|by split].
  change (holds n1 (x :: held)) in Hc. unfold sys_send.
  assert (holds (note (Sent x buf) n1) (x :: held)) as H1 by (apply holds_sent; [by left|done]).
  assert (forall r2 n2, holds n2 (x :: held) -> let '(f', n') := if r2 <=? 0 then (Feed true None (ep_host f) (ep_port f), note (Closed x) n2)
    else (Feed true (Some x) (ep_host f) (ep_port f), n2) in holds n' (option_list (fd f') ++ held) /\ is_tcp f' = true) as Hend.
  { intros r2 n2 H2. destruct (r2 <=? 0); (split; [|done]); [by apply holds_closed|done]. }
  destruct (0 <? send_result s (now n1)); apply Hend; [|done]. apply holds_sent; [by left|done].
Qed.

Lemma emit_all_holds s buf fs : forall n held, holds n (ep_fds fs ++ held) ->
  let '(fs', n') := emit_all s buf fs n in holds n' (ep_fds fs' ++ held) /\ map is_tcp fs' = map is_tcp fs.
Proof.
  induction fs as [|f fs IH]; intros n held H; [done|]. cbn [emit_all].
  assert (forall g gs, ep_fds (g :: gs) = option_list (fd g) ++ ep_fds gs) as Hcons by (intros g gs; unfold ep_fds; cbn; by destruct (fd g)).
  rewrite Hcons, <- app_assoc in H. pose proof (feed_emit_holds s buf f n _ H) as Hf. destruct (feed_emit s buf f n) as [f' n1]. destruct Hf as [Hf Et].
  assert (holds n1 (ep_fds fs ++ option_list (fd f') ++ held)) as Hf' by (eapply holds_perm; [|exact Hf]; by rewrite !app_assoc, (Permutation_app_comm (ep_fds fs))).
  specialize (IH n1 _ Hf'). destruct (emit_all s buf fs n1) as [fs' n2]. destruct IH as [IH Em]. split; [|cbn; by rewrite Et, Em].
  rewrite Hcons. eapply holds_perm; [|exact IH]. by rewrite !app_assoc, (Permutation_app_comm (ep_fds fs')).
Qed.

Definition held (e : endpoints) : list nat := ep_fds (feeds e) ++ udp_fds e.

Lemma emit_msgs_holds s bufs : forall e n, holds n (held e) ->
  let '(e', n') := emit_msgs s bufs e n in holds n' (held e') /\ map is_tcp (feeds e') = map is_tcp (feeds e).
Proof.
  induction bufs as [|b bufs IH]; intros e n H; [done|]. cbn [emit_msgs]. unfold hub_buf_emit. destruct b as [|c b]; [by apply IH|].
  pose proof (emit_all_holds s (c :: b) (feeds e) n (udp_fds e) H) as He. destruct (emit_all s (c :: b) (feeds e) n) as [f n1]. destruct He as [He Em].
  specialize (IH (Endpoints (udp_fds e) f) n1 He). destruct (emit_msgs s bufs _ n1) as [e' n']. destruct IH as [IH Em']. split; [done|]. by rewrite Em'.
Qed.

Lemma shutdown_closes e n : holds n (held e) -> replay ∅ (log (acars_shutdown e n)) = Some ∅.
Proof.
  intros H. unfold acars_shutdown.
  assert (forall l n k, holds n (l ++ k) -> holds (fold_left (fun n x => note (Closed x) n) l n) k) as Hu.
  { clear. induction l as [|x l IH]; intros n k H; [done|]. cbn [fold_left]. apply IH. by apply holds_closed. }
  assert (forall l n, fold_left (fun n f => match fd f with Some x => note (Closed x) n | None => n end) l n = fold_left (fun n x => note (Closed x) n) (ep_fds l) n) as Hf.
  { clear. induction l as [|f l IH]; intros n; [done|]. cbn [fold_left]. rewrite IH. unfold ep_fds. cbn. by destruct (fd f). }
  rewrite Hf. assert (holds n (udp_fds e ++ ep_fds (feeds e) ++ [])) as H' by (eapply holds_perm; [|exact H]; unfold held; by rewrite app_nil_r, Permutation_app_comm).
  apply Hu, Hu in H'. by destruct H' as [-> _].
Qed.

(** * Properties *)

(** C24 (safety).  From [acars_init] over any messages to [acars_shutdown], whatever
    the system answers: no descriptor is used or closed that is not open, and none
    is left open; the endpoints stay within their arrays, and a feed over TCP that
    was lost stays configured for the next message. *)
Theorem feeds_closed s hosts specs bufs :
  let '(e, n) := acars_init s hosts specs (Net 0 []) in
  let '(e', n') := emit_msgs s bufs e n in
  replay ∅ (log (acars_shutdown e' n')) = Some ∅ /\
  (length (udp_fds e) <= UDP_MAX)%nat /\ (length (feeds e) <= FEED_MAX)%nat /\
  map is_tcp (feeds e') = map is_tcp (feeds e) /\ length (List.filter is_tcp (feeds e)) = length (List.filter (fun p => fst (fst p)) (take FEED_MAX specs)).
Proof.
  unfold acars_init. assert (holds (Net 0 []) []) as H0 by (split; [done|]; split; constructor).
  pose proof (init_udp_holds s (take UDP_MAX hosts) (Net 0 []) [] H0) as Hu.
  assert (length (fst (init_udp s (take UDP_MAX hosts) (Net 0 []))) <= UDP_MAX)%nat as Lu.
  { transitivity (length (take UDP_MAX hosts)); [|rewrite length_take; lia]. generalize (Net 0 []) as n. generalize (take UDP_MAX hosts) as l. clear.
    induction l as [|h l IH]; intros n; [done|]. cbn [init_udp]. destruct (udp_open s h n) as [r n1]. specialize (IH n1). destruct (init_udp s l n1) as [k n2].
    cbn [fst] in *. destruct r; cbn; lia. }
  destruct (init_udp s (take UDP_MAX hosts) (Net 0 [])) as [u n1]. rewrite app_nil_r in Hu. cbn [fst] in Lu.
  pose proof (init_feeds_holds s (take FEED_MAX specs) n1 u Hu) as Hf.
  assert (let f := fst (init_feeds s (take FEED_MAX specs) n1) in (length f <= FEED_MAX)%nat /\ length (List.filter is_tcp f) = length (List.filter (fun p => fst (fst p)) (take FEED_MAX specs))) as [Lf Lt].
  { cbv zeta. assert (length (take FEED_MAX specs) <= FEED_MAX)%nat as Ht by (rewrite length_take; lia). revert Ht. generalize FEED_MAX at 2 4 as b. intros b Ht.
    revert Ht. generalize n1. generalize (take FEED_MAX specs) as l. clear. intros l. revert b. induction l as [|[[tcp h] p] l IH]; intros b n Hb; [cbn; split; [lia|done]|].
    cbn [init_feeds]. destruct (if tcp then _ else _) as [r n1]. destruct b as [|b]; [cbn in Hb; lia|]. destruct (IH b n1 ltac:(cbn in Hb; lia)) as [I1 I2].
    destruct (init_feeds s l n1) as [k n2]. cbn [fst] in *. destruct tcp, r; cbn in *; split; lia. }
  destruct (init_feeds s (take FEED_MAX specs) n1) as [f n2]. cbn [fst] in Lf, Lt.
  pose proof (emit_msgs_holds s bufs (Endpoints u f) n2 Hf) as He. destruct (emit_msgs s bufs (Endpoints u f) n2) as [e' n']. destruct He as [He Em].
  split; [by apply shutdown_closes|]. by split.
Qed.
