(* ===== verification/Receiver.v ===== *)
(** The threads of [src/main.c] after the demodulator: [frame_consumer_thread]
    decodes data frames, prints a line and queues the frame; [output_thread_fn]
    feeds the frame decoder, the beam cache and the three assemblers, whose
    callbacks lead to GSMTAP, ACARS and the position reports of the web map.

    The queue between the two keeps the order, so the output thread is a fold
    over the queued items.  The calls that leave the modelled part are events.
    The contexts [ida_ctx], [acars_ida_ctx] and [mtpos_ida_ctx] are fields of
    the state. *)
From S2P Require Import Prelude CFloat QpskDemod FrameDecode IdaDecode IdaReassemble Sbd.
From S2P Require Import BeamCache WaypointDb AcarsPos Acars AcarsShown.

(** * Data *)

Record options := Options {
  parsed_mode : bool;
  gsmtap_enabled : bool;
  position_enabled : bool;
  use_chase : nat;
  acars_cfg : config;
}.

(** [output_item_t]: the frame and, when [ida_ok], the burst. *)
Record output_item := Item { it_demod : demod_frame; it_burst : option ida_burst }.

Record receiver := Receiver {
  ida_ctx : ida_context;
  acars_ida_ctx : ida_context;
  mtpos_ida_ctx : ida_context;
  rx_sbd : sbd_state;
  rx_acars : acars_state;
  rx_beams : beam_cache;
}.

Definition receiver_init : receiver :=
  Receiver ctx_init ctx_init ctx_init sbd_init (Acars 0 None 0 0 0 0 0) beam_cache_init.

Inductive rx_event :=
  | WebRingAlert (ira : ira_data) (timestamp : Z) (frequency : f64)
  | DopplerMeasurement (ira : ira_data) (frequency : f64) (timestamp : Z)
  | WebSatellite (ibc : ibc_data) (timestamp : Z)
  | GsmtapMessage (m : ida_message)
  | AcarsOut (ev : acars_event)
  | PositionMessage (m : ida_message).

Inductive stdout_line := LineIda (b : ida_burst) | LineRaw (f : demod_frame).

(** * The consumer thread *)

(** One demodulated frame; [room] tells whether the output queue takes it. *)
Definition frame_consumer (o : options) (tbl : ida_tables) (stk : stack_junk) (room : bool) (demod : demod_frame)
    : stdout_line * option output_item :=
  let web := web_enabled (acars_cfg o) in
  let acars := acars_enabled (acars_cfg o) in
  let ida :=
    if parsed_mode o || gsmtap_enabled o || acars || web then ida_decode tbl (use_chase o) stk demod else None in
  let line := match ida with
              | Some b => if parsed_mode o then LineIda b else LineRaw demod
              | None => LineRaw demod
              end in
  (line, if (web || position_enabled o || gsmtap_enabled o || acars) && room then Some (Item demod ida) else None).

(** * The output thread *)

(** [ida_reassemble] on the item's burst, then [ida_reassemble_flush]. *)
Definition assemble_item (ctx : ida_context) (it : output_item) : ida_context * option ida_message :=
  let '(ctx, m) := match it_burst it with Some b => ida_reassemble ctx b | None => (ctx, None) end in
  (ida_reassemble_flush ctx (df_timestamp (it_demod it)), m).

Section output.
Context (atan2 : f64 -> f64 -> f64) {D : Type} `{WaypointSource D}.

(** Ring alerts and broadcasts. *)
Definition output_frame (o : options) (tbl : tables) (st : receiver) (demod : demod_frame) : receiver * list rx_event :=
  let web := web_enabled (acars_cfg o) in
  if web || position_enabled o then
    match frame_decode atan2 tbl demod with
    | (true, DecodedFrame FRAME_IRA ts fq (BodyIra ira)) =>
        let near_ground := (0 <=? ira_alt ira) && (ira_alt ira <? 100) in
        let beams :=
          if web && near_ground then
            beam_cache_add (rx_beams st) (Beam (ira_lat ira) (ira_lon ira) (ira_sat_id ira) (ira_beam_id ira) ts)
          else rx_beams st in
        (Receiver (ida_ctx st) (acars_ida_ctx st) (mtpos_ida_ctx st) (rx_sbd st) (rx_acars st) beams,
         (if web then [WebRingAlert ira ts fq] else []) ++
         (if position_enabled o then [DopplerMeasurement ira fq ts] else []))
    | (true, DecodedFrame FRAME_IBC ts fq (BodyIbc ibc)) => (st, if web then [WebSatellite ibc ts] else [])
    | _ => (st, [])
    end
  else (st, []).

(** The ACARS branch: assembler, packet extraction and message parser. *)
Definition output_acars (o : options) (e : env) (d : D) (st : receiver) (it : output_item) : receiver * list rx_event :=
  let '(ctx, m) := assemble_item (acars_ida_ctx st) it in
  let '(sbd, p) := match m with Some m => acars_ida_cb (rx_sbd st) m | None => (rx_sbd st, None) end in
  let '(ac, evs) :=
    match p with
    | Some p => sbd_process (acars_cfg o) e d (rx_beams st) (rx_acars st) (p_data p)
                  (Meta (p_ul p) (p_timestamp p) (p_frequency p) (p_magnitude p))
    | None => (rx_acars st, [])
    end in
  (Receiver (ida_ctx st) ctx (mtpos_ida_ctx st) sbd ac (rx_beams st), map AcarsOut evs).

(** One round of [output_thread_fn]. *)
Definition output_step (o : options) (e : env) (d : D) (tbl : tables) (st : receiver) (it : output_item)
    : receiver * list rx_event :=
  let '(st, ev1) := output_frame o tbl st (it_demod it) in
  let '(st, ev2) :=
    if gsmtap_enabled o then
      let '(ctx, m) := assemble_item (ida_ctx st) it in
      (Receiver ctx (acars_ida_ctx st) (mtpos_ida_ctx st) (rx_sbd st) (rx_acars st) (rx_beams st),
       map GsmtapMessage (option_list m))
    else (st, []) in
  let '(st, ev3) := if acars_enabled (acars_cfg o) then output_acars o e d st it else (st, []) in
  let '(st, ev4) :=
    if web_enabled (acars_cfg o) then
      let '(ctx, m) := assemble_item (mtpos_ida_ctx st) it in
      (Receiver (ida_ctx st) (acars_ida_ctx st) ctx (rx_sbd st) (rx_acars st) (rx_beams st),
       map PositionMessage (option_list m))
    else (st, []) in
  (st, ev1 ++ ev2 ++ ev3 ++ ev4).

(** The thread over the queued items, each with what the clocks said then. *)
Fixpoint output_thread (o : options) (d : D) (tbl : tables) (st : receiver) (items : list (env * output_item))
    : receiver * list rx_event :=
  match items with
  | [] => (st, [])
  | (e, it) :: items =>
      let '(st, ev) := output_step o e d tbl st it in
      let '(st, evs) := output_thread o d tbl st items in
      (st, ev ++ evs)
  end.
End output.

(** * Lemmas *)

(** What an item means to an assembler. *)
Definition item_events (it : output_item) : list event :=
  match it_burst it with Some b => [Burst b] | None => [] end ++ [Flush (df_timestamp (it_demod it))].

Lemma run_app ctx es1 es2 : run ctx (es1 ++ es2) =
  (fst (run (fst (run ctx es1)) es2), snd (run ctx es1) ++ snd (run (fst (run ctx es1)) es2)).
Proof.
  revert ctx. induction es1 as [|e es1 IH]; intros ctx; cbn [app run fst snd]; [by destruct (run ctx es2)|].
  destruct (do_event ctx e) as [ctx1 m]. rewrite IH. destruct (run ctx1 es1) as [ctx2 ms]. cbn [fst snd].
  by rewrite app_assoc.
Qed.

Lemma run_sbd_app st ms1 ms2 : run_sbd st (ms1 ++ ms2) =
  (fst (run_sbd (fst (run_sbd st ms1)) ms2), snd (run_sbd st ms1) ++ snd (run_sbd (fst (run_sbd st ms1)) ms2)).
Proof.
  revert st. induction ms1 as [|m ms1 IH]; intros st; cbn [app run_sbd fst snd]; [by destruct (run_sbd st ms2)|].
  destruct (acars_ida_cb st m) as [st1 p]. rewrite IH. destruct (run_sbd st1 ms1) as [st2 ps]. cbn [fst snd].
  by rewrite app_assoc.
Qed.

Lemma assemble_item_run ctx it :
  run ctx (item_events it) = (fst (assemble_item ctx it), option_list (snd (assemble_item ctx it))).
Proof.
  unfold item_events, assemble_item. destruct (it_burst it) as [b|]; cbn [app run do_event].
  - destruct (ida_reassemble ctx b) as [ctx1 m]. cbn. by rewrite app_nil_r.
  - done.
Qed.

Lemma option_list_run_sbd st (m : option ida_message) :
  run_sbd st (option_list m) =
  match m with
  | Some m => (fst (acars_ida_cb st m), option_list (snd (acars_ida_cb st m)))
  | None => (st, [])
  end.
Proof. destruct m as [m|]; [|done]. cbn. destruct (acars_ida_cb st m) as [st1 p]. cbn. by rewrite app_nil_r. Qed.

(** The ACARS outputs among the events. *)
Definition acars_events (l : list rx_event) : list acars_event :=
  omap (fun e => match e with AcarsOut ev => Some ev | _ => None end) l.

Lemma acars_events_app l1 l2 : acars_events (l1 ++ l2) = acars_events l1 ++ acars_events l2.
Proof. apply omap_app. Qed.
Lemma acars_events_out evs : acars_events (map AcarsOut evs) = evs.
Proof. induction evs as [|ev evs IH]; [done|]. cbn. f_equal. exact IH. Qed.
Lemma acars_events_gsmtap ms : acars_events (map GsmtapMessage ms) = [].
Proof. by induction ms. Qed.
Lemma acars_events_position ms : acars_events (map PositionMessage ms) = [].
Proof. by induction ms. Qed.

(** What a packet brings with it. *)
Definition packet_meta (p : sbd_packet) : meta := Meta (p_ul p) (p_timestamp p) (p_frequency p) (p_magnitude p).

(** The beam a frame tells of: a ring alert near the ground. *)
Definition beam_of (atan2 : f64 -> f64 -> f64) (tbl : tables) (f : demod_frame) : option beam_cache_t :=
  match frame_decode atan2 tbl f with
  | (true, DecodedFrame FRAME_IRA ts _ (BodyIra ira)) =>
      if (0 <=? ira_alt ira) && (ira_alt ira <? 100)
      then Some (Beam (ira_lat ira) (ira_lon ira) (ira_sat_id ira) (ira_beam_id ira) ts) else None
  | _ => None
  end.

Section acars_path.
Context (atan2 : f64 -> f64 -> f64) {D : Type} `{WaypointSource D}.
Context (o : options) (d : D) (tbl : tables) (heard : beam_cache_t -> Prop).

(** A cache with beams heard of only. *)
Definition beams_heard (beams : beam_cache) : Prop := exists es, beams = adds es /\ Forall heard es.

(** The message events of a packet. *)
Definition packet_events (ev : acars_event) (p : sbd_packet) : Prop :=
  exists e beams ac, beams_heard beams /\ ev ∈ snd (sbd_process (acars_cfg o) e d beams ac (p_data p) (packet_meta p)).

Lemma output_frame_acars st f : let r := output_frame atan2 o tbl st f in
  acars_ida_ctx (fst r) = acars_ida_ctx st /\ rx_sbd (fst r) = rx_sbd st /\ acars_events (snd r) = [] /\
  (beams_heard (rx_beams st) -> (forall b, beam_of atan2 tbl f = Some b -> heard b) -> beams_heard (rx_beams (fst r))).
Proof.
  unfold output_frame, beam_of. destruct (_ || _); [|done].
  destruct (frame_decode atan2 tbl f) as [[] [[] ts fq [|ira|ibc]]]; cbn [fst snd]; try done.
  - split_and!; [done..|by destruct (web_enabled _), (position_enabled o)|]. cbn [rx_beams]. intros (es & Hes & Hh) Hf.
    destruct (web_enabled _); cbn [andb]; [|by exists es]. destruct (_ && _); [|by exists es].
    exists (es ++ [Beam (ira_lat ira) (ira_lon ira) (ira_sat_id ira) (ira_beam_id ira) ts]).
    split; [unfold adds; rewrite fold_left_app, Hes; done|]. apply Forall_app. split; [done|]. constructor; [by apply Hf|constructor].
  - split_and!; [done..|by destruct (web_enabled _)|done].
Qed.

Lemma output_acars_step e st it : let r := output_acars o e d st it in
  let rr := run (acars_ida_ctx st) (item_events it) in
  acars_ida_ctx (fst r) = fst rr /\ rx_sbd (fst r) = fst (run_sbd (rx_sbd st) (snd rr)) /\ rx_beams (fst r) = rx_beams st /\
  (beams_heard (rx_beams st) -> forall ev, ev ∈ acars_events (snd r) -> exists p, p ∈ snd (run_sbd (rx_sbd st) (snd rr)) /\ packet_events ev p).
Proof.
  intros r rr. unfold r, rr, output_acars. rewrite assemble_item_run. cbn [fst snd].
  destruct (assemble_item (acars_ida_ctx st) it) as [ctx m]. cbn [fst snd]. rewrite option_list_run_sbd.
  destruct m as [m|]; [destruct (acars_ida_cb (rx_sbd st) m) as [sbd [p|]]|]; cbn [fst snd];
    [|split_and!; [done..|]; by intros _ ev ?%not_elem_of_nil..].
  destruct (sbd_process _ _ _ _ _ _ _) as [ac evs] eqn:Ep. cbn [fst snd acars_ida_ctx rx_sbd]. split_and!; [done..|].
  rewrite acars_events_out. intros Hb ev Hev. exists p. split; [apply list_elem_of_here|].
  exists e, (rx_beams st), (rx_acars st). split; [done|]. unfold packet_meta. by rewrite Ep.
Qed.

Lemma output_step_acars e st it : let r := output_step atan2 o e d tbl st it in
  acars_enabled (acars_cfg o) = true -> beams_heard (rx_beams st) -> (forall b, beam_of atan2 tbl (it_demod it) = Some b -> heard b) ->
  let rr := run (acars_ida_ctx st) (item_events it) in
  acars_ida_ctx (fst r) = fst rr /\ rx_sbd (fst r) = fst (run_sbd (rx_sbd st) (snd rr)) /\ beams_heard (rx_beams (fst r)) /\
  forall ev, ev ∈ acars_events (snd r) -> exists p, p ∈ snd (run_sbd (rx_sbd st) (snd rr)) /\ packet_events ev p.
Proof.
  intros r Ha Hb Hf rr. unfold r, rr, output_step. rewrite Ha.
  destruct (output_frame_acars st (it_demod it)) as (H1 & H2 & H3 & H4). specialize (H4 Hb Hf).
  destruct (output_frame atan2 o tbl st (it_demod it)) as [st1 ev1]. cbn [fst snd] in H1, H2, H3, H4. rewrite <- H1, <- H2.
  match goal with |- context [if gsmtap_enabled o then ?t else ?u] =>
    assert (exists st2 ms, (if gsmtap_enabled o then t else u) = (st2, map GsmtapMessage ms) /\
      acars_ida_ctx st2 = acars_ida_ctx st1 /\ rx_sbd st2 = rx_sbd st1 /\ rx_beams st2 = rx_beams st1) as (st2 & ms & Eg & E1 & E2 & E3)
      by (destruct (gsmtap_enabled o); [destruct (assemble_item _ _) as [ctx m]; by eexists _, _|by exists st1, []])
  end.
  rewrite Eg, <- E1, <- E2. rewrite <- E3 in H4. destruct (output_acars_step e st2 it) as (G1 & G2 & G3 & G4). specialize (G4 H4).
  destruct (output_acars o e d st2 it) as [st3 ev3]. cbn [fst snd] in G1, G2, G3, G4. rewrite <- G3 in H4. rewrite <- G1, <- G2.
  assert (forall st4 ms4, acars_events (snd (st4 : receiver, ev1 ++ map GsmtapMessage ms ++ ev3 ++ map PositionMessage ms4)) =
    acars_events ev3) as He.
  { intros st4 ms4. cbn [snd]. rewrite !acars_events_app, H3, acars_events_gsmtap, acars_events_position. apply app_nil_r. }
  destruct (web_enabled _); [destruct (assemble_item (mtpos_ida_ctx st3) it) as [ctx m]; rewrite He|].
  - by split_and!.
  - specialize (He st3 []). cbn [map] in He. rewrite He. by split_and!.
Qed.

Lemma output_thread_acars items st ev :
  acars_enabled (acars_cfg o) = true -> beams_heard (rx_beams st) ->
  Forall (fun it => forall b, beam_of atan2 tbl (it_demod (snd it)) = Some b -> heard b) items ->
  ev ∈ acars_events (snd (output_thread atan2 o d tbl st items)) ->
  exists p, p ∈ snd (run_sbd (rx_sbd st) (snd (run (acars_ida_ctx st) (flat_map (item_events ∘ snd) items)))) /\
    packet_events ev p.
Proof.
  intros Ha Hb Hf. revert st Hb. induction Hf as [|[e it] items Hi _ IH]; intros st Hb; cbn [output_thread flat_map];
    [by intros ?%not_elem_of_nil|].
  destruct (output_step_acars e st it Ha Hb Hi) as (H1 & H2 & Hb1 & H3).
  destruct (output_step atan2 o e d tbl st it) as [st1 ev1]. cbn [fst snd] in H1, H2, H3, Hb1. specialize (IH st1 Hb1).
  destruct (output_thread atan2 o d tbl st1 items) as [st2 evs]. cbn [snd] in *.
  rewrite acars_events_app, run_app. cbn [snd compose]. rewrite run_sbd_app. cbn [snd]. rewrite <- H1, <- H2.
  intros [Hev|Hev]%elem_of_app.
  - destruct (H3 _ Hev) as (p & Hp & Hpe). exists p. split; [|done]. apply elem_of_app. by left.
  - destruct (IH Hev) as (p & Hp & Hpe). exists p. split; [|done]. apply elem_of_app. by right.
Qed.
End acars_path.

(** ** What reaches the message parser *)

(** What the decoder promises of an item, and timestamps far from wrapping. *)
Definition item_ok (it : output_item) : Prop :=
  0 <= df_timestamp (it_demod it) /\
  match it_burst it with
  | Some b => burst_ok b /\ bytes_ok (ib_payload b) /\ ib_timestamp b + SBD_TIMEOUT_NS < 2 ^ 64
  | None => True
  end.
#[export] Instance item_ok_dec it : Decision (item_ok it).
Proof. unfold item_ok. apply and_dec; [apply _|]. destruct (it_burst it); apply _. Defined.

(** The consumer thread keeps the promise. *)
Lemma consumer_item_ok o tbl stk room f it : 0 <= df_timestamp f -> df_timestamp f + SBD_TIMEOUT_NS < 2 ^ 64 ->
  snd (frame_consumer o tbl stk room f) = Some it -> item_ok it.
Proof.
  intros H0 Ht. unfold frame_consumer. cbn [snd]. destruct (_ && room); [|done]. intros [= <-]. unfold item_ok.
  cbn [it_burst it_demod]. split; [done|]. destruct (_ || _ || _ || _); [|done].
  destruct (ida_decode tbl (use_chase o) stk f) as [b|] eqn:E; [|done].
  assert (ib_timestamp b = df_timestamp f) as Hts
    by (by apply ida_decode_inv in E as (lcw & s & fx & _ & _ & _ & _ & _ & ->)).
  split; [eapply decoded_burst_ok; [exact E|unfold SBD_TIMEOUT_NS in Ht; lia]|].
  split; [|by rewrite Hts]. by apply ida_decode_wf in E as (_ & _ & _ & Hp & _).
Qed.

Definition received (items : list (env * output_item)) : list ida_burst := omap (it_burst ∘ snd) items.

Lemma bursts_app es1 es2 : bursts (es1 ++ es2) = bursts es1 ++ bursts es2.
Proof. apply omap_app. Qed.

Lemma bursts_items items : bursts (flat_map (item_events ∘ snd) items) = received items.
Proof.
  induction items as [|[e it] items IH]; [done|]. cbn [flat_map]. rewrite bursts_app, IH.
  unfold received, item_events. cbn [compose snd omap list_omap]. by destruct (it_burst it).
Qed.

Lemma received_ok items : Forall (item_ok ∘ snd) items ->
  Forall (fun b => burst_ok b /\ bytes_ok (ib_payload b) /\ ib_timestamp b + SBD_TIMEOUT_NS < 2 ^ 64) (received items).
Proof.
  induction 1 as [|[e it] items Hi _ IH]; [constructor|]. unfold received, item_ok in *. cbn [compose snd omap list_omap] in *.
  destruct Hi as [_ Hi]. destruct (it_burst it); [by constructor|done].
Qed.

Lemma assemble_bytes frs : Forall (fun b => bytes_ok (ib_payload b)) frs -> bytes_ok (assemble frs).
Proof.
  intros H. unfold assemble. assert (bytes_ok []) as H0 by constructor. revert H0. generalize (@nil Z).
  induction H as [|b frs Hb _ IH]; intros acc Ha; [done|]. cbn [fold_left]. apply IH. unfold assemble_step.
  case_match; [|done]. apply Forall_app. split; [done|]. by apply Forall_take.
Qed.

(** A message of bytes that fits, with a usable timestamp. *)
Definition message_ok (m : ida_message) : Prop :=
  bytes_ok (m_data m) /\ (List.length (m_data m) <= 256)%nat /\
  0 <= m_timestamp m /\ m_timestamp m + SBD_TIMEOUT_NS < 2 ^ 64.

Lemma sublist_Forall {A} (P : A -> Prop) l k : l `sublist_of` k -> Forall P k -> Forall P l.
Proof. intros Hs. rewrite !Forall_forall. intros Hk x Hx. apply Hk. by eapply elem_of_sublist. Qed.

Lemma chain_message_ok f l frs bs : frs `sublist_of` bs -> chain f l frs ->
  Forall (fun b => burst_ok b /\ bytes_ok (ib_payload b) /\ ib_timestamp b + SBD_TIMEOUT_NS < 2 ^ 64) bs ->
  message_ok (message_of f l frs).
Proof.
  intros Hs Hc Hb. assert (Forall (fun b => burst_ok b /\ bytes_ok (ib_payload b) /\
    ib_timestamp b + SBD_TIMEOUT_NS < 2 ^ 64) frs) as Hf by (by eapply sublist_Forall).
  unfold message_ok, message_of. cbn [m_data m_timestamp].
  split; [apply assemble_bytes; by eapply Forall_impl; [exact Hf|]; intros b (_ & H & _)|].
  split; [apply assemble_bounds; by eapply Forall_impl; [exact Hf|]; intros b (H & _)|].
  assert (l ∈ frs) as Hl by (apply chain_last in Hc; by apply last_Some_elem_of).
  rewrite Forall_forall in Hf. destruct (Hf _ Hl) as ((_ & _ & _ & _ & H & _) & _ & H'). done.
Qed.

Lemma frag_ok m fr : message_ok m -> frag_of m = Some fr ->
  bytes_ok (fr_bytes fr) /\ (List.length (fr_bytes fr) <= 256)%nat /\ ts_ok fr.
Proof.
  intros (Hb & Hl & H0 & Ht). unfold frag_of. destruct (Nat.ltb_spec (List.length (m_data m)) 5) as [|H5]; [done|].
  destruct (negb _); [done|]. destruct (sbd_parse (m_data m) _) as [[[no cnt] data]|] eqn:E; [|done].
  intros [= <-]. cbn [fr_bytes]. apply sbd_parse_part in E as (off & Hd & Ho); [|done].
  split; [rewrite Hd; unfold slice; by apply Forall_take, Forall_drop|]. split; [lia|]. by split.
Qed.

Lemma frags_ok ms : Forall message_ok ms ->
  Forall (fun fr => bytes_ok (fr_bytes fr) /\ (List.length (fr_bytes fr) <= 256)%nat /\ ts_ok fr) (omap frag_of ms).
Proof.
  induction 1 as [|m ms Hm _ IH]; [constructor|]. cbn [omap list_omap]. destruct (frag_of m) as [fr|] eqn:E; [|done].
  constructor; [by eapply frag_ok|done].
Qed.

Lemma concat_bytes (frs : list frag) : Forall (fun fr => bytes_ok (fr_bytes fr)) frs -> bytes_ok (List.concat (map fr_bytes frs)).
Proof. induction 1; [constructor|]. cbn. by apply Forall_app. Qed.

Lemma delivered_ok frs p : delivered frs p ->
  Forall (fun fr => bytes_ok (fr_bytes fr) /\ (List.length (fr_bytes fr) <= 256)%nat /\ ts_ok fr) frs ->
  bytes_ok (p_data p) /\ (List.length (p_data p) <= 1024)%nat /\ 0 <= p_timestamp p < 2 ^ 64.
Proof.
  assert (forall fr, ts_ok fr -> 0 <= fr_ts fr < 2 ^ 64) as Hts by (intros fr; unfold ts_ok, SBD_TIMEOUT_NS; lia).
  intros [(fr & Hin & _ & ->)|(f & l & fs & Hs & Hc & _ & ->)] Hok.
  - rewrite Forall_forall in Hok. destruct (Hok _ Hin) as (Hb & Hl & Ht). cbn [p_data p_timestamp whole_packet].
    split; [done|]. split; [etransitivity; [exact Hl|]; by apply Nat.leb_le|by apply Hts].
  - cbn [p_data p_timestamp chain_packet]. unfold chain_bytes. split; [|split].
    + apply Forall_take, concat_bytes. eapply Forall_impl; [eapply sublist_Forall; [exact Hs|exact Hok]|]. by intros ? (? & _).
    + rewrite length_take. unfold SBD_MAX_DATA. lia.
    + apply Hts. apply sbd_chain_last, last_Some_elem_of in Hc. rewrite Forall_forall in Hok.
      destruct (Hok l) as (_ & _ & Ht); [by eapply elem_of_sublist|done].
Qed.

Lemma process_shown {D} `{WaypointSource D} cfg e (d : D) heard beams st data m ev :
  acars_enabled cfg = true -> bytes_ok data -> (List.length data <= 1024)%nat ->
  (forall b, beam_cache_lookup beams (a_timestamp m) = Some b -> recent_beam heard (a_timestamp m) b) ->
  ev ∈ snd (sbd_process cfg e d beams st data m) ->
  marked_damaged ev \/
  exists hdr body a, data = tx_acars hdr body /\ hdr_ok hdr /\ Forall ascii7 body /\ reads (a_ul m) body a /\ shown d heard m a ev.
Proof.
  intros Ha Hb Hl Hr. unfold sbd_process. destruct (_ && _); [by apply fallback_shown|].
  destruct (0 <? _)%nat; [|by intros ?%not_elem_of_nil]. unfold sbd_output_raw. rewrite Ha. by intros ?%not_elem_of_nil.
Qed.

(** The beams the ring alerts among the items tell of. *)
Definition heard_in (atan2 : f64 -> f64 -> f64) (tbl : tables) (items : list (env * output_item)) (b : beam_cache_t) : Prop :=
  exists it, it ∈ items /\ beam_of atan2 tbl (it_demod (snd it)) = Some b.

Lemma heard_recent atan2 tbl items beams ts b : Forall (item_ok ∘ snd) items -> beams_heard (heard_in atan2 tbl items) beams ->
  0 <= ts < 2 ^ 64 -> beam_cache_lookup beams ts = Some b -> recent_beam (heard_in atan2 tbl items) ts b.
Proof.
  intros Hi (es & -> & Hh) Hts Hb. apply lookup_added in Hb as (Hin & Hle & Hw).
  rewrite Forall_forall in Hh. pose proof (Hh b Hin) as Hbh. split; [done|]. destruct Hbh as (it & Hit & E).
  assert (0 <= bc_timestamp_ns b).
  { rewrite Forall_forall in Hi. destruct (Hi it Hit) as [H0 _]. revert E. unfold beam_of.
    pose proof (frame_decode_timestamp atan2 tbl (it_demod (snd it))) as Ht.
    destruct (frame_decode _ _ _) as [[] [[] ts' fq [|ira|ibc]]]; try done. destruct (_ && _); [|done]. intros [= <-]. cbn in *. lia. }
  rewrite u64_small in Hw by lia. lia.
Qed.

(** The message is that of a complete chain of received bursts. *)
Definition chain_of (items : list (env * output_item)) (m : ida_message) : Prop :=
  exists f l frs, frs `sublist_of` received items /\ chain f l frs /\ ib_cont l = 0 /\ message_for f l frs m.

Lemma assembled_chain items m : Forall (item_ok ∘ snd) items -> m ∈ snd (run ctx_init (flat_map (item_events ∘ snd) items)) ->
  chain_of items m /\ message_ok m.
Proof.
  intros Hi Hm. pose proof (received_ok items Hi) as Hrec.
  destruct (run_inv [] ctx_init (flat_map (item_events ∘ snd) items)) as [_ Hms]; [|apply ctx_init_inv|].
  { rewrite bursts_items. eapply Forall_impl; [exact Hrec|]. by intros b (Hb & _). }
  rewrite bursts_items in Hms. destruct (Hms m Hm) as (f & l & frs & Hs & Hc & Hl & ->). split; [|by eapply chain_message_ok].
  exists f, l, frs. split; [done|]. split; [done|]. split; [done|]. apply message_of_for.
  eapply Forall_impl; [eapply sublist_Forall; [exact Hs|exact Hrec]|]. by intros b (Hb & _).
Qed.

(** An output is right when it shows, of a packet put together from complete
    chains of received bursts, the ACARS message it is; or it is a line that says
    the message was damaged. *)
Definition acars_right {D} `{WaypointSource D} (atan2 : f64 -> f64 -> f64) (d : D) (tbl : tables)
    (items : list (env * output_item)) (carried : ida_message -> Prop) (ev : acars_event) : Prop :=
  exists p ms, delivered (omap frag_of ms) p /\ Forall carried ms /\
    (marked_damaged ev \/
     exists hdr body a, p_data p = tx_acars hdr body /\ Forall ascii7 body /\ reads (p_ul p) body a /\
       shown d (heard_in atan2 tbl items) (packet_meta p) a ev).

Lemma acars_from_chains (atan2 : f64 -> f64 -> f64) {D} `{WaypointSource D} (o : options) (d : D) (tbl : tables)
    (items : list (env * output_item)) (ev : acars_event) :
  acars_enabled (acars_cfg o) = true -> Forall (item_ok ∘ snd) items ->
  ev ∈ acars_events (snd (output_thread atan2 o d tbl receiver_init items)) ->
  acars_right atan2 d tbl items (chain_of items) ev.
Proof.
  intros Ha Hit Hev.
  destruct (output_thread_acars atan2 o d tbl (heard_in atan2 tbl items) items receiver_init ev Ha) as (p & Hp & e & beams & ac & Hbe & Hpe).
  { exists []. by split. }
  { apply Forall_forall. intros it Hin b Hb. by exists it. }
  { exact Hev. }
  cbn [rx_sbd acars_ida_ctx receiver_init] in Hp. set (ms := snd (run ctx_init _)) in Hp.
  assert (Forall (fun m => chain_of items m /\ message_ok m) ms) as Hms by (apply Forall_forall; intros m Hm; by apply assembled_chain).
  pose proof (frags_ok ms ltac:(eapply Forall_impl; [exact Hms|]; by intros m [_ ?])) as Hfr.
  destruct (run_sbd_inv [] sbd_init ms) as [_ Hdel]; [|apply sbd_init_inv|].
  { by eapply Forall_impl; [exact Hfr|]; intros fr (_ & _ & Ht). }
  apply Hdel in Hp. cbn [app] in Hp. destruct (delivered_ok _ _ Hp Hfr) as (Hb & Hl & Hts).
  exists p, ms. split; [done|]. split; [by eapply Forall_impl; [exact Hms|]; intros m [? _]|].
  destruct (process_shown (acars_cfg o) e d (heard_in atan2 tbl items) beams ac (p_data p) (packet_meta p) ev) as [?|(hdr & body & a & ? & _ & ? & ? & ?)];
    [done|done|done|intros b; by apply heard_recent|done|by left|].
  right. by exists hdr, body, a.
Qed.

(** ** Concrete input for the witness *)

(** A downlink report that names a fix, as one SBD packet in four bursts. *)
Definition demo_packet : list Z := tx_first [9; 8; 7; 6; 5] 1 1 (tx_acars None demo_fix_body).
Definition demo_part (ctr cont : Z) (part : list Z) (ts : Z) : ida_burst := {|
  ib_timestamp := ts; ib_frequency := f64_of_Z 1626000000; ib_direction := DIR_DOWNLINK;
  ib_magnitude := f32_of_Z 20; ib_noise := f32_of_Z (-80); ib_level := f32_of_Z 1;
  ib_confidence := 95; ib_n_symbols := 191; ib_da_ctr := ctr; ib_da_len := Z.of_nat (List.length part); ib_cont := cont;
  ib_payload := part ++ replicate (32 - List.length part) 0;
  ib_payload_len := Z.of_nat (List.length part); ib_crc_ok := true; ib_stored_crc := 0; ib_computed_crc := 0; ib_fixederrs := 0;
  ib_bch_stream := replicate 256 0; ib_bch_len := 200; ib_lcw := LcwFormat.Lcw 2 1 0 0 0 0; ib_lcw_header := String.EmptyString |}.
Definition demo_item (ts : Z) (b : ida_burst) : env * output_item :=
  (demo_env, Item (DemodFrame 1 ts (f64_of_Z 1626000000) DIR_DOWNLINK (f32_of_Z 20) (f32_of_Z (-80)) 95 (f32_of_Z 1) 191 179 [] None) (Some b)).
Definition demo_items : list (env * output_item) :=
  [demo_item 2000000000 (demo_part 0 1 (slice demo_packet 0 20) 2000000000);
   demo_item 2090000000 (demo_part 1 1 (slice demo_packet 20 40) 2090000000);
   demo_item 2180000000 (demo_part 2 0 (slice demo_packet 40 60) 2180000000)].
Definition demo_options : options := Options false false false 0 demo_cfg.
Definition demo_position : acars_event :=
  BasePosition [78; 49; 50; 51; 52; 53] (f64_of_Z 51) (f64_of_Z (-15)) 2180000000.

(** * Properties *)


