(* ===== verification/BurstDetect.v ===== *)
(** The burst detector, [src/burst_detect.c]: noise floor, peak search, tracking
    of active bursts with hysteresis, squelch, and the sample ring from which a
    finished burst is cut out.

    One frame is the list of squared magnitudes of an FFT, DC in the middle;
    window, FFT and shift are the parameter [frame_mag] (FFTW and vector
    kernels), samples enter after their conversion to [float complex], [log10f]
    is libm's; [qsort] is modelled as a stable sort.  Bins are natural numbers, sample
    positions [uint64_t].  The float mask of 0 and 1 is a list of booleans. *)
From S2P Require Import Prelude CFloat.
From stdpp Require Import sorting.
#[local] Open Scope Z_scope.

(** * Data *)

Record burst_config := BurstConfig {
  fft_size : nat;
  burst_pre_len : Z;
  burst_post_len : Z;
  burst_width : nat;  (* in bins *)
  max_bursts : nat;
  max_burst_len : Z;
  threshold : f32;
  history_size : nat;
  sample_rate : Z;
}.

Record active_burst := ActiveBurst {
  ab_id : Z;
  ab_start : Z;
  ab_stop : Z;
  ab_last_active : Z;
  ab_center_bin : nat;
  ab_magnitude : f32;
  ab_noise : f32;
}.

Record peak := Peak { pk_bin : nat; pk_relative_magnitude : f32 }.

Record detector := Detector {
  baseline_history : list (list f32);
  baseline_sum : list f32;
  history_index : nat;
  history_primed : bool;
  magnitude_shifted : list f32;
  relative_magnitude : list f32;
  burst_mask : list bool;
  bursts : list active_burst;
  gone_bursts : list active_burst;
  burst_id : Z;
  index : Z;
  squelch_count : Z;
  peak_signal_db : f32;
}.

(** * Noise floor *)

(** [1.72f], the noise bandwidth of the window. *)
Definition ENBW : f32 := S754_finite false 14428406 (-23).

(** [generic_relative_mag] and [generic_baseline_update] of [src/simd_generic.c]. *)
Definition relative_mag (mag baseline : list f32) : list f32 :=
  zip_with (fun m b => if f32_ltb f32_zero b then f32_div m b else f32_zero) mag baseline.
Definition baseline_update (sum old_hist new_mag : list f32) : list f32 :=
  zip_with (fun s m => f32_add s m) (zip_with (fun s o => f32_sub s o) sum old_hist) new_mag.

Section detector.
Context (c : burst_config) (log10f : f32 -> f32).

Definition half_bw : nat := (burst_width c / 2)%nat.

Definition update_filters_pre (d : detector) : option detector :=
  if negb (history_primed d) then None
  else Some (Detector (baseline_history d) (baseline_sum d) (history_index d) (history_primed d) (magnitude_shifted d)
    (relative_mag (magnitude_shifted d) (baseline_sum d))
    (burst_mask d) (bursts d) (gone_bursts d) (burst_id d) (index d) (squelch_count d) (peak_signal_db d)).

Definition update_filters_post (d : detector) (force : bool) : detector :=
  if (length (bursts d) =? 0)%nat || force then
    let hist := baseline_history d !!! history_index d in
    let next := (history_index d + 1)%nat in
    let wrap := (next =? history_size c)%nat in
    Detector (<[history_index d := magnitude_shifted d]> (baseline_history d))
      (baseline_update (baseline_sum d) hist (magnitude_shifted d))
      (if wrap then 0%nat else next) (history_primed d || wrap)
      (magnitude_shifted d) (relative_magnitude d) (burst_mask d) (bursts d) (gone_bursts d) (burst_id d) (index d)
      (squelch_count d) (peak_signal_db d)
  else d.

(** * Tracking *)

Definition above (d : detector) (bin : nat) : bool := f32_ltb (threshold c) (relative_magnitude d !!! bin).

Definition still_active (d : detector) (b : active_burst) : bool :=
  let cb := ab_center_bin b in
  ((0 <? cb)%nat && above d (cb - 1)) || above d cb || ((cb <? fft_size c - 1)%nat && above d (cb + 1)).

Definition with_bursts (d : detector) (bs gone : list active_burst) : detector :=
  Detector (baseline_history d) (baseline_sum d) (history_index d) (history_primed d) (magnitude_shifted d)
    (relative_magnitude d) (burst_mask d) bs gone (burst_id d) (index d) (squelch_count d) (peak_signal_db d).

Definition update_bursts (d : detector) : detector :=
  with_bursts d
    (map (fun b => if still_active d b then
                     ActiveBurst (ab_id b) (ab_start b) (ab_stop b) (index d) (ab_center_bin b) (ab_magnitude b) (ab_noise b)
                   else b) (bursts d)) (gone_bursts d).

(** [mask_burst]: bins [clear_start] to [clear_stop] are cleared. *)
Definition mask_burst (mask : list bool) (bin : nat) : list bool :=
  let clear_start := (bin - half_bw)%nat in
  let clear_stop := Nat.min (bin + half_bw) (fft_size c - 1) in
  imap (fun i m => m && negb ((clear_start <=? i)%nat && (i <=? clear_stop)%nat)) mask.

Definition fresh_mask (bs : list active_burst) : list bool :=
  fold_left (fun mask b => mask_burst mask (ab_center_bin b)) bs (replicate (fft_size c) true).

Definition with_mask (d : detector) (mask : list bool) : detector :=
  Detector (baseline_history d) (baseline_sum d) (history_index d) (history_primed d) (magnitude_shifted d)
    (relative_magnitude d) mask (bursts d) (gone_bursts d) (burst_id d) (index d) (squelch_count d) (peak_signal_db d).

Definition update_burst_mask (d : detector) : detector := with_mask d (fresh_mask (bursts d)).

(** The two reasons to end a burst. *)
Definition too_long (b : active_burst) : bool :=
  (0 <? max_burst_len c) && (max_burst_len c <? u64 (ab_last_active b - ab_start b)).
Definition is_gone (d : detector) (b : active_burst) : bool :=
  (u64 (ab_last_active b + burst_post_len c) <=? index d) || too_long b.

Definition set_stop (stop : Z) (b : active_burst) : active_burst :=
  ActiveBurst (ab_id b) (ab_start b) stop (ab_last_active b) (ab_center_bin b) (ab_magnitude b) (ab_noise b).

Definition delete_gone_bursts (d : detector) : detector :=
  let update_noise := existsb too_long (bursts d) in
  let d' := with_bursts d (List.filter (fun b => negb (is_gone d b)) (bursts d))
              (gone_bursts d ++ map (set_stop (index d)) (List.filter (is_gone d) (bursts d))) in
  if update_noise then update_filters_post d' true else d'.

Definition mask_value (m : bool) : f32 := if m then f32_one else f32_zero.

Definition remove_peaks_around_bursts (d : detector) : detector :=
  Detector (baseline_history d) (baseline_sum d) (history_index d) (history_primed d) (magnitude_shifted d)
    (zip_with (fun x m => f32_mul x (mask_value m)) (relative_magnitude d) (burst_mask d))
    (burst_mask d) (bursts d) (gone_bursts d) (burst_id d) (index d) (squelch_count d) (peak_signal_db d).

(** Bins around DC are skipped. *)
Definition dc_notch (bin : nat) : bool :=
  let dc_bin := (fft_size c / 2)%nat in ((dc_bin - 3 <=? bin)%nat && (bin <=? dc_bin + 3)%nat).

(** [peak_cmp_desc(a, b) <= 0]. *)
Definition peak_le (a b : peak) : Prop := f32_ltb (pk_relative_magnitude a) (pk_relative_magnitude b) = false.
#[local] Instance peak_le_dec a b : Decision (peak_le a b).
Proof. unfold peak_le. apply _. Defined.

Definition extract_peaks (d : detector) : list peak :=
  merge_sort peak_le
    (map (fun bin => Peak bin (relative_magnitude d !!! bin))
       (List.filter (fun bin => negb (dc_notch bin) && above d bin) (seq half_bw (fft_size c - half_bw - half_bw)))).

Definition new_burst (d : detector) (id : Z) (p : peak) : active_burst :=
  let start := u64 (index d - burst_pre_len c) in
  let hist := f32_of_Z (Z.of_nat (history_size c)) in
  let fft := f32_of_Z (Z.of_nat (fft_size c)) in
  let mag := f32_mul (f32_of_Z 10) (log10f (f32_mul (f32_mul (pk_relative_magnitude p) hist) ENBW)) in
  let noise := f32_mul (f32_of_Z 10) (log10f
    (f32_div (f32_div (f32_div (f32_div (baseline_sum d !!! pk_bin p) hist) (f32_mul fft fft)) ENBW)
             (f32_div (f32_of_Z (sample_rate c)) fft))) in
  ActiveBurst id start 0 start (pk_bin p) mag noise.

(** The loop over the peaks. *)
Definition add_peak (d : detector) (p : peak) : detector :=
  if negb (burst_mask d !!! pk_bin p) then d
  else
    let b := new_burst d (burst_id d) p in
    Detector (baseline_history d) (baseline_sum d) (history_index d) (history_primed d) (magnitude_shifted d)
      (relative_magnitude d) (mask_burst (burst_mask d) (pk_bin p)) (bursts d ++ [b]) (gone_bursts d)
      (u64 (burst_id d + 10)) (index d) (squelch_count d)
      (if f32_ltb (peak_signal_db d) (ab_magnitude b) then ab_magnitude b else peak_signal_db d).

(** Squelch: all bursts but the ones just created are ended, the rest dropped,
    and repeated squelches reset the noise floor. *)
Definition squelch (d : detector) : detector :=
  let old := List.filter (fun b => negb (ab_start b =? u64 (index d - burst_pre_len c))) (bursts d) in
  let count := squelch_count d + 3 in
  let reset := 10 <=? count in
  Detector
    (if reset then replicate (history_size c) (replicate (fft_size c) f32_zero) else baseline_history d)
    (if reset then replicate (fft_size c) f32_zero else baseline_sum d)
    (if reset then 0%nat else history_index d) (if reset then false else history_primed d)
    (magnitude_shifted d) (relative_magnitude d) (fresh_mask []) []
    (gone_bursts d ++ map (set_stop (index d)) old) (burst_id d) (index d)
    (if reset then 0 else count) (peak_signal_db d).

Definition calm (d : detector) : detector :=
  Detector (baseline_history d) (baseline_sum d) (history_index d) (history_primed d) (magnitude_shifted d)
    (relative_magnitude d) (burst_mask d) (bursts d) (gone_bursts d) (burst_id d) (index d)
    (if 0 <? squelch_count d then squelch_count d - 1 else squelch_count d) (peak_signal_db d).

Definition create_new_bursts (d : detector) (peaks : list peak) : detector :=
  let d := fold_left add_peak peaks d in
  if (0 <? max_bursts c)%nat && (max_bursts c <? length (bursts d))%nat then squelch d else calm d.

Definition with_magnitude (d : detector) (mag : list f32) : detector :=
  Detector (baseline_history d) (baseline_sum d) (history_index d) (history_primed d) mag
    (relative_magnitude d) (burst_mask d) (bursts d) (gone_bursts d) (burst_id d) (index d) (squelch_count d) (peak_signal_db d).

(** [process_magnitude_frame], also the second half of [process_fft_frame]. *)
Definition process_magnitude_frame (d : detector) (magnitude : list f32) : detector :=
  let d := with_magnitude d magnitude in
  let d :=
    match update_filters_pre d with
    | None => d
    | Some d =>
        let d := remove_peaks_around_bursts (update_bursts d) in
        let peaks := extract_peaks d in
        create_new_bursts (update_burst_mask (delete_gone_bursts d)) peaks
    end in
  update_filters_post d false.

Definition advance (d : detector) : detector :=
  Detector (baseline_history d) (baseline_sum d) (history_index d) (history_primed d) (magnitude_shifted d)
    (relative_magnitude d) (burst_mask d) (bursts d) (gone_bursts d) (burst_id d) (u64 (index d + Z.of_nat (fft_size c)))
    (squelch_count d) (peak_signal_db d).

(** A sequence of frames. *)
Fixpoint run_frames (d : detector) (frames : list (list f32)) : detector :=
  match frames with
  | [] => d
  | mag :: frames => run_frames (advance (process_magnitude_frame d mag)) frames
  end.

Definition detector_init : detector :=
  Detector (replicate (history_size c) (replicate (fft_size c) f32_zero)) (replicate (fft_size c) f32_zero) 0 false
    (replicate (fft_size c) f32_zero) (replicate (fft_size c) f32_zero) (replicate (fft_size c) true) [] [] 0 0 0 f32_zero.
End detector.

(** * Configuration *)

Record burst_config_t := BurstConfigT {
  cf_sample_rate : Z;
  cf_fft_size : Z;
  cf_burst_pre_len : Z;
  cf_burst_post_len : Z;
  cf_burst_width : Z;  (* Hz *)
  cf_max_bursts : Z;
  cf_max_burst_len : Z;
  cf_threshold : f32;  (* dB *)
  cf_history_size : Z;
}.

Definition IR_DEFAULT_BURST_WIDTH : Z := 40000.
Definition IR_DEFAULT_HISTORY_SIZE : Z := 512.
Definition IR_DEFAULT_THRESHOLD : f32 := f32_of_Z 16.
(** [16e-3], [0.09] and [0.8f]. *)
Definition c_16e_3 : f64 := S754_finite false 4611686018427388 (-58).
Definition c_0_09 : f64 := S754_finite false 6485183463413514 (-56).
Definition c_0_8f : f32 := S754_finite false 13421773 (-24).

(** The settings of [burst_detector_create]; [log2_round] is
    [(int)round(log2(rate / 1000.0))] and [powf] is libm's. *)
Definition burst_detector_create (log2_round : Z -> Z) (powf : f32 -> f32 -> f32) (k : burst_config_t) : burst_config :=
  let rate := cf_sample_rate k in
  let auto z default := if 0 <? z then z else default in
  let fft := auto (cf_fft_size k) (Z.shiftl 1 (log2_round rate)) in
  let burst_width_hz := auto (cf_burst_width k) IR_DEFAULT_BURST_WIDTH in
  let history := auto (cf_history_size k) IR_DEFAULT_HISTORY_SIZE in
  let threshold_db := if f32_ltb f32_zero (cf_threshold k) then cf_threshold k else IR_DEFAULT_THRESHOLD in
  BurstConfig (Z.to_nat fft)
    (auto (cf_burst_pre_len k) (2 * fft))
    (auto (cf_burst_post_len k) (f64_trunc (f64_mul (f64_of_Z rate) c_16e_3)))
    (Z.to_nat (Z.quot burst_width_hz (Z.quot rate fft)))
    (Z.to_nat (auto (cf_max_bursts k) (f64_trunc (f32_mul (f32_div (f32_of_Z rate) (f32_of_Z burst_width_hz)) c_0_8f))))
    (auto (cf_max_burst_len k) (f64_trunc (f64_mul (f64_of_Z rate) c_0_09)))
    (f32_div (f32_div (powf (f32_of_Z 10) (f32_div threshold_db (f32_of_Z 10))) (f32_of_Z history)) ENBW)
    (Z.to_nat history) rate.

(** * The invariant *)

Section invariant.
Context (c : burst_config) (log10f : f32 -> f32) (lo : Z).
Abbreviation fft := (Z.of_nat (fft_size c)).

(** Lengths are positive, and the detector is primed before a burst can start
    at a negative position. *)
Definition config_ok : Prop :=
  (0 < fft_size c)%nat /\ (0 < history_size c)%nat /\ 0 < burst_pre_len c <= Z.of_nat (history_size c) * fft /\
  0 <= burst_post_len c /\ 0 < max_burst_len c.

(** Where bursts may be. *)
Definition in_band (bin : nat) : Prop :=
  (half_bw c <= bin)%nat /\ (bin + half_bw c < fft_size c)%nat /\ dc_notch c bin = false.

(** Two bursts do not share a band. *)
Definition apart (a b : active_burst) : Prop :=
  (ab_center_bin a + half_bw c < ab_center_bin b \/ ab_center_bin b + half_bw c < ab_center_bin a)%nat.

(** A burst alive after the frame at [i]: just created, or heard within the
    hysteresis and not too long. *)
Definition alive (i : Z) (b : active_burst) : Prop :=
  in_band (ab_center_bin b) /\ 0 <= ab_start b <= ab_last_active b /\ ab_last_active b <= i /\
  ((ab_start b = i - burst_pre_len c /\ ab_last_active b = ab_start b) \/
   (i < ab_last_active b + burst_post_len c /\ ab_last_active b - ab_start b <= max_burst_len c)).

(** How long an ended burst can be. *)
Definition longest : Z := Z.max (max_burst_len c + burst_post_len c) (burst_pre_len c) + fft.

(** A burst ended since position [lo], up to the frame at [i]. *)
Definition ended (i : Z) (b : active_burst) : Prop :=
  in_band (ab_center_bin b) /\ 0 <= ab_start b <= ab_stop b /\ ab_stop b - ab_start b <= longest /\ lo <= ab_stop b <= i.

(** What holds between frames; [i] is the index of the frame before. *)
Definition det_inv (i : Z) (d : detector) : Prop :=
  index d = i + fft /\
  burst_mask d = fresh_mask c (bursts d) /\
  Forall (alive i) (bursts d) /\
  StronglySorted apart (bursts d) /\
  ((0 < max_bursts c)%nat -> (length (bursts d) <= max_bursts c)%nat) /\
  Forall (ended i) (gone_bursts d) /\
  (history_index d < history_size c)%nat /\
  Z.of_nat (if history_primed d then history_size c else history_index d) * fft <= index d /\
  (history_primed d = false -> bursts d = []).

(** ** Masks *)

Lemma mask_burst_lookup mask bin i : (i < length mask)%nat ->
  mask_burst c mask bin !!! i = mask !!! i && negb ((bin - half_bw c <=? i)%nat && (i <=? Nat.min (bin + half_bw c) (fft_size c - 1))%nat).
Proof.
  intros Hi. unfold mask_burst. destruct (lookup_lt_is_Some_2 mask i Hi) as [m Hm].
  apply list_lookup_total_correct. rewrite list_lookup_imap, Hm. by rewrite (list_lookup_total_correct _ _ _ Hm).
Qed.

Lemma length_mask_burst mask bin : length (mask_burst c mask bin) = length mask.
Proof. apply length_imap. Qed.

Lemma fresh_mask_snoc bs b : fresh_mask c (bs ++ [b]) = mask_burst c (fresh_mask c bs) (ab_center_bin b).
Proof. unfold fresh_mask. by rewrite fold_left_app. Qed.

Lemma length_fresh_mask bs : length (fresh_mask c bs) = fft_size c.
Proof.
  induction bs as [|b bs IH] using rev_ind; [apply length_replicate|]. by rewrite fresh_mask_snoc, length_mask_burst.
Qed.

(** An unmasked bin is apart from every burst. *)
Lemma fresh_mask_apart bs bin : (bin < fft_size c)%nat -> fresh_mask c bs !!! bin = true ->
  Forall (fun b => ab_center_bin b + half_bw c < bin \/ bin + half_bw c < ab_center_bin b)%nat bs.
Proof.
  intros Hb. induction bs as [|b bs IH] using rev_ind; [constructor|].
  rewrite fresh_mask_snoc, mask_burst_lookup by (by rewrite length_fresh_mask).
  intros [Hm Hn]%andb_true_iff. apply Forall_app. split; [by apply IH|]. constructor; [|done].
  apply negb_true_iff, andb_false_iff in Hn as [Hn%Nat.leb_gt|Hn%Nat.leb_gt]; lia.
Qed.

(** ** Peaks *)

Lemma peaks_in_band d p : p ∈ extract_peaks c d -> in_band (pk_bin p).
Proof.
  unfold extract_peaks. rewrite merge_sort_Permutation. intros Hp%list_elem_of_In%in_map_iff.
  destruct Hp as (bin & <- & [Hs Hf]%filter_In). apply in_seq in Hs. apply andb_true_iff in Hf as [Hn _].
  cbn [pk_bin]. apply negb_true_iff in Hn. repeat split; [lia|lia|done].
Qed.

(** ** Tracking *)

(** A burst during a frame, before the decision to end it. *)
Definition tracked (i : Z) (b : active_burst) : Prop :=
  in_band (ab_center_bin b) /\ 0 <= ab_start b <= ab_last_active b /\ ab_last_active b <= i /\ i - ab_start b <= longest.

Lemma update_tracked d i : index d = i + fft -> Forall (alive i) (bursts d) ->
  Forall (tracked (index d)) (bursts (update_bursts c d)).
Proof.
  intros Hi Ha. cbn [update_bursts with_bursts bursts]. apply Forall_map. eapply Forall_impl; [exact Ha|].
  intros b (Hb & Hs & Hl & Hc). unfold compose, tracked, longest.
  destruct (still_active c d b); cbn; (split; [done|split; [lia|split; [lia|lia]]]).
Qed.

Lemma update_apart d : StronglySorted apart (bursts d) -> StronglySorted apart (bursts (update_bursts c d)).
Proof.
  cbn [update_bursts with_bursts bursts]. induction 1 as [|b bs Hs IH Hb]; cbn; [constructor|].
  constructor; [done|]. apply Forall_map. eapply Forall_impl; [exact Hb|]. intros b' Hbb'.
  unfold compose, apart in *. by destruct (still_active c d b), (still_active c d b').
Qed.

Lemma kept_alive d b : tracked (index d) b -> 0 <= burst_post_len c -> 0 < max_burst_len c ->
  index d + burst_post_len c < 2 ^ 64 -> is_gone c d b = false -> alive (index d) b.
Proof.
  intros (Hb & Hs & Hl & Hg) Hp Hm Hw. unfold is_gone, too_long. rewrite (proj2 (Z.ltb_lt _ _) Hm).
  rewrite !u64_small by lia. cbn [andb]. intros [H1%Z.leb_gt H2%Z.ltb_ge]%orb_false_iff.
  repeat split; try done; try lia; try apply Hb.
Qed.

Lemma ended_mono i j bs : i <= j -> Forall (ended i) bs -> Forall (ended j) bs.
Proof. intros Hij H. eapply Forall_impl; [exact H|]. intros b (Hb & Hs & Hg & Hl). split; [done|]. lia. Qed.

Lemma tracked_ended i b : lo <= i -> tracked i b -> ended i (set_stop i b).
Proof. intros Hlo (Hb & Hs & Hl & Hg). unfold ended. cbn. split; [done|lia]. Qed.

Lemma alive_ended i b : lo <= i -> 0 <= burst_pre_len c -> 0 <= burst_post_len c -> 0 < max_burst_len c ->
  alive i b -> ended i (set_stop i b).
Proof. intros Hlo H1 H2 H3 (Hb & Hs & Hl & Hc). unfold ended, longest. cbn. split; [done|lia]. Qed.

(** What [update_filters_post] leaves alone. *)
Lemma post_keeps d force : let d' := update_filters_post c d force in
  bursts d' = bursts d /\ gone_bursts d' = gone_bursts d /\ burst_mask d' = burst_mask d /\ index d' = index d.
Proof. unfold update_filters_post. by destruct (_ || force). Qed.

(** The history: its index in range, and the priming bound kept one frame on. *)
Definition history_ok (i : Z) (d : detector) : Prop :=
  (history_index d < history_size c)%nat /\
  Z.of_nat (if history_primed d then history_size c else history_index d) * fft <= i.

Lemma post_history d force i : history_ok i d -> history_ok (i + fft) (update_filters_post c d force).
Proof.
  intros [H1 H2]. unfold update_filters_post, history_ok. destruct (_ || force); [|split; [done|lia]].
  cbn [history_index history_primed]. destruct (Nat.eqb_spec (history_index d + 1) (history_size c)) as [E|E].
  - rewrite orb_true_r. destruct (history_primed d); (split; [lia|nia]).
  - rewrite orb_false_r. destruct (history_primed d); (split; [lia|nia]).
Qed.

Lemma post_history_primed d force i : history_primed d = true -> history_ok i d ->
  history_ok i (update_filters_post c d force) /\ history_primed (update_filters_post c d force) = true.
Proof.
  intros Hp [H1 H2]. unfold update_filters_post, history_ok. destruct (_ || force); [|by rewrite Hp in *].
  cbn [history_index history_primed]. rewrite Hp in *. cbn [orb]. split; [split; [|done]|done].
  destruct (Nat.eqb_spec (history_index d + 1) (history_size c)); lia.
Qed.

(** Deleting bursts. *)
Lemma delete_spec d : lo <= index d -> Forall (tracked (index d)) (bursts d) -> 0 <= burst_post_len c -> 0 < max_burst_len c ->
  index d + burst_post_len c < 2 ^ 64 -> StronglySorted apart (bursts d) -> Forall (ended (index d)) (gone_bursts d) ->
  let d' := delete_gone_bursts c d in
  index d' = index d /\ Forall (alive (index d)) (bursts d') /\ StronglySorted apart (bursts d') /\ Forall (ended (index d)) (gone_bursts d').
Proof.
  intros Hlo Ht Hp Hm Hw Hs Hg d'.
  set (d1 := with_bursts d (List.filter (fun b => negb (is_gone c d b)) (bursts d))
              (gone_bursts d ++ map (set_stop (index d)) (List.filter (is_gone c d) (bursts d)))).
  assert (bursts d' = bursts d1 /\ gone_bursts d' = gone_bursts d1 /\ index d' = index d1) as (-> & -> & ->).
  { unfold d', delete_gone_bursts. fold d1. destruct (existsb _ _); [|done].
    destruct (post_keeps d1 true) as (? & ? & _ & ?). done. }
  subst d1. cbn [with_bursts bursts gone_bursts index]. split; [done|]. split; [|split].
  - apply Forall_forall. intros b [Hin Hb]%list_elem_of_In%filter_In. apply negb_true_iff in Hb.
    rewrite Forall_forall in Ht. apply kept_alive; try done. by apply Ht, list_elem_of_In.
  - by apply sorted_filter.
  - apply Forall_app. split; [done|]. apply Forall_map, Forall_forall. intros b [Hin Hb]%list_elem_of_In%filter_In.
    rewrite Forall_forall in Ht. apply tracked_ended; [done|]. by apply Ht, list_elem_of_In.
Qed.

Lemma delete_history d i : history_primed d = true -> history_ok i d -> history_ok i (delete_gone_bursts c d).
Proof.
  intros Hp Hh. unfold delete_gone_bursts. destruct (existsb _ _); [|done].
  apply (post_history_primed (with_bursts d _ _)); done.
Qed.
(** Creating bursts. *)
Definition creating (i : Z) (d : detector) : Prop :=
  index d = i /\ burst_mask d = fresh_mask c (bursts d) /\ Forall (alive i) (bursts d) /\
  StronglySorted apart (bursts d) /\ Forall (ended i) (gone_bursts d) /\ history_ok i d /\ history_primed d = true.

Lemma add_peak_creating i d p : 0 <= burst_pre_len c <= i -> i < 2 ^ 64 -> in_band (pk_bin p) -> creating i d ->
  creating i (add_peak c log10f d p).
Proof.
  intros Hp Hi Hb (E & Hm & Ha & Hs & Hg & Hh & Hpr). unfold add_peak. rewrite Hm.
  destruct (fresh_mask c (bursts d) !!! pk_bin p) eqn:El; [|done]. cbn [negb].
  apply fresh_mask_apart in El; [|destruct Hb as (_ & Hb & _); lia].
  unfold creating. cbn [index burst_mask bursts gone_bursts]. split; [done|].
  split; [by rewrite fresh_mask_snoc|]. split; [|split; [|done]].
  - apply Forall_app. split; [done|]. constructor; [|done]. unfold alive, new_burst. cbn. rewrite E, u64_small by lia.
    split; [done|]. split; [lia|]. split; [lia|]. left. lia.
  - by apply sorted_snoc.
Qed.

Lemma add_peaks_creating i peaks d : 0 <= burst_pre_len c <= i -> i < 2 ^ 64 -> Forall (fun p => in_band (pk_bin p)) peaks ->
  creating i d -> creating i (fold_left (add_peak c log10f) peaks d).
Proof.
  intros Hp Hi Hb. revert d. induction Hb as [|p peaks Hbp _ IH]; intros d Hd; [done|]. cbn [fold_left].
  by apply IH, add_peak_creating.
Qed.

(** Between creation and the update of the noise floor. *)
Definition framed (i : Z) (d : detector) : Prop :=
  index d = i /\ burst_mask d = fresh_mask c (bursts d) /\ Forall (alive i) (bursts d) /\
  StronglySorted apart (bursts d) /\ ((0 < max_bursts c)%nat -> (length (bursts d) <= max_bursts c)%nat) /\
  Forall (ended i) (gone_bursts d) /\ history_ok i d /\ (history_primed d = false -> bursts d = []).

Lemma squelch_framed i d : config_ok -> lo <= i -> 0 <= i -> creating i d -> framed i (squelch c d).
Proof.
  intros (Hf & Hhs & Hpre & Hpost & Hmax) Hlo Hi (E & Hm & Ha & Hs & Hg & Hh & Hpr).
  unfold squelch, framed. cbn [index burst_mask bursts gone_bursts].
  split; [done|]. split; [done|]. split; [constructor|]. split; [constructor|]. split; [cbn; lia|]. split; [|split; [|done]].
  - apply Forall_app. split; [done|]. apply Forall_map, Forall_forall. intros b [Hin _]%list_elem_of_In%filter_In.
    rewrite Forall_forall in Ha. rewrite E. apply alive_ended; [lia..|]. by apply Ha, list_elem_of_In.
  - unfold history_ok. cbn [history_index history_primed]. destruct (10 <=? _); [|done]. split; lia.
Qed.

Lemma create_framed i d peaks : config_ok -> lo <= i -> burst_pre_len c <= i -> i < 2 ^ 64 -> Forall (fun p => in_band (pk_bin p)) peaks ->
  creating i d -> framed i (create_new_bursts c log10f d peaks).
Proof.
  intros Hok Hlo Hi Hw Hb Hd. pose proof Hok as (Hf & Hhs & Hpre & Hpost & Hmax). unfold create_new_bursts.
  pose proof (add_peaks_creating i peaks d ltac:(lia) Hw Hb Hd) as Hc.
  set (d1 := fold_left (add_peak c log10f) peaks d) in *. clearbody d1.
  destruct ((0 <? max_bursts c)%nat && (max_bursts c <? length (bursts d1))%nat) eqn:Eq; [apply squelch_framed; (done || lia)|].
  destruct Hc as (E & Hm & Ha & Hs & Hg & Hh & Hpr). unfold framed, calm. cbn [index burst_mask bursts gone_bursts history_primed].
  repeat (split; [done|]). split; [|split; [done|split; [done|by rewrite Hpr]]].
  intros H0. rewrite (proj2 (Nat.ltb_lt _ _) H0) in Eq. by apply Nat.ltb_ge in Eq.
Qed.

(** A primed frame up to the update of the noise floor. *)
Lemma primed_framed i d : config_ok -> lo <= index d -> 0 <= i + fft -> index d + burst_post_len c < 2 ^ 64 -> history_primed d = true ->
  det_inv i d ->
  let d1 := remove_peaks_around_bursts (update_bursts c d) in
  framed (index d) (create_new_bursts c log10f (update_burst_mask c (delete_gone_bursts c d1)) (extract_peaks c d1)).
Proof.
  intros Hok Hlo H0 Hw Hp (E & Hm & Ha & Hs & Hn & Hg & Hh1 & Hh2 & _) d1.
  pose proof Hok as (Hf & Hhs & Hpre & Hpost & Hmax). rewrite Hp in Hh2.
  apply (ended_mono _ (index d)) in Hg; [|lia].
  destruct (delete_spec d1 Hlo (update_tracked d i E Ha) Hpost Hmax Hw (update_apart d Hs) Hg) as (D1 & D2 & D3 & D4).
  change (index d1) with (index d) in *.
  assert (history_ok (index d) d1) as Hh by (unfold history_ok; cbn; rewrite Hp; done).
  apply create_framed; [done|done|lia|lia| |].
  - apply Forall_forall. intros p. apply peaks_in_band.
  - assert (history_primed (delete_gone_bursts c d1) = true) as Hpd.
    { unfold delete_gone_bursts. destruct (existsb _ _); [|done].
      by apply (post_history_primed (with_bursts d1 _ _) true (index d)). }
    pose proof (delete_history d1 (index d) Hp Hh) as Hhd. clearbody d1.
    unfold creating. cbn [update_burst_mask with_mask index burst_mask bursts gone_bursts history_primed]. done.
Qed.

Lemma frame_inv i d mag : config_ok -> lo <= index d -> 0 <= i + fft -> index d + burst_post_len c + fft < 2 ^ 64 -> det_inv i d ->
  det_inv (index d) (advance c (process_magnitude_frame c log10f d mag)).
Proof.
  intros Hok Hlo H0 Hw Hd. pose proof Hok as (Hf & Hhs & Hpre & Hpost & Hmax).
  assert (exists d2, process_magnitude_frame c log10f d mag = update_filters_post c d2 false /\ framed (index d) d2)
    as (d2 & -> & E2 & Hm2 & Ha2 & Hs2 & Hn2 & Hg2 & Hh & Hp2).
  { unfold process_magnitude_frame, update_filters_pre. destruct (history_primed (with_magnitude d mag)) eqn:Hp; cbn [negb].
    - eexists. split; [reflexivity|].
      match goal with |- context [update_bursts c ?x] => apply (primed_framed i x); [done|done|done|cbn; lia|reflexivity|] end.
      change (history_primed d = true) in Hp. unfold det_inv in *. cbn [index burst_mask bursts gone_bursts history_index
        history_primed with_magnitude]. by rewrite Hp in Hd.
    - eexists. split; [reflexivity|]. destruct Hd as (E & Hm & Ha & Hs & Hn & Hg & Hh1 & Hh2 & Hb).
      specialize (Hb Hp). apply (ended_mono _ (index d)) in Hg; [|lia]. unfold framed. cbn [with_magnitude index burst_mask bursts gone_bursts history_primed].
      rewrite Hb in *. split_and!; done. }
  destruct (post_keeps d2 false) as (P1 & P2 & P3 & P4). pose proof (post_history d2 false _ Hh) as [Q1 Q2].
  assert (history_primed (update_filters_post c d2 false) = false -> bursts d2 = []) as Hb.
  { unfold update_filters_post. destruct (_ || false); [|done]. cbn [history_primed].
    intros [H _]%orb_false_iff. by apply Hp2. }
  unfold advance, det_inv. cbn [index burst_mask bursts gone_bursts history_index history_primed].
  rewrite P1, P2, P3, P4, E2, u64_small by lia. done.
Qed.
Lemma init_inv : config_ok -> det_inv (- fft) (detector_init c).
Proof.
  intros (Hf & Hhs & Hpre & Hpost & Hmax). unfold det_inv, detector_init.
  cbn [index burst_mask bursts gone_bursts history_index history_primed].
  split; [lia|]. split; [done|]. split; [constructor|]. split; [constructor|]. split; [cbn; lia|]. split; [constructor|].
  split; [lia|]. split; [lia|done].
Qed.

Lemma run_frames_inv frames : config_ok -> forall i d, lo <= index d -> 0 <= i + fft -> det_inv i d ->
  index d + Z.of_nat (length frames) * fft + burst_post_len c < 2 ^ 64 ->
  det_inv (i + Z.of_nat (length frames) * fft) (run_frames c log10f d frames).
Proof.
  intros Hok. induction frames as [|mag frames IH]; intros i d Hlo H0 Hd Hw; cbn [run_frames length] in *.
  - by rewrite Z.add_0_r.
  - pose proof Hok as (Hf & _ & _ & Hpost & _). pose proof Hd as (E & _).
    assert (det_inv (index d) (advance c (process_magnitude_frame c log10f d mag))) as Hd'
      by (apply (frame_inv i); [done|done|done|nia|done]).
    pose proof Hd' as (E' & _).
    specialize (IH (index d) (advance c (process_magnitude_frame c log10f d mag)) ltac:(lia) ltac:(lia) Hd'). rewrite E' in IH. specialize (IH ltac:(lia)).
    replace (i + Z.of_nat (S (length frames)) * fft) with (index d + Z.of_nat (length frames) * fft) by lia. done.
Qed.
End invariant.

(** * The sample ring *)

Record ring (A : Type) := Ring {
  ringbuf : list A;
  ringbuf_pos : nat;     (* ringbuf_write *)
  ringbuf_start : Z;
  sample_count : Z;
}.
Arguments Ring {A}.
Arguments ringbuf {A}.
Arguments ringbuf_pos {A}.
Arguments ringbuf_start {A}.
Arguments sample_count {A}.

(** [ringbuf_size] as [burst_detector_create] sets it. *)
Definition ringbuf_minimum (c : burst_config) : Z := max_burst_len c + burst_post_len c + burst_pre_len c.
Definition ringbuf_size (c : burst_config) : Z := ringbuf_minimum c + ringbuf_minimum c / 4.

Section ring.
Context {A : Type}.

(** [ringbuf_write]: note that [sample_count] does not include [samples] yet. *)
Definition ringbuf_write (r : ring A) (samples : list A) : ring A :=
  let size := length (ringbuf r) in
  let pos := ringbuf_pos r in
  let n := length samples in
  let '(buf, pos) :=
    if (pos + n <=? size)%nat then
      (take pos (ringbuf r) ++ samples ++ drop (pos + n) (ringbuf r), if (pos + n =? size)%nat then 0%nat else (pos + n)%nat)
    else
      let first := (size - pos)%nat in
      let buf := take pos (ringbuf r) ++ take first samples in
      (drop first samples ++ drop (n - first) buf, (n - first)%nat) in
  let total_written := sample_count r in
  Ring buf pos (if Z.of_nat size <? total_written then total_written - Z.of_nat size else ringbuf_start r) (sample_count r).

(** The part of [burst_detector_feed] that stores the samples. *)
Definition feed_ring (r : ring A) (samples : list A) : ring A :=
  let r := ringbuf_write r samples in
  Ring (ringbuf r) (ringbuf_pos r) (ringbuf_start r) (u64 (sample_count r + Z.of_nat (length samples))).

(** The copy out of the ring, in one piece or two. *)
Definition ring_read (r : ring A) (start : Z) (len : nat) : list A :=
  let size := length (ringbuf r) in
  let rb_pos := Z.to_nat (start mod Z.of_nat size) in
  if (rb_pos + len <=? size)%nat then slice (ringbuf r) rb_pos (rb_pos + len)
  else drop rb_pos (ringbuf r) ++ take (len - (size - rb_pos)) (ringbuf r).

Definition ringbuf_extract (r : ring A) (start stop : Z) : option (list A) :=
  let start := if start <? ringbuf_start r then ringbuf_start r else start in
  if stop <=? start then None else Some (ring_read r start (Z.to_nat (stop - start))).

(** The ring before the first sample, whatever the allocation contains. *)
Definition ring_init (junk : list A) : ring A := Ring junk 0 0 0.
End ring.

Section ring_inv.
Context {A : Type}.
Implicit Types (s x : list A) (r : ring A).

(** The ring holds the last [size] samples of the stream. *)
Definition ring_inv (size : nat) s r : Prop :=
  length (ringbuf r) = size /\ ringbuf_pos r = (length s mod size)%nat /\ sample_count r = Z.of_nat (length s) /\
  ringbuf_start r <= Z.max 0 (Z.of_nat (length s) - Z.of_nat size) /\
  forall k, (length s <= k + size)%nat -> (k < length s)%nat -> ringbuf r !! (k mod size)%nat = s !! k.

(** Positions ahead of and behind a reference. *)
Lemma mod_ahead l j n : (0 < n)%nat -> (j <= n)%nat ->
  ((l + j) mod n = if l mod n + j <? n then l mod n + j else l mod n + j - n)%nat.
Proof.
  intros Hn Hj. pose proof (Nat.mod_upper_bound l n ltac:(lia)). pose proof (Nat.div_mod_eq l n).
  symmetry. destruct (Nat.ltb_spec (l mod n + j) n).
  - apply (Nat.mod_unique _ _ (l / n)); lia.
  - apply (Nat.mod_unique _ _ (l / n + 1)); nia.
Qed.

Lemma mod_behind l k n : (0 < n)%nat -> (k < l)%nat -> (l <= k + n)%nat ->
  (k mod n = if l - k <=? l mod n then l mod n - (l - k) else l mod n + n - (l - k))%nat.
Proof.
  intros Hn Hk Hl. pose proof (Nat.mod_upper_bound l n ltac:(lia)). pose proof (Nat.div_mod_eq l n).
  symmetry. destruct (Nat.leb_spec (l - k) (l mod n)).
  - apply (Nat.mod_unique _ _ (l / n)); lia.
  - apply (Nat.mod_unique _ _ (l / n - 1)); [lia|]. assert (1 <= l / n)%nat by nia. nia.
Qed.

(** What a write leaves at a place of the ring. *)
Lemma write_lookup r x i : (ringbuf_pos r < length (ringbuf r))%nat -> (length x <= length (ringbuf r))%nat ->
  (i < length (ringbuf r))%nat ->
  ringbuf (ringbuf_write r x) !! i =
  if ((ringbuf_pos r <=? i) && (i <? ringbuf_pos r + length x))%nat then x !! (i - ringbuf_pos r)%nat
  else if (i + length (ringbuf r) <? ringbuf_pos r + length x)%nat then x !! (i + length (ringbuf r) - ringbuf_pos r)%nat
  else ringbuf r !! i.
Proof.
  intros Hp Hx Hi. unfold ringbuf_write. set (size := length (ringbuf r)) in *. set (pos := ringbuf_pos r) in *.
  set (n := length x) in *. destruct (Nat.leb_spec (pos + n) size) as [Hf|Hf]; cbn [ringbuf].
  - rewrite (proj2 (Nat.ltb_ge (i + size) (pos + n))) by lia. destruct (Nat.leb_spec pos i) as [H1|H1]; cbn [andb].
    + rewrite lookup_app_r by (rewrite length_take; lia). rewrite length_take, Nat.min_l by lia.
      destruct (Nat.ltb_spec i (pos + n)).
      * by rewrite lookup_app_l by (fold n; lia).
      * rewrite lookup_app_r by (fold n; lia). rewrite lookup_drop. f_equal. fold n. lia.
    + rewrite lookup_app_l by (rewrite length_take; lia). apply lookup_take_lt. lia.
  - assert (length (take pos (ringbuf r) ++ take (size - pos) x) = size) as Hb
      by (rewrite length_app, !length_take; fold size n; lia).
    assert (length (drop (size - pos) x) = (n - (size - pos))%nat) as Hd by (rewrite length_drop; done).
    destruct (Nat.ltb_spec (i + size) (pos + n)) as [H2|H2].
    + rewrite (proj2 (Nat.leb_gt pos i)) by lia. cbn [andb].
      rewrite lookup_app_l by lia. rewrite lookup_drop. f_equal. lia.
    + rewrite lookup_app_r by lia. rewrite lookup_drop, Hd.
      replace (n - (size - pos) + (i - (n - (size - pos))))%nat with i by lia.
      destruct (Nat.leb_spec pos i) as [H1|H1]; cbn [andb].
      * rewrite (proj2 (Nat.ltb_lt i (pos + n))) by lia. rewrite lookup_app_r by (rewrite length_take; lia).
        rewrite length_take, Nat.min_l by lia. apply lookup_take_lt. lia.
      * rewrite lookup_app_l by (rewrite length_take; lia). apply lookup_take_lt. lia.
Qed.

Lemma write_shape r x : (ringbuf_pos r < length (ringbuf r))%nat -> (length x <= length (ringbuf r))%nat ->
  length (ringbuf (ringbuf_write r x)) = length (ringbuf r) /\
  ringbuf_pos (ringbuf_write r x) =
    (if ringbuf_pos r + length x <? length (ringbuf r) then ringbuf_pos r + length x else ringbuf_pos r + length x - length (ringbuf r))%nat.
Proof.
  intros Hp Hx. unfold ringbuf_write. destruct (Nat.leb_spec (ringbuf_pos r + length x) (length (ringbuf r))) as [Hf|Hf];
    cbn [ringbuf ringbuf_pos].
  - split; [rewrite !length_app, length_take, length_drop; lia|].
    destruct (Nat.eqb_spec (ringbuf_pos r + length x) (length (ringbuf r))), (Nat.ltb_spec (ringbuf_pos r + length x) (length (ringbuf r))); lia.
  - split; [rewrite !length_app, !length_drop, length_app, !length_take; lia|].
    rewrite (proj2 (Nat.ltb_ge _ _)) by lia. lia.
Qed.

Lemma write_rest r x : sample_count (ringbuf_write r x) = sample_count r /\
  ringbuf_start (ringbuf_write r x) =
    if Z.of_nat (length (ringbuf r)) <? sample_count r then sample_count r - Z.of_nat (length (ringbuf r)) else ringbuf_start r.
Proof. unfold ringbuf_write. by destruct (_ <=? _)%nat. Qed.

Lemma feed_inv size s r x : (0 < size)%nat -> (length x <= size)%nat -> Z.of_nat (length (s ++ x)) < 2 ^ 64 ->
  ring_inv size s r -> ring_inv size (s ++ x) (feed_ring r x).
Proof.
  intros Hs Hx Hw (Hl & Hp & Hc & Hst & Hk). pose proof (Nat.mod_upper_bound (length s) size ltac:(lia)) as Hm.
  destruct (write_shape r x) as [W1 W2]; [lia..|]. rewrite Hl in W1. rewrite Hl, Hp in W2.
  pose proof (fun i => write_lookup r x i ltac:(lia) ltac:(lia)) as W. rewrite Hl, Hp in W.
  unfold ring_inv, feed_ring. cbn [ringbuf ringbuf_pos sample_count ringbuf_start]. rewrite length_app in *.
  destruct (write_rest r x) as [-> ->].
  assert ((if Z.of_nat (length (ringbuf r)) <? sample_count r then sample_count r - Z.of_nat (length (ringbuf r)) else ringbuf_start r)
    <= Z.max 0 (Z.of_nat (length s) - Z.of_nat size)) as Hst' by (rewrite Hl, Hc; zguards).
  split; [done|]. split; [by rewrite mod_ahead, <- W2 by lia|].
  split; [rewrite u64_small; lia|]. split; [lia|].
  intros k H1 H2. rewrite W by (apply Nat.mod_upper_bound; lia).
  destruct (decide (k < length s)%nat) as [Hold|Hnew].
  - rewrite lookup_app_l by done. rewrite (mod_behind (length s) k size) by lia.
    destruct (Nat.leb_spec (length s - k) (length s mod size)).
    + rewrite (proj2 (Nat.leb_gt _ _)) by lia. cbn [andb]. rewrite (proj2 (Nat.ltb_ge _ _)) by lia.
      rewrite <- Hk by lia. f_equal. rewrite (mod_behind (length s) k size) by lia. by rewrite (proj2 (Nat.leb_le _ _)) by lia.
    + rewrite (proj2 (Nat.ltb_ge _ (length s mod size + length x))) by lia. rewrite andb_false_r.
      rewrite (proj2 (Nat.ltb_ge _ _)) by lia.
      rewrite <- Hk by lia. f_equal. rewrite (mod_behind (length s) k size) by lia. by rewrite (proj2 (Nat.leb_gt _ _)) by lia.
  - rewrite lookup_app_r by lia. pose proof (mod_ahead (length s) (k - length s) size Hs ltac:(lia)) as Ek.
    replace (length s + (k - length s))%nat with k in Ek by lia. rewrite Ek. destruct (Nat.ltb_spec (length s mod size + (k - length s)) size).
    + rewrite (proj2 (Nat.leb_le _ _)), (proj2 (Nat.ltb_lt _ _)) by lia. cbn [andb]. f_equal. lia.
    + rewrite (proj2 (Nat.leb_gt (length s mod size) _)) by lia. cbn [andb].
      rewrite (proj2 (Nat.ltb_lt _ _)) by lia. f_equal. lia.
Qed.

Lemma ring_init_inv (junk : list A) : (0 < length junk)%nat -> ring_inv (length junk) [] (ring_init junk).
Proof.
  intros Hj. unfold ring_inv, ring_init. cbn [ringbuf ringbuf_pos sample_count ringbuf_start length].
  split; [done|]. split; [by rewrite Nat.Div0.mod_0_l|]. split; [done|]. split; [lia|]. intros k _ Hk. lia.
Qed.

(** What is still in the ring is read as it was received, however far the read
    goes on. *)
Lemma ring_read_exact size s r (a len n : nat) : (0 < size)%nat -> ring_inv size s r -> (length s <= a + size)%nat ->
  (n <= len)%nat -> (len <= size)%nat -> (a + n <= length s)%nat ->
  length (ring_read r (Z.of_nat a) len) = len /\ take n (ring_read r (Z.of_nat a) len) = slice s a (a + n).
Proof.
  intros Hs (Hl & _ & _ & _ & Hk) Ha Hn Hlen Hb. unfold ring_read. rewrite Hl, <- Nat2Z.inj_mod, Nat2Z.id.
  pose proof (Nat.mod_upper_bound a size ltac:(lia)) as Hm.
  assert (forall j, (j < n)%nat -> ringbuf r !! (if a mod size + j <? size then a mod size + j else a mod size + j - size)%nat = s !! (a + j)%nat) as Hj.
  { intros j Hj. rewrite <- mod_ahead by lia. apply Hk; lia. }
  match goal with |- length ?x = _ /\ _ => set (l := x) end. assert (length l = len) as Hll.
  { subst l. destruct (Nat.leb_spec (a mod size + len) size); [rewrite length_slice; lia|].
    rewrite length_app, length_drop, length_take. lia. }
  split; [done|]. apply list_eq_same_length with n; [rewrite length_slice; lia|rewrite length_take; lia|].
  intros j y z Hjn Hy Hz. rewrite lookup_take_lt in Hy by lia. unfold slice in Hz. rewrite lookup_take_lt, lookup_drop in Hz by lia.
  rewrite <- Hj in Hz by done. cut (Some y = Some z); [congruence|]. rewrite <- Hy, <- Hz. subst l.
  destruct (Nat.leb_spec (a mod size + len) size) as [Hf|Hf].
  - rewrite (proj2 (Nat.ltb_lt _ _)) by lia. unfold slice. rewrite lookup_take_lt, lookup_drop by lia. done.
  - destruct (Nat.ltb_spec (a mod size + j) size).
    + rewrite lookup_app_l by (rewrite length_drop; lia). by rewrite lookup_drop.
    + rewrite lookup_app_r by (rewrite length_drop; lia). rewrite length_drop, Hl, lookup_take_lt by lia. f_equal. lia.
Qed.
End ring_inv.

(** * Feeding samples *)

Section feed.
Context (c : burst_config) (log10f : f32 -> f32) {A : Type} (frame_mag : list A -> list f32).

(** [process_fft_frame]. *)
Definition process_fft_frame (d : detector) (samples : list A) : detector :=
  process_magnitude_frame c log10f d (frame_mag samples).

(** The loop over the complete frames (CPU path). *)
Fixpoint process_frames (fuel : nat) (d : detector) (r : ring A) : detector :=
  match fuel with
  | O => d
  | S fuel =>
      if u64 (index d + Z.of_nat (fft_size c)) <=? sample_count r then
        process_frames fuel (advance c (process_fft_frame d (ring_read r (index d) (fft_size c)))) r
      else d
  end.

(** The bursts handed to the callback, with their samples. *)
Definition emit_gone_bursts (d : detector) (r : ring A) : detector * list (active_burst * list A) :=
  (with_bursts d (bursts d) [],
   omap (fun ab => pair ab <$> ringbuf_extract r (ab_start ab) (u64 (ab_stop ab + burst_pre_len c))) (gone_bursts d)).

Definition emit_if_gone (d : detector) (r : ring A) : detector * list (active_burst * list A) :=
  if (0 <? length (gone_bursts d))%nat then emit_gone_bursts d r else (d, []).

(** The GPU path: a plugin computes the magnitudes of a batch of frames, or
    fails. *)
Record gpu_plugin := GpuPlugin {
  gpu_batch_size : nat;
  gpu_process : list (list A) -> option (list (list f32));
}.

Definition gpu_flush_batch (g : gpu_plugin) (d : detector) (batch : list (list A)) : detector :=
  match batch with
  | [] => d
  | _ => match gpu_process g batch with
         | None => d
         | Some mags => run_frames c log10f d mags
         end
  end.

Fixpoint gpu_frames (fuel : nat) (g : gpu_plugin) (d : detector) (r : ring A) (read_idx : Z) (batch : list (list A)) :
    detector * list (active_burst * list A) :=
  match fuel with
  | O => (gpu_flush_batch g d batch, [])
  | S fuel =>
      if u64 (read_idx + Z.of_nat (fft_size c)) <=? sample_count r then
        let batch := batch ++ [ring_read r read_idx (fft_size c)] in
        let read_idx := u64 (read_idx + Z.of_nat (fft_size c)) in
        if (gpu_batch_size g <=? length batch)%nat then
          let '(d, out) := emit_if_gone (gpu_flush_batch g d batch) r in
          let '(d, out') := gpu_frames fuel g d r read_idx [] in (d, out ++ out')
        else gpu_frames fuel g d r read_idx batch
      else (gpu_flush_batch g d batch, [])
  end.

Definition burst_detector_feed (gpu : option gpu_plugin) (d : detector) (r : ring A) (samples : list A) :
    detector * ring A * list (active_burst * list A) :=
  let r := feed_ring r samples in
  let fuel := Z.to_nat (sample_count r - index d) in
  let '(d, out) := match gpu with
                   | Some g => gpu_frames fuel g d r (index d) []
                   | None => (process_frames fuel d r, [])
                   end in
  let '(d, out') := emit_if_gone d r in (d, r, out ++ out').

(** The loop of [burst_detector_thread]. *)
Fixpoint feed_all (gpu : option gpu_plugin) (d : detector) (r : ring A) (chunks : list (list A)) : detector * ring A * list (active_burst * list A) :=
  match chunks with
  | [] => (d, r, [])
  | x :: chunks =>
      let '(d, r, out) := burst_detector_feed gpu d r x in
      let '(d, r, out') := feed_all gpu d r chunks in (d, r, out ++ out')
  end.

(** ** Samples come from the input *)

Lemma write_samples (P : A -> Prop) r x : Forall P (ringbuf r) -> Forall P x -> Forall P (ringbuf (ringbuf_write r x)).
Proof.
  intros Hr Hx. unfold ringbuf_write. destruct (_ <=? _)%nat; cbn [ringbuf]; rewrite ?Forall_app; eauto 8 using Forall_take, Forall_drop, Forall_app_2.
Qed.

Lemma read_samples (P : A -> Prop) r start len : Forall P (ringbuf r) -> Forall P (ring_read r start len).
Proof. intros Hr. unfold ring_read, slice. destruct (_ <=? _)%nat; rewrite ?Forall_app; auto using Forall_take, Forall_drop. Qed.

Lemma emit_samples (P : A -> Prop) d r : Forall P (ringbuf r) -> Forall (fun p => Forall P p.2) (emit_if_gone d r).2.
Proof.
  intros Hr. unfold emit_if_gone, emit_gone_bursts. destruct (_ <? _)%nat; [|constructor]. cbn [snd]. apply Forall_forall. intros p Hp.
  apply list_elem_of_omap in Hp as (ab & _ & E). unfold ringbuf_extract in E. case_match; [done|]. cbn in E. simplify_eq. by apply read_samples.
Qed.

Lemma feed_all_samples (P : A -> Prop) chunks : Forall (Forall P) chunks -> forall d r, Forall P (ringbuf r) ->
  Forall (fun p => Forall P p.2) (feed_all None d r chunks).2.
Proof.
  induction 1 as [|x chunks Hx _ IH]; intros d r Hr; [constructor|]. cbn [feed_all]. unfold burst_detector_feed.
  assert (Forall P (ringbuf (feed_ring r x))) as Hr' by by apply write_samples. set (d' := process_frames _ d _).
  pose proof (emit_samples P d' (feed_ring r x) Hr') as He. destruct (emit_if_gone d' _) as [d2 out]. specialize (IH d2 _ Hr').
  destruct (feed_all None d2 _ chunks) as [[d3 r3] out']. cbn [snd] in *. apply Forall_app. by split.
Qed.

(** ** The list of ended bursts only grows *)

Definition with_gone (g : list active_burst) (d : detector) : detector := with_bursts d (bursts d) (g ++ gone_bursts d).

Lemma post_gone g d force : update_filters_post c (with_gone g d) force = with_gone g (update_filters_post c d force).
Proof. unfold update_filters_post. cbn. by destruct (_ || force). Qed.

Lemma delete_with_gone g d : delete_gone_bursts c (with_gone g d) = with_gone g (delete_gone_bursts c d).
Proof.
  unfold delete_gone_bursts. cbn [with_gone with_bursts bursts gone_bursts index]. destruct (existsb _ _).
  - rewrite <- post_gone. f_equal. unfold with_gone. cbn [with_bursts bursts gone_bursts]. by rewrite app_assoc.
  - unfold with_gone. cbn [with_bursts bursts gone_bursts]. by rewrite app_assoc.
Qed.

Lemma peaks_with_gone g peaks d : fold_left (add_peak c log10f) peaks (with_gone g d) = with_gone g (fold_left (add_peak c log10f) peaks d).
Proof.
  revert d. induction peaks as [|p peaks IH]; intros d; cbn [fold_left]; [done|]. rewrite <- IH. f_equal.
  unfold add_peak. cbn [with_gone with_bursts burst_mask]. by destruct (negb _).
Qed.

Lemma create_with_gone g d peaks : create_new_bursts c log10f (with_gone g d) peaks = with_gone g (create_new_bursts c log10f d peaks).
Proof.
  unfold create_new_bursts. rewrite peaks_with_gone. generalize (fold_left (add_peak c log10f) peaks d) as e. intros e.
  cbn [with_gone with_bursts bursts]. destruct (_ && _); [|done].
  unfold squelch, with_gone. cbn. by rewrite app_assoc.
Qed.

Lemma frame_with_gone g d mag : process_magnitude_frame c log10f (with_gone g d) mag = with_gone g (process_magnitude_frame c log10f d mag).
Proof.
  unfold process_magnitude_frame. rewrite <- post_gone. f_equal.
  assert (update_filters_pre (with_magnitude (with_gone g d) mag) = with_gone g <$> update_filters_pre (with_magnitude d mag)) as ->
    by (unfold update_filters_pre; cbn; by destruct (history_primed d)).
  destruct (update_filters_pre (with_magnitude d mag)) as [e|]; cbn [fmap option_fmap option_map]; [|done].
  change (remove_peaks_around_bursts (update_bursts c (with_gone g e)))
    with (with_gone g (remove_peaks_around_bursts (update_bursts c e))).
  rewrite delete_with_gone, <- create_with_gone. done.
Qed.

Lemma run_with_gone g frames d : run_frames c log10f (with_gone g d) frames = with_gone g (run_frames c log10f d frames).
Proof.
  revert d. induction frames as [|mag frames IH]; intros d; cbn [run_frames]; [done|].
  rewrite frame_with_gone, <- (IH (advance c _)). done.
Qed.

(** ** The GPU path *)

(** A plugin whose calls succeed and which treats the frames of a batch one by
    one: the magnitudes of a frame are a function of that frame. *)
Definition batch_ok (g : gpu_plugin) (batch : list (list A)) : Prop :=
  (0 < length batch <= gpu_batch_size g)%nat /\ Forall (fun x => length x = fft_size c) batch.
Definition gpu_framewise (gpu : option gpu_plugin) : Prop :=
  match gpu with
  | Some g => (0 < gpu_batch_size g)%nat /\ forall batch, batch_ok g batch -> gpu_process g batch = Some (map frame_mag batch)
  | None => True
  end.

(** A ring that holds a frame. *)
Definition ring_shape (r : ring A) : Prop := (0 < fft_size c <= length (ringbuf r))%nat /\ (ringbuf_pos r <= length (ringbuf r))%nat.

Lemma read_length r i : ring_shape r -> length (ring_read r i (fft_size c)) = fft_size c.
Proof.
  intros [Hf _]. unfold ring_read, slice. pose proof (Z.mod_pos_bound i (Z.of_nat (length (ringbuf r))) ltac:(lia)).
  destruct (Nat.leb_spec (Z.to_nat (i mod Z.of_nat (length (ringbuf r))) + fft_size c) (length (ringbuf r)));
    rewrite ?length_app, ?length_take, ?length_drop; lia.
Qed.

Lemma feed_shape r x : ring_shape r -> (length x <= length (ringbuf r))%nat ->
  ring_shape (feed_ring r x) /\ length (ringbuf (feed_ring r x)) = length (ringbuf r).
Proof.
  intros [Hf Hp] Hx. unfold feed_ring, ringbuf_write, ring_shape.
  destruct (Nat.leb_spec (ringbuf_pos r + length x) (length (ringbuf r))); cbn [ringbuf ringbuf_pos].
  - destruct (Nat.eqb_spec (ringbuf_pos r + length x) (length (ringbuf r))); rewrite !length_app, length_take, length_drop; lia.
  - rewrite length_app, !length_drop, length_app, !length_take. lia.
Qed.

Lemma run_frames_app d fs gs : run_frames c log10f d (fs ++ gs) = run_frames c log10f (run_frames c log10f d fs) gs.
Proof. revert d. induction fs as [|f fs IH]; intros d; cbn [run_frames app]; [done|]. apply IH. Qed.

Lemma frame_index d mag : index (process_magnitude_frame c log10f d mag) = index d.
Proof.
  unfold process_magnitude_frame. destruct (post_keeps c (match update_filters_pre (with_magnitude d mag) with
    | Some d => create_new_bursts c log10f (update_burst_mask c (delete_gone_bursts c (remove_peaks_around_bursts (update_bursts c d))))
                  (extract_peaks c (remove_peaks_around_bursts (update_bursts c d)))
    | None => with_magnitude d mag end) false) as (_ & _ & _ & E). cbn zeta in E |- *. rewrite E. clear E.
  unfold update_filters_pre. destruct (negb _); [done|]. unfold create_new_bursts.
  assert (forall peaks e, index (fold_left (add_peak c log10f) peaks e) = index e) as Hp.
  { induction peaks as [|p peaks IH]; intros e; cbn [fold_left]; [done|]. rewrite IH. unfold add_peak. by destruct (negb _). }
  assert (forall e, index (delete_gone_bursts c e) = index e) as Hd.
  { intros e. unfold delete_gone_bursts. destruct (existsb _ _); [|done]. by destruct (post_keeps c (with_bursts e
      (List.filter (fun b => negb (is_gone c e b)) (bursts e)) (gone_bursts e ++ map (set_stop (index e)) (List.filter (is_gone c e) (bursts e)))) true)
      as (_ & _ & _ & E). }
  destruct (_ && _); cbn [squelch calm index]; by rewrite Hp; cbn [update_burst_mask with_mask index]; rewrite Hd.
Qed.

Lemma process_frames_with_gone g fuel r d : process_frames fuel (with_gone g d) r = with_gone g (process_frames fuel d r).
Proof.
  revert d. induction fuel as [|fuel IH]; intros d; cbn [process_frames]; [done|].
  change (index (with_gone g d)) with (index d). destruct (_ <=? _); [|done].
  unfold process_fft_frame. rewrite frame_with_gone, <- (IH (advance c _)). done.
Qed.

(** Emitting early changes nothing. *)
Lemma emit_early fuel d r :
  (let '(d, out) := emit_if_gone d r in let '(d, out') := emit_if_gone (process_frames fuel d r) r in (d, out ++ out')) =
  emit_if_gone (process_frames fuel d r) r.
Proof.
  unfold emit_if_gone at 1. destruct (Nat.ltb_spec 0 (length (gone_bursts d))) as [H|H]; [|by destruct (emit_if_gone _ _)].
  set (d0 := with_bursts d (bursts d) []). assert (d = with_gone (gone_bursts d) d0) as Hd.
  { unfold with_gone, d0. cbn [with_bursts bursts gone_bursts]. rewrite app_nil_r. by destruct d. }
  cbn [emit_gone_bursts]. fold d0. transitivity (emit_if_gone (process_frames fuel (with_gone (gone_bursts d) d0) r) r); [|by rewrite <- Hd]. rewrite process_frames_with_gone.
  set (e := process_frames fuel d0 r). unfold emit_if_gone, emit_gone_bursts.
  rewrite (proj2 (Nat.ltb_lt 0 (length (gone_bursts (with_gone _ e))))) by (unfold with_gone; cbn; rewrite length_app; lia).
  change (gone_bursts (with_gone (gone_bursts d) e)) with (gone_bursts d ++ gone_bursts e). rewrite omap_app.
  destruct (Nat.ltb_spec 0 (length (gone_bursts e))) as [He|He]; [done|].
  destruct (gone_bursts e) eqn:Eg; [|cbn in He; lia]. f_equal. unfold with_gone. cbn [with_bursts bursts]. rewrite <- Eg. by destruct e.
Qed.

Lemma flush_run g d batch : gpu_framewise (Some g) -> (length batch <= gpu_batch_size g)%nat -> Forall (fun x => length x = fft_size c) batch ->
  gpu_flush_batch g d batch = run_frames c log10f d (map frame_mag batch).
Proof. intros [_ H] Hb Hf. unfold gpu_flush_batch. destruct batch; [done|]. rewrite H; [done|]. split; [cbn in *; lia|done]. Qed.

Lemma gpu_frames_cpu fuel g r : gpu_framewise (Some g) -> ring_shape r -> forall d batch,
  (length batch < gpu_batch_size g)%nat -> Forall (fun x => length x = fft_size c) batch ->
  let e := run_frames c log10f d (map frame_mag batch) in
  (let '(d, out) := gpu_frames fuel g d r (index e) batch in let '(d, out') := emit_if_gone d r in (d, out ++ out')) =
  emit_if_gone (process_frames fuel e r) r.
Proof.
  intros Hg Hr. induction fuel as [|fuel IH]; intros d batch Hb Hfr e; cbn [gpu_frames process_frames].
  { rewrite flush_run by (done || lia). fold e. by destruct (emit_if_gone e r). }
  destruct (_ <=? _); [|rewrite flush_run by (done || lia); fold e; by destruct (emit_if_gone e r)].
  set (fr := ring_read r (index e) (fft_size c)). set (e' := advance c (process_fft_frame e fr)).
  assert (run_frames c log10f d (map frame_mag (batch ++ [fr])) = e') as He by (rewrite map_app, run_frames_app; done).
  assert (u64 (index e + Z.of_nat (fft_size c)) = index e') as -> by (unfold e', advance, process_fft_frame; cbn [index]; by rewrite frame_index).
  assert (Forall (fun x => length x = fft_size c) (batch ++ [fr])) as Hfr' by (apply Forall_app; split; [done|]; constructor; [by apply read_length|done]).
  assert (length (batch ++ [fr]) = S (length batch)) as Hl by (rewrite length_app; cbn; lia).
  destruct (Nat.leb_spec (gpu_batch_size g) (length (batch ++ [fr]))) as [Hfull|Hroom].
  - rewrite flush_run, He, <- emit_early by (done || lia). destruct (emit_if_gone e' r) as [d' out] eqn:Ee.
    assert (index d' = index e') as <- by (unfold emit_if_gone, emit_gone_bursts in Ee; destruct (_ <? _)%nat in Ee; by injection Ee as <- _).
    specialize (IH d' [] ltac:(destruct Hg; cbn; lia) ltac:(constructor)). cbn [map run_frames] in IH. destruct (gpu_frames _ _ _ _ _ _) as [d2 out2].
    destruct (emit_if_gone d2 r) as [d3 out3]. rewrite <- IH. by rewrite app_assoc.
  - specialize (IH d (batch ++ [fr]) Hroom Hfr'). cbn zeta in IH. rewrite He in IH. apply IH.
Qed.

(** Both paths are the same function. *)
Lemma feed_gpu gpu d r x : gpu_framewise gpu -> ring_shape (feed_ring r x) -> burst_detector_feed gpu d r x = burst_detector_feed None d r x.
Proof.
  intros Hg Hr. destruct gpu as [g|]; [|done]. unfold burst_detector_feed.
  pose proof (gpu_frames_cpu (Z.to_nat (sample_count (feed_ring r x) - index d)) g (feed_ring r x) Hg Hr d [] ltac:(destruct Hg; cbn; lia) ltac:(constructor)) as H.
  cbn [map run_frames] in H. destruct (gpu_frames _ _ _ _ _ _) as [d1 out1]. cbn [app].
  destruct (emit_if_gone d1 (feed_ring r x)) as [d2 out2]. rewrite <- H. done.
Qed.

Lemma feed_all_gpu gpu chunks : gpu_framewise gpu -> forall d r, ring_shape r -> Forall (fun x => (length x <= length (ringbuf r))%nat) chunks ->
  feed_all gpu d r chunks = feed_all None d r chunks.
Proof.
  intros Hg. induction chunks as [|x chunks IH]; intros d r Hr Hc; [done|]. inversion Hc as [|? ? Hx Hc']. subst. cbn [feed_all].
  destruct (feed_shape r x Hr Hx) as [Hr' Hl]. rewrite feed_gpu by done. unfold burst_detector_feed.
  destruct (emit_if_gone _ _) as [d' out]. rewrite IH by (done || by rewrite Hl). done.
Qed.

(** ** Frames of a stream *)

Definition frames_from (s : list A) (k m : nat) : list (list A) :=
  map (fun i => slice s (i * fft_size c) (i * fft_size c + fft_size c)) (seq k m).
Definition stream_frames (s : list A) : list (list A) := frames_from s 0 (length s / fft_size c).

Lemma frames_app s x : (0 < fft_size c)%nat ->
  stream_frames (s ++ x) =
  stream_frames s ++ frames_from (s ++ x) (length s / fft_size c) (length (s ++ x) / fft_size c - length s / fft_size c).
Proof.
  intros Hn. unfold stream_frames, frames_from.
  assert (length s / fft_size c <= length (s ++ x) / fft_size c)%nat as Hle by (apply Nat.Div0.div_le_mono; rewrite length_app; lia).
  replace (length (s ++ x) / fft_size c)%nat with (length s / fft_size c + (length (s ++ x) / fft_size c - length s / fft_size c))%nat at 1 by lia.
  rewrite seq_app, map_app. f_equal. apply map_ext_in. intros i Hi%in_seq.
  pose proof (Nat.Div0.mul_div_le (length s) (fft_size c)). apply slice_app_l. nia.
Qed.

Abbreviation fft := (Z.of_nat (fft_size c)).

(** The loop runs exactly the frames that became complete. *)
Lemma process_run lo size s r : config_ok c -> (fft_size c <= size)%nat -> ring_inv size s r ->
  Z.of_nat (length s) + burst_post_len c + fft < 2 ^ 64 ->
  forall fuel k i d, lo <= index d -> 0 <= i + fft -> det_inv c lo i d -> index d = Z.of_nat (k * fft_size c) ->
  (k * fft_size c <= length s <= k * fft_size c + size)%nat -> (length s / fft_size c - k <= fuel)%nat ->
  process_frames fuel d r = run_frames c log10f d (map frame_mag (frames_from s k (length s / fft_size c - k))).
Proof.
  intros Hok Hn Hr Hw. pose proof Hok as (Hf & _ & _ & Hpost & _). pose proof Hr as (_ & _ & Hc & _).
  pose proof (Nat.div_mod_eq (length s) (fft_size c)) as Hdm. pose proof (Nat.mod_upper_bound (length s) (fft_size c) ltac:(lia)) as Hmb.
  induction fuel as [|fuel IH]; intros k i d Hlo H0 Hd Hk Hs Hfuel.
  { replace (length s / fft_size c - k)%nat with 0%nat by lia. done. }
  cbn [process_frames]. rewrite Hc, Hk. destruct (decide (k < length s / fft_size c)%nat) as [Hlt|Hge].
  - assert (k * fft_size c + fft_size c <= length s)%nat as Hle by nia.
    rewrite u64_small by lia. rewrite (proj2 (Z.leb_le _ _)) by lia.
    replace (length s / fft_size c - k)%nat with (S (length s / fft_size c - S k)) by lia.
    cbn [frames_from seq map run_frames]. unfold process_fft_frame.
    destruct (ring_read_exact size s r (k * fft_size c) (fft_size c) (fft_size c)) as [L E]; [lia|done|lia..|].
    rewrite take_ge in E by lia. rewrite E.
    assert (det_inv c lo (index d) (advance c (process_magnitude_frame c log10f d (frame_mag (slice s (k * fft_size c) (k * fft_size c + fft_size c))))))
      as Hd' by (apply (frame_inv c log10f lo i); [done|done|done|lia|done]).
    pose proof Hd' as [E' _]. apply (IH (S k) (index d)); [lia|lia|done|rewrite E', Hk; lia|lia|lia].
  - assert (length s < k * fft_size c + fft_size c)%nat by nia.
    rewrite u64_small, (proj2 (Z.leb_gt _ _)) by lia.
    replace (length s / fft_size c - k)%nat with 0%nat by lia. done.
Qed.

(** ** Delivery *)

(** A burst handed over when the samples [s] had been received, at least a frame
    more than its end: it has as many samples as its span and tail, and they are
    the received ones as far as these go. *)
Definition delivered (s : list A) (p : active_burst * list A) : Prop :=
  let '(b, xs) := p in
  let last := Z.min (ab_stop b + burst_pre_len c) (Z.of_nat (length s)) in
  0 <= ab_start b <= ab_stop b /\ ab_stop b + fft <= Z.of_nat (length s) /\
  Z.of_nat (length xs) = ab_stop b + burst_pre_len c - ab_start b /\
  take (Z.to_nat (last - ab_start b)) xs = slice s (Z.to_nat (ab_start b)) (Z.to_nat last).

(** The ring has room for a whole burst with its tail, and for a frame and a
    chunk. *)
Definition ring_fits (size chunk : nat) : Prop :=
  longest c + burst_pre_len c <= Z.of_nat size /\ fft + Z.of_nat chunk <= Z.of_nat size.

(** No chunk overwrites a burst that can still be cut out. *)
Definition ring_ok (size chunk : nat) : Prop :=
  longest c + burst_pre_len c <= Z.of_nat size /\ longest c + fft + Z.of_nat chunk <= Z.of_nat size.

Lemma ring_ok_fits size chunk : config_ok c -> ring_ok size chunk -> ring_fits size chunk.
Proof. intros (_ & _ & _ & ? & ?) [H1 H2]. split; [done|]. unfold longest in *. lia. Qed.

Lemma extract_delivered lo i size chunk s r b : config_ok c -> ring_fits size chunk -> ring_inv size s r ->
  Z.of_nat (length s) + burst_pre_len c < 2 ^ 64 -> ended c lo i b -> i + fft <= Z.of_nat (length s) ->
  Z.of_nat (length s) <= lo + fft + Z.of_nat chunk ->
  exists xs, ringbuf_extract r (ab_start b) (u64 (ab_stop b + burst_pre_len c)) = Some xs /\ (ring_ok size chunk -> delivered s (b, xs)).
Proof.
  intros (Hf & _ & Hpre & Hpost & Hmax) [H1 H2] Hr Hw (_ & Hs & Hlen & Hst) Hi Hlo.
  pose proof Hr as (_ & _ & _ & Hrs & _). unfold ringbuf_extract. rewrite u64_small by lia.
  rewrite (proj2 (Z.leb_gt _ _)) by (destruct (Z.ltb_spec (ab_start b) (ringbuf_start r)); lia). eexists. split; [reflexivity|].
  intros [_ H3]. rewrite (proj2 (Z.ltb_ge _ _)) by lia.
  unfold delivered. assert (exists a, ab_start b = Z.of_nat a) as [a Ea] by (exists (Z.to_nat (ab_start b)); lia). rewrite Ea, Nat2Z.id in *.
  set (len := Z.to_nat (ab_stop b + burst_pre_len c - Z.of_nat a)). set (last := Z.min (ab_stop b + burst_pre_len c) (Z.of_nat (length s))).
  destruct (ring_read_exact size s r a len (Z.to_nat (last - Z.of_nat a))) as [L E]; [lia|done|lia..|].
  split; [lia|]. split; [lia|]. split; [rewrite L; lia|]. rewrite E. f_equal. lia.
Qed.

(** Between two feeds: the detector has seen the complete frames of the stream,
    and has handed over the bursts they ended. *)
Definition fed (size : nat) (s : list A) (d : detector) (r : ring A) (out : list active_burst) : Prop :=
  ring_inv size s r /\
  let e := run_frames c log10f (detector_init c) (map frame_mag (stream_frames s)) in
  d = with_bursts e (bursts e) [] /\ out = gone_bursts e.

Lemma emit_delivered lo i size chunk s r gone : config_ok c -> ring_fits size chunk -> ring_inv size s r ->
  Z.of_nat (length s) + burst_pre_len c < 2 ^ 64 -> Forall (ended c lo i) gone -> i + fft <= Z.of_nat (length s) ->
  Z.of_nat (length s) <= lo + fft + Z.of_nat chunk ->
  exists out, omap (fun ab => pair ab <$> ringbuf_extract r (ab_start ab) (u64 (ab_stop ab + burst_pre_len c))) gone = out /\
    map fst out = gone /\ (ring_ok size chunk -> Forall (delivered s) out).
Proof.
  intros Hok Hro Hr Hw Hg Hi Hlo. induction Hg as [|b gone Hb _ (out & IH & Hm & Hf)]; [by exists []|].
  destruct (extract_delivered lo i size chunk s r b) as (xs & Hx & Hd); try done.
  exists ((b, xs) :: out). cbn. rewrite Hx. cbn. rewrite IH, Hm. auto.
Qed.

Lemma stream_inv lo s : config_ok c -> lo <= 0 -> Z.of_nat (length s) + burst_post_len c < 2 ^ 64 ->
  let k := Z.of_nat (length s / fft_size c) in
  det_inv c lo (k * fft - fft) (run_frames c log10f (detector_init c) (map frame_mag (stream_frames s))).
Proof.
  intros Hok Hlo Hw k. pose proof (Nat.Div0.mul_div_le (length s) (fft_size c)) as Hdm.
  pose proof (run_frames_inv c log10f lo (map frame_mag (stream_frames s)) Hok (- fft) (detector_init c)) as H.
  unfold stream_frames, frames_from in *. rewrite !length_map, length_seq in H.
  replace (k * fft - fft) with (- fft + k * fft) by lia. apply H; [done|lia|by apply init_inv|cbn [index detector_init]; nia].
Qed.

Lemma fed_inv size s d r out : config_ok c -> Z.of_nat (length s) + burst_post_len c < 2 ^ 64 -> fed size s d r out ->
  let k := Z.of_nat (length s / fft_size c) in det_inv c (k * fft) (k * fft - fft) d.
Proof.
  intros Hok Hw (_ & Hd & _) k. destruct (stream_inv 0 s Hok ltac:(lia) Hw) as (I1 & I2 & I3 & I4 & I5 & I6 & I7). fold k in I1, I3.
  rewrite Hd. unfold det_inv. cbn [with_bursts index burst_mask bursts gone_bursts history_index history_primed].
  split_and!; solve [done | constructor | apply I7].
Qed.

(** The frames a feed completes. *)
Definition new_frames (s x : list A) : list (list f32) :=
  let k := (length s / fft_size c)%nat in map frame_mag (frames_from (s ++ x) k (length (s ++ x) / fft_size c - k)).

Lemma fed_run size s d r out x : config_ok c -> fed size s d r out ->
  run_frames c log10f (detector_init c) (map frame_mag (stream_frames (s ++ x))) =
  with_gone out (run_frames c log10f d (new_frames s x)).
Proof.
  intros (Hf & _) (_ & Hd & Hout). rewrite frames_app, map_app, run_frames_app, <- run_with_gone by done. unfold new_frames. f_equal.
  rewrite Hout, Hd. unfold with_gone. cbn [with_bursts bursts gone_bursts]. rewrite app_nil_r. by destruct (run_frames _ _ _ _).
Qed.

(** After the frames of a feed: invariant, and the position reached. *)
Lemma feed_frames size s d r out x : config_ok c -> (fft_size c + length x <= size)%nat ->
  Z.of_nat (length (s ++ x)) + burst_post_len c + fft < 2 ^ 64 -> fed size s d r out ->
  let k := Z.of_nat (length s / fft_size c) in let k' := Z.of_nat (length (s ++ x) / fft_size c) in
  let r' := feed_ring r x in let d' := run_frames c log10f d (new_frames s x) in
  ring_inv size (s ++ x) r' /\ process_frames (Z.to_nat (sample_count r' - index d)) d r' = d' /\
  det_inv c (k * fft) (k' * fft - fft) d'.
Proof.
  intros Hok Hsz Hw Hfed. pose proof Hok as (Hf & _ & _ & Hpost & _). pose proof Hfed as (Hr & _ & _).
  assert (length s <= length (s ++ x) <= length s + length x)%nat as Hl by (rewrite length_app; lia).
  pose proof (fed_inv size s d r out Hok ltac:(lia) Hfed) as Hinv. pose proof Hinv as [Hidx _].
  pose proof (feed_inv size s r x ltac:(lia) ltac:(lia) ltac:(lia) Hr) as Hr'. pose proof Hr' as (_ & _ & Hc & _).
  pose proof (Nat.div_mod_eq (length s) (fft_size c)). pose proof (Nat.mod_upper_bound (length s) (fft_size c) ltac:(lia)).
  pose proof (Nat.Div0.mul_div_le (length (s ++ x)) (fft_size c)).
  assert (length s / fft_size c <= length (s ++ x) / fft_size c)%nat as Hle by (apply Nat.Div0.div_le_mono; lia).
  cbn zeta. unfold new_frames. set (k := (length s / fft_size c)%nat) in *. set (k' := (length (s ++ x) / fft_size c)%nat) in *.
  split; [done|]. split.
  - rewrite Hc. apply (process_run (Z.of_nat k * fft) size (s ++ x)) with (i := Z.of_nat k * fft - fft); try done; try lia. fold k'. nia.
  - pose proof (run_frames_inv c log10f (Z.of_nat k * fft) (map frame_mag (frames_from (s ++ x) k (k' - k))) Hok (Z.of_nat k * fft - fft) d ltac:(lia) ltac:(lia) Hinv) as H'.
    unfold frames_from in *. rewrite !length_map, length_seq in H'.
    replace (Z.of_nat k' * fft - fft) with (Z.of_nat k * fft - fft + Z.of_nat (k' - k) * fft) by (rewrite Nat2Z.inj_sub by lia; ring). apply H'. nia.
Qed.

Lemma fed_shape size chunk s d r out x : config_ok c -> ring_fits size chunk -> (length x <= chunk)%nat -> fed size s d r out -> ring_shape (feed_ring r x).
Proof.
  intros (Hf & _ & Hpre & Hpost & Hmax) [Hz1 Hz2] Hx [(Hl & Hp & _) _]. unfold longest in *.
  apply feed_shape; [|lia]. unfold ring_shape. rewrite Hl, Hp. pose proof (Nat.mod_upper_bound (length s) size ltac:(lia)). lia.
Qed.

Lemma feed_step gpu size chunk s d r out x : gpu_framewise gpu -> config_ok c -> ring_fits size chunk -> (length x <= chunk)%nat ->
  Z.of_nat (length (s ++ x)) + burst_pre_len c + burst_post_len c + fft < 2 ^ 64 -> fed size s d r out ->
  exists d' r' new, burst_detector_feed gpu d r x = (d', r', new) /\
    fed size (s ++ x) d' r' (out ++ map fst new) /\ (ring_ok size chunk -> Forall (delivered (s ++ x)) new).
Proof.
  intros Hgpu Hok Hro Hx Hw Hfed. pose proof Hok as (Hf & _ & Hpre & Hpost & Hmax). pose proof Hro as [Hz1 Hz2].
  rewrite feed_gpu by (done || by eapply fed_shape).
  assert (0 < longest c) by (unfold longest; lia).
  destruct (feed_frames size s d r out x Hok ltac:(lia) ltac:(lia) Hfed) as (Hr' & Hrun & Hinv).
  pose proof (fed_run size s d r out x Hok Hfed) as He. unfold burst_detector_feed. rewrite Hrun.
  set (d' := run_frames c log10f d (new_frames s x)) in *. clearbody d'. destruct Hinv as (_ & _ & _ & _ & _ & Hg & _).
  pose proof (Nat.div_mod_eq (length s) (fft_size c)). pose proof (Nat.mod_upper_bound (length s) (fft_size c) ltac:(lia)).
  pose proof (Nat.Div0.mul_div_le (length (s ++ x)) (fft_size c)).
  destruct (emit_delivered _ _ size chunk (s ++ x) (feed_ring r x) (gone_bursts d') Hok Hro Hr' ltac:(lia) Hg)
    as (new & Hn & Hm & Hdl); [lia|rewrite length_app; lia|].
  exists (with_bursts d' (bursts d') []), (feed_ring r x), new. split; [|split; [split; [done|]|done]].
  - unfold emit_if_gone, emit_gone_bursts. rewrite Hn. destruct (Nat.ltb_spec 0 (length (gone_bursts d'))) as [|Hz]; [done|].
    destruct (gone_bursts d') eqn:Eg; [|cbn in Hz; lia]. apply map_eq_nil in Hm as ->. rewrite <- Eg. by destruct d'.
  - rewrite He, Hm. split; done.
Qed.

Lemma feed_all_spec gpu size chunk chunks : gpu_framewise gpu -> config_ok c -> ring_fits size chunk -> Forall (fun x => (length x <= chunk)%nat) chunks ->
  forall s d r out, Z.of_nat (length (s ++ List.concat chunks)) + burst_pre_len c + burst_post_len c + fft < 2 ^ 64 -> fed size s d r out ->
  exists d' r' new, feed_all gpu d r chunks = (d', r', new) /\
    fed size (s ++ List.concat chunks) d' r' (out ++ map fst new) /\
    (ring_ok size chunk -> Forall (fun p => exists k, delivered (s ++ List.concat (take k chunks)) p) new).
Proof.
  intros Hgpu Hok Hro Hc. induction Hc as [|x chunks Hx _ IH]; intros s d r out Hw Hfed; cbn [feed_all List.concat] in *.
  - exists d, r, []. cbn. rewrite !app_nil_r. auto.
  - rewrite app_assoc in *. assert (length (s ++ x) <= length ((s ++ x) ++ List.concat chunks))%nat by (rewrite (length_app (s ++ x)); lia).
    destruct (feed_step gpu size chunk s d r out x) as (d1 & r1 & n1 & E1 & F1 & D1); [done..|lia|done|].
    destruct (IH (s ++ x) d1 r1 _ Hw F1) as (d2 & r2 & n2 & E2 & F2 & D2). rewrite E1, E2.
    exists d2, r2, (n1 ++ n2). split; [done|]. rewrite map_app, app_assoc. split; [done|].
    intros Hr. apply Forall_app. split; (eapply Forall_impl; [by (apply D1 || apply D2)|]).
    + intros p Hp. exists 1%nat. cbn [take List.concat]. by rewrite app_nil_r.
    + intros p [k Hp]. exists (S k). cbn [take List.concat]. by rewrite app_assoc.
Qed.

Lemma fed_init junk : config_ok c -> (0 < length junk)%nat -> fed (length junk) [] (detector_init c) (ring_init junk) [].
Proof. intros (Hf & _) Hj. split; [by apply ring_init_inv|]. unfold stream_frames. cbn [length]. by rewrite Nat.Div0.div_0_l. Qed.
End feed.

(** * A small run *)

(** Sixteen bins, two frames of history; a sample stands for the magnitude of
    its bin. *)
Definition small_config (pre : Z) : burst_config := BurstConfig 16 pre 32 2 4 200 (f32_of_Z 10) 2 1000.
Definition quiet : list f32 := replicate 16 f32_one.
Definition tone : list f32 := <[3%nat := f32_of_Z 100]> quiet.
(** Priming, a tone for one frame, and silence; cut into chunks of 20. *)
Definition small_stream : list f32 := quiet ++ quiet ++ tone ++ quiet ++ quiet ++ quiet.
Definition small_chunks : list (list f32) := map (fun i => slice small_stream (i * 20) (Nat.min 96 (i * 20 + 20))) (seq 0 5).
Definition small_junk (c : burst_config) : list f32 := replicate (Z.to_nat (ringbuf_size c)) S754_nan.

(** The defaults at 10 MS/s: the ring holds every burst for chunks of up to
    256 Ki samples. *)
Lemma default_config_ok powf :
  let c := burst_detector_create (fun _ => 13) powf (BurstConfigT 10000000 0 0 0 0 0 0 f32_zero 0) in
  Z.of_nat (fft_size c) = 8192 /\ burst_width c = 32%nat /\ max_bursts c = 200%nat /\
  config_ok c /\ ring_ok c (Z.to_nat (ringbuf_size c)) (Z.to_nat 262144).
Proof.
  intros c.
  assert (Z.of_nat (fft_size c) = 8192 /\ burst_pre_len c = 16384 /\ burst_post_len c = 160000 /\ max_burst_len c = 900000 /\
    Z.of_nat (history_size c) = 512 /\ Z.of_nat (burst_width c) = 32 /\ Z.of_nat (max_bursts c) = 200) as (E1 & E2 & E3 & E4 & E5 & E6 & E7)
    by (vm_compute; auto 10).
  clearbody c. unfold config_ok, ring_ok, longest, ringbuf_size, ringbuf_minimum. rewrite E1, E2, E3, E4, E5.
  rewrite !Z2Nat.id by (vm_compute; done).
  split; [done|]. split; [lia|]. split; [lia|]. split; [lia|]. vm_compute. split; discriminate.
Qed.

(** The ring of the program and the blocks it reads: 32768 samples. *)
Definition own_ring (c : burst_config) : nat := Z.to_nat (ringbuf_size c).
Definition own_block : nat := Z.to_nat 32768.
Definition rate_config (powf : f32 -> f32 -> f32) (rate log2 : Z) : burst_config :=
  burst_detector_create (fun _ => log2) powf (BurstConfigT rate 0 0 0 0 0 0 f32_zero 0).

Lemma own_ring_numbers c fft pre post maxlen hist : Z.of_nat (fft_size c) = fft -> burst_pre_len c = pre -> burst_post_len c = post ->
  max_burst_len c = maxlen -> Z.of_nat (history_size c) = hist -> 0 < fft -> 0 < hist -> 0 < pre <= hist * fft -> 0 <= post -> 0 < maxlen ->
  pre <= maxlen + post -> let size := maxlen + post + pre + (maxlen + post + pre) / 4 in
  maxlen + post + fft + pre <= size -> fft + 32768 <= size ->
  config_ok c /\ ring_fits c (own_ring c) own_block /\ (maxlen + post + 2 * fft + 32768 <= size <-> ring_ok c (own_ring c) own_block).
Proof.
  intros <- <- <- <- <- H1 H2 H3 H4 H5 H6 size H7 H8. unfold config_ok, ring_fits, ring_ok, own_ring, own_block, longest, ringbuf_size, ringbuf_minimum.
  fold size. rewrite !Z2Nat.id by lia. rewrite Z.max_l by lia. lia.
Qed.

Ltac ring_numbers c :=
  destruct (own_ring_numbers c _ _ _ _ _ eq_refl eq_refl eq_refl eq_refl eq_refl) as (Hc & Hf & Hr); [try (split; vm_compute; congruence); vm_compute; congruence..|].

(** At the usual sample rates the ring suffices; below about 1.3 MS/s it is too
    small for the longest bursts: a block read in between overwrites their
    beginning. *)
Lemma default_rings powf : Forall (fun '(rate, log2) => let c := rate_config powf rate log2 in
    config_ok c /\ ring_fits c (own_ring c) own_block /\ ring_ok c (own_ring c) own_block)
  [(1400000, 10); (2000000, 11); (2400000, 11); (3200000, 12); (4000000, 12); (5000000, 12); (6000000, 13); (8000000, 13); (10000000, 13); (12000000, 14); (20000000, 14)].
Proof. repeat (apply Forall_cons; split; [intros c; ring_numbers c; split; [exact Hc|split; [exact Hf|refine (proj1 Hr _); vm_compute; congruence]]|]). apply Forall_nil_2. Qed.

Lemma low_rate_ring powf : let c := rate_config powf 1000000 10 in
  config_ok c /\ ring_fits c (own_ring c) own_block /\ ~ ring_ok c (own_ring c) own_block.
Proof. intros c. ring_numbers c. split; [exact Hc|split; [exact Hf|]]. intros H. refine (_ (proj2 Hr H)). vm_compute. congruence. Qed.

(** A plugin for batches of two frames. *)
Definition small_gpu : @gpu_plugin f32 := GpuPlugin 2 (fun batch => Some (map id batch)).
(** One that fails on a frame with the tone. *)
Definition failing_gpu : @gpu_plugin f32 :=
  GpuPlugin 1 (fun batch => if existsb (fun x => negb (f32_ltb (x !!! 3%nat) (f32_of_Z 50))) batch then None else Some batch).

Lemma small_gpu_framewise : gpu_framewise (small_config 16) id (Some small_gpu).
Proof. split; [cbn; lia|done]. Qed.

Lemma small_config_ok : config_ok (small_config 16).
Proof. unfold config_ok. cbn. lia. Qed.

Lemma small_ring_ok : ring_ok (small_config 16) (length (small_junk (small_config 16))) 20.
Proof. unfold ring_ok. vm_compute. by split. Qed.

Lemma small_chunks_short : Forall (fun x => (length x <= 20)%nat) small_chunks.
Proof. repeat constructor; vm_compute; lia. Qed.

(** With a tail of two frames, the default, a burst that ends in the last frame
    of a chunk is handed over with a frame of samples that were never
    received. *)
Lemma tail_not_received : let c := small_config 32 in
  let '(_, _, out) := feed_all c id id None (detector_init c) (ring_init (small_junk c)) [take 64 small_stream] in
  map (fun p => (ab_stop (fst p), drop 64 (snd p))) out = [(48, replicate 16 S754_nan)].
Proof. vm_compute. reflexivity. Qed.

(** A batch the plugin fails on does not move the position: the frames after it
    in the same chunk are taken to start one frame early, and the last of them
    is read again with the next chunk. *)
Lemma gpu_failure_lags : let c := small_config 16 in
  let '(d, r, _) := feed_all c id id (Some failing_gpu) (detector_init c) (ring_init (small_junk c)) [small_stream] in
  sample_count r = 96 /\ index d = 80.
Proof. vm_compute. auto. Qed.

(** A chunk of more than twice the ring is written past its end. *)
Lemma oversized_write {A} (r : ring A) x : (ringbuf_pos r <= length (ringbuf r))%nat ->
  (2 * length (ringbuf r) < length x)%nat -> (length (ringbuf r) < length (ringbuf (ringbuf_write r x)))%nat.
Proof.
  intros Hp Hx. unfold ringbuf_write. rewrite (proj2 (Nat.leb_gt _ _)) by lia. cbn [ringbuf].
  rewrite length_app, !length_drop, length_app, !length_take. lia.
Qed.

(** [ringbuf_start] does not count the chunk being written: after chunks of 8
    and 4 in a ring of 8, samples 0 to 3 are taken for available, and samples
    8 to 11 are returned for them. *)
Lemma start_lags : let r := feed_ring (feed_ring (ring_init (replicate 8 0%nat)) (seq 0 8)) (seq 8 4) in
  ringbuf_start r = 0 /\ ringbuf_extract r 0 8 = Some [8; 9; 10; 11; 4; 5; 6; 7]%nat.
Proof. vm_compute. auto. Qed.

(** * Properties *)

(** C23 (invariant).  After any frames from the initial state: active bursts keep
    apart, away from the band edges and DC, within the hysteresis and length
    limit, at most [max_bursts] of them; the mask is the one they define; ended
    bursts are well-formed and at most [longest] samples long. *)
Theorem bursts_tracked c log10f frames : config_ok c ->
  Z.of_nat (length frames) * Z.of_nat (fft_size c) + burst_post_len c < 2 ^ 64 ->
  let d := run_frames c log10f (detector_init c) frames in
  let last := Z.of_nat (length frames) * Z.of_nat (fft_size c) - Z.of_nat (fft_size c) in
  StronglySorted (apart c) (bursts d) /\ Forall (alive c last) (bursts d) /\
  ((0 < max_bursts c)%nat -> (length (bursts d) <= max_bursts c)%nat) /\
  burst_mask d = fresh_mask c (bursts d) /\ Forall (ended c 0 last) (gone_bursts d).
Proof.
  intros Hok Hw d last.
  pose proof (run_frames_inv c log10f 0 frames Hok (- Z.of_nat (fft_size c)) (detector_init c) ltac:(done) ltac:(lia)
    (init_inv c 0 Hok) ltac:(cbn; lia)) as (_ & Hm & Ha & Hs & Hn & Hg & _).
  fold d in Hm, Ha, Hs, Hn, Hg. replace (- Z.of_nat (fft_size c) + Z.of_nat (length frames) * Z.of_nat (fft_size c)) with last in * by lia.
  done.
Qed.

Lemma bursts_tracked_witness : let d := run_frames (small_config 16) id (detector_init (small_config 16)) [quiet; quiet; tone] in
  map ab_center_bin (bursts d) = [3%nat] /\ Forall (alive (small_config 16) 32) (bursts d).
Proof.
  split; [vm_compute; reflexivity|]. apply (bursts_tracked (small_config 16) id [quiet; quiet; tone]); [apply small_config_ok|vm_compute; reflexivity].
Defined.

(** C10 (equivalence).  However the stream is cut into chunks of at most [chunk]
    samples, the bursts handed to the callback are, in order and once each, those
    ended by a run over the complete frames of the stream, and the bursts still
    active agree.  The ring must have room for the longest burst with its tail and
    for a frame and a chunk.  In batches on a GPU it is the same, with the
    magnitudes of the GPU, as long as none of its calls fails and the magnitudes
    of a frame depend on that frame only. *)
Theorem bursts_delivered c log10f {A} (frame_mag : list A -> list f32) gpu junk chunk chunks : gpu_framewise c frame_mag gpu -> config_ok c -> ring_fits c (length junk) chunk ->
  Forall (fun x => (length x <= chunk)%nat) chunks ->
  Z.of_nat (length (List.concat chunks)) + burst_pre_len c + burst_post_len c + Z.of_nat (fft_size c) < 2 ^ 64 ->
  let '(d, _, out) := feed_all c log10f frame_mag gpu (detector_init c) (ring_init junk) chunks in
  let e := run_frames c log10f (detector_init c) (map frame_mag (stream_frames c (List.concat chunks))) in
  map fst out = gone_bursts e /\ bursts d = bursts e /\ index d = index e.
Proof.
  intros Hgpu Hok Hro Hc Hw. assert (0 < length junk)%nat by (destruct Hok as (? & _), Hro; lia).
  destruct (feed_all_spec c log10f frame_mag gpu (length junk) chunk chunks Hgpu Hok Hro Hc [] (detector_init c) (ring_init junk) []
    Hw (fed_init c log10f frame_mag junk Hok ltac:(done))) as (d & r & out & -> & (_ & -> & Hout) & _).
  cbn [app] in Hout |- *. by rewrite Hout.
Qed.

Lemma bursts_delivered_witness :
  let '(d, _, out) := feed_all (small_config 16) id id (Some small_gpu) (detector_init (small_config 16)) (ring_init (small_junk (small_config 16))) small_chunks in
  map (fun p => ab_start (fst p)) out = [16] /\
  map fst out = gone_bursts (run_frames (small_config 16) id (detector_init (small_config 16)) (map id (stream_frames (small_config 16) (List.concat small_chunks)))).
Proof.
  pose proof (bursts_delivered (small_config 16) id id (Some small_gpu) (small_junk (small_config 16)) 20 small_chunks small_gpu_framewise small_config_ok
    (ring_ok_fits _ _ _ small_config_ok small_ring_ok) small_chunks_short ltac:(vm_compute; reflexivity)) as H.
  destruct (feed_all _ _ _ _ _ _ _) as [[d r] out] eqn:E. destruct H as [H _]. split; [|exact H].
  apply (f_equal (fun p => map (fun p => ab_start (fst p)) (snd p))) in E. cbn [snd] in E. rewrite <- E. vm_compute. reflexivity.
Defined.

(**  Each burst is handed over with as many samples as its span
    and tail, as received as far as the stream had been read then, at least a
    frame past the end of the burst. *)
Theorem burst_samples_exact c log10f {A} (frame_mag : list A -> list f32) gpu junk chunk chunks : gpu_framewise c frame_mag gpu -> config_ok c -> ring_ok c (length junk) chunk ->
  Forall (fun x => (length x <= chunk)%nat) chunks ->
  Z.of_nat (length (List.concat chunks)) + burst_pre_len c + burst_post_len c + Z.of_nat (fft_size c) < 2 ^ 64 ->
  let '(_, _, out) := feed_all c log10f frame_mag gpu (detector_init c) (ring_init junk) chunks in
  Forall (fun p => exists k, delivered c (List.concat (take k chunks)) p) out.
Proof.
  intros Hgpu Hok Hro Hc Hw. pose proof (ring_ok_fits c _ _ Hok Hro) as Hfit. assert (0 < length junk)%nat by (destruct Hok as (? & _), Hfit; lia).
  destruct (feed_all_spec c log10f frame_mag gpu (length junk) chunk chunks Hgpu Hok Hfit Hc [] (detector_init c) (ring_init junk) []
    Hw (fed_init c log10f frame_mag junk Hok ltac:(done))) as (d & r & out & -> & _ & Hd). by apply Hd.
Qed.

Lemma burst_samples_exact_witness :
  let '(_, _, out) := feed_all (small_config 16) id id (Some small_gpu) (detector_init (small_config 16)) (ring_init (small_junk (small_config 16))) small_chunks in
  map snd out = [slice small_stream 16 64] /\ Forall (fun p => exists k, delivered (small_config 16) (List.concat (take k small_chunks)) p) out.
Proof.
  pose proof (burst_samples_exact (small_config 16) id id (Some small_gpu) (small_junk (small_config 16)) 20 small_chunks small_gpu_framewise small_config_ok small_ring_ok
    small_chunks_short ltac:(vm_compute; reflexivity)) as H.
  destruct (feed_all _ _ _ _ _ _ _) as [[d r] out] eqn:E. split; [|exact H].
  apply (f_equal (fun p => map snd (snd p))) in E. cbn [snd] in E. rewrite <- E. vm_compute. reflexivity.
Defined.
