(* ===== verification/Capture.v ===== *)
(** From a recording to frames: the file reader of [src/main.c] (with the
    subscriber that takes samples from a socket), the conversion of sample
    buffers in [src/burst_detect.c], and the chain of detector, downmixer and
    demodulator that the threads of the program form.

    Between two threads is a queue that keeps the order ([BlockingQueue.v]), so a
    stage works on the list of what the stage before it produced.  [fft] is the
    transform of FFTW. *)
From S2P Require Import Prelude CFloat CRound CCanon CComplex QpskDemod Demod DemodSpec Kernels Simd BurstDownmix Vita49 BurstDetect.
#[local] Open Scope Z_scope.

(** * Sample input *)

(** Bytes per sample. *)
Definition iq_bytes (f : iq_format_t) : nat := match f with FMT_CI8 => 2 | FMT_CI16 => 4 | FMT_CF32 => 8 end.

(** The little-endian 16-bit and 32-bit words of a buffer. *)
Definition le16 (b : list Z) (off : nat) : Z := to_signed 16 (Z.lor (b.[off]) (Z.shiftl (b.[S off]) 8)).
Definition le32 (b : list Z) (off : nat) : Z :=
  Z.lor (Z.lor (b.[off]) (Z.shiftl (b.[S off]) 8)) (Z.lor (Z.shiftl (b.[S (S off)]) 16) (Z.shiftl (b.[S (S (S off))]) 24)).

(** The buffer of [r] samples read in a format. *)
Definition decode_block (f : iq_format_t) (r : nat) (b : list Z) : samples_t :=
  match f with
  | FMT_CI8 => SAMPLE_FMT_INT8 (map (fun i => to_signed 8 (b.[i])) (seq 0 (2 * r)))
  | FMT_CI16 => SAMPLE_FMT_INT8 (map (fun i => to_signed 8 (Z.shiftr (le16 b (2 * i)) 8)) (seq 0 (2 * r)))
  | FMT_CF32 => SAMPLE_FMT_FLOAT (map (fun i => le32 b (4 * i)) (seq 0 (2 * r)))
  end.

Definition block : nat := Z.to_nat 32768.

Lemma block_pos : (0 < block)%nat.
Proof. apply (Z2Nat.inj_lt 0 32768); done. Qed.
Lemma block_value : Z.of_nat block = 32768.
Proof. by apply Z2Nat.id. Qed.
#[global] Opaque block.

(** [spewer_thread]: [fread] gives whole samples, fewer than a block only at the
    end of the file. *)
Fixpoint spewer_thread (fuel : nat) (f : iq_format_t) (file : list Z) : option (list sample_buf) :=
  let r := Nat.min block (length file / iq_bytes f) in
  if (r =? 0)%nat then Some []
  else match fuel with
       | O => None
       | S fuel => rest ← spewer_thread fuel f (drop (r * iq_bytes f) file); Some (SampleBuf r (decode_block f r file) :: rest)
       end.

(** The loop of [zmq_sub_thread], for one message. *)
Definition zmq_message (f : iq_format_t) (data : list Z) : option sample_buf :=
  let num_samples := (length data / iq_bytes f)%nat in
  if (num_samples =? 0)%nat then None else Some (SampleBuf num_samples (decode_block f num_samples data)).

(** [push_samples]: the counter, and the buffer unless the queue is full. *)
Definition push_samples (full : bool) (buf : sample_buf) (stat_sample_count : Z) : Z * option sample_buf :=
  (u64 (stat_sample_count + Z.of_nat (sb_num buf)), if full then None else Some buf).

(** * Conversion *)

(** A [float] from its 32 bits. *)
Definition f32_of_bits (w : Z) : f32 :=
  let s := Z.testbit w 31 in
  let e := Z.land (Z.shiftr w 23) 255 in
  let m := Z.land w (2 ^ 23 - 1) in
  if e =? 255 then (if m =? 0 then S754_infinity s else S754_nan)
  else if e =? 0 then (match m with Z.pos p => S754_finite s p (-149) | _ => S754_zero s end)
  else (match m + 2 ^ 23 with Z.pos p => S754_finite s p (e - 150) | _ => S754_nan end).

(** [burst_detector_feed_cf32] and [burst_detector_feed]: the samples written to
    the ring. *)
Definition feed_samples (K : kernels) (buf : sample_buf) : list c32 :=
  match sb_samples buf with
  | SAMPLE_FMT_FLOAT w => map (fun i => c_of_parts (f32_of_bits (w.[(2 * i)%nat])) (f32_of_bits (w.[(2 * i + 1)%nat]))) (seq 0 (sb_num buf))
  | SAMPLE_FMT_INT8 iq => simd_convert_i8_cf K iq (sb_num buf)
  end.

(** * The chain *)

Section chain.
Context (K : kernels) (fft_forward fft_backward : list c32 -> list c32) (window : list f32).
Context (sinf cosf log10f : f32 -> f32) (atan2f hypotf : f32 -> f32 -> f32) (cexpf : c32 -> c32).
Context (c : burst_config) (center_frequency : f64) (start_time_ns : Z).

(** [process_fft_frame]: the shifted magnitudes of a frame. *)
Definition frame_magnitudes (samples : list c32) : list f32 :=
  simd_fftshift_mag K (fft_forward (simd_window_cf K samples window (fft_size c))) (fft_size c).

(** [emit_gone_bursts]: the record built for the callback. *)
Definition to_burst_data (p : active_burst * list c32) : burst_data :=
  let ab := fst p in
  BurstData (BurstInfo (ab_id ab) (ab_start ab) (ab_stop ab) (ab_last_active ab) (Z.of_nat (ab_center_bin ab)) (ab_magnitude ab) (ab_noise ab))
    center_frequency (sample_rate c) (Z.of_nat (fft_size c)) start_time_ns (snd p).

(** [burst_detector_thread] on the buffers in order; [junk] is what the ring
    held. *)
Definition burst_detector_thread (junk : list c32) (bufs : list sample_buf) : list burst_data :=
  let '(_, _, out) := feed_all c log10f frame_magnitudes None (detector_init c) (ring_init junk) (map (feed_samples K) bufs) in
  map to_burst_data out.

(** The demodulator on the frames in order; [None] when it leaves its buffers or
    does not end. *)
Fixpoint demod_all (o : demod_options) (work_capacity : Z) (frames : list downmix_frame) : option (list demod_frame) :=
  match frames with
  | [] => Some []
  | f :: rest =>
      match qpsk_demod cosf sinf atan2f hypotf false (fun _ => false) o work_capacity f with
      | DemodReturns work_capacity _ _ out =>
          l ← demod_all o work_capacity rest; Some (match out with Some d => d :: l | None => l end)
      | _ => None
      end
  end.

(** One downmix worker, no queue full. *)
Definition downmixed_frames (junk : list c32) (f : iq_format_t) (file : list Z) : option (list downmix_frame) :=
  bufs ← spewer_thread (length file) f file;
  let dm := burst_downmix_create K fft_forward sinf cosf (Some default_config) in
  '(frames, _) ← burst_downmix_thread K fft_forward fft_backward hypotf cexpf dm (burst_detector_thread junk bufs) [];
  Some frames.
Definition receive_file (o : demod_options) (junk : list c32) (f : iq_format_t) (file : list Z) : option (list demod_frame) :=
  frames ← downmixed_frames junk f file;
  demod_all o 0 frames.
End chain.

(** The number of downmix workers [main] starts. *)
Definition downmix_workers (requested ncpu : Z) : Z :=
  let n := if requested <=? 0 then (if 8 <=? ncpu then 4 else if 4 <=? ncpu then 2 else 1) else requested in
  if 32 <? n then 32 else n.

Lemma downmix_workers_range requested ncpu : 1 <= downmix_workers requested ncpu <= 32.
Proof. unfold downmix_workers. zguards. Qed.

(** * The recording as samples *)

(** The sample number [i] of a recording. *)
Definition sample_at (f : iq_format_t) (file : list Z) (i : nat) : c32 :=
  let q z := f32_div (f32_of_Z z) (f32_of_Z 128) in
  match f with
  | FMT_CI8 => C32 (q (to_signed 8 (file.[(2 * i)%nat]))) (q (to_signed 8 (file.[S (2 * i)])))
  | FMT_CI16 => C32 (q (to_signed 8 (Z.shiftr (le16 file (4 * i)) 8))) (q (to_signed 8 (Z.shiftr (le16 file (4 * i + 2)) 8)))
  | FMT_CF32 => c_of_parts (f32_of_bits (le32 file (8 * i))) (f32_of_bits (le32 file (8 * i + 4)))
  end.
Definition file_samples (f : iq_format_t) (file : list Z) : list c32 := map (sample_at f file) (seq 0 (length file / iq_bytes f)).

(** A kernel table converts bytes exactly. *)
Class ConvertExact (K : kernels) : Prop :=
  convert_exact iq n : Forall (fun b => -128 <= b < 128) iq -> simd_convert_i8_cf K iq n = generic_convert_i8_cf iq n.

#[export] Instance generic_convert_exact : ConvertExact generic_kernels.
Proof. by intros iq n _. Qed.
#[export] Instance sse42_convert_exact : ConvertExact sse42_kernels.
Proof.
  intros iq n H. cbn [simd_convert_i8_cf sse42_kernels]. unfold blank. rewrite sse42_convert_i8_cf_eq by (done || by rewrite length_replicate).
  by rewrite drop_ge, app_nil_r, unflat_flat by (rewrite length_replicate; lia).
Qed.

(** * Reading is faithful *)

Lemma rd_drop (l : list Z) k i : (drop k l).[i] = l.[(k + i)%nat].
Proof. unfold rd. by rewrite nth_skipn. Qed.

Lemma to_signed8_range x : -128 <= to_signed 8 x < 128.
Proof. unfold to_signed. pose proof (Z.mod_pos_bound x (2 ^ 8) ltac:(lia)). change (2 ^ (8 - 1)) with 128. change (2 ^ 8) with 256 in *. zguards. Qed.

Lemma sample_at_drop f file k i : sample_at f (drop (k * iq_bytes f) file) i = sample_at f file (k + i).
Proof.
  unfold sample_at, le16, le32. destruct f; cbn [iq_bytes]; rewrite !rd_drop; repeat (f_equal; try lia).
Qed.

Lemma map_seq_total {B} `{Inhabited B} (g : nat -> B) n i : (i < n)%nat -> map g (seq 0 n) !!! i = g i.
Proof. intros Hi. apply list_lookup_total_correct. by rewrite list_lookup_fmap, lookup_seq_lt by done. Qed.
Lemma map_seq_rd (g : nat -> Z) n i : (i < n)%nat -> (map g (seq 0 n)).[i] = g i.
Proof. intros Hi. unfold rd. rewrite (nth_indep _ 0 (g 0%nat)) by by rewrite length_map, length_seq. by rewrite map_nth, seq_nth. Qed.

Lemma feed_block K f r file : ConvertExact K -> feed_samples K (SampleBuf r (decode_block f r file)) = map (sample_at f file) (seq 0 r).
Proof.
  intros HK. unfold feed_samples, decode_block. cbn [sb_samples sb_num].
  assert (forall g : nat -> Z, (forall i, -128 <= g i < 128) -> simd_convert_i8_cf K (map g (seq 0 (2 * r))) r =
    map (fun i => C32 (f32_div (f32_of_Z (g (2 * i)%nat)) (f32_of_Z 128)) (f32_div (f32_of_Z (g (S (2 * i)))) (f32_of_Z 128))) (seq 0 r)) as Hi8.
  { intros g Hg. rewrite convert_exact by (apply Forall_map, Forall_true; intros; apply Hg). unfold generic_convert_i8_cf. apply map_ext_in.
    intros i Hi%in_seq. rewrite !map_seq_total by lia. replace (2 * i + 1)%nat with (S (2 * i)) by lia. by apply byte_parts. }
  destruct f.
  - rewrite Hi8 by (intros; apply to_signed8_range). by apply map_ext.
  - rewrite (Hi8 (fun i => to_signed 8 (Z.shiftr (le16 file (2 * i)) 8))) by (intros; apply to_signed8_range). apply map_ext. intros i. unfold sample_at.
    by replace (2 * (2 * i))%nat with (4 * i)%nat by lia; replace (2 * S (2 * i))%nat with (4 * i + 2)%nat by lia.
  - apply map_ext_in. intros i Hi%in_seq. rewrite !map_seq_rd by lia. unfold sample_at.
    by replace (4 * (2 * i))%nat with (8 * i)%nat by lia; replace (4 * (2 * i + 1))%nat with (8 * i + 4)%nat by lia.
Qed.

(** The reader gets to the end of the file, in blocks of at most 32768 samples,
    and loses none of them. *)
Lemma spewer_reads K f fuel : ConvertExact K -> forall file, (length file <= fuel)%nat -> exists bufs, spewer_thread fuel f file = Some bufs /\
  List.concat (map (feed_samples K) bufs) = file_samples f file /\ Forall (fun b => (length (feed_samples K b) <= block)%nat) bufs.
Proof.
  intros HK. assert (0 < iq_bytes f)%nat as Hb by (destruct f; cbn; lia). pose proof block_pos as Hbl.
  induction fuel as [|fuel IH]; intros file Hf; cbn [spewer_thread]; set (r := Nat.min block (length file / iq_bytes f)).
  { assert (length file = 0)%nat as E by lia. destruct file; [|done]. exists []. by destruct f. }
  destruct (Nat.eqb_spec r 0) as [E|E].
  - exists []. split; [done|]. split; [|done]. unfold file_samples. by replace (length file / iq_bytes f)%nat with 0%nat by lia.
  - set (rest := drop (r * iq_bytes f) file). pose proof (Nat.Div0.mul_div_le (length file) (iq_bytes f)) as Hd.
    assert (r * iq_bytes f <= length file)%nat as Hr by (unfold r; nia). assert (r <= block)%nat as Hrb by (unfold r; lia). clearbody r.
    assert (length rest = length file - r * iq_bytes f)%nat as Hl by (unfold rest; apply length_drop).
    destruct (IH rest ltac:(nia)) as (bufs & -> & Hc & Hs). eexists. split; [reflexivity|]. cbn [map List.concat]. rewrite feed_block by done. split.
    + rewrite Hc. unfold file_samples, rest.
      assert (length file / iq_bytes f = r + length (drop (r * iq_bytes f) file) / iq_bytes f)%nat as ->.
      { fold rest. rewrite Hl. replace (length file) with ((length file - r * iq_bytes f) + r * iq_bytes f)%nat at 1 by lia.
        rewrite Nat.div_add by lia. lia. }
      rewrite seq_app, map_app. f_equal. rewrite (seq_shift_n (0 + r)), map_map. apply map_ext. intros i. by rewrite sample_at_drop.
    + constructor; [|done]. rewrite feed_block, length_map, length_seq by done. lia.
Qed.

Lemma f32_of_bits_canonical w : canonical32 (f32_of_bits w).
Proof.
  unfold f32_of_bits. change (2 ^ 23 - 1) with (Z.ones 23). change (Z.land (Z.shiftr w 23) 255) with (Z.land (Z.shiftr w 23) (Z.ones 8)).
  rewrite !Z.land_ones by lia. change (2 ^ 8) with 256. change (2 ^ 23) with 8388608.
  pose proof (Z.mod_pos_bound (Z.shiftr w 23) 256 ltac:(lia)) as He. pose proof (Z.mod_pos_bound w 8388608 ltac:(lia)) as Hm.
  set (e := _ mod 256) in *. set (m := w mod 8388608) in *. clearbody e m.
  destruct (Z.eqb_spec e 255); [by destruct (m =? 0)|]. destruct (Z.eqb_spec e 0); [destruct m as [|p|p] eqn:Em|destruct (m + 8388608) as [|p|p] eqn:Em];
    try done; cbn [canonical]; unfold representable; change (2 ^ 24) with 16777216; change (2 ^ (24 - 1)) with 8388608; lia.
Qed.

Lemma file_samples_canon f file : Forall c_canon (file_samples f file).
Proof.
  apply Forall_map_seq. intros i. unfold sample_at. destruct f; [split; cbn; auto with canon..|]. auto using f32_of_bits_canonical with canon.
Qed.

(** * The chain does not fail *)

Section safe.
Context (K : kernels) {HK : KernelsOk K} {HC : KernelsCanon K} (fft_forward fft_backward : list c32 -> list c32).
Context (sinf cosf : f32 -> f32) (atan2f hypotf : f32 -> f32 -> f32) (cexpf : c32 -> c32) {HL : FloatLibm sinf cosf cexpf}.
#[local] Abbreviation dm0 := (burst_downmix_create K fft_forward sinf cosf (Some default_config)).
#[local] Abbreviation downmix_thread := (burst_downmix_thread K fft_forward fft_backward hypotf cexpf dm0).

Lemma downmix_thread_ok bursts : Forall (fun b => Forall c_canon (bd_samples b)) bursts -> forall full,
  exists frames drops, downmix_thread bursts full = Some (frames, drops) /\ Forall (fun f => frame_ok f /\ Forall c_canon (dm_samples f)) frames.
Proof using HK HC HL.
  induction 1 as [|b bursts Hc _ IH]; intros full; [by exists [], 0|]. cbn [burst_downmix_thread].
  pose proof (downmix_safe K fft_forward fft_backward sinf cosf hypotf cexpf b HK) as Hb. cbv zeta in Hb.
  pose proof (downmix_canon K fft_forward fft_backward sinf cosf hypotf cexpf b) as Hcan.
  destruct (burst_downmix_process _ _ _ _ _ _ b) as [[f|]|]; [| |done]; cbn [mbind option_bind].
  - destruct (IH (tail full)) as (frames & drops & -> & Hf). cbn [mbind option_bind]. destruct (hd false full); eexists _, _; (split; [reflexivity|]); [done|]. constructor; auto.
  - apply IH.
Qed.

(** The buffers are allocated for at least 337 symbols. *)
Lemma demod_all_ok o frames : Forall (fun f => frame_ok f /\ Forall c_canon (dm_samples f)) frames ->
  (use_gardner o = true -> Forall (fun f => num_samples f <= 3192) frames) ->
  forall cap, cap = 0 \/ 337 <= cap -> exists l, demod_all sinf cosf atan2f hypotf o cap frames = Some l /\ Forall well_formed l.
Proof.
  induction 1 as [|f frames [Hok Hc] _ IH]; intros Hg cap Hcap; cbn [demod_all]; [by exists []|]. destruct Hok as (Hs & _ & _ & Hn).
  assert (800 <= num_samples f <= 4440) as Hn' by (destruct (f64_gtb _ _); lia).
  assert (let cap' := ensure_work_buffers (max_symbols f) cap in 337 <= cap' /\ (cap = 0 -> cap' = num_samples f / 10 + 257)) as [Hc1 Hc2].
  { cbv zeta. rewrite max_symbols_ten by done. unfold ensure_work_buffers. assert (80 <= num_samples f / 10) by (apply Z.div_le_lower_bound; lia).
    destruct (Z.leb_spec (num_samples f / 10 + 1) cap); lia. }
  destruct (demod_returns cosf sinf atan2f hypotf false (fun _ => false) o cap f Hc Hs) as (inp' & files & out & E); [lia| |].
  { intros Ho. pose proof (proj1 (proj1 (Forall_cons _ _ _) (Hg Ho))) as Hshort. assert (2 * num_samples f / 19 < 337) by (apply Z.div_lt_upper_bound; lia). lia. }
  pose proof (demod_well_formed cosf sinf atan2f hypotf false (fun _ => false) o cap f) as Hw. rewrite E in *.
  destruct (IH ltac:(intros Ho; by specialize (Hg Ho); apply Forall_cons in Hg as [_ ?]) (ensure_work_buffers (max_symbols f) cap) ltac:(by right)) as (l & -> & Hl).
  eexists. split; [reflexivity|]. destruct out; [|done]. constructor; [apply Hw|done].
Qed.

(** The bursts of a recording consist of floats. *)
Lemma detected_canon window log10f c center_frequency start_time_ns junk bufs : Forall c_canon junk -> Forall c_canon (List.concat (map (feed_samples K) bufs)) ->
  Forall (fun b => Forall c_canon (bd_samples b)) (burst_detector_thread K fft_forward window log10f c center_frequency start_time_ns junk bufs).
Proof.
  intros Hj Hb. unfold burst_detector_thread.
  pose proof (feed_all_samples c log10f (frame_magnitudes K fft_forward window c) c_canon (map (feed_samples K) bufs)) as H.
  specialize (H ltac:(by apply Forall_concat) (detector_init c) (ring_init junk) Hj). destruct (feed_all _ _ _ _ _ _ _) as [[d r] out]. by apply Forall_map.
Qed.
End safe.

(** * Properties *)

(** A burst as cut out of a stream: its span, and as many samples more as the
    detector keeps before a burst.  The samples are those of the stream as far as
    it had been [read] when the burst was handed over, at least a frame past its
    end. *)
Definition cut_from (c : burst_config) (stream : list c32) (b : burst_data) : Prop :=
  let '(start, stop) := (bi_start (bd_info b), bi_stop (bd_info b)) in
  0 <= start <= stop /\ Z.of_nat (length (bd_samples b)) = stop + burst_pre_len c - start /\
  exists read, stop + Z.of_nat (fft_size c) <= read <= Z.of_nat (length stream) /\
    let last := Z.min (stop + burst_pre_len c) read in
    take (Z.to_nat (last - start)) (bd_samples b) = slice stream (Z.to_nat start) (Z.to_nat last).

Lemma delivered_cut c parts k ab xs (mk : active_burst -> list c32 -> burst_data) :
  (forall ab xs, bi_start (bd_info (mk ab xs)) = ab_start ab /\ bi_stop (bd_info (mk ab xs)) = ab_stop ab /\ bd_samples (mk ab xs) = xs) ->
  delivered c (List.concat (take k parts)) (ab, xs) -> cut_from c (List.concat parts) (mk ab xs).
Proof.
  intros Hmk (H1 & H2 & H3 & H4). destruct (Hmk ab xs) as (E1 & E2 & E3). unfold cut_from. rewrite E1, E2, E3. split; [done|]. split; [done|].
  assert (List.concat parts = List.concat (take k parts) ++ List.concat (drop k parts)) as -> by (by rewrite <- concat_app, take_drop).
  exists (Z.of_nat (length (List.concat (take k parts)))). rewrite length_app. split; [lia|]. cbv zeta. rewrite H4. symmetry. apply slice_app_l. lia.
Qed.


(** The whole chain from a recording to demodulated frames, with the
    settings of the program: no burst, however it was recorded, makes the
    downmixer leave its buffers, and the demodulator returns for every frame
    without leaving its own, provided that with the timing loop no frame is longer
    than 3192 samples (below 1626 MHz none is).  Every frame at the end is well
    formed.  This holds for any transform and any libm whose values are floats. *)
Theorem chain_safe K fft_forward fft_backward window sinf cosf log10f atan2f hypotf cexpf c center_frequency start_time_ns o junk f file :
  KernelsOk K -> KernelsCanon K -> ConvertExact K -> FloatLibm sinf cosf cexpf -> Forall c_canon junk ->
  exists mixed, downmixed_frames K fft_forward fft_backward window sinf cosf log10f hypotf cexpf c center_frequency start_time_ns junk f file = Some mixed /\
    Forall frame_ok mixed /\
    ((use_gardner o = true -> Forall (fun d => num_samples d <= 3192) mixed) ->
     exists frames, receive_file K fft_forward fft_backward window sinf cosf log10f atan2f hypotf cexpf c center_frequency start_time_ns o junk f file = Some frames /\
       Forall well_formed frames).
Proof.
  intros HK HC HE HL Hj. unfold receive_file, downmixed_frames. destruct (spewer_reads K f (length file) HE file ltac:(lia)) as (bufs & -> & Hbufs & _). cbn [mbind option_bind].
  assert (Forall c_canon (List.concat (map (feed_samples K) bufs))) as Hb by (rewrite Hbufs; apply file_samples_canon).
  pose proof (detected_canon K fft_forward window log10f c center_frequency start_time_ns junk bufs Hj Hb) as Hd.
  destruct (downmix_thread_ok K fft_forward fft_backward sinf cosf hypotf cexpf _ Hd []) as (mixed & drops & -> & Hf). cbn [mbind option_bind].
  exists mixed. split; [done|]. split; [eapply Forall_impl; [exact Hf|]; by intros ? []|]. intros Hg. apply demod_all_ok; auto.
Qed.

Definition sample_file : list Z := List.concat (replicate 40 [127; 0; 129; 255; 3]).
Definition sample_junk : list c32 := replicate (Z.to_nat 40000) c_zero.


#[local] Instance constant_libm : FloatLibm (fun _ => f32_one) (fun _ => f32_zero) (fun _ => c_one).
Proof. split; intros; auto with canon. Qed.

Lemma chain_safe_witness : let one := (fun _ : f32 => f32_one) in let zero := (fun _ : f32 => f32_zero) in
  exists mixed, downmixed_frames generic_kernels id id [] one zero id (fun x _ => x) (fun _ => c_one) (small_config 16) (f64_of_Z 1622000000) 5 sample_junk FMT_CI16 sample_file = Some mixed /\
    Forall frame_ok mixed /\
    ((true = true -> Forall (fun d => num_samples d <= 3192) mixed) ->
     exists frames, receive_file generic_kernels id id [] one zero id (fun y _ => y) (fun x _ => x) (fun _ => c_one) (small_config 16) (f64_of_Z 1622000000) 5
       (DemodOptions true true None) sample_junk FMT_CI16 sample_file = Some frames /\ Forall well_formed frames).
Proof.
  intros one zero. apply (chain_safe generic_kernels id id [] one zero id (fun y _ => y) (fun x _ => x) (fun _ => c_one) (small_config 16) (f64_of_Z 1622000000) 5 (DemodOptions true true None));
    [apply generic_kernels_ok|apply generic_kernels_canon|apply generic_convert_exact|apply constant_libm|]. apply Forall_replicate, c_zero_canon.
Defined.
