(* ===== verification/Gpu.v ===== *)
(** The batches of the GPU plugin, [src/vulkan/burst_fft.c] and
    [src/opencl/burst_fft.c].

    A plugin transforms batches of frames.  Both back ends multiply by the window,
    run VkFFT over their whole buffer, shift and take magnitudes; they differ in
    where the buffers are and which calls can fail.  VkFFT, Vulkan and OpenCL are
    libraries: the transform is a parameter with the documented batch layout, and
    the result of each call is an input of the operation that makes it.

    The Vulkan back end keeps one buffer for the whole run, so the part of it that
    a short batch does not fill still holds earlier results; the buffer is
    explicit state here.  Creation and destruction are in [GpuSetup.v]. *)
From S2P Require Import Prelude CFloat CRound CCanon CComplex Kernels Simd BurstDetect Capture.
#[local] Open Scope Z_scope.

(** * Buffers of frames *)

Lemma map_seq_frames {A} (f : nat -> A) b n :
  map f (seq 0 (b * n)) = List.concat (map (fun k => map (fun j => f (k * n + j)%nat) (seq 0 n)) (seq 0 b)).
Proof.
  induction b as [|b IH]; [done|]. rewrite Nat.mul_succ_l, seq_app, map_app, IH, seq_S, map_app, List.concat_app. f_equal.
  cbn [map List.concat Nat.add]. by rewrite app_nil_r, (seq_shift_n (b * n) n), map_map.
Qed.

Lemma concat_frame {A} `{Inhabited A} (l : list (list A)) n k j : Forall (fun x => length x = n) l -> (j < n)%nat ->
  List.concat l !!! (k * n + j)%nat = (l !!! k) !!! j.
Proof.
  intros Hl Hj. revert k. induction Hl as [|x l Hx _ IH]; intros k; [by rewrite !list_lookup_total_alt, !lookup_nil|].
  cbn [List.concat]. destruct k as [|k].
  - rewrite lookup_total_app_l by (cbn; lia). done.
  - rewrite lookup_total_app_r by lia. change ((x :: l) !!! S k) with (l !!! k). rewrite <- (IH k). f_equal. lia.
Qed.

Lemma length_frames {A} (l : list (list A)) n : Forall (fun x => length x = n) l -> length (List.concat l) = (length l * n)%nat.
Proof. induction 1 as [|x l Hx _ IH]; [done|]. cbn. by rewrite length_app, Hx, IH. Qed.

Lemma map_seq_id {A} `{Inhabited A} (l : list A) : map (fun k => l !!! k) (seq 0 (length l)) = l.
Proof.
  apply list_eq. intros i. rewrite list_lookup_fmap. destruct (decide (i < length l)%nat) as [Hi|Hi].
  - rewrite lookup_seq_lt by done. cbn. symmetry. by apply list_lookup_lookup_total_lt.
  - rewrite lookup_seq_ge by lia. symmetry. apply lookup_ge_None. lia.
Qed.

Lemma map_by_index {A B} `{Inhabited A} (g : A -> B) (l : list A) : map g l = map (fun k => g (l !!! k)) (seq 0 (length l)).
Proof. rewrite <- (map_seq_id l) at 1. by rewrite map_map. Qed.

(** Cutting a buffer into frames. *)
Fixpoint frames_of {A} (n b : nat) (l : list A) : list (list A) :=
  match b with O => [] | S b => take n l :: frames_of n b (drop n l) end.

Lemma frames_of_concat {A} (l : list (list A)) n rest : Forall (fun x => length x = n) l -> frames_of n (length l) (List.concat l ++ rest) = l.
Proof. induction 1 as [|x l Hx _ IH]; [done|]. cbn. by rewrite <- app_assoc, <- Hx, take_app_length, drop_app_length, Hx, IH. Qed.

Lemma frames_of_spec {A} n b (l : list A) : length l = (b * n)%nat ->
  List.concat (frames_of n b l) = l /\ Forall (fun x => length x = n) (frames_of n b l) /\ length (frames_of n b l) = b.
Proof.
  revert l. induction b as [|b IH]; intros l Hl; [by destruct l|]. cbn [frames_of List.concat length].
  destruct (IH (drop n l)) as (E & F & L); [rewrite length_drop; lia|]. rewrite E, take_drop, L. split; [done|]. split; [|done].
  constructor; [rewrite length_take; lia|done].
Qed.

Lemma flat_app a b : flat (a ++ b) = flat a ++ flat b.
Proof. apply flat_map_app. Qed.

Lemma length_flat l : length (flat l) = (2 * length l)%nat.
Proof. unfold flat. induction l as [|z l IH]; [done|]. cbn [flat_map app length]. rewrite IH. lia. Qed.

Lemma flat_unflat n l : length l = (2 * n)%nat -> flat (unflat l) = l.
Proof.
  revert l. induction n as [|n IH]; intros l Hl; [by destruct l|]. destruct l as [|re [|im l]]; cbn in Hl; [lia|lia|]. cbn [unflat]. change (re :: im :: flat (unflat l) = re :: im :: l). by rewrite IH by lia.
Qed.

(** * The steps of a batch *)

(** The window multiply: the loop of the Vulkan back end, and kernel
    [window_multiply] of the OpenCL one over [n] work items. *)
Definition window_multiply (fft_size : nat) (window input out : list f32) (n : nat) : list f32 :=
  fold_left (fun out i =>
    let win_idx := (i mod fft_size)%nat in
    let w := window !!! win_idx in
    <[S (2 * i) := f32_mul (input !!! S (2 * i)) w]> (<[(2 * i)%nat := f32_mul (input !!! (2 * i)%nat) w]> out)) (seq 0 n) out.

(** The shift and magnitudes: the last loop of the Vulkan back end, and kernel
    [fftshift_magnitude]; [sum_sq] is [re * re + im * im]. *)
Definition fftshift_magnitude (sum_sq : f32 -> f32 -> f32) (fft_size : nat) (buf output : list f32) (n : nat) : list f32 :=
  fold_left (fun output i =>
    let frame := (i / fft_size)%nat in
    let bin := (i mod fft_size)%nat in
    let half_n := (fft_size / 2)%nat in
    let src_bin := ((bin + half_n) mod fft_size)%nat in
    let src_idx := (frame * fft_size + src_bin)%nat in
    <[i := sum_sq (buf !!! (2 * src_idx)%nat) (buf !!! S (2 * src_idx))]> output) (seq 0 n) output.

(** Without contraction. *)
Definition separate (re im : f32) : f32 := f32_add (f32_mul re re) (f32_mul im im).

(** The window is applied to no more than was uploaded. *)
Lemma window_input window n b inp rest out k : (k <= length inp)%nat -> (2 * n <= k)%nat ->
  window_multiply b window (take k inp ++ rest) out n = window_multiply b window inp out n.
Proof.
  intros Hk Hn. unfold window_multiply.
  assert (forall m, (m < k)%nat -> (take k inp ++ rest) !!! m = inp !!! m) as E.
  { intros m Hm. rewrite lookup_total_app_l by (rewrite length_take; lia). by apply lookup_total_take_lt. }
  assert (Forall (fun i => (i < n)%nat) (seq 0 n)) as Hs by (apply Forall_seq; lia).
  revert out. induction Hs as [|i l Hi _ IH]; intros out; [done|]. cbn [fold_left]. rewrite IH. rewrite !E by lia. done.
Qed.

Section batch.
Context (fft_size : nat) (window : list f32).
Context (Hn : (0 < fft_size)%nat).

(** Position [j] of frame [k]. *)
Lemma frame_bin k j : (j < fft_size)%nat -> ((k * fft_size + j) / fft_size = k /\ (k * fft_size + j) mod fft_size = j)%nat.
Proof using Hn.
  intros Hj. rewrite Nat.add_comm, Nat.Div0.mod_add, Nat.mod_small by done. split; [|done].
  rewrite Nat.div_add, Nat.div_small by lia. done.
Qed.

Lemma window_frames frames out : Forall (fun x => length x = fft_size) frames -> (2 * (length frames * fft_size) <= length out)%nat ->
  window_multiply fft_size window (flat (List.concat frames)) out (length frames * fft_size) =
  flat (List.concat (map (fun x => generic_window_cf x window fft_size) frames)) ++ drop (2 * (length frames * fft_size)) out.
Proof using Hn.
  intros Hf Ho. unfold window_multiply. cbv zeta.
  set (z i := C32 (f32_mul (flat (List.concat frames) !!! (2 * i)%nat) (window !!! (i mod fft_size)%nat))
    (f32_mul (flat (List.concat frames) !!! S (2 * i)) (window !!! (i mod fft_size)%nat))).
  change (fold_left (fun out i => <[S (2 * i) := c_im (z i)]> (<[(2 * i)%nat := c_re (z i)]> out)) (seq 0 (length frames * fft_size)) out =
    flat (List.concat (map (fun x => generic_window_cf x window fft_size) frames)) ++ drop (2 * (length frames * fft_size)) out).
  rewrite store_pair_loop by done. rewrite <- flat_map_flat. f_equal.
  f_equal. rewrite map_seq_frames. f_equal. rewrite (map_by_index _ frames). apply map_ext. intros k.
  unfold generic_window_cf. apply map_ext_in. intros j Hj%in_seq. unfold z. destruct (frame_bin k j) as [_ ->]; [lia|].
  rewrite flat_re, flat_im, (concat_frame frames fft_size) by (done || lia). done.
Qed.

(** The exchanged halves of a transformed frame, as squared magnitudes. *)
Definition shifted_magnitudes (sum_sq : f32 -> f32 -> f32) (x : list c32) : list f32 :=
  map (fun j => let z := x !!! ((j + fft_size / 2) mod fft_size)%nat in sum_sq (c_re z) (c_im z)) (seq 0 fft_size).

(** The scalar kernel of the CPU is the same for frames of even length. *)
Lemma shifted_generic x : Nat.Even fft_size -> shifted_magnitudes separate x = generic_fftshift_mag x fft_size.
Proof using Hn.
  intros [h Hh]. unfold generic_fftshift_mag, shifted_magnitudes. cbv zeta. assert (fft_size / 2 = h)%nat as -> by (rewrite Hh, Nat.mul_comm; by apply Nat.div_mul).
  replace (seq 0 fft_size) with (seq 0 h ++ map (Nat.add h) (seq 0 h)) by (rewrite <- seq_shift_n, <- seq_app; f_equal; lia).
  rewrite map_app, map_map. f_equal; apply map_ext_in; intros j Hj%in_seq.
  - rewrite Nat.mod_small by lia. by rewrite Nat.add_comm.
  - replace (h + j + h)%nat with (j + 1 * fft_size)%nat by lia. by rewrite Nat.Div0.mod_add, Nat.mod_small by lia.
Qed.

Lemma shift_frames sum_sq frames rest output : Forall (fun x => length x = fft_size) frames ->
  (length frames * fft_size <= length output)%nat ->
  fftshift_magnitude sum_sq fft_size (flat (List.concat frames ++ rest)) output (length frames * fft_size) =
  List.concat (map (shifted_magnitudes sum_sq) frames) ++ drop (length frames * fft_size) output.
Proof using Hn.
  intros Hf Ho. unfold fftshift_magnitude. cbv zeta.
  set (src i := (i / fft_size * fft_size + (i mod fft_size + fft_size / 2) mod fft_size)%nat).
  rewrite (store_loop (fun i => sum_sq (flat (List.concat frames ++ rest) !!! (2 * src i)%nat) (flat (List.concat frames ++ rest) !!! S (2 * src i)))) by done.
  f_equal. rewrite map_seq_frames. f_equal. rewrite (map_by_index _ frames). apply map_ext_in. intros k Hk%in_seq.
  unfold shifted_magnitudes. apply map_ext_in. intros j Hj%in_seq. unfold src. destruct (frame_bin k j) as [-> ->]; [lia|].
  set (b := ((j + fft_size / 2) mod fft_size)%nat). assert (b < fft_size)%nat by (apply Nat.mod_upper_bound; lia).
  rewrite flat_re, flat_im. rewrite lookup_total_app_l by (rewrite (length_frames frames fft_size) by done; nia).
  rewrite (concat_frame frames fft_size) by done. done.
Qed.
End batch.

(** * VkFFT *)

(** The transform in place over a buffer of [b] frames of [n] complex values: every
    frame is transformed by itself.  [device_fft] is whatever the device computes
    for one frame; it need not be what FFTW computes. *)
Class VkFFT (vkfft : nat -> nat -> list f32 -> list f32) (device_fft : list c32 -> list c32) : Prop := {
  vkfft_frame_length x : length (device_fft x) = length x;
  vkfft_batched n b frames : length frames = b -> Forall (fun x => length x = n) frames ->
    vkfft n b (flat (List.concat frames)) = flat (List.concat (map device_fft frames));
}.

(** * The Vulkan back end *)

Definition VK_SUCCESS : Z := 0.
Definition VK_TIMEOUT : Z := 2.

Record gpu_burst_fft := Gpu {
  g_fft_size : nat;
  g_batch_size : nat;
  g_window : list f32;
  g_mapped : list f32;
}.
Definition with_mapped (g : gpu_burst_fft) (m : list f32) : gpu_burst_fft := Gpu (g_fft_size g) (g_batch_size g) (g_window g) m.

(** The results of the calls of a dispatch; [unfinished] is what the buffer holds
    when the wait gives up. *)
Record dispatch := Dispatch {
  append_result : Z;
  submit_result : Z;
  wait_result : Z;
  unfinished : list f32;
}.
Definition dispatched : dispatch := Dispatch VK_SUCCESS VK_SUCCESS VK_SUCCESS [].

(** [gpu_burst_fft_process]: the result, the context and the output array;
    [sum_sq] is how the compiler evaluates [re * re + im * im]. *)
Definition gpu_burst_fft_process (vkfft : nat -> nat -> list f32 -> list f32) (sum_sq : f32 -> f32 -> f32) (call : dispatch) (g : gpu_burst_fft)
    (input output : list f32) (batch_count : Z) : Z * gpu_burst_fft * list f32 :=
  if (batch_count <=? 0) || (Z.of_nat (g_batch_size g) <? batch_count) then (-1, g, output)
  else
    let n := (Z.to_nat batch_count * g_fft_size g)%nat in
    let g := with_mapped g (window_multiply (g_fft_size g) (g_window g) input (g_mapped g) n) in
    if negb (append_result call =? VK_SUCCESS) then (-1, g, output)
    else if negb (submit_result call =? VK_SUCCESS) then (-1, g, output)
    else if negb (wait_result call =? VK_SUCCESS) then (-1, with_mapped g (unfinished call), output)
    else
      let g := with_mapped g (vkfft (g_fft_size g) (g_batch_size g) (g_mapped g)) in
      (0, g, fftshift_magnitude sum_sq (g_fft_size g) (g_mapped g) output n).

(** * The OpenCL back end *)

Record cl_burst_fft := ClGpu {
  c_fft_size : nat;
  c_batch_size : nat;
  cl_window : list f32;
  cl_input : list f32;
  cl_fft : list f32;
  cl_magnitude : list f32;
}.

Definition CL_SUCCESS : Z := 0.

(** The results of the five enqueues. *)
Record cl_calls := ClCalls {
  upload_result : Z;
  window_result : Z;
  fft_result : Z;
  magnitude_result : Z;
  download_result : Z;
}.
Definition enqueued : cl_calls := ClCalls CL_SUCCESS CL_SUCCESS CL_SUCCESS CL_SUCCESS CL_SUCCESS.

(** [gpu_burst_fft_process]: the commands of the queue run in order; [sum_sq] is
    how the OpenCL compiler evaluates [re * re + im * im]. *)
Definition cl_burst_fft_process (vkfft : nat -> nat -> list f32 -> list f32) (sum_sq : f32 -> f32 -> f32) (call : cl_calls) (g : cl_burst_fft)
    (input output : list f32) (batch_count : Z) : Z * cl_burst_fft * list f32 :=
  if (batch_count <=? 0) || (Z.of_nat (c_batch_size g) <? batch_count) then (-1, g, output)
  else
    let work_items := (Z.to_nat batch_count * c_fft_size g)%nat in
    let complex_floats := (work_items * 2)%nat in
    let buffers i f m := ClGpu (c_fft_size g) (c_batch_size g) (cl_window g) i f m in
    if negb (upload_result call =? CL_SUCCESS) then (-1, g, output) else
    let input' := take complex_floats input ++ drop complex_floats (cl_input g) in
    if negb (window_result call =? CL_SUCCESS) then (-1, buffers input' (cl_fft g) (cl_magnitude g), output) else
    let fft' := window_multiply (c_fft_size g) (cl_window g) input' (cl_fft g) work_items in
    if negb (fft_result call =? CL_SUCCESS) then (-1, buffers input' fft' (cl_magnitude g), output) else
    let fft' := vkfft (c_fft_size g) (c_batch_size g) fft' in
    if negb (magnitude_result call =? CL_SUCCESS) then (-1, buffers input' fft' (cl_magnitude g), output) else
    let magnitude' := fftshift_magnitude sum_sq (c_fft_size g) fft' (cl_magnitude g) work_items in
    if negb (download_result call =? CL_SUCCESS) then (-1, buffers input' fft' magnitude', output)
    else (0, buffers input' fft' magnitude', take work_items magnitude' ++ drop work_items output).

(** * As plugins of the detector *)

(** The frames of the output array, where the call succeeded. *)
Definition plugin_result (fft_size count : nat) (r : Z) (output : list f32) : option (list (list f32)) :=
  if r =? 0 then Some (frames_of fft_size count output) else None.

Definition vulkan_plugin vkfft sum_sq (g : gpu_burst_fft) (output : list f32) : @gpu_plugin c32 :=
  GpuPlugin (g_batch_size g) (fun batch =>
    let '(r, _, output) := gpu_burst_fft_process vkfft sum_sq dispatched g (flat (List.concat batch)) output (Z.of_nat (length batch)) in
    plugin_result (g_fft_size g) (length batch) r output).

Definition opencl_plugin vkfft sum_sq (g : cl_burst_fft) (output : list f32) : @gpu_plugin c32 :=
  GpuPlugin (c_batch_size g) (fun batch =>
    let '(r, _, output) := cl_burst_fft_process vkfft sum_sq enqueued g (flat (List.concat batch)) output (Z.of_nat (length batch)) in
    plugin_result (c_fft_size g) (length batch) r output).

(** A run of batches, each with the results of its calls, the buffers kept from
    one to the next. *)
Fixpoint vulkan_run vkfft sum_sq (g : gpu_burst_fft) (output : list f32) (batches : list (dispatch * list (list c32))) : list (option (list (list f32))) :=
  match batches with
  | [] => []
  | (call, batch) :: rest =>
      let '(r, g, output) := gpu_burst_fft_process vkfft sum_sq call g (flat (List.concat batch)) output (Z.of_nat (length batch)) in
      plugin_result (g_fft_size g) (length batch) r output :: vulkan_run vkfft sum_sq g output rest
  end.
Fixpoint opencl_run vkfft sum_sq (g : cl_burst_fft) (output : list f32) (batches : list (cl_calls * list (list c32))) : list (option (list (list f32))) :=
  match batches with
  | [] => []
  | (call, batch) :: rest =>
      let '(r, g, output) := cl_burst_fft_process vkfft sum_sq call g (flat (List.concat batch)) output (Z.of_nat (length batch)) in
      plugin_result (c_fft_size g) (length batch) r output :: opencl_run vkfft sum_sq g output rest
  end.

(** * Both back ends compute the magnitudes of the frames *)

Section exact.
Context (c : burst_config) (window : list f32) (sum_sq : f32 -> f32 -> f32) {vkfft device_fft} `{!VkFFT vkfft device_fft}.
Context (Hpos : (0 < fft_size c)%nat).

(** The magnitudes of one frame: window, the device's transform, shift and squares. *)
Definition device_magnitudes (x : list c32) : list f32 :=
  shifted_magnitudes (fft_size c) sum_sq (device_fft (generic_window_cf x window (fft_size c))).

#[local] Abbreviation frame_ok := (fun x => length x = fft_size c).

Lemma device_lengths frames : Forall (fun x => length x = fft_size c) (map device_magnitudes frames).
Proof. apply Forall_map, Forall_true. intros x. unfold device_magnitudes, shifted_magnitudes. by rewrite length_map, length_seq. Qed.

Lemma plugin_frames frames rest : plugin_result (fft_size c) (length frames) 0 (List.concat (map device_magnitudes frames) ++ rest) = Some (map device_magnitudes frames).
Proof. unfold plugin_result. cbn [Z.eqb]. f_equal. rewrite <- (length_map device_magnitudes frames). apply frames_of_concat, device_lengths. Qed.

(** Whatever the rest of the buffer holds. *)
Lemma transform_frames b buf output (frames : list (list c32)) : Forall frame_ok frames -> (length frames <= b)%nat ->
  length buf = (2 * (b * fft_size c))%nat -> (length frames * fft_size c <= length output)%nat ->
  let buf' := vkfft (fft_size c) b (window_multiply (fft_size c) window (flat (List.concat frames)) buf (length frames * fft_size c)) in
  length buf' = length buf /\
  fftshift_magnitude sum_sq (fft_size c) buf' output (length frames * fft_size c) =
    List.concat (map device_magnitudes frames) ++ drop (length frames * fft_size c) output.
Proof using Hpos VkFFT0.
  intros Hf Hb Hbuf Hout. unfold device_magnitudes. set (n := fft_size c) in *. set (k := length frames) in *.
  rewrite window_frames by (done || nia). fold k. set (W := map (fun x => generic_window_cf x window n) frames).
  set (rest := drop (2 * (k * n)) buf). assert (length rest = 2 * ((b - k) * n))%nat as Hrest by (unfold rest; rewrite length_drop; nia).
  destruct (frames_of_spec n (b - k) (unflat rest) (length_unflat rest _ Hrest)) as (Es & Fs & Ls). set (stale := frames_of n (b - k) (unflat rest)) in *.
  assert (Forall (fun x => length x = n) W) as HW.
  { apply Forall_map, Forall_true. intros x. unfold generic_window_cf. by rewrite length_map, length_seq. }
  assert (length W = k) as HkW by (unfold W; by rewrite length_map).
  rewrite <- (flat_unflat _ rest Hrest), <- Es, <- flat_app, <- List.concat_app.
  rewrite vkfft_batched by (rewrite ?length_app, ?HkW, ?Ls; lia || by apply Forall_app).
  assert (forall l, Forall (fun x => length x = n) l -> Forall (fun x => length x = n) (map device_fft l)) as Hfft.
  { intros l Hl. apply Forall_map. eapply Forall_impl; [exact Hl|]. intros x Hx. cbn. by rewrite vkfft_frame_length. }
  split.
  - rewrite length_flat, (length_frames _ n) by by apply Hfft, Forall_app. rewrite length_map, length_app, HkW, Ls, Hbuf. nia.
  - rewrite map_app, List.concat_app. pose proof (shift_frames n Hpos sum_sq (map device_fft W) (List.concat (map device_fft stale)) output (Hfft _ HW)) as H.
    rewrite length_map, HkW in H. rewrite H by done. f_equal. f_equal. unfold W. by rewrite !map_map.
Qed.

Lemma length_window input out n : length (window_multiply (fft_size c) window input out n) = length out.
Proof.
  unfold window_multiply. generalize (seq 0 n). intros l. revert out. induction l as [|i l IH]; intros out; [done|].
  cbn [fold_left]. by rewrite IH, !length_insert.
Qed.

(** A Vulkan context for the detector. *)
Definition vk_ok (g : gpu_burst_fft) : Prop :=
  g_fft_size g = fft_size c /\ g_window g = window /\ length (g_mapped g) = (2 * (g_batch_size g * fft_size c))%nat.

(** The append and the submission may fail; a wait that gives up leaves the
    device running and is not considered. *)
Definition vk_succeeds (call : dispatch) : bool := (append_result call =? VK_SUCCESS) && (submit_result call =? VK_SUCCESS).

Lemma vulkan_process_exact call g output frames : vk_ok g -> (0 < length frames <= g_batch_size g)%nat -> Forall frame_ok frames ->
  (length frames * fft_size c <= length output)%nat -> wait_result call = VK_SUCCESS ->
  exists r g' output', gpu_burst_fft_process vkfft sum_sq call g (flat (List.concat frames)) output (Z.of_nat (length frames)) = (r, g', output') /\
    plugin_result (fft_size c) (length frames) r output' = (if vk_succeeds call then Some (map device_magnitudes frames) else None) /\
    vk_ok g' /\ g_batch_size g' = g_batch_size g /\ length output' = length output.
Proof using Hpos VkFFT0.
  intros (E1 & E2 & E3) Hk Hf Ho Hw. unfold gpu_burst_fft_process, vk_succeeds. rewrite (proj2 (Z.leb_gt _ _)), (proj2 (Z.ltb_ge _ _)) by lia.
  cbn [orb]. rewrite Nat2Z.id, Hw. change (negb (VK_SUCCESS =? VK_SUCCESS)) with false.
  cbn [with_mapped g_fft_size g_batch_size g_window g_mapped]. rewrite E1, E2.
  assert (forall m, length m = length (g_mapped g) -> vk_ok (with_mapped g m)) as Hfail by (intros m Hm; unfold vk_ok; cbn; by rewrite Hm).
  destruct (append_result call =? VK_SUCCESS); cbn [negb andb]; [|eexists _, _, _; split; [reflexivity|]; split; [done|]; split; [apply Hfail, length_window|done]].
  destruct (submit_result call =? VK_SUCCESS); cbn [negb andb]; [|eexists _, _, _; split; [reflexivity|]; split; [done|]; split; [apply Hfail, length_window|done]].
  destruct (transform_frames (g_batch_size g) (g_mapped g) output frames) as [HL HE]; [done|lia|done|done|].
  rewrite HE. eexists _, _, _. split; [reflexivity|]. split; [apply plugin_frames|]. unfold vk_ok. cbn. rewrite HL. split; [done|]. split; [done|].
  rewrite length_app, length_drop, (length_frames _ (fft_size c)) by apply device_lengths. rewrite length_map. lia.
Qed.

(** An OpenCL context. *)
Definition cl_ok (g : cl_burst_fft) : Prop :=
  c_fft_size g = fft_size c /\ cl_window g = window /\ length (cl_input g) = (2 * (c_batch_size g * fft_size c))%nat /\
  length (cl_fft g) = (2 * (c_batch_size g * fft_size c))%nat /\ length (cl_magnitude g) = (c_batch_size g * fft_size c)%nat.

Definition cl_succeeds (call : cl_calls) : bool :=
  (upload_result call =? CL_SUCCESS) && (window_result call =? CL_SUCCESS) && (fft_result call =? CL_SUCCESS) &&
  (magnitude_result call =? CL_SUCCESS) && (download_result call =? CL_SUCCESS).

Lemma opencl_process_exact call g output frames : cl_ok g -> (0 < length frames <= c_batch_size g)%nat -> Forall frame_ok frames ->
  (length frames * fft_size c <= length output)%nat ->
  exists r g' output', cl_burst_fft_process vkfft sum_sq call g (flat (List.concat frames)) output (Z.of_nat (length frames)) = (r, g', output') /\
    plugin_result (fft_size c) (length frames) r output' = (if cl_succeeds call then Some (map device_magnitudes frames) else None) /\
    cl_ok g' /\ c_batch_size g' = c_batch_size g /\ length output' = length output.
Proof using Hpos VkFFT0.
  intros Hg Hk Hf Ho. pose proof Hg as (E1 & E2 & E3 & E4 & E5). unfold cl_burst_fft_process, cl_succeeds. rewrite (proj2 (Z.leb_gt _ _)), (proj2 (Z.ltb_ge _ _)) by lia.
  cbn [orb]. rewrite Nat2Z.id. cbv zeta. rewrite E1, E2. set (k := length frames) in *.
  assert (length (flat (List.concat frames)) = 2 * (k * fft_size c))%nat as HL by (rewrite length_flat, (length_frames frames (fft_size c)) by done; lia).
  rewrite window_input by lia.
  destruct (transform_frames (c_batch_size g) (cl_fft g) (cl_magnitude g) frames) as [HL' HE]; [done|lia|done|rewrite E5; nia|].
  fold k in HL', HE. rewrite HE. assert (length (List.concat (map device_magnitudes frames)) = k * fft_size c)%nat as HM.
  { rewrite (length_frames _ (fft_size c)) by apply device_lengths. by rewrite length_map. }
  assert (length (take (k * fft_size c * 2) (flat (List.concat frames)) ++ drop (k * fft_size c * 2) (cl_input g)) = 2 * (c_batch_size g * fft_size c))%nat as HI
    by (rewrite length_app, length_take, length_drop, E3, HL; nia).
  assert (forall buf, length buf = length (cl_fft g) -> cl_ok (ClGpu (fft_size c) (c_batch_size g) window
    (take (k * fft_size c * 2) (flat (List.concat frames)) ++ drop (k * fft_size c * 2) (cl_input g)) buf (cl_magnitude g))) as Hfail
    by (intros buf Hb; unfold cl_ok; cbn [c_fft_size c_batch_size cl_window cl_input cl_fft cl_magnitude]; by rewrite HI, Hb).
  destruct (upload_result call =? CL_SUCCESS); cbn [negb andb]; [|eexists _, _, _; by split].
  destruct (window_result call =? CL_SUCCESS); cbn [negb andb]; [|eexists _, _, _; split; [reflexivity|]; split; [done|]; split; [by apply Hfail|done]].
  destruct (fft_result call =? CL_SUCCESS); cbn [negb andb]; [|eexists _, _, _; split; [reflexivity|]; split; [done|]; split; [apply Hfail, length_window|done]].
  destruct (magnitude_result call =? CL_SUCCESS); cbn [negb andb]; [|eexists _, _, _; split; [reflexivity|]; split; [done|]; split; [by apply Hfail|done]].
  assert (length (List.concat (map device_magnitudes frames) ++ drop (k * fft_size c) (cl_magnitude g)) = c_batch_size g * fft_size c)%nat as HO
    by (rewrite length_app, HM, length_drop, E5; nia).
  destruct (download_result call =? CL_SUCCESS); cbn [negb andb];
    [|eexists _, _, _; split; [reflexivity|]; split; [done|]; unfold cl_ok; cbn [c_fft_size c_batch_size cl_window cl_input cl_fft cl_magnitude]; by rewrite HL', HI, HO].
  rewrite (take_app_le (List.concat (map device_magnitudes frames))), (take_ge (List.concat (map device_magnitudes frames))) by lia.
  eexists _, _, _. split; [reflexivity|]. split; [apply plugin_frames|]. unfold cl_ok. cbn [c_fft_size c_batch_size cl_window cl_input cl_fft cl_magnitude].
  rewrite HL', HI, HO, length_app, HM, length_drop. split; [done|]. split; [done|]. lia.
Qed.

Lemma vulkan_framewise g output : vk_ok g -> (0 < g_batch_size g)%nat -> length output = (g_batch_size g * fft_size c)%nat ->
  gpu_framewise c device_magnitudes (Some (vulkan_plugin vkfft sum_sq g output)).
Proof using Hpos VkFFT0.
  intros Hg Hb Ho. split; [done|]. intros batch [Hk Hf]. cbn [vulkan_plugin gpu_process gpu_batch_size] in *.
  destruct (vulkan_process_exact dispatched g output batch Hg Hk Hf) as (r & g' & o' & -> & E & _); [nia|done|]. by rewrite (proj1 Hg).
Qed.

Lemma opencl_framewise g output : cl_ok g -> (0 < c_batch_size g)%nat -> length output = (c_batch_size g * fft_size c)%nat ->
  gpu_framewise c device_magnitudes (Some (opencl_plugin vkfft sum_sq g output)).
Proof using Hpos VkFFT0.
  intros Hg Hb Ho. split; [done|]. intros batch [Hk Hf]. cbn [opencl_plugin gpu_process gpu_batch_size] in *.
  destruct (opencl_process_exact enqueued g output batch Hg Hk Hf) as (r & g' & o' & -> & E & _); [nia|]. by rewrite (proj1 Hg).
Qed.

(** No batch depends on the ones before it. *)
Lemma vulkan_run_exact b batches : Forall (fun cb => wait_result (fst cb) = VK_SUCCESS /\ (0 < length (snd cb) <= b)%nat /\ Forall frame_ok (snd cb)) batches ->
  forall g output, vk_ok g -> g_batch_size g = b -> length output = (b * fft_size c)%nat ->
  vulkan_run vkfft sum_sq g output batches = map (fun cb => if vk_succeeds (fst cb) then Some (map device_magnitudes (snd cb)) else None) batches.
Proof using Hpos VkFFT0.
  induction 1 as [|[call batch] batches (Hw & Hk & Hf) _ IH]; intros g output Hg Hb Ho; [done|]. cbn [vulkan_run map fst snd] in *. subst b.
  destruct (vulkan_process_exact call g output batch Hg Hk Hf) as (r & g' & o' & -> & E & Hg' & Hb' & Ho'); [nia|done|].
  rewrite (proj1 Hg'), E. f_equal. apply IH; [done|done|]. by rewrite Ho'.
Qed.

Lemma opencl_run_exact b batches : Forall (fun cb => (0 < length (snd cb) <= b)%nat /\ Forall frame_ok (snd cb)) batches ->
  forall g output, cl_ok g -> c_batch_size g = b -> length output = (b * fft_size c)%nat ->
  opencl_run vkfft sum_sq g output batches = map (fun cb => if cl_succeeds (fst cb) then Some (map device_magnitudes (snd cb)) else None) batches.
Proof using Hpos VkFFT0.
  induction 1 as [|[call batch] batches (Hk & Hf) _ IH]; intros g output Hg Hb Ho; [done|]. cbn [opencl_run map fst snd] in *. subst b.
  destruct (opencl_process_exact call g output batch Hg Hk Hf) as (r & g' & o' & -> & E & Hg' & Hb' & Ho'); [nia|].
  rewrite (proj1 Hg'), E. f_equal. apply IH; [done|done|]. by rewrite Ho'.
Qed.
End exact.
Arguments device_magnitudes : clear implicits.

(** With the transform of the CPU and its arithmetic the magnitudes are those of
    the CPU. *)
Lemma device_as_cpu c window fft_forward x : (0 < fft_size c)%nat -> Nat.Even (fft_size c) ->
  device_magnitudes c window separate fft_forward x = frame_magnitudes generic_kernels fft_forward window c x.
Proof. intros Hp He. unfold device_magnitudes, frame_magnitudes. by rewrite shifted_generic. Qed.

(** * Properties *)

(** C13 (functional).  Batches on a GPU are the frames one by one.  In any sequence
    of batches, whatever the buffers hold from earlier ones, each batch whose calls
    succeed yields for every frame its magnitudes, that is the windowed frame
    transformed by the device, its halves exchanged, squared; and each batch with a
    call that fails yields nothing.  So a detector whose calls all succeed reports
    what the detector's own loop reports on these magnitudes.  The transform is the
    device's, and need not agree with FFTW; how squares are summed is the
    compiler's.  On Vulkan no wait gives up. *)
Theorem gpu_batches_framewise c log10f window sum_sq vkfft device_fft g h out_g out_h junk chunks : VkFFT vkfft device_fft ->
  (0 < fft_size c <= length junk)%nat ->
  vk_ok c window g -> (0 < g_batch_size g)%nat -> length out_g = (g_batch_size g * fft_size c)%nat ->
  cl_ok c window h -> (0 < c_batch_size h)%nat -> length out_h = (c_batch_size h * fft_size c)%nat ->
  Forall (fun x => (length x <= length junk)%nat) chunks ->
  let frame_mag := device_magnitudes c window sum_sq device_fft in
  let run gpu := feed_all c log10f frame_mag gpu (detector_init c) (ring_init junk) chunks in
  (forall batches, Forall (fun cb => wait_result (fst cb) = VK_SUCCESS /\ (0 < length (snd cb) <= g_batch_size g)%nat /\ Forall (fun x => length x = fft_size c) (snd cb)) batches ->
    vulkan_run vkfft sum_sq g out_g batches = map (fun cb => if vk_succeeds (fst cb) then Some (map frame_mag (snd cb)) else None) batches) /\
  (forall batches, Forall (fun cb => (0 < length (snd cb) <= c_batch_size h)%nat /\ Forall (fun x => length x = fft_size c) (snd cb)) batches ->
    opencl_run vkfft sum_sq h out_h batches = map (fun cb => if cl_succeeds (fst cb) then Some (map frame_mag (snd cb)) else None) batches) /\
  run (Some (vulkan_plugin vkfft sum_sq g out_g)) = run None /\
  run (Some (opencl_plugin vkfft sum_sq h out_h)) = run None.
Proof.
  intros Hv [Hp Hj] Hg Hbg Hog Hh Hbh Hoh Hc frame_mag run.
  assert (ring_shape c (ring_init junk)) as Hr by (unfold ring_shape; cbn; lia).
  split; [|split; [|split]].
  - intros batches Hb. by apply (vulkan_run_exact c window sum_sq Hp (g_batch_size g)).
  - intros batches Hb. by apply (opencl_run_exact c window sum_sq Hp (c_batch_size h)).
  - apply feed_all_gpu; [by apply vulkan_framewise|done|done].
  - apply feed_all_gpu; [by apply opencl_framewise|done|done].
Qed.

(** A transform that reverses each frame. *)
Definition reversing (n b : nat) (buf : list f32) : list f32 := flat (List.concat (map (@rev c32) (frames_of n b (unflat buf)))).
#[export] Instance reversing_vkfft : VkFFT reversing (@rev c32).
Proof.
  split; [apply length_rev|]. intros n b frames Hb Hf. unfold reversing. rewrite unflat_flat, <- Hb.
  rewrite <- (app_nil_r (List.concat frames)) at 1. by rewrite frames_of_concat.
Qed.

Definition small_samples : list (list c32) := map (map (fun x => C32 x f32_zero)) small_chunks.
Definition small_window : list f32 := replicate 16 f32_one.
Definition small_vulkan : gpu_burst_fft := Gpu 16 2 small_window (replicate 64 S754_nan).
Definition small_opencl : cl_burst_fft := ClGpu 16 3 small_window (replicate 96 S754_nan) (replicate 96 S754_nan) (replicate 48 S754_nan).
(** A batch that fails to be submitted, then one that succeeds. *)
Definition small_frames : list (list c32) := [take 16 (List.concat small_samples); slice (List.concat small_samples) 32 48].
Definition small_batches : list (dispatch * list (list c32)) :=
  [(Dispatch VK_SUCCESS (-4) VK_SUCCESS [], small_frames); (dispatched, small_frames)].

Lemma gpu_batches_framewise_witness :
  let c := small_config 16 in let frame_mag := device_magnitudes c small_window separate (@rev c32) in
  let run gpu := feed_all c id frame_mag gpu (detector_init c) (ring_init (replicate 64 c_zero)) small_samples in
  map (fun p => (ab_start (fst p), ab_center_bin (fst p))) (run None).2 = [(16, 4%nat)] /\
  run (Some (vulkan_plugin reversing separate small_vulkan (replicate 32 S754_nan))) = run None /\
  vulkan_run reversing separate small_vulkan (replicate 32 S754_nan) small_batches = [None; Some (map frame_mag small_frames)].
Proof.
  intros c frame_mag run. split; [vm_compute; reflexivity|].
  assert (vk_ok (small_config 16) small_window small_vulkan) as Hg by (repeat split; reflexivity).
  assert (cl_ok (small_config 16) small_window small_opencl) as Hh by (repeat split; reflexivity).
  assert (Forall (fun x => (length x <= length (replicate 64 c_zero))%nat) small_samples) as Hs by (repeat constructor; vm_compute; lia).
  assert (0 < fft_size (small_config 16) <= length (replicate 64 c_zero))%nat as Hf by (cbn; lia).
  pose proof (gpu_batches_framewise (small_config 16) id small_window separate reversing (@rev c32) small_vulkan small_opencl (replicate 32 S754_nan) (replicate 48 S754_nan)
    (replicate 64 c_zero) small_samples reversing_vkfft Hf Hg (Nat.lt_0_succ 1) eq_refl Hh (Nat.lt_0_succ 2) eq_refl Hs) as (H1 & _ & H3 & _).
  split; [exact H3|]. rewrite (H1 small_batches); [reflexivity|]. repeat constructor; vm_compute; lia.
Defined.
