(* ===== verification/GpuSetup.v ===== *)
(** Creating and destroying the GPU context, [src/vulkan/burst_fft.c] and
    [src/opencl/burst_fft.c], and loading the plugin, [src/burst_detect.c].

    The results of the Vulkan, OpenCL and VkFFT calls are inputs; creation is a
    log of the resources it takes and, on a failure, gives back. *)
From S2P Require Import Prelude CFloat CRound CCanon CComplex CString JsonText CTable Kernels Simd BurstDetect Capture Gpu.
#[local] Open Scope Z_scope.

(** * Setting up and tearing down: Vulkan *)

(** What a device reports: its type, the flags of its queue families, the
    property flags of its memory types. *)
Record vk_device := VkDevice {
  dev_type : Z;
  dev_queues : list Z;
  dev_memory : list Z;
}.
Definition VK_PHYSICAL_DEVICE_TYPE_DISCRETE_GPU : Z := 2.
Definition VK_QUEUE_GRAPHICS_BIT : Z := 1.
Definition VK_QUEUE_COMPUTE_BIT : Z := 2.
(** Host visible and host coherent. *)
Definition host_memory : Z := Z.lor 2 4.

(** The first index with a property. *)
Fixpoint first_index {A} (p : nat -> A -> bool) (i : nat) (l : list A) : option nat :=
  match l with [] => None | x :: l => if p i x then Some i else first_index p (S i) l end.

Definition UINT32_MAX : Z := 2 ^ 32 - 1.
Definition find_memory_type (types : list Z) (type_filter properties : Z) : Z :=
  match first_index (fun i flags => Z.testbit type_filter (Z.of_nat i) && (Z.land flags properties =? properties)) 0 types with
  | Some i => Z.of_nat i
  | None => UINT32_MAX
  end.

Definition has_bit (flags bit : Z) : bool := negb (Z.land flags bit =? 0).
Definition find_compute_queue_family (props : list Z) : Z :=
  match first_index (fun _ flags => has_bit flags VK_QUEUE_COMPUTE_BIT && negb (has_bit flags VK_QUEUE_GRAPHICS_BIT)) 0 props with
  | Some i => Z.of_nat i
  | None =>
      match first_index (fun _ flags => has_bit flags VK_QUEUE_COMPUTE_BIT) 0 props with
      | Some i => Z.of_nat i
      | None => -1
      end
  end.

(** A discrete GPU, or else the first device. *)
Definition pick_device (d0 : vk_device) (devices : list vk_device) : vk_device :=
  default d0 (List.find (fun d => dev_type d =? VK_PHYSICAL_DEVICE_TYPE_DISCRETE_GPU) devices).

(** The check of the validation transform. *)
Definition dc_test_fails (fft_size : nat) (dc_re dc_im : f32) : bool :=
  let dc_mag := separate dc_re dc_im in
  let expected := f32_mul (f32_of_Z (Z.of_nat fft_size)) (f32_of_Z (Z.of_nat fft_size)) in
  f32_ltb dc_mag (f32_mul expected (f32_div f32_one (f32_of_Z 2))) || f32_gtb dc_mag (f32_mul expected (f32_of_Z 2)).

(** What [gpu_burst_fft_create] takes, in the order it takes it. *)
Inductive vk_resource := r_context | r_window | r_instance | r_device | r_pool | r_fence | r_buffer | r_memory | r_mapping | r_glslang | r_vkfft.

(** The labels it jumps to, and what is given back from there on. *)
Inductive err_label := err_glslang | err_memory | err_buffer | err_fence | err_pool | err_device | err_instance | err_free.
Definition unwind (l : err_label) : list vk_resource :=
  let free := [r_window; r_context] in
  let instance := r_instance :: free in
  let device := r_device :: instance in
  let pool := r_pool :: device in
  let fence := r_fence :: pool in
  let buffer := r_buffer :: fence in
  let memory := r_memory :: buffer in
  match l with
  | err_glslang => r_glslang :: r_mapping :: memory
  | err_memory => memory
  | err_buffer => buffer
  | err_fence => fence
  | err_pool => pool
  | err_device => device
  | err_instance => instance
  | err_free => free
  end.

(** The results of the calls. *)
Record vk_env := VkEnv {
  e_calloc : bool;
  e_instance : Z;
  e_devices : list vk_device;
  e_device : Z;
  e_pool : Z;
  e_command_buffer : Z;
  e_fence : Z;
  e_buffer : Z;
  e_memory_bits : Z;
  e_memory : Z;
  e_bind : Z;
  e_map : Z;
  e_allocation : list f32;
  e_vkfft : Z;
  e_test : dispatch;
}.

Record vk_log := VkLog {
  taken : list vk_resource;
  given_back : list vk_resource;
  created : option gpu_burst_fft;
}.

(** The constant signal in the first frame of the buffer. *)
Definition dc_signal (fft_size : nat) (mapped : list f32) : list f32 :=
  fold_left (fun m i => <[S (2 * i) := f32_zero]> (<[(2 * i)%nat := f32_one]> m)) (seq 0 fft_size) mapped.

(** The part after [initializeVkFFT]. *)
Definition validate (vkfft : nat -> nat -> list f32 -> list f32) (e : vk_env) (g : gpu_burst_fft) (t : list vk_resource) : vk_log :=
  let fail l := VkLog t (unwind l) None in
  let g := with_mapped g (dc_signal (g_fft_size g) (g_mapped g)) in
  if negb (append_result (e_test e) =? VK_SUCCESS) then fail err_glslang
  else if negb (submit_result (e_test e) =? VK_SUCCESS) then fail err_glslang
  else if wait_result (e_test e) =? VK_TIMEOUT then VkLog t [r_instance; r_window; r_context] None
  else if negb (wait_result (e_test e) =? VK_SUCCESS) then fail err_glslang
  else
    let g := with_mapped g (vkfft (g_fft_size g) (g_batch_size g) (g_mapped g)) in
    if dc_test_fails (g_fft_size g) (g_mapped g !!! 0%nat) (g_mapped g !!! 1%nat) then fail err_glslang
    else VkLog t [] (Some g).

(** [gpu_burst_fft_create] from the command pool on, on the device [dev], with
    [t] taken so far. *)
Definition create_buffers vkfft (e : vk_env) (dev : vk_device) (fft_size batch_size : nat) (window : list f32) (t : list vk_resource) : vk_log :=
  let fail t l := VkLog t (unwind l) None in
  if negb (e_pool e =? VK_SUCCESS) then fail t err_device else
  let t := t ++ [r_pool] in
  if negb (e_command_buffer e =? VK_SUCCESS) then fail t err_pool else
  if negb (e_fence e =? VK_SUCCESS) then fail t err_pool else
  let t := t ++ [r_fence] in
  if negb (e_buffer e =? VK_SUCCESS) then fail t err_fence else
  let t := t ++ [r_buffer] in
  if find_memory_type (dev_memory dev) (e_memory_bits e) host_memory =? UINT32_MAX then fail t err_buffer else
  if negb (e_memory e =? VK_SUCCESS) then fail t err_buffer else
  let t := t ++ [r_memory] in
  if negb (e_bind e =? VK_SUCCESS) then fail t err_memory else
  if negb (e_map e =? VK_SUCCESS) then fail t err_memory else
  let t := t ++ [r_mapping; r_glslang] in
  if negb (e_vkfft e =? VK_SUCCESS) then fail t err_glslang else
  validate vkfft e (Gpu fft_size batch_size (take fft_size window) (e_allocation e)) (t ++ [r_vkfft]).

(** [gpu_burst_fft_create]. *)
Definition gpu_burst_fft_create vkfft (e : vk_env) (fft_size batch_size : nat) (window : list f32) : vk_log :=
  if negb (e_calloc e) then VkLog [] [] None else
  let t := [r_context; r_window] in
  let fail t l := VkLog t (unwind l) None in
  if negb (e_instance e =? VK_SUCCESS) then fail t err_free else
  let t := t ++ [r_instance] in
  match e_devices e with
  | [] => fail t err_instance
  | d0 :: _ =>
      let dev := pick_device d0 (e_devices e) in
      if find_compute_queue_family (dev_queues dev) <? 0 then fail t err_instance else
      if negb (e_device e =? VK_SUCCESS) then fail t err_instance else
      create_buffers vkfft e dev fft_size batch_size window (t ++ [r_device])
  end.

(** [gpu_burst_fft_destroy]. *)
Definition gpu_burst_fft_destroy : list vk_resource :=
  [r_vkfft; r_glslang; r_mapping; r_memory; r_buffer; r_fence; r_pool; r_device; r_instance; r_window; r_context].

(** * Setting up and tearing down: OpenCL *)

(** A platform: its GPU device and its first device of any type. *)
Record cl_platform := ClPlatform { gpu_device : option Z; any_device : option Z }.

(** The platforms array has room for 16; [None] is a read behind it. *)
Definition MAX_PLATFORMS : nat := 16.
Fixpoint first_device (sel : cl_platform -> option Z) (platforms : list cl_platform) (room : nat) : option (option Z) :=
  match platforms with
  | [] => Some None
  | p :: rest =>
      match room with
      | O => None
      | S room => match sel p with Some d => Some (Some d) | None => first_device sel rest room end
      end
  end.

(** [find_opencl_device]; [num_platforms] counts every platform of the system. *)
Definition find_opencl_device (err : Z) (platforms : list cl_platform) : option (option Z) :=
  if negb (err =? CL_SUCCESS) || (List.length platforms =? 0)%nat then Some None
  else
    match first_device gpu_device platforms MAX_PLATFORMS with
    | Some None => first_device any_device platforms MAX_PLATFORMS
    | r => r
    end.

Inductive cl_resource := s_context_struct | s_context | s_queue | s_program | s_kern_window | s_kern_magnitude
  | s_input | s_fft | s_magnitude | s_window | s_vkfft.
#[export] Instance cl_resource_eq_dec : EqDecision cl_resource.
Proof. solve_decision. Defined.

Record cl_env := ClEnv {
  f_calloc : bool;
  f_platform_err : Z;
  f_platforms : list cl_platform;
  f_context : Z;
  f_queue : Z;
  f_program : Z;
  f_build : Z;
  f_kern_window : Z;
  f_kern_magnitude : Z;
  f_input : Z;
  f_fft : Z;
  f_magnitude : Z;
  f_window : Z;
  f_upload : Z;
  f_vkfft : Z;
  f_buffers : list f32 * list f32 * list f32;
}.

Record cl_log := ClLog { cl_taken : list cl_resource; cl_given_back : list cl_resource; cl_created : option cl_burst_fft }.

(** [compile_kernels]: what it took, and whether it succeeded. *)
Definition compile_kernels (e : cl_env) : list cl_resource * bool :=
  if negb (f_program e =? CL_SUCCESS) then ([], false)
  else if negb (f_build e =? CL_SUCCESS) then ([s_program], false)
  else if negb (f_kern_window e =? CL_SUCCESS) then ([s_program], false)
  else if negb (f_kern_magnitude e =? CL_SUCCESS) then ([s_program; s_kern_window], false)
  else ([s_program; s_kern_window; s_kern_magnitude], true).

(** Label [err_bufs]; a buffer that was not created is null. *)
Definition err_bufs (t : list cl_resource) : list cl_resource :=
  List.filter (fun r => existsb (fun s => bool_decide (r = s)) t) [s_input; s_fft; s_magnitude; s_window] ++
  [s_kern_window; s_kern_magnitude; s_program; s_queue; s_context; s_context_struct].

(** [gpu_burst_fft_create]; [None] is a read behind the platforms array. *)
Definition cl_burst_fft_create (e : cl_env) (fft_size batch_size : nat) (window : list f32) : option cl_log :=
  if negb (f_calloc e) then Some (ClLog [] [] None) else
  let t := [s_context_struct] in
  match find_opencl_device (f_platform_err e) (f_platforms e) with
  | None => None
  | Some None => Some (ClLog t [s_context_struct] None)
  | Some (Some _) => Some (
      if negb (f_context e =? CL_SUCCESS) then ClLog t [s_context_struct] None else
      let t := t ++ [s_context] in
      if negb (f_queue e =? CL_SUCCESS) then ClLog t [s_context; s_context_struct] None else
      let t := t ++ [s_queue] in
      let '(k, ok) := compile_kernels e in
      let t := t ++ k in
      if negb ok then ClLog t [s_queue; s_context; s_context_struct] None else
      let fail t := ClLog t (err_bufs t) None in
      if negb (f_input e =? CL_SUCCESS) then fail t else
      let t := t ++ [s_input] in
      if negb (f_fft e =? CL_SUCCESS) then fail t else
      let t := t ++ [s_fft] in
      if negb (f_magnitude e =? CL_SUCCESS) then fail t else
      let t := t ++ [s_magnitude] in
      if negb (f_window e =? CL_SUCCESS) then fail t else
      let t := t ++ [s_window] in
      if negb (f_upload e =? CL_SUCCESS) then fail t else
      if negb (f_vkfft e =? CL_SUCCESS) then fail t else
      let '(inp, fft, mag) := f_buffers e in
      ClLog (t ++ [s_vkfft]) [] (Some (ClGpu fft_size batch_size (take fft_size window) inp fft mag)))
  end.

(** [gpu_burst_fft_destroy]. *)
Definition cl_burst_fft_destroy : list cl_resource :=
  [s_vkfft; s_input; s_fft; s_magnitude; s_window; s_kern_window; s_kern_magnitude; s_program; s_queue; s_context; s_context_struct].

(** * Loading the plugin *)

Definition GPU_PLUGIN_NAME : list Z := bytes_of "libiridium-sniffer-gpu.so".

(** The directory of the executable, from what [readlink] gave (at most 4095
    bytes; empty when it failed), and the path of the plugin in it. *)
Definition exe_dir_lib (exe_path : list Z) : list Z :=
  match split_last 47 exe_path with
  | Some (dir, _) => take 4095 (dir ++ [47] ++ GPU_PLUGIN_NAME)
  | None => []
  end.

(** The array of names; the loop over it ends at the first null pointer. *)
Definition plugin_names (exe_path : list Z) : list (option (list Z)) :=
  [ (match exe_dir_lib exe_path with [] => None | p => Some p end);
    Some GPU_PLUGIN_NAME; Some ([46; 47] ++ GPU_PLUGIN_NAME); None ].
Fixpoint try_names (dlopen : list Z -> bool) (names : list (option (list Z))) : option (list Z) :=
  match names with
  | Some n :: names => if dlopen n then Some n else try_names dlopen names
  | _ => None
  end.

(** [gpu_plugin_load]: the library opened, if it has the three functions. *)
Definition gpu_plugin_load (exe_path : list Z) (dlopen : list Z -> bool) (has_symbols : list Z -> bool) : option (list Z) :=
  match try_names dlopen (plugin_names exe_path) with
  | Some n => if has_symbols n then Some n else None
  | None => None
  end.

(** The end of [burst_detector_create]: the context, and whether the library
    stays open. *)
Definition gpu_setup {G} (use_gpu : bool) (loaded : option (list Z)) (gpu_create : list Z -> option G) : option G * bool :=
  if use_gpu then
    match loaded with
    | Some n => match gpu_create n with Some g => (Some g, true) | None => (None, false) end
    | None => (None, false)
    end
  else (None, false).

(** * Lemmas *)

(** One call at a time. *)
Ltac each_call := repeat match goal with |- context [if ?b then _ else _] => destruct b eqn:? end.

Lemma validate_balanced vkfft e g t :
  let l := validate vkfft e g (t ++ [r_vkfft]) in
  rev t = unwind err_glslang ->
  taken l = t ++ [r_vkfft] /\
  match created l with
  | Some _ => given_back l = []
  | None => given_back l = rev t \/ wait_result (e_test e) = VK_TIMEOUT /\ given_back l = [r_instance; r_window; r_context]
  end.
Proof.
  intros l Ht. unfold l, validate. each_call; cbn [taken created given_back]; (split; [done|]);
    first [done | left; by rewrite Ht | right; split; [by apply Z.eqb_eq|done]].
Qed.

(** The buffer of a created context keeps its size. *)
Lemma dc_signal_length n m : List.length (dc_signal n m) = List.length m.
Proof.
  unfold dc_signal. revert m. generalize (seq 0 n) as l. induction l as [|i l IH]; intros m; [done|]. cbn [fold_left]. rewrite IH. by rewrite !length_insert.
Qed.

Lemma vkfft_length vkfft fft_forward n b buf : VkFFT vkfft fft_forward -> List.length buf = (2 * (b * n))%nat -> List.length (vkfft n b buf) = List.length buf.
Proof.
  intros Hv Hb. destruct (frames_of_spec n b (unflat buf) (length_unflat buf _ Hb)) as (E & F & L).
  rewrite <- (flat_unflat _ buf Hb) at 1. rewrite <- E, vkfft_batched by done. rewrite length_flat, (length_frames _ n), length_map, L, Hb; [lia|].
  apply Forall_map. eapply Forall_impl; [exact F|]. intros x Hx. cbn. by rewrite vkfft_frame_length.
Qed.

Lemma create_context vkfft fft_forward c e b window g : VkFFT vkfft fft_forward -> List.length (e_allocation e) = (2 * (b * fft_size c))%nat ->
  List.length window = fft_size c -> created (gpu_burst_fft_create vkfft e (fft_size c) b window) = Some g -> vk_ok c window g /\ g_batch_size g = b.
Proof.
  intros Hv Ha Hw. unfold gpu_burst_fft_create, create_buffers, validate. destruct (e_devices e) as [|d0 ds]; each_call; try discriminate.
  cbn [created]. intros E. injection E as <-. unfold vk_ok. cbn [with_mapped g_fft_size g_batch_size g_window g_mapped].
  rewrite take_ge by lia. rewrite (vkfft_length vkfft fft_forward), dc_signal_length by (done || by rewrite dc_signal_length). done.
Qed.

(** A transform that gives NaN passes the validation. *)
Lemma nan_passes n im : dc_test_fails n S754_nan im = false.
Proof.
  unfold dc_test_fails. assert (separate S754_nan im = S754_nan) as -> by (unfold separate, f32_add, f32_mul; cbn [SFmul SFadd]; reflexivity).
  unfold f32_gtb, f32_ltb. generalize (f32_mul (f32_mul (f32_of_Z (Z.of_nat n)) (f32_of_Z (Z.of_nat n))) (f32_of_Z 2)) as x. by intros [].
Qed.

(** Where the path of the executable is not known, no name is tried. *)
Lemma no_names_tried dlopen has_symbols : gpu_plugin_load [] dlopen has_symbols = None.
Proof. done. Qed.

(** More platforms than the array has room for, none with a GPU. *)
Lemma platforms_overrun : find_opencl_device CL_SUCCESS (replicate 17 (ClPlatform None (Some 1))) = None.
Proof. reflexivity. Qed.

Lemma first_device_room sel platforms room : (List.length platforms <= room)%nat -> is_Some (first_device sel platforms room).
Proof.
  revert room. induction platforms as [|p rest IH]; intros room H; [by eexists|]. cbn in H. destruct room as [|room]; [lia|].
  cbn [first_device]. destruct (sel p); [by eexists|]. apply IH. lia.
Qed.

Lemma count_permutation (l m : list cl_resource) : (forall r, count_occ cl_resource_eq_dec l r = count_occ cl_resource_eq_dec m r) -> Permutation l m.
Proof. apply Permutation_count_occ. Qed.

(** * Properties *)

(** C30 (safety).  Creating a Vulkan context takes its resources in one order.  A
    context that is returned holds all of them, [gpu_burst_fft_destroy] gives them
    back in the reverse order, and it fits the detector.  A failure before the
    validation transform gives back exactly what was taken, in the reverse order; a
    failure of the validation keeps the VkFFT application, and a device that does
    not answer keeps everything but the instance and the host memory. *)
Theorem gpu_create_balanced vkfft fft_forward c e b window : VkFFT vkfft fft_forward ->
  List.length (e_allocation e) = (2 * (b * fft_size c))%nat -> List.length window = fft_size c ->
  let l := gpu_burst_fft_create vkfft e (fft_size c) b window in
  match created l with
  | Some g => given_back l = [] /\ gpu_burst_fft_destroy = rev (taken l) /\ vk_ok c window g /\ g_batch_size g = b
  | None => given_back l = rev (taken l) \/
      exists t, taken l = t ++ [r_vkfft] /\
        (given_back l = rev t \/ wait_result (e_test e) = VK_TIMEOUT /\ given_back l = [r_instance; r_window; r_context])
  end.
Proof.
  intros Hv Ha Hw l. pose proof (create_context vkfft fft_forward c e b window) as Hc. fold l in Hc.
  destruct (created l) as [g|] eqn:El.
  - destruct (Hc g Hv Ha Hw eq_refl) as [Hok Hb]. unfold l, gpu_burst_fft_create, create_buffers in *. destruct (e_devices e) as [|d0 ds]; each_call; try discriminate.
    match type of El with created (validate ?v ?e ?g (?t ++ _)) = _ => destruct (validate_balanced v e g t eq_refl) as [Ht Hg] end.
    rewrite El in Hg. rewrite Ht. by split.
  - clear Hc. unfold l, gpu_burst_fft_create, create_buffers in *. destruct (e_devices e) as [|d0 ds]; each_call; try (left; reflexivity).
    match type of El with created (validate ?v ?e ?g (?t ++ _)) = _ => destruct (validate_balanced v e g t eq_refl) as [Ht Hg]; rewrite El in Hg; right; by exists t end.
Qed.

(** A discrete GPU beside an integrated one, with a transform that keeps the
    first value. *)
Definition small_device : vk_device := VkDevice 2 [7; 2] [1; 6].
Definition small_env (wait : Z) : vk_env := VkEnv true 0 [VkDevice 1 [1] []; small_device] 0 0 0 0 0 3 0 0 0 (replicate 64 S754_nan) 0 (Dispatch 0 0 wait []).
Definition summing (n b : nat) (buf : list f32) : list f32 :=
  flat (List.concat (map (fun x => <[0%nat := fold_left c_add x c_zero]> x) (frames_of n b (unflat buf)))).
#[export] Instance summing_vkfft : VkFFT summing (fun x => <[0%nat := fold_left c_add x c_zero]> x).
Proof.
  split; [intros; apply length_insert|]. intros n b frames Hb Hf. unfold summing. rewrite unflat_flat, <- Hb.
  rewrite <- (app_nil_r (List.concat frames)) at 1. by rewrite frames_of_concat.
Qed.

Lemma gpu_create_balanced_witness :
  let l := gpu_burst_fft_create summing (small_env 0) 16 2 small_window in
  is_Some (created l) /\ given_back l = [] /\
  given_back (gpu_burst_fft_create summing (small_env 2) 16 2 small_window) = [r_instance; r_window; r_context].
Proof.
  pose proof (gpu_create_balanced summing _ (small_config 16) (small_env 0) 2 small_window summing_vkfft eq_refl eq_refl) as H.
  change (fft_size (small_config 16)) with 16%nat in H. cbn zeta in H |- *.
  assert (is_Some (created (gpu_burst_fft_create summing (small_env 0) 16 2 small_window))) as [g E] by (vm_compute; by eexists).
  rewrite E in H |- *. split; [by eexists|]. split; [by destruct H|vm_compute; reflexivity].
Defined.

(** The OpenCL context: with no more platforms than the array has
    room for, creation returns; a context that is returned holds what
    [gpu_burst_fft_destroy] gives back, a failure gives back what was taken, except
    for the program and kernels of a failed compilation. *)
Theorem opencl_create_balanced e n b window : (List.length (f_platforms e) <= MAX_PLATFORMS)%nat ->
  exists l, cl_burst_fft_create e n b window = Some l /\
  match cl_created l with
  | Some g => cl_given_back l = [] /\ Permutation cl_burst_fft_destroy (cl_taken l)
  | None => Permutation (cl_given_back l) (cl_taken l) \/
      snd (compile_kernels e) = false /\ Permutation (cl_given_back l ++ fst (compile_kernels e)) (cl_taken l)
  end.
Proof.
  intros Hp. unfold cl_burst_fft_create. destruct (negb (f_calloc e)); [eexists; split; [reflexivity|]; by left|].
  assert (is_Some (find_opencl_device (f_platform_err e) (f_platforms e))) as [d ->].
  { unfold find_opencl_device. destruct (_ || _); [by eexists|]. destruct (first_device_room gpu_device _ _ Hp) as [[d|] ->]; [by eexists|].
    by apply first_device_room. }
  destruct d as [d|]; [|eexists; split; [reflexivity|]; by left]. eexists. split; [reflexivity|].
  destruct (compile_kernels e) as [k ok] eqn:Ek. assert (ok = true -> k = [s_program; s_kern_window; s_kern_magnitude]) as Hk.
  { unfold compile_kernels in Ek. repeat case_match; by simplify_eq. }
  destruct (f_buffers e) as [[inp fft] mag].
  destruct ok; [rewrite Hk by done; clear Hk Ek|]; each_call; cbn [cl_created cl_given_back cl_taken fst snd]; try discriminate.
  all: first [ left; by apply count_permutation; intros [] | by apply count_permutation; intros []
             | split; [done|]; by apply count_permutation; intros []
             | right; split; [done|]; apply Permutation_app_tail, count_permutation; by intros [] ].
Qed.
