(* ===== verification/Sidekiq.v ===== *)
(** Samples from an Epiq Sidekiq card, [src/sidekiq.c], and the floats every
    radio back end writes into its buffers.

    libsidekiq delivers blocks of about a thousand samples with the time of their
    first one.  The stream thread gathers whole blocks into buffers and ends a
    buffer early where samples were lost, so that a gap in time falls between two
    buffers.  [grouped] is that contract; [sidekiq_runs] proves it of the loop. *)
From S2P Require Import Prelude CFloat CRound CCanon CComplex CNumber CTable Kernels Simd BurstDownmix Vita49 BurstDetect Capture.
#[local] Open Scope Z_scope.

(** * Floats in a sample buffer *)

(** The 32 bits of a [float]; [f32_of_bits] reads them. *)
Definition bits_of_f32 (x : f32) : Z :=
  let word (s : bool) e m := (if s then 2 ^ 31 else 0) + e * 2 ^ 23 + m in
  match x with
  | S754_zero s => word s 0 0
  | S754_infinity s => word s 255 0
  | S754_nan => word false 255 (2 ^ 22)
  | S754_finite s m e => if Z.pos m <? 2 ^ 23 then word s 0 (Z.pos m) else word s (e + 150) (Z.pos m - 2 ^ 23)
  end.

Lemma word_fields (s : bool) e m : 0 <= e < 256 -> 0 <= m < 2 ^ 23 ->
  let w := (if s then 2 ^ 31 else 0) + e * 2 ^ 23 + m in
  Z.testbit w 31 = s /\ Z.land (Z.shiftr w 23) 255 = e /\ Z.land w (2 ^ 23 - 1) = m.
Proof.
  intros He Hm w. change 255 with (Z.ones 8). change (2 ^ 23 - 1) with (Z.ones 23). rewrite !Z.land_ones, Z.shiftr_div_pow2 by lia.
  assert (w / 2 ^ 23 = (if s then 2 ^ 8 else 0) + e) as Hd.
  { unfold w. replace ((if s then 2 ^ 31 else 0) + e * 2 ^ 23 + m) with (m + ((if s then 2 ^ 8 else 0) + e) * 2 ^ 23) by (destruct s; lia).
    rewrite Z.div_add, Z.div_small by lia. lia. }
  split; [|split].
  - rewrite Z.testbit_eqb by lia. replace (2 ^ 31) with (2 ^ 23 * 2 ^ 8) by lia. rewrite <- Z.div_div, Hd by lia.
    destruct s; [replace (2 ^ 8 + e) with (e + 1 * 2 ^ 8) by lia|rewrite Z.add_0_l]; rewrite ?Z.div_add, Z.div_small by lia; done.
  - rewrite Hd. destruct s; [replace (2 ^ 8 + e) with (e + 1 * 2 ^ 8) by lia; rewrite Z.mod_add by lia|]; apply Z.mod_small; lia.
  - unfold w. replace ((if s then 2 ^ 31 else 0) + e * 2 ^ 23 + m) with (m + ((if s then 2 ^ 8 else 0) + e) * 2 ^ 23) by (destruct s; lia).
    rewrite Z.mod_add by lia. apply Z.mod_small. lia.
Qed.

Lemma bits_roundtrip x : canonical32 x -> f32_of_bits (bits_of_f32 x) = x.
Proof.
  intros Hx. unfold f32_of_bits.
  destruct x as [s|s| |s m e]; cbn [bits_of_f32].
  - destruct (word_fields s 0 0 ltac:(lia) ltac:(lia)) as (-> & -> & ->). done.
  - destruct (word_fields s 255 0 ltac:(lia) ltac:(lia)) as (-> & -> & ->). done.
  - destruct (word_fields false 255 (2 ^ 22) ltac:(lia) ltac:(lia)) as (-> & -> & ->). done.
  - destruct Hx as (Hm & He & Hn). change (2 ^ 24) with 16777216 in Hm. change (2 ^ (24 - 1)) with 8388608 in Hn.
    change (3 - 128 - 24) with (-149) in *. change (128 - 24) with 104 in *.
    destruct (Z.ltb_spec (Z.pos m) (2 ^ 23)) as [Hs|Hs].
    + destruct (word_fields s 0 (Z.pos m) ltac:(lia) ltac:(lia)) as (-> & -> & ->). cbn [Z.eqb]. f_equal. lia.
    + destruct (word_fields s (e + 150) (Z.pos m - 2 ^ 23) ltac:(lia) ltac:(lia)) as (-> & -> & ->).
      rewrite (proj2 (Z.eqb_neq _ _)), (proj2 (Z.eqb_neq _ _)) by lia. replace (Z.pos m - 2 ^ 23 + 2 ^ 23) with (Z.pos m) by lia. f_equal. lia.
Qed.

(** [d * (1.0f / den)]. *)
Definition scaled (den d : Z) : f32 := f32_mul (f32_of_Z d) (f32_div f32_one (f32_of_Z den)).
Definition float_words (den : Z) (data : list Z) : list Z := map (fun d => bits_of_f32 (scaled den d)) data.

(** The complex values of interleaved samples. *)
Definition iq_values (den : Z) (data : list Z) (n : nat) : list c32 :=
  map (fun i => c_of_parts (scaled den (data.[(2 * i)%nat])) (scaled den (data.[(2 * i + 1)%nat]))) (seq 0 n).

Lemma scaled_canonical den d : canonical32 (scaled den d).
Proof. unfold scaled. auto with canon. Qed.

(** The detector reads back what a back end wrote. *)
Lemma feed_float K den data n : (2 * n <= length data)%nat ->
  feed_samples K (SampleBuf n (SAMPLE_FMT_FLOAT (float_words den data))) = iq_values den data n.
Proof.
  intros Hl. unfold feed_samples, iq_values, float_words. cbn [sb_samples sb_num]. apply map_ext_in. intros i Hi%in_seq.
  assert (forall k, (k < length data)%nat -> (map (fun d => bits_of_f32 (scaled den d)) data).[k] = bits_of_f32 (scaled den (data.[k]))) as E.
  { intros k Hk. unfold rd. rewrite (nth_indep _ 0 (bits_of_f32 (scaled den 0))) by by rewrite length_map. apply (map_nth (fun d => bits_of_f32 (scaled den d))). }
  rewrite !E by lia. rewrite !bits_roundtrip by apply scaled_canonical. done.
Qed.

(** * Receiving *)

(** A result of [skiq_receive]. *)
Record skiq_rx := SkiqRx {
  rx_status : Z;
  rx_hdl : Z;
  rx_block : option (Z * list Z);  (** [rf_timestamp] and [data] *)
  rx_len : Z;
}.
Definition skiq_rx_status_success : Z := 0.

(** A block taken for the stream: its time and its samples. *)
Record skiq_block := SkiqBlock { rf_timestamp : Z; blk_data : list Z }.
Definition blk_pairs (b : skiq_block) : nat := (length (blk_data b) / 2)%nat.

Section sidekiq.
Context (header : Z) (hdl : Z) (block_bytes : Z).

(** [SKIQ_RX_HEADER_SIZE_IN_BYTES] is [header]. *)
Definition accept (r : skiq_rx) : option skiq_block :=
  if negb (rx_status r =? skiq_rx_status_success) then None
  else match rx_block r with
       | None => None
       | Some (ts, data) =>
           if rx_len r <=? header then None
           else if negb (rx_hdl r =? hdl) then None
           else
             let pairs := Z.to_nat ((rx_len r - header) / 4) in
             Some (SkiqBlock ts (take (2 * pairs) data))
       end.

Definition block_samps : Z := (block_bytes - header) / 4.
(** [None]: an invalid size ends the program, or the division is by zero. *)
Definition blocks_per_buf : option nat :=
  if block_bytes <=? header then None
  else if block_samps =? 0 then None
  else Some (Z.to_nat ((16384 + block_samps - 1) / block_samps)).
Definition cap_samps (n : nat) : nat := (n * Z.to_nat block_samps)%nat.

(** The variables of the loop; the buffer is what has been written to it. *)
Record stream := Stream {
  st_s : option (list Z);
  st_filled : nat;
  st_blocks_in_buf : nat;
  st_have_prev_ts : bool;
  st_expected_ts : Z;
}.
Definition stream_start : stream := Stream None 0 0 false 0.

(** [push_samples], or [free] when the program is ending. *)
Definition push_if (running : bool) (num : nat) (words : list Z) : list sample_buf :=
  if running then [SampleBuf num (SAMPLE_FMT_FLOAT words)] else [].

(** A turn of the loop; [None] is a write behind the buffer. *)
Definition stream_step (n : nat) (running : bool) (s : stream) (b : skiq_block) : option (stream * list sample_buf) :=
  let gap := st_have_prev_ts s && negb (rf_timestamp b =? st_expected_ts s) in
  let '(buf, filled, blocks, out) :=
    match st_s s with
    | Some words => if gap && (0 <? st_filled s)%nat then (None, 0%nat, 0%nat, push_if running (st_filled s) words)
                    else (Some words, st_filled s, st_blocks_in_buf s, [])
    | None => (None, st_filled s, st_blocks_in_buf s, [])
    end in
  let expected := u64 (rf_timestamp b + Z.of_nat (blk_pairs b)) in
  let '(words, filled, blocks) := match buf with Some words => (words, filled, blocks) | None => ([], 0%nat, 0%nat) end in
  if (cap_samps n <? filled + blk_pairs b)%nat then None
  else
    let words := words ++ float_words 2048 (take (2 * blk_pairs b) (blk_data b)) in
    let filled := (filled + blk_pairs b)%nat in
    let blocks := S blocks in
    if (n <=? blocks)%nat then Some (Stream None 0 0 true expected, out ++ push_if running filled words)
    else Some (Stream (Some words) filled blocks true expected, out).

(** The loop over the results, each with the value of [running] at the push; the
    buffer that is not full at the end is freed. *)
Fixpoint stream_loop (n : nat) (s : stream) (rx : list (skiq_rx * bool)) : option (list sample_buf) :=
  match rx with
  | [] => Some []
  | (r, running) :: rx =>
      match accept r with
      | None => stream_loop n s rx
      | Some b =>
          match stream_step n running s b with
          | None => None
          | Some (s, out) => rest ← stream_loop n s rx; Some (out ++ rest)
          end
      end
  end.

Definition sidekiq_stream_thread (rx : list (skiq_rx * bool)) : option (list sample_buf) :=
  n ← blocks_per_buf; stream_loop n stream_start rx.

(** * The contract *)

(** One block continues another. *)
Definition follows (a b : skiq_block) : Prop := rf_timestamp b = u64 (rf_timestamp a + Z.of_nat (blk_pairs a)).
Fixpoint contiguous (bs : list skiq_block) : Prop :=
  match bs with
  | a :: (b :: _) as rest => follows a b /\ contiguous rest
  | _ => True
  end.

(** The blocks cut into runs, and what is left: a run is full, or a gap
    follows. *)
Inductive grouped (n : nat) : list skiq_block -> list (list skiq_block) -> list skiq_block -> Prop :=
  | grouped_end bs : contiguous bs -> (length bs < n)%nat -> grouped n bs [] bs
  | grouped_full run bs runs rest : contiguous run -> length run = n -> grouped n bs runs rest -> grouped n (run ++ bs) (run :: runs) rest
  | grouped_gap run a b bs runs rest : last run = Some a -> ~ follows a b -> contiguous run -> (length run < n)%nat ->
      grouped n (b :: bs) runs rest -> grouped n (run ++ b :: bs) (run :: runs) rest.

(** The samples of a run. *)
Definition run_data (run : list skiq_block) : list Z := flat_map (fun b => take (2 * blk_pairs b) (blk_data b)) run.
Definition run_pairs (run : list skiq_block) : nat := sum_list_with blk_pairs run.
Definition run_buf (run : list skiq_block) : sample_buf := SampleBuf (run_pairs run) (SAMPLE_FMT_FLOAT (float_words 2048 (run_data run))).

(** ** The loop keeps it *)

(** The state while the run [cur] is being gathered. *)
Definition gathering (n : nat) (cur : list skiq_block) (s : stream) : Prop :=
  contiguous cur /\ (length cur < n)%nat /\
  st_s s = (match cur with [] => None | _ => Some (float_words 2048 (run_data cur)) end) /\
  (cur <> [] -> st_filled s = run_pairs cur /\ st_blocks_in_buf s = length cur /\ st_have_prev_ts s = true) /\
  (forall a, last cur = Some a -> st_expected_ts s = u64 (rf_timestamp a + Z.of_nat (blk_pairs a))).

(** A block the card can deliver. *)
Definition block_ok (b : skiq_block) : Prop := (0 < blk_pairs b <= Z.to_nat block_samps)%nat.

Lemma contiguous_snoc bs b : contiguous (bs ++ [b]) <-> contiguous bs /\ (forall a, last bs = Some a -> follows a b).
Proof.
  induction bs as [|a bs IH]; [by cbn; split|]. destruct bs as [|a' bs].
  - cbn. split; [intros [H _]; split; [done|]; by intros ? [= <-]|intros [_ H]; split; [by apply H|done]].
  - change (contiguous ((a :: a' :: bs) ++ [b])) with (follows a a' /\ contiguous ((a' :: bs) ++ [b])). rewrite IH.
    change (contiguous (a :: a' :: bs)) with (follows a a' /\ contiguous (a' :: bs)). change (last (a :: a' :: bs)) with (last (a' :: bs)). tauto.
Qed.

Lemma run_bounds n run : Forall block_ok run -> (length run <= n)%nat -> (run_pairs run <= cap_samps n)%nat.
Proof.
  intros H Hn. transitivity (length run * Z.to_nat block_samps)%nat; [|unfold cap_samps; nia]. clear Hn. unfold run_pairs.
  induction H as [|b run [_ Hb] _ IH]; cbn [sum_list_with length Nat.mul]; lia.
Qed.

Lemma run_snoc run b : run_pairs (run ++ [b]) = (run_pairs run + blk_pairs b)%nat /\
  float_words 2048 (run_data (run ++ [b])) = float_words 2048 (run_data run) ++ float_words 2048 (take (2 * blk_pairs b) (blk_data b)).
Proof.
  unfold run_pairs, run_data, float_words. rewrite sum_list_with_app, flat_map_app, map_app. cbn [sum_list_with flat_map]. by rewrite app_nil_r, Nat.add_0_r.
Qed.

Lemma run_pairs_pos run : run <> [] -> Forall block_ok run -> (0 < run_pairs run)%nat.
Proof. intros Hr H. destruct H as [|b run [Hb _] _]; [done|]. unfold run_pairs. cbn [sum_list_with]. lia. Qed.

(** A block that begins or continues the run. *)
Lemma step_gathers n cur b s : gathering n cur s -> Forall block_ok (cur ++ [b]) -> (forall a, last cur = Some a -> follows a b) ->
  exists s', if (n <=? S (length cur))%nat
    then stream_step n true s b = Some (s', [run_buf (cur ++ [b])]) /\ gathering n [] s' /\ contiguous (cur ++ [b])
    else stream_step n true s b = Some (s', []) /\ gathering n (cur ++ [b]) s'.
Proof.
  intros (Hc & Hl & Hs & Hf & He) Hok Hfw. pose proof (proj2 (contiguous_snoc cur b) (conj Hc Hfw)) as Hc'.
  pose proof (run_bounds n (cur ++ [b]) Hok ltac:(rewrite length_app; cbn; lia)) as Hcap. destruct (run_snoc cur b) as [Ep Ew]. rewrite Ep in Hcap.
  assert (stream_step n true s b =
    if (n <=? S (length cur))%nat then Some (Stream None 0 0 true (u64 (rf_timestamp b + Z.of_nat (blk_pairs b))), [run_buf (cur ++ [b])])
    else Some (Stream (Some (float_words 2048 (run_data (cur ++ [b])))) (run_pairs (cur ++ [b])) (S (length cur)) true (u64 (rf_timestamp b + Z.of_nat (blk_pairs b))), [])) as ->.
  { unfold stream_step. rewrite Hs, Ep, Ew. unfold run_buf. rewrite Ep, Ew. destruct cur as [|a cur].
    - change (run_pairs []) with 0%nat in *. cbn [length app]. rewrite (proj2 (Nat.ltb_ge _ _)) by lia. done.
    - destruct (Hf ltac:(done)) as (-> & -> & ->). destruct (last (a :: cur)) as [z|] eqn:Ez; [|by apply last_None in Ez].
      rewrite (He z eq_refl), (Hfw z eq_refl), Z.eqb_refl. cbn [negb andb]. rewrite (proj2 (Nat.ltb_ge _ _)) by lia. done. }
  destruct (Nat.leb_spec n (S (length cur))) as [Hn|Hn]; eexists.
  - split; [reflexivity|]. split; [|done]. split; [done|]. cbn. split; [lia|]. done.
  - split; [reflexivity|]. split; [done|]. rewrite length_app. cbn [length st_s st_filled st_blocks_in_buf st_have_prev_ts st_expected_ts]. split; [lia|].
    split; [by destruct cur|]. split; [intros _; split; [done|]; split; [lia|done]|]. intros a Ha. rewrite last_snoc in Ha. by injection Ha as <-.
Qed.

(** A block after a gap: the run is pushed, and the step is that of an empty
    buffer. *)
Lemma step_flushes n cur a b s : gathering n cur s -> Forall block_ok cur -> last cur = Some a -> ~ follows a b ->
  exists s0, gathering n [] s0 /\
    stream_step n true s b = ('(s', out) ← stream_step n true s0 b; Some (s', run_buf cur :: out)).
Proof.
  intros (Hc & Hl & Hs & Hf & He) Hok Ha Hn. assert (cur <> []) as Hne by by intros ->.
  exists (Stream None 0 0 true (st_expected_ts s)). split; [split; [done|]; cbn; split; [lia|done]|].
  destruct (Hf Hne) as (Ef & Eb & Ep). unfold stream_step. cbn [st_s st_filled st_blocks_in_buf st_have_prev_ts st_expected_ts].
  rewrite Hs, Ef, Eb, Ep, (He a Ha). rewrite (proj2 (Z.eqb_neq _ _)) by done.
  rewrite (proj2 (Nat.ltb_lt 0 (run_pairs cur))) by by apply run_pairs_pos.
  destruct cur as [|c0 cur]; [done|]. cbn [negb andb app]. destruct (_ <? _)%nat; [done|]. cbn [Nat.add].
  by destruct (n <=? 1)%nat.
Qed.

Lemma loop_groups n rx : Forall (fun p => snd p = true) rx -> Forall block_ok (omap (fun p => accept (fst p)) rx) ->
  forall cur s, gathering n cur s -> Forall block_ok cur ->
  exists runs rest, stream_loop n s rx = Some (map run_buf runs) /\ grouped n (cur ++ omap (fun p => accept (fst p)) rx) runs rest.
Proof.
  induction 1 as [|[r running] rx Hr _ IH]; intros Hbs cur s Hg Hcur.
  { exists [], cur. split; [done|]. cbn. rewrite app_nil_r. destruct Hg as (Hc & Hl & _). by constructor. }
  cbn [snd] in Hr. subst running. cbn [stream_loop omap list_omap fst] in *.
  destruct (accept r) as [b|]; [|by apply IH]. inversion Hbs as [|? ? Hb Hbs']. subst. specialize (IH Hbs').
  set (bs := omap (fun p : skiq_rx * bool => accept p.1) rx) in *. change (omap _ rx) with bs.
  assert (forall cur s, gathering n cur s -> Forall block_ok cur -> (forall a, last cur = Some a -> follows a b) ->
    exists runs rest s' out, stream_step n true s b = Some (s', out) /\ stream_loop n s' rx = Some (map run_buf rest) /\ out ++ map run_buf rest = map run_buf runs /\
      exists left, grouped n (cur ++ b :: bs) runs left) as Hstep.
  { clear cur s Hg Hcur. intros cur s Hg Hcur Hfw.
    assert (Forall block_ok (cur ++ [b])) as Hok by (apply Forall_app; split; [done|by constructor]).
    pose proof Hg as (_ & Hl & _). destruct (step_gathers n cur b s Hg Hok Hfw) as [s' Hs].
    replace (cur ++ b :: bs) with ((cur ++ [b]) ++ bs) by by rewrite <- app_assoc.
    destruct (Nat.leb_spec n (S (length cur))).
    - destruct Hs as (E & Hg' & Hc'). destruct (IH [] s' Hg' ltac:(constructor)) as (runs & rest & El & Hgr).
      exists ((cur ++ [b]) :: runs), runs, s', [run_buf (cur ++ [b])]. split; [done|]. split; [done|]. split; [done|]. exists rest.
      constructor; [done|rewrite length_app; cbn; lia|done].
    - destruct Hs as (E & Hg'). destruct (IH (cur ++ [b]) s' Hg' Hok) as (runs & rest & El & Hgr).
      exists runs, runs, s', []. split; [done|]. split; [done|]. split; [done|]. by exists rest. }
  destruct (last cur) as [a|] eqn:Ea.
  - destruct (decide (rf_timestamp b = u64 (rf_timestamp a + Z.of_nat (blk_pairs a)))) as [Hfa|Hfa].
    + destruct (Hstep cur s Hg Hcur) as (runs & rest & s' & out & -> & -> & E & left & Hgr); [by rewrite Ea; intros ? [= <-]|].
      exists runs, left. cbn. by rewrite E.
    + destruct (step_flushes n cur a b s Hg Hcur Ea Hfa) as (s0 & Hg0 & ->).
      destruct (Hstep [] s0 Hg0 ltac:(constructor) ltac:(done)) as (runs & rest & s' & out & -> & E' & E & left & Hgr).
      cbn [mbind option_bind]. rewrite E'. exists (cur :: runs), left. cbn [map mbind option_bind app]. rewrite <- E. split; [done|].
      destruct Hg as (Hc & Hl & _). by apply (grouped_gap n cur a b).
  - destruct (Hstep cur s Hg Hcur) as (runs & rest & s' & out & -> & -> & E & left & Hgr); [by rewrite Ea|]. exists runs, left. cbn. by rewrite E.
Qed.
End sidekiq.

(** * Cards *)

(** What the program does to the library and its cards. *)
Inductive skiq_event := sdk_init | sdk_exit | enable_basic (card : Z) | enable_full (card : Z) | disable (card : Z) | start_streaming (card : Z) | stop_streaming (card : Z).

(** The results of its calls. *)
Record skiq_env := SkiqEnv {
  init_ok : bool;
  get_cards : option (list Z);
  basic_ok : Z -> bool;
  serial_of : Z -> option (list Z);
  full_ok : bool;
  lo_ok : bool;
  gain_range : Z * Z;
  start_ok : bool;
}.

Definition sdk_acquire (e : skiq_env) (sdk_inited : bool) : list skiq_event * bool :=
  if sdk_inited then ([], true) else if init_ok e then ([sdk_init], true) else ([], false).
Definition sdk_release (sdk_inited : bool) : list skiq_event := if sdk_inited then [sdk_exit] else [].

(** ["sidekiq-"] and a serial that is not empty. *)
Definition sidekiq_parse_serial (name : list Z) : option (list Z) :=
  if starts_with [115; 105; 100; 101; 107; 105; 113; 45] name then match drop 8 name with [] => None | s => Some s end else None.

Definition strcaseeq (a b : list Z) : bool := bool_decide (map tolower a = map tolower b).

Fixpoint probe_cards (e : skiq_env) (want : list Z) (cards : list Z) : list skiq_event * option Z :=
  match cards with
  | [] => ([], None)
  | card :: cards =>
      if basic_ok e card then
        let probe := [enable_basic card; disable card] in
        if match serial_of e card with Some s => strcaseeq s want | None => false end then (probe, Some card)
        else let '(ev, r) := probe_cards e want cards in (probe ++ ev, r)
      else probe_cards e want cards
  end.

Definition sidekiq_pick_card (e : skiq_env) (want_serial : option (list Z)) : list skiq_event * option Z :=
  match get_cards e with
  | None | Some [] => ([], None)
  | Some (c0 :: rest) =>
      match want_serial with
      | None => ([], Some c0)
      | Some s => probe_cards e s (c0 :: rest)
      end
  end.

(** The gain index kept in the range of the device, and the analog bandwidth. *)
Definition gain_index (gmin gmax gain : Z) : Z :=
  let gi := if gain <? gmin then gmin else gain in
  if gi >? gmax then gmax else gi.
Definition sidekiq_bandwidth (samp_rate : f64) : Z :=
  let bandwidth := f64_trunc (f64_mul samp_rate (f64_lit 8 10)) in
  if bandwidth >? 56000000 then 56000000 else bandwidth.

(** [sidekiq_setup]: what happened, and the card and gain of the context;
    [None] ends the program. *)
Definition sidekiq_setup (e : skiq_env) (sidekiq_gain_val : Z) (name : list Z) : list skiq_event * option (Z * Z) :=
  match sdk_acquire e false with
  | (ev, false) => (ev, None)
  | (ev, true) =>
      let '(ev', picked) := sidekiq_pick_card e (sidekiq_parse_serial name) in
      let ev := ev ++ ev' in
      match picked with
      | None => (ev ++ sdk_release true, None)
      | Some card =>
          let ev := ev ++ [disable card] in
          if negb (full_ok e) then (ev ++ sdk_release true, None) else
          let ev := ev ++ [enable_full card] in
          if negb (lo_ok e) then (ev ++ [disable card] ++ sdk_release true, None) else
          let gi := gain_index (fst (gain_range e)) (snd (gain_range e)) sidekiq_gain_val in
          if negb (start_ok e) then (ev ++ [disable card] ++ sdk_release true, None)
          else (ev ++ [start_streaming card], Some (card, gi))
      end
  end.

(** The end of the stream thread, and [sidekiq_close]. *)
Definition stream_thread_ends (card : Z) : list skiq_event := [stop_streaming card].
Definition sidekiq_close (card : Z) (streaming : bool) : list skiq_event :=
  (if streaming then [stop_streaming card] else []) ++ [disable card] ++ sdk_release true.

(** The library after some events; [None] when it is used outside of
    initialisation, a card twice, or a stream of a card that is not enabled. *)
Record skiq_lib := SkiqLib { lib_inited : bool; lib_enabled : option Z; lib_streaming : bool }.
Definition lib_closed : skiq_lib := SkiqLib false None false.
Definition replay1 (l : skiq_lib) (ev : skiq_event) : option skiq_lib :=
  match ev with
  | sdk_init => if lib_inited l then None else Some (SkiqLib true (lib_enabled l) (lib_streaming l))
  | sdk_exit => if lib_inited l then Some (SkiqLib false (lib_enabled l) (lib_streaming l)) else None
  | enable_basic c | enable_full c => if lib_inited l then match lib_enabled l with None => Some (SkiqLib true (Some c) (lib_streaming l)) | Some _ => None end else None
  | disable c => if lib_inited l then Some (SkiqLib true (if decide (lib_enabled l = Some c) then None else lib_enabled l) (lib_streaming l)) else None
  | start_streaming c => if decide (lib_enabled l = Some c) then Some (SkiqLib (lib_inited l) (lib_enabled l) true) else None
  | stop_streaming c => if decide (lib_enabled l = Some c) then Some (SkiqLib (lib_inited l) (lib_enabled l) false) else None
  end.
Fixpoint replay (l : skiq_lib) (evs : list skiq_event) : option skiq_lib :=
  match evs with [] => Some l | ev :: evs => l ← replay1 l ev; replay l evs end.

Lemma lib_replay_app l a b : replay l (a ++ b) = (l ← replay l a; replay l b).
Proof. revert l. induction a as [|ev a IH]; intros l; [done|]. cbn. destruct (replay1 l ev); [apply IH|done]. Qed.

Lemma probe_balanced e want cards : replay (SkiqLib true None false) (fst (probe_cards e want cards)) = Some (SkiqLib true None false).
Proof.
  induction cards as [|card cards IH]; [done|]. cbn [probe_cards]. destruct (basic_ok e card); [|done].
  set (m := match serial_of e card with Some s => strcaseeq s want | None => false end).
  destruct m, (probe_cards e want cards) as [ev r]; cbn; destruct (decide _); done.
Qed.

Lemma pick_balanced e want : replay (SkiqLib true None false) (fst (sidekiq_pick_card e want)) = Some (SkiqLib true None false).
Proof. unfold sidekiq_pick_card. destruct (get_cards e) as [[|c0 rest]|], want; try done. apply probe_balanced. Qed.

(** The card that is opened: the first, or one with the serial. *)
Lemma probe_found e want cards c : snd (probe_cards e want cards) = Some c ->
  In c cards /\ exists s, serial_of e c = Some s /\ map tolower s = map tolower want.
Proof.
  induction cards as [|card cards IH]; [done|]. cbn [probe_cards]. destruct (basic_ok e card).
  - destruct (serial_of e card) as [s|] eqn:Es; [destruct (strcaseeq s want) eqn:Em|];
      destruct (probe_cards e want cards) as [ev r]; cbn [snd]; intros H.
    + injection H as <-. split; [by left|]. exists s. split; [done|]. by apply bool_decide_eq_true in Em.
    + destruct (IH H) as [Hi Hs]. split; [by right|done].
    + destruct (IH H) as [Hi Hs]. split; [by right|done].
  - intros H. destruct (IH H) as [Hi Hs]. split; [by right|done].
Qed.

(** * Properties *)

(** C14 (refinement).  For blocks of at most the announced size, gathering never
    writes behind a buffer, and pushes the received blocks, in order and none
    twice, cut into runs without a gap: a buffer holds as many whole blocks as
    reach 16384 samples, or ends where samples were lost; only the run under way
    at the end is dropped.  The detector reads each sample as its value over
    2048. *)
Theorem sidekiq_runs header hdl block_bytes rx : 0 <= header -> header + 4 <= block_bytes ->
  Forall (fun p => snd p = true) rx -> Forall (block_ok header block_bytes) (omap (fun p => accept header hdl (fst p)) rx) ->
  exists n runs rest,
    sidekiq_stream_thread header hdl block_bytes rx = Some (map run_buf runs) /\
    grouped n (omap (fun p => accept header hdl (fst p)) rx) runs rest /\
    16384 <= Z.of_nat n * block_samps header block_bytes < 16384 + block_samps header block_bytes /\
    forall K, Forall (fun run => feed_samples K (run_buf run) = iq_values 2048 (run_data run) (run_pairs run)) runs.
Proof.
  intros Hh Hb Hr Hok. set (bs := block_samps header block_bytes). assert (0 < bs) as Hbs by (unfold bs, block_samps; apply Z.div_str_pos; lia).
  set (n := Z.to_nat ((16384 + bs - 1) / bs)). pose proof (Z.div_mod (16384 + bs - 1) bs ltac:(lia)) as Hd.
  pose proof (Z.mod_pos_bound (16384 + bs - 1) bs Hbs) as Hm.
  assert (0 < (16384 + bs - 1) / bs) as Hp by (apply Z.div_str_pos; lia).
  assert (blocks_per_buf header block_bytes = Some n) as En.
  { unfold blocks_per_buf. rewrite (proj2 (Z.leb_gt _ _)) by lia. fold bs. by rewrite (proj2 (Z.eqb_neq _ _)) by lia. }
  destruct (loop_groups header hdl block_bytes n rx Hr Hok [] stream_start) as (runs & rest & E & G); [|constructor|].
  { split; [done|]. cbn. split; [unfold n; lia|done]. }
  exists n, runs, rest. unfold sidekiq_stream_thread. rewrite En. cbn [mbind option_bind]. split; [done|]. split; [done|].
  split; [unfold n; rewrite Z2Nat.id by lia; nia|]. intros K. apply Forall_true. intros run. apply feed_float.
  unfold run_pairs, run_data. induction run as [|b run IH]; [done|]. cbn [sum_list_with flat_map]. rewrite length_app, length_take.
  pose proof (Nat.Div0.mul_div_le (length (blk_data b)) 2). fold (blk_pairs b) in *. lia.
Qed.

(** Blocks of two samples, two to a buffer; samples are lost before the last
    one. *)
Definition small_rx (ts : Z) : skiq_rx * bool := (SkiqRx 0 0 (Some (ts, [2048; -1024; ts; 0])) 32, true).
Definition small_stream_rx : list (skiq_rx * bool) := [small_rx 100; small_rx 102; (SkiqRx 1 0 None 0, true); small_rx 104; small_rx 200].

Lemma sidekiq_runs_witness :
  option_map (map sb_num) (sidekiq_stream_thread 24 0 32792 small_stream_rx) = Some [4%nat; 2%nat] /\
  exists n runs rest, sidekiq_stream_thread 24 0 32792 small_stream_rx = Some (map run_buf runs) /\
    grouped n (omap (fun p => accept 24 0 (fst p)) small_stream_rx) runs rest /\ n = 2%nat.
Proof.
  split; [vm_compute; reflexivity|].
  destruct (sidekiq_runs 24 0 32792 small_stream_rx) as (n & runs & rest & E & G & Hn & _); [lia|lia|repeat constructor| |].
  - assert (Forall (fun b => blk_pairs b = 2%nat) (omap (fun p => accept 24 0 (fst p)) small_stream_rx)) as H by (repeat constructor).
    eapply Forall_impl; [exact H|]. intros b Hb. unfold block_ok. rewrite Hb. change (block_samps 24 32792) with 8192. lia.
  - change (block_samps 24 32792) with 8192 in Hn. exists n, runs, rest. split; [done|]. split; [done|lia].
Defined.

(** An announced size with room for less than one sample passes the check and
    divides by zero. *)
Lemma short_block header : blocks_per_buf header (header + 3) = None /\ block_samps header (header + 3) = 0.
Proof.
  assert (block_samps header (header + 3) = 0) as H by (unfold block_samps; replace (header + 3 - header) with 3 by lia; done).
  split; [|done]. unfold blocks_per_buf. rewrite H. by destruct (_ <=? _).
Qed.

(** A setup that ends the program has closed the library; one that returns has
    the card enabled and streaming, and the stream thread with
    [sidekiq_close] closes everything. *)
Lemma sidekiq_setup_balanced e gain name :
  let '(ev, ctx) := sidekiq_setup e gain name in
  match ctx with
  | None => replay lib_closed ev = Some lib_closed
  | Some (card, gi) => replay lib_closed ev = Some (SkiqLib true (Some card) true) /\
      replay lib_closed (ev ++ stream_thread_ends card ++ sidekiq_close card false) = Some lib_closed /\
      (fst (gain_range e) <= snd (gain_range e) -> fst (gain_range e) <= gi <= snd (gain_range e))
  end.
Proof.
  unfold sidekiq_setup, sdk_acquire. destruct (init_ok e); [|done].
  pose proof (pick_balanced e (sidekiq_parse_serial name)) as Hp. destruct (sidekiq_pick_card e _) as [ev' [card|]]; cbn [fst] in Hp.
  2: { rewrite lib_replay_app. change (replay lib_closed ([sdk_init] ++ ev')) with (replay (SkiqLib true None false) ev'). by rewrite Hp. }
  assert (forall t, replay lib_closed ((([sdk_init] ++ ev') ++ [disable card]) ++ t) = replay (SkiqLib true None false) t) as Hpre.
  { intros t. rewrite !lib_replay_app. change (replay lib_closed [sdk_init]) with (Some (SkiqLib true None false)). cbn [mbind option_bind].
    rewrite Hp. cbn. by destruct (decide (None = Some card)). }
  destruct (negb (full_ok e)); [rewrite Hpre; done|]. destruct (negb (lo_ok e)).
  { rewrite <- app_assoc, Hpre. cbn. by rewrite decide_True by done. }
  destruct (negb (start_ok e)).
  { rewrite <- app_assoc, Hpre. cbn. by rewrite decide_True by done. }
  rewrite <- !app_assoc, ?(app_assoc [sdk_init]), ?(app_assoc _ [disable card]), ?Hpre. split; [cbn; by rewrite decide_True by done|].
  split; [repeat (cbn; rewrite decide_True by done); done|]. unfold gain_index. rewrite Z.gtb_ltb. case_match; [rewrite ?Z.ltb_lt in *|]; case_match; rewrite ?Z.ltb_lt, ?Z.ltb_ge in *; lia.
Qed.
