(* ===== verification/Radio.v ===== *)
(** The other radios: [src/hackrf.c], [src/bladerf.c], [src/usrp.c],
    [src/soapysdr.c] and [src/sdrplay.c].

    Each back end opens and tunes a device, then hands buffers of samples to
    [push_samples].  The drivers are libraries: the result of each call is an
    input.  A setup is the list of calls it makes, each of which ends the program
    when it fails or is only reported; a stream thread is a loop over what the
    driver delivers. *)
From S2P Require Import Prelude CFloat CRound CCanon CComplex CString Options JsonText CNumber CTable Kernels Simd BurstDownmix Vita49 BurstDetect Capture Sidekiq.
#[local] Open Scope Z_scope.

(** * Setting up *)

Inductive clock_setting := CLOCK_SRC_INTERNAL | CLOCK_SRC_EXTERNAL | CLOCK_SRC_GPSDO.

Inductive radio_call :=
  | Open (arg : option (list Z))
  | SetRate (hz : f64)
  | SetFreq (hz : f64)
  | SetFreqHz (hz : Z)
  | SetBandwidthHz (hz : Z)
  | SetBandwidth (hz : f64)
  | ManualGain
  | SetGain (element : list Z) (value : f64)
  | SetGainInt (stage : list Z) (value : Z)
  | EnableAmp
  | BiasTee
  | ClockSource (c : clock_setting)
  | TimeSource (c : clock_setting).

(** Whether a failure of the call ends the program. *)
Inductive setup_step := Must (c : radio_call) | May (c : radio_call).
Definition step_call (s : setup_step) : radio_call := match s with Must c | May c => c end.

(** The calls made, and whether the setup returns. *)
Fixpoint run_setup (ok : radio_call -> bool) (steps : list setup_step) : list radio_call * bool :=
  match steps with
  | [] => ([], true)
  | Must c :: steps => if ok c then let '(l, r) := run_setup ok steps in (c :: l, r) else ([c], false)
  | May c :: steps => let '(l, r) := run_setup ok steps in (c :: l, r)
  end.

(** The clock and time sources other than the internal one. *)
Definition clock_steps (step : radio_call -> setup_step) (call : clock_setting -> radio_call) (c : clock_setting) : list setup_step :=
  match c with CLOCK_SRC_INTERNAL => [] | c => [step (call c)] end.

Definition hackrf_setup (serial : option (list Z)) (samp_rate center_freq : f64) (vga lna : Z) (amp bias_tee : bool) : list setup_step :=
  [Must (Open serial); Must (SetRate samp_rate); Must (SetFreqHz (f64_trunc center_freq));
   Must (SetGainInt (bytes_of "vga") vga); Must (SetGainInt (bytes_of "lna") lna)] ++
  when amp [Must EnableAmp] ++ when bias_tee [Must BiasTee].

(** The instance, or else any device. *)
Definition bladerf_identifier (id : Z) : list Z := bytes_of (snprintf 32 (String.append "*:instance=" (fmt_d id))).
Definition bladerf_setup (ok : radio_call -> bool) (id : Z) (samp_rate center_freq : f64) (gain : Z) (bias_tee : bool) (clock_source : clock_setting) : list setup_step :=
  (if ok (Open (Some (bladerf_identifier id))) then [Must (Open (Some (bladerf_identifier id)))]
   else [May (Open (Some (bladerf_identifier id))); Must (Open None)]) ++
  [Must (SetBandwidthHz (f64_trunc (f64_mul samp_rate (f64_lit 9 10)))); Must (SetFreqHz (f64_trunc center_freq)); Must ManualGain;
   Must (SetGainInt (bytes_of "rx") gain)] ++
  when bias_tee [Must BiasTee] ++ clock_steps May ClockSource clock_source.

Definition usrp_setup (serial : list Z) (samp_rate center_freq : f64) (gain : Z) (clock_source time_source : clock_setting) : list setup_step :=
  [Must (Open (Some (take 127 (bytes_of "serial=" ++ serial ++ bytes_of ",num_recv_frames=1024"))))] ++
  clock_steps Must ClockSource clock_source ++ clock_steps Must TimeSource time_source ++
  [Must (SetRate samp_rate); Must (SetGain [] (f64_of_Z gain)); Must (SetFreq center_freq)].

(** [soapy_setup] after the device is open: gain elements that were given
    replace the aggregate gain. *)
Definition soapy_setup (samp_rate center_freq : f64) (has_gain_mode : bool) (elements : list (list Z * f64)) (soapy_gain_val : f64)
    (clock_source time_source : clock_setting) : list setup_step :=
  [Must (SetRate samp_rate); Must (SetFreq center_freq)] ++ when has_gain_mode [May ManualGain] ++
  (match elements with
   | [] => [May (SetGain [] soapy_gain_val)]
   | _ => map (fun e => May (SetGain (fst e) (snd e))) elements
   end) ++
  [May (SetBandwidth samp_rate)] ++ clock_steps May ClockSource clock_source ++ clock_steps May TimeSource time_source.

(** The index of [soapy_setup]; [None] ends the program. *)
Definition soapy_index (id : Z) (devices : nat) : option nat :=
  if (id <? 0) || (Z.of_nat devices <=? id) then None else Some (Z.to_nat id).

(** * HackRF *)

(** The serial without its leading zeros. *)
Fixpoint skip_zeros (s : list Z) : list Z := match s with c :: r => if c =? 48 then skip_zeros r else s | [] => [] end.
Definition hackrf_name (serial : list Z) : list Z := take 63 (bytes_of "hackrf-" ++ skip_zeros serial).

(** [hackrf_rx_cb]; [None] when the program is ending. *)
Definition hackrf_rx_cb (running : bool) (buffer : list Z) (valid_length : nat) : option sample_buf :=
  let num := (valid_length / 2)%nat in
  let s := SampleBuf num (SAMPLE_FMT_INT8 (map (fun i => to_signed 8 (buffer.[i])) (seq 0 (num * 2)))) in
  if running then Some s else None.

(** * BladeRF *)

Definition bladerf_rx_cb (workaround running : bool) (samples : list Z) (num_samples : nat) : option sample_buf :=
  let num_samples := if workaround then (num_samples * 2)%nat else num_samples in
  let s := SampleBuf num_samples (SAMPLE_FMT_FLOAT (float_words 2048 (take (num_samples * 2) samples))) in
  if running then Some s else None.

(** What happens in the loop: the driver calls back, or [bladerf_stream]
    returns. *)
Inductive blade_event := Callback (samples : list Z) (num_samples : nat) | Returns (status : Z).
Definition BLADERF_ERR_TIMEOUT : Z := -6.

(** [timeouts] counts the time-outs since the last callback.  [Some] is the
    number of events after which the thread has ended and the process is
    interrupted. *)
Fixpoint bladerf_loop (timeouts : nat) (events : list blade_event) : option nat :=
  match events with
  | [] => None
  | Callback _ _ :: events => option_map S (bladerf_loop 0 events)
  | Returns status :: events =>
      if status <? 0 then
        if negb (status =? BLADERF_ERR_TIMEOUT) then Some 1%nat
        else if (S timeouts <? 5)%nat then option_map S (bladerf_loop (S timeouts) events)
        else Some 1%nat
      else option_map S (bladerf_loop timeouts events)
  end.

(** The buffers pushed until then. *)
Definition bladerf_pushed (workaround : bool) (events : list blade_event) : list sample_buf :=
  omap (fun e => match e with Callback d n => bladerf_rx_cb workaround true d n | Returns _ => None end) events.
Definition bladerf_stream_thread (workaround : bool) (events : list blade_event) : list sample_buf * bool :=
  match bladerf_loop 0 events with
  | Some k => (bladerf_pushed workaround (take k events), true)
  | None => (bladerf_pushed workaround events, false)
  end.

(** * USRP *)

Definition KVLEN : nat := 16.
Record kv_pair := KvPair { kv_key : list Z; kv_value : list Z }.

(** The segments between commas; one after a final comma is not looked at. *)
Fixpoint kv_segments (fuel : nat) (s : list Z) : list (list Z) :=
  match fuel, s with
  | O, _ | _, [] => []
  | S fuel, _ =>
      match split_at 44 s with
      | Some (seg, rest) => seg :: kv_segments fuel rest
      | None => [s]
      end
  end.
Definition segments (s : list Z) : list (list Z) := kv_segments (List.length s) s.

(** [strncpy] of [KVLEN - 1] characters and a final zero. *)
Definition parse_pair (seg : list Z) : option kv_pair :=
  match split_at 61 seg with
  | Some (k, v) => Some (KvPair (take (KVLEN - 1) k) (take (KVLEN - 1) v))
  | None => None
  end.
Fixpoint parse_segments (segs : list (list Z)) : option (list kv_pair) :=
  match segs with
  | [] => Some []
  | seg :: segs => p ← parse_pair seg; l ← parse_segments segs; Some (p :: l)
  end.

(** [parse_kv_pairs]: the array, null where a segment has no equals sign, and the
    variable of the caller, which is then left as it was. *)
Definition parse_kv_pairs (str : list Z) (pairs_out : nat) : option (list kv_pair) * nat :=
  match parse_segments (segments str) with
  | Some l => (Some l, List.length l)
  | None => (None, pairs_out)
  end.

(** [_find]: [None] reads a null array. *)
Definition find_value (key : list Z) (p : option (list kv_pair)) (num_pairs : nat) : option (option (list Z)) :=
  match p with
  | Some l => Some (kv_value <$> List.find (fun kv => bool_decide (kv_key kv = key)) (take num_pairs l))
  | None => if (num_pairs =? 0)%nat then Some None else None
  end.

(** The loop of [usrp_list]: the names printed. *)
Definition usrp_name (product serial : list Z) : list Z := take 127 (bytes_of "usrp-" ++ product ++ [45] ++ serial).
Fixpoint usrp_list (pairs : nat) (devices : list (list Z)) : option (list (list Z)) :=
  match devices with
  | [] => Some []
  | d :: devices =>
      let '(info, pairs) := parse_kv_pairs d pairs in
      product ← find_value (bytes_of "product") info pairs;
      let product := default (bytes_of "unk") product in
      type ← find_value (bytes_of "type") info pairs;
      serial ← find_value (bytes_of "serial") info pairs;
      rest ← usrp_list pairs devices;
      match type, serial with
      | Some _, Some serial => Some (usrp_name product serial :: rest)
      | _, _ => Some rest
      end
  end.

(** What [uhd_rx_streamer_recv] delivers, and [running] at the push. *)
Record uhd_rx := UhdRx { uhd_num : nat; uhd_data : list Z; uhd_error : Z; uhd_secs : Z; uhd_frac : f64; uhd_running : bool }.

Definition usrp_timestamp (hw_time : bool) (r : uhd_rx) : Z :=
  if hw_time && (0 <? uhd_secs r) then u64 (uhd_secs r * 1000000000 + f64_trunc (f64_mul (uhd_frac r) (f64_of_Z 1000000000))) else 0.

(** [usrp_stream_thread]: the buffers with their times, and whether an error ends
    the program. *)
Fixpoint usrp_stream_thread (time_source : clock_setting) (rx : list uhd_rx) : list (sample_buf * Z) * bool :=
  match rx with
  | [] => ([], false)
  | r :: rx =>
      if negb (uhd_error r =? 0) && negb (uhd_error r =? 8) then ([], true)
      else
        let hw_time := match time_source with CLOCK_SRC_INTERNAL => false | _ => true end in
        let s := SampleBuf (uhd_num r) (SAMPLE_FMT_INT8 (map (to_signed 8) (take (2 * uhd_num r) (uhd_data r)))) in
        let '(l, e) := usrp_stream_thread time_source rx in
        (when (uhd_running r) [(s, usrp_timestamp hw_time r)] ++ l, e)
  end.

(** * SoapySDR *)

Inductive soapy_mode := CS8 | CF32 | CS16.

(** The loop over the formats of the device. *)
Fixpoint pick_mode (formats : list (list Z)) (mode : soapy_mode) : soapy_mode :=
  match formats with
  | [] => mode
  | f :: formats =>
      if bool_decide (f = bytes_of "CS8") then CS8
      else pick_mode formats (if bool_decide (f = bytes_of "CF32") then CF32 else mode)
  end.

(** The stream that is set up; [None] ends the program. *)
Definition soapy_stream_mode (mode : soapy_mode) (opens : soapy_mode -> bool) : option soapy_mode :=
  let mode := match mode with CS8 => if opens CS8 then CS8 else CF32 | m => m end in
  match mode with
  | CS8 => Some CS8
  | CF32 => if opens CF32 then Some CF32 else if opens CS16 then Some CS16 else None
  | CS16 => if opens CS16 then Some CS16 else None
  end.

(** A read: its result, and the data, bytes, words of floats or 16-bit
    samples. *)
Record soapy_rx := SoapyRx { soapy_ret : Z; soapy_data : list Z; soapy_time : Z; soapy_running : bool }.
Definition SOAPY_SDR_TIMEOUT : Z := -1.
Definition SOAPY_SDR_OVERFLOW : Z := -4.

Definition soapy_buf (mode : soapy_mode) (r : soapy_rx) : sample_buf :=
  let n := Z.to_nat (soapy_ret r) in
  SampleBuf n (match mode with
    | CS8 => SAMPLE_FMT_INT8 (map (to_signed 8) (take (2 * n) (soapy_data r)))
    | CF32 => SAMPLE_FMT_FLOAT (take (2 * n) (soapy_data r))
    | CS16 => SAMPLE_FMT_FLOAT (float_words 32768 (take (2 * n) (soapy_data r)))
    end).

(** The loop of [soapy_stream_thread]; it ends the program at a read error other
    than a time-out or an overflow. *)
Fixpoint soapy_stream_loop (mode : soapy_mode) (time_source : clock_setting) (rx : list soapy_rx) : list (sample_buf * Z) :=
  match rx with
  | [] => []
  | r :: rx =>
      if soapy_ret r <? 0 then
        if (soapy_ret r =? SOAPY_SDR_TIMEOUT) || (soapy_ret r =? SOAPY_SDR_OVERFLOW) then soapy_stream_loop mode time_source rx else []
      else
        let hw_time := match time_source with CLOCK_SRC_INTERNAL => false | _ => true end in
        when (soapy_running r) [(soapy_buf mode r, if hw_time && (0 <? soapy_time r) then soapy_time r else 0)] ++ soapy_stream_loop mode time_source rx
  end.

(** The setting that [soapy_apply_settings] takes for the bias tee. *)
Definition has (needle key : list Z) : bool := match strstr key needle with Some _ => true | None => false end.
Definition bias_key (keys : list (list Z)) : option (list Z) :=
  match List.find (fun k => has (bytes_of "bias") k && has (bytes_of "rx") k) keys with
  | Some k => Some k
  | None => List.find (fun k => has (bytes_of "bias") k && negb (has (bytes_of "tx") k)) keys
  end.
Definition soapy_apply_settings (bias_tee : bool) (keys : list (list Z)) (settings : list (list Z * list Z)) : list (list Z * list Z) :=
  when bias_tee (match bias_key keys with Some k => [(k, bytes_of "true")] | None => [] end) ++ settings.

(** * SDRplay *)

(** The bandwidth in kHz. *)
Definition pick_bandwidth (sr : f64) : Z :=
  if f64_leb sr (f64_of_Z 300000) then 300
  else if f64_leb sr (f64_of_Z 600000) then 600
  else if f64_leb sr (f64_of_Z 1536000) then 1536
  else if f64_leb sr (f64_of_Z 5000000) then 5000
  else if f64_leb sr (f64_of_Z 6000000) then 6000
  else if f64_leb sr (f64_of_Z 7000000) then 7000
  else 8000.

(** [stream_callback]: the two arrays are interleaved. *)
Definition interleave (xi xq : list Z) (n : nat) : list Z := flat_map (fun i => [xi.[i]; xq.[i]]) (seq 0 n).
Definition stream_callback (running : bool) (xi xq : list Z) (numSamples : nat) : option sample_buf :=
  if negb running || (numSamples =? 0)%nat then None
  else Some (SampleBuf numSamples (SAMPLE_FMT_FLOAT (float_words 32768 (interleave xi xq numSamples)))).

(** The device of [sdrplay_setup]: with a serial, the one that has it; [None] ends
    the program. *)
Definition sdrplay_device (serials : list (list Z)) (serial : option (list Z)) : option nat :=
  match serials with
  | [] => None
  | _ =>
      match serial with
      | None | Some [] => Some 0%nat
      | Some s => fst <$> list_find (fun x => x = s) serials
      end
  end.

(** The gain reduction, or automatic gain control. *)
Definition sdrplay_gain (sdrplay_gain_val : Z) : option Z :=
  if 0 <=? sdrplay_gain_val then
    let grdb := if sdrplay_gain_val <? 20 then 20 else sdrplay_gain_val in
    Some (if grdb >? 59 then 59 else grdb)
  else None.

(** The events that end the program; [device_failure] says whether the build knows
    the event of that name. *)
Inductive sdrplay_event := GainChange | PowerOverloadChange | DeviceRemoved | DeviceFailure | OtherEvent.
(** [event_callback]: whether the overload is acknowledged, and whether the
    program goes on. *)
Definition event_callback (device_failure : bool) (ev : sdrplay_event) (running : bool) : bool * bool :=
  match ev with
  | PowerOverloadChange => (true, running)
  | DeviceRemoved => (false, false)
  | DeviceFailure => (false, running && negb device_failure)
  | GainChange | OtherEvent => (false, running)
  end.

(** What is set in the parameters of the device before [sdrplay_api_Init]. *)
Inductive rsp_model := RSP1 | RSP1A | RSP1B | RSP2 | RSPduo | RSPdx | RSPdxR2 | OtherRsp.
Inductive rsp_bias := rsp1a_bias | rsp2_bias_antenna_b | rspduo_bias | rspdx_bias_antenna_b.
Definition rsp_bias_of (m : rsp_model) : option rsp_bias :=
  match m with
  | RSP1A | RSP1B => Some rsp1a_bias
  | RSP2 => Some rsp2_bias_antenna_b
  | RSPduo => Some rspduo_bias
  | RSPdx | RSPdxR2 => Some rspdx_bias_antenna_b
  | RSP1 | OtherRsp => None
  end.
Record rsp_params := RspParams {
  rfHz : f64; fsHz : f64; bwType : Z;
  gRdB : option Z;
  biasTEnable : option rsp_bias;
}.

(** The calls, and what they return. *)
Inductive sdrplay_call :=
  | OpenApi | ApiVersion | LockApi | GetDevices | SelectDevice (i : nat) (single_tuner : bool) | UnlockApi | GetParams | Init (p : rsp_params)
  | Uninit | ReleaseDevice | CloseApi.
Record sdrplay_env := SdrplayEnv {
  api_open : bool; api_version : bool; api_lock : bool;
  api_devices : option (list (list Z * rsp_model));
  api_select : bool; api_params : bool; api_init : bool;
}.
Record sdrplay_ctx := SdrplayCtx { opened : bool; selected : bool; initialized : bool }.

(** [sdrplay_setup]; without a context the program has ended. *)
Definition sdrplay_setup (e : sdrplay_env) (samp_rate center_freq : f64) (sdrplay_gain_val : Z) (bias_tee : bool) (serial : option (list Z))
    : list sdrplay_call * option sdrplay_ctx :=
  let l := [OpenApi] in
  if negb (api_open e) then (l, None) else
  let l := l ++ [ApiVersion] in
  if negb (api_version e) then (l, None) else
  let l := l ++ [LockApi] in
  if negb (api_lock e) then (l, None) else
  let l := l ++ [GetDevices] in
  let devices := default [] (api_devices e) in
  match (i ← sdrplay_device (map fst devices) serial; d ← devices !! i; Some (i, snd d)) with
  | None => (l, None)
  | Some (i, model) =>
      let l := l ++ [SelectDevice i (match model with RSPduo => true | _ => false end)] in
      if negb (api_select e) then (l, None) else
      let l := l ++ [UnlockApi; GetParams] in
      if negb (api_params e) then (l, None) else
      let p := RspParams center_freq samp_rate (pick_bandwidth samp_rate) (sdrplay_gain sdrplay_gain_val)
                 (if bias_tee then rsp_bias_of model else None) in
      let l := l ++ [Init p] in
      if negb (api_init e) then (l, None) else (l, Some (SdrplayCtx true true true))
  end.

(** [sdrplay_close] after as much of the setup as was done. *)
Definition sdrplay_close (ctx : sdrplay_ctx) : list sdrplay_call :=
  when (initialized ctx) [Uninit] ++ when (selected ctx) [ReleaseDevice] ++ when (opened ctx) [CloseApi].

(** * Lemmas *)

(** ** Setups *)

(** A setup that returns has made every call, and those that must succeed did. *)
Lemma run_setup_returns ok steps : snd (run_setup ok steps) = true ->
  fst (run_setup ok steps) = map step_call steps /\ Forall (fun s => match s with Must c => ok c = true | May _ => True end) steps.
Proof.
  induction steps as [|[c|c] steps IH]; [by intros _; split|..]; cbn [run_setup map step_call]; [destruct (ok c) eqn:E; [|done]|];
    destruct (run_setup ok steps) as [l r]; cbn [fst snd] in *; intros H; destruct (IH H) as [-> HF]; by split; [|constructor].
Qed.

Lemma must_succeeds ok steps c : snd (run_setup ok steps) = true -> In (Must c) steps -> ok c = true.
Proof. intros H Hc. destruct (run_setup_returns ok steps H) as [_ HF]. rewrite List.Forall_forall in HF. apply (HF _ Hc). Qed.

(** A setup that ends the program does so at the first call that must succeed and
    does not. *)
Lemma run_setup_fails ok steps : snd (run_setup ok steps) = false ->
  exists before c after, steps = before ++ Must c :: after /\ ok c = false /\ fst (run_setup ok steps) = map step_call before ++ [c] /\
    Forall (fun s => match s with Must c => ok c = true | May _ => True end) before.
Proof.
  induction steps as [|[c|c] steps IH]; cbn [run_setup]; [done|destruct (ok c) eqn:E|].
  2: { intros _. exists [], c, steps. by split. }
  all: destruct (run_setup ok steps) as [l r]; cbn [fst snd] in *; intros H; destruct (IH H) as (b & d & a & -> & Hd & -> & HF).
  - exists (Must c :: b), d, a. split; [done|]. split; [done|]. split; [done|]. by constructor.
  - exists (May c :: b), d, a. split; [done|]. split; [done|]. split; [done|]. by constructor.
Qed.

(** ** Buffers *)

Lemma signed_bytes data n : (n <= List.length data)%nat -> map (to_signed 8) (take n data) = map (fun i => to_signed 8 (data.[i])) (seq 0 n).
Proof.
  intros H. rewrite <- (map_map (fun i => data.[i]) (to_signed 8)). f_equal. apply list_eq. intros i.
  rewrite list_lookup_fmap. destruct (decide (i < n)%nat) as [Hi|Hi].
  - rewrite lookup_take_lt, lookup_seq_lt by done. cbn. destruct (nth_lookup_or_length data i 0) as [->|]; [done|lia].
  - rewrite lookup_take_ge, lookup_seq_ge by lia. done.
Qed.

Lemma interleaved f g m i a : (i < m)%nat ->
  nth (2 * i) (flat_map (fun i => [f i; g i]) (seq a m)) 0 = f (a + i)%nat /\ nth (2 * i + 1) (flat_map (fun i => [f i; g i]) (seq a m)) 0 = g (a + i)%nat.
Proof.
  revert i a. induction m as [|m IH]; intros i a Hi; [lia|]. destruct i as [|i]; [cbn; by rewrite Nat.add_0_r|].
  replace (2 * S i)%nat with (S (S (2 * i))) by lia. cbn [seq flat_map app nth Nat.add]. destruct (IH i (S a) ltac:(lia)) as [E1 E2].
  rewrite E1, E2. split; f_equal; lia.
Qed.

Lemma interleave_pairs xi xq n : List.length (interleave xi xq n) = (2 * n)%nat.
Proof.
  unfold interleave. assert (forall a, List.length (flat_map (fun i => [xi.[i]; xq.[i]]) (seq a n)) = (2 * n)%nat) as H; [|apply H].
  induction n as [|n IH]; intros a; [done|]. cbn [seq flat_map app List.length]. rewrite IH. lia.
Qed.

(** ** Key-value strings *)

Lemma split_at_here c a b : Forall (fun x => x <> c) a -> split_at c (a ++ c :: b) = Some (a, b).
Proof. induction 1 as [|x a Hx _ IH]; cbn [split_at app]; [by rewrite Z.eqb_refl|]. by rewrite (proj2 (Z.eqb_neq _ _)), IH. Qed.
Lemma split_at_absent c a : Forall (fun x => x <> c) a -> split_at c a = None.
Proof. induction 1 as [|x a Hx _ IH]; [done|]. cbn [split_at]. by rewrite (proj2 (Z.eqb_neq _ _)), IH. Qed.

(** The string of some pairs. *)
Definition pair_text (p : kv_pair) : list Z := kv_key p ++ 61 :: kv_value p.
Fixpoint kv_text (l : list kv_pair) : list Z :=
  match l with
  | [] => []
  | [p] => pair_text p
  | p :: l => pair_text p ++ 44 :: kv_text l
  end.
(** Keys without equals signs, and no commas. *)
Definition kv_ok (p : kv_pair) : Prop :=
  Forall (fun x => x <> 44) (pair_text p) /\ Forall (fun x => x <> 61) (kv_key p).

Lemma kv_segments_text l : Forall kv_ok l -> forall fuel, (List.length (kv_text l) <= fuel)%nat -> kv_segments fuel (kv_text l) = map pair_text l.
Proof.
  induction 1 as [|p l [Hp _] _ IH]; intros fuel Hf; [by destruct fuel|].
  assert (forall t, exists c r, pair_text p ++ t = c :: r) as Hne by (intros t; unfold pair_text; destruct (kv_key p); cbn; eauto).
  destruct l as [|q l].
  - cbn [kv_text map] in *. destruct (Hne []) as (c & r & E). rewrite app_nil_r in E. rewrite E in Hf. destruct fuel as [|fuel]; [cbn in Hf; lia|].
    cbn [kv_segments]. rewrite split_at_absent by done. by rewrite E.
  - change (kv_text (p :: q :: l)) with (pair_text p ++ 44 :: kv_text (q :: l)) in *. rewrite length_app in Hf. cbn [List.length] in Hf.
    destruct fuel as [|fuel]; [lia|]. cbn [kv_segments]. rewrite split_at_here by done. destruct (Hne (44 :: kv_text (q :: l))) as (c & r & E). rewrite E.
    cbn [map]. f_equal. apply IH. lia.
Qed.

Definition cut (p : kv_pair) : kv_pair := KvPair (take (KVLEN - 1) (kv_key p)) (take (KVLEN - 1) (kv_value p)).
Lemma parse_pairs_text l : Forall kv_ok l -> parse_segments (map pair_text l) = Some (map cut l).
Proof.
  induction 1 as [|p l [_ Hk] _ IH]; [done|]. cbn [map parse_segments].
  assert (parse_pair (pair_text p) = Some (cut p)) as -> by (unfold parse_pair, pair_text; by rewrite split_at_here by done).
  rewrite IH. done.
Qed.

(** The counting loop allocates what the second loop writes. *)
Lemma parse_fits s l : parse_segments s = Some l -> List.length l = List.length s.
Proof.
  revert l. induction s as [|seg s IH]; intros l; cbn; [by intros [= <-]|]. destruct (parse_pair seg); [|done]. cbn.
  destruct (parse_segments s) as [l'|]; [|done]. intros [= <-]. cbn. by rewrite (IH l' eq_refl).
Qed.

(** A device whose string has no equals sign, after one that was parsed. *)
Lemma list_reads_null : usrp_list 0 [bytes_of "type=b200,serial=123"; bytes_of "x"] = None.
Proof. vm_compute. reflexivity. Qed.

(** A product with a hyphen. *)
Lemma serial_of_hyphen : usrp_get_serial (bytes_of "usrp-E310-SG3-31A") = Some (bytes_of "SG3-31A").
Proof. vm_compute. reflexivity. Qed.

(** ** SDRplay *)

(** A setup that returns has selected the device with the serial, or else the
    first, with the lock released and the rate and frequency in the parameters
    it is started with; closing undoes the three stages. *)
Lemma sdrplay_tuned e rate freq gain bias serial l ctx : sdrplay_setup e rate freq gain bias serial = (l, Some ctx) ->
  exists i d p, default [] (api_devices e) !! i = Some d /\ (forall s, serial = Some s -> s <> [] -> fst d = s) /\
    l = [OpenApi; ApiVersion; LockApi; GetDevices; SelectDevice i (match snd d with RSPduo => true | _ => false end); UnlockApi; GetParams; Init p] /\
    rfHz p = freq /\ fsHz p = rate /\ (forall g, gRdB p = Some g -> 20 <= g <= 59) /\ sdrplay_close ctx = [Uninit; ReleaseDevice; CloseApi].
Proof.
  unfold sdrplay_setup. destruct (negb (api_open e)); [done|]. destruct (negb (api_version e)); [done|]. destruct (negb (api_lock e)); [done|].
  destruct (sdrplay_device (map fst (default [] (api_devices e))) serial) as [i|] eqn:Ei; [|done]. cbn [mbind option_bind].
  destruct (default [] (api_devices e) !! i) as [[name model]|] eqn:Ed; [|done]. cbn [snd].
  destruct (negb (api_select e)); [done|]. destruct (negb (api_params e)); [done|]. destruct (negb (api_init e)); [done|]. intros [= <- <-].
  exists i, (name, model). eexists. split; [done|]. split; [|split; [reflexivity|]].
  - intros s -> Hs. destruct s as [|c s]; [done|]. unfold sdrplay_device in Ei. destruct (map fst _) as [|n ns] eqn:En in Ei; [done|]. rewrite <- En in Ei.
    apply fmap_Some in Ei as ([j y] & Ej & ->). apply list_find_Some in Ej as (Hj & -> & _). cbn [fst] in *.
    change (map fst (default [] (api_devices e))) with (fst <$> default [] (api_devices e)) in Hj. by rewrite list_lookup_fmap, Ed in Hj; injection Hj as ->.
  - cbn [rfHz fsHz gRdB]. split; [done|]. split; [done|]. split; [|done]. intros g. unfold sdrplay_gain. rewrite Z.gtb_ltb.
    repeat case_match; intros [= <-]; rewrite ?Z.ltb_lt, ?Z.ltb_ge in *; lia.
Qed.

(** ** Time-outs *)

(** Since the last callback, fewer than five time-outs and no other error. *)
Definition patient (t : nat) (events : list blade_event) : Prop := bladerf_loop t events = None.
Lemma timeout_step t events : bladerf_loop t (Returns BLADERF_ERR_TIMEOUT :: events) =
  if (S t <? 5)%nat then option_map S (bladerf_loop (S t) events) else Some 1%nat.
Proof. done. Qed.
Lemma five_timeouts t events : (t < 5)%nat -> exists k, bladerf_loop t (replicate (5 - t) (Returns BLADERF_ERR_TIMEOUT) ++ events) = Some k /\ k = (5 - t)%nat.
Proof.
  intros Ht. assert (forall n t, (t + S n = 5)%nat -> bladerf_loop t (replicate (S n) (Returns BLADERF_ERR_TIMEOUT) ++ events) = Some (S n)) as H.
  { clear. induction n as [|n IH]; intros t Ht.
    - cbn [replicate app]. rewrite timeout_step. by rewrite (proj2 (Nat.ltb_ge _ _)) by lia.
    - replace (replicate (S (S n)) (Returns BLADERF_ERR_TIMEOUT)) with (Returns BLADERF_ERR_TIMEOUT :: replicate (S n) (Returns BLADERF_ERR_TIMEOUT)) by done.
      rewrite <- app_comm_cons. rewrite timeout_step, (IH (S t)) by lia. by rewrite (proj2 (Nat.ltb_lt _ _)) by lia. }
  exists (5 - t)%nat. split; [|done]. destruct (5 - t)%nat as [|n] eqn:E; [lia|]. apply H. lia.
Qed.

(** * Properties *)

(** What the detector is to read of a result of [readStream]. *)
Definition soapy_samples (mode : soapy_mode) (r : soapy_rx) : list c32 :=
  let d := soapy_data r in
  let n := Z.to_nat (soapy_ret r) in
  match mode with
  | CS8 => map (sample_at FMT_CI8 d) (seq 0 n)
  | CS16 => iq_values 32768 d n
  | CF32 => map (fun i => c_of_parts (f32_of_bits (d.[(2 * i)%nat])) (f32_of_bits (d.[(2 * i + 1)%nat]))) (seq 0 n)
  end.

(** Results that keep the stream going while the program runs: samples, a
    time-out, an overflow. *)
Definition soapy_flows (r : soapy_rx) : Prop :=
  soapy_ret r = SOAPY_SDR_TIMEOUT \/ soapy_ret r = SOAPY_SDR_OVERFLOW \/
  0 <= soapy_ret r /\ soapy_running r = true /\ 2 * soapy_ret r <= Z.of_nat (List.length (soapy_data r)).
Definition uhd_flows (r : uhd_rx) : Prop :=
  (uhd_error r = 0 \/ uhd_error r = 8) /\ uhd_running r = true /\ (2 * uhd_num r <= List.length (uhd_data r))%nat.

Section reading.
Context (K : kernels) `{!ConvertExact K}.

Lemma feed_bytes d m : (2 * m <= List.length d)%nat ->
  feed_samples K (SampleBuf m (SAMPLE_FMT_INT8 (map (to_signed 8) (take (2 * m) d)))) = map (sample_at FMT_CI8 d) (seq 0 m).
Proof. intros Hm. rewrite signed_bytes by done. by apply (feed_block K FMT_CI8 m d). Qed.

Lemma values_of_prefix den data n : iq_values den (take (2 * n) data) n = iq_values den data n.
Proof. unfold iq_values. apply map_ext_in. intros i Hi%in_seq. unfold rd. rewrite !nth_lookup, !lookup_take_lt by lia. done. Qed.

Lemma feed_scaled den data n : (2 * n <= List.length data)%nat ->
  feed_samples K (SampleBuf n (SAMPLE_FMT_FLOAT (float_words den (take (2 * n) data)))) = iq_values den data n.
Proof. intros Hn. rewrite feed_float by (rewrite length_take; lia). apply values_of_prefix. Qed.

Lemma usrp_reads src rx : Forall uhd_flows rx ->
  map (fun p => feed_samples K (fst p)) (fst (usrp_stream_thread src rx)) = map (fun r => map (sample_at FMT_CI8 (uhd_data r)) (seq 0 (uhd_num r))) rx /\
  snd (usrp_stream_thread src rx) = false.
Proof.
  induction 1 as [|r rx (He & Hr & Hl) _ [IH IHe]]; [done|]. cbn [usrp_stream_thread].
  assert (negb (uhd_error r =? 0) && negb (uhd_error r =? 8) = false) as -> by by destruct He as [->| ->].
  destruct (usrp_stream_thread src rx) as [l e]. rewrite Hr. cbn [when fst snd app map] in *. by rewrite IH, feed_bytes by done.
Qed.

Lemma soapy_reads1 mode r : 0 <= soapy_ret r -> 2 * soapy_ret r <= Z.of_nat (List.length (soapy_data r)) ->
  feed_samples K (soapy_buf mode r) = soapy_samples mode r.
Proof.
  intros H0 Hl. unfold soapy_buf, soapy_samples. destruct mode; [apply feed_bytes; lia| |apply feed_scaled; lia].
  unfold feed_samples. cbn [sb_samples sb_num]. apply map_ext_in. intros i Hi%in_seq. unfold rd. rewrite !nth_lookup, !lookup_take_lt by lia. done.
Qed.

Lemma soapy_reads mode src rx : Forall soapy_flows rx ->
  map (fun p => feed_samples K (fst p)) (soapy_stream_loop mode src rx) = map (soapy_samples mode) (List.filter (fun r => 0 <=? soapy_ret r) rx).
Proof.
  induction 1 as [|r rx Hr _ IH]; [done|]. cbn [soapy_stream_loop List.filter].
  destruct Hr as [E|[E|(H0 & Hr & Hl)]]; [by rewrite E|by rewrite E|].
  rewrite (proj2 (Z.ltb_ge _ _)), (proj2 (Z.leb_le _ _)), Hr by lia. cbn [when app map fst]. by rewrite IH, soapy_reads1.
Qed.
End reading.

(** C34 (functional).  Whatever the radio, the detector reads the samples it
    delivered, in order: bytes over 128, 12-bit samples over 2048, 16-bit samples
    over 32768 and floats as they are.  The streams of a USRP and of SoapySDR hand
    on every read that has samples, through time-outs and overflows. *)
Theorem radio_samples K data xq n : ConvertExact K -> (2 * n <= List.length data)%nat ->
  feed_samples K <$> hackrf_rx_cb true data (2 * n) = Some (map (sample_at FMT_CI8 data) (seq 0 n)) /\
  feed_samples K <$> bladerf_rx_cb false true data n = Some (iq_values 2048 data n) /\
  ((0 < n)%nat -> feed_samples K <$> stream_callback true data xq n =
    Some (map (fun i => c_of_parts (scaled 32768 (data.[i])) (scaled 32768 (xq.[i]))) (seq 0 n))) /\
  (forall src rx, Forall uhd_flows rx ->
    map (fun p => feed_samples K (fst p)) (fst (usrp_stream_thread src rx)) = map (fun r => map (sample_at FMT_CI8 (uhd_data r)) (seq 0 (uhd_num r))) rx) /\
  (forall mode src rx, Forall soapy_flows rx ->
    map (fun p => feed_samples K (fst p)) (soapy_stream_loop mode src rx) = map (soapy_samples mode) (List.filter (fun r => 0 <=? soapy_ret r) rx)).
Proof.
  intros HK Hl. split; [|split; [|split; [|split]]].
  - unfold hackrf_rx_cb. rewrite (Nat.mul_comm 2 n), Nat.div_mul by done. cbn [fmap option_fmap option_map]. f_equal.
    rewrite (Nat.mul_comm n 2). apply (feed_block K FMT_CI8 n data HK).
  - unfold bladerf_rx_cb. cbn [fmap option_fmap option_map]. f_equal. rewrite (Nat.mul_comm n 2). by apply feed_scaled.
  - intros Hn. unfold stream_callback. rewrite (proj2 (Nat.eqb_neq n 0)) by lia. cbn [negb orb fmap option_fmap option_map]. f_equal.
    rewrite feed_float by (rewrite interleave_pairs; lia). unfold iq_values. apply map_ext_in. intros i Hi%in_seq.
    destruct (interleaved (fun i => data.[i]) (fun i => xq.[i]) n i 0 ltac:(lia)) as [E1 E2]. unfold interleave. unfold rd at 1 4. by rewrite E1, E2.
  - intros src rx Hrx. by apply usrp_reads.
  - intros mode src rx. by apply soapy_reads.
Qed.

Lemma radio_samples_witness : let data := [1; 255; 127; 128] in
  feed_samples sse42_kernels <$> hackrf_rx_cb true data 4 = Some (map (sample_at FMT_CI8 data) (seq 0 2)) /\
  feed_samples generic_kernels <$> stream_callback true data [16384; -16384; 0; 0] 2 =
    Some [c_of_parts (scaled 32768 1) (scaled 32768 16384); c_of_parts (scaled 32768 255) (scaled 32768 (-16384))] /\
  map (fun p => feed_samples generic_kernels (fst p))
    (soapy_stream_loop CS16 CLOCK_SRC_INTERNAL [SoapyRx 1 [16384; -16384] 0 true; SoapyRx (-4) [] 0 true; SoapyRx 1 [0; 1] 5 true]) =
    [iq_values 32768 [16384; -16384] 1; iq_values 32768 [0; 1] 1].
Proof.
  split; [|split].
  - apply (radio_samples sse42_kernels [1; 255; 127; 128] [] 2); [apply _|done].
  - apply (radio_samples generic_kernels [1; 255; 127; 128] [16384; -16384; 0; 0] 2); [apply _|done|lia].
  - apply (radio_samples generic_kernels [] [] 0); [apply _|cbn; lia|]. unfold soapy_flows, SOAPY_SDR_OVERFLOW. repeat constructor; cbn; intuition lia.
Defined.

(**  A setup that returns left the radio tuned: every call that sets
    the rate, the frequency, or the gain stages of a HackRF, and the clock of a
    USRP, succeeded; otherwise the program ended at the first of them that did
    not, without a later call. *)
Theorem radio_tuned ok serial name id rate freq vga lna amp bias gain clock time has_mode elements agc :
  let returns steps := snd (run_setup ok steps) = true in
  let ends steps := exists before c after, steps = before ++ Must c :: after /\ ok c = false /\ fst (run_setup ok steps) = map step_call before ++ [c] in
  let tuned steps P := returns steps /\ P \/ ends steps in
  tuned (hackrf_setup serial rate freq vga lna amp bias)
    (ok (Open serial) = true /\ ok (SetRate rate) = true /\ ok (SetFreqHz (f64_trunc freq)) = true /\ ok (SetGainInt (bytes_of "lna") lna) = true /\ (bias = true -> ok BiasTee = true)) /\
  tuned (bladerf_setup ok id rate freq gain bias clock)
    ((ok (Open (Some (bladerf_identifier id))) = true \/ ok (Open None) = true) /\ ok (SetFreqHz (f64_trunc freq)) = true /\ (bias = true -> ok BiasTee = true)) /\
  tuned (usrp_setup name rate freq gain clock time)
    (ok (SetRate rate) = true /\ ok (SetFreq freq) = true /\ (clock <> CLOCK_SRC_INTERNAL -> ok (ClockSource clock) = true) /\ (time <> CLOCK_SRC_INTERNAL -> ok (TimeSource time) = true)) /\
  tuned (soapy_setup rate freq has_mode elements agc clock time) (ok (SetRate rate) = true /\ ok (SetFreq freq) = true).
Proof.
  intros returns ends tuned.
  assert (forall steps P, ((forall c, In (Must c) steps -> ok c = true) -> P) -> tuned steps P) as H.
  { intros steps P HP. unfold tuned. destruct (snd (run_setup ok steps)) eqn:E.
    - left. split; [done|]. apply HP. intros c. by apply must_succeeds.
    - right. destruct (run_setup_fails ok steps E) as (b & c & a & H1 & H2 & H3 & _). by exists b, c, a. }
  split; [|split; [|split]]; apply H; intros Hc.
  - repeat split; try (apply Hc; cbn; tauto). intros ->. apply Hc. unfold hackrf_setup. rewrite !in_app_iff. right. right. by left.
  - unfold bladerf_setup in Hc. split; [|split].
    + destruct (ok (Open (Some (bladerf_identifier id)))) eqn:E; [by left|]. right. apply Hc. cbn. tauto.
    + apply Hc. rewrite !in_app_iff. right. left. cbn. tauto.
    + intros ->. apply Hc. rewrite !in_app_iff. right. right. left. by left.
  - unfold usrp_setup in Hc. repeat split.
    + apply Hc. rewrite !in_app_iff. do 3 right. cbn. tauto.
    + apply Hc. rewrite !in_app_iff. do 3 right. cbn. tauto.
    + intros Hn. apply Hc. rewrite !in_app_iff. right. left. destruct clock; [done|by left..].
    + intros Hn. apply Hc. rewrite !in_app_iff. right. right. left. destruct time; [done|by left..].
  - split; apply Hc; cbn; tauto.
Qed.

(** The string of a device, parsed into the pairs it was made of:
    keys and values are cut to fifteen characters, the array has room for every
    pair, and the caller gets their number. *)
Theorem kv_roundtrip l n : Forall kv_ok l ->
  parse_kv_pairs (kv_text l) n = (Some (map cut l), List.length l) /\ List.length (segments (kv_text l)) = List.length l.
Proof.
  intros Hl. unfold parse_kv_pairs, segments. rewrite kv_segments_text, parse_pairs_text by done. by rewrite !length_map.
Qed.

Definition small_pairs : list kv_pair := [KvPair (bytes_of "type") (bytes_of "b200"); KvPair (bytes_of "serial") (bytes_of "0123456789ABCDEF")].
Lemma kv_roundtrip_witness : kv_text small_pairs = bytes_of "type=b200,serial=0123456789ABCDEF" /\
  parse_kv_pairs (kv_text small_pairs) 0 = (Some (map cut small_pairs), 2%nat).
Proof.
  split; [reflexivity|]. apply (kv_roundtrip small_pairs 0). vm_compute. repeat constructor; discriminate.
Defined.
