(* ===== verification/Devices.v ===== *)
(** The lists of devices and the choice among them: [list_interfaces] of
    [src/options.c] prints the names that [-i] takes, each back end its own
    ([hackrf_list], [bladerf_list], [usrp_list], [sdrplay_list],
    [sidekiq_list], [soapy_list]).

    A list is the names printed; names are formatted into arrays of fixed size.
    [listed_selects] proves that a name, given to [-i], leads the setup to the
    device it was printed for. *)
From S2P Require Import Prelude CFloat CString CFormat JsonText CNumber CTable AcarsPos Vita49 Sigmf Options Capture Sidekiq Radio.
#[local] Open Scope Z_scope.

(** * The lists *)

Definition hackrf_list (serials : list (list Z)) : list (list Z) := map hackrf_name serials.

(** [None] ends the program. *)
Definition BLADERF_ERR_NODEV : Z := -7.
Definition bladerf_name (instance : Z) : list Z := take 63 (bytes_of "bladerf" ++ bytes_of (fmt_d instance)).
Definition bladerf_list (num : Z) (instances : list Z) : option (list (list Z)) :=
  if (num =? 0) || (num =? BLADERF_ERR_NODEV) then Some []
  else if num <? 0 then None
  else Some (map bladerf_name (take (Z.to_nat num) instances)).

(** [sdrplay_list]: the calls and the names; the lock is released and the API
    closed on every path. *)
Definition sdrplay_name (serial : list Z) : list Z := take 63 (bytes_of "sdrplay-" ++ serial).
Definition sdrplay_list (e : sdrplay_env) : list sdrplay_call * list (list Z) :=
  if negb (api_open e) then ([OpenApi], [])
  else if negb (api_version e) then ([OpenApi; ApiVersion; CloseApi], [])
  else if negb (api_lock e) then ([OpenApi; ApiVersion; LockApi; CloseApi], [])
  else ([OpenApi; ApiVersion; LockApi; GetDevices; UnlockApi; CloseApi], map (fun d => sdrplay_name (fst d)) (default [] (api_devices e))).

(** [sidekiq_list]: a card is enabled just long enough to read its serial. *)
Definition sidekiq_name (serial : option (list Z)) : list Z :=
  match serial with Some s => take 63 (bytes_of "sidekiq-" ++ s) | None => bytes_of "sidekiq" end.
Fixpoint list_cards (e : skiq_env) (cards : list Z) : list skiq_event * list (list Z) :=
  match cards with
  | [] => ([], [])
  | card :: cards =>
      let '(ev, names) := list_cards e cards in
      if basic_ok e card then ([enable_basic card; disable card] ++ ev, sidekiq_name (serial_of e card) :: names) else (ev, names)
  end.
Definition sidekiq_list (e : skiq_env) : list skiq_event * list (list Z) :=
  match sdk_acquire e false with
  | (ev, false) => (ev, [])
  | (ev, true) =>
      match get_cards e with
      | None => (ev ++ sdk_release true, [])
      | Some cards => let '(ev', names) := list_cards e cards in (ev ++ ev' ++ sdk_release true, names)
      end
  end.

(** [soapy_list]: the last value of a key, the name with the index, and the
    string of arguments in an array of 256 bytes.  [off] counts what [snprintf]
    would have written: [None] is a write behind the array, where the size that
    is left has become huge. *)
Definition last_value (key : list Z) (kv : list (list Z * list Z)) : option (list Z) :=
  snd <$> last (List.filter (fun p => bool_decide (fst p = key)) kv).
Definition soapy_name (i : nat) : list Z := take 31 (bytes_of "soapy-" ++ bytes_of (fmt_d (Z.of_nat i))).
Definition soapy_args_name (driver serial : option (list Z)) : option (list Z) :=
  let '(args, off) :=
    match driver with
    | Some d => (bytes_of "soapy:" ++ take 249 (bytes_of "driver=" ++ d), (6 + (7 + List.length d))%nat)
    | None => (bytes_of "soapy:", 6%nat)
    end in
  match serial with
  | None => Some args
  | Some s =>
      if (256 <? off)%nat then None
      else Some (args ++ take (255 - off) (match driver with Some _ => [44] | None => [] end ++ bytes_of "serial=" ++ s))
  end.
Fixpoint soapy_list (i : nat) (results : list (list (list Z * list Z))) : option (list (list Z)) :=
  match results with
  | [] => Some []
  | kv :: results =>
      let driver := last_value (bytes_of "driver") kv in
      let serial := last_value (bytes_of "serial") kv in
      alternate ← (match driver, serial with None, None => Some [] | _, _ => a ← soapy_args_name driver serial; Some [a] end);
      rest ← soapy_list (S i) results;
      Some (soapy_name i :: alternate ++ rest)
  end.

(** * Lemmas *)

(** ** Numbers read back *)

Lemma dec_value_snoc ds d : dec_value (ds ++ [d]) = dec_value ds * 10 + (d - 48).
Proof. unfold dec_value, digits_value. by rewrite fold_left_app. Qed.

Lemma digits_go_value fuel : forall n acc, 0 <= n < 10 ^ Z.of_nat fuel -> (0 < fuel)%nat ->
  exists ds, bytes_of (digits_go fuel 10 dec_digit n acc) = ds ++ bytes_of acc /\ Forall digit_char ds /\ ds <> [] /\ dec_value ds = n.
Proof.
  induction fuel as [|fuel IH]; intros n acc Hn Hf; [lia|]. cbn [digits_go]. pose proof (Z.mod_pos_bound n 10 ltac:(lia)) as Hm.
  assert (bytes_of (String (dec_digit (n mod 10)) acc) = [48 + n mod 10] ++ bytes_of acc) as Eb by (by rewrite bytes_of_cons, dec_digit_code).
  assert (digit_char (48 + n mod 10)) as Hd by (unfold digit_char; lia).
  destruct (Z.ltb_spec n 10) as [Hlt|Hge].
  - exists [48 + n mod 10]. split; [done|]. split; [by constructor|]. split; [done|]. rewrite Z.mod_small by lia. cbn. lia.
  - destruct (IH (n / 10) (String (dec_digit (n mod 10)) acc)) as (ds & E & Hds & _ & Ev).
    { split; [apply Z.div_pos; lia|]. apply Z.div_lt_upper_bound; [lia|]. rewrite <- Z.pow_succ_r by lia. rewrite <- Nat2Z.inj_succ. lia. }
    { destruct fuel; [cbn in Hn; lia|lia]. }
    exists (ds ++ [48 + n mod 10]). rewrite E, Eb, <- app_assoc, dec_value_snoc, Ev. split; [done|]. split; [apply Forall_app; split; [done|by constructor]|].
    split; [by destruct ds|]. pose proof (Z.div_mod n 10). lia.
Qed.

Lemma fmt_d_reads n : 0 <= n < 10 ^ 20 -> atoi (bytes_of (fmt_d n)) = n.
Proof.
  intros Hn. unfold fmt_d. rewrite (proj2 (Z.ltb_ge n 0)) by lia. destruct (digits_go_value 20 n "" ltac:(lia) ltac:(lia)) as (ds & -> & Hds & Hne & Ev).
  change (bytes_of "") with (@nil Z). unfold atoi. assert (Forall (fun c => is_digit c = true) ds) as Hdig.
  { eapply Forall_impl; [exact Hds|]. intros c Hc. unfold digit_char in Hc. unfold is_digit. lia. }
  destruct ds as [|d ds]; [done|]. inversion Hds as [|? ? Hd _]; subst. unfold digit_char in Hd.
  rewrite app_nil_r. assert (span is_space (d :: ds) = ([], d :: ds)) as ->.
  { apply (span_app is_space [] (d :: ds)); [constructor|]. cbn. unfold is_space. lia. }
  change (deref (d :: ds)) with d. rewrite (proj2 (Z.eqb_neq d 43)), (proj2 (Z.eqb_neq d 45)) by lia.
  pose proof (span_app is_digit (d :: ds) [] Hdig eq_refl) as Hs. rewrite app_nil_r in Hs. by rewrite Hs.
Qed.

Lemma length_bytes_of s : List.length (bytes_of s) = String.length s.
Proof. induction s as [|c s IH]; [done|]. rewrite bytes_of_cons. cbn. by rewrite IH. Qed.

Lemma fmt_d_short n k : 0 <= n < 10 ^ Z.of_nat k -> (1 <= k <= 20)%nat -> (List.length (bytes_of (fmt_d n)) <= k)%nat.
Proof. intros Hn Hk. rewrite length_bytes_of. by apply length_fmt_d. Qed.

(** ** Cards and devices *)

Lemma list_cards_balanced e cards : replay (SkiqLib true None false) (fst (list_cards e cards)) = Some (SkiqLib true None false).
Proof.
  induction cards as [|c cards IH]; [done|]. cbn [list_cards]. destruct (list_cards e cards) as [ev names]. cbn [fst] in IH.
  destruct (basic_ok e c); [|done]. cbn [fst]. rewrite lib_replay_app. cbn. by rewrite decide_True by done.
Qed.

(** Listing the cards leaves the library closed. *)
Lemma sidekiq_list_balanced e : replay lib_closed (fst (sidekiq_list e)) = Some lib_closed.
Proof.
  unfold sidekiq_list, sdk_acquire. destruct (init_ok e); [|done]. destruct (get_cards e) as [cards|]; [|done].
  pose proof (list_cards_balanced e cards) as H. destruct (list_cards e cards) as [ev names]. cbn [fst] in *.
  change (replay lib_closed ([sdk_init] ++ ev ++ sdk_release true)) with (replay (SkiqLib true None false) (ev ++ sdk_release true)).
  by rewrite lib_replay_app, H.
Qed.

(** A long driver name makes the second [snprintf] write behind the array. *)
Lemma soapy_list_overruns d s : (243 < List.length d)%nat -> soapy_args_name (Some d) (Some s) = None.
Proof. intros H. unfold soapy_args_name. by rewrite (proj2 (Nat.ltb_lt _ _)) by lia. Qed.

(** The first card with the serial is found, whatever the case of its letters. *)
Lemma probe_finds e s cards card : In card cards -> basic_ok e card = true -> serial_of e card = Some s ->
  exists c, snd (probe_cards e s cards) = Some c /\ basic_ok e c = true /\ exists s', serial_of e c = Some s' /\ strcaseeq s' s = true.
Proof.
  intros Hin Hok Hs. assert (strcaseeq s s = true) as Hss by (unfold strcaseeq; by apply bool_decide_eq_true).
  induction cards as [|c cards IH]; [done|]. cbn [probe_cards]. destruct (basic_ok e c) eqn:Eb.
  - destruct (serial_of e c) as [s'|] eqn:Es; [destruct (strcaseeq s' s) eqn:Ec|]; [by exists c; repeat split; [..|exists s']| |].
    + destruct Hin as [->|Hin]; [rewrite Hs in Es; injection Es as <-; by rewrite Hss in Ec|]. destruct (IH Hin) as (c' & H & ?).
      destruct (probe_cards e s cards). by exists c'.
    + destruct Hin as [->|Hin]; [by rewrite Hs in Es|]. destruct (IH Hin) as (c' & H & ?). destruct (probe_cards e s cards). by exists c'.
  - destruct Hin as [->|Hin]; [by rewrite Hok in Eb|]. exact (IH Hin).
Qed.

(** The device with a serial is found. *)
Lemma sdrplay_finds (devices : list (list Z * rsp_model)) s i m : devices !! i = Some (s, m) ->
  exists j m', sdrplay_device (map fst devices) (Some s) = Some j /\ (s <> [] -> devices !! j = Some (s, m')).
Proof.
  intros Hi. unfold sdrplay_device. assert (map fst devices !! i = Some s) as Hs by (change (map fst devices) with (fst <$> devices); by rewrite list_lookup_fmap, Hi).
  destruct (map fst devices) as [|n0 ns] eqn:En; [done|]. destruct s as [|c s]; [by exists 0%nat, m|].
  destruct (list_find (fun x => x = c :: s) (n0 :: ns)) as [[j y]|] eqn:Ef.
  - apply list_find_Some in Ef as (Hj & -> & _). rewrite <- En in Hj. change (map fst devices) with (fst <$> devices) in Hj.
    rewrite list_lookup_fmap in Hj. apply fmap_Some in Hj as ([s' m'] & Hj & Es). cbn in Es. subst s'. by exists j, m'.
  - apply list_find_None in Ef. rewrite Forall_lookup in Ef. by apply Ef in Hs.
Qed.

(** A name that fits is the whole text, and [-i] takes the branch of its prefix. *)
Lemma fits (n : nat) (p s : list Z) : (List.length p + List.length s <= n)%nat -> take n (p ++ s) = p ++ s.
Proof. intros H. apply take_ge. rewrite length_app. lia. Qed.

(** Follows the tests of [-i] to the one whose prefix the name has. *)
Ltac branch :=
  unfold set_interface;
  repeat match goal with |- (if ?h && starts_with ?p ?x then _ else _) = _ => rewrite (andb_false_intro2 h (starts_with p x) eq_refl) end;
  match goal with Hb : ?h = true |- (if ?h && starts_with ?p ?x then _ else _) = _ =>
    rewrite (andb_true_intro (conj Hb (eq_refl : starts_with p x = true))) end.

(** * Properties *)

(** C35 (roundtrip).  A device that was listed can be selected by the name printed:
    given to [-i], it sets the serial, the index or the arguments the setup of its
    back end looks for, and for SDRplay and Sidekiq the setup then finds a device
    with that serial.  The names must fit their arrays, and the product name of a
    USRP must have no hyphen. *)
Theorem listed_selects b g :
  (forall s, have_hackrf b = true -> (List.length (skip_zeros s) <= 56)%nat ->
    set_interface b (hackrf_name s) g = Run (set_str v_serial (skip_zeros s) g)) /\
  (forall n, have_bladerf b = true -> 0 <= n < 2 ^ 31 -> set_interface b (bladerf_name n) g = Run (set_int v_bladerf_num n g)) /\
  (forall product serial, have_uhd b = true -> Forall (fun c => c <> 45) product -> (List.length product + List.length serial <= 121)%nat ->
    set_interface b (usrp_name product serial) g = Run (set_str v_usrp_serial serial g)) /\
  (forall i, have_soapysdr b = true -> Z.of_nat i < 2 ^ 31 -> set_interface b (soapy_name i) g = Run (set_int v_soapy_num (Z.of_nat i) g)) /\
  (forall d s, have_soapysdr b = true -> (List.length d + List.length s <= 234)%nat ->
    exists a, soapy_args_name (Some d) (Some s) = Some a /\
      set_interface b a g = Run (set_str v_soapy_args (bytes_of "driver=" ++ d ++ bytes_of ",serial=" ++ s) g)) /\
  (forall e i s m, have_sdrplay b = true -> default [] (api_devices e) !! i = Some (s, m) -> s <> [] -> (List.length s <= 55)%nat ->
    set_interface b (sdrplay_name s) g = Run (set_str v_sdrplay_serial s g) /\
    exists j m', sdrplay_device (map fst (default [] (api_devices e))) (Some s) = Some j /\ default [] (api_devices e) !! j = Some (s, m')) /\
  (forall e cards card s, have_sidekiq b = true -> get_cards e = Some cards -> In card cards -> basic_ok e card = true ->
    serial_of e card = Some s -> s <> [] -> (List.length s <= 55)%nat ->
    let name := sidekiq_name (Some s) in
    set_interface b name g = Run (set_str v_sidekiq_dev name g) /\
    exists c s', snd (sidekiq_pick_card e (sidekiq_parse_serial name)) = Some c /\ serial_of e c = Some s' /\ strcaseeq s' s = true).
Proof.
  split; [|split; [|split; [|split; [|split; [|split]]]]].
  - intros s Hb Hl. unfold hackrf_name. rewrite fits by (cbn; lia). by branch.
  - intros n Hb Hn. pose proof (fmt_d_short n 10 ltac:(lia) ltac:(lia)) as Hl. unfold bladerf_name. rewrite fits by (cbn [bytes_of]; cbn; lia).
    branch. do 2 f_equal. apply fmt_d_reads. lia.
  - intros product serial Hb Hp Hl. unfold usrp_name. rewrite fits by (cbn; rewrite length_app; cbn; lia).
    branch. unfold usrp_get_serial. change (starts_with _ _) with true.
    change (drop 5 (bytes_of "usrp-" ++ product ++ [45] ++ serial)) with (product ++ 45 :: serial). by rewrite split_at_here.
  - intros i Hb Hi. pose proof (fmt_d_short (Z.of_nat i) 10 ltac:(lia) ltac:(lia)) as Hl. unfold soapy_name. rewrite fits by (cbn [bytes_of]; cbn; lia).
    branch. do 2 f_equal. apply fmt_d_reads. lia.
  - intros d s Hb Hl. unfold soapy_args_name. rewrite (proj2 (Nat.ltb_ge 256 _)) by lia. eexists. split; [reflexivity|].
    rewrite (fits 249) by (cbn; lia). rewrite take_ge by (rewrite !length_app; cbn; lia). rewrite <- !app_assoc. by branch.
  - intros e i s m Hb Hi Hs Hl. split.
    + unfold sdrplay_name. rewrite fits by (cbn; lia). by branch.
    + destruct (sdrplay_finds _ _ _ _ Hi) as (j & m' & Hj & H). exists j, m'. auto.
  - intros e cards card s Hb Hc Hin Hok Hser Hs Hl name. assert (name = bytes_of "sidekiq-" ++ s) as En by (apply fits; cbn; lia). rewrite En. split.
    + by branch.
    + assert (sidekiq_parse_serial (bytes_of "sidekiq-" ++ s) = Some s) as -> by (unfold sidekiq_parse_serial; cbn; by destruct s).
      unfold sidekiq_pick_card. rewrite Hc. destruct cards as [|c0 cs]; [done|]. destruct (probe_finds e s (c0 :: cs) card Hin Hok Hser) as (c & H1 & _ & s' & H2 & H3).
      by exists c, s'.
Qed.

Lemma listed_selects_witness :
  let b := Build true true true true true true true in
  set_interface b (bytes_of "bladerf3") globals_init = Run (set_int v_bladerf_num 3 globals_init) /\
  set_interface b (bytes_of "usrp-B210-30AD123") globals_init = Run (set_str v_usrp_serial (bytes_of "30AD123") globals_init).
Proof.
  destruct (listed_selects (Build true true true true true true true) globals_init) as (_ & Hb & Hu & _). split.
  - by apply (Hb 3).
  - apply (Hu (bytes_of "B210") (bytes_of "30AD123")); [done| |cbn; lia]. repeat constructor; discriminate.
Defined.
