(* ===== verification/Avx2.v ===== *)
(** The AVX2 kernels, [src/simd_avx2.c].

    A register is eight lanes, two of the registers of [Simd.v].  The kernels use
    fused multiply-add, whose exact product is added before rounding: [f32_fma].
    The file is compiled with FMA enabled, so the compiler may also fuse a product
    and a sum written in C, in the scalar tails and around the multiply
    intrinsics; which of them it fuses is not in the source.  A [contraction] is a
    choice, and the results hold for every one, or name the choice they need. *)
From S2P Require Import Prelude CFloat CRound CCanon CComplex Kernels Simd Capture.

(** * Fused multiply-add *)

(** [a * b + c], rounded once. *)
Definition f32_fma (a b c : f32) : f32 :=
  match a, b with
  | S754_finite sa ma ea, S754_finite sb mb eb =>
      match c with
      | S754_finite sc mc ec =>
          let ez := Z.min (ea + eb) ec in
          binary_normalize 24 128
            (cond_Zopp (xorb sa sb) (Z.pos ma * Z.pos mb * 2 ^ (ea + eb - ez)) + cond_Zopp sc (Z.pos mc * 2 ^ (ec - ez))) ez false
      | S754_zero _ => f32_mul a b
      | S754_infinity _ | S754_nan => c
      end
  | _, _ => f32_add (f32_mul a b) c
  end.

Lemma fma_canonical a b c : canonical32 a -> canonical32 b -> canonical32 c -> canonical32 (f32_fma a b c).
Proof.
  intros Ha Hb Hc. unfold f32_fma. destruct a as [| | |sa ma ea], b as [| | |sb mb eb]; auto with canon.
  destruct c as [| | |sc mc ec]; auto with canon. apply normalize_canonical; lia.
Qed.
#[export] Hint Resolve fma_canonical : canon.

(** What the compiler makes of [acc + t * x], [re * re + im * im] and
    [a * a - b * b]. *)
Record contraction := Contraction {
  madd : f32 -> f32 -> f32 -> f32;
  sumsq : f32 -> f32 -> f32;
  diffsq : f32 -> f32 -> f32;
}.
Class ContractionOk (C : contraction) : Prop := {
  madd_choice : (forall t x a, madd C t x a = f32_fma t x a) \/ (forall t x a, madd C t x a = f32_add a (f32_mul t x));
  sumsq_choice : (forall a b, sumsq C a b = f32_fma a a (f32_mul b b)) \/ (forall a b, sumsq C a b = f32_fma b b (f32_mul a a)) \/
    (forall a b, sumsq C a b = f32_add (f32_mul a a) (f32_mul b b));
  diffsq_choice : (forall a b, diffsq C a b = f32_fma a a (f32_opp (f32_mul b b))) \/ (forall a b, diffsq C a b = f32_fma (f32_opp b) b (f32_mul a a)) \/
    (forall a b, diffsq C a b = f32_sub (f32_mul a a) (f32_mul b b));
}.
(** Everything fused, and nothing. *)
Definition fused : contraction := Contraction f32_fma (fun a b => f32_fma a a (f32_mul b b)) (fun a b => f32_fma a a (f32_opp (f32_mul b b))).
Definition unfused : contraction :=
  Contraction (fun t x a => f32_add a (f32_mul t x)) (fun a b => f32_add (f32_mul a a) (f32_mul b b)) (fun a b => f32_sub (f32_mul a a) (f32_mul b b)).
#[export] Instance fused_ok : ContractionOk fused.
Proof. split; auto. Qed.
#[export] Instance unfused_ok : ContractionOk unfused.
Proof. split; auto. Qed.

Lemma madd_canonical C `{!ContractionOk C} t x a : canonical32 t -> canonical32 x -> canonical32 a -> canonical32 (madd C t x a).
Proof. intros. destruct madd_choice as [E|E]; rewrite E; auto with canon. Qed.
#[export] Hint Resolve madd_canonical : canon.

(** * Registers *)

Record m256 := M256 { lo : m128; hi : m128 }.
Definition lane8 (v : m256) (i : nat) : f32 := if (i <? 4)%nat then lane (lo v) i else lane (hi v) (i - 4).

Definition both (f : m128 -> m128 -> m128) (a b : m256) : m256 := M256 (f (lo a) (lo b)) (f (hi a) (hi b)).
Definition mm256_setzero_ps : m256 := M256 mm_setzero_ps mm_setzero_ps.
Definition mm256_set1_ps (x : f32) : m256 := M256 (mm_set1_ps x) (mm_set1_ps x).
Definition mm256_add_ps : m256 -> m256 -> m256 := both mm_add_ps.
Definition mm256_sub_ps : m256 -> m256 -> m256 := both mm_sub_ps.
Definition mm256_mul_ps : m256 -> m256 -> m256 := both mm_mul_ps.
Definition mm256_div_ps : m256 -> m256 -> m256 := both mm_div_ps.
Definition mm256_max_ps : m256 -> m256 -> m256 := both mm_max_ps.
Definition mm_fmadd_ps (a b c : m128) : m128 :=
  M128 (f32_fma (l0 a) (l0 b) (l0 c)) (f32_fma (l1 a) (l1 b) (l1 c)) (f32_fma (l2 a) (l2 b) (l2 c)) (f32_fma (l3 a) (l3 b) (l3 c)).
Definition mm256_fmadd_ps (a b c : m256) : m256 := M256 (mm_fmadd_ps (lo a) (lo b) (lo c)) (mm_fmadd_ps (hi a) (hi b) (hi c)).
(** [_mm256_and_ps(x, _mm256_cmp_ps(a, b, _CMP_GT_OQ))]. *)
Definition mm256_and_cmpgt_ps (x a b : m256) : m256 := M256 (mm_and_cmpgt_ps (lo x) (lo a) (lo b)) (mm_and_cmpgt_ps (hi x) (hi a) (hi b)).
(** [_mm256_set_m128]: the higher half first. *)
Definition mm256_set_m128 (h l : m128) : m256 := M256 l h.
Definition mm_unpackhi_ps (a b : m128) : m128 := M128 (l2 a) (l2 b) (l3 a) (l3 b).
Definition mm256_loadu_ps (a : list f32) (i : nat) : m256 := M256 (mm_loadu_ps a i) (mm_loadu_ps a (4 + i)).
Definition mm256_storeu_ps (a : list f32) (i : nat) (v : m256) : list f32 := mm_storeu_ps (mm_storeu_ps a i (lo v)) (4 + i) (hi v).
(** [_mm256_permutevar8x32_ps] with the indices of [_mm256_setr_epi32]. *)
Definition mm256_permute (v : m256) (i0 i1 i2 i3 i4 i5 i6 i7 : nat) : m256 :=
  M256 (M128 (lane8 v i0) (lane8 v i1) (lane8 v i2) (lane8 v i3)) (M128 (lane8 v i4) (lane8 v i5) (lane8 v i6) (lane8 v i7)).
Definition deinterleave (v : m256) : m256 := mm256_permute v 0 2 4 6 1 3 5 7.
(** [_mm256_cvtepi32_ps] of eight sign-extended bytes. *)
Definition mm256_cvt_bytes (b : list Z) (i : nat) : m256 := M256 (mm_cvt_bytes b i) (mm_cvt_bytes b (4 + i)).
(** Each of four values twice. *)
Definition twice (t4 : m128) : m256 := mm256_set_m128 (mm_unpackhi_ps t4 t4) (mm_unpacklo_ps t4 t4).

(** * Kernels *)

Section kernels.
Context (C : contraction).

Definition avx2_fir_ccf (taps : list f32) (ntaps : nat) (inp out : list f32) (n : nat) : list f32 :=
  vec_loop 4 n
    (fun i out => mm256_storeu_ps out (2 * i) (fold_left (fun acc k => mm256_fmadd_ps (mm256_set1_ps (taps !!! k)) (mm256_loadu_ps inp (2 * (i + k))) acc) (seq 0 ntaps) mm256_setzero_ps))
    (fun i out =>
       let acc_re := fold_left (fun acc k => madd C (taps !!! k) (inp !!! (2 * (i + k))%nat) acc) (seq 0 ntaps) f32_zero in
       let acc_im := fold_left (fun acc k => madd C (taps !!! k) (inp !!! S (2 * (i + k))) acc) (seq 0 ntaps) f32_zero in
       <[S (2 * i) := acc_im]> (<[(2 * i)%nat := acc_re]> out)) out.

Definition avx2_fir_ccf_dec (taps : list f32) (ntaps : nat) (inp out : list f32) (n_out decimation : nat) : list f32 :=
  fold_left (fun out i =>
    let p := drop (i * decimation * 2) inp in
    let acc := fold_left (fun acc j => let k := (4 * j)%nat in
      mm256_fmadd_ps (twice (mm_loadu_ps taps k)) (mm256_loadu_ps p (2 * k)) acc) (seq 0 (ntaps / 4)) mm256_setzero_ps in
    let sum := mm_add_ps (lo acc) (hi acc) in
    let pair_hi := mm_shuffle_ps sum sum 3 2 3 2 in
    let result := mm_add_ps sum pair_hi in
    let tail := seq (4 * (ntaps / 4)) (ntaps mod 4) in
    let acc_re := fold_left (fun acc k => madd C (taps !!! k) (p !!! (2 * k)%nat) acc) tail (mm_cvtss_f32 result) in
    let acc_im := fold_left (fun acc k => madd C (taps !!! k) (p !!! S (2 * k)) acc) tail (mm_cvtss_f32 (mm_shuffle_ps result result 0 0 0 1)) in
    <[S (2 * i) := acc_im]> (<[(2 * i)%nat := acc_re]> out)) (seq 0 n_out) out.

Definition avx2_fir_fff (taps : list f32) (ntaps : nat) (inp out : list f32) (n : nat) : list f32 :=
  vec_loop 8 n
    (fun i out => mm256_storeu_ps out i (fold_left (fun acc k => mm256_fmadd_ps (mm256_set1_ps (taps !!! k)) (mm256_loadu_ps inp (i + k)) acc) (seq 0 ntaps) mm256_setzero_ps))
    (fun i out => <[i := fold_left (fun acc k => madd C (taps !!! k) (inp !!! (i + k)%nat) acc) (seq 0 ntaps) f32_zero]> out) out.

Definition avx2_window_cf (samples window out : list f32) (n : nat) : list f32 :=
  vec_loop 4 n
    (fun i out => mm256_storeu_ps out (2 * i) (mm256_mul_ps (mm256_loadu_ps samples (2 * i)) (twice (mm_loadu_ps window i))))
    (fun i out => <[S (2 * i) := f32_mul (samples !!! S (2 * i)) (window !!! i)]> (<[(2 * i)%nat := f32_mul (samples !!! (2 * i)%nat) (window !!! i)]> out)) out.

(** The magnitudes of four complex values. *)
Definition mag4 (v : m256) : m128 :=
  let d := deinterleave v in mm_fmadd_ps (lo d) (lo d) (mm_mul_ps (hi d) (hi d)).
Definition mag_tail (a : list f32) (i : nat) : f32 := sumsq C (a !!! (2 * i)%nat) (a !!! S (2 * i)).

Definition avx2_fftshift_mag (fft_out mag_shifted : list f32) (fft_size : nat) : list f32 :=
  let half := (fft_size / 2)%nat in
  vec_loop 4 half
    (fun i mag_shifted =>
       let mag_shifted := mm_storeu_ps mag_shifted i (mag4 (mm256_loadu_ps fft_out (2 * (half + i)))) in
       mm_storeu_ps mag_shifted (half + i) (mag4 (mm256_loadu_ps fft_out (2 * i))))
    (fun i mag_shifted => <[(half + i)%nat := mag_tail fft_out i]> (<[i := mag_tail fft_out (half + i)]> mag_shifted)) mag_shifted.

Definition avx2_baseline_update (sum old_hist new_mag : list f32) (n : nat) : list f32 :=
  vec_loop 8 n
    (fun i sum => mm256_storeu_ps sum i (mm256_add_ps (mm256_sub_ps (mm256_loadu_ps sum i) (mm256_loadu_ps old_hist i)) (mm256_loadu_ps new_mag i)))
    (fun i sum => <[i := f32_add (f32_sub (sum !!! i) (old_hist !!! i)) (new_mag !!! i)]> sum) sum.

Definition avx2_relative_mag (mag baseline out : list f32) (n : nat) : list f32 :=
  vec_loop 8 n
    (fun i out =>
       let m := mm256_loadu_ps mag i in
       let b := mm256_loadu_ps baseline i in
       mm256_storeu_ps out i (mm256_and_cmpgt_ps (mm256_div_ps m b) b mm256_setzero_ps))
    (fun i out => <[i := if f32_gtb (baseline !!! i) f32_zero then f32_div (mag !!! i) (baseline !!! i) else f32_zero]> out) out.

Definition avx2_convert_i8_cf (iq : list Z) (out : list f32) (n : nat) : list f32 :=
  let scale := mm256_set1_ps (f32_div f32_one (f32_of_Z 128)) in
  vec_loop 8 n
    (fun i out =>
       let out := mm256_storeu_ps out (2 * i) (mm256_mul_ps (mm256_cvt_bytes iq (2 * i)) scale) in
       mm256_storeu_ps out (2 * (4 + i)) (mm256_mul_ps (mm256_cvt_bytes iq (8 + 2 * i)) scale))
    (fun i out => <[S (2 * i) := f32_div (f32_of_Z (iq !!! S (2 * i))) (f32_of_Z 128)]> (<[(2 * i)%nat := f32_div (f32_of_Z (iq !!! (2 * i)%nat)) (f32_of_Z 128)]> out)) out.

Definition avx2_mag_squared (inp out : list f32) (n : nat) : list f32 :=
  vec_loop 4 n (fun i out => mm_storeu_ps out i (mag4 (mm256_loadu_ps inp (2 * i)))) (fun i out => <[i := mag_tail inp i]> out) out.

Definition avx2_max_float (inp : list f32) (n : nat) : f32 :=
  let vmax := fold_left (fun vmax j => mm256_max_ps vmax (mm256_loadu_ps inp (8 * j))) (seq 0 (n / 8)) (mm256_set1_ps max_start) in
  let mx := mm_max_ps (lo vmax) (hi vmax) in
  let mx := mm_max_ps mx (mm_shuffle_ps mx mx 1 0 3 2) in
  let mx := mm_max_ps mx (mm_shuffle_ps mx mx 0 1 0 1) in
  fold_left (fun max_val i => if f32_gtb (inp !!! i) max_val then inp !!! i else max_val) (seq (8 * (n / 8)) (n mod 8)) (mm_cvtss_f32 mx).

Definition avx2_csquare_window (inp window out : list f32) (n : nat) : list f32 :=
  vec_loop 4 n
    (fun i out =>
       let d := deinterleave (mm256_loadu_ps inp (2 * i)) in
       let re := lo d in
       let im := hi d in
       let sq_re := lanes2 (diffsq C) re im in
       let sq_im := mm_mul_ps (mm_set1_ps (f32_of_Z 2)) (mm_mul_ps re im) in
       let w := mm_loadu_ps window i in
       let sq_re := mm_mul_ps sq_re w in
       let sq_im := mm_mul_ps sq_im w in
       let out := mm_storeu_ps out (2 * i) (mm_unpacklo_ps sq_re sq_im) in
       mm_storeu_ps out (4 + 2 * i) (mm_unpackhi_ps sq_re sq_im))
    (fun i out =>
       let a := inp !!! (2 * i)%nat in
       let b := inp !!! S (2 * i) in
       <[S (2 * i) := f32_mul (f32_mul (f32_mul (f32_of_Z 2) a) b) (window !!! i)]>
         (<[(2 * i)%nat := f32_mul (diffsq C a b) (window !!! i)]> out)) out.

(** The table [simd_init] installs. *)
Definition avx2_kernels : kernels :=
  Kernels (fun taps ntaps inp n => unflat (avx2_fir_ccf taps ntaps (flat inp) (blank (2 * n)) n))
    (fun taps ntaps inp n dec => unflat (avx2_fir_ccf_dec taps ntaps (flat inp) (blank (2 * n)) n dec))
    (fun taps ntaps inp n => avx2_fir_fff taps ntaps inp (blank n) n)
    (fun samples window n => unflat (avx2_window_cf (flat samples) window (blank (2 * n)) n))
    (fun fft_out n => avx2_fftshift_mag (flat fft_out) (blank (2 * (n / 2))) (2 * (n / 2)))
    (fun sum old_hist new_mag n => take n (avx2_baseline_update sum old_hist new_mag n))
    (fun mag baseline n => avx2_relative_mag mag baseline (blank n) n)
    (fun iq n => unflat (avx2_convert_i8_cf iq (blank (2 * n)) n))
    (fun inp n => avx2_mag_squared (flat inp) (blank n) n)
    avx2_max_float
    (fun inp window n => unflat (avx2_csquare_window (flat inp) window (blank (2 * n)) n)).
End kernels.

(** * Lemmas *)

Ltac lanes8 := unfold mm256_storeu_ps, mm256_loadu_ps, mm_storeu_ps, mm_loadu_ps; cbn [Nat.add];
  cbn [mm256_mul_ps mm256_add_ps mm256_sub_ps mm256_div_ps mm256_and_cmpgt_ps both twice mm256_set_m128 mm256_set1_ps mm256_setzero_ps mm256_cvt_bytes mm_cvt_bytes
       mm_unpacklo_ps mm_unpackhi_ps mm_mul_ps mm_add_ps mm_sub_ps mm_div_ps mm_and_cmpgt_ps mm_set1_ps mm_setzero_ps lanes2 lo hi l0 l1 l2 l3]; cbn [Nat.add].

Lemma avx2_window_cf_eq samples window out n : (2 * n <= length out)%nat ->
  avx2_window_cf (flat samples) window out n = flat (generic_window_cf samples window n) ++ drop (2 * n) out.
Proof.
  intros Hn. unfold avx2_window_cf. rewrite vec_loop_plain; [|lia|].
  - rewrite store_pair_loop by done. f_equal. unfold generic_window_cf. rewrite flat_map_flat. apply flat_map_ext. intros i. by rewrite flat_re, flat_im.
  - intros i s. cbn [seq fold_left]. lanes8. rewrite !even_step. done.
Qed.

Lemma avx2_relative_mag_eq mag baseline out n : (n <= length out)%nat ->
  avx2_relative_mag mag baseline out n = generic_relative_mag mag baseline n ++ drop n out.
Proof. intros Hn. unfold avx2_relative_mag. rewrite vec_loop_plain; [|lia|done]. by rewrite store_loop. Qed.

Lemma avx2_baseline_update_eq sum old_hist new_mag n : (n <= length sum)%nat ->
  avx2_baseline_update sum old_hist new_mag n = generic_baseline_update sum old_hist new_mag n ++ drop n sum.
Proof.
  intros Hn. unfold avx2_baseline_update. rewrite vec_loop_plain; [|lia|].
  - by rewrite (update_loop (fun i x => f32_add (f32_sub x (old_hist !!! i)) (new_mag !!! i))).
  - intros i s. cbn [seq fold_left]. lanes8. rewrite !list_lookup_total_insert_ne by lia. done.
Qed.

Lemma avx2_convert_i8_cf_eq iq out n : Forall (fun b => -128 <= b < 128) iq -> (2 * n <= length out)%nat ->
  avx2_convert_i8_cf iq out n = flat (generic_convert_i8_cf iq n) ++ drop (2 * n) out.
Proof.
  intros Hb Hn. unfold avx2_convert_i8_cf. rewrite vec_loop_plain; [|lia|].
  - rewrite store_pair_loop by done. f_equal. unfold generic_convert_i8_cf. rewrite flat_map_flat. apply flat_map_ext. intros i.
    replace (2 * i + 1)%nat with (S (2 * i)) by lia. by rewrite byte_parts by by apply bytes_lookup.
  - intros i s. cbn [seq fold_left]. replace (2 * (4 + i))%nat with (8 + 2 * i)%nat by lia. lanes8. rewrite !byte_scaled by by apply bytes_lookup. rewrite !even_step. done.
Qed.

(** ** The fused kernels *)

(** The filters and magnitudes with every product fused into its sum. *)
Definition c_fma (t : f32) (x acc : c32) : c32 := C32 (f32_fma t (c_re x) (c_re acc)) (f32_fma t (c_im x) (c_im acc)).
Definition fused_fir_ccf (taps : list f32) (ntaps : nat) (inp : list c32) (n : nat) : list c32 :=
  map (fun i => fold_left (fun acc k => c_fma (taps !!! k) (inp !!! (i + k)%nat) acc) (seq 0 ntaps) c_zero) (seq 0 n).
Definition fused_fir_fff (taps : list f32) (ntaps : nat) (inp : list f32) (n : nat) : list f32 :=
  map (fun i => fold_left (fun acc k => f32_fma (taps !!! k) (inp !!! (i + k)%nat) acc) (seq 0 ntaps) f32_zero) (seq 0 n).
Definition fused_mag2 (x : c32) : f32 := f32_fma (c_re x) (c_re x) (f32_mul (c_im x) (c_im x)).
Definition fused_mag_squared (inp : list c32) (n : nat) : list f32 := map (fun i => fused_mag2 (inp !!! i)) (seq 0 n).

(** A fused sum of products, lane by lane. *)
Lemma fold_fma (c : nat -> f32) (d : nat -> m256) ks : forall a,
  fold_left (fun acc k => mm256_fmadd_ps (mm256_set1_ps (c k)) (d k) acc) ks a =
  let sum f x := fold_left (fun acc k => f32_fma (c k) (f (d k)) acc) ks x in
  M256 (M128 (sum (fun v => l0 (lo v)) (l0 (lo a))) (sum (fun v => l1 (lo v)) (l1 (lo a))) (sum (fun v => l2 (lo v)) (l2 (lo a))) (sum (fun v => l3 (lo v)) (l3 (lo a))))
       (M128 (sum (fun v => l0 (hi v)) (l0 (hi a))) (sum (fun v => l1 (hi v)) (l1 (hi a))) (sum (fun v => l2 (hi v)) (l2 (hi a))) (sum (fun v => l3 (hi v)) (l3 (hi a)))).
Proof. induction ks as [|k ks IH]; intros a; [by destruct a as [[] []]|]. cbn [fold_left]. rewrite IH. done. Qed.

Lemma fold_c_fma (c : nat -> f32) (d : nat -> c32) ks : forall a b,
  fold_left (fun acc k => c_fma (c k) (d k) acc) ks (C32 a b) =
  C32 (fold_left (fun acc k => f32_fma (c k) (c_re (d k)) acc) ks a) (fold_left (fun acc k => f32_fma (c k) (c_im (d k)) acc) ks b).
Proof. induction ks as [|k ks IH]; intros; [done|]. cbn [fold_left]. apply IH. Qed.

Lemma load_four l i : mm256_loadu_ps (flat l) (2 * i) =
  M256 (M128 (c_re (l !!! i)) (c_im (l !!! i)) (c_re (l !!! S i)) (c_im (l !!! S i)))
       (M128 (c_re (l !!! S (S i))) (c_im (l !!! S (S i))) (c_re (l !!! S (S (S i)))) (c_im (l !!! S (S (S i))))).
Proof. unfold mm256_loadu_ps. replace (4 + 2 * i)%nat with (2 * S (S i))%nat by lia. by rewrite !load_pair. Qed.

(** The scalar loop, fused. *)
Lemma fused_tail taps ntaps inp out n : (2 * n <= length out)%nat ->
  fold_left (fun out i =>
    let acc_re := fold_left (fun acc k => madd fused (taps !!! k) (flat inp !!! (2 * (i + k))%nat) acc) (seq 0 ntaps) f32_zero in
    let acc_im := fold_left (fun acc k => madd fused (taps !!! k) (flat inp !!! S (2 * (i + k))) acc) (seq 0 ntaps) f32_zero in
    <[S (2 * i) := acc_im]> (<[(2 * i)%nat := acc_re]> out)) (seq 0 n) out = flat (fused_fir_ccf taps ntaps inp n) ++ drop (2 * n) out.
Proof.
  intros Hn. cbv zeta. rewrite store_pair_loop by done. f_equal. unfold fused_fir_ccf. rewrite flat_map_flat. apply flat_map_ext. intros i.
  unfold c_zero. rewrite fold_c_fma. cbn [c_re c_im madd fused]. f_equal; [|f_equal]; apply fold_ext; intros a k; by rewrite ?flat_re, ?flat_im.
Qed.

Lemma avx2_fir_ccf_eq taps ntaps inp out n : (2 * n <= length out)%nat ->
  avx2_fir_ccf fused taps ntaps (flat inp) out n = flat (fused_fir_ccf taps ntaps inp n) ++ drop (2 * n) out.
Proof.
  intros Hn. unfold avx2_fir_ccf. rewrite vec_loop_plain; [by apply fused_tail|lia|].
  intros i s. cbn [seq fold_left]. rewrite fold_fma. cbv zeta. unfold mm256_storeu_ps, mm_storeu_ps.
  cbn [mm256_setzero_ps mm_setzero_ps lo hi l0 l1 l2 l3 Nat.add madd fused]. rewrite !even_step.
  repeat (f_equal; [apply fold_ext; intros a k; rewrite load_four, ?flat_re, ?flat_im; cbn [lo hi l0 l1 l2 l3]; done|..]).
Qed.

Lemma avx2_fir_fff_eq taps ntaps inp out n : (n <= length out)%nat ->
  avx2_fir_fff fused taps ntaps inp out n = fused_fir_fff taps ntaps inp n ++ drop n out.
Proof.
  intros Hn. unfold avx2_fir_fff. rewrite vec_loop_plain; [|lia|]; [by rewrite store_loop|].
  intros i s. cbn [seq fold_left]. rewrite fold_fma. cbv zeta. lanes8. done.
Qed.

Lemma mag4_flat l i : mag4 (mm256_loadu_ps (flat l) (2 * i)) =
  M128 (fused_mag2 (l !!! i)) (fused_mag2 (l !!! S i)) (fused_mag2 (l !!! S (S i))) (fused_mag2 (l !!! S (S (S i)))).
Proof. unfold mag4. by rewrite load_four. Qed.
Lemma mag_tail_flat l i : mag_tail fused (flat l) i = fused_mag2 (l !!! i).
Proof. unfold mag_tail. by rewrite flat_re, flat_im. Qed.

Lemma avx2_mag_squared_eq inp out n : (n <= length out)%nat -> avx2_mag_squared fused (flat inp) out n = fused_mag_squared inp n ++ drop n out.
Proof.
  intros Hn. unfold avx2_mag_squared. rewrite vec_loop_plain; [|lia|].
  - rewrite store_loop by done. f_equal. apply map_ext. intros i. apply mag_tail_flat.
  - intros i s. cbn [seq fold_left]. unfold mm_storeu_ps. by rewrite mag4_flat, !mag_tail_flat.
Qed.

(** ** What the callers rely on *)

Lemma store8_length a i v : length (mm256_storeu_ps a i v) = length a.
Proof. unfold mm256_storeu_ps, mm_storeu_ps. by rewrite !length_insert. Qed.

#[export] Instance avx2_kernels_ok C : KernelsOk (avx2_kernels C).
Proof.
  assert (forall n, length (blank n) = n) as Hb by (intros; apply length_replicate).
  split; intros; cbn [simd_fir_ccf simd_fir_ccf_dec simd_fir_fff simd_mag_squared simd_csquare_window avx2_kernels].
  - apply length_unflat. unfold avx2_fir_ccf. rewrite length_vec_loop; [apply Hb|..]; intros; [apply store8_length|by rewrite !length_insert].
  - apply length_unflat. rewrite <- (Hb (2 * n)%nat) at 2. generalize (blank (2 * n)). unfold avx2_fir_ccf_dec. generalize (seq 0 n). intros l.
    induction l as [|i l IH]; intros out; [done|]. cbn [fold_left]. by rewrite IH, !length_insert.
  - unfold avx2_fir_fff. rewrite length_vec_loop; [apply Hb|..]; intros; [apply store8_length|by rewrite length_insert].
  - unfold avx2_mag_squared. rewrite length_vec_loop; [apply Hb|..]; intros; unfold mm_storeu_ps; by rewrite !length_insert.
  - apply length_unflat. unfold avx2_csquare_window. rewrite length_vec_loop; [apply Hb|..]; intros; unfold mm_storeu_ps; by rewrite !length_insert.
Qed.

#[local] Abbreviation canon_all := (Forall (canonical 24 128)).
Definition lanes8_canon (v : m256) : Prop := lanes_canon (lo v) /\ lanes_canon (hi v).

Lemma fmadd8_canon a b c : lanes8_canon a -> lanes8_canon b -> lanes8_canon c -> lanes8_canon (mm256_fmadd_ps a b c).
Proof.
  intros [(? & ? & ? & ?) (? & ? & ? & ?)] [(? & ? & ? & ?) (? & ? & ? & ?)] [(? & ? & ? & ?) (? & ? & ? & ?)].
  repeat split; cbn; auto with canon.
Qed.
Lemma load8_canon a i : canon_all a -> lanes8_canon (mm256_loadu_ps a i).
Proof. intros H. split; by apply mm_loadu_canon. Qed.
Lemma store8_canon a i v : canon_all a -> lanes8_canon v -> canon_all (mm256_storeu_ps a i v).
Proof.
  intros Ha [(? & ? & ? & ?) (? & ? & ? & ?)]. unfold mm256_storeu_ps, mm_storeu_ps. repeat (apply Forall_insert; [|done]). done.
Qed.
Lemma twice_canon v : lanes_canon v -> lanes8_canon (twice v).
Proof. intros (? & ? & ? & ?). by repeat split. Qed.
Lemma zero8_canon : lanes8_canon mm256_setzero_ps.
Proof. by repeat split. Qed.
Lemma set1_canon x : canonical32 x -> lanes8_canon (mm256_set1_ps x).
Proof. by repeat split. Qed.
#[local] Hint Resolve fmadd8_canon load8_canon store8_canon twice_canon zero8_canon set1_canon mm_loadu_canon mm_add_canon mm_shuffle_canon : canon.

Lemma vec_loop_preserves {S} (P : S -> Prop) w n (body tail : nat -> S -> S) s :
  (forall i s, P s -> P (body i s)) -> (forall i s, P s -> P (tail i s)) -> P s -> P (vec_loop w n body tail s).
Proof. intros Hb Ht Hs. unfold vec_loop. apply fold_preserves; [auto|]. apply fold_preserves; auto. Qed.

#[export] Instance avx2_kernels_canon C `{!ContractionOk C} : KernelsCanon (avx2_kernels C).
Proof.
  split; intros taps ntaps inp n; intros; cbn [simd_fir_ccf simd_fir_ccf_dec avx2_kernels]; apply unflat_canon;
    assert (canon_all (flat inp)) as Hi by by apply flat_canon.
  - unfold avx2_fir_ccf. apply vec_loop_preserves; [| |by apply Forall_replicate].
    + intros i s Hs. apply store8_canon; [done|]. apply fold_preserves; auto with canon.
    + intros i s Hs. cbv zeta. apply Forall_insert; [apply Forall_insert; [done|]|]; apply fold_preserves; auto with canon.
  - unfold avx2_fir_ccf_dec. apply fold_preserves; [|by apply Forall_replicate]. intros o i Ho. cbv zeta.
    assert (canon_all (drop (i * dec * 2) (flat inp))) as Hp by by apply Forall_drop. set (p := drop _ (flat inp)) in *. clearbody p.
    match goal with |- context [fold_left ?f (seq 0 (ntaps / 4)) mm256_setzero_ps] => set (acc := fold_left f (seq 0 (ntaps / 4)) mm256_setzero_ps) end.
    assert (lanes8_canon acc) as [Hl Hh] by (apply fold_preserves; auto 8 with canon). clearbody acc.
    assert (forall v, lanes_canon v -> canonical32 (mm_cvtss_f32 v)) as Hv by (intros v Hv; apply Hv).
    apply Forall_insert; [apply Forall_insert; [done|]|]; apply fold_preserves; auto 8 with canon.
Qed.

#[export] Instance avx2_convert_exact C : ConvertExact (avx2_kernels C).
Proof.
  intros iq n H. cbn [simd_convert_i8_cf avx2_kernels]. unfold blank. rewrite avx2_convert_i8_cf_eq by (done || by rewrite length_replicate).
  by rewrite drop_ge, app_nil_r, unflat_flat by (rewrite length_replicate; lia).
Qed.

(** * Properties *)

(** C22 (equivalence).  The AVX2 window, baseline update, relative magnitudes and
    byte conversion store the bits of the scalar kernels, for every input and
    length; the filters and magnitudes, which fuse, store those of the scalar
    loops with each product fused into its sum, when the compiler fuses the tails
    too. *)
Theorem avx2_matches taps ntaps (c : list c32) (a b : list f32) (iq : list Z) (out : list f32) n :
  (2 * n <= length out)%nat -> Forall (fun x => -128 <= x < 128) iq ->
  avx2_window_cf (flat c) a out n = flat (generic_window_cf c a n) ++ drop (2 * n) out /\
  avx2_baseline_update out a b n = generic_baseline_update out a b n ++ drop n out /\
  avx2_relative_mag a b out n = generic_relative_mag a b n ++ drop n out /\
  avx2_convert_i8_cf iq out n = flat (generic_convert_i8_cf iq n) ++ drop (2 * n) out /\
  avx2_fir_ccf fused taps ntaps (flat c) out n = flat (fused_fir_ccf taps ntaps c n) ++ drop (2 * n) out /\
  avx2_fir_fff fused taps ntaps a out n = fused_fir_fff taps ntaps a n ++ drop n out /\
  avx2_mag_squared fused (flat c) out n = fused_mag_squared c n ++ drop n out.
Proof.
  intros Hn Hb. split; [by apply avx2_window_cf_eq|]. split; [apply avx2_baseline_update_eq; lia|]. split; [apply avx2_relative_mag_eq; lia|].
  split; [by apply avx2_convert_i8_cf_eq|]. split; [by apply avx2_fir_ccf_eq|]. split; [apply avx2_fir_fff_eq; lia|]. apply avx2_mag_squared_eq; lia.
Qed.

Lemma avx2_matches_witness :
  avx2_convert_i8_cf [127; -128; 3; 0; 5; 6; 1; 2; 3; 4; 5; 6; 7; 8; 9; 10; -11; 12] (blank 20) 9 =
  flat (generic_convert_i8_cf [127; -128; 3; 0; 5; 6; 1; 2; 3; 4; 5; 6; 7; 8; 9; 10; -11; 12] 9) ++ blank 2.
Proof.
  apply (avx2_matches [] 0 [] [] [] [127; -128; 3; 0; 5; 6; 1; 2; 3; 4; 5; 6; 7; 8; 9; 10; -11; 12] (blank 20) 9); [cbn; lia|]. repeat constructor; lia.
Defined.

(** Fusing changes results: the square of [1 + 2 ^ -12] less its rounding. *)
Example fma_rounds_once : let x := f32_add f32_one (f32_div f32_one (f32_of_Z 4096)) in
  f32_add (f32_mul x x) (f32_opp (f32_mul x x)) = f32_zero /\ f32_fma x x (f32_opp (f32_mul x x)) = f32_div f32_one (f32_of_Z 16777216).
Proof. by vm_compute. Qed.
