(* ===== verification/Neon.v ===== *)
(** The NEON kernels for AArch64, [src/simd_neon.c].

    A register has the four lanes of [Simd.v].  Fused multiply-add and the choice
    of the compiler in the scalar tails are those of [Avx2.v]. *)
From S2P Require Import Prelude CFloat CRound CCanon CComplex Kernels Simd Capture Avx2.

(** * Registers *)

(** [vfmaq_f32]: the accumulator first. *)
Definition vfmaq_f32 (acc a b : m128) : m128 := mm_fmadd_ps a b acc.
(** The even and the odd lanes of two registers, and two registers in turn. *)
Definition vuzp1q_f32 (a b : m128) : m128 := M128 (l0 a) (l2 a) (l0 b) (l2 b).
Definition vuzp2q_f32 (a b : m128) : m128 := M128 (l1 a) (l3 a) (l1 b) (l3 b).
(** [vld2q_f32]: the even and the odd ones of eight values. *)
Definition vld2q_f32 (a : list f32) (i : nat) : m128 * m128 :=
  let x := mm_loadu_ps a i in let y := mm_loadu_ps a (4 + i) in (vuzp1q_f32 x y, vuzp2q_f32 x y).
(** [vaddvq_f32]: pairwise. *)
Definition vaddvq_f32 (v : m128) : f32 := f32_add (f32_add (l0 v) (l1 v)) (f32_add (l2 v) (l3 v)).
(** [FMAX]: a NaN wins, and [-0] is less than [+0]. *)
Definition f32_fmax (a b : f32) : f32 :=
  if f_nan a || f_nan b then S754_nan else if f32_gtb a b then a else if f32_gtb b a then b else if f_sign a then b else a.
Definition vmaxq_f32 : m128 -> m128 -> m128 := lanes2 f32_fmax.
Definition vmaxvq_f32 (v : m128) : f32 := f32_fmax (f32_fmax (l0 v) (l1 v)) (f32_fmax (l2 v) (l3 v)).

(** * Kernels *)

Section kernels.
Context (C : contraction).

Definition neon_fir_ccf (taps : list f32) (ntaps : nat) (inp out : list f32) (n : nat) : list f32 :=
  vec_loop 2 n
    (fun i out => mm_storeu_ps out (2 * i) (fold_left (fun acc k => vfmaq_f32 acc (mm_set1_ps (taps !!! k)) (mm_loadu_ps inp (2 * (i + k)))) (seq 0 ntaps) mm_setzero_ps))
    (fun i out =>
       let acc_re := fold_left (fun acc k => madd C (taps !!! k) (inp !!! (2 * (i + k))%nat) acc) (seq 0 ntaps) f32_zero in
       let acc_im := fold_left (fun acc k => madd C (taps !!! k) (inp !!! S (2 * (i + k))) acc) (seq 0 ntaps) f32_zero in
       <[S (2 * i) := acc_im]> (<[(2 * i)%nat := acc_re]> out)) out.

(** Eight taps at a time into four accumulators, then four into two of them. *)
Definition neon_fir_ccf_dec (taps : list f32) (ntaps : nat) (inp out : list f32) (n_out decimation : nat) : list f32 :=
  fold_left (fun out i =>
    let p := drop (i * decimation * 2) inp in
    let fma2 acc k := let d := vld2q_f32 p (2 * k) in let t := mm_loadu_ps taps k in
      (vfmaq_f32 (fst acc) (fst d) t, vfmaq_f32 (snd acc) (snd d) t) in
    let zero := (mm_setzero_ps, mm_setzero_ps) in
    let '(acc0, acc1) := fold_left (fun acc j => let k := (8 * j)%nat in (fma2 (fst acc) k, fma2 (snd acc) (k + 4)%nat)) (seq 0 (ntaps / 8)) (zero, zero) in
    let k8 := (8 * (ntaps / 8))%nat in
    let acc0 := fold_left (fun acc j => fma2 acc (k8 + 4 * j)%nat) (seq 0 ((ntaps - k8) / 4)) acc0 in
    let k4 := (k8 + 4 * ((ntaps - k8) / 4))%nat in
    let tail := seq k4 (ntaps - k4) in
    let acc_re := fold_left (fun acc k => madd C (taps !!! k) (p !!! (2 * k)%nat) acc) tail (vaddvq_f32 (mm_add_ps (fst acc0) (fst acc1))) in
    let acc_im := fold_left (fun acc k => madd C (taps !!! k) (p !!! S (2 * k)) acc) tail (vaddvq_f32 (mm_add_ps (snd acc0) (snd acc1))) in
    <[S (2 * i) := acc_im]> (<[(2 * i)%nat := acc_re]> out)) (seq 0 n_out) out.

Definition neon_fir_fff (taps : list f32) (ntaps : nat) (inp out : list f32) (n : nat) : list f32 :=
  vec_loop 4 n
    (fun i out => mm_storeu_ps out i (fold_left (fun acc k => vfmaq_f32 acc (mm_set1_ps (taps !!! k)) (mm_loadu_ps inp (i + k))) (seq 0 ntaps) mm_setzero_ps))
    (fun i out => <[i := fold_left (fun acc k => madd C (taps !!! k) (inp !!! (i + k)%nat) acc) (seq 0 ntaps) f32_zero]> out) out.

Definition neon_window_cf (samples window out : list f32) (n : nat) : list f32 :=
  vec_loop 4 n
    (fun i out =>
       let w := mm_loadu_ps window i in
       let a := mm_loadu_ps samples (2 * i) in
       let b := mm_loadu_ps samples (4 + 2 * i) in
       let out := mm_storeu_ps out (2 * i) (mm_mul_ps a (mm_unpacklo_ps w w)) in
       mm_storeu_ps out (4 + 2 * i) (mm_mul_ps b (mm_unpackhi_ps w w)))
    (fun i out => <[S (2 * i) := f32_mul (samples !!! S (2 * i)) (window !!! i)]> (<[(2 * i)%nat := f32_mul (samples !!! (2 * i)%nat) (window !!! i)]> out)) out.

(** The magnitudes of four complex values: here the imaginary part is fused. *)
Definition neon_mag4 (a : list f32) (i : nat) : m128 :=
  let x := mm_loadu_ps a (2 * i) in
  let y := mm_loadu_ps a (2 * (i + 2)) in
  let re := vuzp1q_f32 x y in
  let im := vuzp2q_f32 x y in
  vfmaq_f32 (mm_mul_ps re re) im im.

Definition neon_fftshift_mag (fft_out mag_shifted : list f32) (fft_size : nat) : list f32 :=
  let half := (fft_size / 2)%nat in
  vec_loop 4 half
    (fun i mag_shifted => mm_storeu_ps (mm_storeu_ps mag_shifted i (neon_mag4 fft_out (half + i))) (half + i) (neon_mag4 fft_out i))
    (fun i mag_shifted => <[(half + i)%nat := mag_tail C fft_out i]> (<[i := mag_tail C fft_out (half + i)]> mag_shifted)) mag_shifted.

Definition neon_baseline_update (sum old_hist new_mag : list f32) (n : nat) : list f32 :=
  vec_loop 4 n
    (fun i sum => mm_storeu_ps sum i (mm_add_ps (mm_sub_ps (mm_loadu_ps sum i) (mm_loadu_ps old_hist i)) (mm_loadu_ps new_mag i)))
    (fun i sum => <[i := f32_add (f32_sub (sum !!! i) (old_hist !!! i)) (new_mag !!! i)]> sum) sum.

Definition neon_relative_mag (mag baseline out : list f32) (n : nat) : list f32 :=
  vec_loop 4 n
    (fun i out =>
       let m := mm_loadu_ps mag i in
       let b := mm_loadu_ps baseline i in
       mm_storeu_ps out i (mm_and_cmpgt_ps (mm_div_ps m b) b mm_setzero_ps))
    (fun i out => <[i := if f32_gtb (baseline !!! i) f32_zero then f32_div (mag !!! i) (baseline !!! i) else f32_zero]> out) out.

Definition neon_convert_i8_cf (iq : list Z) (out : list f32) (n : nat) : list f32 :=
  let scale := mm_set1_ps (f32_div f32_one (f32_of_Z 128)) in
  vec_loop 8 n
    (fun i out =>
       let out := mm_storeu_ps out (2 * i) (mm_mul_ps (mm_cvt_bytes iq (2 * i)) scale) in
       let out := mm_storeu_ps out (4 + 2 * i) (mm_mul_ps (mm_cvt_bytes iq (4 + 2 * i)) scale) in
       let out := mm_storeu_ps out (8 + 2 * i) (mm_mul_ps (mm_cvt_bytes iq (8 + 2 * i)) scale) in
       mm_storeu_ps out (12 + 2 * i) (mm_mul_ps (mm_cvt_bytes iq (12 + 2 * i)) scale))
    (fun i out => <[S (2 * i) := f32_div (f32_of_Z (iq !!! S (2 * i))) (f32_of_Z 128)]> (<[(2 * i)%nat := f32_div (f32_of_Z (iq !!! (2 * i)%nat)) (f32_of_Z 128)]> out)) out.

Definition neon_mag_squared (inp out : list f32) (n : nat) : list f32 :=
  vec_loop 4 n (fun i out => mm_storeu_ps out i (neon_mag4 inp i)) (fun i out => <[i := mag_tail C inp i]> out) out.

Definition neon_max_float (inp : list f32) (n : nat) : f32 :=
  let vmax := fold_left (fun vmax j => vmaxq_f32 vmax (mm_loadu_ps inp (4 * j))) (seq 0 (n / 4)) (mm_set1_ps max_start) in
  fold_left (fun max_val i => if f32_gtb (inp !!! i) max_val then inp !!! i else max_val) (seq (4 * (n / 4)) (n mod 4)) (vmaxvq_f32 vmax).

Definition neon_csquare_window (inp window out : list f32) (n : nat) : list f32 :=
  vec_loop 4 n
    (fun i out =>
       let a := mm_loadu_ps inp (2 * i) in
       let b := mm_loadu_ps inp (4 + 2 * i) in
       let re := vuzp1q_f32 a b in
       let im := vuzp2q_f32 a b in
       let w := mm_loadu_ps window i in
       let sq_re := mm_mul_ps (lanes2 (diffsq C) re im) w in
       let sq_im := mm_mul_ps (mm_mul_ps (mm_mul_ps re im) (mm_set1_ps (f32_of_Z 2))) w in
       mm_storeu_ps (mm_storeu_ps out (2 * i) (mm_unpacklo_ps sq_re sq_im)) (4 + 2 * i) (mm_unpackhi_ps sq_re sq_im))
    (fun i out =>
       let a := inp !!! (2 * i)%nat in
       let b := inp !!! S (2 * i) in
       <[S (2 * i) := f32_mul (f32_mul (f32_mul (f32_of_Z 2) a) b) (window !!! i)]>
         (<[(2 * i)%nat := f32_mul (diffsq C a b) (window !!! i)]> out)) out.

(** The table [simd_init] installs. *)
Definition neon_kernels : kernels :=
  Kernels (fun taps ntaps inp n => unflat (neon_fir_ccf taps ntaps (flat inp) (blank (2 * n)) n))
    (fun taps ntaps inp n dec => unflat (neon_fir_ccf_dec taps ntaps (flat inp) (blank (2 * n)) n dec))
    (fun taps ntaps inp n => neon_fir_fff taps ntaps inp (blank n) n)
    (fun samples window n => unflat (neon_window_cf (flat samples) window (blank (2 * n)) n))
    (fun fft_out n => neon_fftshift_mag (flat fft_out) (blank (2 * (n / 2))) (2 * (n / 2)))
    (fun sum old_hist new_mag n => take n (neon_baseline_update sum old_hist new_mag n))
    (fun mag baseline n => neon_relative_mag mag baseline (blank n) n)
    (fun iq n => unflat (neon_convert_i8_cf iq (blank (2 * n)) n))
    (fun inp n => neon_mag_squared (flat inp) (blank n) n)
    neon_max_float
    (fun inp window n => unflat (neon_csquare_window (flat inp) window (blank (2 * n)) n)).
End kernels.

(** * Lemmas *)

Lemma neon_window_cf_eq samples window out n : (2 * n <= length out)%nat ->
  neon_window_cf (flat samples) window out n = flat (generic_window_cf samples window n) ++ drop (2 * n) out.
Proof. apply avx2_window_cf_eq. Qed.

Lemma neon_convert_i8_cf_eq iq out n : Forall (fun b => -128 <= b < 128) iq -> (2 * n <= length out)%nat ->
  neon_convert_i8_cf iq out n = flat (generic_convert_i8_cf iq n) ++ drop (2 * n) out.
Proof.
  intros Hb Hn. rewrite <- avx2_convert_i8_cf_eq by done. unfold neon_convert_i8_cf, avx2_convert_i8_cf, vec_loop. f_equal.
  apply fold_ext. intros s j. replace (2 * (4 + 8 * j))%nat with (8 + 2 * (8 * j))%nat by lia. done.
Qed.

Lemma neon_relative_mag_eq mag baseline out n : (n <= length out)%nat ->
  neon_relative_mag mag baseline out n = generic_relative_mag mag baseline n ++ drop n out.
Proof. apply sse42_relative_mag_eq. Qed.

Lemma neon_baseline_update_eq sum old_hist new_mag n : (n <= length sum)%nat ->
  neon_baseline_update sum old_hist new_mag n = generic_baseline_update sum old_hist new_mag n ++ drop n sum.
Proof. apply sse42_baseline_update_eq. Qed.

(** A fused sum of products, lane by lane. *)
Lemma fold_vfma (c : nat -> f32) (d : nat -> m128) ks : forall a,
  fold_left (fun acc k => vfmaq_f32 acc (mm_set1_ps (c k)) (d k)) ks a =
  let sum f x := fold_left (fun acc k => f32_fma (c k) (f (d k)) acc) ks x in M128 (sum l0 (l0 a)) (sum l1 (l1 a)) (sum l2 (l2 a)) (sum l3 (l3 a)).
Proof. induction ks as [|k ks IH]; intros a; [by destruct a|]. cbn [fold_left]. rewrite IH. done. Qed.

Lemma neon_fir_ccf_eq taps ntaps inp out n : (2 * n <= length out)%nat ->
  neon_fir_ccf fused taps ntaps (flat inp) out n = flat (fused_fir_ccf taps ntaps inp n) ++ drop (2 * n) out.
Proof.
  intros Hn. unfold neon_fir_ccf. rewrite vec_loop_plain; [by apply fused_tail|lia|].
  intros i s. cbn [seq fold_left]. rewrite fold_vfma. cbv zeta. unfold mm_storeu_ps. cbn [mm_setzero_ps l0 l1 l2 l3 madd fused]. rewrite !even_step.
  repeat (f_equal; [apply fold_ext; intros a k; rewrite load_pair, ?flat_re, ?flat_im; done|..]).
Qed.

Lemma neon_fir_fff_eq taps ntaps inp out n : (n <= length out)%nat ->
  neon_fir_fff fused taps ntaps inp out n = fused_fir_fff taps ntaps inp n ++ drop n out.
Proof.
  intros Hn. unfold neon_fir_fff. rewrite vec_loop_plain; [|lia|]; [by rewrite store_loop|].
  intros i s. cbn [seq fold_left]. rewrite fold_vfma. done.
Qed.

(** ** What the callers rely on *)

#[export] Instance neon_kernels_ok C : KernelsOk (neon_kernels C).
Proof.
  assert (forall n, length (blank n) = n) as Hb by (intros; apply length_replicate).
  split; intros; cbn [simd_fir_ccf simd_fir_ccf_dec simd_fir_fff simd_mag_squared simd_csquare_window neon_kernels].
  - apply length_unflat. unfold neon_fir_ccf. rewrite length_vec_loop; [apply Hb|..]; intros; unfold mm_storeu_ps; by rewrite !length_insert.
  - apply length_unflat. rewrite <- (Hb (2 * n)%nat) at 2. generalize (blank (2 * n)). unfold neon_fir_ccf_dec. generalize (seq 0 n). intros l.
    induction l as [|i l IH]; intros out; [done|]. cbn [fold_left]. rewrite IH. destruct (fold_left _ _ (_, _)) as [acc0 acc1]. by rewrite !length_insert.
  - unfold neon_fir_fff. rewrite length_vec_loop; [apply Hb|..]; intros; unfold mm_storeu_ps; by rewrite !length_insert.
  - unfold neon_mag_squared. rewrite length_vec_loop; [apply Hb|..]; intros; unfold mm_storeu_ps; by rewrite !length_insert.
  - apply length_unflat. unfold neon_csquare_window. rewrite length_vec_loop; [apply Hb|..]; intros; unfold mm_storeu_ps; by rewrite !length_insert.
Qed.

#[local] Abbreviation canon_all := (Forall (canonical 24 128)).
Definition pair_canon (v : m128 * m128) : Prop := lanes_canon (fst v) /\ lanes_canon (snd v).

Lemma vfma_canon acc a b : lanes_canon acc -> lanes_canon a -> lanes_canon b -> lanes_canon (vfmaq_f32 acc a b).
Proof. intros (? & ? & ? & ?) (? & ? & ? & ?) (? & ? & ? & ?). repeat split; cbn; auto with canon. Qed.
Lemma vld2_canon a i : canon_all a -> pair_canon (vld2q_f32 a i).
Proof. intros H. repeat split; cbn; auto with canon. Qed.
Lemma vaddv_canon v : lanes_canon v -> canonical32 (vaddvq_f32 v).
Proof. intros (? & ? & ? & ?). unfold vaddvq_f32. auto with canon. Qed.
Lemma store4_canon a i v : canon_all a -> lanes_canon v -> canon_all (mm_storeu_ps a i v).
Proof. intros Ha (? & ? & ? & ?). unfold mm_storeu_ps. repeat (apply Forall_insert; [|done]). done. Qed.
Lemma dup_canon x : canonical32 x -> lanes_canon (mm_set1_ps x).
Proof. by repeat split. Qed.
#[local] Hint Resolve vfma_canon vld2_canon vaddv_canon store4_canon dup_canon mm_loadu_canon mm_add_canon : canon.

#[export] Instance neon_kernels_canon C `{!ContractionOk C} : KernelsCanon (neon_kernels C).
Proof.
  split; intros taps ntaps inp n; intros; cbn [simd_fir_ccf simd_fir_ccf_dec neon_kernels]; apply unflat_canon;
    assert (canon_all (flat inp)) as Hi by by apply flat_canon.
  - unfold neon_fir_ccf. apply vec_loop_preserves; [| |by apply Forall_replicate].
    + intros i s Hs. apply store4_canon; [done|]. apply fold_preserves; [auto with canon|by repeat split].
    + intros i s Hs. cbv zeta. apply Forall_insert; [apply Forall_insert; [done|]|]; apply fold_preserves; auto with canon.
  - unfold neon_fir_ccf_dec. apply fold_preserves; [|by apply Forall_replicate]. intros o i Ho. cbv zeta.
    assert (canon_all (drop (i * dec * 2) (flat inp))) as Hp by by apply Forall_drop. set (p := drop _ (flat inp)) in *. clearbody p.
    set (fma2 := fun (acc : m128 * m128) (k : nat) => (vfmaq_f32 acc.1 (vld2q_f32 p (2 * k)).1 (mm_loadu_ps taps k), vfmaq_f32 acc.2 (vld2q_f32 p (2 * k)).2 (mm_loadu_ps taps k))).
    assert (forall acc k, pair_canon acc -> pair_canon (fma2 acc k)) as Hf.
    { intros acc k [Ha1 Ha2]. destruct (vld2_canon p (2 * k) Hp). split; apply vfma_canon; auto with canon. }
    assert (pair_canon (mm_setzero_ps, mm_setzero_ps)) as Hz by by repeat split.
    match goal with |- context [fold_left ?f (seq 0 (ntaps / 8)) ?z] => assert (pair_canon (fold_left f (seq 0 (ntaps / 8)) z).1 /\ pair_canon (fold_left f (seq 0 (ntaps / 8)) z).2) as H8;
      [apply (fold_preserves (fun acc => pair_canon acc.1 /\ pair_canon acc.2)); [intros acc k [Hk1 Hk2]; split; by apply Hf|by split]|destruct (fold_left f (seq 0 (ntaps / 8)) z) as [acc0 acc1]] end.
    destruct H8 as [H8 [Hr1 Hi1]]. cbn [fst snd] in *.
    match goal with |- context [fold_left ?f ?l acc0] => assert (pair_canon (fold_left f l acc0)) as [Hr0 Hi0] by (apply fold_preserves; [intros acc k; apply Hf|done]) end.
    apply Forall_insert; [apply Forall_insert; [done|]|]; apply fold_preserves; auto with canon.
Qed.

#[export] Instance neon_convert_exact C : ConvertExact (neon_kernels C).
Proof.
  intros iq n H. cbn [simd_convert_i8_cf neon_kernels]. unfold blank. rewrite neon_convert_i8_cf_eq by (done || by rewrite length_replicate).
  by rewrite drop_ge, app_nil_r, unflat_flat by (rewrite length_replicate; lia).
Qed.
