(* ===== verification/Stats.v ===== *)
(** The statistics thread of [src/main.c]: once a second a line about the counters
    of the other threads on standard error, and every ten seconds an attempt at a
    Doppler position, which goes to the map.

    The counters, the clock and the queue depth are read from outside; one turn of
    the loop is a function of what it read.  The functions of libm the position
    solver and the noise floor use are parameters. *)
From S2P Require Import Prelude CFloat CString JsonText CNumber CFormat FrameOutput DopplerBuf Doppler BurstDetect.
#[local] Open Scope Z_scope.

(** * Noise and peak, [src/burst_detect.c] *)

(** [burst_detector_noise_floor]: [sum] is accumulated in double precision. *)
Definition burst_detector_noise_floor (log10f : f32 -> f32) (c : burst_config) (d : detector) : f32 :=
  if (history_size c =? 0)%nat then f32_zero
  else
    let sum := fold_left (fun s x => f64_add s (f64_of_f32 x)) (take (fft_size c) (baseline_sum d)) f64_zero in
    let avg := f32_of_f64 (f64_div sum (f64_of_Z (Z.of_nat (fft_size c) * Z.of_nat (history_size c)))) in
    let bin_width := f32_div (f32_of_Z (sample_rate c)) (f32_of_Z (Z.of_nat (fft_size c))) in
    if f32_gtb avg f32_zero && f32_gtb bin_width f32_zero then f32_mul (f32_of_Z 10) (log10f (f32_div avg bin_width)) else f32_of_Z (-120).

(** * Data *)

(** What one turn reads. *)
Record reading := Reading {
  rd_now : Z;  (* now_ms() *)
  rd_time : Z;  (* time(NULL) *)
  rd_det : Z; rd_handled : Z; rd_ok : Z; rd_sub : Z; rd_dropped : Z; rd_samp : Z;
  rd_frame_drops : Z; rd_output_drops : Z;
  rd_queue_size : Z;
  rd_noise_floor : f32; rd_peak_signal : f32;
}.

Record stats_state := StatsState {
  st_t0 : Z; st_prev_t : Z;
  st_prev_det : Z; st_prev_ok : Z; st_prev_sub : Z; st_prev_handled : Z; st_prev_samples : Z;
}.
Definition stats_init (now : Z) : stats_state := StatsState now now 0 0 0 0 0.

Record stats_options := StatsOptions { diagnostic_mode : bool; live : bool; position_enabled : bool; web_enabled : bool; opt_samp_rate : f64 }.

(** * The line *)

Definition ulf : Z -> f64 := f64_of_Z.
Definition hundredth : f64 := f64_lit 1 100.
Definition txt : string -> list Z := bytes_of.
(** [%3.0f] and the like, [%5.1f], [%4u] and [%10lu]. *)
Definition fmt_w0f (w : nat) (x : f64) : list Z := pad_blanks w (fmt_f0 x).
Definition fmt_wu (w : nat) (n : Z) : list Z := pad_blanks w (bytes_of (fmt_d n)).
Definition fmt_02d (n : Z) : list Z := fmt_0d 2 n.
Definition percent : list Z := [37].

Section line.
Context (o : stats_options) (st : stats_state) (r : reading).

Definition dt : f64 := f64_div (ulf (u64 (rd_now r - st_prev_t st))) (f64_of_Z 1000).
Definition elapsed : f64 := f64_div (ulf (u64 (rd_now r - st_t0 st))) (f64_of_Z 1000).

(** Deltas of the interval. *)
Definition d_det : Z := u64 (rd_det r - st_prev_det st).
Definition d_ok : Z := u64 (rd_ok r - st_prev_ok st).
Definition d_sub : Z := u64 (rd_sub r - st_prev_sub st).
Definition d_handled : Z := u64 (rd_handled r - st_prev_handled st).
Definition d_samples : Z := u64 (rd_samp r - st_prev_samples st).

Definition pct (part whole : Z) : f64 := if 0 <? whole then f64_div (f64_mul (f64_of_Z 100) (ulf part)) (ulf whole) else f64_zero.
Definition ok_avg_pct : f64 := pct (rd_sub r) (rd_det r).

(** Per minute since the start. *)
Definition burst_per_min : f64 := if f64_gtb elapsed f64_zero then f64_div (f64_mul (ulf (rd_det r)) (f64_of_Z 60)) elapsed else f64_zero.

Definition guidance : list Z :=
  let seventy := f64_of_Z 70 in
  let three := f64_of_Z 3 in
  if (rd_det r =? 0) && f64_gtb elapsed (f64_of_Z 120) then txt "| No bursts detected - check antenna"
  else if f64_leb seventy ok_avg_pct && f64_leb three burst_per_min then
    txt "| Setup looks good (gap: " ++ fmt_f 1 (f32_sub (rd_peak_signal r) (rd_noise_floor r)) ++ txt " dB)"
  else if f64_ltb ok_avg_pct seventy && (10 <? rd_det r) then txt "| Low decode rate - try adjusting gain"
  else if f64_leb seventy ok_avg_pct && f64_ltb burst_per_min three && f64_gtb elapsed (f64_of_Z 60) then txt "| Good decode rate but low burst count"
  else [].

Definition diagnostic_line : list Z :=
  let runtime_sec := f64_trunc elapsed in
  txt "Runtime: " ++ fmt_02d (runtime_sec / 3600) ++ txt ":" ++ fmt_02d (runtime_sec mod 3600 / 60) ++ txt ":" ++ fmt_02d (runtime_sec mod 60) ++
  txt "  |  Bursts: " ++ bytes_of (fmt_d (rd_det r)) ++ txt " detected (" ++ fmt_f 1 burst_per_min ++ txt "/min)  |  Decoded: " ++
  bytes_of (fmt_d (rd_sub r)) ++ txt " (ok_avg: " ++ fmt_f0 ok_avg_pct ++ percent ++ txt ")  |  Noise: " ++ fmt_f 1 (rd_noise_floor r) ++
  txt " dBFS/Hz  |  Peak: " ++ fmt_f 1 (rd_peak_signal r) ++ txt " dB  " ++ guidance ++ [10].

Definition status_line : list Z :=
  let srr := if f64_gtb (opt_samp_rate o) f64_zero && f64_gtb dt f64_zero
             then f64_mul (f64_div (ulf d_samples) (f64_mul (opt_samp_rate o) dt)) (f64_of_Z 100) else f64_zero in
  bytes_of (fmt_d (rd_time r)) ++
  (if live o then txt " | i: " ++ fmt_w0f 3 (f64_div (ulf d_det) dt) ++ txt "/s"
   else txt " | srr: " ++ pad_blanks 5 (fmt_f 1 srr) ++ percent) ++
  txt " | i_avg: " ++ fmt_w0f 3 (f64_div (ulf (rd_det r)) elapsed) ++ txt "/s" ++
  txt " | q_max: " ++ fmt_wu 4 (rd_queue_size r) ++
  txt " | i_ok: " ++ fmt_w0f 3 (pct d_ok d_det) ++ percent ++
  txt " | o: " ++ fmt_w0f 4 (f64_div (ulf d_handled) dt) ++ txt "/s" ++
  txt " | ok: " ++ fmt_w0f 3 (pct d_sub d_det) ++ percent ++
  txt " | ok: " ++ fmt_w0f 3 (f64_div (ulf d_sub) dt) ++ txt "/s" ++
  txt " | ok_avg: " ++ fmt_w0f 3 ok_avg_pct ++ percent ++
  txt " | ok: " ++ fmt_wu 10 (rd_sub r) ++
  txt " | ok_avg: " ++ fmt_w0f 3 (f64_div (ulf (rd_sub r)) elapsed) ++ txt "/s" ++
  txt " | d: " ++ bytes_of (fmt_d (rd_dropped r)) ++
  (if (0 <? rd_frame_drops r) || (0 <? rd_output_drops r) then txt " | fd: " ++ bytes_of (fmt_d (rd_frame_drops r)) ++ txt "/" ++ bytes_of (fmt_d (rd_output_drops r)) else []) ++ [10].
End line.

(** * One turn *)

Section turn.
Context (sin cos : f64 -> f64) (atan2 : f64 -> f64 -> f64) (o : stats_options).

(** What a turn does outside. *)
Record stats_out := StatsOut { so_text : list Z; so_position : option (f64 * f64 * f64) }.

Definition position_text (s : solution) : list Z :=
  txt "POSITION: " ++ fmt_f 6 (sol_lat s) ++ txt ", " ++ fmt_f 6 (sol_lon s) ++ txt " (HDOP=" ++ fmt_f 1 (sol_hdop s) ++ txt ", " ++
  bytes_of (fmt_d (sol_n_satellites s)) ++ txt " sats, " ++ bytes_of (fmt_d (sol_n_measurements s)) ++ txt " meas)" ++ [10].
Definition waiting_text (s : solution) : list Z :=
  txt "POSITION: waiting (" ++ bytes_of (fmt_d (sol_n_satellites s)) ++ txt " sats, " ++ bytes_of (fmt_d (sol_n_measurements s)) ++ txt " meas)" ++ [10].

(** The attempt at a position, every tenth second. *)
Definition try_position (e : f64) (dp : doppler_state) : doppler_state * stats_out :=
  if position_enabled o && (f64_trunc e mod 10 =? 0) && f64_gtb e (f64_of_Z 5) then
    match doppler_pos_solve sin cos atan2 dp with
    | (dp, true, s) => (dp, StatsOut (position_text s) (if web_enabled o then Some (sol_lat s, sol_lon s, sol_hdop s) else None))
    | (dp, false, s) => (dp, StatsOut (if f64_trunc e mod 60 =? 0 then waiting_text s else []) None)
    end
  else (dp, StatsOut [] None).

Definition stats_turn (st : stats_state) (dp : doppler_state) (r : reading) : stats_state * doppler_state * stats_out :=
  if f64_ltb (dt st r) hundredth || f64_ltb (elapsed st r) hundredth then
    (StatsState (st_t0 st) (rd_now r) (st_prev_det st) (st_prev_ok st) (st_prev_sub st) (st_prev_handled st) (st_prev_samples st), dp, StatsOut [] None)
  else
    let line := if diagnostic_mode o then diagnostic_line st r else status_line o st r in
    let '(dp, out) := try_position (elapsed st r) dp in
    (StatsState (st_t0 st) (rd_now r) (rd_det r) (rd_ok r) (rd_sub r) (rd_handled r) (rd_samp r), dp, StatsOut (line ++ so_text out) (so_position out)).

Fixpoint stats_thread (st : stats_state) (dp : doppler_state) (rs : list reading) : list stats_out :=
  match rs with
  | [] => []
  | r :: rs => let '(st, dp, out) := stats_turn st dp r in out :: stats_thread st dp rs
  end.
End turn.

(** * Deltas *)

(** The deltas of the detection counter shown in the lines of a run. *)
Fixpoint shown_deltas (st : stats_state) (rs : list reading) : list Z :=
  match rs with
  | [] => []
  | r :: rs =>
      if f64_ltb (dt st r) hundredth || f64_ltb (elapsed st r) hundredth then
        shown_deltas (StatsState (st_t0 st) (rd_now r) (st_prev_det st) (st_prev_ok st) (st_prev_sub st) (st_prev_handled st) (st_prev_samples st)) rs
      else d_det st r :: shown_deltas (StatsState (st_t0 st) (rd_now r) (rd_det r) (rd_ok r) (rd_sub r) (rd_handled r) (rd_samp r)) rs
  end.

(** The counter at the last line. *)
Fixpoint last_shown (st : stats_state) (rs : list reading) : Z :=
  match rs with
  | [] => st_prev_det st
  | r :: rs =>
      if f64_ltb (dt st r) hundredth || f64_ltb (elapsed st r) hundredth then
        last_shown (StatsState (st_t0 st) (rd_now r) (st_prev_det st) (st_prev_ok st) (st_prev_sub st) (st_prev_handled st) (st_prev_samples st)) rs
      else last_shown (StatsState (st_t0 st) (rd_now r) (rd_det r) (rd_ok r) (rd_sub r) (rd_handled r) (rd_samp r)) rs
  end.

(** Nothing is counted twice or left out: the deltas shown add up to the counter,
    also across turns that were too short to show a line. *)
Theorem shown_deltas_add_up now rs : Forall (fun r => 0 <= rd_det r < 2 ^ 64) rs -> StronglySorted (fun a b => rd_det a <= rd_det b) rs ->
  fold_right Z.add 0 (shown_deltas (stats_init now) rs) = last_shown (stats_init now) rs.
Proof.
  intros Hr Hs. assert (forall st, 0 <= st_prev_det st -> Forall (fun r => st_prev_det st <= rd_det r) rs ->
    fold_right Z.add 0 (shown_deltas st rs) = last_shown st rs - st_prev_det st) as H.
  { clear now. induction rs as [|r rs IH]; intros st H0 Hle; cbn [shown_deltas last_shown fold_right]; [lia|].
    inversion_clear Hr as [|? ? Hr1 Hr2]. inversion_clear Hs as [|? ? Hs1 Hs2]. inversion_clear Hle as [|? ? Hl1 Hl2].
    destruct (_ || _); [by rewrite IH|]. cbn [fold_right]. rewrite IH by (cbn; done || lia). cbn [st_prev_det].
    unfold d_det. rewrite u64_small by lia. lia. }
  rewrite H; cbn; [lia|done|]. eapply Forall_impl; [exact Hr|]. cbn. lia.
Qed.

(** Only an accepted solution reaches the map. *)
Theorem map_position_is_solution sin cos atan2 o st dp r st' dp' out p : stats_turn sin cos atan2 o st dp r = (st', dp', out) -> so_position out = Some p ->
  exists s, doppler_pos_solve sin cos atan2 dp = (dp', true, s) /\ p = (sol_lat s, sol_lon s, sol_hdop s).
Proof.
  unfold stats_turn, try_position. intros E Hp. revert E. destruct (f64_ltb (dt st r) hundredth || f64_ltb (elapsed st r) hundredth); [by intros [= <- <- <-]|].
  destruct (position_enabled o && (f64_trunc (elapsed st r) mod 10 =? 0) && f64_gtb (elapsed st r) (f64_of_Z 5)); [|by intros [= <- <- <-]].
  destruct (doppler_pos_solve sin cos atan2 dp) as [[dp1 b] s] eqn:Es. destruct b; intros [= <- <- <-]; cbn [so_position] in Hp; [|done].
  destruct (web_enabled o); simplify_eq. by exists s.
Qed.
