(* ===== verification/WebMap.v ===== *)
(** The state behind the web map, [src/web_map.c]: ring buffers of ring alerts,
    beams, terminal positions and messages, the satellite table and the aircraft
    table with the track of each aircraft.

    Every operation runs under [state.lock] and is one step on [web_state].
    Arrays filled from the front are lists.  C strings are byte lists without
    the terminator; [sin], [cos] and [atan2] of libm are parameters. *)
From S2P Require Import Prelude CFloat QpskDemod FrameDecode CNumber CTable.
#[local] Open Scope Z_scope.

(** * Ring buffers *)

(** An array with the index of the next write and the number of entries. *)
Record store (A : Type) := Store { st_cells : list A; st_head : nat; st_count : nat }.
Arguments Store {A}.
Arguments st_cells {A}.
Arguments st_head {A}.
Arguments st_count {A}.

Section store.
Context {A : Type} `{Inhabited A} (N : nat).
Implicit Types (s : store A) (x : A).

Definition store_init : store A := Store (replicate N inhabitant) 0 0.

Definition push (s : store A) (x : A) : store A :=
  Store (<[st_head s := x]> (st_cells s)) ((st_head s + 1) mod N)
    (if (st_count s <? N)%nat then (st_count s + 1)%nat else st_count s).

(** [(head - 1 - i + N) % N]: the place of the [i]-th newest entry. *)
Definition recent_idx (s : store A) (i : nat) : nat := ((st_head s + N - 1 - i) mod N)%nat.
Definition recent (s : store A) : list A := map (fun i => st_cells s !!! recent_idx s i) (seq 0 (st_count s)).

Definition store_ok (s : store A) : Prop :=
  length (st_cells s) = N /\ (st_head s < N)%nat /\ (st_count s <= N)%nat.

Lemma store_init_ok : (0 < N)%nat -> store_ok store_init.
Proof. intros. unfold store_ok, store_init. cbn. rewrite length_replicate. lia. Qed.

Lemma push_ok s x : store_ok s -> store_ok (push s x).
Proof.
  intros (Hl & Hh & Hc). unfold store_ok, push. cbn [st_cells st_head st_count]. rewrite length_insert.
  split; [done|]. split; [apply Nat.mod_upper_bound; lia|]. destruct (Nat.ltb_spec (st_count s) N); lia.
Qed.

Lemma length_recent s : length (recent s) = st_count s.
Proof. unfold recent. by rewrite length_map, length_seq. Qed.

Lemma recent_lookup s i : (i < st_count s)%nat -> recent s !! i = Some (st_cells s !!! recent_idx s i).
Proof. intros Hi. unfold recent. transitivity ((fun i => st_cells s !!! recent_idx s i) <$> (seq 0 (st_count s) !! i)); [apply list_lookup_fmap|]. by rewrite lookup_seq_lt. Qed.

(** Distinct ages are distinct places. *)
Lemma recent_idx_inj s i j : (st_head s < N)%nat -> (i < N)%nat -> (j < N)%nat -> recent_idx s i = recent_idx s j -> i = j.
Proof.
  unfold recent_idx. intros Hh Hi Hj E.
  assert (forall k, (k < N)%nat -> ((st_head s + N - 1 - k) mod N = if k <? st_head s then st_head s - 1 - k else st_head s + N - 1 - k)%nat) as Hk.
  { intros k Hk. destruct (Nat.ltb_spec k (st_head s)).
    - replace (st_head s + N - 1 - k)%nat with (st_head s - 1 - k + 1 * N)%nat by lia. rewrite Nat.Div0.mod_add, Nat.mod_small; lia.
    - rewrite Nat.mod_small; lia. }
  rewrite !Hk in E by done. destruct (Nat.ltb_spec i (st_head s)), (Nat.ltb_spec j (st_head s)); lia.
Qed.

Lemma recent_idx_lt s i : (0 < N)%nat -> (recent_idx s i < N)%nat.
Proof. intros. apply Nat.mod_upper_bound. lia. Qed.

(** A push puts the entry in front and drops what is beyond the capacity. *)
Lemma recent_push s x : store_ok s -> recent (push s x) = take N (x :: recent s).
Proof.
  intros (Hl & Hh & Hc). pose proof (length_recent s) as Hr.
  assert (length (recent (push s x)) = Nat.min N (S (st_count s))) as Hlen.
  { rewrite length_recent. cbn [push st_count]. destruct (Nat.ltb_spec (st_count s) N); lia. }
  apply list_eq_same_length with (Nat.min N (S (st_count s))); [rewrite length_take; cbn; lia|done|].
  intros i y z Hi Hy Hz. rewrite recent_lookup in Hy by (rewrite <- length_recent; lia). rewrite lookup_take_lt in Hz by lia.
  assert (recent_idx (push s x) i = match i with O => st_head s | S i => recent_idx s i end) as Ei.
  { unfold recent_idx, push. cbn [st_head]. destruct i as [|i].
    - destruct (decide (st_head s + 1 = N)%nat) as [E|E].
      + rewrite E, Nat.Div0.mod_same, Nat.mod_small; lia.
      + rewrite (Nat.mod_small (st_head s + 1)) by lia. replace (st_head s + 1 + N - 1 - 0)%nat with (st_head s + 1 * N)%nat by lia.
        rewrite Nat.Div0.mod_add, Nat.mod_small; lia.
    - destruct (decide (st_head s + 1 = N)%nat) as [E|E].
      + rewrite E, Nat.Div0.mod_same. replace (st_head s + N - 1 - i)%nat with (0 + N - 1 - S i + 1 * N)%nat by lia. by rewrite Nat.Div0.mod_add.
      + rewrite (Nat.mod_small (st_head s + 1)) by lia. f_equal. lia. }
  rewrite Ei in Hy. cbn [push st_cells] in Hy. destruct i as [|i]; cbn in Hz.
  - rewrite list_lookup_total_insert_eq in Hy by lia. congruence.
  - rewrite recent_lookup in Hz by lia. rewrite list_lookup_total_insert_ne in Hy; [congruence|].
    intros E. assert (recent_idx s (N - 1) = st_head s) as E'.
    { unfold recent_idx. replace (st_head s + N - 1 - (N - 1))%nat with (st_head s) by lia. apply Nat.mod_small. lia. }
    rewrite <- E' in E. apply recent_idx_inj in E; lia.
Qed.

(** Changing the [i]-th newest entry in place. *)
Definition update_recent (s : store A) (i : nat) (f : A -> A) : store A :=
  Store (alter f (recent_idx s i) (st_cells s)) (st_head s) (st_count s).

Lemma update_recent_ok s i f : store_ok s -> store_ok (update_recent s i f).
Proof. intros (Hl & Hh & Hc). unfold store_ok, update_recent. cbn. by rewrite length_alter. Qed.

Lemma recent_update s i f : store_ok s -> (i < st_count s)%nat -> recent (update_recent s i f) = alter f i (recent s).
Proof.
  intros (Hl & Hh & Hc) Hi. apply list_eq_same_length with (st_count s); [by rewrite length_alter, length_recent|by rewrite length_recent|].
  intros j y z Hj Hy Hz. rewrite recent_lookup in Hy by done. cbn [update_recent st_cells] in Hy. injection Hy as <-.
  change (recent_idx (update_recent s i f) j) with (recent_idx s j).
  assert (recent_idx s j < length (st_cells s))%nat as Hlt by (rewrite Hl; apply recent_idx_lt; lia).
  destruct (decide (i = j)) as [<-|Hne].
  - rewrite list_lookup_alter_eq, recent_lookup in Hz by done. injection Hz as <-. by rewrite list_lookup_total_alter_eq.
  - rewrite list_lookup_alter_ne, recent_lookup in Hz by done. injection Hz as <-. apply list_lookup_total_alter_ne.
    intros E. apply Hne. apply (recent_idx_inj s); (done || lia).
Qed.
End store.

(** * State *)

Definition MAX_RA_POINTS : nat := Z.to_nat 2000.
Definition MAX_BEAM_POINTS : nat := Z.to_nat 2000.
Definition MAX_MT_POINTS : nat := 500.
Definition MAX_SATELLITES : nat := 100.
Definition MAX_AIRCRAFT : nat := 32.
Definition MAX_AIRCRAFT_FIXES : nat := 8.
Definition MAX_ACARS_MSGS : nat := 100.
Definition ACARS_TEXT_MAX : nat := 256.

(** [ra_point_t] and [beam_point_t], which have the same fields. *)
Record map_point := MapPoint {
  mp_lat : f64;
  mp_lon : f64;
  mp_alt : Z;
  mp_sat_id : Z;
  mp_beam_id : Z;
  mp_n_pages : nat;
  mp_tmsi : Z;
  mp_frequency : f64;
  mp_timestamp : Z;
}.
#[export] Instance map_point_inhabited : Inhabited map_point :=
  populate (MapPoint (S754_zero false) (S754_zero false) 0 0 0 0 0 (S754_zero false) 0).

Record mt_point := MtPoint { mt_lat : f64; mt_lon : f64; mt_alt : Z; mt_msg_type : Z; mt_timestamp : Z; mt_frequency : f64 }.
#[export] Instance mt_point_inhabited : Inhabited mt_point := populate (MtPoint (S754_zero false) (S754_zero false) 0 0 0 (S754_zero false)).

Record sat_entry := SatEntry { se_sat_id : Z; se_beam_id : Z; se_last_seen : Z; se_count : Z }.

(** The parallel arrays [fix_lat], [fix_lon], [fix_t], [fix_alt] and
    [fix_adsc]. *)
Record fix_t := Fix { fx_lat : f64; fx_lon : f64; fx_t : Z; fx_alt : Z; fx_adsc : Z }.

Record aircraft_entry := AircraftEntry {
  ac_reg : list Z;
  ac_flight : list Z;
  ac_oooi : list Z;
  ac_sat_id : Z;
  ac_beam_id : Z;
  ac_fixes : list fix_t;
  ac_frequency : f64;
  ac_last_seen : Z;
}.

Record acars_msg := AcarsMsg { am_reg : list Z; am_flight : list Z; am_label : list Z; am_text : list Z; am_ul : bool; am_timestamp : Z }.
#[export] Instance acars_msg_inhabited : Inhabited acars_msg := populate (AcarsMsg [] [] [] [] false 0).

Record counters := Counters {
  total_ira : Z;
  total_ibc : Z;
  total_pages : Z;
  total_beams : Z;
  total_mt : Z;
  total_aircraft : Z;
  total_acars_msgs : Z;
}.

Record web_state := Web {
  w_ra : store map_point;
  w_beams : store map_point;
  w_mt : store mt_point;
  w_sats : list sat_entry;
  w_aircraft : list aircraft_entry;
  w_acars : store acars_msg;
  w_totals : counters;
  w_rx : option (f64 * f64 * f64);
  w_overrun : bool;  (* the aircraft table was written at index -1 *)
}.

Definition web_init : web_state :=
  Web (store_init MAX_RA_POINTS) (store_init MAX_BEAM_POINTS) (store_init MAX_MT_POINTS) [] [] (store_init MAX_ACARS_MSGS)
    (Counters 0 0 0 0 0 0 0) None false.

(** The counters are [unsigned long]. *)
Definition count_ra (beam paged : bool) (c : counters) : counters :=
  Counters (u64 (total_ira c + 1)) (total_ibc c) (if paged then u64 (total_pages c + 1) else total_pages c)
    (if beam then u64 (total_beams c + 1) else total_beams c) (total_mt c) (total_aircraft c) (total_acars_msgs c).

(** * Ring alerts and beams *)

Definition c_0_001 : f64 := S754_finite false 4611686018427388 (-62).
Definition f64_eqb : f64 -> f64 -> bool := SFeqb.

Definition paged (ra : ira_data) : bool := (0 <? ira_n_pages ra)%nat.
Definition first_tmsi (ra : ira_data) : Z := match ira_pages ra with p :: _ => tmsi p | [] => 0 end.

Definition point_of (ra : ira_data) (timestamp : Z) (frequency : f64) : map_point :=
  MapPoint (ira_lat ra) (ira_lon ra) (ira_alt ra) (ira_sat_id ra) (ira_beam_id ra) (ira_n_pages ra)
    (if paged ra then first_tmsi ra else 0) frequency timestamp.

Definition same_beam (ra : ira_data) (b : map_point) : bool :=
  (mp_sat_id b =? ira_sat_id ra) && f64_ltb (f64_abs (f64_sub (mp_lat b) (ira_lat ra))) c_0_001 &&
  f64_ltb (f64_abs (f64_sub (mp_lon b) (ira_lon ra))) c_0_001.

Definition renew (ra : ira_data) (timestamp : Z) (b : map_point) : map_point :=
  MapPoint (mp_lat b) (mp_lon b) (mp_alt b) (mp_sat_id b) (mp_beam_id b)
    (if paged ra then ira_n_pages ra else mp_n_pages b) (if paged ra then first_tmsi ra else mp_tmsi b) (mp_frequency b) timestamp.

(** The search among the 20 newest. *)
Fixpoint find_beam (ra : ira_data) (s : store map_point) (n i : nat) : option nat :=
  match n with
  | O => None
  | S n => if same_beam ra (st_cells s !!! recent_idx MAX_BEAM_POINTS s i) then Some i else find_beam ra s n (S i)
  end.

Definition add_beam_locked (ra : ira_data) (timestamp : Z) (frequency : f64) (s : store map_point) : store map_point :=
  let search := if (st_count s <? 20)%nat then st_count s else 20%nat in
  match find_beam ra s search 0 with
  | Some i => update_recent MAX_BEAM_POINTS s i (renew ra timestamp)
  | None => push MAX_BEAM_POINTS s (point_of ra timestamp frequency)
  end.

Definition f90 : f64 := f64_of_Z 90.
Definition f180 : f64 := f64_of_Z 180.
Definition off_map (lat lon : f64) : bool :=
  f64_ltb lat (f64_opp f90) || f64_gtb lat f90 || f64_ltb lon (f64_opp f180) || f64_gtb lon f180.

Definition web_map_add_ra (ra : ira_data) (timestamp : Z) (frequency : f64) (w : web_state) : web_state :=
  if off_map (ira_lat ra) (ira_lon ra) then w
  else if (ira_sat_id ra =? 0) && (ira_beam_id ra =? 0) && f64_eqb (ira_lat ra) (S754_zero false) && f64_eqb (ira_lon ra) (S754_zero false) then w
  else if (0 <=? ira_alt ra) && (ira_alt ra <? 100) then
    Web (w_ra w) (add_beam_locked ra timestamp frequency (w_beams w)) (w_mt w) (w_sats w) (w_aircraft w) (w_acars w)
      (count_ra true (paged ra) (w_totals w)) (w_rx w) (w_overrun w)
  else if (ira_alt ra <? 700) || (900 <? ira_alt ra) then w
  else
    Web (push MAX_RA_POINTS (w_ra w) (point_of ra timestamp frequency)) (w_beams w) (w_mt w) (w_sats w) (w_aircraft w) (w_acars w)
      (count_ra false (paged ra) (w_totals w)) (w_rx w) (w_overrun w).

(** * Satellites *)

(** [count] is an [int]; C leaves its overflow undefined, here it wraps. *)
Definition see_sat (ibc : ibc_data) (timestamp : Z) (e : sat_entry) : sat_entry :=
  SatEntry (se_sat_id e) (ibc_beam_id ibc) timestamp (to_signed 32 (se_count e + 1)).

Definition add_sat (ibc : ibc_data) (timestamp : Z) (l : list sat_entry) : list sat_entry :=
  match list_find (fun e => se_sat_id e = ibc_sat_id ibc) l with
  | Some (i, _) => alter (see_sat ibc timestamp) i l
  | None => if (length l <? MAX_SATELLITES)%nat then l ++ [see_sat ibc timestamp (SatEntry (ibc_sat_id ibc) 0 0 0)] else l
  end.

Definition web_map_add_sat (ibc : ibc_data) (timestamp : Z) (w : web_state) : web_state :=
  if ibc_sat_id ibc =? 0 then w
  else
    let c := w_totals w in
    Web (w_ra w) (w_beams w) (w_mt w) (add_sat ibc timestamp (w_sats w)) (w_aircraft w) (w_acars w)
      (Counters (total_ira c) (u64 (total_ibc c + 1)) (total_pages c) (total_beams c) (total_mt c) (total_aircraft c) (total_acars_msgs c))
      (w_rx w) (w_overrun w).

Definition web_map_set_position (lat lon hdop : f64) (w : web_state) : web_state :=
  Web (w_ra w) (w_beams w) (w_mt w) (w_sats w) (w_aircraft w) (w_acars w) (w_totals w) (Some (lat, lon, hdop)) (w_overrun w).

(** * Terminal positions *)

Definition web_map_add_mt (lat lon : f64) (alt msg_type timestamp : Z) (frequency : f64) (w : web_state) : web_state :=
  if off_map lat lon then w
  else
    let c := w_totals w in
    Web (w_ra w) (w_beams w) (push MAX_MT_POINTS (w_mt w) (MtPoint lat lon alt msg_type timestamp frequency)) (w_sats w) (w_aircraft w) (w_acars w)
      (Counters (total_ira c) (total_ibc c) (total_pages c) (total_beams c) (u64 (total_mt c + 1)) (total_aircraft c) (total_acars_msgs c))
      (w_rx w) (w_overrun w).

(** The three 12-bit numbers of 5 bytes, after [skip] bits. *)
Definition mtpos_fields (bytes : list Z) (skip : Z) : Z * Z * Z :=
  let val := fold_left (fun v i => Z.lor (u64 (Z.shiftl v 8)) bytes.[i]) (seq 0 5) 0 in
  let sb := 4 - skip in
  let field n := Z.land (Z.shiftr val (n + sb)) 0xFFF in
  let sign v := if 0x7FF <? v then v - 0x1000 else v in
  (sign (field 24), sign (field 12), sign (field 0)).

Section libm.
Context (sin cos : f64 -> f64) (atan2 : f64 -> f64 -> f64).

Definition mtpos_xyz (bytes : list Z) (skip : Z) : option (f64 * f64 * Z) :=
  let '(x, y, z) := mtpos_fields bytes skip in
  if (x =? 0) && (y =? 0) && (z =? 0) then None
  else
    let sq v := f64_mul (f64_of_Z v) (f64_of_Z v) in
    let deg r := f64_div (f64_mul r f180) M_PI in
    let xy := f64_sqrt (f64_add (sq x) (sq y)) in
    let lat := deg (atan2 (f64_of_Z z) xy) in
    let lon := deg (atan2 (f64_of_Z y) (f64_of_Z x)) in
    let radius_km := f64_mul (f64_sqrt (f64_add (f64_add (sq x) (sq y)) (sq z))) (f64_of_Z 4) in
    let alt := f64_trunc (f64_sub radius_km (f64_of_Z 6371)) in
    if f64_ltb lat (f64_opp f90) || f64_gtb lat f90 then None
    else if f64_ltb radius_km (f64_of_Z 5000) || f64_gtb radius_km (f64_of_Z 7000) then None
    else Some (lat, lon, alt).

(** Where the position is in a message, by its type. *)
Definition mtpos_place (data : list Z) (direction : ir_direction) : option (nat * Z) :=
  let len := length data in
  let msg_type := Z.lor (Z.shiftl data.[0%nat] 8) data.[1%nat] in
  if msg_type =? 0x0605 then if (42 <=? len)%nat && (data.[36%nat] =? 0x1b) then Some (37%nat, 0) else None
  else if msg_type =? 0x7605 then
    if (8 <=? len)%nat && (data.[2%nat] =? 0) && (Z.land data.[3%nat] 0xf0 =? 0x40) then Some (3%nat, 4) else None
  else if msg_type =? 0x0600 then
    if bool_decide (direction = DIR_UPLINK) && (24 <=? len)%nat &&
       ((data.[2%nat] =? 0x10) || (data.[2%nat] =? 0x40) || (data.[2%nat] =? 0x70)) && (data.[18%nat] =? 1)
    then Some (19%nat, 0) else None
  else None.

Definition mtpos_ida_cb (data : list Z) (timestamp : Z) (frequency : f64) (direction : ir_direction) (w : web_state) : web_state :=
  if (length data <? 5)%nat then w
  else
    match mtpos_place data direction with
    | Some (off, skip) =>
        match mtpos_xyz (drop off data) skip with
        | Some (lat, lon, alt) =>
            web_map_add_mt lat lon alt (Z.lor (Z.shiftl data.[0%nat] 8) data.[1%nat]) timestamp frequency w
        | None => w
        end
    | None => w
    end.

(** * Aircraft *)

Definition aircraft_dist_km (lat1 lon1 lat2 lon2 : f64) : f64 :=
  let rad d := f64_div (f64_mul d M_PI) f180 in
  let half d := f64_div d (f64_of_Z 2) in
  let dlat := rad (f64_sub lat2 lat1) in
  let dlon := rad (f64_sub lon2 lon1) in
  let a := f64_add (f64_mul (sin (half dlat)) (sin (half dlat)))
             (f64_mul (f64_mul (f64_mul (cos (rad lat1)) (cos (rad lat2))) (sin (half dlon))) (sin (half dlon))) in
  f64_mul (f64_mul (f64_of_Z 6371) (f64_of_Z 2)) (atan2 (f64_sqrt a) (f64_sqrt (f64_sub (f64_of_Z 1) a))).

Definition new_aircraft (reg : list Z) : aircraft_entry := AircraftEntry (take 15 reg) [] [] 0 0 [] (S754_zero false) 0.

(** The index of the entry for [reg], after making room if there is none. *)
Definition aircraft_slot (reg : list Z) (l : list aircraft_entry) : option (nat * list aircraft_entry) :=
  match list_find (fun e => take 15 (ac_reg e) = take 15 reg) l with
  | Some (i, _) => Some (i, l)
  | None =>
      if (length l <? MAX_AIRCRAFT)%nat then Some (length l, l ++ [new_aircraft reg])
      else match find_oldest ac_last_seen l 0 (2 ^ 64 - 1) None with
           | Some i => Some (i, <[i := new_aircraft reg]> l)
           | None => None
           end
  end.

Definition implausible (ac : aircraft_entry) (lat lon : f64) (timestamp_ns : Z) (adsc_pos : bool) : bool :=
  match last (ac_fixes ac) with
  | Some f =>
      if adsc_pos then false
      else
        let dt_s := f64_div (f64_of_Z (u64 (timestamp_ns - ac_last_seen ac))) (f64_of_Z 1000000000) in
        if f64_gtb dt_s (S754_zero false) && f64_ltb dt_s (f64_of_Z 7200) then
          f64_gtb (aircraft_dist_km (fx_lat f) (fx_lon f) lat lon) (f64_mul (f64_div dt_s (f64_of_Z 3600)) (f64_of_Z 1200))
        else false
  | None => false
  end.

Definition set_names (flight oooi : list Z) (ac : aircraft_entry) : aircraft_entry :=
  AircraftEntry (ac_reg ac) (if flight is [] then ac_flight ac else take 7 flight) (if oooi is [] then ac_oooi ac else take 7 oooi)
    (ac_sat_id ac) (ac_beam_id ac) (ac_fixes ac) (ac_frequency ac) (ac_last_seen ac).

Definition append_fix (f : fix_t) (l : list fix_t) : list fix_t :=
  (if (MAX_AIRCRAFT_FIXES <=? length l)%nat then drop 1 l else l) ++ [f].

Definition see_aircraft (sat_id beam_id timestamp_ns : Z) (frequency : f64) (f : fix_t) (ac : aircraft_entry) : aircraft_entry :=
  AircraftEntry (ac_reg ac) (ac_flight ac) (ac_oooi ac) sat_id beam_id (append_fix f (ac_fixes ac)) frequency timestamp_ns.

Definition with_aircraft (w : web_state) (l : list aircraft_entry) (seen : bool) : web_state :=
  let c := w_totals w in
  Web (w_ra w) (w_beams w) (w_mt w) (w_sats w) l (w_acars w)
    (Counters (total_ira c) (total_ibc c) (total_pages c) (total_beams c) (total_mt c)
       (if seen then u64 (total_aircraft c + 1) else total_aircraft c) (total_acars_msgs c)) (w_rx w) (w_overrun w).

(** Without an entry to evict (every [last_seen] at [UINT64_MAX]) the index stays -1
    and the entry before the table is written: the behaviour is undefined from
    then on, which the mark records. *)
Definition write_before_table (w : web_state) : web_state :=
  Web (w_ra w) (w_beams w) (w_mt w) (w_sats w) (w_aircraft w) (w_acars w) (w_totals w) (w_rx w) true.

Definition web_map_add_aircraft (reg flight : list Z) (lat lon : f64) (sat_id beam_id timestamp_ns : Z) (frequency : f64)
    (alt_ft : Z) (adsc_pos : bool) (oooi : list Z) (w : web_state) : web_state :=
  if reg is [] then w
  else
    match aircraft_slot reg (w_aircraft w) with
    | None => write_before_table w
    | Some (i, l) =>
        let l := alter (set_names flight oooi) i l in
        match l !! i with
        | Some ac =>
            if implausible ac lat lon timestamp_ns adsc_pos then with_aircraft w l false
            else
              let f := Fix lat lon (timestamp_ns / 1000000000) alt_ft (if adsc_pos then 1 else 0) in
              with_aircraft w (alter (see_aircraft sat_id beam_id timestamp_ns frequency f) i l) true
        | None => w
        end
    end.
End libm.

(** * Messages *)

Fixpoint skip_dots (s : list Z) : list Z :=
  match s with
  | 46 :: s => skip_dots s
  | _ => s
  end.

Definition web_map_add_acars_message (reg flight label text : list Z) (ul : bool) (timestamp_ns : Z) (w : web_state) : web_state :=
  if text is [] then w
  else
    let c := w_totals w in
    Web (w_ra w) (w_beams w) (w_mt w) (w_sats w) (w_aircraft w)
      (push MAX_ACARS_MSGS (w_acars w) (AcarsMsg (take 15 (skip_dots reg)) (take 7 flight) (take 3 label) (take (ACARS_TEXT_MAX - 1) text) ul timestamp_ns))
      (Counters (total_ira c) (total_ibc c) (total_pages c) (total_beams c) (total_mt c) (total_aircraft c) (u64 (total_acars_msgs c + 1)))
      (w_rx w) (w_overrun w).

(** * Operations in sequence *)

Inductive web_op :=
  | OpRa (ra : ira_data) (timestamp : Z) (frequency : f64)
  | OpSat (ibc : ibc_data) (timestamp : Z)
  | OpPosition (lat lon hdop : f64)
  | OpMtMessage (data : list Z) (timestamp : Z) (frequency : f64) (direction : ir_direction)
  | OpAircraft (reg flight : list Z) (lat lon : f64) (sat_id beam_id timestamp_ns : Z) (frequency : f64) (alt_ft : Z) (adsc_pos : bool) (oooi : list Z)
  | OpMessage (reg flight label text : list Z) (ul : bool) (timestamp_ns : Z).

Section run.
Context (sin cos : f64 -> f64) (atan2 : f64 -> f64 -> f64).

Definition apply_op (w : web_state) (op : web_op) : web_state :=
  match op with
  | OpRa ra t f => web_map_add_ra ra t f w
  | OpSat ibc t => web_map_add_sat ibc t w
  | OpPosition lat lon hdop => web_map_set_position lat lon hdop w
  | OpMtMessage data t f dir => mtpos_ida_cb atan2 data t f dir w
  | OpAircraft reg flight lat lon sat beam t f alt adsc oooi => web_map_add_aircraft sin cos atan2 reg flight lat lon sat beam t f alt adsc oooi w
  | OpMessage reg flight label text ul t => web_map_add_acars_message reg flight label text ul t w
  end.

Definition run_ops (ops : list web_op) : web_state := fold_left apply_op ops web_init.

(** ** The invariant *)

Definition aircraft_ok (ac : aircraft_entry) : Prop :=
  (0 < length (ac_reg ac) <= 15)%nat /\ (length (ac_flight ac) <= 7)%nat /\ (length (ac_oooi ac) <= 7)%nat /\
  (length (ac_fixes ac) <= MAX_AIRCRAFT_FIXES)%nat.

Definition stores_ok (w : web_state) : Prop :=
  store_ok MAX_RA_POINTS (w_ra w) /\ store_ok MAX_BEAM_POINTS (w_beams w) /\ store_ok MAX_MT_POINTS (w_mt w) /\ store_ok MAX_ACARS_MSGS (w_acars w).
Definition sats_ok (l : list sat_entry) : Prop :=
  (length l <= MAX_SATELLITES)%nat /\ NoDup (map se_sat_id l) /\ Forall (fun e => se_sat_id e <> 0) l.
Definition fleet_ok (l : list aircraft_entry) : Prop :=
  (length l <= MAX_AIRCRAFT)%nat /\ NoDup (map ac_reg l) /\ Forall aircraft_ok l.
Definition message_ok (m : acars_msg) : Prop :=
  (length (am_reg m) <= 15)%nat /\ (length (am_flight m) <= 7)%nat /\ (length (am_label m) <= 3)%nat /\ (0 < length (am_text m) < ACARS_TEXT_MAX)%nat.
Definition entries_ok (w : web_state) : Prop :=
  Forall (fun p => off_map (mp_lat p) (mp_lon p) = false /\ 700 <= mp_alt p <= 900) (recent MAX_RA_POINTS (w_ra w)) /\
  Forall (fun p => off_map (mp_lat p) (mp_lon p) = false /\ 0 <= mp_alt p < 100) (recent MAX_BEAM_POINTS (w_beams w)) /\
  Forall (fun p => off_map (mt_lat p) (mt_lon p) = false) (recent MAX_MT_POINTS (w_mt w)) /\
  Forall message_ok (recent MAX_ACARS_MSGS (w_acars w)).

Definition web_ok (w : web_state) : Prop := stores_ok w /\ sats_ok (w_sats w) /\ fleet_ok (w_aircraft w) /\ entries_ok w.

Lemma forall_push {A} `{Inhabited A} N (P : A -> Prop) s x : store_ok N s -> P x -> Forall P (recent N s) -> Forall P (recent N (push N s x)).
Proof. intros Hs Hx Hr. rewrite recent_push by done. apply Forall_take. by constructor. Qed.

Lemma find_beam_spec ra s n i : find_beam ra s n i = (fun p => (p.1 + i)%nat) <$> list_find (fun b => same_beam ra b = true)
  (map (fun j => st_cells s !!! recent_idx MAX_BEAM_POINTS s j) (seq i n)).
Proof.
  revert i. induction n as [|n IH]; intros i; cbn [find_beam seq map list_find]; [done|].
  destruct (same_beam ra _) eqn:E; [by rewrite decide_True by done|]. rewrite decide_False by done. rewrite IH.
  destruct (list_find _ _) as [[j b]|]; cbn; [|done]. f_equal. lia.
Qed.

(** What the search is on the list of entries, newest first. *)
Definition beam_spec (ra : ira_data) (timestamp : Z) (frequency : f64) (l : list map_point) : list map_point :=
  match list_find (fun b => same_beam ra b = true) (take 20 l) with
  | Some (i, _) => alter (renew ra timestamp) i l
  | None => take MAX_BEAM_POINTS (point_of ra timestamp frequency :: l)
  end.

Lemma searched_take (s : store map_point) : let search := (if (st_count s <? 20)%nat then st_count s else 20%nat) in
  map (fun j => st_cells s !!! recent_idx MAX_BEAM_POINTS s j) (seq 0 search) = take 20 (recent MAX_BEAM_POINTS s).
Proof.
  cbn zeta. unfold recent. rewrite <- fmap_take. f_equal. destruct (Nat.ltb_spec (st_count s) 20).
  - by rewrite take_ge by (rewrite length_seq; lia).
  - replace (st_count s) with (20 + (st_count s - 20))%nat by lia. by rewrite seq_app, take_app_length' by (rewrite length_seq; done).
Qed.

Lemma add_beam_recent ra t f s : store_ok MAX_BEAM_POINTS s ->
  recent MAX_BEAM_POINTS (add_beam_locked ra t f s) = beam_spec ra t f (recent MAX_BEAM_POINTS s) /\ store_ok MAX_BEAM_POINTS (add_beam_locked ra t f s).
Proof.
  intros Hs. unfold add_beam_locked, beam_spec. rewrite find_beam_spec, searched_take.
  destruct (list_find _ _) as [[i b]|] eqn:E; cbn.
  - rewrite Nat.add_0_r. apply list_find_Some in E as (E & _ & _). apply lookup_lt_Some in E. rewrite length_take, length_recent in E.
    split; [|by apply update_recent_ok]. apply recent_update; [done|lia].
  - split; [|by apply push_ok]. by apply recent_push.
Qed.

Lemma beam_spec_ok ra t f l (P : map_point -> Prop) : P (point_of ra t f) -> (forall b, P b -> P (renew ra t b)) -> Forall P l -> Forall P (beam_spec ra t f l).
Proof.
  intros Hn Hr Hl. unfold beam_spec. destruct (list_find _ _) as [[i b]|]; [|apply Forall_take; by constructor].
  apply Forall_alter; [done|]. intros x Hx Px. by apply Hr.
Qed.

Lemma add_ra_ok ra t f w : web_ok w -> web_ok (web_map_add_ra ra t f w).
Proof.
  intros Hw. pose proof Hw as ((S1 & S2 & S3 & S4) & Hsat & Hac & (E1 & E2 & E3 & E4)). unfold web_map_add_ra.
  destruct (off_map _ _) eqn:Em; [done|]. destruct (_ && _ && _ && _); [done|].
  destruct ((0 <=? ira_alt ra) && (ira_alt ra <? 100)) eqn:Ea.
  - apply andb_true_iff in Ea as [A1%Z.leb_le A2%Z.ltb_lt]. destruct (add_beam_recent ra t f (w_beams w) S2) as [Hr Ho].
    split; [by split_and!|]. split; [done|]. split; [done|]. unfold entries_ok. cbn [w_ra w_beams w_mt w_acars]. rewrite Hr.
    split; [done|]. split; [|done]. apply beam_spec_ok; [done|by intros b|done].
  - destruct ((ira_alt ra <? 700) || (900 <? ira_alt ra)) eqn:Eb; [done|]. apply orb_false_iff in Eb as [A1%Z.ltb_ge A2%Z.ltb_ge].
    split; [split_and!; try done; by apply push_ok|]. split; [done|]. split; [done|]. unfold entries_ok. cbn [w_ra w_beams w_mt w_acars].
    split; [|done]. apply forall_push; [done|by split|done].
Qed.

Lemma map_alter_same {A B} (g : A -> B) (f : A -> A) i l : (forall x, g (f x) = g x) -> map g (alter f i l) = map g l.
Proof. intros Hg. revert i. induction l as [|x l IH]; intros [|i]; cbn; [done..|by rewrite Hg|]. f_equal. apply IH. Qed.

Lemma add_sat_ok ibc t l : ibc_sat_id ibc <> 0 -> sats_ok l -> sats_ok (add_sat ibc t l).
Proof.
  intros H0 (Hl & Hd & Hz). unfold add_sat. destruct (list_find _ l) as [[i e]|] eqn:E.
  - unfold sats_ok. rewrite length_alter, map_alter_same by done. split; [done|]. split; [done|].
    apply Forall_alter; [done|]. intros x _ Hx. done.
  - destruct (Nat.ltb_spec (length l) MAX_SATELLITES); [|done]. unfold sats_ok. rewrite length_app, map_app. cbn.
    split; [lia|]. split.
    + apply NoDup_app. split; [done|]. split; [|apply NoDup_singleton]. intros x Hx ->%list_elem_of_singleton.
      apply list_elem_of_fmap in Hx as (e & Ee & Hin). rewrite list_find_None, Forall_forall in E. by eapply E.
    + apply Forall_app. split; [done|]. by constructor.
Qed.

Lemma mt_ok lat lon alt ty t f w : web_ok w -> web_ok (web_map_add_mt lat lon alt ty t f w).
Proof.
  intros Hw. pose proof Hw as ((S1 & S2 & S3 & S4) & Hsat & Hac & (E1 & E2 & E3 & E4)). unfold web_map_add_mt.
  destruct (off_map lat lon) eqn:Em; [done|]. split; [split_and!; try done; by apply push_ok|]. split; [done|]. split; [done|].
  split; [done|]. split; [done|]. split; [|done]. by apply forall_push.
Qed.

Lemma message_op_ok reg flight label text ul t w : web_ok w -> web_ok (web_map_add_acars_message reg flight label text ul t w).
Proof.
  intros Hw. pose proof Hw as ((S1 & S2 & S3 & S4) & Hsat & Hac & (E1 & E2 & E3 & E4)). unfold web_map_add_acars_message.
  destruct text as [|c text]; [done|]. split; [split_and!; try done; by apply push_ok|]. split; [done|]. split; [done|].
  split; [done|]. split; [done|]. split; [done|]. apply forall_push; [done| |done].
  unfold message_ok. cbn [am_reg am_flight am_label am_text]. rewrite !length_take. unfold ACARS_TEXT_MAX. cbn [length]. lia.
Qed.

(** ** Aircraft *)

(** Registrations compare as stored. *)
Lemma reg_take (l : list aircraft_entry) reg : Forall aircraft_ok l ->
  Forall (fun e => take 15 (ac_reg e) <> take 15 reg) l -> Forall (fun e => ac_reg e <> take 15 reg) l.
Proof.
  intros Hl Hn. apply Forall_forall. intros e He. rewrite Forall_forall in Hl, Hn. destruct (Hl e He) as (Hr & _).
  specialize (Hn e He). by rewrite take_ge in Hn by lia.
Qed.

Lemma nodup_insert {A} (l : list A) i x : NoDup l -> x ∉ l -> NoDup (<[i := x]> l).
Proof.
  rewrite !NoDup_alt. intros Hd Hx j k y [(E1 & <- & _)|(_ & Hj)]%list_lookup_insert_Some [(E2 & E & _)|(_ & Hk)]%list_lookup_insert_Some; subst.
  - congruence.
  - destruct Hx. by eapply list_elem_of_lookup_2.
  - destruct Hx. by eapply list_elem_of_lookup_2.
  - by eapply Hd.
Qed.

(** The entry for a registration, and a table that is still well-formed. *)
Lemma slot_ok reg l i l' : reg <> [] -> fleet_ok l -> aircraft_slot reg l = Some (i, l') ->
  fleet_ok l' /\ exists ac, l' !! i = Some ac /\ ac_reg ac = take 15 reg /\
    (l' = l \/ (ac = new_aircraft reg /\ Forall (fun e => ac_reg e <> take 15 reg) l /\
       ((l' = l ++ [ac] /\ (length l < MAX_AIRCRAFT)%nat) \/ (l' = <[i := ac]> l /\ length l = MAX_AIRCRAFT)))).
Proof.
  intros Hr (Hl & Hd & Hf). unfold aircraft_slot. destruct (list_find _ l) as [[j e]|] eqn:E.
  - intros [= -> ->]. apply list_find_Some in E as (E & Hreg & _). split; [done|]. exists e. split; [done|]. split; [|by left].
    rewrite Forall_lookup in Hf. destruct (Hf _ _ E) as (Hlen & _). by rewrite take_ge in Hreg by lia.
  - apply list_find_None in E. pose proof (reg_take l reg Hf E) as Hn.
    assert (take 15 reg ∉ map ac_reg l) as Hni.
    { intros (e & Ee & He)%list_elem_of_fmap. rewrite Forall_forall in Hn. by apply (Hn e He). }
    assert (aircraft_ok (new_aircraft reg)) as Hnew.
    { unfold aircraft_ok, new_aircraft. cbn. rewrite length_take. destruct reg; [done|]. cbn [length]. lia. }
    destruct (Nat.ltb_spec (length l) MAX_AIRCRAFT) as [Hlt|Hge].
    + intros [= <- <-]. split.
      * unfold fleet_ok. rewrite length_app, map_app. cbn [length map]. split; [lia|]. split; [|apply Forall_app; split; [done|by constructor]].
        apply NoDup_app. split; [done|]. split; [|apply NoDup_singleton]. intros x Hx ->%list_elem_of_singleton. done.
      * exists (new_aircraft reg). split; [by rewrite lookup_app_r, Nat.sub_diag by lia|]. split; [done|]. right. auto 10.
    + destruct (find_oldest ac_last_seen l 0 _ None) as [k|] eqn:Ek; [|done]. intros [= <- <-].
      apply find_oldest_spec in Ek as [?|Ek]; [done|]. split.
      * unfold fleet_ok. rewrite length_insert. split; [done|]. split; [|by apply Forall_insert].
        change (map ac_reg (<[k := new_aircraft reg]> l)) with (ac_reg <$> <[k := new_aircraft reg]> l). rewrite list_fmap_insert. by apply nodup_insert.
      * exists (new_aircraft reg). split; [apply list_lookup_insert_eq; lia|]. split; [done|]. right. split; [done|]. split; [done|]. right. split; [done|lia].
Qed.

Lemma append_fix_length f l : (length l <= MAX_AIRCRAFT_FIXES)%nat -> (length (append_fix f l) <= MAX_AIRCRAFT_FIXES)%nat.
Proof.
  intros Hl. unfold append_fix. destruct (Nat.leb_spec MAX_AIRCRAFT_FIXES (length l)); rewrite length_app; cbn [length]; [rewrite length_drop|];
    unfold MAX_AIRCRAFT_FIXES in *; lia.
Qed.

Lemma set_names_ok flight oooi ac : aircraft_ok ac -> aircraft_ok (set_names flight oooi ac).
Proof.
  intros (H1 & H2 & H3 & H4). unfold aircraft_ok, set_names. cbn. split; [done|].
  split; [destruct flight; [done|rewrite length_take; lia]|]. split; [destruct oooi; [done|rewrite length_take; lia]|done].
Qed.

Lemma alter_fleet f i l : (forall ac, ac_reg (f ac) = ac_reg ac) -> (forall ac, aircraft_ok ac -> aircraft_ok (f ac)) -> fleet_ok l -> fleet_ok (alter f i l).
Proof.
  intros Hr Hf (Hl & Hd & Ho). unfold fleet_ok. rewrite length_alter, map_alter_same by done. split; [done|]. split; [done|].
  apply Forall_alter; [done|]. intros x _ Hx. by apply Hf.
Qed.

Lemma aircraft_op_ok reg flight lat lon sat beam t f alt adsc oooi w : web_ok w ->
  web_ok (web_map_add_aircraft sin cos atan2 reg flight lat lon sat beam t f alt adsc oooi w).
Proof.
  intros Hw. pose proof Hw as (Hs & Hsat & Hac & He). unfold web_map_add_aircraft. destruct reg as [|c reg]; [done|].
  destruct (aircraft_slot _ _) as [[i l]|] eqn:E; [|done]. apply slot_ok in E as [Hl _]; [|done|done].
  assert (fleet_ok (alter (set_names flight oooi) i l)) as Hl1 by (apply alter_fleet; [done|apply set_names_ok|done]).
  destruct (alter _ i l !! i) as [ac|]; [|done]. destruct (implausible _ _ _ _ _ _ _ _); [by split_and!|].
  split; [done|]. split; [done|]. split; [|done]. cbn [with_aircraft w_aircraft]. apply alter_fleet; [done| |done].
  intros a (H1 & H2 & H3 & H4). split; [done|]. split; [done|]. split; [done|]. by apply append_fix_length.
Qed.

Lemma apply_ok w op : web_ok w -> web_ok (apply_op w op).
Proof.
  intros Hw. destruct op; cbn [apply_op].
  - by apply add_ra_ok.
  - unfold web_map_add_sat. destruct (Z.eqb_spec (ibc_sat_id ibc) 0); [done|]. destruct Hw as (H1 & H2 & H3 & H4).
    split; [done|]. split; [by apply add_sat_ok|]. split; done.
  - done.
  - unfold mtpos_ida_cb. destruct (_ <? _)%nat; [done|]. destruct (mtpos_place data direction) as [[off skip]|]; [|done].
    destruct (mtpos_xyz _ _ _) as [[[lat lon] alt]|]; [|done]. by apply mt_ok.
  - by apply aircraft_op_ok.
  - by apply message_op_ok.
Qed.

Lemma web_init_ok : web_ok web_init.
Proof.
  split; [split_and!; apply store_init_ok; vm_compute; lia|]. split; [split_and!; [vm_compute; lia|constructor|constructor]|].
  split; [split_and!; [vm_compute; lia|constructor|constructor]|]. split_and!; constructor.
Qed.

Lemma run_ok ops : web_ok (run_ops ops).
Proof.
  unfold run_ops. generalize web_init_ok. generalize web_init. induction ops as [|op ops IH]; intros w Hw; cbn [fold_left]; [done|].
  by apply IH, apply_ok.
Qed.

(** ** The stores as logs *)

(** Where a ring alert goes: the beams ([true]), the satellite positions, or
    nowhere. *)
Definition route (ra : ira_data) : option bool :=
  if off_map (ira_lat ra) (ira_lon ra) then None
  else if (ira_sat_id ra =? 0) && (ira_beam_id ra =? 0) && f64_eqb (ira_lat ra) (S754_zero false) && f64_eqb (ira_lon ra) (S754_zero false) then None
  else if (0 <=? ira_alt ra) && (ira_alt ra <? 100) then Some true
  else if (700 <=? ira_alt ra) && (ira_alt ra <=? 900) then Some false
  else None.

Definition ra_entry (op : web_op) : option map_point :=
  match op with OpRa ra t f => match route ra with Some false => Some (point_of ra t f) | _ => None end | _ => None end.
Definition mt_entry (op : web_op) : option mt_point :=
  match op with
  | OpMtMessage data t f dir =>
      '(off, skip) ← (if (length data <? 5)%nat then None else mtpos_place data dir);
      '(lat, lon, alt) ← mtpos_xyz atan2 (drop off data) skip;
      if off_map lat lon then None else Some (MtPoint lat lon alt (Z.lor (Z.shiftl data.[0%nat] 8) data.[1%nat]) t f)
  | _ => None
  end.
Definition msg_entry (op : web_op) : option acars_msg :=
  match op with
  | OpMessage reg flight label (c :: text) ul t =>
      Some (AcarsMsg (take 15 (skip_dots reg)) (take 7 flight) (take 3 label) (take (ACARS_TEXT_MAX - 1) (c :: text)) ul t)
  | _ => None
  end.
Definition beam_step (l : list map_point) (op : web_op) : list map_point :=
  match op with OpRa ra t f => match route ra with Some true => beam_spec ra t f l | _ => l end | _ => l end.

(** The newest [N] of the entries so far. *)
Definition newest {A} (N : nat) (es : list A) : list A := take N (rev es).

Lemma newest_snoc {A} N (es : list A) x : take N (x :: newest N es) = newest N (es ++ [x]).
Proof.
  unfold newest. rewrite rev_app_distr. cbn [rev app]. destruct N as [|N]; [done|]. cbn [take]. f_equal. rewrite take_take. f_equal. lia.
Qed.

Lemma push_newest {A} `{Inhabited A} N (s : store A) es x : store_ok N s -> recent N s = newest N es -> recent N (push N s x) = newest N (es ++ [x]).
Proof. intros Hs E. by rewrite recent_push, E, newest_snoc. Qed.

(** What a ring alert does, by its route. *)
Lemma add_ra_route ra t f w : let w' := web_map_add_ra ra t f w in
  w_ra w' = match route ra with Some false => push MAX_RA_POINTS (w_ra w) (point_of ra t f) | _ => w_ra w end /\
  w_beams w' = match route ra with Some true => add_beam_locked ra t f (w_beams w) | _ => w_beams w end /\
  w_mt w' = w_mt w /\ w_acars w' = w_acars w.
Proof.
  unfold web_map_add_ra, route. destruct (off_map _ _); [done|]. destruct (_ && _ && _ && _); [done|]. destruct (_ && _); [done|].
  destruct (Z.ltb_spec (ira_alt ra) 700), (Z.leb_spec 700 (ira_alt ra)); try lia; cbn [orb andb]; [done|].
  destruct (Z.ltb_spec 900 (ira_alt ra)), (Z.leb_spec (ira_alt ra) 900); try lia; done.
Qed.

Lemma mt_cb_entry data t f dir w : let w' := mtpos_ida_cb atan2 data t f dir w in
  w_mt w' = match mt_entry (OpMtMessage data t f dir) with Some p => push MAX_MT_POINTS (w_mt w) p | None => w_mt w end /\
  w_ra w' = w_ra w /\ w_beams w' = w_beams w /\ w_acars w' = w_acars w.
Proof.
  unfold mtpos_ida_cb, mt_entry. destruct (_ <? _)%nat; [done|]. destruct (mtpos_place data dir) as [[off skip]|]; cbn [mbind option_bind]; [|done].
  destruct (mtpos_xyz atan2 (drop off data) skip) as [[[lat lon] alt]|]; cbn [mbind option_bind]; [|done]. unfold web_map_add_mt. by destruct (off_map lat lon).
Qed.

Lemma aircraft_frame reg flight lat lon sat beam t f alt adsc oooi w :
  let w' := web_map_add_aircraft sin cos atan2 reg flight lat lon sat beam t f alt adsc oooi w in
  w_ra w' = w_ra w /\ w_beams w' = w_beams w /\ w_mt w' = w_mt w /\ w_acars w' = w_acars w.
Proof.
  unfold web_map_add_aircraft. destruct reg; [done|]. destruct (aircraft_slot _ _) as [[i l]|]; [|done].
  destruct (alter _ i l !! i); [|done]. by destruct (implausible _ _ _ _ _ _ _ _).
Qed.

Definition logs (ops : list web_op) (w : web_state) : Prop :=
  recent MAX_RA_POINTS (w_ra w) = newest MAX_RA_POINTS (omap ra_entry ops) /\
  recent MAX_BEAM_POINTS (w_beams w) = fold_left beam_step ops [] /\
  recent MAX_MT_POINTS (w_mt w) = newest MAX_MT_POINTS (omap mt_entry ops) /\
  recent MAX_ACARS_MSGS (w_acars w) = newest MAX_ACARS_MSGS (omap msg_entry ops).

Lemma apply_logs ops w op : web_ok w -> logs ops w -> logs (ops ++ [op]) (apply_op w op).
Proof.
  intros ((S1 & S2 & S3 & S4) & _) (L1 & L2 & L3 & L4). unfold logs. rewrite !omap_app, fold_left_app, <- L2. cbn [fold_left].
  assert (forall {B} (g : web_op -> option B) x, g op = Some x -> omap g [op] = [x]) as Hs by (intros B g x E; cbn; by rewrite E).
  assert (forall {B} (g : web_op -> option B), g op = None -> omap g [op] = []) as Hn by (intros B g E; cbn; by rewrite E).
  destruct op; cbn [apply_op].
  - destruct (add_ra_route ra timestamp frequency w) as (-> & -> & -> & ->).
    rewrite (Hn _ mt_entry), (Hn _ msg_entry), !app_nil_r by done. destruct (route ra) as [[]|] eqn:Er.
    + rewrite (Hn _ ra_entry) by (cbn; by rewrite Er). rewrite app_nil_r. cbn [beam_step]. rewrite Er.
      destruct (add_beam_recent ra timestamp frequency (w_beams w) S2) as [-> _]. done.
    + rewrite (Hs _ ra_entry (point_of ra timestamp frequency)) by (cbn; by rewrite Er). cbn [beam_step]. rewrite Er.
      split; [by apply push_newest|done].
    + rewrite (Hn _ ra_entry) by (cbn; by rewrite Er). rewrite app_nil_r. cbn [beam_step]. by rewrite Er.
  - rewrite (Hn _ ra_entry), (Hn _ mt_entry), (Hn _ msg_entry), !app_nil_r by done. unfold web_map_add_sat. by destruct (_ =? 0).
  - by rewrite (Hn _ ra_entry), (Hn _ mt_entry), (Hn _ msg_entry), !app_nil_r by done.
  - destruct (mt_cb_entry data timestamp frequency direction w) as (-> & -> & -> & ->). rewrite (Hn _ ra_entry), (Hn _ msg_entry), !app_nil_r by done.
    split; [done|]. split; [done|]. split; [|done]. destruct (mt_entry _) as [p|] eqn:Ep.
    + rewrite (Hs _ mt_entry p) by done. by apply push_newest.
    + by rewrite (Hn _ mt_entry), app_nil_r by done.
  - rewrite (Hn _ ra_entry), (Hn _ mt_entry), (Hn _ msg_entry), !app_nil_r by done.
    destruct (aircraft_frame reg flight lat lon sat_id beam_id timestamp_ns frequency alt_ft adsc_pos oooi w) as (-> & -> & -> & ->). done.
  - rewrite (Hn _ ra_entry), (Hn _ mt_entry), !app_nil_r by done. destruct text as [|c text].
    + by rewrite (Hn _ msg_entry), app_nil_r by done.
    + split; [done|]. split; [done|]. split; [done|]. erewrite (Hs _ msg_entry) by done. by apply push_newest.
Qed.

Lemma run_logs ops : logs ops (run_ops ops).
Proof.
  induction ops as [|op ops IH] using rev_ind.
  - split_and!; by rewrite ?take_nil.
  - unfold run_ops in *. rewrite fold_left_app. cbn [fold_left]. apply apply_logs; [apply run_ok|done].
Qed.

(** ** Tracks *)

Lemma find_oldest_some l i oldest idx : is_Some idx \/ Exists (fun e => ac_last_seen e < oldest) l -> is_Some (find_oldest ac_last_seen l i oldest idx).
Proof.
  revert i oldest idx. induction l as [|e l IH]; intros i oldest idx H; cbn [find_oldest]; [by destruct H as [|?%Exists_nil]|].
  destruct (Z.ltb_spec (ac_last_seen e) oldest) as [Hlt|Hge]; [apply IH; left; by eexists|]. apply IH.
  destruct H as [H|H]; [by left|]. apply Exists_cons in H as [H|H]; [lia|by right].
Qed.

Lemma slot_exists reg l : length l <> 0%nat \/ (length l < MAX_AIRCRAFT)%nat -> Forall (fun e => ac_last_seen e < 2 ^ 64 - 1) l -> is_Some (aircraft_slot reg l).
Proof.
  intros Hl Ht. unfold aircraft_slot. destruct (list_find _ l) as [[i e]|]; [by eexists|]. destruct (Nat.ltb_spec (length l) MAX_AIRCRAFT); [by eexists|].
  assert (is_Some (find_oldest ac_last_seen l 0 (2 ^ 64 - 1) None)) as [k ->]; [|by eexists]. apply find_oldest_some. right.
  destruct l as [|e l]; [cbn in *; unfold MAX_AIRCRAFT in *; lia|]. apply Exists_cons_hd. by apply Forall_cons in Ht as [Ht _].
Qed.

(** An entry as it is after an update through [f] at its index. *)
Lemma fleet_update l i ac f : fleet_ok l -> l !! i = Some ac -> (forall a, ac_reg (f a) = ac_reg a) ->
  forall e, e ∈ alter f i l <-> e = f ac \/ (e ∈ l /\ ac_reg e <> ac_reg ac).
Proof.
  intros (_ & Hd & _) Hi Hf e. assert (forall a, a ∈ l -> ac_reg a = ac_reg ac -> a = ac) as Hu.
  { intros a Ha Ea. apply list_elem_of_lookup in Ha as [j Hj]. assert (j = i) as ->; [|congruence].
    rewrite NoDup_alt in Hd. apply (Hd _ _ (ac_reg ac)); change (map ac_reg l) with (ac_reg <$> l); rewrite list_lookup_fmap, ?Hj, ?Hi; cbn; congruence. }
  rewrite !list_elem_of_lookup. split.
  - intros [j Hj]. destruct (decide (i = j)) as [<-|Hne].
    + rewrite list_lookup_alter_eq, Hi in Hj. left. cbn in Hj. congruence.
    + rewrite list_lookup_alter_ne in Hj by done. right. split; [by exists j|]. intros E.
      assert (e = ac) as -> by (apply Hu; [by eapply list_elem_of_lookup_2|done]).
      apply Hne. rewrite NoDup_alt in Hd. apply (Hd _ _ (ac_reg ac)); change (map ac_reg l) with (ac_reg <$> l); by rewrite list_lookup_fmap, ?Hj, ?Hi.
  - intros [->|[[j Hj] Hr]].
    + exists i. by rewrite list_lookup_alter_eq, Hi.
    + exists j. rewrite list_lookup_alter_ne; [done|]. intros ->. congruence.
Qed.

(** The track after a fix: the last eight. *)
Lemma append_fix_last f l : (length l <= MAX_AIRCRAFT_FIXES)%nat -> append_fix f l = drop (length l - 7) l ++ [f].
Proof.
  intros Hl. unfold append_fix, MAX_AIRCRAFT_FIXES in *. f_equal. destruct (Nat.leb_spec 8 (length l)).
  - by replace (length l - 7)%nat with 1%nat by lia.
  - by replace (length l - 7)%nat with 0%nat by lia.
Qed.
End run.

Definition f_none : f64 := S754_zero false.

(** Forty bits as bytes, most significant first. *)
Definition be5 (v : Z) : list Z := map (fun i => Z.land (Z.shiftr v (8 * (4 - i))) 255) [0; 1; 2; 3; 4].

Lemma be5_step v k : 0 <= k -> 0 <= v < 2 ^ 40 ->
  Z.lor (u64 (Z.shiftl (v / 2 ^ (k + 8)) 8)) (Z.land (Z.shiftr v k) 255) = v / 2 ^ k.
Proof.
  intros Hk Hv. change 255 with (Z.ones 8). rewrite Z.land_ones, Z.shiftr_div_pow2 by lia.
  assert (0 <= v / 2 ^ (k + 8) < 2 ^ 40) as Hq.
  { split; [apply Z.div_pos; lia|]. apply Z.div_lt_upper_bound; [lia|]. assert (0 < 2 ^ (k + 8)) by lia. nia. }
  rewrite u64_small by (rewrite Z.shiftl_mul_pow2 by lia; lia).
  rewrite lor_shiftl_add by (try lia; apply Z.mod_pos_bound; lia). rewrite Z.pow_add_r, <- Z.div_div by lia.
  pose proof (Z.div_mod (v / 2 ^ k) (2 ^ 8)). lia.
Qed.

Lemma be5_value v tl : 0 <= v < 2 ^ 40 -> fold_left (fun a i => Z.lor (u64 (Z.shiftl a 8)) (be5 v ++ tl).[i]) (seq 0 5) 0 = v.
Proof.
  intros Hv. cbn [seq fold_left be5 map rd nth app].
  assert (0 = v / 2 ^ (32 + 8)) as E by (symmetry; apply Z.div_small; lia). rewrite E at 1.
  change (8 * (4 - 0)) with 32. change (8 * (4 - 1)) with 24. change (8 * (4 - 2)) with 16. change (8 * (4 - 3)) with 8.
  change (8 * (4 - 4)) with 0. rewrite (be5_step v 32) by lia. change (v / 2 ^ 32) with (v / 2 ^ (24 + 8)).
  rewrite (be5_step v 24) by lia. change (v / 2 ^ 24) with (v / 2 ^ (16 + 8)). rewrite (be5_step v 16) by lia.
  change (v / 2 ^ 16) with (v / 2 ^ (8 + 8)). rewrite (be5_step v 8) by lia. change (v / 2 ^ 8) with (v / 2 ^ (0 + 8)).
  rewrite (be5_step v 0) by lia. apply Z.div_1_r.
Qed.

(** The three numbers of a position, packed. *)
Definition pack_xyz (x y z : Z) : Z := (x mod 2 ^ 12) * 2 ^ 24 + (y mod 2 ^ 12) * 2 ^ 12 + z mod 2 ^ 12.

Lemma field_sign x : -2048 <= x < 2048 -> (if 0x7FF <? x mod 2 ^ 12 then x mod 2 ^ 12 - 0x1000 else x mod 2 ^ 12) = x.
Proof.
  intros Hx. destruct (decide (0 <= x)).
  - rewrite Z.mod_small by lia. destruct (Z.ltb_spec 0x7FF x); lia.
  - replace (x mod 2 ^ 12) with (x + 4096); [destruct (Z.ltb_spec 0x7FF (x + 4096)); lia|].
    apply (Z.mod_unique _ _ (-1)); lia.
Qed.

(** Reading a field: shifting out what is below and masking what is above. *)
Lemma field_read hi f lo n : 0 <= n -> 0 <= lo < 2 ^ n -> 0 <= f < 2 ^ 12 ->
  Z.land (Z.shiftr ((hi * 2 ^ 12 + f) * 2 ^ n + lo) n) 0xFFF = f.
Proof.
  intros Hn Hlo Hf. rewrite Z.shiftr_div_pow2, Z.div_add_l, Z.div_small, Z.add_0_r by lia.
  change 0xFFF with (Z.ones 12). rewrite Z.land_ones by lia. rewrite Z.add_comm, Z.mod_add, Z.mod_small by lia. done.
Qed.

Lemma fields_packed x y z skip top pad tl : -2048 <= x < 2048 -> -2048 <= y < 2048 -> -2048 <= z < 2048 -> 0 <= skip <= 4 ->
  0 <= top < 2 ^ skip -> 0 <= pad < 2 ^ (4 - skip) ->
  mtpos_fields (be5 ((top * 2 ^ 36 + pack_xyz x y z) * 2 ^ (4 - skip) + pad) ++ tl) skip = (x, y, z).
Proof.
  intros Hx Hy Hz Hs Ht Hp. unfold mtpos_fields, pack_xyz.
  set (X := x mod 2 ^ 12). set (Y := y mod 2 ^ 12). set (Zz := z mod 2 ^ 12).
  assert (0 <= X < 2 ^ 12 /\ 0 <= Y < 2 ^ 12 /\ 0 <= Zz < 2 ^ 12) as (HX & HY & HZ) by (split_and!; apply Z.mod_pos_bound; lia).
  set (sb := 4 - skip) in *. assert (0 <= sb <= 4) by (subst sb; lia). assert (0 < 2 ^ sb) by lia.
  set (v := (top * 2 ^ 36 + (X * 2 ^ 24 + Y * 2 ^ 12 + Zz)) * 2 ^ sb + pad).
  assert (0 <= v < 2 ^ 40) as Hv.
  { assert (2 ^ 40 = 2 ^ 36 * (2 ^ skip * 2 ^ sb)) as -> by (rewrite <- !Z.pow_add_r by lia; f_equal; lia).
    assert (0 < 2 ^ skip) by lia. subst v. split; [nia|].
    assert (top * 2 ^ 36 + (X * 2 ^ 24 + Y * 2 ^ 12 + Zz) <= 2 ^ skip * 2 ^ 36 - 1) by lia. nia. }
  rewrite be5_value by done.
  assert (Z.land (Z.shiftr v (24 + sb)) 0xFFF = X /\ Z.land (Z.shiftr v (12 + sb)) 0xFFF = Y /\ Z.land (Z.shiftr v (0 + sb)) 0xFFF = Zz) as (-> & -> & ->).
  { split_and!.
    - replace v with ((top * 2 ^ 12 + X) * 2 ^ (24 + sb) + ((Y * 2 ^ 12 + Zz) * 2 ^ sb + pad)) by (subst v; rewrite Z.pow_add_r by lia; ring).
      apply field_read; [lia| |done]. rewrite Z.pow_add_r by lia. nia.
    - replace v with (((top * 2 ^ 12 + X) * 2 ^ 12 + Y) * 2 ^ (12 + sb) + (Zz * 2 ^ sb + pad)) by (subst v; rewrite Z.pow_add_r by lia; ring).
      apply field_read; [lia| |done]. rewrite Z.pow_add_r by lia. nia.
    - replace v with ((((top * 2 ^ 12 + X) * 2 ^ 12 + Y) * 2 ^ 12 + Zz) * 2 ^ (0 + sb) + pad) by (subst v; rewrite Z.add_0_l; ring).
      apply field_read; [lia|by rewrite Z.add_0_l|done]. }
  subst X Y Zz. by rewrite !field_sign by done.
Qed.

Section track.
Context (sin cos : f64 -> f64) (atan2 : f64 -> f64 -> f64).

(** The fixes kept for a registration. *)
Definition track (reg : list Z) (l : list aircraft_entry) : list fix_t :=
  match list_find (fun e => ac_reg e = take 15 reg) l with Some (_, e) => ac_fixes e | None => [] end.

Lemma track_elem reg l ac : fleet_ok l -> ac ∈ l -> ac_reg ac = take 15 reg -> track reg l = ac_fixes ac.
Proof.
  intros (_ & Hd & _) Hin Hr. unfold track. destruct (list_find _ l) as [[i e]|] eqn:E.
  - apply list_find_Some in E as (E & He & _). apply list_elem_of_lookup in Hin as [j Hj].
    assert (i = j) as <-; [|congruence]. rewrite NoDup_alt in Hd.
    apply (Hd _ _ (take 15 reg)); change (map ac_reg l) with (ac_reg <$> l); rewrite list_lookup_fmap, ?E, ?Hj; cbn; congruence.
  - rewrite list_find_None, Forall_forall in E. by destruct (E ac Hin).
Qed.

Lemma track_none reg l : Forall (fun e => ac_reg e <> take 15 reg) l -> track reg l = [].
Proof. intros H. unfold track. by rewrite (proj2 (list_find_None _ _)). Qed.

(** The slot of a registration keeps its track; the other entries stay, but for
    the one evicted from a full table. *)
Lemma slot_track reg l i l' : reg <> [] -> fleet_ok l -> aircraft_slot reg l = Some (i, l') ->
  exists ac, l' !! i = Some ac /\ ac_reg ac = take 15 reg /\ ac_fixes ac = track reg l /\
    (ac ∈ l \/ ac_fixes ac = []) /\
    (forall e, e ∈ l' -> ac_reg e <> take 15 reg -> e ∈ l) /\
    ((length l < MAX_AIRCRAFT)%nat \/ Exists (fun e => ac_reg e = take 15 reg) l -> forall e, e ∈ l -> ac_reg e <> take 15 reg -> e ∈ l').
Proof.
  intros Hr Hl Hs. destruct (slot_ok reg l i l' Hr Hl Hs) as (_ & ac & Hi & Hreg & [->|(-> & Hn & Hc)]); exists ac || exists (new_aircraft reg).
  - assert (ac ∈ l) by (by eapply list_elem_of_lookup_2). split; [done|]. split; [done|]. split; [by rewrite (track_elem reg l ac)|].
    split; [by left|]. split; [done|]. done.
  - split; [done|]. split; [done|]. split; [by rewrite track_none|]. split; [by right|].
    destruct Hc as [[-> Hlt]|[-> Hfull]]; split.
    + intros e. rewrite elem_of_app, list_elem_of_singleton. by intros [| ->].
    + intros _ e He _. apply elem_of_app. by left.
    + intros e (j & [(_ & <- & _)|(_ & Hj)]%list_lookup_insert_Some)%list_elem_of_lookup He; [done|]. by eapply list_elem_of_lookup_2.
    + intros [?|(e & He & Ee)%Exists_exists]; [lia|]. rewrite Forall_forall in Hn. by destruct (Hn e He).
Qed.

Lemma implausible_names flight oooi ac lat lon t adsc :
  implausible sin cos atan2 (set_names flight oooi ac) lat lon t adsc = implausible sin cos atan2 ac lat lon t adsc.
Proof. done. Qed.

Lemma alter_twice {A} (f g : A -> A) i (l : list A) : alter f i (alter g i l) = alter (f ∘ g) i l.
Proof. revert i. induction l as [|x l IH]; intros [|i]; cbn; [done..|]. f_equal. apply IH. Qed.
End track.

(** * Properties *)

(** An aircraft is seen at a time before the end of the clock. *)
Definition seen_before_end (op : web_op) : Prop :=
  match op with OpAircraft _ _ _ _ _ _ t _ _ _ _ => t < 2 ^ 64 - 1 | _ => True end.

Definition in_table (w : web_state) : Prop := w_overrun w = false /\ Forall (fun e => ac_last_seen e < 2 ^ 64 - 1) (w_aircraft w).

Lemma aircraft_slot_seen reg l i l' : aircraft_slot reg l = Some (i, l') -> Forall (fun e => ac_last_seen e < 2 ^ 64 - 1) l ->
  Forall (fun e => ac_last_seen e < 2 ^ 64 - 1) l'.
Proof.
  intros E Hl. unfold aircraft_slot in E. destruct (list_find _ l) as [[k e]|]; [by injection E as _ <-|].
  assert (ac_last_seen (new_aircraft reg) < 2 ^ 64 - 1) as Hn by (cbn; lia).
  destruct (_ <? _)%nat; [injection E as _ <-; apply Forall_app; split; [done|by apply Forall_singleton]|].
  destruct (find_oldest _ _ _ _ _) as [k|]; [|done]. injection E as _ <-. by apply Forall_insert.
Qed.

Lemma apply_in_table sin cos atan2 w op : web_ok w -> in_table w -> seen_before_end op -> in_table (apply_op sin cos atan2 w op).
Proof.
  intros (_ & _ & Hl & _) [Ho Ht] Hop. destruct op as [ra t f|ibc t|lat lon hdop|data t f dir|reg flight lat lon sat beam t f alt adsc oooi|reg flight label text ul t];
    cbn [apply_op].
  - unfold web_map_add_ra. destruct (off_map _ _); [done|]. destruct (_ && _); [done|]. destruct (_ && _); [done|]. by destruct (_ || _).
  - unfold web_map_add_sat. by destruct (_ =? _).
  - done.
  - unfold mtpos_ida_cb. repeat (match goal with |- context [match ?x with _ => _ end] => destruct x end; try done); unfold web_map_add_mt; by destruct (off_map _ _).
  - unfold web_map_add_aircraft. destruct reg as [|c reg]; [done|].
    destruct (slot_exists (c :: reg) (w_aircraft w)) as [[i l] Hs]; [unfold MAX_AIRCRAFT; lia|done|]. rewrite Hs.
    pose proof (aircraft_slot_seen _ _ _ _ Hs Ht) as Hn.
    assert (Forall (fun e => ac_last_seen e < 2 ^ 64 - 1) (alter (set_names flight oooi) i l)) as Hn' by by apply Forall_alter.
    destruct (alter (set_names flight oooi) i l !! i); [|done]. destruct (implausible _ _ _ _ _ _ _ _); split; try done. cbn [with_aircraft w_aircraft].
    by apply Forall_alter.
  - unfold web_map_add_acars_message. by destruct text.
Qed.

Lemma run_in_table sin cos atan2 ops : Forall seen_before_end ops -> in_table (run_ops sin cos atan2 ops).
Proof.
  intros Hops. assert (in_table web_init) as Hi by by split. unfold run_ops. revert Hi. generalize web_init_ok. generalize web_init.
  induction Hops as [|op ops Hop Hops IH]; intros w Hw Hi; cbn [fold_left]; [done|]. apply IH; [by apply apply_ok|by apply apply_in_table].
Qed.

(** C33 (invariant).  Whatever operations come in whatever order, with aircraft times
    below the largest 64-bit number: all indices and counts stay within their arrays
    and the aircraft table is never written before its start (the code does that when
    it finds no entry to evict); satellites and registrations are listed once; names,
    texts and tracks respect their lengths; and the satellite positions, beams and
    terminal positions kept have passed the range test of their kind, which NaN
    passes too.  Aircraft fixes and the position of the receiver are stored
    unchecked. *)
Theorem web_invariant sin cos atan2 ops : Forall seen_before_end ops ->
  let w := run_ops sin cos atan2 ops in w_overrun w = false /\ web_ok w.
Proof. intros Hops. split; [by apply run_in_table|apply run_ok]. Qed.

Lemma web_invariant_witness :
  let ops := [OpAircraft [65] [66] (f64_of_Z 10) (f64_of_Z 20) 1 2 5000000000 f_none 30000 true []; OpPosition (f64_of_Z 50) (f64_of_Z 8) (f64_of_Z 1)] in
  let w := run_ops id id f64_sub ops in
  map ac_reg (w_aircraft w) = [[65]] /\ w_overrun w = false /\ web_ok w.
Proof. intros ops w. split; [by vm_compute|]. apply (web_invariant id id f64_sub ops). repeat constructor; cbn; lia. Defined.

(** C20 (refinement).  The ring buffers are bounded logs: newest first, the
    satellite positions, terminal positions and messages are the last ones
    accepted, and the beams are those of a list in which a beam heard again
    among the newest 20 is renewed in place. *)
Theorem web_stores_log sin cos atan2 ops : let w := run_ops sin cos atan2 ops in
  recent MAX_RA_POINTS (w_ra w) = newest MAX_RA_POINTS (omap ra_entry ops) /\
  recent MAX_BEAM_POINTS (w_beams w) = fold_left beam_step ops [] /\
  recent MAX_MT_POINTS (w_mt w) = newest MAX_MT_POINTS (omap (mt_entry atan2) ops) /\
  recent MAX_ACARS_MSGS (w_acars w) = newest MAX_ACARS_MSGS (omap msg_entry ops).
Proof. apply run_logs. Qed.

(**  A plausible position fix is appended to the track of its
    aircraft, of which the last eight are kept; other aircraft are untouched,
    except that one may give way to a new one when the table is full. *)
Theorem aircraft_fix_recorded sin cos atan2 ops reg flight lat lon sat beam t f alt adsc oooi :
  let w := run_ops sin cos atan2 ops in
  let w' := web_map_add_aircraft sin cos atan2 reg flight lat lon sat beam t f alt adsc oooi w in
  reg <> [] -> Forall (fun e => ac_last_seen e < 2 ^ 64 - 1) (w_aircraft w) ->
  Forall (fun e => ac_reg e = take 15 reg -> implausible sin cos atan2 e lat lon t adsc = false) (w_aircraft w) ->
  let old := track reg (w_aircraft w) in
  (exists ac, ac ∈ w_aircraft w' /\ ac_reg ac = take 15 reg /\ ac_last_seen ac = t /\
     ac_fixes ac = drop (length old - 7) old ++ [Fix lat lon (t / 1000000000) alt (if adsc then 1 else 0)]) /\
  (forall e, e ∈ w_aircraft w' -> ac_reg e <> take 15 reg -> e ∈ w_aircraft w) /\
  ((length (w_aircraft w) < MAX_AIRCRAFT)%nat \/ Exists (fun e => ac_reg e = take 15 reg) (w_aircraft w) ->
   forall e, e ∈ w_aircraft w -> ac_reg e <> take 15 reg -> e ∈ w_aircraft w').
Proof.
  intros w w' Hr Ht Hp old. destruct (run_ok sin cos atan2 ops) as (_ & _ & Hl & _). fold w in Hl.
  destruct (slot_exists reg (w_aircraft w)) as [[i l] Hs]; [unfold MAX_AIRCRAFT; lia|done|].
  destruct (slot_track reg _ i l Hr Hl Hs) as (ac & Hi & Hreg & Hold & Hin & Hother & Hkeep). fold old in Hold.
  destruct (slot_ok reg _ i l Hr Hl Hs) as (Hfl & _).
  assert (implausible sin cos atan2 ac lat lon t adsc = false) as Hpl.
  { destruct Hin as [Hin|Hin]; [rewrite Forall_forall in Hp; by apply Hp|]. unfold implausible. by rewrite Hin. }
  set (fx := Fix lat lon (t / 1000000000) alt (if adsc then 1 else 0)).
  assert (w_aircraft w' = alter (see_aircraft sat beam t f fx ∘ set_names flight oooi) i l) as Ew.
  { unfold w', web_map_add_aircraft. destruct reg as [|c reg]; [done|]. rewrite Hs, list_lookup_alter_eq, Hi. cbn [fmap option_fmap option_map].
    rewrite implausible_names, Hpl, alter_twice. done. }
  pose proof (fleet_update l i ac (see_aircraft sat beam t f fx ∘ set_names flight oooi) Hfl Hi ltac:(done)) as He.
  rewrite Ew. split; [|split].
  - exists (see_aircraft sat beam t f fx (set_names flight oooi ac)). split; [apply He; by left|]. split; [done|]. split; [done|].
    cbn [see_aircraft set_names ac_fixes]. rewrite append_fix_last, Hold; [done|]. destruct Hfl as (_ & _ & Hok). rewrite Forall_lookup in Hok. by destruct (Hok i ac Hi) as (_ & _ & _ & ?).
  - intros e [->|[Hin' _]]%He Hne; [by destruct Hne|]. by apply Hother.
  - intros Hk e Hin' Hne. apply He. right. split; [by apply Hkeep|congruence].
Qed.

Lemma aircraft_fix_recorded_witness :
  let w' := web_map_add_aircraft id id f64_sub [65] [66] (f64_of_Z 10) (f64_of_Z 20) 1 2 5000000000 f_none 30000 true [] (run_ops id id f64_sub []) in
  exists ac, ac ∈ w_aircraft w' /\ ac_fixes ac = [Fix (f64_of_Z 10) (f64_of_Z 20) 5 30000 1].
Proof.
  destruct (aircraft_fix_recorded id id f64_sub [] [65] [66] (f64_of_Z 10) (f64_of_Z 20) 1 2 5000000000 f_none 30000 true []) as ((ac & H1 & _ & _ & H4) & _);
    [done|constructor|constructor|]. exists ac. split; [exact H1|exact H4].
Defined.

(**  The three signed 12-bit coordinates of a position report
    are read back from their five bytes, for both alignments in use, whatever
    the bits around them. *)
Theorem mtpos_fields_roundtrip x y z skip top pad tl : -2048 <= x < 2048 -> -2048 <= y < 2048 -> -2048 <= z < 2048 -> skip = 0 \/ skip = 4 ->
  0 <= top < 2 ^ skip -> 0 <= pad < 2 ^ (4 - skip) ->
  mtpos_fields (be5 ((top * 2 ^ 36 + pack_xyz x y z) * 2 ^ (4 - skip) + pad) ++ tl) skip = (x, y, z).
Proof. intros Hx Hy Hz Hs. apply fields_packed; (done || lia). Qed.

Lemma mtpos_fields_roundtrip_witness : mtpos_fields (be5 ((4 * 2 ^ 36 + pack_xyz (-1500) 17 (-1)) * 2 ^ 0 + 0) ++ [7]) 4 = (-1500, 17, -1).
Proof. apply (mtpos_fields_roundtrip (-1500) 17 (-1) 4 4 0 [7]); lia. Defined.
