(* ===== verification/WebJson.v ===== *)
(** The JSON text of the web map, [build_json] of [src/web_map.c], with the
    growing offset into a buffer of fixed size.

    Each [snprintf] is a [print]: the text is what would be printed into a
    buffer without end, [o_off] is the offset, and [o_overrun] records a call
    with an offset beyond the buffer, for which the size argument wraps around
    and nothing limits the write. *)
From S2P Require Import Prelude CFloat CString JsonText CFormat QpskDemod FrameDecode CTable WebMap.
#[local] Open Scope Z_scope.

(** * The output *)

Record out := Out { o_text : list Z; o_off : nat; o_overrun : bool }.

Section json.
Context (bufsize : nat).

Definition print (s : list Z) (o : out) : out :=
  Out (o_text o ++ s) (o_off o + List.length s) (o_overrun o || (bufsize <? o_off o)%nat).

(** What the buffer holds before its terminator. *)
Definition buffer (o : out) : list Z := take (bufsize - 1) (o_text o).

(** * Pieces of text *)

Definition quote (s : list Z) : list Z := [34] ++ s ++ [34].
Definition member (k : string) (v : list Z) : list Z := quote (bytes_of k) ++ [58] ++ v.
Fixpoint sep (ss : list (list Z)) : list Z :=
  match ss with
  | [] => []
  | [s] => s
  | s :: ss => s ++ [44] ++ sep ss
  end.
Definition obj (ms : list (list Z)) : list Z := [123] ++ sep ms ++ [125].

Definition num (n : Z) : list Z := bytes_of (fmt_d n).
Definition seconds (ns : Z) : list Z := num (ns / 1000000000).

Definition point_json (p : map_point) : list Z :=
  obj [member "lat" (fmt_f 4 (mp_lat p)); member "lon" (fmt_f 4 (mp_lon p)); member "alt" (num (mp_alt p));
       member "sat" (num (mp_sat_id p)); member "beam" (num (mp_beam_id p)); member "pages" (num (Z.of_nat (mp_n_pages p)));
       member "tmsi" (num (mp_tmsi p)); member "freq" (fmt_f0 (mp_frequency p)); member "t" (seconds (mp_timestamp p))].

Definition mt_json (p : mt_point) : list Z :=
  obj [member "lat" (fmt_f 4 (mt_lat p)); member "lon" (fmt_f 4 (mt_lon p)); member "alt" (num (mt_alt p));
       member "type" (num (mt_msg_type p)); member "freq" (fmt_f0 (mt_frequency p)); member "t" (seconds (mt_timestamp p))].

Definition sat_json (e : sat_entry) : list Z :=
  obj [member "id" (num (se_sat_id e)); member "beam" (num (se_beam_id e)); member "count" (num (se_count e))].

Definition fix_json (f : fix_t) : list Z :=
  obj [member "lat" (fmt_f 5 (fx_lat f)); member "lon" (fmt_f 5 (fx_lon f)); member "t" (num (fx_t f));
       member "alt" (num (fx_alt f)); member "adsc" (num (fx_adsc f))].

(** The escaping loop: [char] is signed, so bytes from 128 on are below 0x20. *)
Fixpoint esc_text (s : list Z) (e : nat) : list Z :=
  match s with
  | [] => []
  | c :: s =>
      if (e <? ACARS_TEXT_MAX * 2 + 1 - 2)%nat then
        let c' := to_signed 8 c in
        let piece := (if (c' =? 34) || (c' =? 92) then [92] else []) ++ [if (c' <? 0x20) || (c' =? 0x7f) then 32 else c'] in
        piece ++ esc_text s (e + List.length piece)
      else []
  end.

Definition message_json (m : acars_msg) : list Z :=
  obj [member "t" (seconds (am_timestamp m)); member "reg" (quote (am_reg m)); member "flt" (quote (am_flight m));
       member "lbl" (quote (am_label m)); member "ul" (num (if am_ul m then 1 else 0)); member "txt" (quote (esc_text (am_text m) 0))].

(** * The loops *)

(** Items with commas until the buffer is nearly full. *)
Fixpoint print_items (items : list (list Z)) (first : bool) (o : out) : out :=
  match items with
  | [] => o
  | s :: items =>
      let o := print s (if first then o else print [44] o) in
      if (bufsize - 512 <=? o_off o)%nat then o else print_items items false o
  end.

(** Items with commas, without a limit. *)
Fixpoint print_all (items : list (list Z)) (first : bool) (o : out) : out :=
  match items with
  | [] => o
  | s :: items => print_all items false (print s (if first then o else print [44] o))
  end.

Definition aircraft_head (ac : aircraft_entry) : list Z :=
  [123] ++ sep [member "reg" (quote (ac_reg ac)); member "flight" (quote (ac_flight ac)); member "oooi" (quote (ac_oooi ac));
                member "sat" (num (ac_sat_id ac)); member "beam" (num (ac_beam_id ac)); member "freq" (fmt_f0 (ac_frequency ac));
                member "fixes" [91]].

Fixpoint print_aircraft (l : list aircraft_entry) (first : bool) (o : out) : out :=
  match l with
  | [] => o
  | ac :: l =>
      match ac_fixes ac with
      | [] => print_aircraft l first o
      | fixes =>
          let o := if first then o else print [44] o in
          let o := print [93; 125] (print_all (map fix_json fixes) true (print (aircraft_head ac) o)) in
          if (bufsize - 512 <=? o_off o)%nat then o else print_aircraft l false o
      end
  end.

(** Here the limit is tested before an item. *)
Fixpoint print_messages (l : list acars_msg) (first : bool) (o : out) : out :=
  match l with
  | [] => o
  | m :: l =>
      if (o_off o <? bufsize - 1024)%nat then
        print_messages l false (print (message_json m) (if first then o else print [44] o))
      else o
  end.

(** Satellites heard within 15 minutes of the latest. *)
Definition active_sats (l : list sat_entry) : list sat_entry :=
  let max_ts := fold_left (fun m e => if m <? se_last_seen e then se_last_seen e else m) l 0 in
  let sat_window := 15 * 60 * 1000000000 in
  List.filter (fun e => negb ((sat_window <? max_ts) && (se_last_seen e <? max_ts - sat_window))) l.

(** * build_json *)

Definition build_json (w : web_state) : out :=
  let c := w_totals w in
  let o := Out [] 0 false in
  let o := print ([123] ++ sep [member "total_ira" (num (total_ira c)); member "total_ibc" (num (total_ibc c)); member "total_pages" (num (total_pages c));
                                member "total_beams" (num (total_beams c)); member "total_mt" (num (total_mt c));
                                member "total_aircraft" (num (total_aircraft c))] ++ [44]) o in
  let o := print (member "ra" [91]) o in
  let o := print_items (map point_json (take 500 (recent MAX_RA_POINTS (w_ra w)))) true o in
  let o := print [93; 44] o in
  let o := print (member "beams" [91]) o in
  let o := print_items (map point_json (take 300 (recent MAX_BEAM_POINTS (w_beams w)))) true o in
  let o := print [93; 44] o in
  let o := print (member "mt" [91]) o in
  let o := print_items (map mt_json (take 200 (recent MAX_MT_POINTS (w_mt w)))) true o in
  let o := print [93; 44] o in
  let o := print (member "sats" [91]) o in
  let o := print_all (map sat_json (active_sats (w_sats w))) true o in
  let o := print [93] o in
  let o := print ([44] ++ member "aircraft" [91]) o in
  let o := print_aircraft (w_aircraft w) true o in
  let o := print [93] o in
  let o := match w_rx w with
           | Some (lat, lon, hdop) =>
               print ([44] ++ member "rx" (obj [member "lat" (fmt_f 6 lat); member "lon" (fmt_f 6 lon); member "hdop" (fmt_f 1 hdop)])) o
           | None => o
           end in
  let o := print ([44] ++ sep [member "total_acars_msgs" (num (total_acars_msgs c)); member "acars" [91]]) o in
  let o := print_messages (recent MAX_ACARS_MSGS (w_acars w)) true o in
  let o := print [93] o in
  print [125] o.
End json.

(** * What JSON is *)

Definition json_number (s : list Z) : Prop :=
  exists sg ds fr, s = sg ++ ds ++ fr /\ (sg = [] \/ sg = [45]) /\ decimal ds /\
    (fr = [] \/ exists f, fr = [46] ++ f /\ f <> [] /\ Forall digit_char f).

(** The inside of a string, with the two escapes that occur. *)
Inductive json_chars : list Z -> Prop :=
| chars_nil : json_chars []
| chars_plain c s : 32 <= c -> c <> 34 -> c <> 92 -> json_chars s -> json_chars (c :: s)
| chars_escape c s : c = 34 \/ c = 92 -> json_chars s -> json_chars (92 :: c :: s).

#[warnings="-register-all"]
Inductive json : list Z -> Prop :=
| json_num s : json_number s -> json s
| json_str s : json_chars s -> json (quote s)
| json_arr vs : Forall json vs -> json ([91] ++ sep vs ++ [93])
| json_obj ms : Forall json_member ms -> json (obj ms)
with json_member : list Z -> Prop :=
| json_mem k v : json_chars (bytes_of k) -> json v -> json_member (member k v).

(** * Lemmas *)

Definition small (n : Z) : Prop := - 10 ^ 20 < n < 10 ^ 20.

Lemma num_json n : small n -> json (num n).
Proof.
  intros Hn. apply json_num. destruct (fmt_d_shape n Hn) as (sg & ds & E & Hs & Hd). exists sg, ds, []. rewrite app_nil_r.
  split; [exact E|]. auto.
Qed.

Lemma f_json p x : finite x -> json (fmt_f p x).
Proof.
  intros Hx. apply json_num. destruct (fmt_f_shape p x Hx) as (sg & ds & fr & E & Hs & Hd & Hf & Hn).
  exists sg, ds, ([46] ++ fr). split; [done|]. split; [done|]. split; [done|]. right. by exists fr.
Qed.

Lemma f0_json x : finite x -> json (fmt_f0 x).
Proof.
  intros Hx. apply json_num. destruct (fmt_f0_shape x Hx) as (sg & ds & E & Hs & Hd). exists sg, ds, []. rewrite app_nil_r. auto.
Qed.

(** Plain text. *)
Definition plain (s : list Z) : Prop := Forall (fun c => 32 <= c < 127 /\ c <> 34 /\ c <> 92) s.

Lemma plain_chars s : plain s -> json_chars s.
Proof. induction 1 as [|c s Hc _ IH]; constructor; (lia || done). Qed.

Lemma esc_text_chars s e : bytes_ok s -> json_chars (esc_text s e).
Proof.
  intros Hs. revert e. induction Hs as [|c s Hc _ IH]; intros e; cbn [esc_text]; [constructor|]. destruct (_ <? _)%nat; [|constructor].
  assert (-128 <= to_signed 8 c < 128) as Hr.
  { unfold to_signed. unfold is_byte in Hc. rewrite Z.mod_small by lia. change (2 ^ (8 - 1)) with 128. change (2 ^ 8) with 256. destruct (Z.ltb_spec c 128); lia. }
  set (c' := to_signed 8 c) in *. clearbody c'.
  destruct (Z.eqb_spec c' 34) as [->|H1]; [cbn; apply chars_escape; [by left|apply IH]|].
  destruct (Z.eqb_spec c' 92) as [->|H2]; [cbn; apply chars_escape; [by right|apply IH]|]. cbn [orb app].
  destruct (Z.ltb_spec c' 0x20); [cbn [orb]; by apply chars_plain|].
  destruct (Z.eqb_spec c' 0x7f); cbn [orb]; apply chars_plain; (lia || apply IH).
Qed.

Ltac plain_key := apply plain_chars; unfold plain; apply (bool_decide_unpack _); vm_compute; exact I.
Ltac members := repeat first [by apply Forall_nil | apply Forall_cons; split; [apply json_mem; [plain_key|]|]].

Definition point_ready (p : map_point) : Prop :=
  finite (mp_lat p) /\ finite (mp_lon p) /\ finite (mp_frequency p) /\ small (mp_alt p) /\ small (mp_sat_id p) /\ small (mp_beam_id p) /\
  small (Z.of_nat (mp_n_pages p)) /\ small (mp_tmsi p) /\ 0 <= mp_timestamp p < 2 ^ 64.
Definition mt_ready (p : mt_point) : Prop :=
  finite (mt_lat p) /\ finite (mt_lon p) /\ finite (mt_frequency p) /\ small (mt_alt p) /\ small (mt_msg_type p) /\ 0 <= mt_timestamp p < 2 ^ 64.
Definition sat_ready (e : sat_entry) : Prop := small (se_sat_id e) /\ small (se_beam_id e) /\ small (se_count e).
Definition fix_ready (f : fix_t) : Prop := finite (fx_lat f) /\ finite (fx_lon f) /\ small (fx_t f) /\ small (fx_alt f) /\ small (fx_adsc f).
Definition aircraft_ready (ac : aircraft_entry) : Prop :=
  plain (ac_reg ac) /\ plain (ac_flight ac) /\ plain (ac_oooi ac) /\ small (ac_sat_id ac) /\ small (ac_beam_id ac) /\
  finite (ac_frequency ac) /\ Forall fix_ready (ac_fixes ac).
Definition message_ready (m : acars_msg) : Prop :=
  plain (am_reg m) /\ plain (am_flight m) /\ plain (am_label m) /\ bytes_ok (am_text m) /\ 0 <= am_timestamp m < 2 ^ 64.

Lemma seconds_json ns : 0 <= ns < 2 ^ 64 -> json (seconds ns).
Proof.
  intros Hn. apply num_json. unfold small. assert (0 <= ns / 1000000000 < 2 ^ 64); [|lia].
  split; [apply Z.div_pos; lia|]. apply Z.div_lt_upper_bound; lia.
Qed.

Lemma point_json_ok p : point_ready p -> json (point_json p).
Proof.
  intros (H1 & H2 & H3 & H4 & H5 & H6 & H7 & H8 & H9). apply json_obj. members; solve [by apply f_json | by apply num_json | by apply f0_json | by apply seconds_json].
Qed.
Lemma mt_json_ok p : mt_ready p -> json (mt_json p).
Proof.
  intros (H1 & H2 & H3 & H4 & H5 & H6). apply json_obj. members; solve [by apply f_json | by apply num_json | by apply f0_json | by apply seconds_json].
Qed.
Lemma sat_json_ok e : sat_ready e -> json (sat_json e).
Proof. intros (H1 & H2 & H3). apply json_obj. members; by apply num_json. Qed.
Lemma fix_json_ok f : fix_ready f -> json (fix_json f).
Proof. intros (H1 & H2 & H3 & H4 & H5). apply json_obj. members; solve [by apply f_json | by apply num_json]. Qed.
Lemma message_json_ok m : message_ready m -> json (message_json m).
Proof.
  intros (H1 & H2 & H3 & H4 & H5). apply json_obj. members;
    solve [by apply seconds_json | by apply json_str, plain_chars | by apply json_str, esc_text_chars | apply num_json; destruct (am_ul m); done].
Qed.

(** ** Loops *)

Lemma sep_cons s ss : sep (s :: ss) = s ++ List.concat (map (fun x => [44] ++ x) ss).
Proof. revert s. induction ss as [|x ss IH]; intros s; [by rewrite app_nil_r|]. change (sep (s :: x :: ss)) with (s ++ [44] ++ sep (x :: ss)). by rewrite IH. Qed.

(** The text of a list of items, as the continuation of a list or not. *)
Definition joined (first : bool) (ss : list (list Z)) : list Z := if first then sep ss else List.concat (map (fun x => [44] ++ x) ss).

Lemma joined_cons first s ss : joined first (s :: ss) = (if first then [] else [44]) ++ s ++ joined false ss.
Proof. destruct first; cbn [joined]; [by rewrite sep_cons|]. cbn. done. Qed.

Section loops.
Context (bufsize : nat).
Abbreviation print := (print bufsize).

Lemma print_comma first s o : o_text (print s (if first : bool then o else print [44] o)) = o_text o ++ (if first then [] else [44]) ++ s.
Proof. destruct first; cbn; [done|]. by rewrite <- app_assoc. Qed.

Lemma print_items_text items first o : exists k, o_text (print_items bufsize items first o) = o_text o ++ joined first (take k items).
Proof.
  revert first o. induction items as [|s items IH]; intros first o; cbn [print_items]; [exists 0%nat; destruct first; by rewrite app_nil_r|].
  destruct (_ <=? _)%nat.
  - exists 1%nat. cbn [take]. by rewrite print_comma, joined_cons, app_nil_r.
  - destruct (IH false (print s (if first then o else print [44] o))) as [k Hk]. exists (S k). cbn [take].
    by rewrite Hk, print_comma, joined_cons, <- !app_assoc.
Qed.

Lemma print_all_text items first o : o_text (print_all bufsize items first o) = o_text o ++ joined first items.
Proof.
  revert first o. induction items as [|s items IH]; intros first o; cbn [print_all]; [destruct first; by rewrite app_nil_r|].
  by rewrite IH, print_comma, joined_cons, <- !app_assoc.
Qed.

Definition aircraft_json (ac : aircraft_entry) : list Z :=
  obj [member "reg" (quote (ac_reg ac)); member "flight" (quote (ac_flight ac)); member "oooi" (quote (ac_oooi ac));
       member "sat" (num (ac_sat_id ac)); member "beam" (num (ac_beam_id ac)); member "freq" (fmt_f0 (ac_frequency ac));
       member "fixes" ([91] ++ sep (map fix_json (ac_fixes ac)) ++ [93])].

Lemma aircraft_json_text ac : aircraft_head ac ++ sep (map fix_json (ac_fixes ac)) ++ [93; 125] = aircraft_json ac.
Proof.
  unfold aircraft_head, aircraft_json, obj. rewrite !sep_cons. unfold member. cbn [map List.concat]. rewrite <- !app_assoc. done.
Qed.

(** The aircraft with a fix. *)
Definition tracked_aircraft (l : list aircraft_entry) : list aircraft_entry := List.filter (fun ac => match ac_fixes ac with [] => false | _ => true end) l.

Lemma print_aircraft_text l first o : exists k, o_text (print_aircraft bufsize l first o) = o_text o ++ joined first (map aircraft_json (take k (tracked_aircraft l))).
Proof.
  revert first o. induction l as [|ac l IH]; intros first o; cbn [print_aircraft tracked_aircraft List.filter]; [exists 0%nat; destruct first; by rewrite app_nil_r|].
  destruct (ac_fixes ac) as [|f fixes] eqn:Ef; [apply IH|]. rewrite <- Ef.
  set (o1 := print [93; 125] _).
  assert (o_text o1 = o_text o ++ (if first then [] else [44]) ++ aircraft_json ac) as E1.
  { subst o1. rewrite <- aircraft_json_text. cbn [WebJson.print o_text]. rewrite print_all_text. cbn [WebJson.print o_text joined].
    destruct first; cbn [WebJson.print o_text]; by rewrite <- !app_assoc. }
  destruct (_ <=? _)%nat.
  - exists 1%nat. cbn [take map]. by rewrite E1, joined_cons, app_nil_r.
  - destruct (IH false o1) as [k Hk]. exists (S k). cbn [take map]. by rewrite Hk, E1, joined_cons, <- !app_assoc.
Qed.

Lemma print_messages_text l first o : exists k, o_text (print_messages bufsize l first o) = o_text o ++ joined first (map message_json (take k l)).
Proof.
  revert first o. induction l as [|m l IH]; intros first o; cbn [print_messages]; [exists 0%nat; destruct first; by rewrite app_nil_r|].
  destruct (_ <? _)%nat; [|exists 0%nat; destruct first; by rewrite app_nil_r].
  destruct (IH false (print (message_json m) (if first then o else print [44] o))) as [k Hk]. exists (S k). cbn [take map].
  by rewrite Hk, print_comma, joined_cons, <- !app_assoc.
Qed.
End loops.

(** ** The whole text *)

Definition arr (items : list (list Z)) : list Z := [91] ++ sep items ++ [93].

Definition totals_json (c : counters) : list (list Z) :=
  [member "total_ira" (num (total_ira c)); member "total_ibc" (num (total_ibc c)); member "total_pages" (num (total_pages c));
   member "total_beams" (num (total_beams c)); member "total_mt" (num (total_mt c)); member "total_aircraft" (num (total_aircraft c))].
Definition rx_json (rx : option (f64 * f64 * f64)) : list (list Z) :=
  match rx with
  | Some (lat, lon, hdop) => [member "rx" (obj [member "lat" (fmt_f 6 lat); member "lon" (fmt_f 6 lon); member "hdop" (fmt_f 1 hdop)])]
  | None => []
  end.

(** The members for given numbers of items. *)
Definition map_members (w : web_state) (k1 k2 k3 k4 k5 : nat) : list (list Z) :=
  totals_json (w_totals w) ++
  [member "ra" (arr (take k1 (map point_json (take 500 (recent MAX_RA_POINTS (w_ra w))))));
   member "beams" (arr (take k2 (map point_json (take 300 (recent MAX_BEAM_POINTS (w_beams w))))));
   member "mt" (arr (take k3 (map mt_json (take 200 (recent MAX_MT_POINTS (w_mt w))))));
   member "sats" (arr (map sat_json (active_sats (w_sats w))));
   member "aircraft" (arr (map aircraft_json (take k4 (tracked_aircraft (w_aircraft w)))))] ++
  rx_json (w_rx w) ++
  [member "total_acars_msgs" (num (total_acars_msgs (w_totals w)));
   member "acars" (arr (map message_json (take k5 (recent MAX_ACARS_MSGS (w_acars w)))))].

(** The next loop of the function: its text by the loop's lemma, its state
    kept as a variable. *)
Ltac next_loop loop L k E o :=
  match goal with
  | |- context [loop ?x] => destruct (L x) as [k E]; set (o := loop x) in *; clearbody o
  end; cbn [print o_text] in E.

Lemma build_json_text bufsize w : exists k1 k2 k3 k4 k5, o_text (build_json bufsize w) = obj (map_members w k1 k2 k3 k4 k5).
Proof.
  unfold build_json. cbn zeta.
  next_loop (print_items bufsize (map point_json (take 500 (recent MAX_RA_POINTS (w_ra w)))) true) (print_items_text bufsize (map point_json (take 500 (recent MAX_RA_POINTS (w_ra w)))) true) k1 E1 o1.
  next_loop (print_items bufsize (map point_json (take 300 (recent MAX_BEAM_POINTS (w_beams w)))) true) (print_items_text bufsize (map point_json (take 300 (recent MAX_BEAM_POINTS (w_beams w)))) true) k2 E2 o2.
  next_loop (print_items bufsize (map mt_json (take 200 (recent MAX_MT_POINTS (w_mt w)))) true) (print_items_text bufsize (map mt_json (take 200 (recent MAX_MT_POINTS (w_mt w)))) true) k3 E3 o3.
  match goal with |- context [print_all bufsize ?l true ?x] => pose proof (print_all_text bufsize l true x) as Es; set (os := print_all bufsize l true x) in *; clearbody os end.
  cbn [print o_text] in Es.
  next_loop (print_aircraft bufsize (w_aircraft w) true) (print_aircraft_text bufsize (w_aircraft w) true) k4 E4 o4.
  next_loop (print_messages bufsize (recent MAX_ACARS_MSGS (w_acars w)) true) (print_messages_text bufsize (recent MAX_ACARS_MSGS (w_acars w)) true) k5 E5 o5.
  exists k1, k2, k3, k4, k5. cbn [print o_text]. rewrite E5.
  assert (forall o', o_text (match w_rx w with Some (lat, lon, hdop) =>
      print bufsize ([44] ++ member "rx" (obj [member "lat" (fmt_f 6 lat); member "lon" (fmt_f 6 lon); member "hdop" (fmt_f 1 hdop)])) o' | None => o' end) =
    o_text o' ++ joined false (rx_json (w_rx w))) as Erx.
  { intros o'. destruct (w_rx w) as [[[lat lon] hdop]|]; cbn [rx_json joined map List.concat]; [|by rewrite app_nil_r]. cbn [print o_text]. by rewrite app_nil_r. }
  rewrite Erx. cbn [print o_text]. rewrite E4, Es, E3, E2, E1. unfold map_members, totals_json, obj, arr. cbn [app].
  rewrite !sep_cons. cbn [map List.concat]. rewrite !map_app, !concat_app. cbn [map List.concat joined]. unfold member.
  repeat (rewrite <- ?app_assoc; cbn [app]). done.
Qed.

(** ** Well-formed states *)

Definition totals_ready (c : counters) : Prop :=
  small (total_ira c) /\ small (total_ibc c) /\ small (total_pages c) /\ small (total_beams c) /\ small (total_mt c) /\ small (total_aircraft c) /\
  small (total_acars_msgs c).
Definition rx_ready (rx : option (f64 * f64 * f64)) : Prop :=
  match rx with Some (lat, lon, hdop) => finite lat /\ finite lon /\ finite hdop | None => True end.
Definition web_ready (w : web_state) : Prop :=
  Forall point_ready (recent MAX_RA_POINTS (w_ra w)) /\ Forall point_ready (recent MAX_BEAM_POINTS (w_beams w)) /\
  Forall mt_ready (recent MAX_MT_POINTS (w_mt w)) /\ Forall sat_ready (w_sats w) /\ Forall aircraft_ready (w_aircraft w) /\
  Forall message_ready (recent MAX_ACARS_MSGS (w_acars w)) /\ totals_ready (w_totals w) /\ rx_ready (w_rx w).

Lemma aircraft_json_ok ac : aircraft_ready ac -> json (aircraft_json ac).
Proof.
  intros (H1 & H2 & H3 & H4 & H5 & H6 & H7). apply json_obj. members;
    try solve [by apply json_str, plain_chars | by apply num_json | by apply f0_json].
  apply json_arr, Forall_map. eapply Forall_impl; [exact H7|apply fix_json_ok].
Qed.

Lemma arr_json {A} (f : A -> list Z) (P : A -> Prop) l : (forall x, P x -> json (f x)) -> Forall P l -> json (arr (map f l)).
Proof. intros Hf Hl. apply json_arr, Forall_map. by eapply Forall_impl. Qed.

Lemma arr_json_take {A} (f : A -> list Z) (P : A -> Prop) l k n : (forall x, P x -> json (f x)) -> Forall P l -> json (arr (take k (map f (take n l)))).
Proof. intros Hf Hl. apply json_arr, Forall_take, Forall_map. eapply Forall_impl; [by apply Forall_take|done]. Qed.

Lemma forall_filter {A} (p : A -> bool) (P : A -> Prop) l : Forall P l -> Forall P (List.filter p l).
Proof. induction 1 as [|x l Hx _ IH]; cbn [List.filter]; [constructor|]. destruct (p x); [by constructor|done]. Qed.

Lemma build_json_ready bufsize w : web_ready w -> json (o_text (build_json bufsize w)).
Proof.
  intros (H1 & H2 & H3 & H4 & H5 & H6 & (T1 & T2 & T3 & T4 & T5 & T6 & T7) & H8).
  destruct (build_json_text bufsize w) as (k1 & k2 & k3 & k4 & k5 & ->). apply json_obj. unfold map_members, totals_json. rewrite !Forall_app.
  split; [members; by apply num_json|]. split; [|split].
  - members; [by eapply arr_json_take; [apply point_json_ok|]..|by eapply arr_json_take; [apply mt_json_ok|]| |].
    + eapply arr_json; [apply sat_json_ok|]. by apply forall_filter.
    + eapply arr_json; [apply aircraft_json_ok|]. by apply Forall_take, forall_filter.
  - destruct (w_rx w) as [[[lat lon] hdop]|]; [|by apply Forall_nil]. destruct H8 as (R1 & R2 & R3). members. apply json_obj. members; by apply f_json.
  - members; [by apply num_json|]. eapply arr_json; [apply message_json_ok|]. by apply Forall_take.
Qed.

(** ** Operations keep states well-formed *)

Section ready.
Context (sin cos : f64 -> f64) (atan2 : f64 -> f64 -> f64).

(** Operands of the documented kinds: numbers that are finite and of at most
    64 bits, names of printable characters without quotes and backslashes,
    texts of bytes. *)
Definition op_ready (op : web_op) : Prop :=
  match op with
  | OpRa ra t f => point_ready (point_of ra t f)
  | OpSat ibc t => small (ibc_sat_id ibc) /\ small (ibc_beam_id ibc)
  | OpPosition lat lon hdop => finite lat /\ finite lon /\ finite hdop
  | OpMtMessage data t f dir => forall p, mt_entry atan2 op = Some p -> mt_ready p
  | OpAircraft reg flight lat lon sat beam t f alt adsc oooi =>
      plain reg /\ plain flight /\ plain oooi /\ small sat /\ small beam /\ finite f /\ finite lat /\ finite lon /\ 0 <= t < 2 ^ 64 /\ small alt
  | OpMessage reg flight label text ul t => plain reg /\ plain flight /\ plain label /\ bytes_ok text /\ 0 <= t < 2 ^ 64
  end.

Lemma counter_small n : small (u64 n).
Proof. unfold u64, small. pose proof (Z.mod_pos_bound n (2 ^ 64) ltac:(lia)). lia. Qed.

Lemma to_signed_small n : small (to_signed 32 n).
Proof.
  unfold small, to_signed. pose proof (Z.mod_pos_bound n (2 ^ 32) ltac:(lia)) as H. change (2 ^ (32 - 1)) with 2147483648.
  change (2 ^ 32) with 4294967296 in *. destruct (_ <? _); lia.
Qed.

Lemma renew_ready ra t f b : point_ready (point_of ra t f) -> point_ready b -> point_ready (renew ra t b).
Proof.
  unfold point_ready, renew, point_of. cbn [mp_lat mp_lon mp_alt mp_sat_id mp_beam_id mp_n_pages mp_tmsi mp_frequency mp_timestamp].
  intros H1 H2. destruct (paged ra); intuition.
Qed.

Lemma totals_ra_ready b p c : totals_ready c -> totals_ready (count_ra b p c).
Proof.
  intros (T1 & T2 & T3 & T4 & T5 & T6 & T7). unfold totals_ready, count_ra. cbn. pose proof counter_small. destruct b, p; by split_and!.
Qed.

Lemma add_ra_ready ra t f w : web_ok w -> point_ready (point_of ra t f) -> web_ready w -> web_ready (web_map_add_ra ra t f w).
Proof.
  intros ((S1 & S2 & _) & _) Hp Hw. pose proof Hw as (H1 & H2 & H3 & H4 & H5 & H6 & H7 & H8). unfold web_map_add_ra.
  destruct (off_map _ _); [done|]. destruct (_ && _ && _ && _); [done|]. destruct (_ && _).
  - unfold web_ready. cbn [w_ra w_beams w_mt w_sats w_aircraft w_acars w_totals w_rx]. destruct (add_beam_recent ra t f (w_beams w) S2) as [-> _].
    split; [done|]. split; [apply beam_spec_ok; [done|intros b; by apply (renew_ready ra t f)|done]|]. split_and!; try done. by apply totals_ra_ready.
  - destruct (_ || _); [done|]. unfold web_ready. cbn [w_ra w_beams w_mt w_sats w_aircraft w_acars w_totals w_rx].
    split; [by apply forall_push|]. split_and!; try done. by apply totals_ra_ready.
Qed.

Lemma add_sat_ready ibc t l : small (ibc_sat_id ibc) -> small (ibc_beam_id ibc) -> Forall sat_ready l -> Forall sat_ready (add_sat ibc t l).
Proof.
  intros Hs Hb Hl. unfold add_sat. pose proof to_signed_small as Ht. destruct (list_find _ l) as [[i e]|].
  - apply Forall_alter; [done|]. intros x _ (X1 & X2 & X3). split_and!; [done|done|apply Ht].
  - destruct (_ <? _)%nat; [|done]. apply Forall_app. split; [done|]. apply Forall_singleton. split_and!; [done|done|apply Ht].
Qed.

Lemma plain_take n s : plain s -> plain (take n s).
Proof. apply Forall_take. Qed.

Lemma plain_dots s : plain s -> plain (skip_dots s).
Proof.
  induction 1 as [|c s Hc Hs IH]; [constructor|]. cbn [skip_dots].
  destruct c as [|c|c]; try by constructor. do 6 (destruct c as [c|c|]; try by constructor). exact IH.
Qed.

Lemma slot_ready reg l i l' : plain reg -> Forall aircraft_ready l -> aircraft_slot reg l = Some (i, l') -> Forall aircraft_ready l'.
Proof.
  intros Hr Hl. assert (aircraft_ready (new_aircraft reg)) as Hn.
  { split; [by apply plain_take|]. split_and!; done || by apply Forall_nil. }
  unfold aircraft_slot. destruct (list_find _ l) as [[j e]|]; [by intros [= _ <-]|].
  destruct (_ <? _)%nat; [intros [= _ <-]; apply Forall_app; split; [done|by apply Forall_singleton]|].
  destruct (find_oldest _ _ _ _ _) as [k|]; [|done]. intros [= _ <-]. by apply Forall_insert.
Qed.

Lemma append_fix_ready f l : fix_ready f -> Forall fix_ready l -> Forall fix_ready (append_fix f l).
Proof.
  intros Hf Hl. unfold append_fix. apply Forall_app. split; [|by apply Forall_singleton]. destruct (_ <=? _)%nat; [by apply Forall_drop|done].
Qed.

Lemma add_aircraft_ready reg flight lat lon sat beam t f alt adsc oooi w :
  op_ready (OpAircraft reg flight lat lon sat beam t f alt adsc oooi) -> web_ready w ->
  web_ready (web_map_add_aircraft sin cos atan2 reg flight lat lon sat beam t f alt adsc oooi w).
Proof.
  intros (O1 & O2 & O3 & O4 & O5 & O6 & O7 & O8 & O9 & O10) Hw. pose proof Hw as (H1 & H2 & H3 & H4 & H5 & H6 & (T1 & T2 & T3 & T4 & T5 & T6 & T7) & H8).
  unfold web_map_add_aircraft. destruct reg as [|c reg]; [done|]. destruct (aircraft_slot _ _) as [[i l]|] eqn:E; [|done].
  apply slot_ready in E; [|done|done]. pose proof counter_small as Hu.
  assert (Forall aircraft_ready (alter (set_names flight oooi) i l)) as Hl.
  { apply Forall_alter; [done|]. intros ac _ (A1 & A2 & A3 & A4 & A5 & A6 & A7).
    split_and!; try done; cbn; [destruct flight; [done|by apply (plain_take 7)]|destruct oooi; [done|by apply (plain_take 7)]]. }
  destruct (alter _ i l !! i) as [ac|]; [|done].
  destruct (implausible _ _ _ _ _ _ _ _); unfold web_ready, totals_ready; cbn [with_aircraft w_ra w_beams w_mt w_sats w_aircraft w_acars w_totals w_rx]; split_and!; try done; try apply Hu.
  apply Forall_alter; [done|]. intros a _ (A1 & A2 & A3 & A4 & A5 & A6 & A7). split_and!; try done. apply append_fix_ready; [|done].
  split; [done|]. split; [done|]. split; [|split; [done|by destruct adsc]]. unfold small. cbn [fx_t].
  assert (0 <= t / 1000000000 < 2 ^ 64); [|lia]. split; [apply Z.div_pos; lia|apply Z.div_lt_upper_bound; lia].
Qed.

Lemma apply_ready w op : web_ok w -> op_ready op -> web_ready w -> web_ready (apply_op sin cos atan2 w op).
Proof.
  intros Ho Hop Hw. pose proof Ho as ((_ & _ & S3 & S4) & _). pose proof Hw as (H1 & H2 & H3 & H4 & H5 & H6 & (T1 & T2 & T3 & T4 & T5 & T6 & T7) & H8).
  pose proof counter_small as Hu. destruct op; cbn [apply_op].
  - by apply add_ra_ready.
  - unfold web_map_add_sat. destruct (_ =? 0); [done|]. destruct Hop as [P1 P2]. unfold web_ready, totals_ready. cbn. split_and!; try done. by apply add_sat_ready.
  - destruct Hop as (P1 & P2 & P3). by split_and!.
  - cbn [op_ready mt_entry] in Hop. unfold mtpos_ida_cb. destruct (_ <? _)%nat; [done|].
    destruct (mtpos_place data direction) as [[off skip]|]; [|done]. cbn [mbind option_bind] in Hop.
    destruct (mtpos_xyz _ _ _) as [[[lat lon] alt]|]; [|done]. cbn [mbind option_bind] in Hop. unfold web_map_add_mt. destruct (off_map lat lon); [done|].
    unfold web_ready, totals_ready. cbn [w_ra w_beams w_mt w_sats w_aircraft w_acars w_totals w_rx]. split_and!; try done; try apply Hu.
    apply forall_push; [done| |done]. by apply Hop.
  - by apply add_aircraft_ready.
  - destruct Hop as (P1 & P2 & P3 & P4 & P5). unfold web_map_add_acars_message. destruct text as [|c text]; [done|].
    unfold web_ready, totals_ready. cbn [w_ra w_beams w_mt w_sats w_aircraft w_acars w_totals w_rx]. split_and!; try done; try apply Hu.
    apply forall_push; [done| |done]. split_and!; try (cbn [am_timestamp]; lia); [by apply (plain_take 15), plain_dots|by apply (plain_take 7)|by apply (plain_take 3)|].
    by apply (Forall_take _ 255).
Qed.

Lemma run_ready ops : Forall op_ready ops -> web_ready (run_ops sin cos atan2 ops).
Proof.
  unfold run_ops. assert (web_ready web_init) as Hi by (split_and!; try done; constructor). revert Hi. generalize web_init_ok. generalize web_init.
  induction ops as [|op ops IH]; intros w Ho Hw Hops; cbn [fold_left]; [done|]. apply Forall_cons in Hops as [Hop Hops].
  apply IH; [by apply apply_ok|by apply apply_ready|done].
Qed.
End ready.

(** ** The offset *)

Section offset.
Context (bufsize : nat).

(** The offset is the length of the text, and an overrun leaves it beyond the
    buffer. *)
Definition out_ok (o : out) : Prop := o_off o = List.length (o_text o) /\ (o_overrun o = true -> (bufsize < o_off o)%nat).

Lemma print_ok s o : out_ok o -> out_ok (print bufsize s o).
Proof.
  intros [H1 H2]. split; cbn; [rewrite length_app; lia|]. intros [H|H%Nat.ltb_lt]%orb_true_iff; [specialize (H2 H)|]; lia.
Qed.
Lemma print_comma_ok (first : bool) s o : out_ok o -> out_ok (print bufsize s (if first then o else print bufsize [44] o)).
Proof. intros H. apply print_ok. destruct first; [done|by apply print_ok]. Qed.

Lemma print_items_ok l first o : out_ok o -> out_ok (print_items bufsize l first o).
Proof.
  revert first o. induction l as [|s l IH]; intros first o Ho; cbn [print_items]; [done|]. destruct (_ <=? _)%nat; [|apply IH]; by apply print_comma_ok.
Qed.
Lemma print_all_ok l first o : out_ok o -> out_ok (print_all bufsize l first o).
Proof. revert first o. induction l as [|s l IH]; intros first o Ho; cbn [print_all]; [done|]. by apply IH, print_comma_ok. Qed.
Lemma print_aircraft_ok l first o : out_ok o -> out_ok (print_aircraft bufsize l first o).
Proof.
  revert first o. induction l as [|ac l IH]; intros first o Ho; cbn [print_aircraft]; [done|]. destruct (ac_fixes ac) as [|f fixes]; [by apply IH|].
  destruct (_ <=? _)%nat; [|apply IH]; by apply print_ok, print_all_ok, print_comma_ok.
Qed.
Lemma print_messages_ok l first o : out_ok o -> out_ok (print_messages bufsize l first o).
Proof.
  revert first o. induction l as [|m l IH]; intros first o Ho; cbn [print_messages]; [done|]. destruct (_ <? _)%nat; [|done]. by apply IH, print_comma_ok.
Qed.

Lemma build_json_ok w : out_ok (build_json bufsize w).
Proof.
  unfold build_json. cbn zeta. do 2 apply print_ok. apply print_messages_ok, print_ok.
  assert (forall o, out_ok o -> out_ok (match w_rx w with Some (lat, lon, hdop) =>
      print bufsize ([44] ++ member "rx" (obj [member "lat" (fmt_f 6 lat); member "lon" (fmt_f 6 lon); member "hdop" (fmt_f 1 hdop)])) o | None => o end)) as Hrx.
  { intros o Ho. destruct (w_rx w) as [[[lat lon] hdop]|]; [by apply print_ok|done]. }
  apply Hrx, print_ok, print_aircraft_ok. do 2 apply print_ok. apply print_all_ok. do 2 apply print_ok. apply print_items_ok. do 2 apply print_ok.
  apply print_items_ok. do 2 apply print_ok. apply print_items_ok. do 2 apply print_ok. done.
Qed.

Lemma out_fits o : out_ok o -> (o_off o < bufsize)%nat -> o_overrun o = false /\ buffer bufsize o = o_text o.
Proof.
  intros [H1 H2] Hlt. split; [destruct (o_overrun o); [specialize (H2 eq_refl); lia|done]|]. unfold buffer. apply take_ge. lia.
Qed.
End offset.

(** An aircraft with a full track written where the loop's limit just allows it
    ends beyond the buffer, and the next call has a negative size. *)
Definition far_west : f64 := f64_of_Z (-179).
Definition long_track : aircraft_entry :=
  AircraftEntry (replicate 15 65) (replicate 7 66) (replicate 7 67) 100 48 (replicate 8 (Fix far_west far_west 1700000000 (-1000) 1)) (f64_of_Z 1626270833) 0.
Lemma aircraft_overrun : o_overrun (print 2048 [93] (print_aircraft 2048 [long_track] true (Out [] (2048 - 513) false))) = true.
Proof. vm_compute. reflexivity. Qed.

(** C8 (type).  After any operations with operands of the documented kinds the
    text for the browser is one JSON value, the length returned is its length,
    and when that is less than the size of the buffer nothing was written
    beyond the buffer and the buffer holds the text. *)
Theorem build_json_wellformed sin cos atan2 ops bufsize : Forall (op_ready atan2) ops ->
  let o := build_json bufsize (run_ops sin cos atan2 ops) in
  json (o_text o) /\ o_off o = List.length (o_text o) /\
  ((o_off o < bufsize)%nat -> o_overrun o = false /\ buffer bufsize o = o_text o).
Proof.
  intros Hops o. split; [by apply build_json_ready, run_ready|]. pose proof (build_json_ok bufsize (run_ops sin cos atan2 ops)) as Ho.
  split; [apply Ho|]. by apply out_fits.
Qed.

Lemma build_json_wellformed_witness :
  let ops := [OpPosition (f64_of_Z 10) (f64_of_Z 20) (f64_of_Z 1); OpMessage [46; 65] [66] [72; 49] [34; 92; 7; 200; 65] true 5000000000] in
  json (o_text (build_json 4096 (run_ops id id f64_sub ops))).
Proof.
  intros ops. apply (build_json_wellformed id id f64_sub ops 4096). unfold ops. constructor; [by split_and!|]. constructor; [|constructor].
  split_and!; try lia; apply (bool_decide_unpack _); vm_compute; exact I.
Defined.
