(* ===== verification/WebServer.v ===== *)
(** The HTTP side of the web map, [src/web_map.c]: the reading of a request by
    [client_thread], the responses, and the count of event-stream clients that
    the client threads share.

    [HTML_PAGE], the literal page, is a parameter.  Sockets appear as the bytes
    read and the bytes written. *)
From S2P Require Import Prelude CFloat CString JsonText CNumber CFormat WebMap WebJson.
#[local] Open Scope Z_scope.

(** * Requests *)

Definition HTTP_BUF_SIZE : nat := Z.to_nat 4096.
Definition JSON_BUF_SIZE : nat := Z.to_nat 131072.
Definition MAX_SSE_CLIENTS : Z := 8.

(** The part of a string before the first [c], which [strchr] finds and the
    code overwrites with the terminator. *)
Fixpoint cut_at (c : Z) (s : list Z) : list Z :=
  match s with
  | [] => []
  | d :: s => if d =? c then [] else d :: cut_at c s
  end.

Inductive target := BadMethod | Page | Events | State | NotFound.

(** The target of a request, from what one [read] returned. *)
Definition request_target (buf : list Z) : target :=
  let s := cstr buf in
  if negb (bool_decide (take 4 s = bytes_of "GET ")) then BadMethod
  else
    let path := cut_at 63 (cut_at 32 (drop 4 s)) in
    if bool_decide (path = bytes_of "/") || bool_decide (path = bytes_of "/index.html") then Page
    else if bool_decide (path = bytes_of "/api/events") then Events
    else if bool_decide (path = bytes_of "/api/state") then State
    else NotFound.

(** * Responses *)

Definition crlf : list Z := [13; 10].
Definition send_response (status content_type : string) (body : list Z) : list Z :=
  bytes_of "HTTP/1.1 " ++ bytes_of status ++ crlf ++
  bytes_of "Content-Type: " ++ bytes_of content_type ++ crlf ++
  bytes_of "Content-Length: " ++ bytes_of (fmt_d (Z.of_nat (List.length body))) ++ crlf ++
  bytes_of "Connection: close" ++ crlf ++
  bytes_of "Access-Control-Allow-Origin: *" ++ crlf ++ crlf ++ body.

(** The [jlen] bytes sent of a JSON buffer; [None] when that is more than was
    written into it. *)
Definition json_sent (bufsize : nat) (o : out) : option (list Z) :=
  if (o_off o <? bufsize)%nat then Some (o_text o) else None.

Definition sse_header : list Z :=
  bytes_of "HTTP/1.1 200 OK" ++ crlf ++ bytes_of "Content-Type: text/event-stream" ++ crlf ++
  bytes_of "Cache-Control: no-cache" ++ crlf ++ bytes_of "Connection: keep-alive" ++ crlf ++
  bytes_of "X-Accel-Buffering: no" ++ crlf ++ bytes_of "Access-Control-Allow-Origin: *" ++ crlf ++ crlf.

(** One turn of the event loop. *)
Definition sse_event (w : web_state) : option (list Z) :=
  json ← json_sent (JSON_BUF_SIZE - 64) (build_json (JSON_BUF_SIZE - 64) w);
  Some (bytes_of "event: update" ++ [10] ++ bytes_of "data: " ++ json ++ [10; 10]).

(** What is written at the states of the map at which it is looked at. *)
Fixpoint handle_sse (views : list web_state) : option (list Z) :=
  match views with
  | [] => Some []
  | w :: views => e ← sse_event w; es ← handle_sse views; Some (e ++ es)
  end.

(** What a client is sent; [count] is the number of event-stream clients before
    its own increment and [views] the states its stream shows. *)
Definition client_thread (HTML_PAGE : list Z) (buf : list Z) (count : Z) (w : web_state) (views : list web_state) : option (list Z) :=
  match buf with
  | [] => Some []
  | _ =>
      match request_target buf with
      | BadMethod => Some (send_response "405 Method Not Allowed" "text/plain" (bytes_of "405"))
      | Page => Some (send_response "200 OK" "text/html" HTML_PAGE)
      | Events =>
          if MAX_SSE_CLIENTS <=? count then Some (send_response "503 Service Unavailable" "text/plain" (bytes_of "too many clients"))
          else es ← handle_sse views; Some (sse_header ++ es)
      | State =>
          json ← json_sent JSON_BUF_SIZE (build_json JSON_BUF_SIZE w);
          Some (send_response "200 OK" "application/json" json)
      | NotFound => Some (send_response "404 Not Found" "text/plain" (bytes_of "404"))
      end
  end.

(** * The shared count *)

(** A client thread: before it asks for the stream, sent away but not yet
    counted off, streaming, and after. *)
Inductive phase := Arrived | Refused | Streaming | Gone.
#[export] Instance phase_eq_dec : EqDecision phase.
Proof. solve_decision. Defined.

Record clients := Clients { sse_client_count : Z; phases : list phase }.

Inductive client_step : clients -> clients -> Prop :=
| client_accept n ps : client_step (Clients n ps) (Clients n (ps ++ [Arrived]))
| client_count n ps i : ps !! i = Some Arrived ->
    client_step (Clients n ps) (Clients (n + 1) (<[i := if MAX_SSE_CLIENTS <=? n then Refused else Streaming]> ps))
| client_leave n ps i p : ps !! i = Some p -> p = Refused \/ p = Streaming ->
    client_step (Clients n ps) (Clients (n - 1) (<[i := Gone]> ps)).

Definition clients_init : clients := Clients 0 [].
Definition reachable (s : clients) : Prop := rtc client_step clients_init s.

Definition holding (q p : phase) : Z := if decide (p = q) then 1 else 0.
Fixpoint tally (q : phase) (ps : list phase) : Z :=
  match ps with
  | [] => 0
  | p :: ps => holding q p + tally q ps
  end.

(** * Lemmas *)

Lemma tally_app q ps ps' : tally q (ps ++ ps') = tally q ps + tally q ps'.
Proof. induction ps as [|p ps IH]; cbn [tally app]; lia. Qed.

Lemma tally_insert q ps i p p' : ps !! i = Some p -> tally q (<[i := p']> ps) = tally q ps - holding q p + holding q p'.
Proof.
  revert i. induction ps as [|x ps IH]; intros i Hi; [done|]. destruct i as [|i]; [injection Hi as ->; cbn [insert list_insert tally]; lia|].
  specialize (IH i Hi). change (<[S i := p']> (x :: ps)) with (x :: <[i := p']> ps). cbn [tally]. lia.
Qed.

Lemma tally_nonneg q ps : 0 <= tally q ps.
Proof. induction ps as [|p ps IH]; cbn [tally]; [lia|]. unfold holding. destruct (decide _); lia. Qed.

Lemma cut_at_app c s t : c ∉ s -> cut_at c (s ++ c :: t) = s.
Proof.
  induction s as [|d s IH]; intros Hn; cbn [cut_at app]; [by rewrite Z.eqb_refl|]. apply not_elem_of_cons in Hn as [Hd Hn].
  rewrite (proj2 (Z.eqb_neq d c)) by congruence. by rewrite IH.
Qed.

Lemma cut_at_id c s : c ∉ s -> cut_at c s = s.
Proof.
  induction s as [|d s IH]; intros Hn; cbn [cut_at]; [done|]. apply not_elem_of_cons in Hn as [Hd Hn].
  rewrite (proj2 (Z.eqb_neq d c)) by congruence. by rewrite IH.
Qed.

Lemma cstr_app s t : Forall (fun c => c <> 0) s -> cstr (s ++ t) = s ++ cstr t.
Proof. induction 1 as [|c s Hc _ IH]; [done|]. cbn [cstr app]. rewrite (proj2 (Z.eqb_neq c 0) Hc). by rewrite IH. Qed.

Lemma cut_at_cut c s t u : c ∉ s -> c ∉ t -> cut_at c (s ++ t ++ c :: u) = s ++ t.
Proof. intros Hs Ht. rewrite app_assoc. apply cut_at_app. intros [?|?]%elem_of_app; done. Qed.

(** A request line as browsers and proxies write it. *)
Definition path_char (c : Z) : Prop := c <> 0 /\ c <> 32 /\ c <> 63.
Definition get_request (path query rest : list Z) : list Z := bytes_of "GET " ++ path ++ query ++ [32] ++ rest.
Definition query_ok (query : list Z) : Prop := query = [] \/ exists q, query = 63 :: q /\ Forall (fun c => c <> 0 /\ c <> 32) q.

Lemma not_in_forall (P : Z -> Prop) c s : Forall P s -> (P c -> False) -> c ∉ s.
Proof. intros Hs Hc Hin. rewrite Forall_forall in Hs. by apply Hc, Hs. Qed.

Lemma request_path path query rest : Forall path_char path -> query_ok query ->
  let s := cstr (get_request path query rest) in take 4 s = bytes_of "GET " /\ cut_at 63 (cut_at 32 (drop 4 s)) = path.
Proof.
  intros Hp Hq s.
  assert (s = bytes_of "GET " ++ (path ++ query ++ 32 :: cstr rest)) as ->.
  { unfold s, get_request. rewrite cstr_app by (apply (bool_decide_unpack _); vm_compute; exact I). f_equal.
    rewrite cstr_app by (eapply Forall_impl; [exact Hp|by intros c (? & _)]). f_equal. rewrite cstr_app; [done|].
    destruct Hq as [->|(q & -> & Hq)]; [constructor|]. constructor; [done|]. eapply Forall_impl; [exact Hq|by intros c []]. }
  split; [by rewrite take_app_length'|]. rewrite drop_app_length' by done.
  assert (32 ∉ path) as H1 by (eapply not_in_forall; [exact Hp|intros (_ & ? & _); done]).
  assert (63 ∉ path) as H2 by (eapply not_in_forall; [exact Hp|intros (_ & _ & ?); done]).
  destruct Hq as [->|(q & -> & Hq)].
  - cbn [app]. rewrite cut_at_app by done. by apply cut_at_id.
  - rewrite cut_at_cut; [by apply cut_at_app|done|]. apply not_elem_of_cons. split; [done|]. eapply not_in_forall; [exact Hq|intros [_ ?]; done].
Qed.

Definition known_paths : list (list Z) := [bytes_of "/"; bytes_of "/index.html"; bytes_of "/api/events"; bytes_of "/api/state"].

Lemma target_unknown path query rest : Forall path_char path -> query_ok query -> path ∉ known_paths ->
  request_target (get_request path query rest) = NotFound.
Proof.
  intros Hp Hq Hk. destruct (request_path path query rest Hp Hq) as [E1 E2]. unfold request_target. rewrite E1, E2.
  rewrite bool_decide_eq_true_2 by done. cbn [negb]. unfold known_paths in Hk. rewrite !not_elem_of_cons in Hk. destruct Hk as (H1 & H2 & H3 & H4 & _).
  by rewrite !bool_decide_eq_false_2.
Qed.

Lemma target_known path query rest t : query_ok query ->
  (path, t) ∈ [(bytes_of "/", Page); (bytes_of "/index.html", Page); (bytes_of "/api/events", Events); (bytes_of "/api/state", State)] ->
  request_target (get_request path query rest) = t.
Proof.
  intros Hq Hin. assert (Forall path_char path) as Hp.
  { rewrite !elem_of_cons in Hin. destruct Hin as [[= -> _]|[[= -> _]|[[= -> _]|[[= -> _]|[]%elem_of_nil]]]]; unfold path_char; apply (bool_decide_unpack _); vm_compute; exact I. }
  destruct (request_path path query rest Hp Hq) as [E1 E2]. unfold request_target. rewrite E1, E2.
  rewrite !elem_of_cons in Hin. destruct Hin as [[= -> ->]|[[= -> ->]|[[= -> ->]|[[= -> ->]|[]%elem_of_nil]]]]; vm_compute; reflexivity.
Qed.

Lemma get_request_cons path query rest : exists c s, get_request path query rest = c :: s.
Proof. by eexists _, _. Qed.

(** The invariant of the count. *)
Definition clients_ok (s : clients) : Prop :=
  sse_client_count s = tally Streaming (phases s) + tally Refused (phases s) /\ tally Streaming (phases s) <= MAX_SSE_CLIENTS.

Lemma client_step_ok s s' : clients_ok s -> client_step s s' -> clients_ok s'.
Proof.
  intros [H1 H2] Hst. destruct Hst as [n ps|n ps i Hi|n ps i p Hi Hp]; unfold clients_ok in *; cbn [sse_client_count phases] in *.
  - rewrite !tally_app. cbn [tally]. unfold holding. repeat case_decide; (done || lia).
  - pose proof (tally_nonneg Refused ps). rewrite !(tally_insert _ _ _ _ _ Hi). unfold holding.
    destruct (Z.leb_spec MAX_SSE_CLIENTS n); repeat case_decide; (done || lia).
  - pose proof (tally_nonneg Refused ps). rewrite !(tally_insert _ _ _ _ _ Hi). unfold holding. destruct Hp as [-> | ->]; repeat case_decide; (done || lia).
Qed.

(**  However the client threads interleave, at most
    [MAX_SSE_CLIENTS] stream events at a time, the shared count is the number
    of clients that stream or are being sent away, and it is back at zero
    whenever no client is in between. *)
Theorem sse_clients_bounded s : reachable s ->
  tally Streaming (phases s) <= MAX_SSE_CLIENTS /\
  sse_client_count s = tally Streaming (phases s) + tally Refused (phases s) /\
  (Forall (fun p => p = Arrived \/ p = Gone) (phases s) -> sse_client_count s = 0).
Proof.
  intros Hr. assert (clients_ok s) as [H1 H2].
  { unfold reachable in Hr. assert (clients_ok clients_init) as H0 by (split; cbn; unfold MAX_SSE_CLIENTS; lia).
    induction Hr as [s|s s1 s2 Hst _ IH]; [done|]. apply IH. by eapply client_step_ok. }
  split; [done|]. split; [done|]. intros Hf. rewrite H1. clear -Hf. induction Hf as [|p ps Hp _ IH]; cbn [tally]; [done|]. unfold holding. destruct Hp as [-> | ->]; repeat case_decide; (done || lia).
Qed.

Lemma sse_clients_bounded_witness : tally Streaming (phases (Clients 1 [Streaming; Gone])) <= MAX_SSE_CLIENTS.
Proof.
  apply (sse_clients_bounded (Clients 1 [Streaming; Gone])).
  eapply rtc_l; [apply client_accept|]. eapply rtc_l; [apply client_accept|]. cbn [app].
  eapply rtc_l; [apply (client_count _ _ 1); reflexivity|]. eapply rtc_l; [apply (client_count _ _ 0); reflexivity|]. cbn.
  eapply rtc_l; [apply (client_leave _ _ 1 Streaming); [reflexivity|by right]|]. apply rtc_refl.
Defined.

(** C36 (error).  The error responses: 405 unless the request starts with [GET]
    and a blank, 404 for a path that is none of the four served ones, 503 for an
    event stream when eight are counted already; a query after the path makes no
    difference. *)
Theorem http_errors page buf path query rest count w views :
  let GET s := client_thread page s count w views in
  (buf <> [] -> take 4 (cstr buf) <> bytes_of "GET " -> GET buf = Some (send_response "405 Method Not Allowed" "text/plain" (bytes_of "405"))) /\
  (Forall path_char path -> query_ok query -> path ∉ known_paths ->
   GET (get_request path query rest) = Some (send_response "404 Not Found" "text/plain" (bytes_of "404"))) /\
  (query_ok query -> MAX_SSE_CLIENTS <= count ->
   GET (get_request (bytes_of "/api/events") query rest) = Some (send_response "503 Service Unavailable" "text/plain" (bytes_of "too many clients"))).
Proof.
  intros GET. unfold GET, client_thread. split; [|split].
  - intros Hb Hg. destruct buf as [|c buf]; [done|]. unfold request_target. by rewrite (bool_decide_eq_false_2 (take 4 _ = _)).
  - intros Hp Hq Hk. destruct (get_request_cons path query rest) as (c & s & E). rewrite E, <- E. by rewrite target_unknown.
  - intros Hq Hc. destruct (get_request_cons (bytes_of "/api/events") query rest) as (c & s & E). rewrite E, <- E.
    rewrite (target_known _ _ _ Events) by (done || rewrite !elem_of_cons; auto). by rewrite (proj2 (Z.leb_le _ _) Hc).
Qed.

Lemma http_errors_witness :
  client_thread [] (get_request (bytes_of "/favicon.ico") [63; 97] (bytes_of "HTTP/1.1")) 0 web_init [] =
    Some (send_response "404 Not Found" "text/plain" (bytes_of "404")).
Proof.
  apply (http_errors [] [] (bytes_of "/favicon.ico") [63; 97] (bytes_of "HTTP/1.1") 0 web_init []).
  - unfold path_char. apply (bool_decide_unpack _). vm_compute. exact I.
  - right. exists [97]. split; [reflexivity|]. apply (bool_decide_unpack _). vm_compute. exact I.
  - apply (bool_decide_unpack _). vm_compute. exact I.
Defined.

(** A response with the state of the map carries one JSON value. *)
Theorem state_response_json page query rest count sin cos atan2 ops views r : Forall (op_ready atan2) ops -> query_ok query ->
  client_thread page (get_request (bytes_of "/api/state") query rest) count (run_ops sin cos atan2 ops) views = Some r ->
  exists body, json body /\ r = send_response "200 OK" "application/json" body.
Proof.
  intros Hops Hq. unfold client_thread. destruct (get_request_cons (bytes_of "/api/state") query rest) as (c & s & E). rewrite E, <- E.
  rewrite (target_known _ _ _ State) by (done || rewrite !elem_of_cons; auto 6). unfold json_sent.
  set (w := run_ops sin cos atan2 ops). destruct (_ <? _)%nat; [|done]. cbn [mbind option_bind]. intros H.
  exists (o_text (build_json JSON_BUF_SIZE w)). split; [apply build_json_ready, run_ready; done|congruence].
Qed.
