(* ===== verification/Station.v ===== *)
(** The whole receiving station: what the output thread of [Receiver.v] hands to
    the web map, to GSMTAP and to the BaseStation feed, and what therefore
    appears there.

    The calls that are events in [Receiver.v] become the operations of
    [WebMap.v], [Gsmtap.v] and [BaseStation.v]. *)
From S2P Require Import Prelude CFloat QpskDemod FrameDecode IdaDecode IdaReassemble Sbd BeamCache WaypointDb AcarsPos Acars AcarsShown Receiver.
From S2P Require Import CNumber CTable WebMap Gsmtap.
#[local] Open Scope Z_scope.

(** * Definitions *)

(** The calls into [web_map.c]; the fallback parser has no flight name,
    altitude or OOOI event for them. *)
Definition web_ops (ev : rx_event) : list web_op :=
  match ev with
  | WebRingAlert ira ts fq => [OpRa ira ts fq]
  | WebSatellite ibc ts => [OpSat ibc ts]
  | PositionMessage m => [OpMtMessage (m_data m) (m_timestamp m) (m_frequency m) (m_direction m)]
  | AcarsOut (WebMessage reg flight label text ul ts) => [OpMessage reg flight label text ul ts]
  | AcarsOut (WebAircraft reg lat lon sat beam ts fq exact) => [OpAircraft reg [] lat lon sat beam ts fq (-99999) exact []]
  | _ => []
  end.

Definition gsmtap_datagram (log10f : f32 -> f32) (ev : rx_event) : option (list Z) :=
  match ev with
  | GsmtapMessage m => gsmtap_ida_cb log10f true m
  | _ => None
  end.

Section station.
Context (sin cos : f64 -> f64) (atan2 : f64 -> f64 -> f64) (log10f : f32 -> f32) {D : Type} `{WaypointSource D}.
Context (o : options) (d : D) (tbl : tables).

Definition station_events (items : list (env * output_item)) : list rx_event := snd (output_thread atan2 o d tbl receiver_init items).
Definition station_map (items : list (env * output_item)) : web_state := run_ops sin cos atan2 (flat_map web_ops (station_events items)).
Definition station_datagrams (items : list (env * output_item)) : list (list Z) := omap (gsmtap_datagram log10f) (station_events items).

(** * Lemmas *)

(** Where a kind of message event comes from: one of the assemblers. *)
Definition from_assembler (ctx : ida_context) (it : output_item) (m : ida_message) : Prop := m ∈ snd (run ctx (item_events it)).

Lemma output_frame_messages st f : let r := output_frame atan2 o tbl st f in
  ida_ctx (fst r) = ida_ctx st /\ mtpos_ida_ctx (fst r) = mtpos_ida_ctx st /\
  forall m, (GsmtapMessage m ∉ snd r) /\ PositionMessage m ∉ snd r.
Proof.
  assert (forall m ev, ev <> GsmtapMessage m -> ev <> PositionMessage m -> (GsmtapMessage m ∉ [ev]) /\ PositionMessage m ∉ [ev]) as H1.
  { intros m ev N1 N2. split; intros E%list_elem_of_singleton; congruence. }
  assert (forall m, (GsmtapMessage m ∉ []) /\ PositionMessage m ∉ []) as H0 by (intros m; split; apply not_elem_of_nil).
  assert (forall m l l', ((GsmtapMessage m ∉ l) /\ PositionMessage m ∉ l) -> ((GsmtapMessage m ∉ l') /\ PositionMessage m ∉ l') ->
    (GsmtapMessage m ∉ l ++ l') /\ PositionMessage m ∉ l ++ l') as Ha.
  { intros m l l' [? ?] [? ?]. split; intros [?|?]%elem_of_app; done. }
  unfold output_frame. destruct (_ || _); [|done].
  destruct (frame_decode atan2 tbl f) as [[] [[] ts fq [|ira|ibc]]]; cbn [fst snd]; try done.
  - split; [done|]. split; [done|]. intros m. apply Ha; [destruct (web_enabled _)|destruct (position_enabled o)]; (apply H0 || by apply H1).
  - split; [done|]. split; [done|]. intros m. destruct (web_enabled _); [by apply H1|apply H0].
Qed.

Lemma output_acars_messages e st it : let r := output_acars o e d st it in
  ida_ctx (fst r) = ida_ctx st /\ mtpos_ida_ctx (fst r) = mtpos_ida_ctx st /\
  forall m, (GsmtapMessage m ∉ snd r) /\ PositionMessage m ∉ snd r.
Proof.
  intros r. unfold r, output_acars. destruct (assemble_item _ _) as [ctx m]. destruct (match m with Some m => _ | None => _ end) as [sbd p].
  destruct (match p with Some p => _ | None => _ end) as [ac evs]. cbn [fst snd]. split; [done|]. split; [done|].
  intros m'. split; intros (ev & E & _)%list_elem_of_fmap; done.
Qed.

(** One round: which assembler a message comes from, and what its context is
    afterwards. *)
Lemma output_step_messages e st it : let r := output_step atan2 o e d tbl st it in
  (forall m, GsmtapMessage m ∈ snd r -> from_assembler (ida_ctx st) it m) /\
  (forall m, PositionMessage m ∈ snd r -> from_assembler (mtpos_ida_ctx st) it m) /\
  (gsmtap_enabled o = true -> ida_ctx (fst r) = fst (run (ida_ctx st) (item_events it))) /\
  (web_enabled (acars_cfg o) = true -> mtpos_ida_ctx (fst r) = fst (run (mtpos_ida_ctx st) (item_events it))) /\
  (gsmtap_enabled o = false -> forall m, GsmtapMessage m ∉ snd r) /\
  (web_enabled (acars_cfg o) = false -> forall m, PositionMessage m ∉ snd r).
Proof.
  intros r. unfold r, output_step, from_assembler. destruct (output_frame_messages st (it_demod it)) as (F1 & F2 & F3).
  destruct (output_frame atan2 o tbl st (it_demod it)) as [st1 ev1]. cbn [fst snd] in *. rewrite <- F1, <- F2, !assemble_item_run. cbn [fst snd].
  match goal with |- context [if gsmtap_enabled o then ?t else ?u] => destruct (if gsmtap_enabled o then t else u) as [st2 ev2] eqn:E2 end.
  assert (mtpos_ida_ctx st2 = mtpos_ida_ctx st1 /\ (forall m, PositionMessage m ∉ ev2) /\
    (forall m, GsmtapMessage m ∈ ev2 -> m ∈ option_list (assemble_item (ida_ctx st1) it).2) /\
    (gsmtap_enabled o = true -> ida_ctx st2 = (assemble_item (ida_ctx st1) it).1) /\ (gsmtap_enabled o = false -> ev2 = [])) as (G1 & G2 & G3 & G4 & G5).
  { destruct (gsmtap_enabled o); [|simplify_eq; split_and!; try done; intros m Hm; by apply elem_of_nil in Hm].
    destruct (assemble_item (ida_ctx st1) it) as [ctx m]. simplify_eq. cbn. split_and!; try done.
    - intros m' (x & E & _)%list_elem_of_fmap. done.
    - intros m' (x & [= <-] & Hx)%list_elem_of_fmap. done. }
  match goal with |- context [if acars_enabled ?a then ?t else ?u] => destruct (if acars_enabled a then t else u) as [st3 ev3] eqn:E3 end.
  assert (ida_ctx st3 = ida_ctx st2 /\ mtpos_ida_ctx st3 = mtpos_ida_ctx st2 /\ forall m, (GsmtapMessage m ∉ ev3) /\ PositionMessage m ∉ ev3) as (A1 & A2 & A3).
  { destruct (acars_enabled (acars_cfg o)); [|simplify_eq; split_and!; try done; intros m; split; apply not_elem_of_nil].
    destruct (output_acars_messages e st2 it) as (B1 & B2 & B3). rewrite E3 in B1, B2, B3. done. }
  match goal with |- context [if web_enabled ?a then ?t else ?u] => destruct (if web_enabled a then t else u) as [st4 ev4] eqn:E4 end.
  assert (ida_ctx st4 = ida_ctx st3 /\ (forall m, GsmtapMessage m ∉ ev4) /\
    (forall m, PositionMessage m ∈ ev4 -> m ∈ option_list (assemble_item (mtpos_ida_ctx st3) it).2) /\
    (web_enabled (acars_cfg o) = true -> mtpos_ida_ctx st4 = (assemble_item (mtpos_ida_ctx st3) it).1) /\ (web_enabled (acars_cfg o) = false -> ev4 = [])) as (W1 & W2 & W3 & W4 & W5).
  { destruct (web_enabled (acars_cfg o)); [|simplify_eq; split_and!; try done; intros m Hm; by apply elem_of_nil in Hm].
    destruct (assemble_item (mtpos_ida_ctx st3) it) as [ctx m]. simplify_eq. cbn. split_and!; try done.
    - intros m' (x & E & _)%list_elem_of_fmap. done.
    - intros m' (x & [= <-] & Hx)%list_elem_of_fmap. done. }
  cbn [fst snd]. rewrite A2, G1 in W3, W4.
  split; [|split; [|split; [|split; [|split]]]].
  - intros m. rewrite !elem_of_app. intros [Hm|[Hm|[Hm|Hm]]]; [by apply F3 in Hm|by apply G3|by apply A3 in Hm|by apply W2 in Hm].
  - intros m. rewrite !elem_of_app. intros [Hm|[Hm|[Hm|Hm]]]; [by apply F3 in Hm|by apply G2 in Hm|by apply A3 in Hm|by apply W3].
  - intros Hg. rewrite W1, A1. by apply G4.
  - intros Hw. by apply W4.
  - intros Hg m. rewrite (G5 Hg), !elem_of_app. intros [Hm|[Hm|[Hm|Hm]]]; [by apply F3 in Hm|by apply elem_of_nil in Hm|by apply A3 in Hm|by apply W2 in Hm].
  - intros Hw m. rewrite (W5 Hw), !elem_of_app. intros [Hm|[Hm|[Hm|Hm]]]; [by apply F3 in Hm|by apply G2 in Hm|by apply A3 in Hm|by apply elem_of_nil in Hm].
Qed.

Lemma no_gsmtap items st m : gsmtap_enabled o = false -> GsmtapMessage m ∉ snd (output_thread atan2 o d tbl st items).
Proof.
  intros Hg. revert st. induction items as [|[e it] items IH]; intros st; cbn [output_thread]; [apply not_elem_of_nil|].
  destruct (output_step_messages e st it) as (_ & _ & _ & _ & S5 & _). destruct (output_step atan2 o e d tbl st it) as [st1 ev1].
  specialize (IH st1). destruct (output_thread atan2 o d tbl st1 items) as [st2 evs]. cbn [snd] in *. rewrite elem_of_app. intros [Hm|Hm]; [by apply (S5 Hg) in Hm|done].
Qed.

Lemma no_position items st m : web_enabled (acars_cfg o) = false -> PositionMessage m ∉ snd (output_thread atan2 o d tbl st items).
Proof.
  intros Hg. revert st. induction items as [|[e it] items IH]; intros st; cbn [output_thread]; [apply not_elem_of_nil|].
  destruct (output_step_messages e st it) as (_ & _ & _ & _ & _ & S6). destruct (output_step atan2 o e d tbl st it) as [st1 ev1].
  specialize (IH st1). destruct (output_thread atan2 o d tbl st1 items) as [st2 evs]. cbn [snd] in *. rewrite elem_of_app. intros [Hm|Hm]; [by apply (S6 Hg) in Hm|done].
Qed.

Lemma output_thread_messages items st : let evs := snd (output_thread atan2 o d tbl st items) in
  let ms ctx := snd (run ctx (flat_map (item_events ∘ snd) items)) in
  (forall m, GsmtapMessage m ∈ evs -> m ∈ ms (ida_ctx st)) /\ (forall m, PositionMessage m ∈ evs -> m ∈ ms (mtpos_ida_ctx st)).
Proof.
  revert st. induction items as [|[e it] items IH]; intros st; cbn [output_thread flat_map]; [split; by intros m ?%elem_of_nil|].
  destruct (output_step_messages e st it) as (S1 & S2 & S3 & S4 & S5 & S6). destruct (output_step atan2 o e d tbl st it) as [st1 ev1].
  cbn [fst snd] in *. specialize (IH st1). destruct (output_thread atan2 o d tbl st1 items) as [st2 evs] eqn:Et. cbn [snd] in *. destruct IH as [I1 I2].
  cbn [compose snd]. split; intros m; rewrite elem_of_app, run_app; cbn [snd]; rewrite elem_of_app.
  - intros [Hm|Hm]; [left; by apply S1|]. destruct (gsmtap_enabled o) eqn:Eg; [right; rewrite <- (S3 eq_refl); by apply I1|].
    exfalso. destruct (no_gsmtap items st1 m Eg). by rewrite Et.
  - intros [Hm|Hm]; [left; by apply S2|]. destruct (web_enabled (acars_cfg o)) eqn:Ew; [right; rewrite <- (S4 eq_refl); by apply I2|].
    exfalso. destruct (no_position items st1 m Ew). by rewrite Et.
Qed.

Lemma newest_elem {A} N (g : web_op -> option A) ops x : x ∈ newest N (omap g ops) -> exists op, op ∈ ops /\ g op = Some x.
Proof.
  unfold newest. intros (i & Hx%list_elem_of_lookup_2 & _)%elem_of_take. rewrite list_elem_of_In, <- in_rev, <- list_elem_of_In in Hx. by apply list_elem_of_omap in Hx.
Qed.

Lemma web_ops_elem op evs : op ∈ flat_map web_ops evs -> exists ev, ev ∈ evs /\ op ∈ web_ops ev.
Proof. rewrite list_elem_of_In, in_flat_map. intros (ev & H1 & H2). exists ev. by rewrite !list_elem_of_In. Qed.
End station.

(** The map's message list has the fields of a transmitted ACARS message that was
    carried by the messages [carried]: 15 characters of the registration, 7 of
    the flight, the label and 255 of the text. *)
Definition message_shown (carried : ida_message -> Prop) (am : acars_msg) : Prop :=
  exists p ms hdr body a, delivered (omap frag_of ms) p /\ Forall carried ms /\
    p_data p = tx_acars hdr body /\ Forall ascii7 body /\ reads (p_ul p) body a /\
    am = AcarsMsg (take 15 (registration a)) (take 7 (at_flight a)) (take 3 (shown_label 100 a)) (cstr (take 255 (at_text a))) (p_ul p) (p_timestamp p).

Lemma skip_registration a : skip_dots (registration a) = registration a.
Proof.
  unfold registration, strip_dots. pose proof (span_next (fun c => c =? 46) (at_addr a) eq_refl) as H.
  destruct (snd (span _ (at_addr a))) as [|c l]; [done|]. change (deref (c :: l)) with c in H. cbn [cstr].
  destruct (c =? 0); [done|]. apply Z.eqb_neq in H. destruct c as [|p|p]; try done. repeat (destruct p as [p|p|]; try done).
Qed.

Lemma length_cstr l : (List.length (cstr l) <= List.length l)%nat.
Proof. induction l as [|c l IH]; cbn; [done|]. destruct (c =? 0); cbn; lia. Qed.

Lemma right_message {D : Type} `{WaypointSource D} atan2 (d : D) tbl items carried op reg flight label text ul ts am :
  op = OpMessage reg flight label text ul ts -> msg_entry op = Some am ->
  acars_right atan2 d tbl items carried (WebMessage reg flight label text ul ts) -> message_shown carried am.
Proof.
  intros -> E (p & ms & Hp & Hms & [[pre ?]|(hdr & body & a & H1 & H2 & H3 & H4)]); [done|].
  destruct H4 as (-> & -> & -> & Et & -> & ->). exists p, ms, hdr, body, a. split_and!; try done.
  rewrite <- Et. destruct text as [|c text]; [done|]. unfold msg_entry in E. apply (inj Some) in E as <-. rewrite skip_registration. f_equal.
  apply take_ge. rewrite Et. etransitivity; [apply length_cstr|]. rewrite length_take. unfold ACARS_TEXT_MAX. lia.
Qed.

(** ** Concrete input for the witness *)

Definition demo_station : options := Options false true false 0 (acars_cfg demo_options).

(** * Properties *)

(** What the station shows was received.  Over any run the
    state of the map is well formed; every terminal position on it is the one in
    a message that is the contents of a complete chain of received fragments;
    every GSMTAP datagram is the packet of such a message; and every message in
    the ACARS list has the fields of a transmitted ACARS message carried by such
    messages. *)
Theorem station_shows_received sin cos atan2 log10f {D : Type} `{WaypointSource D} (o : options) (d : D) (tbl : tables) items :
  Forall (item_ok ∘ snd) items ->
  let w := station_map sin cos atan2 o d tbl items in
  web_ok w /\
  (forall p, p ∈ recent MAX_MT_POINTS (w_mt w) -> exists m, chain_of items m /\
     mt_entry atan2 (OpMtMessage (m_data m) (m_timestamp m) (m_frequency m) (m_direction m)) = Some p) /\
  (forall pkt, pkt ∈ station_datagrams atan2 log10f o d tbl items -> exists m, chain_of items m /\ gsmtap_ida_cb log10f true m = Some pkt) /\
  (acars_enabled (acars_cfg o) = true -> forall am, am ∈ recent MAX_ACARS_MSGS (w_acars w) ->
     message_shown (chain_of items) am).
Proof.
  intros Hi w. destruct (run_logs sin cos atan2 (flat_map web_ops (station_events atan2 o d tbl items))) as (_ & _ & L3 & L4).
  destruct (output_thread_messages atan2 o d tbl items receiver_init) as [M1 M2]. cbn [ida_ctx mtpos_ida_ctx receiver_init] in M1, M2.
  split; [apply run_ok|]. split; [|split].
  - intros p. unfold w, station_map. rewrite L3. intros (op & Hop & E)%newest_elem. apply web_ops_elem in Hop as (ev & Hev & Hop).
    destruct ev as [ | | | |[]|m]; cbn [web_ops] in Hop; (apply list_elem_of_singleton in Hop as -> || by apply elem_of_nil in Hop); try done.
    exists m. split; [|done]. by apply assembled_chain, M2.
  - intros pkt (ev & Hev & E)%list_elem_of_omap. destruct ev as [ | | |m| |]; try done. exists m. split; [|done]. by apply assembled_chain, M1.
  - intros Ha am. unfold w, station_map. rewrite L4. intros (op & Hop & E)%newest_elem. apply web_ops_elem in Hop as (ev & Hev & Hop).
    destruct ev as [ | | | |[]| ]; cbn [web_ops] in Hop; (apply list_elem_of_singleton in Hop as -> || by apply elem_of_nil in Hop); try done.
    eapply right_message; [done|exact E|]. apply (acars_from_chains atan2 o d tbl items); [done..|].
    apply list_elem_of_omap. by eexists.
Qed.

Lemma station_shows_received_witness :
  let w := station_map id id (fun y x => y) demo_station demo_db frame_decode_init demo_items in
  List.length (station_datagrams (fun y x => y) id demo_station demo_db frame_decode_init demo_items) = 1%nat /\ web_ok w /\
  forall pkt, pkt ∈ station_datagrams (fun y x => y) id demo_station demo_db frame_decode_init demo_items ->
    exists m, chain_of demo_items m /\ gsmtap_ida_cb id true m = Some pkt.
Proof.
  split; [vm_compute; reflexivity|].
  destruct (station_shows_received id id (fun y x => y) id demo_station demo_db frame_decode_init demo_items) as (H1 & _ & H3 & _); [eval_dec|].
  split; [exact H1|exact H3].
Defined.
