(* ===== verification/Program.v ===== *)
(** The program on a recording, from the bytes of the file to the map and the
    GSMTAP socket: the chain of [Capture.v], the consumer thread of [Receiver.v]
    on every demodulated frame, and the outputs of [Station.v].

    What the program meets while it handles a frame is an argument ([world]): the
    garbage on the stack of the decoder, whether the output queue has room, and
    the clock. *)
From S2P Require Import Prelude CFloat CRound CCanon CComplex QpskDemod Demod DemodSpec Kernels Simd BurstDownmix Vita49 BurstDetect Capture.
From S2P Require Import FrameDecode IdaDecode IdaReassemble Sbd BeamCache WaypointDb AcarsPos Acars AcarsShown Receiver CTable WebMap Gsmtap Station.
#[local] Open Scope Z_scope.

(** The options the demodulator sees: [use_chase] is one variable. *)
Definition demod_view (o : options) (use_gardner : bool) (save_bursts_dir : option (list Z)) : demod_options :=
  DemodOptions use_gardner (negb (Receiver.use_chase o =? 0)%nat) save_bursts_dir.

(** [frame_consumer_thread] on the frames in order: the items the output thread
    finds in its queue, with the clock it reads. *)
Fixpoint consumed (o : options) (world : nat -> stack_junk * bool * env) (i : nat) (frames : list demod_frame) : list (env * output_item) :=
  match frames with
  | [] => []
  | f :: rest =>
      let '(stk, room, e) := world i in
      match snd (frame_consumer o ida_decode_init stk room f) with
      | Some it => (e, it) :: consumed o world (S i) rest
      | None => consumed o world (S i) rest
      end
  end.

(** The burst [b] was decoded from the frame [f]. *)
Definition decoded_from (o : options) (f : demod_frame) (b : ida_burst) : Prop :=
  exists stk, ida_decode ida_decode_init (Receiver.use_chase o) stk f = Some b.

Lemma consumed_ok o world frames i : Forall (fun f => 0 <= df_timestamp f /\ df_timestamp f + SBD_TIMEOUT_NS < 2 ^ 64) frames ->
  Forall (item_ok ∘ snd) (consumed o world i frames).
Proof.
  intros H. revert i. induction H as [|f frames [H0 H1] _ IH]; intros i; cbn [consumed]; [constructor|]. destruct (world i) as [[stk room] e].
  destruct (snd (frame_consumer o ida_decode_init stk room f)) as [it|] eqn:E; [|done]. constructor; [|done]. by eapply consumer_item_ok.
Qed.

(** The bursts received are decoded from the frames, in order. *)
Lemma consumed_decoded o world frames i : exists sel, sel `sublist_of` frames /\ Forall2 (decoded_from o) sel (received (consumed o world i frames)).
Proof.
  revert i. induction frames as [|f frames IH]; intros i; [by exists []|]. cbn [consumed]. destruct (world i) as [[stk room] e], (IH (S i)) as (sel & Hs & Hf).
  assert (exists sel, sel `sublist_of` f :: frames /\ Forall2 (decoded_from o) sel (received (consumed o world (S i) frames))) as Hskip
    by (exists sel; split; [by constructor|done]).
  destruct (snd (frame_consumer o ida_decode_init stk room f)) as [it|] eqn:E; [|done].
  unfold received in *. cbn [omap list_omap compose snd]. destruct (it_burst it) as [b|] eqn:Eb; [|done].
  exists (f :: sel). split; [by constructor|]. constructor; [|done]. exists stk. revert E. unfold frame_consumer. cbn [snd].
  destruct (_ && room); [|done]. intros [= <-]. cbn [it_burst] in Eb. by destruct (_ || _ || _ || _).
Qed.

(** A message is carried by frames when it is the contents of a complete chain of
    bursts decoded from some of them, in their order. *)
Definition carried_by (o : options) (frames : list demod_frame) (m : ida_message) : Prop :=
  exists first last bs sel, chain first last bs /\ ib_cont last = 0 /\ message_for first last bs m /\
    sel `sublist_of` frames /\ Forall2 (decoded_from o) sel bs.

Lemma Forall2_sublist_r {A B} (P : A -> B -> Prop) l k k' : Forall2 P l k -> k' `sublist_of` k -> exists l', l' `sublist_of` l /\ Forall2 P l' k'.
Proof.
  intros H Hs. revert l H. induction Hs as [|y k1 k2 _ IH|y k1 k2 _ IH]; intros l H.
  - exists []. split; [apply sublist_nil_l|constructor].
  - apply Forall2_cons_inv_r in H as (x & l0 & Hx & Hl & ->). destruct (IH _ Hl) as (l' & Hl1 & Hl2).
    exists (x :: l'). split; by constructor.
  - apply Forall2_cons_inv_r in H as (x & l0 & Hx & Hl & ->). destruct (IH _ Hl) as (l' & Hl1 & Hl2).
    exists l'. split; [by constructor|done].
Qed.

Lemma chain_carried o world frames m : chain_of (consumed o world 0 frames) m -> carried_by o frames m.
Proof.
  intros (f & l & bs & Hs & Hc & H0 & Hm). destruct (consumed_decoded o world frames 0) as (sel & Hsel & Hd).
  destruct (Forall2_sublist_r _ _ _ _ Hd Hs) as (sel' & Hs' & Hd'). exists f, l, bs, sel'. split; [done|]. split; [done|]. split; [done|]. split; [by etransitivity|done].
Qed.

(** * The whole run *)

Section run.
Context (K : kernels) (fft_forward fft_backward : list c32 -> list c32) (window : list f32).
Context (sinf cosf log10f : f32 -> f32) (atan2f hypotf : f32 -> f32 -> f32) (cexpf : c32 -> c32).
Context (sin cos : f64 -> f64) (atan2 : f64 -> f64 -> f64) {D : Type} `{WaypointSource D}.
Context (c : burst_config) (center_frequency : f64) (start_time_ns : Z) (o : options) (gardner : bool) (save_dir : option (list Z)) (d : D).
Context (junk : list c32) (world : nat -> stack_junk * bool * env).

(** The demodulated frames, the map and the datagrams of a run on a file. *)
Definition run_recording (f : iq_format_t) (file : list Z) : option (list demod_frame * web_state * list (list Z)) :=
  frames ← receive_file K fft_forward fft_backward window sinf cosf log10f atan2f hypotf cexpf c center_frequency start_time_ns
             (demod_view o gardner save_dir) junk f file;
  let items := consumed o world 0 frames in
  Some (frames, station_map sin cos atan2 o d frame_decode_init items, station_datagrams atan2 log10f o d frame_decode_init items).
End run.

(** What is shown was received in the frames: every terminal position on the map,
    every GSMTAP datagram and every message of the ACARS list is that of messages
    carried by frames. *)
Definition shows_received (atan2 : f64 -> f64 -> f64) (log10f : f32 -> f32) (o : options) (frames : list demod_frame)
    (w : web_state) (datagrams : list (list Z)) : Prop :=
  (forall p, p ∈ recent MAX_MT_POINTS (w_mt w) -> exists m, carried_by o frames m /\
     mt_entry atan2 (OpMtMessage (m_data m) (m_timestamp m) (m_frequency m) (m_direction m)) = Some p) /\
  (forall pkt, pkt ∈ datagrams -> exists m, carried_by o frames m /\ gsmtap_ida_cb log10f true m = Some pkt) /\
  (acars_enabled (acars_cfg o) = true -> forall am, am ∈ recent MAX_ACARS_MSGS (w_acars w) -> message_shown (carried_by o frames) am).

Lemma message_shown_impl (P Q : ida_message -> Prop) am : (forall m, P m -> Q m) -> message_shown P am -> message_shown Q am.
Proof. intros H (p & ms & hdr & body & a & H1 & H2 & Hr). exists p, ms, hdr, body, a. split; [done|]. split; [by eapply Forall_impl|done]. Qed.

(** * Properties *)


