(* ===== verification/Shutdown.v ===== *)
(** The threads of the program on a recording as a transition system, and how
    [main] of [src/main.c] stops them.

    The reader, the detector, the downmix workers, the consumer and the output
    thread pass elements through four bounded queues.  At the end of the file or
    on a signal [main] closes the queues one after the other, each when the
    threads before it have ended and, except for the samples, when it is empty.
    A call on a queue is one step ([BlockingQueue.v]): a closed queue refuses both
    ends at once, even when it holds elements.  What the threads do with an
    element is a parameter.

    A state holds, besides the threads and the queues, the history of what was
    taken, dropped and shown.  [main] is the only thread that closes queues, so
    which queues are closed is read off its position.  The statistics thread takes
    no part; what [main] frees after the last join is left out. *)
From S2P Require Import Prelude.

(** * Worker pools *)

Inductive worker (A : Type) := Idle | Busy (a : A) | Gone.
Arguments Idle {A}.
Arguments Busy {A}.
Arguments Gone {A}.

(** The threads that take from a queue, with the history: the elements taken, in
    order, and the results the next queue refused. *)
Record pool (A B : Type) := Pool { p_queue : list A; p_workers : list (worker A); p_taken : list A; p_drops : list B }.
Arguments Pool {A B}.
Arguments p_queue {A B}.
Arguments p_workers {A B}.
Arguments p_taken {A B}.
Arguments p_drops {A B}.

Definition has_ended {A} (w : worker A) : bool := match w with Gone => true | _ => false end.
Definition held {A} (w : worker A) : option A := match w with Busy a => Some a | _ => None end.

Section pool.
Context {A B : Type} (proc : A -> option B).

Definition pool_init (n : nat) : pool A B := Pool [] (replicate n Idle) [] [].
Definition put_in (x : A) (p : pool A B) : pool A B := Pool (p_queue p ++ [x]) (p_workers p) (p_taken p) (p_drops p).

(** One step of worker [i]: [blocking_queue_take] on its queue, or the end of its
    work with [blocking_queue_add] on the next one; the result that goes there. *)
Definition pool_step (closed room : bool) (i : nat) (p : pool A B) : option (pool A B * option B) :=
  let set w := <[i := w]> (p_workers p) in
  match p_workers p !! i with
  | Some Idle =>
      if closed then Some (Pool (p_queue p) (set Gone) (p_taken p) (p_drops p), None)
      else match p_queue p with
           | [] => None
           | a :: q => Some (Pool q (set (Busy a)) (p_taken p ++ [a]) (p_drops p), None)
           end
  | Some (Busy a) =>
      match proc a with
      | None => Some (Pool (p_queue p) (set Idle) (p_taken p) (p_drops p), None)
      | Some b => if room then Some (Pool (p_queue p) (set Idle) (p_taken p) (p_drops p), Some b)
                  else Some (Pool (p_queue p) (set Idle) (p_taken p) (p_drops p ++ [b]), None)
      end
  | _ => None
  end.

Definition all_gone (p : pool A B) : bool := forallb has_ended (p_workers p).

(** ** Accounting *)

(** Every result of an element taken was sent on, dropped, or is still held. *)
Definition accounted (sent : list B) (p : pool A B) : Prop :=
  omap proc (p_taken p) ≡ₚ sent ++ p_drops p ++ omap proc (omap held (p_workers p)).

Lemma omap_insert {C E} (f : C -> option E) l i x y : l !! i = Some x -> f x = None -> omap f (<[i := y]> l) ≡ₚ option_list (f y) ++ omap f l.
Proof.
  intros Hi Hx. pose proof (lookup_lt_Some _ _ _ Hi). rewrite insert_take_drop by done.
  assert (omap f l = omap f (take i l) ++ omap f (drop (S i) l)) as ->.
  { rewrite <- (take_drop_middle l i x Hi) at 1. rewrite omap_app. cbn [omap list_omap]. by rewrite Hx. }
  rewrite omap_app. cbn [omap list_omap]. destruct (f y) as [e|]; [|done]. symmetry. exact (Permutation_middle (omap f (take i l)) (omap f (drop (S i) l)) e).
Qed.

Lemma omap_insert_none {C E} (f : C -> option E) l i x y : l !! i = Some x -> f y = None -> omap f l ≡ₚ option_list (f x) ++ omap f (<[i := y]> l).
Proof.
  intros Hi Hy. rewrite <- (omap_insert f (<[i := y]> l) i y x); [|apply list_lookup_insert_eq; by eapply lookup_lt_Some|done].
  by rewrite list_insert_insert_eq, list_insert_id.
Qed.

Lemma accounted_step sent closed room i p p' o : pool_step closed room i p = Some (p', o) -> accounted sent p -> accounted (sent ++ option_list o) p'.
Proof.
  unfold pool_step, accounted. destruct (p_workers p !! i) as [[|a|]|] eqn:Ei; [..|done].
  - destruct closed; [|destruct (p_queue p) as [|a q]; [done|]]; intros [= <- <-] Ha; cbn [p_taken p_drops p_workers option_list]; rewrite app_nil_r.
    + rewrite Ha. by rewrite (omap_insert_none held _ i Idle Gone Ei eq_refl).
    + rewrite omap_app, Ha. rewrite <- !app_assoc. rewrite (omap_insert held _ i Idle (Busy a) Ei eq_refl). change (option_list (held (Busy a))) with [a].
      cbn [app omap list_omap]. destruct (proc a) as [b|]; [|by rewrite app_nil_r]. apply Permutation_app_head, Permutation_app_head. by rewrite Permutation_app_comm.
  - pose proof (omap_insert_none held _ i (Busy a) Idle Ei eq_refl) as Hh. change (option_list (held (Busy a))) with [a] in Hh. cbn [app] in Hh.
    destruct (proc a) as [b|] eqn:Ep; [destruct room|]; intros [= <- <-] Ha; cbn [p_taken p_drops p_workers option_list]; rewrite Ha, Hh; cbn [omap list_omap]; rewrite Ep.
    + change (option_list (Some b)) with [b]. rewrite <- !app_assoc. apply Permutation_app_head. cbn [app]. by rewrite Permutation_middle.
    + rewrite app_nil_r, <- !app_assoc. done.
    + by rewrite app_nil_r.
  - done.
Qed.

(** Workers end only when their queue is closed. *)
Lemma gone_step closed room i p p' o : pool_step closed room i p = Some (p', o) ->
  existsb has_ended (p_workers p') = true -> closed = true \/ existsb has_ended (p_workers p) = true.
Proof.
  unfold pool_step. intros Hs. rewrite existsb_exists. intros (w & Hw & Hg).
  enough (closed = true \/ In w (p_workers p)) as [?|H] by (by left) || (right; apply existsb_exists; by exists w).
  apply list_elem_of_In, list_elem_of_lookup in Hw as (j & Hj).
  destruct (p_workers p !! i) as [[|a|]|] eqn:Ei; repeat case_match; simplify_eq; cbn [p_workers] in Hj; auto; right;
    apply list_lookup_insert_Some in Hj as [(-> & <- & _)|(_ & Hj)]; try done; by eapply list_elem_of_In, list_elem_of_lookup_2.
Qed.

Lemma pool_step_moves closed room i p p' o : pool_step closed room i p = Some (p', o) ->
  all_gone p = false /\ (p_queue p = [] -> p_queue p' = []) /\ (room = false -> o = None) /\ length (p_workers p') = length (p_workers p).
Proof.
  unfold pool_step. intros Hs. destruct (p_workers p !! i) as [w|] eqn:Ei; [|done].
  assert (has_ended w = false -> all_gone p = false) as Hg.
  { intros Hw. apply not_true_is_false. unfold all_gone. rewrite forallb_forall. intros H. rewrite (H w) in Hw; [done|]. by eapply list_elem_of_In, list_elem_of_lookup_2. }
  destruct w as [|a|]; repeat case_match; simplify_eq; cbn [p_queue p_workers]; rewrite ?length_insert; split_and!; auto; by intros.
Qed.

Definition count {C} (o : option C) : nat := match o with Some _ => 1 | None => 0 end.

(** Steps use up work: [wq] for an element in the queue, [wb] for one at work,
    [wn] for one in the next queue. *)
Definition worker_weight (wb : nat) (w : worker A) : nat := match w with Idle => 1 | Busy _ => wb | Gone => 0 end.
Definition pool_weight (wq wb : nat) (p : pool A B) : nat := (wq * length (p_queue p) + sum_list_with (worker_weight wb) (p_workers p))%nat.

Lemma sum_insert {C} (f : C -> nat) l i x y : l !! i = Some x -> (sum_list_with f (<[i := y]> l) + f x = sum_list_with f l + f y)%nat.
Proof.
  intros Hi. rewrite insert_take_drop by by eapply lookup_lt_Some. rewrite <- (take_drop_middle l i x Hi) at 3.
  rewrite !sum_list_with_app. cbn. lia.
Qed.

Lemma pool_step_weight wq wb wn closed room i p p' o : (wb < wq + 1)%nat -> (wn + 1 < wb)%nat -> pool_step closed room i p = Some (p', o) ->
  (pool_weight wq wb p' + wn * count o < pool_weight wq wb p)%nat.
Proof.
  intros H1 H2. unfold pool_step, pool_weight. destruct (p_workers p !! i) as [w|] eqn:Ei; [|done].
  pose proof (fun y => sum_insert (worker_weight wb) _ i w y Ei) as Hs. destruct w as [|a|]; [| |done].
  - destruct closed; [|destruct (p_queue p) as [|a q]; [done|]]; intros [= <- <-]; cbn [p_queue p_workers count length].
    + specialize (Hs Gone). cbn [worker_weight] in Hs. lia.
    + specialize (Hs (Busy a)). cbn [worker_weight] in Hs. lia.
  - specialize (Hs Idle). cbn [worker_weight] in Hs. repeat case_match; intros; simplify_eq; cbn [p_queue p_workers count length]; lia.
Qed.

(** Blocked workers have ended or find an open, empty queue. *)
Lemma pool_blocked closed room p : (forall i, pool_step closed room i p = None) -> all_gone p = true \/ (closed = false /\ p_queue p = []).
Proof.
  intros H. destruct (all_gone p) eqn:Eg; [by left|right]. unfold all_gone in Eg.
  assert (exists i w, p_workers p !! i = Some w /\ has_ended w = false) as (i & w & Hi & Hw).
  { clear H. induction (p_workers p) as [|w l IH]; [done|]. cbn in Eg. destruct (has_ended w) eqn:Ew.
    - destruct (IH Eg) as (i & v & Hi & Hv). by exists (S i), v.
    - by exists 0%nat, w. }
  specialize (H i). unfold pool_step in H. rewrite Hi in H. destruct w; repeat case_match; simplify_eq; done.
Qed.

Lemma some_gone p : (0 < length (p_workers p))%nat -> all_gone p = true -> existsb has_ended (p_workers p) = true.
Proof. unfold all_gone. destruct (p_workers p) as [|[] l]; cbn; done || lia. Qed.

Lemma all_gone_held p : all_gone p = true -> omap held (p_workers p) = [].
Proof. unfold all_gone. induction (p_workers p) as [|[] l IH]; cbn; [done| |done|]; done || apply IH. Qed.
End pool.

(** * The system *)

(** The reader: the loop over the file, the wait for the queue to drain, the
    signal to [main], the end. *)
Inductive reader_pc := RRead | RDrain | RKill | RDone.

(** [main]: the test of [running], the way to [pause], the pause; then the
    positions of the shutdown. *)
Inductive main_pc :=
  | MCheck | MAbout | MPaused | MStop
  | MJoinReader | MJoinDet
  | MDrainBursts | MCloseBursts | MJoinMix
  | MDrainFrames | MCloseFrames | MJoinCons
  | MDrainItems | MCloseItems | MJoinOut
  | MDone.

Definition main_phase (m : main_pc) : nat :=
  match m with
  | MCheck | MAbout | MPaused | MStop => 0
  | MJoinReader => 1 | MJoinDet => 2
  | MDrainBursts => 3 | MCloseBursts => 4 | MJoinMix => 5
  | MDrainFrames => 6 | MCloseFrames => 7 | MJoinCons => 8
  | MDrainItems => 9 | MCloseItems => 10 | MJoinOut => 11
  | MDone => 12
  end.
Definition samples_closed (m : main_pc) : bool := (1 <=? main_phase m)%nat.
Definition bursts_closed (m : main_pc) : bool := (5 <=? main_phase m)%nat.
Definition frames_closed (m : main_pc) : bool := (8 <=? main_phase m)%nat.
Definition items_closed (m : main_pc) : bool := (11 <=? main_phase m)%nat.

Inductive detector_pc (B : Type) := DIdle | DEmit (l : list B) | DGone.
Arguments DIdle {B}.
Arguments DEmit {B}.
Arguments DGone {B}.

Section system.
Context {Buf Burst Frame Item D : Type}.
(** What the detector, a downmix worker and the consumer make of an element. *)
Context (feed : D -> Buf -> D * list Burst) (downmix : Burst -> option Frame) (consume : Frame -> option Item).
Context (SAMPLES_QUEUE_SIZE BURST_QUEUE_SIZE FRAME_QUEUE_SIZE OUTPUT_QUEUE_SIZE num_downmix_workers : nat).

Record state := State {
  pc : main_pc;
  running : bool;
  interrupted : bool;          (* the user has sent a signal *)
  reader : reader_pc;
  unread : list Buf;
  samples : list Buf;
  fed : list Buf;              (* taken by the detector *)
  det_state : D;
  det : detector_pc Burst;
  det_drops : list Burst;
  mix : pool Burst Frame;
  cons : pool Frame Item;
  out : pool Item Item;
  shown : list Item;           (* handled by the output thread *)
}.

Definition init (d0 : D) (file : list Buf) : state :=
  State MCheck true false RRead file [] [] d0 DIdle [] (pool_init num_downmix_workers) (pool_init 1) (pool_init 1) [].

Definition with_main (s : state) (m : main_pc) : state :=
  State m (running s) (interrupted s) (reader s) (unread s) (samples s) (fed s) (det_state s) (det s) (det_drops s) (mix s) (cons s) (out s) (shown s).
Definition with_reader (s : state) (r : reader_pc) (run : bool) (m : main_pc) (u q : list Buf) : state :=
  State m run (interrupted s) r u q (fed s) (det_state s) (det s) (det_drops s) (mix s) (cons s) (out s) (shown s).

(** The handler of the signal, which ends a pause. *)
Definition signalled (m : main_pc) : main_pc := match m with MPaused => MCheck | _ => m end.

(** [spewer_thread]. *)
Definition reader_step (s : state) : option state :=
  let stay r := Some (with_reader s r (running s) (pc s) (unread s) (samples s)) in
  match reader s with
  | RRead =>
      if negb (running s) then stay RDrain
      else match unread s with
           | [] => stay RDrain
           | b :: u =>
               if samples_closed (pc s) then stay RDrain
               else if (length (samples s) <? SAMPLES_QUEUE_SIZE)%nat then Some (with_reader s RRead (running s) (pc s) u (samples s ++ [b]))
               else None
           end
  | RDrain => if running s && negb (length (samples s) =? 0)%nat then None else Some (with_reader s RKill false (pc s) (unread s) (samples s))
  | RKill => Some (with_reader s RDone false (signalled (pc s)) (unread s) (samples s))
  | RDone => None
  end.

Definition main_step (s : state) : option state :=
  let go m := Some (with_main s m) in
  let wait (b : bool) m := if b then go m else None in
  match pc s with
  | MCheck => go (if running s then MAbout else MStop)
  | MAbout => go MPaused
  | MPaused => None
  | MStop => go MJoinReader
  | MJoinReader => wait (match reader s with RDone => true | _ => false end) MJoinDet
  | MJoinDet => wait (match det s with DGone => true | _ => false end) MDrainBursts
  | MDrainBursts => wait (length (p_queue (mix s)) =? 0)%nat MCloseBursts
  | MCloseBursts => go MJoinMix
  | MJoinMix => wait (all_gone (mix s)) MDrainFrames
  | MDrainFrames => wait (length (p_queue (cons s)) =? 0)%nat MCloseFrames
  | MCloseFrames => go MJoinCons
  | MJoinCons => wait (all_gone (cons s)) MDrainItems
  | MDrainItems => wait (length (p_queue (out s)) =? 0)%nat MCloseItems
  | MCloseItems => go MJoinOut
  | MJoinOut => wait (all_gone (out s)) MDone
  | MDone => None
  end.

(** [burst_detector_thread]; the bursts of a buffer go to the queue one by one,
    with [blocking_queue_put]. *)
Definition detector_step (s : state) : option state :=
  let upd q f ds dp dd m := Some (State (pc s) (running s) (interrupted s) (reader s) (unread s) q f ds dp dd m (cons s) (out s) (shown s)) in
  match det s with
  | DIdle =>
      if samples_closed (pc s) then upd (samples s) (fed s) (det_state s) DGone (det_drops s) (mix s)
      else match samples s with
           | [] => None
           | b :: q => let '(ds, l) := feed (det_state s) b in upd q (fed s ++ [b]) ds (DEmit l) (det_drops s) (mix s)
           end
  | DEmit [] => upd (samples s) (fed s) (det_state s) DIdle (det_drops s) (mix s)
  | DEmit (x :: l) =>
      if bursts_closed (pc s) then upd (samples s) (fed s) (det_state s) (DEmit l) (det_drops s ++ [x]) (mix s)
      else if (length (p_queue (mix s)) <? BURST_QUEUE_SIZE)%nat then upd (samples s) (fed s) (det_state s) (DEmit l) (det_drops s) (put_in x (mix s))
      else None
  | DGone => None
  end.

Definition with_pools (s : state) (m : pool Burst Frame) (c : pool Frame Item) (o : pool Item Item) (sh : list Item) : state :=
  State (pc s) (running s) (interrupted s) (reader s) (unread s) (samples s) (fed s) (det_state s) (det s) (det_drops s) m c o sh.
Definition push_opt {A B} (x : option A) (p : pool A B) : pool A B := match x with Some x => put_in x p | None => p end.

(** A result is refused when the next queue is full or closed. *)
Definition room_for {A B} (closed : bool) (size : nat) (p : pool A B) : bool := negb closed && (length (p_queue p) <? size)%nat.
Definition mix_step (i : nat) (s : state) : option state :=
  '(m, o) ← pool_step downmix (bursts_closed (pc s)) (room_for (frames_closed (pc s)) FRAME_QUEUE_SIZE (cons s)) i (mix s);
  Some (with_pools s m (push_opt o (cons s)) (out s) (shown s)).
Definition cons_step (s : state) : option state :=
  '(c, o) ← pool_step consume (frames_closed (pc s)) (room_for (items_closed (pc s)) OUTPUT_QUEUE_SIZE (out s)) 0 (cons s);
  Some (with_pools s (mix s) c (push_opt o (out s)) (shown s)).
Definition out_step (s : state) : option state :=
  '(p, o) ← pool_step Some (items_closed (pc s)) true 0 (out s);
  Some (with_pools s (mix s) (cons s) p (shown s ++ option_list o)).

(** A signal of the user. *)
Definition interrupt (s : state) : state :=
  State (signalled (pc s)) false true (reader s) (unread s) (samples s) (fed s) (det_state s) (det s) (det_drops s) (mix s) (cons s) (out s) (shown s).

Inductive thread := TReader | TMain | TDetector | TMix (i : nat) | TCons | TOut.
Definition thread_step (t : thread) (s : state) : option state :=
  match t with
  | TReader => reader_step s
  | TMain => main_step s
  | TDetector => detector_step s
  | TMix i => mix_step i s
  | TCons => cons_step s
  | TOut => out_step s
  end.

(** The states of a run on [file], with signals at any time. *)
Inductive program_reaches (d0 : D) (file : list Buf) : state -> Prop :=
  | reach_init : program_reaches d0 file (init d0 file)
  | reach_step t s s' : program_reaches d0 file s -> thread_step t s = Some s' -> program_reaches d0 file s'
  | reach_interrupt s : program_reaches d0 file s -> program_reaches d0 file (interrupt s).

(** * Control *)

Definition drained (s : state) : Prop := unread s = [] /\ samples s = [].

(** Where the threads are when [main] has come to a position. *)
Definition control (s : state) : Prop :=
  let n := main_phase (pc s) in
  ((1 <= n)%nat \/ pc s = MStop -> running s = false) /\
  (reader s = RKill \/ reader s = RDone -> running s = false) /\
  (reader s = RDrain -> running s = true -> unread s = []) /\
  (interrupted s = false -> running s = false -> drained s) /\
  ((2 <= n)%nat -> reader s = RDone) /\
  ((3 <= n)%nat -> det s = DGone) /\
  ((4 <= n)%nat -> p_queue (mix s) = []) /\
  ((6 <= n)%nat -> all_gone (mix s) = true) /\
  ((7 <= n)%nat -> p_queue (cons s) = []) /\
  ((9 <= n)%nat -> all_gone (cons s) = true) /\
  ((10 <= n)%nat -> p_queue (out s) = []) /\
  ((12 <= n)%nat -> all_gone (out s) = true) /\
  (det s = DGone -> (1 <= n)%nat) /\
  (existsb has_ended (p_workers (mix s)) = true -> (5 <= n)%nat) /\
  (existsb has_ended (p_workers (cons s)) = true -> (8 <= n)%nat) /\
  (existsb has_ended (p_workers (out s)) = true -> (11 <= n)%nat).

(** The step of a pool inside the step of its thread. *)
Ltac pool_case Hs m o E :=
  match type of Hs with context [pool_step ?f ?c ?r ?i ?p] => destruct (pool_step f c r i p) as [[m o]|] eqn:E; [|done] end;
  cbn [mbind option_bind] in Hs; simplify_eq.

Lemma init_control d0 file : (0 < num_downmix_workers)%nat -> control (init d0 file).
Proof.
  intros Hn. unfold control, init. cbn [pc main_phase running interrupted reader det mix cons out pool_init p_workers p_queue].
  assert (forall k, existsb has_ended (replicate k (@Idle Burst)) = false) as Hg by (induction k; done).
  split_and!; try lia; try (intros []; congruence || lia); try done. by rewrite Hg.
Qed.

Lemma interrupt_control s : control s -> control (interrupt s).
Proof.
  intros (C1 & C2 & C0 & C3 & C4 & C5 & C6 & C7 & C8 & C9 & C10 & C11 & C12 & C13 & C14 & C15).
  assert (main_phase (signalled (pc s)) = main_phase (pc s)) as Hp by by destruct (pc s).
  unfold control, interrupt, drained in *. cbn [pc running interrupted reader unread samples det mix cons out]. rewrite Hp. split_and!; done.
Qed.

Ltac split_control := intros (C1 & C2 & C0 & C3 & C4 & C5 & C6 & C7 & C8 & C9 & C10 & C11 & C12 & C13 & C14 & C15).

Lemma reader_control s s' : reader_step s = Some s' -> control s -> control s'.
Proof.
  unfold reader_step. intros Hs. split_control. assert (main_phase (signalled (pc s)) = main_phase (pc s)) as Hp by by destruct (pc s).
  assert (pc s <> MStop -> signalled (pc s) <> MStop) as Hw by by destruct (pc s).
  unfold control, drained, with_reader in *. destruct (reader s) eqn:Er; repeat case_match; simplify_eq; cbn [pc running interrupted reader unread samples det mix cons out]; rewrite ?Hp;
    split_and!; try done; try (intros; by apply C3); try (intros [|]; done); try (by intros ?%C4).
  - intros _ Hr. by rewrite Hr in *.
  - intros _ Hr. unfold samples_closed in *. rewrite C1 in Hr; [done|]. left. by apply Nat.leb_le.
  - intros _ Hr. by rewrite Hr in *.
  - intros Hi _. destruct (running s) eqn:Hr; [|by apply C3]. split; [by apply C0|]. destruct (samples s); done.
  - intros Hi _. apply C3; [done|]. apply C2. by left.
Qed.

Lemma main_control s s' : main_step s = Some s' -> control s -> control s'.
Proof.
  unfold main_step. intros Hs. split_control. unfold control, with_main, drained in *.
  destruct (pc s) eqn:Ep; cbn [main_phase] in *; repeat case_match; simplify_eq; cbn [pc main_phase running interrupted reader unread samples det mix cons out];
    split_and!; try done; try lia; try (intros []; done || lia); auto; intros;
    try (by apply C4; lia); try (by apply C5; lia); try (by apply C6; lia); try (by apply C7; lia); try (by apply C8; lia); try (by apply C9; lia); try (by apply C10; lia);
    try (by apply C1; auto; lia); try (by apply nil_length_inv, Nat.eqb_eq);
    try (assert (1 <= 0)%nat by (by apply C12)); try (assert (5 <= 0)%nat by (by apply C13)); try lia.
Qed.

Lemma detector_control s s' : detector_step s = Some s' -> control s -> control s'.
Proof.
  unfold detector_step. intros Hs. split_control. unfold control, drained, samples_closed in *.
  assert (det s <> DGone) as Hd by (intros E; by rewrite E in Hs). assert (main_phase (pc s) < 3)%nat as Hn by (apply Nat.nle_gt; intros H; by apply Hd, C5).
  repeat case_match; simplify_eq; cbn [pc main_phase running interrupted reader unread samples det mix cons out put_in p_queue p_workers];
    split_and!; try done; try lia; try (intros _; by apply Nat.leb_le); intros Hi Hr; destruct (C3 Hi Hr); done.
Qed.

Lemma mix_control i s s' : mix_step i s = Some s' -> control s -> control s'.
Proof.
  unfold mix_step. intros Hs. split_control. pool_case Hs m o E.
  destruct (pool_step_moves _ _ _ _ _ _ _ E) as (Hg & Hq & _). pose proof (gone_step _ _ _ _ _ _ _ E) as Hgone.
  assert (main_phase (pc s) < 6)%nat as Hn by (apply Nat.nle_gt; intros H; rewrite C7 in Hg; done).
  unfold control, drained, with_pools in *. cbn [pc main_phase running interrupted reader unread samples det mix cons out].
  assert (p_workers (push_opt o (cons s)) = p_workers (cons s)) as -> by by destruct o.
  split_and!; try done; try lia; auto. intros H. destruct (Hgone H) as [Hc|?]; [|auto]. by apply Nat.leb_le in Hc.
Qed.

Lemma cons_control s s' : cons_step s = Some s' -> control s -> control s'.
Proof.
  unfold cons_step. intros Hs. split_control. pool_case Hs m o E.
  destruct (pool_step_moves _ _ _ _ _ _ _ E) as (Hg & Hq & _). pose proof (gone_step _ _ _ _ _ _ _ E) as Hgone.
  assert (main_phase (pc s) < 9)%nat as Hn by (apply Nat.nle_gt; intros H; rewrite C9 in Hg; done).
  unfold control, drained, with_pools in *. cbn [pc main_phase running interrupted reader unread samples det mix cons out].
  assert (p_workers (push_opt o (out s)) = p_workers (out s)) as -> by by destruct o.
  split_and!; try done; try lia; auto. intros H. destruct (Hgone H) as [Hc|?]; [|auto]. by apply Nat.leb_le in Hc.
Qed.

Lemma out_control s s' : out_step s = Some s' -> control s -> control s'.
Proof.
  unfold out_step. intros Hs. split_control. pool_case Hs m o E.
  destruct (pool_step_moves _ _ _ _ _ _ _ E) as (Hg & Hq & _). pose proof (gone_step _ _ _ _ _ _ _ E) as Hgone.
  assert (main_phase (pc s) < 12)%nat as Hn by (apply Nat.nle_gt; intros H; rewrite C11 in Hg; done).
  unfold control, drained, with_pools in *. cbn [pc main_phase running interrupted reader unread samples det mix cons out].
  split_and!; try done; try lia; auto. intros H. destruct (Hgone H) as [Hc|?]; [|auto]. by apply Nat.leb_le in Hc.
Qed.

Lemma reachable_control d0 file s : (0 < num_downmix_workers)%nat -> program_reaches d0 file s -> control s.
Proof.
  intros Hn. induction 1 as [|[] s s' _ IH Hs|s _ IH]; [by apply init_control|..|by apply interrupt_control]; cbn [thread_step] in Hs;
    eauto using reader_control, main_control, detector_control, mix_control, cons_control, out_control.
Qed.

(** * Conservation *)

(** The detector over a list of buffers. *)
Fixpoint feeds (d : D) (l : list Buf) : D * list Burst :=
  match l with
  | [] => (d, [])
  | b :: l => let '(d, x) := feed d b in let '(d, y) := feeds d l in (d, x ++ y)
  end.
Lemma feeds_snoc d l b : feeds d (l ++ [b]) = let '(d, x) := feeds d l in let '(d, y) := feed d b in (d, x ++ y).
Proof.
  revert d. induction l as [|c l IH]; intros d; cbn [app feeds].
  - destruct (feed d b). by rewrite app_nil_r.
  - destruct (feed d c) as [d1 x]. rewrite IH. destruct (feeds d1 l) as [d2 y], (feed d2 b). by rewrite app_assoc.
Qed.

Definition pending (dp : detector_pc Burst) : list Burst := match dp with DEmit l => l | _ => [] end.
Definition arrived {A B} (p : pool A B) : list A := p_taken p ++ p_queue p.

(** Every element is in one place. *)
Definition conserved (d0 : D) (file : list Buf) (s : state) : Prop :=
  fed s ++ samples s ++ unread s = file /\
  feeds d0 (fed s) = (det_state s, arrived (mix s) ++ pending (det s)) /\ det_drops s = [] /\
  accounted downmix (arrived (cons s)) (mix s) /\
  accounted consume (arrived (out s)) (cons s) /\
  accounted Some (shown s) (out s) /\ p_drops (out s) = [].

Lemma arrived_push {A B} (x : option A) (p : pool A B) : arrived (push_opt x p) = arrived p ++ option_list x.
Proof. destruct x; unfold arrived; cbn [push_opt put_in p_taken p_queue option_list]; [by rewrite app_assoc|by rewrite app_nil_r]. Qed.
Lemma accounted_push {A B} (proc : A -> option B) sent x p : accounted proc sent p -> accounted proc sent (push_opt x p).
Proof. by destruct x. Qed.
Lemma arrived_step {A B} (proc : A -> option B) closed room i p p' o : pool_step proc closed room i p = Some (p', o) -> arrived p' = arrived p.
Proof.
  unfold pool_step, arrived. destruct (p_queue p) as [|a q] eqn:Eq; intros Hs; repeat case_match; simplify_eq; cbn [p_taken p_queue]; rewrite ?Eq; try done.
  by rewrite <- app_assoc.
Qed.

Lemma no_refusal {A B} (proc : A -> option B) closed i p p' o : pool_step proc closed true i p = Some (p', o) -> p_drops p' = p_drops p.
Proof. unfold pool_step. intros Hs. repeat case_match; by simplify_eq. Qed.

Lemma detector_conserved d0 file s s' : control s -> detector_step s = Some s' -> conserved d0 file s -> conserved d0 file s'.
Proof.
  split_control. unfold detector_step, conserved. intros Hs (F & E & G & A1 & A2 & A3 & A4). destruct (det s) as [|[|x l]|] eqn:Ed; [..|done]; cbn [pending] in *.
  - destruct (samples_closed (pc s)); [by simplify_eq|]. destruct (samples s) as [|b q]; [done|]. destruct (feed (det_state s) b) as [ds l] eqn:Ef. simplify_eq.
    cbn [fed samples unread det_state mix det det_drops cons out shown pending]. split_and!; try done; [by rewrite <- app_assoc|].
    rewrite feeds_snoc, E, Ef. by rewrite app_nil_r.
  - by simplify_eq.
  - destruct (bursts_closed (pc s)) eqn:Eb; [apply Nat.leb_le in Eb; by discriminate C5; lia|]. case_match; [|done]. simplify_eq.
    cbn [fed samples unread det_state mix det det_drops cons out shown pending]. split_and!; try done.
    rewrite E. change (put_in x (mix s)) with (push_opt (Some x) (mix s)). rewrite arrived_push, <- app_assoc. done.
Qed.

Lemma step_conserved d0 file t s s' : control s -> thread_step t s = Some s' -> conserved d0 file s -> conserved d0 file s'.
Proof.
  destruct t as [| | |i| |]; cbn [thread_step]; intros Hc Hs.
  - intros (F & H). revert Hs. unfold reader_step. repeat case_match; intros; simplify_eq; (split; [|exact H]); cbn [with_reader fed samples unread]; rewrite <- ?app_assoc; cbn [app]; congruence.
  - intros H. unfold main_step in Hs. repeat case_match; by simplify_eq.
  - by apply detector_conserved.
  - intros (F & E & G & A1 & A2 & A3 & A4). unfold mix_step in Hs. pool_case Hs m o Ep.
    unfold conserved. cbn [with_pools fed samples unread det_state mix det det_drops cons out shown]. rewrite (arrived_step _ _ _ _ _ _ _ Ep), arrived_push.
    split_and!; try done; [by eapply accounted_step|by apply accounted_push].
  - intros (F & E & G & A1 & A2 & A3 & A4). unfold cons_step in Hs. pool_case Hs m o Ep.
    unfold conserved. cbn [with_pools fed samples unread det_state mix det det_drops cons out shown]. rewrite (arrived_step _ _ _ _ _ _ _ Ep), arrived_push.
    split_and!; try done; [by eapply accounted_step|by apply accounted_push|by destruct o].
  - intros (F & E & G & A1 & A2 & A3 & A4). unfold out_step in Hs. pool_case Hs m o Ep.
    unfold conserved. cbn [with_pools fed samples unread det_state mix det det_drops cons out shown]. rewrite (arrived_step _ _ _ _ _ _ _ Ep).
    split_and!; try done; [by eapply accounted_step|]. by rewrite (no_refusal _ _ _ _ _ _ Ep).
Qed.

Lemma init_conserved d0 file : conserved d0 file (init d0 file).
Proof.
  unfold conserved, init, accounted. cbn [fed samples unread det_state mix det det_drops cons out shown pool_init p_taken p_queue p_workers p_drops arrived pending feeds app omap list_omap].
  assert (forall k, omap held (replicate k (@Idle Burst)) = []) as H by (induction k; done). rewrite H. split_and!; done.
Qed.

Lemma reachable_conserved d0 file s : (0 < num_downmix_workers)%nat -> program_reaches d0 file s -> conserved d0 file s.
Proof.
  intros Hn. induction 1 as [|t s s' Hr IH Hs|s _ IH]; [apply init_conserved| |exact IH]. eapply step_conserved; [by eapply reachable_control|done|done].
Qed.

Lemma accounted_end {A B} (proc : A -> option B) sent p : accounted proc sent p -> all_gone p = true -> omap proc (p_taken p) ≡ₚ sent ++ p_drops p.
Proof. intros H Hg. unfold accounted in H. rewrite (all_gone_held p Hg), app_nil_r in H. done. Qed.

(** * Progress *)

Definition reader_weight (r : reader_pc) : nat := match r with RRead => 7 | RDrain => 6 | RKill => 5 | RDone => 0 end.
Definition main_weight (m : main_pc) : nat :=
  match m with MCheck => 15 | MAbout => 14 | MPaused => 13 | _ => 12 - main_phase m end.
Definition detector_weight (dp : detector_pc Burst) : nat := match dp with DIdle => 1 | DEmit _ => 2 | DGone => 0 end.

(** A bound on the number of steps to come. *)
Definition work (s : state) : nat :=
  (3 * length (unread s) + 2 * length (samples s) +
   8 * (length (feeds (det_state s) (samples s ++ unread s)).2 + length (pending (det s))) + detector_weight (det s) +
   pool_weight 7 6 (mix s) + pool_weight 4 4 (cons s) + pool_weight 2 2 (out s) + reader_weight (reader s) + main_weight (pc s))%nat.

Lemma push_weight {A B} wq wb (x : option A) (p : pool A B) : pool_weight wq wb (push_opt x p) = (pool_weight wq wb p + wq * count x)%nat.
Proof. destruct x; unfold pool_weight; cbn [push_opt put_in p_queue p_workers count length]; rewrite ?length_app; cbn [length]; lia. Qed.

Lemma detector_work s s' : detector_step s = Some s' -> (work s' < work s)%nat.
Proof.
  unfold detector_step, work. destruct (det s) as [|[|x l]|] eqn:Ed; [..|done].
  - destruct (samples_closed (pc s)); [intros [= <-]; cbn; lia|]. destruct (samples s) as [|b q]; [done|]. cbn [app feeds].
    destruct (feed (det_state s) b) as [ds l] eqn:Ef. intros [= <-]. cbn [unread samples det_state det mix cons out reader pc pending detector_weight length].
    destruct (feeds ds (q ++ unread s)) as [d2 y]. cbn [snd]. rewrite length_app. lia.
  - intros [= <-]. cbn. lia.
  - repeat case_match; intros; simplify_eq; cbn [unread samples det_state det mix cons out reader pc pending detector_weight length]; [lia|].
    change (put_in x (mix s)) with (push_opt (Some x) (mix s)). rewrite push_weight. cbn. lia.
Qed.

Lemma step_work t s s' : thread_step t s = Some s' -> (work s' < work s)%nat.
Proof.
  destruct t as [| | |i| |]; cbn [thread_step].
  - unfold reader_step, work. repeat case_match; intros; simplify_eq; cbn [with_reader unread samples det_state det mix cons out reader pc]; rewrite <- ?app_assoc, ?length_app;
      cbn [reader_weight length app]; repeat match goal with H : reader s = _ |- _ => rewrite H | H : unread s = _ |- _ => rewrite H end; cbn [reader_weight length]; try lia.
    destruct (pc s); cbn; lia.
  - unfold main_step. intros Hs. enough (main_weight (pc s') < main_weight (pc s) /\ s' = with_main s (pc s'))%nat as [H E]
      by (rewrite E; unfold work; cbn [with_main unread samples det_state det mix cons out reader pc]; lia).
    destruct (pc s) eqn:Ep; repeat case_match; simplify_eq; cbn; split; done || lia.
  - apply detector_work.
  - unfold mix_step. destruct (pool_step _ _ _ _ _) as [[m o]|] eqn:E; [|done]. cbn [mbind option_bind]. intros [= <-]. apply (pool_step_weight _ 7 6 4) in E; [|lia..].
    unfold work. cbn [with_pools unread samples det_state det mix cons out reader pc]. rewrite push_weight. lia.
  - unfold cons_step. destruct (pool_step _ _ _ _ _) as [[m o]|] eqn:E; [|done]. cbn [mbind option_bind]. intros [= <-]. apply (pool_step_weight _ 4 4 2) in E; [|lia..].
    unfold work. cbn [with_pools unread samples det_state det mix cons out reader pc]. rewrite push_weight. lia.
  - unfold out_step. destruct (pool_step _ _ _ _ _) as [[m o]|] eqn:E; [|done]. cbn [mbind option_bind]. intros [= <-]. apply (pool_step_weight _ 2 2 0) in E; [|lia..].
    unfold work. cbn [with_pools unread samples det_state det mix cons out reader pc]. lia.
Qed.

Definition staffed (s : state) : Prop :=
  length (p_workers (mix s)) = num_downmix_workers /\ length (p_workers (cons s)) = 1%nat /\ length (p_workers (out s)) = 1%nat.

Lemma reachable_staffed d0 file s : program_reaches d0 file s -> staffed s.
Proof.
  assert (forall A B (x : option A) (p : pool A B), length (p_workers (push_opt x p)) = length (p_workers p)) as Hp by (by intros A B []).
  induction 1 as [|t s s' _ (S1 & S2 & S3) Hs|s _ IH]; [unfold staffed, init; cbn; by rewrite length_replicate| |exact IH].
  destruct t as [| | |i| |]; cbn [thread_step] in Hs.
  - unfold reader_step in Hs. repeat case_match; simplify_eq; done.
  - unfold main_step in Hs. repeat case_match; simplify_eq; done.
  - unfold detector_step in Hs. repeat case_match; simplify_eq; done.
  - unfold mix_step in Hs. destruct (pool_step _ _ _ _ _) as [[m o]|] eqn:E; [|done]. apply pool_step_moves in E as (_ & _ & _ & E).
    cbn [mbind option_bind] in Hs. simplify_eq. unfold staffed, with_pools. cbn [mix cons out]. rewrite E, Hp. done.
  - unfold cons_step in Hs. destruct (pool_step _ _ _ _ _) as [[m o]|] eqn:E; [|done]. apply pool_step_moves in E as (_ & _ & _ & E).
    cbn [mbind option_bind] in Hs. simplify_eq. unfold staffed, with_pools. cbn [mix cons out]. rewrite E, Hp. done.
  - unfold out_step in Hs. destruct (pool_step _ _ _ _ _) as [[m o]|] eqn:E; [|done]. apply pool_step_moves in E as (_ & _ & _ & E).
    cbn [mbind option_bind] in Hs. simplify_eq. unfold staffed, with_pools. cbn [mix cons out]. rewrite E. done.
Qed.

(** The signal came after [main] had tested [running] and before it paused. *)
Definition missed_signal (s : state) : Prop := pc s = MPaused /\ reader s = RDone /\ running s = false.

(** A schedule. *)
Fixpoint run_threads (ts : list thread) (s : state) : option state :=
  match ts with
  | [] => Some s
  | t :: ts => s ← thread_step t s; run_threads ts s
  end.

Lemma run_bounded ts s s' : run_threads ts s = Some s' -> (length ts + work s' <= work s)%nat.
Proof.
  revert s. induction ts as [|t ts IH]; intros s; cbn [run_threads length]; [by intros [= ->]|]. destruct (thread_step t s) as [s1|] eqn:E; [|done]. cbn [mbind option_bind].
  intros H%IH. apply step_work in E. lia.
Qed.

Lemma run_reachable d0 file ts s s' : program_reaches d0 file s -> run_threads ts s = Some s' -> program_reaches d0 file s'.
Proof.
  revert s. induction ts as [|t ts IH]; intros s Hr; cbn [run_threads]; [by intros [= <-]|]. destruct (thread_step t s) as [s1|] eqn:E; [|done]. cbn [mbind option_bind].
  apply IH. by eapply reach_step.
Qed.
Context (Hs0 : (0 < SAMPLES_QUEUE_SIZE)%nat) (Hs1 : (0 < BURST_QUEUE_SIZE)%nat) (Hw : (0 < num_downmix_workers)%nat).

(** The pools are done or wait at an open, empty queue. *)
Lemma pools_blocked s : staffed s -> (forall t, thread_step t s = None) ->
  (all_gone (mix s) = true \/ (bursts_closed (pc s) = false /\ p_queue (mix s) = [])) /\
  (all_gone (cons s) = true \/ (frames_closed (pc s) = false /\ p_queue (cons s) = [])) /\
  (all_gone (out s) = true \/ (items_closed (pc s) = false /\ p_queue (out s) = [])).
Proof.
  intros (S1 & S2 & S3) H. split_and!.
  - apply (pool_blocked downmix _ (room_for (frames_closed (pc s)) FRAME_QUEUE_SIZE (cons s))). intros i. specialize (H (TMix i)). cbn [thread_step] in H. unfold mix_step in H. by destruct (pool_step _ _ _ i _) as [[]|].
  - apply (pool_blocked consume _ (room_for (items_closed (pc s)) OUTPUT_QUEUE_SIZE (out s))).
    intros [|i]; [|unfold pool_step; by rewrite (lookup_ge_None_2 _ (S i)) by lia]. specialize (H TCons). cbn [thread_step] in H. unfold cons_step in H. by destruct (pool_step _ _ _ 0 _) as [[]|].
  - apply (pool_blocked Some _ true). intros [|i]; [|unfold pool_step; by rewrite (lookup_ge_None_2 _ (S i)) by lia]. specialize (H TOut). cbn [thread_step] in H. unfold out_step in H. by destruct (pool_step _ _ _ 0 _) as [[]|].
Qed.

Lemma detector_blocked s : control s -> staffed s -> (forall t, thread_step t s = None) -> det s = DGone \/ (samples_closed (pc s) = false /\ samples s = []).
Proof.
  intros Hc Hst H. destruct (pools_blocked s Hst H) as (Hm & _). destruct Hst as (S1 & _). revert Hc. split_control.
  specialize (H TDetector). cbn [thread_step] in H. unfold detector_step in H. destruct (det s) as [|[|x l]|] eqn:Ed; [|done| |by left].
  - right. repeat case_match; simplify_eq; done.
  - destruct (bursts_closed (pc s)) eqn:Eb; [done|]. case_match eqn:El; [done|]. apply Nat.ltb_ge in El.
    assert (existsb has_ended (p_workers (mix s)) = true -> False) as Hg by (intros Hg%C13; unfold bursts_closed in Eb; apply Nat.leb_gt in Eb; lia).
    destruct Hm as [Hm|[_ Hq]]; [destruct Hg; apply some_gone; [lia|done]|]. rewrite Hq in El. cbn in El. lia.
Qed.

Lemma reader_blocked s : control s -> staffed s -> (forall t, thread_step t s = None) -> reader s = RDone.
Proof.
  intros Hc Hst H. pose proof (detector_blocked s Hc Hst H) as Hd. revert Hc. split_control.
  assert (running s = true -> samples_closed (pc s) = false /\ samples s = []) as Hopen.
  { intros Hr. destruct Hd as [Hd|?]; [|done]. rewrite C1 in Hr; [done|]. left. by apply C12. }
  specialize (H TReader). cbn [thread_step] in H. unfold reader_step in H. destruct (reader s); [..|done|done].
  - destruct (running s); [|done]. destruct (Hopen eq_refl) as [Ho Hq]. rewrite Ho, Hq in H. cbn [negb length] in H. destruct (unread s); [done|].
    rewrite (proj2 (Nat.ltb_lt 0 SAMPLES_QUEUE_SIZE)) in H; done.
  - destruct (running s); [|done]. destruct (Hopen eq_refl) as [_ Hq]. by rewrite Hq in H.
Qed.

Lemma blocked_end s : control s -> staffed s -> (forall t, thread_step t s = None) -> pc s = MDone \/ missed_signal s.
Proof.
  intros Hc Hst H. pose proof (reader_blocked s Hc Hst H) as Hr. pose proof (detector_blocked s Hc Hst H) as Hd. destruct (pools_blocked s Hst H) as (Hm & Hco & Ho).
  destruct Hst as (S1 & S2 & S3). pose proof Hc as Hc'. revert Hc'. split_control.
  pose proof (some_gone (mix s) ltac:(lia)) as G1. pose proof (some_gone (cons s) ltac:(lia)) as G2. pose proof (some_gone (out s) ltac:(lia)) as G3.
  specialize (H TMain). cbn [thread_step] in H. unfold main_step in H. unfold samples_closed, bursts_closed, frames_closed, items_closed in *.
  destruct (pc s) eqn:Ep; cbn [main_phase Nat.leb] in *; try done; try (by left); try (right; split; [done|]; split; [done|]; apply C2; by right);
    exfalso; try (by rewrite Hr in H); try (destruct Hd as [Hd|[? _]]; [by rewrite Hd in H|done]);
    try (destruct Hm as [Hm|[? Hq]]; [|by rewrite Hq in H || done]; (by rewrite Hm in H) || (apply G1, C13 in Hm; lia));
    try (destruct Hco as [Hco|[? Hq]]; [|by rewrite Hq in H || done]; (by rewrite Hco in H) || (apply G2, C14 in Hco; lia));
    try (destruct Ho as [Ho|[? Hq]]; [|by rewrite Hq in H || done]; (by rewrite Ho in H) || (apply G3, C15 in Ho; lia)).
Qed.

End system.

(** ** Concrete threads for the witnesses *)

(** Numbers for elements: a buffer gives two bursts, every third burst no frame,
    every frame an item; two workers and queues of one or two places. *)
Definition demo_feed (d b : nat) : nat * list nat := (d + b, [b; d + b])%nat.
Definition demo_downmix (b : nat) : option nat := if (b mod 3 =? 0)%nat then None else Some (b * 10)%nat.
#[local] Abbreviation demo_init := (init (Burst := nat) (Frame := nat) (Item := nat) 2 0%nat [1; 2; 4]%nat).
#[local] Abbreviation demo_step := (thread_step demo_feed demo_downmix (fun f : nat => Some f) 1 1 2 2).
#[local] Abbreviation demo_run := (run_threads demo_feed demo_downmix (fun f : nat => Some f) 1 1 2 2).
#[local] Abbreviation demo_reachable := (program_reaches demo_feed demo_downmix (fun f : nat => Some f) 1 1 2 2 2 0%nat [1; 2; 4]%nat).

(** The first thread that can go on, over and over. *)
Fixpoint drive (n : nat) (s : state) : list thread :=
  match n with
  | O => []
  | S n =>
      match List.find (fun t => match demo_step t s with Some _ => true | None => false end) [TMain; TReader; TDetector; TMix 1; TMix 0; TCons; TOut] with
      | Some t => match demo_step t s with Some s => t :: drive n s | None => [] end
      | None => []
      end
  end.
Definition demo_schedule : list thread := Eval vm_compute in drive 200 demo_init.

(** * Properties *)

(** C6 (safety).  No element is lost when the program stops.  When [main] has
    come to its end, the detector has been fed a beginning of the recording, the
    whole of it unless the user interrupted; every burst it found was taken by a
    downmix worker, in order; every frame a worker made of one was taken by the
    consumer or refused because the queue was full; and every item of the
    consumer was handled by the output thread or refused for that reason.  The
    bounded queues, any interleaving of the threads and signals at any time are
    covered. *)
Theorem shutdown_loses_nothing {Buf Burst Frame Item D : Type} (feed : D -> Buf -> D * list Burst) (downmix : Burst -> option Frame) (consume : Frame -> option Item)
    n_samples n_bursts n_frames n_items num_downmix_workers d0 file s :
  (0 < num_downmix_workers)%nat ->
  program_reaches feed downmix consume n_samples n_bursts n_frames n_items num_downmix_workers d0 file s -> pc s = MDone ->
  fed s `prefix_of` file /\ (interrupted s = false -> fed s = file) /\
  p_taken (mix s) = (feeds feed d0 (fed s)).2 /\ det_drops s = [] /\
  omap downmix (p_taken (mix s)) ≡ₚ p_taken (cons s) ++ p_drops (mix s) /\
  omap consume (p_taken (cons s)) ≡ₚ shown s ++ p_drops (cons s).
Proof.
  intros Hn Hr Hd. pose proof (reachable_control _ _ _ _ _ _ _ _ _ _ _ Hn Hr) as (C1 & _ & _ & C3 & _ & C5 & C6 & C7 & C8 & C9 & C10 & C11 & _). rewrite Hd in *. cbn [main_phase] in *.
  destruct (reachable_conserved _ _ _ _ _ _ _ _ _ _ _ Hn Hr) as (F & E & G & A1 & A2 & A3 & A4). unfold arrived in *.
  rewrite C5 in E by lia. rewrite C6 in E by lia. rewrite C8 in A1 by lia. rewrite C10 in A2 by lia. cbn [pending] in E. rewrite !app_nil_r in *.
  apply accounted_end in A1; [|apply C7; lia]. apply accounted_end in A2; [|apply C9; lia]. apply accounted_end in A3; [|apply C11; lia].
  split; [rewrite <- F; by eexists|]. split; [intros Hi; destruct (C3 Hi (C1 ltac:(left; lia))) as [Hu Hsm]; by rewrite <- F, Hu, Hsm, !app_nil_r|].
  rewrite E. split; [done|]. split; [done|]. split; [done|]. rewrite A4, app_nil_r in A3.
  assert (forall l : list Item, omap Some l = l) as Hid by (induction l as [|x l IH]; cbn; [done|by rewrite IH]). rewrite Hid in A3. by rewrite A2, A3.
Qed.

Lemma shutdown_loses_nothing_witness : exists s, demo_run demo_schedule demo_init = Some s /\ pc s = MDone /\ interrupted s = false /\
  p_taken (mix s) = [1; 1; 2; 3; 4; 7]%nat /\ [10; 10; 20; 40; 70]%nat ≡ₚ p_taken (cons s) ++ p_drops (mix s) /\ omap Some (p_taken (cons s)) ≡ₚ shown s ++ p_drops (cons s).
Proof.
  assert (exists s, demo_run demo_schedule demo_init = Some s /\ pc s = MDone /\ interrupted s = false) as (s & E & Hd & Hi) by (eexists; split; [vm_compute; reflexivity|]; split; reflexivity).
  exists s. split; [exact E|]. split; [exact Hd|]. split; [exact Hi|].
  assert (demo_reachable s) as Hr by (eapply run_reachable; [apply reach_init|exact E]).
  destruct (shutdown_loses_nothing demo_feed demo_downmix (fun f => Some f) 1 1 2 2 2 0%nat [1; 2; 4]%nat s ltac:(lia) Hr Hd) as (_ & Hf & Ht & _ & H1 & H2).
  rewrite (Hf Hi) in Ht. change (p_taken (mix s) = [1; 1; 2; 3; 4; 7]%nat) in Ht. split; [exact Ht|]. rewrite Ht in H1. split; [exact H1|exact H2].
Defined.

(** C15 (liveness).  The program stops.  From any state of a run, whatever the
    interleaving, the threads take a bounded number of steps, and where none can
    go on [main] has come to its end, with one exception: when the signal of the
    reader arrives after [main] has tested [running] and before it pauses, the
    pause is not ended. *)
Theorem shutdown_ends {Buf Burst Frame Item D : Type} (feed : D -> Buf -> D * list Burst) (downmix : Burst -> option Frame) (consume : Frame -> option Item)
    n_samples n_bursts n_frames n_items num_downmix_workers d0 file s :
  (0 < n_samples)%nat -> (0 < n_bursts)%nat -> (0 < num_downmix_workers)%nat ->
  program_reaches feed downmix consume n_samples n_bursts n_frames n_items num_downmix_workers d0 file s ->
  (forall ts s', run_threads feed downmix consume n_samples n_bursts n_frames n_items ts s = Some s' -> (length ts <= work feed s)%nat) /\
  ((forall t, thread_step feed downmix consume n_samples n_bursts n_frames n_items t s = None) -> pc s = MDone \/ missed_signal s).
Proof.
  intros H0 H1 Hn Hr. split.
  - intros ts s' E. pose proof (run_bounded feed downmix consume n_samples n_bursts n_frames n_items ts s s' E). lia.
  - apply (blocked_end feed downmix consume n_samples n_bursts n_frames n_items num_downmix_workers H0 H1 Hn); [by eapply reachable_control|by eapply reachable_staffed].
Qed.

Lemma shutdown_ends_witness : (length demo_schedule <= work demo_feed demo_init)%nat.
Proof.
  destruct (shutdown_ends demo_feed demo_downmix (fun f => Some f) 1 1 2 2 2 0%nat [1; 2; 4]%nat demo_init ltac:(lia) ltac:(lia) ltac:(lia) (reach_init _ _ _ _ _ _ _ _ _ _)) as [Hb _].
  assert (exists s, demo_run demo_schedule demo_init = Some s) as (s & E) by (eexists; vm_compute; reflexivity). exact (Hb demo_schedule s E).
Defined.

(** * Limits of the code *)

(** The exception occurs: on an empty file the reader may be done while [main] is
    on its way to [pause]; nothing moves any more. *)
Example signal_missed : exists s, demo_run [TMain; TReader; TReader; TReader; TMain] (init 2 0%nat []) = Some s /\ missed_signal s /\
  forall t, demo_step t s = None.
Proof.
  eexists. split; [vm_compute; reflexivity|]. split; [done|]. intros [| | |[|[|i]]| |]; reflexivity.
Qed.
