(* ===== verification/Startup.v ===== *)
(** Starting the program: [main] of [src/main.c] up to the wait for a signal.

    Start-up is a list of steps; one that fails ends the program.  [makes] lists,
    for every step, the functions with state of their own that the step or the
    thread it starts calls, each under the condition of the calling code;
    [initialiser] says which step sets that state up. *)
From S2P Require Import Prelude CFloat Capture.
#[local] Open Scope Z_scope.

Inductive radio := BladeRF | Usrp | Soapy | SdrPlay | SidekiqCard | HackRF.
#[export] Instance radio_eq_dec : EqDecision radio.
Proof. solve_decision. Defined.

Record options := Opts {
  o_zmq : bool; o_web : bool; o_gsmtap : bool; o_position : bool; o_parsed : bool; o_acars : bool; o_basestation : bool;
  o_vita49 : bool; o_live : bool; o_file : bool; o_zmq_sub : bool;
  o_workers : Z;
  o_radios : radio -> bool;
}.

(** What the calls return, the number of processors, and what VITA 49 found. *)
Record results := Results {
  zmq_ok : bool; web_ok : bool; base_ok : bool; gsmtap_ok : bool;
  ncpu : Z;
  got_ctx : bool; v_samp_rate : f64; v_center_freq : f64;
}.

Inductive init_event :=
  | simd_init | fftw_init | frame_output_init | frame_output_zmq_init | frame_decode_init | ida_decode_init
  | doppler_pos_init | web_map_init | aircraft_db_load | basestation_init | gsmtap_init | waypoint_db_load | acars_init
  | queues_init | start_vita49 | vita49_checked | detector_create | downmix_create (n : nat)
  | start_detector | start_downmix (n : nat) | start_consumer | start_output | start_stats
  | start_radio (r : radio) | no_radio | start_spewer | start_zmq_sub.
#[export] Instance init_event_eq_dec : EqDecision init_event.
Proof. solve_decision. Defined.

(** A step: done, or checked with the end of the program on a failure. *)
Inductive init_step := Run (ev : init_event) | Check (ev : init_event) (ok : bool).
Definition step_event (s : init_step) : init_event := match s with Run ev | Check ev _ => ev end.
Fixpoint exec (steps : list init_step) : list init_event * bool :=
  match steps with
  | [] => ([], true)
  | Run ev :: steps => let '(l, r) := exec steps in (ev :: l, r)
  | Check ev ok :: steps => if ok then let '(l, r) := exec steps in (ev :: l, r) else ([ev], false)
  end.


(** The first radio that was selected, in the order of the tests. *)
Definition pick_radio (selected : radio -> bool) : option radio :=
  List.find selected [BladeRF; Usrp; Soapy; SdrPlay; SidekiqCard; HackRF].

Definition init_steps (o : options) (r : results) : list init_step :=
  [Run simd_init; Run fftw_init; Run frame_output_init] ++
  when (o_zmq o) [Check frame_output_zmq_init (zmq_ok r)] ++
  when (o_web o || o_gsmtap o || o_position o) [Run frame_decode_init] ++
  when (o_parsed o || o_gsmtap o || o_acars o || o_web o) [Run ida_decode_init] ++
  when (o_position o) [Run doppler_pos_init] ++
  when (o_web o) [Check web_map_init (web_ok r)] ++
  when (o_basestation o) [Run aircraft_db_load; Check basestation_init (base_ok r)] ++
  when (o_gsmtap o) [Check gsmtap_init (gsmtap_ok r)] ++
  when (o_acars o || o_basestation o) [Run waypoint_db_load] ++
  when (o_acars o) [Run acars_init] ++
  [Run queues_init].

(** The wait for a context packet: without one, the settings must be usable. *)
Definition vita49_steps (o : options) (r : results) : list init_step :=
  when (o_vita49 o) [Run start_vita49; Check vita49_checked (got_ctx r || (negb (f64_leb (v_samp_rate r) (f64_of_Z 0)) && negb (f64_leb (v_center_freq r) (f64_of_Z 0))))].

Definition thread_steps (o : options) (r : results) : list init_step :=
  let n := Z.to_nat (downmix_workers (o_workers o) (ncpu r)) in
  [Run detector_create; Run (downmix_create n); Run start_detector; Run (start_downmix n); Run start_consumer; Run start_output; Run start_stats].

Definition source_steps (o : options) : list init_step :=
  if o_live o then match pick_radio (o_radios o) with Some x => [Run (start_radio x)] | None => [Check no_radio false] end
  else if o_file o then [Run start_spewer]
  else if o_zmq_sub o then [Run start_zmq_sub]
  else [].

Definition startup (o : options) (r : results) : list init_event * bool :=
  exec (init_steps o r ++ vita49_steps o r ++ thread_steps o r ++ source_steps o).

(** * What is needed *)

(** Functions whose state another call sets up. *)
Inductive call :=
  | simd_kernel | fftw_lock | blocking_queue_call | burst_detector_call | burst_downmix_process (n : nat)
  | frame_output_print | zmq_publish | ida_decode | frame_decode | doppler_pos_call | web_map_call | gsmtap_send
  | acars_ida_cb | waypoint_db_lookup | aircraft_db_lookup | basestation_send_position.

Definition initialiser (c : call) : init_event :=
  match c with
  | simd_kernel => simd_init | fftw_lock => fftw_init | blocking_queue_call => queues_init
  | burst_detector_call => detector_create | burst_downmix_process n => downmix_create n
  | frame_output_print => frame_output_init | zmq_publish => frame_output_zmq_init
  | ida_decode => ida_decode_init | frame_decode => frame_decode_init
  | doppler_pos_call => doppler_pos_init | web_map_call => web_map_init | gsmtap_send => gsmtap_init
  | acars_ida_cb => acars_init | waypoint_db_lookup => waypoint_db_load
  | aircraft_db_lookup => aircraft_db_load | basestation_send_position => basestation_init
  end.

(** The steps that create a thread: the web server's and the aircraft feed's are
    created by their initialisations. *)
Definition creates_thread (ev : init_event) : bool :=
  match ev with
  | web_map_init | basestation_init | start_vita49 | start_detector | start_downmix _ | start_consumer | start_output
  | start_stats | start_radio _ | start_spewer | start_zmq_sub => true
  | _ => false
  end.

(** The steps through which samples arrive while the program runs. *)
Definition is_source (ev : init_event) : bool :=
  match ev with start_radio _ | start_spewer | start_zmq_sub => true | _ => false end.

(** What a step calls, itself or in the thread it creates. *)
Definition makes (o : options) (ev : init_event) : list call :=
  match ev with
  | detector_create => [fftw_lock]
  | downmix_create _ => [fftw_lock; simd_kernel]
  | start_vita49 | start_radio _ | start_spewer | start_zmq_sub => [blocking_queue_call]
  | start_detector => [blocking_queue_call; simd_kernel; burst_detector_call]
  | start_downmix n => [blocking_queue_call; simd_kernel; burst_downmix_process n]
  | start_consumer => [blocking_queue_call; frame_output_print] ++ when (o_zmq o) [zmq_publish] ++
      when (o_parsed o || o_gsmtap o || o_acars o || o_web o) [ida_decode]
  | start_output => [blocking_queue_call] ++ when (o_web o || o_position o) [frame_decode] ++ when (o_web o) [web_map_call] ++
      when (o_position o) [doppler_pos_call] ++ when (o_gsmtap o) [gsmtap_send] ++ when (o_acars o) [acars_ida_cb; waypoint_db_lookup] ++
      when (o_acars o && o_basestation o) [basestation_send_position; aircraft_db_lookup]
  | start_stats => [blocking_queue_call; burst_detector_call] ++ when (o_position o) [doppler_pos_call] ++
      when (o_position o && o_web o) [web_map_call]
  | _ => []
  end.

(** * Lemmas *)

(** What a step needs before it: the state of what it calls; the planner's lock
    before any thread ([fftw_lock.h]); and, for a source of samples, the threads that
    take them to the output. *)
Definition needs (o : options) (ev : init_event) : list init_event :=
  map initialiser (makes o ev) ++ when (creates_thread ev) [fftw_init] ++
  when (is_source ev) [start_detector; start_consumer; start_output].

Fixpoint ready (o : options) (pre log : list init_event) : Prop :=
  match log with
  | [] => True
  | ev :: log => incl (needs o ev) pre /\ ready o (pre ++ [ev]) log
  end.

Lemma ready_app o pre a b : ready o pre (a ++ b) <-> ready o pre a /\ ready o (pre ++ a) b.
Proof.
  revert pre. induction a as [|ev a IH]; intros pre; cbn [ready app]; [by rewrite app_nil_r; tauto|]. rewrite IH, <- app_assoc. cbn [app]. tauto.
Qed.

(** A part in which nothing needs more than what came before the part. *)
Lemma ready_from o pre l : Forall (fun ev => incl (needs o ev) pre) l -> ready o pre l.
Proof.
  intros H. assert (forall m, ready o (pre ++ m) l) as Hm; [|specialize (Hm []); by rewrite app_nil_r in Hm].
  induction H as [|ev l E _ IH]; intros m; [done|]. cbn [ready]. split; [by apply incl_appl|]. rewrite <- app_assoc. apply IH.
Qed.

Lemma exec_prefix steps : exists rest, map step_event steps = fst (exec steps) ++ rest /\ (snd (exec steps) = true -> rest = []).
Proof.
  induction steps as [|[ev|ev ok] steps (rest & E & H)]; [by exists []|..]; cbn [map exec step_event].
  - destruct (exec steps) as [l r]. cbn in *. exists rest. by rewrite E.
  - destruct ok; [destruct (exec steps) as [l r]; cbn in *; exists rest; by rewrite E|]. by exists (map step_event steps).
Qed.

Lemma exec_ends steps ev : snd (exec (steps ++ [Check ev false])) = false.
Proof.
  induction steps as [|[e|e ok] steps IH]; [done|..]; cbn [exec app]; [|destruct ok; [|done]]; by destruct (exec (steps ++ [Check ev false])).
Qed.

Lemma init_ready o r : ready o [] (map step_event (init_steps o r)).
Proof.
  unfold init_steps. rewrite map_app, ready_app. split; [cbn; repeat split; by intros ? []|].
  apply ready_from. unfold when. rewrite !map_app, !Forall_app.
  assert (incl [fftw_init] ([] ++ map step_event [Run simd_init; Run fftw_init; Run frame_output_init])) as Hf by (intros ? [<-|[]]; cbn; tauto).
  assert (incl [] ([] ++ map step_event [Run simd_init; Run fftw_init; Run frame_output_init])) as Hn by (intros ? []).
  repeat split; try match goal with |- context [if ?b then _ else _] => destruct b end;
    repeat (apply Forall_cons; split; [first [exact Hn|exact Hf]|]); apply Forall_nil; exact I.
Qed.

Lemma in_when ev b l : b = true -> In ev (map step_event l) -> In ev (map step_event (when b l)).
Proof. by intros ->. Qed.

(** Finds the part of the list an event is in. *)
Ltac here := solve [cbn; auto 4 | apply in_when; [rewrite ?orb_true_iff; auto 6|cbn; auto 4]].
Ltac find_part := apply in_or_app; first [left; here | right; first [here | find_part]].

(** What the initialisation has done. *)
Lemma init_has o r :
  let l := map step_event (init_steps o r) in
  (In simd_init l /\ In fftw_init l) /\ In frame_output_init l /\ In queues_init l /\
  (o_zmq o = true -> In frame_output_zmq_init l) /\
  (o_web o || o_gsmtap o || o_position o = true -> In frame_decode_init l) /\
  (o_parsed o || o_gsmtap o || o_acars o || o_web o = true -> In ida_decode_init l) /\
  (o_position o = true -> In doppler_pos_init l) /\ (o_web o = true -> In web_map_init l) /\ (o_gsmtap o = true -> In gsmtap_init l) /\
  (o_acars o = true -> In acars_init l /\ In waypoint_db_load l) /\ (o_basestation o = true -> In aircraft_db_load l /\ In basestation_init l).
Proof.
  cbv zeta. unfold init_steps. rewrite !map_app.
  split; [split; find_part|]. split; [find_part|]. split; [find_part|].
  repeat (split; [intros E; rewrite ?orb_true_iff in E; first [find_part|split; find_part]|]). intros E; split; find_part.
Qed.

(** Membership in what a step needs, part by part. *)
Lemma in_when_iff {A} (x : A) (b : bool) l : In x (when b l) <-> b = true /\ In x l.
Proof. destruct b; cbn; intuition discriminate. Qed.

Ltac split_needs :=
  repeat match goal with
  | H : _ \/ _ |- _ => destruct H
  | H : _ /\ _ |- _ => destruct H
  | H : False |- _ => destruct H
  | H : andb _ _ = true |- _ => apply andb_true_iff in H
  end.

(** Every need of a step is among the events given. *)
Ltac needs_met :=
  intros ?x Hx; unfold needs in Hx; cbn [makes creates_thread is_source] in Hx;
  rewrite ?map_app, ?in_app_iff, ?in_map_iff in Hx; cbn [In] in Hx;
  repeat match goal with H : _ \/ _ |- _ => destruct H | H : exists _, _ |- _ => destruct H | H : _ /\ _ |- _ => destruct H end;
  subst; rewrite ?in_app_iff, ?in_when_iff in *; cbn [In] in *; split_needs; subst; cbn [initialiser]; try discriminate;
  rewrite ?in_app_iff; cbn [In]; try tauto.

(** The threads and the sources have what they need. *)
Lemma later_ready o r : ready o (map step_event (init_steps o r)) (map step_event (vita49_steps o r ++ thread_steps o r ++ source_steps o)).
Proof.
  destruct (init_has o r) as (H1 & H2 & H3 & H4 & H5 & H6 & H7 & H8 & H9 & H10 & H11). set (l := map step_event (init_steps o r)) in *. clearbody l.
  assert (o_web o = true \/ o_position o = true -> In frame_decode_init l) as H5' by (intros E; apply H5; rewrite !orb_true_iff; tauto).
  rewrite !map_app, !ready_app. split; [|split].
  - unfold vita49_steps, when. destruct (o_vita49 o); [|done]. cbn [map step_event ready]. repeat split; needs_met.
  - unfold thread_steps. cbn [map step_event ready]. rewrite <- !app_assoc. repeat split; needs_met.
    all: rewrite ?orb_true_iff in *; try tauto.
  - unfold source_steps, thread_steps. cbn [map step_event].
    destruct (o_live o); [destruct (pick_radio (o_radios o)) as [x|]|destruct (o_file o); [|destruct (o_zmq_sub o)]]; cbn [map step_event ready]; try done;
      (split; [|done]); needs_met.
Qed.

(** * Properties *)

